(* ===== verification/_CoqProject ===== *)
-Q . S2P
Prelude.v
Macros.v
Locking.v
Dll.v
Mem.v
CString.v
FrameHdr.v
EarlyMem.v
Blocks.v
FrameAlloc.v
BuddyRep.v
BuddyProof.v
BuddyInit.v
BuddyTheorems.v
PageIface.v
Slab.v
SlabRep.v
SlabOps.v
SlabProof.v
HeapSpec.v
HeapFrame.v
HeapTheorems.v
Mmu.v
MmuRep.v
MmuProof.v
MmuRange.v
MmuTheorems.v
Kprintf.v
KprintfSpec.v
KprintfTheorems.v
RunQueue.v
RunQueueSpec.v
Sched.v
SchedSpec.v
Kevent.v
Vector.v
Idt.v
SchedTasks.v
SchedProof.v
SchedTheorems.v
KeventSpec.v
KeventTheorems.v
Timer.v
TimerSpec.v
TimerTheorems.v
RbTree.v
RbRep.v
RbSpec.v
RbRemove.v
RbOps.v
RbTheorems.v
Pathn.v
Pnc.v
PncSpec.v
PncTheorems.v
VfsBase.v
Ramfs.v
Vfs.v
VfsSpec.v
VfsTheorems.v
Device.v
DeviceSpec.v
PartitionScan.v
NvmeHdr.v
Nvme.v
NvmeCache.v
NvmeIo.v
NvmeProof.v
NvmeStart.v
NvmeDev.v
NvmeDevice.v
NvmeTheorems.v
DeviceTheorems.v
VectorSpec.v
Ports.v
Rtc.v
RtcTheorems.v
Pci.v
Acpi.v
Apic.v
