(* ===== verification/Prelude.v ===== *)
(** * MunkOS: a verification of the kernel's data structures and drivers

    MunkOS is an x86-64 kernel in C (src/kernel).  This library models it as
    functions on explicit states and proves what they do.  This file has the
    vocabulary all others use; the header describes the whole library.

    ** The program and the files that model it

    Paths are below src/kernel; a name like Slab stands for the file Slab.v,
    whose definitions are in the module of the same name and keep the names
    of the C functions.  Loops of a function that are definitions of their
    own come right before it.

    - Memory, from the bottom up.  The boot loader's memory map is handed out
      by the boot-time allocator (src/mm/mem_init.c: EarlyMem), from which the
      buddy allocator takes its page array and bitmaps
      (src/mm/frame_alloc.c, include/frame_alloc.h: FrameHdr, FrameAlloc; the
      mathematics of blocks: Blocks; proofs: BuddyRep, BuddyProof, BuddyInit,
      BuddyTheorems).  PageIface states what it promises to its two clients as
      the class [PageAllocator] and makes it an instance.  The clients are the
      heap (src/mm/slab.c: Slab; proofs: SlabRep, SlabOps, SlabProof,
      HeapSpec, HeapFrame, HeapTheorems) and the page tables
      (src/arch/x86-64/mmu.c: Mmu; proofs: MmuRep, MmuProof, MmuRange,
      MmuTheorems).
    - Libraries: include/macros.h and math.h (Macros), src/std/locking.c
      (Locking), src/std/memory.c (Mem), string.c (CString), kprintf.c
      (Kprintf; KprintfSpec, KprintfTheorems), include/vector.h (Vector;
      VectorSpec), src/std/rbtree.c (RbTree; RbRep, RbSpec, RbRemove, RbOps,
      RbTheorems), src/std/pathn.c (Pathn), and the linked lists several
      components have their own copy of (Dll).
    - Threads and time: src/proc/scheduler.c (RunQueue, Sched, SchedTasks;
      RunQueueSpec, SchedSpec, SchedProof, SchedTheorems),
      src/misc/kevent.c (Kevent; KeventSpec, KeventTheorems), src/misc/time.c
      (Timer; TimerSpec, TimerTheorems).  A tick launches the events of timers
      that are due, which wakes the threads that wait for them.
    - Files: src/fs/pathncache.c (Pnc; PncSpec, PncTheorems), ramfs.c and
      vfs.c (VfsBase, Ramfs, Vfs; VfsSpec, VfsTheorems).
    - Disks: src/driver/nvme.c (NvmeHdr, Nvme; NvmeCache, NvmeIo, NvmeProof,
      NvmeStart, NvmeDev, NvmeDevice, NvmeTheorems), device.c and
      disk_partition.c (Device; DeviceSpec, PartitionScan, DeviceTheorems).
      The class [BlockDriver] with its laws [DriverOk] is between the two.
    - The machine: descriptor tables (src/arch/x86-64/interrupt.c and
      cpu/gdt.c: Idt), ports, serial ports, keyboard controller, interval
      timer (src/driver/serial.c, ps2_keyboard.c and others: Ports), clock
      (src/arch/x86-64/timers.c: Rtc; RtcTheorems), src/driver/pci.c (Pci),
      acpi.c (Acpi) and src/arch/x86-64/cpu/apic.c (Apic), each of the three
      with its theorems in a second module of the same file.

    ** How the code is modelled

    A function that can stop the machine or leave the defined behaviour of C
    returns an [outcome]; [returns o Q] says that [o] does neither.  Integers
    are [Z], wrapped at the width of the C expression ([u32], [+!]).  Memory
    is a map from addresses to bytes.  Objects that only typed accesses reach
    (page structs, tasks, tree nodes, vnodes) are records in a store by
    address; strings, buffers, free lists, page tables and arrays are bytes.
    A pointer into such a store is a [word]: [Ref a], or a number, null
    included.  State is passed explicitly; a component's state contains that
    of the components it calls, so that a theorem about the file system is
    also one about the heap below it.  Locks and the interrupt flag are part
    of the state, and the theorems say that they are given back.

    What is not in the source tree is a parameter, and what the proofs rely on
    is stated with it: the boot loader's responses ([Limine]), the NVMe
    controller ([NvmeController], [NvmeObeys]), the devices behind ports and
    registers ([Ports], [Mmio] and the records about a clock, a PCI function
    and IOAPICs next to the theorems).  For each there is a concrete instance
    in a module [Sample], where the theorems are applied.

    ** What is shown

    - Frames (BuddyTheorems, EarlyMem): bring-up makes a consistent allocator
      of exactly the pages left in the memory map; allocation and free act on
      the set of free frames, fail only when they must if buddies are merged,
      and keep them merged; any sequence of operations keeps blocks apart.
    - Heap (HeapTheorems): the heap refines a map of live blocks; whatever its
      clients do with blocks of their own, nobody else's bytes change.
    - Page tables (MmuTheorems): after mapping a range the processor's walk
      translates exactly this range anew; [virt2phys] agrees with the walk.
    - Locks (Locking): mutual exclusion for any interleaving of any number of
      cores.  The other components are modelled on one core.
    - Libraries (Mem, CString, KprintfTheorems, RbTheorems, Pathn): against
      reference definitions on lists and finite maps; what [snprintf_] stores
      is what [printf_] prints, cut off; trees stay balanced.
    - Threads (SchedTheorems, KeventTheorems, TimerTheorems): an invariant
      over all sequences of scheduler events, round robin within a priority,
      the round trip of waiting and waking, ticks launch what is due.
    - Files (PncTheorems, VfsTheorems): the cache refines a map; paths resolve
      section by section through mounts; created files are found, written
      bytes are read back.
    - Disks (NvmeTheorems, DeviceTheorems): through cache, queues and any
      obedient controller the device is an array of bytes; a scan makes the
      devices the partition table describes; a partition cannot write outside
      of itself.
    - Machine (RtcTheorems, and the modules PciTheorems, AcpiTheorems and
      ApicTheorems of Pci, Acpi and Apic): calendar and consistent reads of the clock, sizing of base address registers,
      collection of interrupt controllers, routing of interrupts.

    Theorems with hypotheses have a witness: a concrete machine on which they
    hold.  Some theorems show behaviour the source does not intend, for
    instance [kmalloc_large_overlap] or [strtok_r_null].

    ** Bounds

    Recursion that is not structural takes fuel.  Where the number of rounds
    follows from the state (orders, list lengths, the number of page structs,
    sizes in memory, the limits of [spin_lock] and of polling) the caller
    computes it, and the theorems that say [returns] show that it is enough.
    Loops over strings and waits for devices have the fuel as an argument;
    running out is a [Fault], and the theorems ask for more than the length
    of the string, or for as many rounds as the device is slow.  Device
    functions call one another through [dev->read]; their fuel is the depth of
    the stack of partitions.  Sizes and addresses in the hypotheses keep the
    64-bit sums of the code from wrapping; where the code itself fails to
    ensure it, that is said with the theorem.

    ** Modelling notes

    - The page tables and the heap each have a memory and an instance of the
      frame allocator of their own; that they share one is what the class
      [PageAllocator] abstracts from.
    - Kernel text and static objects are memory outside of the heap's frames
      ([static] in HeapFrame).
    - Division by zero is total in [_ntoa_long] (base 0) and in the number of
      blocks for an LBA size of 0, which no caller passes; the index of
      [get_child] in Timer is not wrapped, its argument being an array index.
    - [pathn_buffer_n] faults where the C code writes behind its array.
    - Loops that never end in C, such as the wait in [lapic_send_ipi], are
      faults.
    - What is only printed is left out, except in Kprintf itself.
    - Numeric constants keep their C names.

    ** Not modelled

    Third-party code (uACPI, terminal, boot loader) and the functions it calls
    (src/third-party); assembly stubs; start-up of further cores and the order
    of initialisation (src/arch/x86-64/smp.c, src/kmain.c), which set machine
    registers and call what is modelled; cpuid; calibration of timers, which
    busy-waits for interrupts; [init_nvme_controller], [init_lapic] and
    [ps2_init]; stack traces and sanitizer run-times; the bitmap frame
    allocator, which the build does not select; lock timeouts and mutexes;
    caches of the processor, weak memory and floating point. *)

From stdpp Require Export base list list_numbers gmap sets strings.
From Stdlib Require Export ZArith Lia.

#[global] Open Scope Z_scope.

(** ** Machine integers

    Unsigned C integers are kept as [Z] in [0, 2^w); every operation the code
    performs at a given width is wrapped explicitly. *)

Definition u8 (x : Z) : Z := x mod 2 ^ 8.
Definition u16 (x : Z) : Z := x mod 2 ^ 16.
Definition u32 (x : Z) : Z := x mod 2 ^ 32.
Definition u64 (x : Z) : Z := x mod 2 ^ 64.

(** Conversion to [int] and [signed char]. *)
Definition s32 (x : Z) : Z := (x + 2 ^ 31) mod 2 ^ 32 - 2 ^ 31.
Definition s8 (x : Z) : Z := (x + 2 ^ 7) mod 2 ^ 8 - 2 ^ 7.

Declare Scope munk_scope.
Delimit Scope munk_scope with munk.
#[global] Open Scope munk_scope.

Notation "a +! b" := (u64 (a + b)) (at level 50, left associativity) : munk_scope.
Notation "a -! b" := (u64 (a - b)) (at level 50, left associativity) : munk_scope.
Notation "a *! b" := (u64 (a * b)) (at level 40, left associativity) : munk_scope.

(** [if (x & mask)] of the source. *)
Definition tst (x mask : Z) : bool := negb (Z.land x mask =? 0).

(** ** Outcomes

    A C function that can stop the machine or step outside the defined
    behaviour of C returns an [outcome]: [Ret a] is a normal return, [Panic]
    a call of [kpanic] (which halts the core), [Fault] an access the program
    has no business making: a null or wild pointer, an index outside its
    array. *)

Inductive outcome (A : Type) : Type :=
  | Ret (a : A)
  | Panic (msg : string)
  | Fault (msg : string).
Arguments Ret {A} a.
Arguments Panic {A} msg.
Arguments Fault {A} msg.

#[global] Instance outcome_ret : MRet outcome := fun A a => Ret a.
#[global] Instance outcome_bind : MBind outcome := fun A B k o =>
  match o with
  | Ret a => k a
  | Panic m => Panic m
  | Fault m => Fault m
  end.

#[global] Instance outcome_inhabited A : Inhabited (outcome A) := populate (Fault EmptyString).

(** [returns o Q]: the computation [o] ends normally, neither panics nor
    faults, and its result satisfies [Q]. *)
Definition returns {A} (o : outcome A) (Q : A -> Prop) : Prop :=
  match o with Ret a => Q a | _ => False end.

Lemma returns_ret {A} (a : A) (Q : A -> Prop) : Q a -> returns (Ret a) Q.
Proof. done. Qed.

Lemma returns_bind {A B} (o : outcome A) (k : A -> outcome B) (Q : B -> Prop) :
  returns o (fun a => returns (k a) Q) -> returns (o ≫= k) Q.
Proof. by destruct o. Qed.

Lemma returns_mono {A} (o : outcome A) (P Q : A -> Prop) :
  returns o P -> (forall a, P a -> Q a) -> returns o Q.
Proof. destruct o; simpl; eauto. Qed.

Lemma returns_inv {A} (o : outcome A) (Q : A -> Prop) :
  returns o Q -> exists a, o = Ret a /\ Q a.
Proof. destruct o; simpl; [eauto | done | done]. Qed.

Lemma returns_eq {A} (o : outcome A) (a : A) (Q : A -> Prop) :
  o = Ret a -> Q a -> returns o Q.
Proof. by intros ->. Qed.

(** Two calls in a row are one call. *)
Lemma returns_assoc {A B C} (o : outcome A) (f : A -> outcome B) (g : B -> outcome C) (Q : C -> Prop) :
  returns ((o ≫= f) ≫= g) Q -> returns (o ≫= fun a => f a ≫= g) Q.
Proof. by destruct o. Qed.

(** [of_option msg o] faults where the array or map access [o] misses. *)
Definition of_option {A} (msg : string) (o : option A) : outcome A :=
  match o with Some a => Ret a | None => Fault msg end.

Lemma returns_of_option {A} msg (o : option A) (a : A) (Q : A -> Prop) :
  o = Some a -> Q a -> returns (of_option msg o) Q.
Proof. by intros ->. Qed.

(** Step through a monadic body: [mstep] exposes the next call, [mpure] and
    [mret] discharge one whose result is known by an equation. *)
Ltac mstep := apply returns_bind.
Ltac mcall H := apply returns_bind; eapply returns_mono; [apply H | cbn beta].
Ltac mpure H := apply returns_bind; eapply (returns_eq _ _ _ H).
Tactic Notation "mret" uconstr(L) := apply returns_bind; eapply returns_eq; [apply L|].

(** ** Pointers

    A pointer-sized slot holds either a reference to an object of the store
    it belongs to ([Ref], the object's index or address) or a plain number
    ([Num]): [NULL] is [Num 0], the poison value of unlinked nodes is
    [Num 0xDEADBEEF]. *)

Inductive word : Type :=
  | Ref (a : Z)
  | Num (n : Z).

#[global] Instance word_eq_dec : EqDecision word.
Proof. solve_decision. Defined.

Abbreviation NULL := (Num 0).
Definition DEADBEEF : word := Num 0xDEADBEEF.

(** [if (p)] of the source. *)
Definition nonnull (w : word) : bool :=
  match w with Ref _ => true | Num n => negb (n =? 0) end.

Lemma nonnull_NULL : nonnull NULL = false.
Proof. reflexivity. Qed.

(** ** Stores of objects

    Objects of one C type that only this code points to are kept in a store
    of their own, by address. *)

(** [*p] and [p->field = x]. *)
Definition load {A} (p : word) (m : gmap Z A) : outcome A :=
  match p with
  | Ref a => of_option "dereference of an address outside the store" (m !! a)
  | Num _ => Fault "dereference of a number"
  end.
Definition store {A} (p : word) (f : A -> A) (m : gmap Z A) : outcome (gmap Z A) :=
  match p with
  | Ref a =>
      x ← of_option "store to an address outside the store" (m !! a);
      Ret (<[a := f x]> m)
  | Num _ => Fault "store through a number"
  end.

(** A call through a pointer that was never set. *)
Definition fn {F} (f : option F) : outcome F := of_option "call of a null pointer" f.

(** The pointer [kmalloc] returned. *)
Definition pointer (a : Z) : word := if a =? 0 then NULL else Ref a.

(** The object a pointer leads to is gone. *)
Definition forget {A} (p : word) (m : gmap Z A) : gmap Z A := match p with Ref a => delete a m | Num _ => m end.

(** ** Arithmetic shared by the components *)

Create HintDb munk.

Lemma pow2_pos k : 0 <= k -> 0 < 2 ^ k.
Proof. intros. by apply Z.pow_pos_nonneg. Qed.
#[export] Hint Resolve pow2_pos : munk.

Lemma pow2_split k m : 0 <= k -> k <= m -> 2 ^ m = 2 ^ k * 2 ^ (m - k).
Proof. intros. rewrite <- Z.pow_add_r by lia. f_equal; lia. Qed.

Lemma pow2_divide k m : 0 <= k -> k <= m -> (2 ^ k | 2 ^ m).
Proof. intros. rewrite (pow2_split k m) by lia. apply Z.divide_factor_l. Qed.

Lemma u64_small x : 0 <= x < 2 ^ 64 -> u64 x = x.
Proof. apply Z.mod_small. Qed.

Lemma u8_small x : 0 <= x < 2 ^ 8 -> u8 x = x.
Proof. apply Z.mod_small. Qed.

Lemma u16_small x : 0 <= x < 2 ^ 16 -> u16 x = x.
Proof. apply Z.mod_small. Qed.

Lemma u32_small x : 0 <= x < 2 ^ 32 -> u32 x = x.
Proof. apply Z.mod_small. Qed.

Lemma u64_range x : 0 <= u64 x < 2 ^ 64.
Proof. apply Z.mod_pos_bound. lia. Qed.

Lemma u64_add_sub x y : u64 (u64 (x - y) + y) = u64 x.
Proof. unfold u64. rewrite Zplus_mod_idemp_l. f_equal. lia. Qed.

Lemma s32_small x : - 2 ^ 31 <= x < 2 ^ 31 -> s32 x = x.
Proof. intros. unfold s32. rewrite Z.mod_small; lia. Qed.

(** Distinct indices below [n] are at most [n]. *)
Lemma list_length_bound (l : list Z) n : NoDup l -> (forall i, i ∈ l -> 0 <= i < n) -> (length l <= Z.to_nat n)%nat.
Proof.
  intros Hnd Hr. rewrite <- (length_seqZ 0 n). apply submseteq_length, NoDup_submseteq; [done|].
  intros i Hi. apply elem_of_seqZ. specialize (Hr i Hi). lia.
Qed.
