(* ===== verification/Macros.v ===== *)
(** * The macros and inline helpers of include/macros.h and include/math.h

    Alignment, bit-field extraction, powers and divisions, each at the width
    the C expression has: 64 bit unless the source shifts an [int].  The
    lemmas give their arithmetic meaning for the power-of-two bases the kernel
    uses them with. *)

From S2P Require Import Prelude.

Module Macros.

Definition MAX (x y : Z) : Z := if x >? y then x else y.
Definition MIN (x y : Z) : Z := if x <? y then x else y.
Definition DIFF (x y : Z) : Z := MAX x y -! MIN x y.

Definition ALIGN_UP (x base : Z) : Z := Z.land (u64 (x + base - 1)) (u64 (Z.lnot (base - 1))).
Definition ALIGN_DOWN (x base : Z) : Z := Z.land x (u64 (Z.lnot (base - 1))).

Definition DIV_ROUNDUP (x y : Z) : Z := u64 (x + y - 1) / y.
Definition DIV_ROUNDDOWN (x y : Z) : Z := x / y.

Definition EXTRACT_BITS (value start_index end_index : Z) : Z :=
  Z.shiftr
    (Z.land value
       (u64 (Z.shiftl (u64 (Z.shiftl 1 (end_index - start_index + 1)) - 1) start_index)))
    start_index.

(** [POW]: [out *= base] repeated [exponent] times, at 64 bit. *)
Fixpoint POW_loop (n : nat) (base out : Z) : Z :=
  match n with
  | O => out
  | S n => POW_loop n base (out *! base)
  end.
Definition POW (base exponent : Z) : Z := POW_loop (Z.to_nat exponent) base 1.

(** The bitmap macros, on a byte array given as a map from byte index. *)
Definition BITMAP_SET_BIT (bitmap : gmap Z Z) (bit_index : Z) : outcome (gmap Z Z) :=
  b ← of_option "bitmap" (bitmap !! (bit_index / 8));
  Ret (<[bit_index / 8 := u8 (Z.lor b (Z.shiftl 1 (bit_index mod 8)))]> bitmap).
Definition BITMAP_UNSET_BIT (bitmap : gmap Z Z) (bit_index : Z) : outcome (gmap Z Z) :=
  b ← of_option "bitmap" (bitmap !! (bit_index / 8));
  Ret (<[bit_index / 8 := u8 (Z.land b (Z.lnot (Z.shiftl 1 (bit_index mod 8))))]> bitmap).
Definition BITMAP_READ_BIT (bitmap : gmap Z Z) (bit_index : Z) : outcome Z :=
  b ← of_option "bitmap" (bitmap !! (bit_index / 8));
  Ret (Z.land b (Z.shiftl 1 (bit_index mod 8))).

(** math.h *)

(** [__builtin_clzl] and [__builtin_ctzl] on a non-zero 64-bit argument. *)
Definition clzl (x : Z) : Z := 63 - Z.log2 x.
Fixpoint ctz_pos (p : positive) : Z :=
  match p with xO q => 1 + ctz_pos q | _ => 0 end.
Definition ctzl (x : Z) : Z := match x with Zpos p => ctz_pos p | _ => 0 end.

Definition next_pow_2 (x : Z) : Z :=
  if x =? 0 then 0
  else
    let leading := clzl x in
    if 8 * 8 -! (leading +! ctzl x) =? 1 then x
    else u64 (s32 (Z.shiftl 1 (8 * 8 -! leading))).

Definition min (x y : Z) : Z := if x <? y then x else y.
Definition max (x y : Z) : Z := if x >? y then x else y.

Definition crosses_boundary (start len boundary : Z) : bool :=
  let bound_begin := start / boundary in
  let bound_end := u64 (start + len - 1) / boundary in
  negb (bound_begin =? bound_end).

(** ** Meaning *)

Lemma MIN_min x y : MIN x y = Z.min x y.
Proof. unfold MIN. destruct (Z.ltb_spec x y); lia. Qed.

Lemma MAX_max x y : MAX x y = Z.max x y.
Proof. unfold MAX. rewrite Z.gtb_ltb. destruct (Z.ltb_spec y x); lia. Qed.

Lemma lnot_mask k : 0 <= k < 64 -> u64 (Z.lnot (2 ^ k - 1)) = 2 ^ 64 - 2 ^ k.
Proof.
  intros. replace (Z.lnot (2 ^ k - 1)) with (- 2 ^ k) by (unfold Z.lnot; lia).
  unfold u64. symmetry. apply Z.mod_unique_pos with (q := -1); [|lia].
  pose proof (Z.pow_lt_mono_r 2 k 64). pose proof (pow2_pos k). lia.
Qed.

Lemma land_high_mask x k :
  0 <= k < 64 -> 0 <= x < 2 ^ 64 -> Z.land x (2 ^ 64 - 2 ^ k) = 2 ^ k * (x / 2 ^ k).
Proof.
  intros Hk Hx. rewrite Z.mul_comm, <- Z.shiftl_mul_pow2, <- Z.shiftr_div_pow2 by lia.
  apply Z.bits_inj'. intros n Hn. rewrite Z.land_spec.
  destruct (Z.ltb_spec n k).
  - rewrite Z.shiftl_spec_low by lia.
    replace (2 ^ 64 - 2 ^ k) with (Z.shiftl (2 ^ (64 - k) - 1) k).
    { rewrite Z.shiftl_spec_low by lia. apply andb_false_r. }
    rewrite Z.shiftl_mul_pow2 by lia. rewrite (pow2_split k 64) by lia. lia.
  - rewrite Z.shiftl_spec by lia. rewrite Z.shiftr_spec by lia.
    replace (n - k + k) with n by lia.
    replace (2 ^ 64 - 2 ^ k) with (Z.shiftl (Z.ones (64 - k)) k).
    { rewrite Z.shiftl_spec by lia. destruct (Z.ltb_spec n 64).
      - rewrite Z.ones_spec_low by lia. apply andb_true_r.
      - rewrite Z.ones_spec_high by lia. rewrite andb_false_r.
        symmetry. rewrite <- (Z.mod_small x (2 ^ 64)) by lia.
        apply Z.mod_pow2_bits_high. lia. }
    rewrite Z.shiftl_mul_pow2 by lia. rewrite Z.ones_equiv, (pow2_split k 64) by lia. lia.
Qed.

Lemma ALIGN_DOWN_spec x k :
  0 <= k < 64 -> 0 <= x < 2 ^ 64 -> ALIGN_DOWN x (2 ^ k) = 2 ^ k * (x / 2 ^ k).
Proof. intros. unfold ALIGN_DOWN. rewrite lnot_mask by lia. by apply land_high_mask. Qed.

Lemma ALIGN_UP_spec x k :
  0 <= k < 64 -> 0 <= x -> x + 2 ^ k - 1 < 2 ^ 64 ->
  ALIGN_UP x (2 ^ k) = 2 ^ k * ((x + 2 ^ k - 1) / 2 ^ k).
Proof.
  intros. pose proof (pow2_pos k). unfold ALIGN_UP.
  rewrite lnot_mask, u64_small by lia. apply land_high_mask; lia.
Qed.

(** The least multiple at or above [x], the greatest at or below it. *)
Lemma ALIGN_UP_bounds x k :
  0 <= k < 64 -> 0 <= x -> x + 2 ^ k - 1 < 2 ^ 64 ->
  x <= ALIGN_UP x (2 ^ k) < x + 2 ^ k /\ (2 ^ k | ALIGN_UP x (2 ^ k)).
Proof.
  intros. rewrite ALIGN_UP_spec by lia. pose proof (pow2_pos k).
  pose proof (Z.div_mod (x + 2 ^ k - 1) (2 ^ k)).
  pose proof (Z.mod_pos_bound (x + 2 ^ k - 1) (2 ^ k)).
  split; [lia | apply Z.divide_factor_l].
Qed.

Lemma ALIGN_DOWN_bounds x k :
  0 <= k < 64 -> 0 <= x < 2 ^ 64 ->
  x - 2 ^ k < ALIGN_DOWN x (2 ^ k) <= x /\ (2 ^ k | ALIGN_DOWN x (2 ^ k)).
Proof.
  intros. rewrite ALIGN_DOWN_spec by lia. pose proof (pow2_pos k).
  pose proof (Z.div_mod x (2 ^ k)). pose proof (Z.mod_pos_bound x (2 ^ k)).
  split; [lia | apply Z.divide_factor_l].
Qed.

Lemma ALIGN_UP_id x k :
  0 <= k < 64 -> 0 <= x -> x + 2 ^ k - 1 < 2 ^ 64 -> (2 ^ k | x) -> ALIGN_UP x (2 ^ k) = x.
Proof.
  intros Hk H0 H1 [q ->]. pose proof (pow2_pos k). rewrite ALIGN_UP_spec by lia.
  replace (q * 2 ^ k + 2 ^ k - 1) with (2 ^ k - 1 + q * 2 ^ k) by lia.
  rewrite Z.div_add, Z.div_small by lia. lia.
Qed.

Lemma ALIGN_DOWN_id x k :
  0 <= k < 64 -> 0 <= x < 2 ^ 64 -> (2 ^ k | x) -> ALIGN_DOWN x (2 ^ k) = x.
Proof.
  intros Hk H0 [q ->]. pose proof (pow2_pos k). rewrite ALIGN_DOWN_spec by lia.
  rewrite Z.div_mul by lia. lia.
Qed.

Lemma POW_loop_spec n base out :
  0 <= out -> 0 <= base -> out * base ^ Z.of_nat n < 2 ^ 64 -> (0 < base) ->
  POW_loop n base out = out * base ^ Z.of_nat n.
Proof.
  revert out. induction n as [|n IH]; intros out Ho Hb Hlt Hpos; simpl POW_loop.
  - simpl. lia.
  - rewrite Nat2Z.inj_succ, Z.pow_succ_r in * by lia.
    assert (1 <= base ^ Z.of_nat n) by (pose proof (Z.pow_pos_nonneg base (Z.of_nat n)); lia).
    assert (out * base < 2 ^ 64) by nia.
    rewrite u64_small by nia. rewrite IH by nia. lia.
Qed.

Lemma POW_spec base exponent :
  0 < base -> 0 <= exponent -> base ^ exponent < 2 ^ 64 -> POW base exponent = base ^ exponent.
Proof. intros. unfold POW. rewrite POW_loop_spec; rewrite ?Z2Nat.id; lia. Qed.

(** ** Bits *)

Lemma land_bit e n : 0 <= n -> Z.land e (2 ^ n) = if Z.testbit e n then 2 ^ n else 0.
Proof.
  intros Hn. apply Z.bits_inj'. intros m Hm. rewrite Z.land_spec, Z.pow2_bits_eqb by done.
  destruct (Z.eqb_spec n m) as [->|Hne].
  - destruct (Z.testbit e m); [by rewrite Z.pow2_bits_true|by rewrite Z.bits_0].
  - rewrite andb_false_r. destruct (Z.testbit e n); [|by rewrite Z.bits_0].
    symmetry. apply Z.pow2_bits_false. lia.
Qed.

Lemma tst_bit e n : 0 <= n -> tst e (Z.shiftl 1 n) = Z.testbit e n.
Proof.
  intros Hn. unfold tst. rewrite Z.shiftl_1_l, land_bit by done. pose proof (pow2_pos n Hn).
  destruct (Z.testbit e n); [|done]. by destruct (Z.eqb_spec (2 ^ n) 0); [lia|].
Qed.

Lemma lor_range a b k : 0 <= k -> 0 <= a < 2 ^ k -> 0 <= b < 2 ^ k -> 0 <= Z.lor a b < 2 ^ k.
Proof.
  intros Hk Ha Hb. split; [apply Z.lor_nonneg; lia|].
  destruct (decide (Z.lor a b = 0)) as [->|]; [lia|].
  assert (0 <= Z.lor a b) by (apply Z.lor_nonneg; lia).
  apply Z.log2_lt_pow2; [lia|]. rewrite Z.log2_lor by lia.
  assert (forall x, 0 <= x < 2 ^ k -> Z.log2 x < k \/ Z.log2 x = 0) as Hl.
  { intros x Hx. destruct (decide (x = 0)) as [->|]; [by right|left; apply Z.log2_lt_pow2; lia]. }
  destruct (decide (k = 0)) as [->|]; [change (2 ^ 0) with 1 in *; assert (a = 0) as -> by lia; assert (b = 0) as -> by lia; done|].
  destruct (Hl a Ha), (Hl b Hb); lia.
Qed.

Lemma tst_aligned x k : 0 <= k -> (2 ^ k | x) -> tst x (2 ^ k - 1) = false.
Proof.
  intros Hk [q ->]. unfold tst. replace (2 ^ k - 1) with (Z.ones k) by (rewrite Z.ones_equiv; lia).
  rewrite Z.land_ones, Z.mod_mul by (pose proof (pow2_pos k Hk); lia). done.
Qed.

(** Bits [k .. w) *)
Definition field (k w : Z) : Z := Z.shiftl (Z.ones (w - k)) k.

Lemma field_bit k w n : 0 <= k <= w -> 0 <= n -> Z.testbit (field k w) n = (k <=? n) && (n <? w).
Proof.
  intros Hk Hn. unfold field. destruct (Z.leb_spec k n).
  - rewrite Z.shiftl_spec by lia. destruct (Z.ltb_spec n w); [apply Z.ones_spec_low; lia|apply Z.ones_spec_high; lia].
  - by rewrite Z.shiftl_spec_low by lia.
Qed.

Lemma multiple_bits x k n : 0 <= n < k -> (2 ^ k | x) -> Z.testbit x n = false.
Proof. intros Hn [q ->]. apply Z.mul_pow2_bits_low. lia. Qed.

Lemma small_bits x w n : 0 <= w <= n -> 0 <= x < 2 ^ w -> Z.testbit x n = false.
Proof.
  intros Hn Hx. rewrite <- (Z.mod_small x (2 ^ w)) by lia. apply Z.mod_pow2_bits_high. lia.
Qed.

(** A field value of which the flags touch nothing comes back. *)
Lemma field_lor x fl k w :
  0 <= k <= w -> (2 ^ k | x) -> 0 <= x < 2 ^ w -> (forall n, k <= n < w -> Z.testbit fl n = false) ->
  Z.land (Z.lor x fl) (field k w) = x.
Proof.
  intros Hk Hd Hx Hfl. apply Z.bits_inj'. intros n Hn. rewrite Z.land_spec, Z.lor_spec, field_bit by done.
  destruct (Z.leb_spec k n); simpl.
  - destruct (Z.ltb_spec n w); [|by rewrite andb_false_r, (small_bits x w) by lia].
    by rewrite Hfl, orb_false_r, andb_true_r by lia.
  - by rewrite andb_false_r, (multiple_bits x k) by done.
Qed.

End Macros.
