(* ===== verification/Locking.v ===== *)
(** * Interrupt flag and spinlocks (kernel/src/std/locking.c)

    Two views of the same code.  [Locking.Seq] is what one core sees when no
    other core holds the lock: the components that run their bodies inside
    [spin_lock_global]/[spin_unlock_global] use it, so that their theorems also
    say that every path gives the lock back and restores the interrupt flag.
    [Locking.Smp] is the interleaving of any number of cores, one step per
    memory access, and carries the safety theorem that justifies treating the
    critical sections as atomic. *)

From S2P Require Import Prelude.

Module Locking.

(** [k_spinlock_t]: the lock word and the interrupt flag saved by the taker. *)
Record k_spinlock_t := mk_spinlock { lk_lock : Z; lk_old_state : bool }.

Definition unlocked (l : k_spinlock_t) : Prop := lk_lock l = 0.

(** The interrupt flag [IF] of a core is a [bool]; [cli] and [sti] write it. *)
Definition preempt_disable (IF : bool) : bool := false.
Definition preempt_enable (IF : bool) : bool := true.
Definition preempt_fetch (IF : bool) : bool := IF.
Definition preempt_fetch_disable (IF : bool) : bool * bool := (preempt_fetch IF, preempt_disable IF).
Definition preempt_restore (state IF : bool) : bool := if state then preempt_enable IF else IF.

Module Seq.

(** [spin_lock] when no other core is about to release the lock: a free lock
    is taken at once, a held one spins to the deadlock limit and panics. *)
Definition spin_lock (l : k_spinlock_t) : outcome k_spinlock_t :=
  if lk_lock l =? 0 then Ret (mk_spinlock 1 (lk_old_state l)) else Panic "DEADLOCK".

Definition spin_unlock (l : k_spinlock_t) : k_spinlock_t := mk_spinlock 0 (lk_old_state l).

Definition spin_lock_global (IF : bool) (l : k_spinlock_t) : outcome (bool * k_spinlock_t) :=
  let '(old, IF) := preempt_fetch_disable IF in
  l ← spin_lock (mk_spinlock (lk_lock l) old);
  Ret (IF, l).

Definition spin_unlock_global (IF : bool) (l : k_spinlock_t) : bool * k_spinlock_t :=
  let l := spin_unlock l in
  (preempt_restore (lk_old_state l) IF, l).

Lemma spin_lock_global_ret IF l :
  unlocked l -> spin_lock_global IF l = Ret (false, mk_spinlock 1 IF).
Proof. unfold unlocked, spin_lock_global, spin_lock. simpl. by intros ->. Qed.

Lemma spin_unlock_global_ret b :
  spin_unlock_global false (mk_spinlock 1 b) = (b, mk_spinlock 0 b).
Proof. by destruct b. Qed.

End Seq.

Module Smp.

(** Program counter of one core inside [spin_lock_global], the critical
    section and [spin_unlock_global].  The arguments are the core's locals:
    the fetched flag [old], the spin counter [c]. *)
Inductive pc : Type :=
  | Outside                     (* not in the lock code *)
  | Fetched (old : bool)        (* preempt_fetch() returned old *)
  | Disabled (old : bool)       (* cli executed *)
  | Spinning (c : Z)            (* lock->old_state stored, in the test-and-set loop *)
  | Critical                    (* test-and-set returned 0 *)
  | Released                    (* lock word cleared, old_state not yet read *)
  | Panicked.                   (* spun more than 10000000 times *)

Record core := mk_core {
  c_pc : pc;
  c_IF : bool;
  c_entry : bool     (* IF when this core last entered spin_lock_global *)
}.

Record smp := mk_smp {
  s_lock : k_spinlock_t;
  s_cores : gmap Z core
}.

Definition spin_limit : Z := 10000000.

(** One step of core [i]; each rule is one access to shared or core state. *)
Inductive step : smp -> smp -> Prop :=
  | step_fetch l cs i c :
      cs !! i = Some c -> c_pc c = Outside ->
      step (mk_smp l cs)
           (mk_smp l (<[i := mk_core (Fetched (preempt_fetch (c_IF c))) (c_IF c) (c_IF c)]> cs))
  | step_cli l cs i c old :
      cs !! i = Some c -> c_pc c = Fetched old ->
      step (mk_smp l cs)
           (mk_smp l (<[i := mk_core (Disabled old) (preempt_disable (c_IF c)) (c_entry c)]> cs))
  | step_save l cs i c old :
      cs !! i = Some c -> c_pc c = Disabled old ->
      step (mk_smp l cs)
           (mk_smp (mk_spinlock (lk_lock l) old)
                   (<[i := mk_core (Spinning 0) (c_IF c) (c_entry c)]> cs))
  | step_acquire l cs i c n :
      cs !! i = Some c -> c_pc c = Spinning n -> lk_lock l = 0 ->
      step (mk_smp l cs)
           (mk_smp (mk_spinlock 1 (lk_old_state l))
                   (<[i := mk_core Critical (c_IF c) (c_entry c)]> cs))
  | step_spin l cs i c n :
      cs !! i = Some c -> c_pc c = Spinning n -> lk_lock l <> 0 ->
      step (mk_smp l cs)
           (mk_smp l (<[i := mk_core (if n + 1 >? spin_limit then Panicked else Spinning (n + 1))
                                     (c_IF c) (c_entry c)]> cs))
  | step_release l cs i c :
      cs !! i = Some c -> c_pc c = Critical ->
      step (mk_smp l cs)
           (mk_smp (mk_spinlock 0 (lk_old_state l))
                   (<[i := mk_core Released (c_IF c) (c_entry c)]> cs))
  | step_restore l cs i c :
      cs !! i = Some c -> c_pc c = Released ->
      step (mk_smp l cs)
           (mk_smp l (<[i := mk_core Outside (preempt_restore (lk_old_state l) (c_IF c))
                                     (c_entry c)]> cs))
  (* between two uses of the lock a core may set or clear its flag *)
  | step_irq l cs i c b :
      cs !! i = Some c -> c_pc c = Outside ->
      step (mk_smp l cs) (mk_smp l (<[i := mk_core Outside b b]> cs)).

(** A fresh lock and cores that have not touched it. *)
Definition initial (s : smp) : Prop :=
  lk_lock (s_lock s) = 0 /\
  forall i c, s_cores s !! i = Some c -> c_pc c = Outside /\ c_IF c = c_entry c.

Definition reachable (s0 s : smp) : Prop := initial s0 /\ rtc step s0 s.

(** At most one core is in its critical section, and the lock word is set
    exactly while one is. *)
Definition mutex_inv (s : smp) : Prop :=
  (lk_lock (s_lock s) = 0 -> forall i c, s_cores s !! i = Some c -> c_pc c <> Critical) /\
  (lk_lock (s_lock s) <> 0 -> exists i c, s_cores s !! i = Some c /\ c_pc c = Critical) /\
  (forall i j c d, s_cores s !! i = Some c -> s_cores s !! j = Some d ->
     c_pc c = Critical -> c_pc d = Critical -> i = j).

Ltac step_cases Hs :=
  destruct Hs as [l cs i c Hi Hpc|l cs i c old Hi Hpc|l cs i c old Hi Hpc|l cs i c n Hi Hpc Hl
                 |l cs i c n Hi Hpc Hl|l cs i c Hi Hpc|l cs i c Hi Hpc|l cs i c fl Hi Hpc].

Lemma mutex_inv_initial s : initial s -> mutex_inv s.
Proof.
  intros [Hl Hc]. split; [|split].
  - intros _ i c Hi. destruct (Hc _ _ Hi) as [-> _]. done.
  - done.
  - intros i j c d Hi _ HC. destruct (Hc _ _ Hi) as [Hp _]. congruence.
Qed.

(** Moving a core that is outside its critical section to another place
    outside it keeps the invariant. *)
Lemma mutex_inv_move l l' cs i c c' :
  mutex_inv (mk_smp l cs) -> cs !! i = Some c ->
  c_pc c <> Critical -> c_pc c' <> Critical -> lk_lock l' = lk_lock l ->
  mutex_inv (mk_smp l' (<[i := c']> cs)).
Proof.
  intros (H0 & H1 & H2) Hi Hc Hc' Hl. unfold mutex_inv in *. simpl in *. rewrite Hl.
  split; [|split].
  - intros Hz j d. rewrite lookup_insert. case_decide; [|by apply H0].
    intros [= <-]. done.
  - intros Hnz. destruct (H1 Hnz) as (j & d & Hj & Hd). exists j, d.
    rewrite lookup_insert_ne by congruence. done.
  - intros j k d e. rewrite !lookup_insert.
    repeat case_decide; simplify_eq; try done; intros; simplify_eq; eauto.
Qed.

Lemma mutex_inv_step s s' : step s s' -> mutex_inv s -> mutex_inv s'.
Proof.
  intros Hs Hinv. step_cases Hs;
    try (eapply mutex_inv_move; eauto; simpl;
         rewrite ?Hpc; try case_match; done).
  - (* acquire *)
    destruct Hinv as (H0 & _ & _). simpl in *. unfold mutex_inv. simpl.
    split; [done|]. split.
    + intros _. exists i, (mk_core Critical (c_IF c) (c_entry c)). by rewrite lookup_insert_eq.
    + intros j k d e. rewrite !lookup_insert. repeat case_decide; simplify_eq; try done;
        intros ?? Hd He; try (by exfalso; eapply H0; eauto).
  - (* release *)
    destruct Hinv as (_ & _ & H2). simpl in *. unfold mutex_inv. simpl. split; [|split; [done|]].
    + intros _ j d. rewrite lookup_insert. case_decide; [by intros [= <-]|].
      intros Hj Hd. by pose proof (H2 _ _ _ _ Hi Hj Hpc Hd).
    + intros j k d e. rewrite !lookup_insert. repeat case_decide; simplify_eq; try done;
        intros; simplify_eq; eauto.
Qed.

Lemma mutex_inv_reachable s0 s : reachable s0 s -> mutex_inv s.
Proof.
  intros [Hi Hr]. apply mutex_inv_initial in Hi. induction Hr; eauto using mutex_inv_step.
Qed.

(** While all cores enter with the same interrupt flag [b], the saved flag of
    the lock is [b] from the first save on, and each core's locals agree. *)
Definition uniform_inv (b : bool) (s : smp) : Prop :=
  forall i c, s_cores s !! i = Some c ->
    c_entry c = b /\
    match c_pc c with
    | Outside => c_IF c = b
    | Fetched old | Disabled old => old = b /\ (c_pc c = Disabled old -> c_IF c = false)
    | Spinning _ | Critical | Released => c_IF c = false /\ lk_old_state (s_lock s) = b
    | Panicked => True
    end.

Inductive step_uniform (b : bool) : smp -> smp -> Prop :=
  | step_uniform_intro s s' :
      step s s' ->
      (forall i c, s_cores s' !! i = Some c -> c_entry c = b) ->
      step_uniform b s s'.

Lemma uniform_inv_step b s s' : step_uniform b s s' -> uniform_inv b s -> uniform_inv b s'.
Proof.
  intros [? ? Hs He] Hinv j d Hj. split; [by eapply He|]. revert Hj.
  step_cases Hs; simpl in *; pose proof (Hinv _ _ Hi) as [Hei Hci]; simpl in *;
    rewrite Hpc in Hci; rewrite lookup_insert; case_decide; intros Hj; simplify_eq; simpl;
    try (destruct (Hinv _ _ Hj) as [_ Hcj]; simpl in Hcj; destruct (c_pc d);
         naive_solver).
  - done.
  - naive_solver.
  - naive_solver.
  - naive_solver.
  - case_match; naive_solver.
  - naive_solver.
  - destruct Hci as [-> ->]. by destruct (c_entry c).
  - pose proof (He j (mk_core Outside fl fl)) as Hb. simpl in Hb.
    rewrite lookup_insert_eq in Hb. by apply Hb.
Qed.

(** ** Safety *)

(** C6: Mutual exclusion: whatever the interleaving of the cores running
    [spin_lock_global]/[spin_unlock_global] on one lock, two cores are never
    both between a successful test-and-set and the store that releases it. *)
Theorem spin_mutual_exclusion s0 s i j c d :
  reachable s0 s -> s_cores s !! i = Some c -> s_cores s !! j = Some d ->
  c_pc c = Critical -> c_pc d = Critical -> i = j.
Proof. intros (_ & _ & H)%mutex_inv_reachable. eauto. Qed.

(** Interrupt flag, agreeing cores: as long as every core enters with the
    same interrupt flag [b], each core that has left [spin_unlock_global] runs
    with that flag again. *)
Theorem spin_irq_restored b s0 s i c :
  initial s0 -> (forall j d, s_cores s0 !! j = Some d -> c_entry d = b) ->
  rtc (step_uniform b) s0 s ->
  s_cores s !! i = Some c -> c_pc c = Outside -> c_IF c = b.
Proof.
  intros [_ Hinit] Hb Hr Hi Hpc.
  assert (uniform_inv b s) as Hinv.
  { assert (uniform_inv b s0) as H0.
    { intros j d Hj. destruct (Hinit _ _ Hj) as [-> ->]. rewrite (Hb _ _ Hj). done. }
    clear -Hr H0. induction Hr; eauto using uniform_inv_step. }
  destruct (Hinv _ _ Hi) as [_ H]. by rewrite Hpc in H.
Qed.

(** One core takes the lock with interrupts on; a second one, with interrupts
    off, starts waiting for it. *)
Definition two_cores : smp :=
  mk_smp (mk_spinlock 0 false)
         (<[0 := mk_core Outside true true]> (<[1 := mk_core Outside false false]> ∅)).

(** Interrupt flag, disagreeing cores: [spin_lock_global] saves the flag in
    the lock before it owns the lock, so a second core that waits with
    interrupts off overwrites it, and the first core comes back from
    [spin_unlock_global] with its interrupts disabled although it entered with
    them enabled. *)
Theorem spin_irq_lost :
  exists s c, reachable two_cores s /\ s_cores s !! 0 = Some c /\
    c_pc c = Outside /\ c_entry c = true /\ c_IF c = false.
Proof.
  eexists _, _. split; [split|].
  - split; [done|]. intros i c. unfold two_cores. simpl.
    rewrite !lookup_insert. repeat case_decide; intros; simplify_eq; done.
  - eapply rtc_l; [eapply (step_fetch _ _ 0); reflexivity|].
    eapply rtc_l; [eapply (step_cli _ _ 0); reflexivity|].
    eapply rtc_l; [eapply (step_save _ _ 0); reflexivity|].
    eapply rtc_l; [eapply (step_acquire _ _ 0); reflexivity|].
    eapply rtc_l; [eapply (step_fetch _ _ 1); reflexivity|].
    eapply rtc_l; [eapply (step_cli _ _ 1); reflexivity|].
    eapply rtc_l; [eapply (step_save _ _ 1); reflexivity|].
    eapply rtc_l; [eapply (step_release _ _ 0); reflexivity|].
    eapply rtc_l; [eapply (step_restore _ _ 0); reflexivity|].
    apply rtc_refl.
  - repeat split; reflexivity.
Qed.

(** Witnesses: a single core inside, and back outside, its critical section. *)
Definition one_core : smp :=
  mk_smp (mk_spinlock 0 false) (<[0 := mk_core Outside true true]> ∅).

Lemma one_core_initial : initial one_core.
Proof.
  split; [done|]. intros i c. unfold one_core. simpl.
  rewrite lookup_insert. case_decide; intros; simplify_eq; done.
Qed.

Definition one_core_done : smp :=
  mk_smp (mk_spinlock 0 true) (<[0 := mk_core Outside true true]> ∅).

(** Core 0 owns the lock, core 1 has come by and spun once. *)
Definition two_cores_held : smp :=
  mk_smp (mk_spinlock 1 false)
         (<[0 := mk_core Critical false true]> (<[1 := mk_core (Spinning 1) false false]> ∅)).

Lemma two_cores_initial : initial two_cores.
Proof.
  split; [done|]. intros i c. unfold two_cores. simpl.
  rewrite !lookup_insert. repeat case_decide; intros; simplify_eq; done.
Qed.

Lemma spin_mutual_exclusion_witness :
  s_cores two_cores_held !! 0 = Some (mk_core Critical false true) /\
  s_cores two_cores_held !! 1 = Some (mk_core (Spinning 1) false false) /\
  forall j d, s_cores two_cores_held !! j = Some d -> c_pc d = Critical -> 0 = j.
Proof.
  split; [reflexivity|]. split; [reflexivity|]. intros j d Hj Hd.
  eapply (spin_mutual_exclusion two_cores two_cores_held 0 j _ d); [|reflexivity|exact Hj|reflexivity|exact Hd].
  split; [apply two_cores_initial|].
  eapply rtc_l; [eapply (step_fetch _ _ 0); reflexivity|].
  eapply rtc_l; [eapply (step_cli _ _ 0); reflexivity|].
  eapply rtc_l; [eapply (step_fetch _ _ 1); reflexivity|].
  eapply rtc_l; [eapply (step_save _ _ 0); reflexivity|].
  eapply rtc_l; [eapply (step_acquire _ _ 0); reflexivity|].
  eapply rtc_l; [eapply (step_cli _ _ 1); reflexivity|].
  eapply rtc_l; [eapply (step_save _ _ 1); reflexivity|].
  eapply rtc_l; [eapply (step_spin _ _ 1); [reflexivity|reflexivity|discriminate]|].
  match goal with |- rtc _ ?a ?b => replace a with b by (vm_compute; reflexivity) end. apply rtc_refl.
Defined.

Lemma spin_irq_restored_witness :
  s_cores one_core_done !! 0 = Some (mk_core Outside true true) /\ c_IF (mk_core Outside true true) = true.
Proof.
  split; [reflexivity|].
  eapply (spin_irq_restored true one_core one_core_done 0);
    [apply one_core_initial | | | reflexivity | reflexivity].
  { intros j d. simpl. rewrite lookup_insert. case_decide; intros; simplify_eq; done. }
  eapply rtc_l; [split; [eapply (step_fetch _ _ 0); reflexivity|] |].
  2: eapply rtc_l; [split; [eapply (step_cli _ _ 0); reflexivity|] |].
  3: eapply rtc_l; [split; [eapply (step_save _ _ 0); reflexivity|] |].
  4: eapply rtc_l; [split; [eapply (step_acquire _ _ 0); reflexivity|] |].
  5: eapply rtc_l; [split; [eapply (step_release _ _ 0); reflexivity|] |].
  6: eapply rtc_l; [split; [eapply (step_restore _ _ 0); reflexivity|] |].
  7: exact (rtc_refl _ one_core_done).
  all: intros j d; simpl; rewrite !lookup_insert; repeat case_decide; intros; simplify_eq; done.
Defined.

End Smp.

End Locking.
