(* ===== verification/Dll.v ===== *)
(** * Intrusive doubly linked lists

    The kernel keeps its lists inside the objects: every node has a next and a
    prev field, the list is a head pointer somewhere else.  The frame
    allocator (kernel/src/mm/frame_alloc.c), the slab caches (kernel/src/mm/slab.c), the
    event subscribers (kernel/src/misc/kevent.c) and the scheduler's run queues all
    carry their own copy of the same pointer code.  Here the store of nodes is
    a finite map from address to node, the pointer code runs on it access by
    access, and [dll] relates a head pointer to the sequence of addresses the
    list holds.  The class [Node] is what a component provides: where the two
    links live in its struct. *)

From S2P Require Import Prelude.

Class Node (A : Type) := {
  nxt : A -> word;
  prv : A -> word;
  set_nxt : word -> A -> A;
  set_prv : word -> A -> A;
  nxt_set_nxt : forall w x, nxt (set_nxt w x) = w;
  nxt_set_prv : forall w x, nxt (set_prv w x) = nxt x;
  prv_set_prv : forall w x, prv (set_prv w x) = w;
  prv_set_nxt : forall w x, prv (set_nxt w x) = prv x;
  set_nxt_nxt : forall v w x, set_nxt v (set_nxt w x) = set_nxt v x;
  set_prv_prv : forall v w x, set_prv v (set_prv w x) = set_prv v x;
  set_nxt_prv : forall v w x, set_nxt v (set_prv w x) = set_prv w (set_nxt v x)
}.

#[export] Hint Rewrite @nxt_set_nxt @nxt_set_prv @prv_set_prv @prv_set_nxt : node.

Module Dll.
Section Dll.
Context {A : Type} `{Node A}.
Implicit Types (s t : gmap Z A) (h w p : word) (a b : Z) (l : list Z).

(** [*w], [w->field = v]. *)
Definition deref (w : word) (s : gmap Z A) : outcome A :=
  match w with
  | Ref a => of_option "dereference of an address outside the store" (s !! a)
  | Num _ => Fault "dereference of a number"
  end.

Definition upd (w : word) (f : A -> A) (s : gmap Z A) : outcome (gmap Z A) :=
  match w with
  | Ref a =>
      x ← of_option "store to an address outside the store" (s !! a);
      Ret (<[a := f x]> s)
  | Num _ => Fault "store through a number"
  end.

(** [_list_link]: insertion at the head.  Returns the new head. *)
Definition list_link (new : word) (head : word) (s : gmap Z A) : outcome (word * gmap Z A) :=
  s ← upd new (set_prv NULL) s;
  s ← upd new (set_nxt head) s;
  s ← (if nonnull head then upd head (set_prv new) s else Ret s);
  Ret (new, s).

(** The relinking all copies of [_list_unlink] share. *)
Definition list_cut (entry : word) (head : word) (s : gmap Z A) : outcome (word * gmap Z A) :=
  head ← (if decide (head = entry) then x ← deref entry s; Ret (nxt x) else Ret head);
  x ← deref entry s;
  s ← (if nonnull (prv x) then upd (prv x) (set_nxt (nxt x)) s else Ret s);
  x ← deref entry s;
  s ← (if nonnull (nxt x) then upd (nxt x) (set_prv (prv x)) s else Ret s);
  Ret (head, s).

(** [_list_unlink] of the frame allocator and the slab allocator: panics on an
    empty list, poisons the links of the removed entry. *)
Definition list_unlink (entry : word) (head : word) (s : gmap Z A) : outcome (word * gmap Z A) :=
  if nonnull head then
    '(head, s) ← list_cut entry head s;
    s ← upd entry (set_prv DEADBEEF) s;
    s ← upd entry (set_nxt DEADBEEF) s;
    Ret (head, s)
  else Panic "trying to unlink list entry from empty head".

(** [_list_get] of the frame allocator: pop the first entry. *)
Definition list_get (head : word) (s : gmap Z A) : outcome (word * (word * gmap Z A)) :=
  if nonnull head then
    let ret := head in
    x ← deref ret s;
    let head := nxt x in
    s ← (if nonnull head then upd head (set_prv NULL) s else Ret s);
    s ← upd ret (set_nxt DEADBEEF) s;
    s ← upd ret (set_prv DEADBEEF) s;
    Ret (ret, (head, s))
  else Ret (NULL, (head, s)).

(** ** Representation *)

(** From the pointer [h], with [p] before it, the nodes [l] lead to [e]. *)
Fixpoint dseg (s : gmap Z A) (p h e : word) (l : list Z) : Prop :=
  match l with
  | [] => h = e
  | a :: l => h = Ref a /\ exists x, s !! a = Some x /\ prv x = p /\ dseg s (Ref a) (nxt x) e l
  end.

Definition dll (s : gmap Z A) (h : word) (l : list Z) : Prop := dseg s NULL h NULL l /\ NoDup l.

(** What a node holds besides its links; two stores with equal payloads hold
    the same objects, at most linked differently. *)
Definition payload (x : A) : A := set_nxt NULL (set_prv NULL x).
Definition relinked (s t : gmap Z A) : Prop := payload <$> t = payload <$> s.

Lemma payload_nxt w x : payload (set_nxt w x) = payload x.
Proof. unfold payload. by rewrite <- set_nxt_prv, set_nxt_nxt. Qed.

Lemma payload_prv w x : payload (set_prv w x) = payload x.
Proof. unfold payload. by rewrite set_prv_prv. Qed.

#[global] Instance relinked_equiv : Equivalence relinked.
Proof. unfold relinked. split; repeat intro; congruence. Qed.

Lemma relinked_lookup s t a x :
  relinked s t -> s !! a = Some x -> exists y, t !! a = Some y /\ payload y = payload x.
Proof.
  intros Hr Hx. apply (f_equal (fun m => m !! a)) in Hr.
  rewrite !lookup_fmap, Hx in Hr. destruct (t !! a) as [y|]; simplify_eq/=. eauto.
Qed.

Lemma relinked_dom s t : relinked s t -> dom t = dom s.
Proof.
  intros Hr. rewrite <- (dom_fmap_L payload s), <- (dom_fmap_L payload t). by rewrite Hr.
Qed.

Lemma relinked_insert s a x y :
  s !! a = Some x -> payload y = payload x -> relinked s (<[a := y]> s).
Proof.
  intros Hx Hp. unfold relinked. rewrite fmap_insert, Hp. apply insert_id.
  by rewrite lookup_fmap, Hx.
Qed.

(** ** Segments *)

Definition last_ref (p : word) (l : list Z) : word :=
  match last l with Some b => Ref b | None => p end.

Lemma last_ref_cons p a l : last_ref p (a :: l) = last_ref (Ref a) l.
Proof. unfold last_ref. rewrite last_cons. by destruct (last l). Qed.

Lemma dseg_frame s t p h e l :
  dseg s p h e l -> (forall a, a ∈ l -> t !! a = s !! a) -> dseg t p h e l.
Proof.
  revert p h. induction l as [|a l IH]; intros p h; simpl; [done|].
  intros (-> & x & Hx & Hp & Hl) Hf. split; [done|]. exists x.
  split; [|split; [done|]].
  - rewrite Hf; [done | set_solver].
  - apply IH; [done|]. intros. apply Hf. set_solver.
Qed.

Lemma dll_frame s t h l :
  dll s h l -> (forall a, a ∈ l -> t !! a = s !! a) -> dll t h l.
Proof. intros [? ?] ?. split; [eauto using dseg_frame | done]. Qed.

Lemma dseg_insert_ne s p h e l a x :
  a ∉ l -> dseg s p h e l -> dseg (<[a := x]> s) p h e l.
Proof.
  intros Ha Hd. eapply dseg_frame; [done|]. intros b Hb.
  rewrite lookup_insert_ne; [done | set_solver].
Qed.

Lemma dseg_app s p h e l1 l2 :
  dseg s p h e (l1 ++ l2) <->
  exists m, dseg s p h m l1 /\ dseg s (last_ref p l1) m e l2.
Proof.
  revert p h. induction l1 as [|a l1 IH]; intros p h; simpl.
  - unfold last_ref. simpl. naive_solver.
  - rewrite last_ref_cons. setoid_rewrite IH. naive_solver.
Qed.

Lemma dseg_elem s p h e l a : dseg s p h e l -> a ∈ l -> is_Some (s !! a).
Proof.
  revert p h. induction l as [|b l IH]; intros p h; simpl; [set_solver|].
  intros (_ & x & Hx & _ & Hl). rewrite elem_of_cons. intros [-> | ?]; eauto.
Qed.

(** Redirecting the last node's next field, the first node's prev field. *)
Lemma dseg_set_end s p h e e' l b x :
  dseg s p h e (l ++ [b]) -> NoDup (l ++ [b]) -> s !! b = Some x ->
  dseg (<[b := set_nxt e' x]> s) p h e' (l ++ [b]).
Proof.
  rewrite !dseg_app. intros (m & H1 & H2) (_ & Hb & _)%NoDup_app Hx. exists m.
  destruct H2 as (-> & y & Hy & Hp & _). assert (y = x) as -> by congruence. split.
  - apply dseg_insert_ne; [set_solver | done].
  - simpl. split; [done|]. exists (set_nxt e' x). rewrite lookup_insert_eq.
    autorewrite with node. done.
Qed.

Lemma dseg_set_start s p p' e l b x :
  dseg s p (Ref b) e (b :: l) -> NoDup (b :: l) -> s !! b = Some x ->
  dseg (<[b := set_prv p' x]> s) p' (Ref b) e (b :: l).
Proof.
  intros (_ & y & Hy & Hp & Hl) [Hb _]%NoDup_cons Hx.
  assert (y = x) as -> by congruence. simpl. split; [done|].
  exists (set_prv p' x). rewrite lookup_insert_eq. autorewrite with node.
  split; [done|]. split; [done|]. by apply dseg_insert_ne.
Qed.

Lemma deref_some s a x : s !! a = Some x -> deref (Ref a) s = Ret x.
Proof. unfold deref. by intros ->. Qed.

Lemma upd_some s a x f : s !! a = Some x -> upd (Ref a) f s = Ret (<[a := f x]> s).
Proof. unfold upd. by intros ->. Qed.

Lemma dll_nonnull s h l : dll s h l -> nonnull h = match l with [] => false | _ => true end.
Proof. intros [Hd _]. destruct l; simpl in Hd; [by rewrite Hd | by destruct Hd as [-> _]]. Qed.

Lemma dll_nil s h : dll s h [] -> h = NULL.
Proof. by intros [? _]. Qed.

Lemma dll_elem s h l a : dll s h l -> a ∈ l -> is_Some (s !! a).
Proof. intros [? _]. eauto using dseg_elem. Qed.

(** Rewriting the payload of a node leaves every list as it is. *)
Lemma dseg_insert_payload s p h e l a x y :
  s !! a = Some x -> nxt y = nxt x -> prv y = prv x -> dseg s p h e l -> dseg (<[a := y]> s) p h e l.
Proof.
  intros Hx Hn Hp. revert p h. induction l as [|b l IH]; intros p h; simpl; [done|].
  intros (-> & z & Hz & <- & Hl). split; [done|]. destruct (decide (b = a)) as [->|].
  - exists y. rewrite lookup_insert_eq. assert (z = x) as -> by congruence.
    split; [done|]. split; [done|]. rewrite Hn. by apply IH.
  - exists z. rewrite lookup_insert_ne by done. split; [done|]. split; [done|]. by apply IH.
Qed.

Lemma dll_insert_payload s h l a x y :
  s !! a = Some x -> nxt y = nxt x -> prv y = prv x -> dll s h l -> dll (<[a := y]> s) h l.
Proof. intros ? ? ? [? ?]. split; [by eapply dseg_insert_payload | done]. Qed.

Definition links (s : gmap Z A) (a : Z) : option (word * word) := (fun x => (nxt x, prv x)) <$> s !! a.

Lemma links_eq s t a : t !! a = s !! a -> links t a = links s a.
Proof. unfold links. by intros ->. Qed.

(** Only the links of the nodes matter. *)
Lemma dll_links s t h l : dll s h l -> (forall a, a ∈ l -> links t a = links s a) -> dll t h l.
Proof.
  intros [Hd Hnd] Hl. split; [|done]. clear Hnd. revert Hd. generalize NULL at 1 3 as p. revert h.
  induction l as [|b l IH]; intros h p; simpl; [done|].
  intros (-> & z & Hz & <- & Hs). split; [done|].
  assert (links t b = links s b) as Hb by (apply Hl; left). unfold links in Hb. rewrite Hz in Hb.
  destruct (t !! b) as [y|]; [|done]. injection Hb as Hn Hp. exists y. rewrite Hn.
  split; [done|]. split; [done|]. apply IH; [|done]. intros. apply Hl. by right.
Qed.

(** ** The operations *)

(** Linking [a] in front of [l]: only [a] and the old first node change. *)
Lemma list_link_spec s h l a :
  dll s h l -> a ∉ l -> is_Some (s !! a) ->
  returns (list_link (Ref a) h s) (fun '(h', s') =>
    h' = Ref a /\ dll s' h' (a :: l) /\ relinked s s' /\
    forall b, b ∉ a :: l -> s' !! b = s !! b).
Proof.
  intros Hd Ha [x Hx]. unfold list_link.
  mpure (upd_some _ _ _ (set_prv NULL) Hx).
  mstep. eapply returns_eq; [apply upd_some, lookup_insert_eq|].
  rewrite insert_insert_eq. set (x' := set_nxt h (set_prv NULL x)).
  assert (relinked s (<[a := x']> s)) as Hr.
  { eapply relinked_insert; [done|]. unfold x'. by rewrite payload_nxt, payload_prv. }
  rewrite (dll_nonnull _ _ _ Hd). destruct Hd as [Hd Hnd]. destruct l as [|b l].
  - simpl in Hd. subst h. simpl. split; [done|]. split; [|split; [done|]].
    + split; [|by apply NoDup_singleton]. split; [done|]. exists x'. rewrite lookup_insert_eq.
      unfold x'. autorewrite with node. done.
    + intros c Hc. rewrite lookup_insert_ne; [done | set_solver].
  - pose proof Hd as (-> & y & Hy & Hp & Hl). assert (a <> b) as Hab by set_solver.
    mstep. eapply returns_eq; [apply upd_some; rewrite lookup_insert_ne; done|]. simpl.
    split; [done|]. split; [|split].
    + split; [|by apply NoDup_cons]. split; [done|]. exists x'.
      rewrite lookup_insert_ne, lookup_insert_eq by done. split; [done|].
      unfold x'. autorewrite with node. split; [done|].
      rewrite insert_insert_ne by done. eapply (dseg_insert_ne _ _ _ _ (b :: l)); [done|].
      by eapply dseg_set_start.
    + etrans; [exact Hr|]. eapply relinked_insert; [by rewrite lookup_insert_ne|].
      apply payload_prv.
    + intros c Hc. rewrite !lookup_insert_ne; [done | set_solver..].
Qed.

(** Popping the first node. *)
Lemma list_get_spec s h l :
  dll s h l ->
  returns (list_get h s) (fun '(r, (h', s')) =>
    match l with
    | [] => r = NULL /\ h' = h /\ s' = s
    | a :: l' => r = Ref a /\ dll s' h' l' /\ relinked s s' /\
                 forall b, b ∉ l -> s' !! b = s !! b
    end).
Proof.
  intros Hd. unfold list_get. rewrite (dll_nonnull _ _ _ Hd). destruct l as [|a l].
  - by apply dll_nil in Hd as ->.
  - destruct Hd as [(-> & x & Hx & _ & Hl) [Ha Hnd]%NoDup_cons].
    mpure (deref_some _ _ _ Hx). destruct l as [|b l].
    + simpl in Hl. rewrite Hl. simpl.
      mstep. eapply returns_eq; [by apply upd_some|].
      mstep. eapply returns_eq; [apply upd_some, lookup_insert_eq|]. rewrite insert_insert_eq.
      simpl. split; [done|]. split; [by split; [|apply NoDup_nil]|]. split.
      * eapply relinked_insert; [done|]. by rewrite payload_prv, payload_nxt.
      * intros c Hc. rewrite lookup_insert_ne; [done | set_solver].
    + pose proof Hl as (Hn & y & Hy & _ & _). rewrite Hn in Hl |- *. simpl.
      assert (a <> b) by set_solver.
      mstep. eapply returns_eq; [by apply upd_some|].
      mstep. eapply returns_eq; [apply upd_some; by rewrite lookup_insert_ne|].
      mstep. eapply returns_eq; [apply upd_some, lookup_insert_eq|]. rewrite insert_insert_eq.
      simpl. split; [done|]. split; [|split].
      * split; [|done]. eapply (dseg_insert_ne _ _ _ _ (b :: l)); [done|].
        by eapply dseg_set_start.
      * etrans; [eapply (relinked_insert s b); [done | apply payload_prv]|].
        eapply relinked_insert; [by rewrite lookup_insert_ne|].
        by rewrite payload_prv, payload_nxt.
      * intros c Hc. rewrite !lookup_insert_ne; [done | set_solver..].
Qed.

(** Making a segment end in, or start after, another pointer. *)
Lemma redirect_end s h e e' l :
  dseg s NULL h e l -> NoDup l ->
  returns (if nonnull (last_ref NULL l) then upd (last_ref NULL l) (set_nxt e') s else Ret s)
    (fun s' => dseg s' NULL (match l with [] => e' | _ => h end) e' l /\ relinked s s' /\
          forall b, b ∉ l -> s' !! b = s !! b).
Proof.
  intros Hd Hnd. destruct l as [|b l _] using rev_ind.
  - simpl. done.
  - unfold last_ref. rewrite last_snoc. simpl.
    destruct (dseg_elem _ _ _ _ _ b Hd) as [x Hx]; [set_solver|].
    eapply returns_eq; [by apply upd_some|].
    split; [|split].
    + replace (match l ++ [b] with [] => e' | _ => h end) with h by (by destruct l).
      by eapply dseg_set_end.
    + eapply relinked_insert; [done | apply payload_nxt].
    + intros c Hc. rewrite lookup_insert_ne; [done | set_solver].
Qed.

Lemma redirect_start s p p' h l :
  dseg s p h NULL l -> NoDup l ->
  returns (if nonnull h then upd h (set_prv p') s else Ret s)
    (fun s' => dseg s' p' h NULL l /\ relinked s s' /\ forall b, b ∉ l -> s' !! b = s !! b).
Proof.
  intros Hd Hnd. destruct l as [|b l].
  - simpl in Hd. subst h. done.
  - pose proof Hd as (-> & x & Hx & _). simpl.
    eapply returns_eq; [by apply upd_some|]. split; [by eapply dseg_set_start|]. split.
    + eapply relinked_insert; [done | apply payload_prv].
    + intros c Hc. rewrite lookup_insert_ne; [done | set_solver].
Qed.

(** Unlinking a node anywhere in the list: the rest keeps its order, the
    removed node itself is untouched. *)
Lemma list_cut_spec s h l1 a l2 :
  dll s h (l1 ++ a :: l2) ->
  returns (list_cut (Ref a) h s) (fun '(h', s') =>
    dll s' h' (l1 ++ l2) /\ relinked s s' /\ s' !! a = s !! a /\
    forall b, b ∉ l1 ++ a :: l2 -> s' !! b = s !! b).
Proof.
  intros [Hd Hnd]. apply dseg_app in Hd as (m & H1 & H2).
  destruct H2 as (-> & x & Hx & Hp & H2). apply NoDup_app in Hnd as (Hn1 & Hdisj & Hn2).
  apply NoDup_cons in Hn2 as [Ha2 Hn2]. assert (a ∉ l1) as Ha1 by set_solver.
  unfold list_cut. mstep.
  apply returns_mono with (P := fun h' => h' = match l1 with [] => nxt x | _ => h end).
  { destruct l1 as [|b l1]; simpl in H1.
    - subst h. rewrite decide_True by done. mpure (deref_some _ _ _ Hx). done.
    - destruct H1 as [-> _]. rewrite decide_False by set_solver. done. }
  intros h' ->. mpure (deref_some _ _ _ Hx). rewrite Hp.
  mcall (redirect_end _ _ _ (nxt x) _ H1 Hn1). intros s1 (Hd1 & Hr1 & Hf1).
  assert (s1 !! a = Some x) as Hx1 by (by rewrite Hf1).
  mpure (deref_some _ _ _ Hx1). rewrite Hp.
  assert (dseg s1 (Ref a) (nxt x) NULL l2) as H2'.
  { eapply dseg_frame; [done|]. intros. apply Hf1. set_solver. }
  mcall (redirect_start _ _ (last_ref NULL l1) _ _ H2' Hn2). intros s2 (Hd2 & Hr2 & Hf2).
  simpl. split; [|split; [|split]].
  - split.
    + apply dseg_app. exists (nxt x). split; [|done].
      eapply dseg_frame; [done|]. intros. apply Hf2. set_solver.
    + apply NoDup_app. set_solver.
  - by etrans.
  - rewrite Hf2, Hf1 by set_solver. done.
  - intros b Hb. rewrite Hf2, Hf1 by set_solver. done.
Qed.

Lemma list_unlink_spec s h l1 a l2 :
  dll s h (l1 ++ a :: l2) ->
  returns (list_unlink (Ref a) h s) (fun '(h', s') =>
    dll s' h' (l1 ++ l2) /\ relinked s s' /\
    forall b, b ∉ l1 ++ a :: l2 -> s' !! b = s !! b).
Proof.
  intros Hd. unfold list_unlink. rewrite (dll_nonnull _ _ _ Hd).
  replace (match l1 ++ a :: l2 with [] => false | _ => true end) with true by (by destruct l1).
  mcall (list_cut_spec _ _ _ _ _ Hd). intros [h' s'] (Hd' & Hr & Ha & Hf).
  destruct (dll_elem _ _ _ a Hd) as [x Hx]; [set_solver|].
  mstep. eapply returns_eq; [apply upd_some; by rewrite Ha|].
  mstep. eapply returns_eq; [apply upd_some, lookup_insert_eq|]. rewrite insert_insert_eq. simpl.
  destruct Hd as [_ Hnd]. apply NoDup_app in Hnd as (? & ? & [? ?]%NoDup_cons).
  split; [|split].
  - eapply dll_frame; [done|]. intros b Hb. rewrite lookup_insert_ne; [done | set_solver].
  - etrans; [exact Hr|]. eapply relinked_insert; [by rewrite Ha|].
    by rewrite payload_nxt, payload_prv.
  - intros b Hb. rewrite lookup_insert_ne by set_solver. auto.
Qed.

End Dll.
End Dll.
