(* ===== verification/Mem.v ===== *)
(** * Bytes in memory (kernel/src/std/memory.c)

    Memory is a map from address to byte; addresses never written read as
    zero.  Contains the block operations of memory.c, loop by loop, the 64-bit
    accesses the heap stores its free lists with, and what they do: [memmove]
    moves correctly whatever the overlap, [memcpy] whenever the destination
    does not run into bytes of the source that are still to be read,
    [memcmp] orders byte sequences lexicographically. *)

From S2P Require Import Prelude.

Module Mem.

Abbreviation mem := (gmap Z Z).

Definition rd (m : mem) (a : Z) : Z := default 0 (m !! a).
Definition wr (m : mem) (a v : Z) : mem := <[a := u8 v]> m.

(** ** memory.c *)

(** The loops run [n] times; [i] is the loop counter of the source. *)
Fixpoint memcpy_loop (n : nat) (i dest src : Z) (m : mem) : mem :=
  match n with
  | O => m
  | S n => memcpy_loop n (i + 1) dest src (wr m (dest + i) (rd m (src + i)))
  end.

Definition memcpy (dest src n : Z) (m : mem) : mem := memcpy_loop (Z.to_nat n) 0 dest src m.

Fixpoint memset_loop (n : nat) (i s c : Z) (m : mem) : mem :=
  match n with
  | O => m
  | S n => memset_loop n (i + 1) s c (wr m (s + i) (u8 c))
  end.

Definition memset (s c n : Z) (m : mem) : mem := memset_loop (Z.to_nat n) 0 s c m.

(** The descending loop of [memmove]. *)
Fixpoint memmove_down (n : nat) (dest src : Z) (m : mem) : mem :=
  match n with
  | O => m
  | S i => memmove_down i dest src (wr m (dest + Z.of_nat i) (rd m (src + Z.of_nat i)))
  end.

Definition memmove (dest src n : Z) (m : mem) : mem :=
  if src >? dest then memcpy_loop (Z.to_nat n) 0 dest src m
  else if src <? dest then memmove_down (Z.to_nat n) dest src m
  else m.

Fixpoint memcmp_loop (n : nat) (i s1 s2 : Z) (m : mem) : Z :=
  match n with
  | O => 0
  | S n =>
      let b1 := rd m (s1 + i) in
      let b2 := rd m (s2 + i) in
      if negb (b1 =? b2) then (if b1 <? b2 then -1 else 1)
      else memcmp_loop n (i + 1) s1 s2 m
  end.

Definition memcmp (s1 s2 n : Z) (m : mem) : Z := memcmp_loop (Z.to_nat n) 0 s1 s2 m.

(** ** 64-bit accesses, little endian *)

Fixpoint read_le (n : nat) (a : Z) (m : mem) : Z :=
  match n with
  | O => 0
  | S n => rd m a + 256 * read_le n (a + 1) m
  end.

Fixpoint write_le (n : nat) (a v : Z) (m : mem) : mem :=
  match n with
  | O => m
  | S n => write_le n (a + 1) (v / 256) (wr m a v)
  end.

Definition read64 (a : Z) (m : mem) : Z := read_le 8 a m.
Definition write64 (a v : Z) (m : mem) : mem := write_le 8 a v m.

(** ** Meaning *)

Lemma rd_wr m a v x : rd (wr m a v) x = if decide (x = a) then u8 v else rd m x.
Proof.
  unfold rd, wr. destruct (decide (x = a)) as [->|].
  - by rewrite lookup_insert_eq.
  - by rewrite lookup_insert_ne.
Qed.

(** Every cell holds a byte. *)
Definition bytes_ok (m : mem) : Prop := forall a, 0 <= rd m a < 256.

Lemma u8_range x : 0 <= u8 x < 256.
Proof. apply Z.mod_pos_bound. lia. Qed.

Lemma wr_ok m a v : bytes_ok m -> bytes_ok (wr m a v).
Proof. intros Hm x. rewrite rd_wr. destruct (decide _); [apply u8_range | apply Hm]. Qed.
#[export] Hint Resolve wr_ok : munk.

Lemma u8_rd m a : bytes_ok m -> u8 (rd m a) = rd m a.
Proof. intros Hm. apply u8_small, Hm. Qed.

(** The ascending loop is right unless it overwrites source bytes it has not
    read yet. *)
Lemma memcpy_loop_spec n i dest src m x :
  bytes_ok m -> 0 <= i -> (dest <= src \/ src + (i + Z.of_nat n) <= dest + i) ->
  rd (memcpy_loop n i dest src m) x =
    if decide (dest + i <= x < dest + i + Z.of_nat n) then rd m (src + (x - dest)) else rd m x.
Proof.
  revert i m. induction n as [|n IH]; intros i m Hm Hi Hov; simpl.
  - rewrite decide_False by lia. done.
  - rewrite IH by (auto with munk; lia). rewrite !rd_wr, u8_rd by done.
    destruct (decide (x = dest + i)) as [->|Hne].
    + rewrite decide_False, decide_True by lia. f_equal. lia.
    + destruct (decide (dest + (i + 1) <= x < dest + (i + 1) + Z.of_nat n)).
      * rewrite decide_False, decide_True by lia. done.
      * rewrite decide_False by lia. done.
Qed.

Lemma memmove_down_spec n dest src m x :
  bytes_ok m -> src < dest ->
  rd (memmove_down n dest src m) x =
    if decide (dest <= x < dest + Z.of_nat n) then rd m (src + (x - dest)) else rd m x.
Proof.
  revert m. induction n as [|n IH]; intros m Hm Hlt; simpl.
  - rewrite decide_False by lia. done.
  - rewrite IH by auto with munk. rewrite !rd_wr, u8_rd by done.
    destruct (decide (x = dest + Z.of_nat n)) as [->|Hne].
    + rewrite decide_False, decide_True by lia. f_equal. lia.
    + destruct (decide (dest <= x < dest + Z.of_nat n)).
      * rewrite decide_False, decide_True by lia. done.
      * rewrite decide_False by lia. done.
Qed.

Lemma memcpy_spec dest src n m x :
  bytes_ok m -> 0 <= n -> dest <= src \/ src + n <= dest ->
  rd (memcpy dest src n m) x = if decide (dest <= x < dest + n) then rd m (src + (x - dest)) else rd m x.
Proof.
  intros Hm Hn Hov. unfold memcpy. rewrite memcpy_loop_spec by (done || lia).
  rewrite Z2Nat.id, Z.add_0_r by lia. done.
Qed.

(** On ranges that do not overlap each byte is copied as it is. *)
Lemma memcpy_apart dest src n m x :
  0 <= n -> dest + n <= src \/ src + n <= dest ->
  rd (memcpy dest src n m) x = if decide (dest <= x < dest + n) then u8 (rd m (src + (x - dest))) else rd m x.
Proof.
  intros Hn Hov. assert (forall k i m, 0 <= i -> i + Z.of_nat k <= n ->
    rd (memcpy_loop k i dest src m) x =
      if decide (dest + i <= x < dest + i + Z.of_nat k) then u8 (rd m (src + (x - dest))) else rd m x) as Hl.
  { clear m. induction k as [|k IH]; intros i m Hi Hk; simpl; [by rewrite decide_False by lia|].
    rewrite IH by lia. rewrite !rd_wr. destruct (decide (x = dest + i)) as [->|Hne].
    - rewrite decide_False, decide_True by lia. do 2 f_equal. lia.
    - destruct (decide (dest + (i + 1) <= x < dest + (i + 1) + Z.of_nat k)).
      + rewrite decide_False, decide_True by lia. done.
      + rewrite decide_False by lia. done. }
  unfold memcpy. rewrite Hl by lia. rewrite Z2Nat.id, Z.add_0_r by lia. done.
Qed.

Lemma memset_loop_spec n i s c m x :
  0 <= i ->
  rd (memset_loop n i s c m) x = if decide (s + i <= x < s + i + Z.of_nat n) then u8 c else rd m x.
Proof.
  revert i m. induction n as [|n IH]; intros i m Hi; simpl.
  - rewrite decide_False by lia. done.
  - rewrite IH, rd_wr by lia. destruct (decide (x = s + i)) as [->|].
    + rewrite decide_False, decide_True by lia. apply u8_small, u8_range.
    + destruct (decide (s + (i + 1) <= x < s + (i + 1) + Z.of_nat n)).
      * rewrite decide_True by lia. done.
      * rewrite decide_False by lia. done.
Qed.

Lemma memset_spec s c n m x :
  0 <= n -> rd (memset s c n m) x = if decide (s <= x < s + n) then u8 c else rd m x.
Proof.
  intros. unfold memset. rewrite memset_loop_spec by lia. rewrite Z2Nat.id, Z.add_0_r by lia. done.
Qed.

(** The bytes at [a], as a list. *)
Definition bytes (m : mem) (a : Z) (n : nat) : list Z := (fun i => rd m (a + i)) <$> seqZ 0 (Z.of_nat n).

(** Lexicographic comparison of byte strings of equal length. *)
Fixpoint lex (l1 l2 : list Z) : Z :=
  match l1, l2 with
  | a :: l1, b :: l2 => if a <? b then -1 else if b <? a then 1 else lex l1 l2
  | _, _ => 0
  end.

Lemma memcmp_loop_spec n i s1 s2 m :
  memcmp_loop n i s1 s2 m =
    lex ((fun j => rd m (s1 + j)) <$> seqZ i (Z.of_nat n)) ((fun j => rd m (s2 + j)) <$> seqZ i (Z.of_nat n)).
Proof.
  revert i. induction n as [|n IH]; intros i; [done|].
  simpl memcmp_loop. rewrite seqZ_cons by lia. rewrite !fmap_cons. simpl lex.
  rewrite IH. rewrite Z.add_1_r. replace (Z.pred (Z.of_nat (S n))) with (Z.of_nat n) by lia.
  destruct (Z.eqb_spec (rd m (s1 + i)) (rd m (s2 + i))) as [->|Hne]; simpl.
  - by rewrite Z.ltb_irrefl.
  - destruct (Z.ltb_spec (rd m (s1 + i)) (rd m (s2 + i))); [done|].
    destruct (Z.ltb_spec (rd m (s2 + i)) (rd m (s1 + i))); [done|lia].
Qed.

(** *** 64-bit accesses *)

Lemma write_le_other n a v m x :
  x < a \/ a + Z.of_nat n <= x -> rd (write_le n a v m) x = rd m x.
Proof.
  revert a v m. induction n as [|n IH]; intros a v m Hx; simpl; [done|].
  rewrite IH, rd_wr, decide_False by lia. done.
Qed.

Lemma write_le_ok n a v m : bytes_ok m -> bytes_ok (write_le n a v m).
Proof. revert a v m. induction n; simpl; auto with munk. Qed.

Lemma read_le_ext n a m m' :
  (forall x, a <= x < a + Z.of_nat n -> rd m' x = rd m x) -> read_le n a m' = read_le n a m.
Proof.
  revert a. induction n as [|n IH]; intros a Hext; simpl; [done|].
  rewrite Hext, (IH (a + 1)) by (intros; try apply Hext; lia). done.
Qed.

Lemma read_write_le n a v m : read_le n a (write_le n a v m) = v mod 256 ^ Z.of_nat n.
Proof.
  revert a v m. induction n as [|n IH]; intros a v m; simpl read_le.
  - by rewrite Z.pow_0_r, Z.mod_1_r.
  - simpl write_le. rewrite write_le_other, rd_wr, decide_True by lia.
    rewrite IH. rewrite Nat2Z.inj_succ, Z.pow_succ_r by lia.
    rewrite Z.rem_mul_r by (try apply Z.pow_pos_nonneg; lia). done.
Qed.

Lemma read64_write64 a v m : 0 <= v < 2 ^ 64 -> read64 a (write64 a v m) = v.
Proof. intros. unfold read64, write64. rewrite read_write_le. apply Z.mod_small. lia. Qed.

Lemma read64_ext a m m' : (forall x, a <= x < a + 8 -> rd m' x = rd m x) -> read64 a m' = read64 a m.
Proof. intros. apply read_le_ext. simpl. auto. Qed.

Lemma write64_other a v m x : x < a \/ a + 8 <= x -> rd (write64 a v m) x = rd m x.
Proof. intros. apply write_le_other. simpl. lia. Qed.

Lemma read64_write64_other a b v m : a + 8 <= b \/ b + 8 <= a -> read64 a (write64 b v m) = read64 a m.
Proof. intros. apply read64_ext. intros. apply write64_other. lia. Qed.

Lemma write64_ok a v m : bytes_ok m -> bytes_ok (write64 a v m).
Proof. apply write_le_ok. Qed.

(** ** Theorems *)

(** C12: [memmove] copies the [n] bytes at [src] to [dest] as they were before
    the call, for any overlap of the two ranges, and changes nothing else. *)
Theorem memmove_correct dest src n m x :
  bytes_ok m -> 0 <= n ->
  rd (memmove dest src n m) x = if decide (dest <= x < dest + n) then rd m (src + (x - dest)) else rd m x.
Proof.
  intros Hm Hn. unfold memmove. rewrite Z.gtb_ltb.
  destruct (Z.ltb_spec dest src); [|destruct (Z.ltb_spec src dest)].
  - rewrite memcpy_loop_spec by (done || lia). rewrite Z2Nat.id, Z.add_0_r by lia. done.
  - rewrite memmove_down_spec by (done || lia). rewrite Z2Nat.id by lia. done.
  - assert (src = dest) as -> by lia. destruct (decide _); [f_equal; lia | done].
Qed.

Lemma memmove_correct_witness :
  rd (memmove 102 100 4 (<[100 := 1]> (<[101 := 2]> (<[102 := 3]> (<[103 := 4]> ∅))))) 104 = 3.
Proof.
  rewrite (memmove_correct 102 100 4); [reflexivity | | lia].
  intros a. unfold rd. repeat (rewrite lookup_insert; destruct (decide _); [simpl; unfold id; lia|]). rewrite lookup_empty. simpl. lia.
Defined.

(** [memcmp] compares the two byte strings lexicographically. *)
Theorem memcmp_lexicographic s1 s2 n m :
  memcmp s1 s2 n m = lex (bytes m s1 (Z.to_nat n)) (bytes m s2 (Z.to_nat n)).
Proof. unfold memcmp, bytes. apply memcmp_loop_spec. Qed.

End Mem.
