(* ===== verification/CString.v ===== *)
(** * Strings (kernel/src/std/string.c)

    Zero-terminated strings in byte memory.  The loops of the source run until
    they meet a terminator; here they take a bound on the rounds and fault
    when it runs out, and the lemmas say that any bound above the length of
    the string is enough.  [cstr m p s] reads the string [s] at [p]. *)

From S2P Require Import Prelude Mem.

Module CString.
Import Mem.

(** ** string.c *)

Fixpoint strlen_loop (fuel : nat) (cpy : Z) (m : mem) : outcome Z :=
  if rd m cpy =? 0 then Ret cpy
  else match fuel with
       | O => Fault "string without end"
       | S fuel => strlen_loop fuel (cpy + 1) m
       end.

Definition strlen (fuel : nat) (s : Z) (m : mem) : outcome Z :=
  cpy ← strlen_loop fuel s m;
  Ret (cpy -! s).

Fixpoint strcpy_loop (fuel : nat) (dest src : Z) (m : mem) : outcome (Z * mem) :=
  if rd m src =? 0 then Ret (dest, m)
  else match fuel with
       | O => Fault "string without end"
       | S fuel => strcpy_loop fuel (dest + 1) (src + 1) (wr m dest (rd m src))
       end.

Definition strcpy (fuel : nat) (dest src : Z) (m : mem) : outcome (Z * mem) :=
  '(dest', m) ← strcpy_loop fuel dest src m;
  Ret (dest, wr m dest' 0).

(** [for (; *src && i < n; i++)]; [n] is what is left of the source's [n]. *)
Fixpoint strncpy_copy (n : nat) (dest src : Z) (m : mem) : nat * Z * mem :=
  if rd m src =? 0 then (n, dest, m)
  else match n with
       | O => (O, dest, m)
       | S n => strncpy_copy n (dest + 1) (src + 1) (wr m dest (rd m src))
       end.

Fixpoint strncpy_fill (n : nat) (dest : Z) (m : mem) : mem :=
  match n with
  | O => m
  | S n => strncpy_fill n (dest + 1) (wr m dest 0)
  end.

Definition strncpy (dest src n : Z) (m : mem) : Z * mem :=
  let '(rest, dest', m) := strncpy_copy (Z.to_nat n) dest src m in
  (dest, strncpy_fill rest dest' m).

Definition strcat (fuel : nat) (dest src : Z) (m : mem) : outcome (Z * mem) :=
  n ← strlen fuel dest m;
  '(_, m) ← strcpy fuel (dest + n) src m;
  Ret (dest, m).

Definition strncat (fuel : nat) (dest src n : Z) (m : mem) : outcome (Z * mem) :=
  k ← strlen fuel dest m;
  let '(_, dest', m) := strncpy_copy (Z.to_nat n) (dest + k) src m in
  Ret (dest, wr m dest' 0).

Fixpoint strcmp_loop (fuel : nat) (s1 s2 : Z) (m : mem) : outcome (Z * Z) :=
  if negb (rd m s1 =? 0) && (rd m s1 =? rd m s2) then
    match fuel with
    | O => Fault "string without end"
    | S fuel => strcmp_loop fuel (s1 + 1) (s2 + 1) m
    end
  else Ret (s1, s2).

Definition strcmp (fuel : nat) (s1 s2 : Z) (m : mem) : outcome Z :=
  '(s1, s2) ← strcmp_loop fuel s1 s2 m;
  Ret (rd m s1 - rd m s2).

Fixpoint strncmp_loop (n : nat) (i s1 s2 : Z) (m : mem) : Z :=
  match n with
  | O => 0
  | S n =>
      if negb (rd m (s1 + i) =? rd m (s2 + i)) then rd m (s1 + i) - rd m (s2 + i)
      else if rd m (s1 + i) =? 0 then 0
      else strncmp_loop n (i + 1) s1 s2 m
  end.

Definition strncmp (s1 s2 n : Z) (m : mem) : Z := strncmp_loop (Z.to_nat n) 0 s1 s2 m.

(** [char] is signed: bytes from 128 on compare as negative numbers. *)
Fixpoint strchr_loop (fuel : nat) (s i c : Z) (m : mem) : outcome Z :=
  if rd m (s + i) =? 0 then Ret (if c =? 0 then s + i else 0)
  else if s8 (rd m (s + i)) =? c then Ret (s + i)
  else match fuel with
       | O => Fault "string without end"
       | S fuel => strchr_loop fuel s (i + 1) c m
       end.

Definition strchr (fuel : nat) (s c : Z) (m : mem) : outcome Z := strchr_loop fuel s 0 c m.

(** From the terminator backwards; [k] positions are left. *)
Fixpoint strrchr_loop (k : nat) (s c : Z) (m : mem) : Z :=
  match k with
  | O => 0
  | S k => if s8 (rd m (s + Z.of_nat k)) =? c then s + Z.of_nat k else strrchr_loop k s c m
  end.

Definition strrchr (fuel : nat) (s c : Z) (m : mem) : outcome Z :=
  n ← strlen fuel s m;
  Ret (strrchr_loop (Z.to_nat (n + 1)) s c m).

(** Is the needle found at [hay]? *)
Fixpoint strstr_match (fuel : nat) (hay needle : Z) (m : mem) : outcome bool :=
  if rd m needle =? 0 then Ret true
  else if rd m hay =? rd m needle then
    match fuel with
    | O => Fault "string without end"
    | S fuel => strstr_match fuel (hay + 1) (needle + 1) m
    end
  else Ret false.

Fixpoint strstr_loop (fuel : nat) (inner : nat) (hay needle : Z) (m : mem) : outcome Z :=
  if rd m hay =? 0 then Ret 0
  else
    found ← strstr_match inner hay needle m;
    if (found : bool) then Ret hay
    else match fuel with
         | O => Fault "string without end"
         | S fuel => strstr_loop fuel inner (hay + 1) needle m
         end.

Definition strstr (fuel : nat) (haystack needle : Z) (m : mem) : outcome Z :=
  strstr_loop fuel fuel haystack needle m.

(** The third statement returns; what follows it is never reached. *)
Definition strtok_r (s delim saved : Z) (m : mem) : Z * mem :=
  let token := if negb (s =? 0) then s else read64 saved m in
  (0, m).

(** ** Strings in memory *)

Fixpoint cstr (m : mem) (p : Z) (s : list Z) : Prop :=
  match s with
  | [] => rd m p = 0
  | c :: s => 0 < c < 256 /\ rd m p = c /\ cstr m (p + 1) s
  end.

Fixpoint write_bytes (p : Z) (bs : list Z) (m : mem) : mem :=
  match bs with
  | [] => m
  | b :: bs => write_bytes (p + 1) bs (wr m p b)
  end.

Lemma rd_write_bytes p bs m x :
  Forall (fun b => 0 <= b < 256) bs ->
  rd (write_bytes p bs m) x = if decide (p <= x < p + Z.of_nat (length bs)) then bs !!! Z.to_nat (x - p) else rd m x.
Proof.
  revert p m. induction bs as [|b bs IH]; intros p m Hb; simpl; [by rewrite decide_False by lia|].
  apply Forall_cons in Hb as [Hb Hbs]. rewrite IH, rd_wr by done.
  destruct (decide (x = p)) as [->|Hne].
  - rewrite decide_False, decide_True, Z.sub_diag by lia. simpl. by rewrite u8_small by lia.
  - destruct (decide (p + 1 <= x < p + 1 + Z.of_nat (length bs))).
    + rewrite decide_True by lia. replace (Z.to_nat (x - p)) with (S (Z.to_nat (x - (p + 1)))) by lia. done.
    + rewrite decide_False by lia. done.
Qed.

Lemma cstr_ext m m' p s :
  (forall x, p <= x <= p + Z.of_nat (length s) -> rd m' x = rd m x) -> cstr m p s -> cstr m' p s.
Proof.
  revert p. induction s as [|c s IH]; intros p Hm; simpl; [rewrite Hm by (simpl; lia); done|].
  intros (Hc & Hr & Hs). split; [done|]. split; [rewrite Hm by (simpl; lia); done|].
  apply IH; [|done]. intros x Hx. apply Hm. simpl. lia.
Qed.

Lemma cstr_forall m p s : cstr m p s -> Forall (fun c => 0 < c < 256) s.
Proof. revert p. induction s as [|c s IH]; intros p; simpl; [done|]. intros (? & ? & ?). constructor; eauto. Qed.

Lemma cstr_lookup m p s (i : nat) :
  cstr m p s -> (i <= length s)%nat -> rd m (p + Z.of_nat i) = (s ++ [0]) !!! i.
Proof.
  revert p i. induction s as [|c s IH]; intros p i; simpl.
  - intros Hr Hi. assert (i = 0%nat) as -> by lia. by rewrite Z.add_0_r.
  - intros (Hc & Hr & Hs) Hi. destruct i as [|i]; [by rewrite Z.add_0_r|]. simpl.
    rewrite <- (IH (p + 1) i Hs) by lia. f_equal. lia.
Qed.

Lemma cstr_app m p s t : Forall (fun c => 0 < c < 256) s ->
  (forall i c, s !! i = Some c -> rd m (p + Z.of_nat i) = c) -> cstr m (p + Z.of_nat (length s)) t -> cstr m p (s ++ t).
Proof.
  revert p. induction s as [|c s IH]; intros p Hf Hs Ht; simpl; [by rewrite Z.add_0_r in Ht|].
  apply Forall_cons in Hf as [Hc Hf]. split; [done|]. split; [rewrite <- (Hs 0%nat c) by done; f_equal; lia|].
  apply IH; [done| |].
  - intros i d Hi. rewrite <- (Hs (S i) d) by done. f_equal. lia.
  - simpl in Ht. replace (p + 1 + Z.of_nat (length s)) with (p + Z.of_nat (S (length s))) by lia. done.
Qed.

(** ** Length and copies *)

Lemma strlen_loop_spec fuel p s m :
  cstr m p s -> (length s <= fuel)%nat -> strlen_loop fuel p m = Ret (p + Z.of_nat (length s)).
Proof.
  revert fuel p. induction s as [|c s IH]; intros fuel p; simpl.
  - intros Hr _. destruct fuel; simpl; rewrite Hr; simpl; f_equal; lia.
  - intros (Hc & Hr & Hs) Hf. destruct fuel as [|fuel]; [lia|]. simpl. rewrite Hr.
    destruct (Z.eqb_spec c 0); [lia|]. rewrite IH by (done || lia). f_equal. lia.
Qed.

Lemma strlen_spec fuel p s m :
  cstr m p s -> (length s <= fuel)%nat -> Z.of_nat (length s) < 2 ^ 64 -> strlen fuel p m = Ret (Z.of_nat (length s)).
Proof.
  intros Hs Hf Hl. unfold strlen. rewrite (strlen_loop_spec fuel p s m Hs Hf). simpl. f_equal.
  rewrite u64_small by lia. lia.
Qed.

(** The copy does not run into what it still has to read. *)
Definition copyable (dest src n : Z) : Prop := dest <= src \/ src + n < dest.

Lemma cstr_behind m dest src c s :
  0 < c < 256 -> copyable dest src (Z.of_nat (S (length s))) -> cstr m (src + 1) s -> cstr (wr m dest c) (src + 1) s.
Proof.
  intros Hc Hov Hs. eapply cstr_ext; [|done]. intros x Hx. rewrite rd_wr, decide_False; [done|].
  destruct Hov; lia.
Qed.

Lemma strcpy_loop_spec fuel dest src s m :
  cstr m src s -> (length s <= fuel)%nat -> copyable dest src (Z.of_nat (length s)) ->
  strcpy_loop fuel dest src m = Ret (dest + Z.of_nat (length s), write_bytes dest s m).
Proof.
  revert fuel dest src m. induction s as [|c s IH]; intros fuel dest src m; simpl.
  - intros Hr _ _. destruct fuel; simpl; rewrite Hr; simpl; do 2 f_equal; lia.
  - intros (Hc & Hr & Hs) Hf Hov. destruct fuel as [|fuel]; [lia|]. simpl. rewrite Hr.
    destruct (Z.eqb_spec c 0); [lia|]. rewrite IH; [do 2 f_equal; lia|by apply cstr_behind|lia|].
    unfold copyable in *. lia.
Qed.

Lemma write_bytes_app p s t m : write_bytes p (s ++ t) m = write_bytes (p + Z.of_nat (length s)) t (write_bytes p s m).
Proof.
  revert p m. induction s as [|c s IH]; intros p m; simpl; [by rewrite Z.add_0_r|]. rewrite IH. f_equal. lia.
Qed.

Lemma strcpy_spec fuel dest src s m :
  cstr m src s -> (length s <= fuel)%nat -> copyable dest src (Z.of_nat (length s)) ->
  strcpy fuel dest src m = Ret (dest, write_bytes dest (s ++ [0]) m).
Proof.
  intros Hs Hf Hov. unfold strcpy. rewrite (strcpy_loop_spec fuel dest src s m Hs Hf Hov). simpl.
  by rewrite write_bytes_app.
Qed.

(** A copied string is there. *)
Lemma cstr_written p s m : Forall (fun c => 0 < c < 256) s -> cstr (write_bytes p (s ++ [0]) m) p s.
Proof.
  intros Hf. assert (Forall (fun b => 0 <= b < 256) (s ++ [0])) as Hb.
  { apply Forall_app. split; [|by repeat constructor]. eapply Forall_impl; [done|]. simpl. lia. }
  rewrite <- (app_nil_r s) at 2. apply cstr_app; [done| |].
  - intros i c Hi. pose proof (lookup_lt_Some _ _ _ Hi). rewrite rd_write_bytes by done.
    rewrite length_app. simpl. rewrite decide_True by lia. replace (Z.to_nat (p + Z.of_nat i - p)) with i by lia.
    rewrite lookup_total_app_l by done. by apply list_lookup_total_correct.
  - simpl. rewrite rd_write_bytes, length_app by done. simpl. rewrite decide_True by lia.
    rewrite lookup_total_app_r by lia. replace (_ - length s)%nat with 0%nat by lia. done.
Qed.

(** The bounded copy takes a prefix. *)
Lemma strncpy_copy_spec n dest src s m :
  cstr m src s -> copyable dest src (Z.of_nat (length s)) ->
  strncpy_copy n dest src m = ((n - length s)%nat, dest + Z.of_nat (length (take n s)), write_bytes dest (take n s) m).
Proof.
  revert n dest src m. induction s as [|c s IH]; intros n dest src m; simpl.
  - intros Hr _. destruct n; simpl; rewrite Hr; simpl; repeat f_equal; lia.
  - intros (Hc & Hr & Hs) Hov. destruct n as [|n]; simpl; rewrite Hr; destruct (Z.eqb_spec c 0); try lia.
    + repeat f_equal; lia.
    + rewrite IH; [simpl; do 2 f_equal; lia|by apply cstr_behind|]. unfold copyable in *. lia.
Qed.

Lemma strncpy_fill_spec n dest m : strncpy_fill n dest m = write_bytes dest (replicate n 0) m.
Proof. revert dest m. induction n as [|n IH]; intros dest m; simpl; [done|]. by rewrite IH. Qed.

Lemma strncpy_spec dest src n s m :
  cstr m src s -> copyable dest src (Z.of_nat (length s)) ->
  strncpy dest src n m = (dest, write_bytes dest (take (Z.to_nat n) s ++ replicate (Z.to_nat n - length s) 0) m).
Proof.
  intros Hs Hov. unfold strncpy. rewrite (strncpy_copy_spec _ dest src s m Hs Hov).
  by rewrite strncpy_fill_spec, write_bytes_app.
Qed.

(** Appending at the end of [d]. *)
Lemma cstr_appended m dest d t :
  cstr m dest d -> Forall (fun c => 0 < c < 256) t ->
  cstr (write_bytes (dest + Z.of_nat (length d)) (t ++ [0]) m) dest (d ++ t).
Proof.
  intros Hd Ht. apply cstr_app; [by eapply cstr_forall| |by apply cstr_written].
  intros i c Hi. pose proof (lookup_lt_Some _ _ _ Hi). rewrite rd_write_bytes.
  - rewrite decide_False by lia. rewrite (cstr_lookup m dest d i Hd) by lia.
    rewrite lookup_total_app_l by done. by apply list_lookup_total_correct.
  - apply Forall_app. split; [|by repeat constructor]. eapply Forall_impl; [done|]. simpl. lia.
Qed.

(** ** Comparison *)

(** Lexicographic order, a proper prefix first. *)
Fixpoint lex (s t : list Z) : comparison :=
  match s, t with
  | [], [] => Eq
  | [], _ :: _ => Lt
  | _ :: _, [] => Gt
  | a :: s, b :: t => match a ?= b with Eq => lex s t | c => c end
  end.

Lemma lex_eq s t : lex s t = Eq <-> s = t.
Proof.
  revert t. induction s as [|a s IH]; intros [|b t]; simpl; try done.
  destruct (Z.compare_spec a b) as [->|?|?]; [rewrite IH| |]; split; congruence || (intros [= -> ->]; lia).
Qed.

Lemma sub_sign a b : (a - b ?= 0) = (a ?= b).
Proof. destruct (Z.compare_spec (a - b) 0), (Z.compare_spec a b); done || lia. Qed.

Lemma strcmp_loop_spec fuel p q s t m :
  cstr m p s -> cstr m q t -> (length s <= fuel)%nat ->
  exists d, strcmp fuel p q m = Ret d /\ (d ?= 0) = lex s t.
Proof.
  revert fuel p q t. induction s as [|a s IH]; intros fuel p q t Hs Ht Hf; unfold strcmp; simpl in Hs.
  - exists (rd m p - rd m q). split; [destruct fuel; simpl; rewrite Hs; simpl; by rewrite Hs|]. rewrite sub_sign, Hs.
    destruct t as [|b t]; simpl in Ht |- *; [by rewrite Ht|]. destruct Ht as (Hb & -> & _). destruct (Z.compare_spec 0 b); done || lia.
  - destruct Hs as (Ha & Hp & Hs). destruct t as [|b t]; simpl in Ht.
    + exists a. destruct fuel; simpl; rewrite Hp, Ht; destruct (Z.eqb_spec a 0); simpl; try lia; rewrite Hp, Ht, Z.sub_0_r;
        (split; [done|]); destruct (Z.compare_spec a 0); done || lia.
    + destruct Ht as (Hb & Hq & Ht). destruct (decide (a = b)) as [->|Hne].
      * destruct fuel as [|fuel]; [simpl in Hf; lia|]. destruct (IH fuel (p + 1) (q + 1) t Hs Ht) as (d & Hd & Hl); [simpl in Hf; lia|].
        exists d. unfold strcmp in Hd. simpl. rewrite Hp, Hq, Z.eqb_refl, Z.compare_refl. destruct (Z.eqb_spec b 0); [lia|]. done.
      * exists (a - b). destruct fuel; simpl; rewrite Hp, Hq; destruct (Z.eqb_spec a 0), (Z.eqb_spec a b); try lia; simpl; rewrite Hp, Hq;
          (split; [done|]); rewrite sub_sign; destruct (Z.compare_spec a b); done || lia.
Qed.

Lemma strncmp_loop_spec n i p q s t m :
  cstr m (p + i) s -> cstr m (q + i) t -> (strncmp_loop n i p q m ?= 0) = lex (take n s) (take n t).
Proof.
  revert i s t. induction n as [|n IH]; intros i s t Hs Ht; [by destruct s, t|]. simpl.
  destruct s as [|a s], t as [|b t]; simpl in Hs, Ht.
  - by rewrite Hs, Ht.
  - destruct Ht as (Hb & Hq & _). rewrite Hs, Hq. destruct (Z.eqb_spec 0 b); [lia|]. simpl. destruct b; done || lia.
  - destruct Hs as (Ha & Hp & _). rewrite Ht, Hp. destruct (Z.eqb_spec a 0); [lia|]. simpl. rewrite Z.sub_0_r. destruct a; done || lia.
  - destruct Hs as (Ha & Hp & Hs), Ht as (Hb & Hq & Ht). rewrite Hp, Hq. destruct (Z.eqb_spec a b) as [->|Hne].
    + destruct (Z.eqb_spec b 0); [lia|]. simpl. rewrite Z.compare_refl. apply IH; by rewrite Z.add_assoc.
    + simpl. rewrite sub_sign. destruct (Z.compare_spec a b); done || lia.
Qed.

(** ** Searching *)

(** [r] is [p] plus the first position in [lo, hi) where [P] holds, else 0. *)
Definition first_at (P : nat -> Prop) (lo hi : nat) (p r : Z) : Prop :=
  (exists j, (lo <= j < hi)%nat /\ P j /\ (forall k, (lo <= k < j)%nat -> ~ P k) /\ r = p + Z.of_nat j) \/
  (r = 0 /\ forall k, (lo <= k < hi)%nat -> ~ P k).

Lemma first_here (P : nat -> Prop) lo hi p : (lo < hi)%nat -> P lo -> first_at P lo hi p (p + Z.of_nat lo).
Proof. intros Hlt Hp. left. exists lo. split; [lia|]. split; [done|]. split; [lia|done]. Qed.

Lemma first_next (P : nat -> Prop) lo hi p r : ~ P lo -> first_at P (S lo) hi p r -> first_at P lo hi p r.
Proof.
  assert (forall k, (lo <= k)%nat -> k = lo \/ (S lo <= k)%nat) as Hs by lia.
  intros Hn [(j & Hj & Hp & Hf & ->)|[-> Hf]].
  - left. exists j. split; [lia|]. split; [done|]. split; [|done]. intros k Hk.
    destruct (Hs k) as [->|?]; [lia|done|]. apply Hf. lia.
  - right. split; [done|]. intros k Hk. destruct (Hs k) as [->|?]; [lia|done|]. apply Hf. lia.
Qed.

Lemma first_none (P : nat -> Prop) lo hi p : (hi <= lo)%nat -> first_at P lo hi p 0.
Proof. intros H. right. split; [done|]. lia. Qed.

(** A byte of a string, and its end. *)
Lemma cstr_char m p s (i : nat) : cstr m p s -> (i <= length s)%nat ->
  (i = length s /\ rd m (p + Z.of_nat i) = 0) \/ ((i < length s)%nat /\ 0 < rd m (p + Z.of_nat i) < 256).
Proof.
  intros Hs Hi. rewrite (cstr_lookup m p s i Hs Hi). destruct (decide (i = length s)) as [->|].
  - left. split; [done|]. rewrite lookup_total_app_r, Nat.sub_diag by done. done.
  - right. split; [lia|]. rewrite lookup_total_app_l by lia. eapply Forall_lookup_total_1; [by eapply cstr_forall|lia].
Qed.

Definition char_at (s : list Z) (c : Z) (i : nat) : Prop := s8 ((s ++ [0]) !!! i) = c.

Lemma strchr_loop_spec fuel p (i : nat) c s m :
  cstr m p s -> (i <= length s)%nat -> (length s - i <= fuel)%nat ->
  exists r, strchr_loop fuel p (Z.of_nat i) c m = Ret r /\ first_at (char_at s c) i (S (length s)) p r.
Proof.
  intros Hs. revert i. induction fuel as [|fuel IH]; intros i Hi Hf; simpl;
    pose proof (cstr_lookup m p s i Hs Hi) as Hl; destruct (cstr_char m p s i Hs Hi) as [[-> Hr]|[Hlt Hr]]; try lia.
  1, 2: rewrite Hr; simpl; eexists; (split; [done|]); rewrite Hl in Hr; destruct (Z.eqb_spec c 0) as [->|Hc];
    [apply first_here; [lia|]; unfold char_at; by rewrite Hr|apply first_next, first_none; [|lia]; unfold char_at; by rewrite Hr].
  destruct (Z.eqb_spec (rd m (p + Z.of_nat i)) 0); [lia|]. destruct (Z.eqb_spec (s8 (rd m (p + Z.of_nat i))) c) as [Hc|Hc].
  - eexists. split; [done|]. apply first_here; [lia|]. unfold char_at. by rewrite <- Hl.
  - replace (Z.of_nat i + 1) with (Z.of_nat (S i)) by lia. destruct (IH (S i)) as (r & Hr' & Hat); [lia|lia|].
    exists r. split; [done|]. apply first_next; [|done]. unfold char_at. by rewrite <- Hl.
Qed.

(** The last position, from the end. *)
Lemma strrchr_loop_spec k p c s m :
  cstr m p s -> (k <= S (length s))%nat ->
  (exists j, (j < k)%nat /\ char_at s c j /\ (forall i, (j < i < k)%nat -> ~ char_at s c i) /\ strrchr_loop k p c m = p + Z.of_nat j) \/
  (strrchr_loop k p c m = 0 /\ forall i, (i < k)%nat -> ~ char_at s c i).
Proof.
  intros Hs. induction k as [|k IH]; intros Hk; simpl; [right; split; [done|lia]|].
  rewrite (cstr_lookup m p s k Hs) by lia. destruct (Z.eqb_spec (s8 ((s ++ [0]) !!! k)) c) as [Hc|Hc].
  - left. exists k. split; [lia|]. split; [done|]. split; [lia|done].
  - assert (forall i, (i < S k)%nat -> i = k \/ (i < k)%nat) as Hcase by lia. destruct IH as [(j & Hj & Hp & Hf & Hr)|[Hr Hf]]; [lia| |].
    + left. exists j. split; [lia|]. split; [done|]. split; [|done]. intros i Hi. destruct (Hcase i) as [->|]; [lia|done|]. apply Hf. lia.
    + right. split; [done|]. intros i Hi. destruct (Hcase i) as [->|]; [lia|done|]. apply Hf. lia.
Qed.

Lemma strstr_match_spec fuel p q s t m :
  cstr m p s -> cstr m q t -> (length t <= fuel)%nat -> strstr_match fuel p q m = Ret (bool_decide (t `prefix_of` s)).
Proof.
  revert fuel p q s. induction t as [|b t IH]; intros fuel p q s Hs Ht Hf; simpl in Ht.
  - rewrite bool_decide_true by apply prefix_nil. by destruct fuel; simpl; rewrite Ht.
  - destruct Ht as (Hb & Hq & Ht). destruct fuel as [|fuel]; [simpl in Hf; lia|]. simpl. rewrite Hq.
    destruct (Z.eqb_spec b 0); [lia|]. destruct s as [|a s]; simpl in Hs.
    + rewrite Hs. destruct (Z.eqb_spec 0 b); [lia|]. rewrite bool_decide_false; [done|]. by intros ?%prefix_nil_not.
    + destruct Hs as (Ha & -> & Hs). destruct (Z.eqb_spec a b) as [->|Hne].
      * rewrite (IH _ _ _ s) by (done || (simpl in Hf; lia)). f_equal. apply bool_decide_ext. split; [by apply prefix_cons|by intros ?%prefix_cons_inv_2].
      * rewrite bool_decide_false; [done|]. intros Hp%prefix_cons_inv_1. done.
Qed.

Lemma cstr_drop m p s (i : nat) : cstr m p s -> (i <= length s)%nat -> cstr m (p + Z.of_nat i) (drop i s).
Proof.
  revert p i. induction s as [|c s IH]; intros p i Hs Hi; simpl in *.
  - assert (i = 0%nat) as -> by lia. simpl. by rewrite Z.add_0_r.
  - destruct i as [|i]; [simpl; by rewrite Z.add_0_r|]. destruct Hs as (_ & _ & Hs). simpl.
    replace (p + Z.of_nat (S i)) with (p + 1 + Z.of_nat i) by lia. apply IH; [done|lia].
Qed.

Definition occurs (s t : list Z) (i : nat) : Prop := t `prefix_of` drop i s.

Lemma strstr_loop_spec fuel inner p (i : nat) q s t m :
  cstr m p s -> cstr m q t -> (i <= length s)%nat -> (length s - i <= fuel)%nat -> (length t <= inner)%nat ->
  exists r, strstr_loop fuel inner (p + Z.of_nat i) q m = Ret r /\ first_at (occurs s t) i (length s) p r.
Proof.
  intros Hs Ht. revert i. induction fuel as [|fuel IH]; intros i Hi Hf Hin; simpl;
    destruct (cstr_char m p s i Hs Hi) as [[Hx Hr]|[Hlt Hr]]; try lia.
  1, 2: rewrite Hr; simpl; exists 0; split; [done|]; apply first_none; lia.
  destruct (Z.eqb_spec (rd m (p + Z.of_nat i)) 0); [lia|].
  rewrite (strstr_match_spec inner _ q (drop i s) t m) by (done || by apply cstr_drop). simpl.
  case_bool_decide as Ho.
  - eexists. split; [done|]. by apply first_here.
  - replace (p + Z.of_nat i + 1) with (p + Z.of_nat (S i)) by lia. destruct (IH (S i)) as (r & Hr' & Hat); [lia|lia|done|].
    exists r. split; [done|]. by apply first_next.
Qed.

(** ** Theorems *)

(** [strcpy] followed by [strcat] builds the concatenation of two strings
    in the destination, terminated, and writes no byte beyond it: for strings
    that do not lie in the way, and any bound above their lengths, both
    return the destination. *)
Theorem strcpy_strcat_correct fuel dest p q s t m :
  cstr m p s -> cstr m q t ->
  (length s < fuel)%nat -> (length t < fuel)%nat -> Z.of_nat (length s) < 2 ^ 64 ->
  (p + Z.of_nat (length s) < dest \/ dest + Z.of_nat (length s) < p) ->
  (q + Z.of_nat (length t) < dest \/ dest + Z.of_nat (length s + length t) < q) ->
  returns ('(d, m1) ← strcpy fuel dest p m; strcat fuel d q m1) (fun '(r, m') =>
    r = dest /\ cstr m' dest (s ++ t) /\
    forall x, ~ (dest <= x <= dest + Z.of_nat (length s + length t)) -> rd m' x = rd m x).
Proof.
  intros Hs Ht Hfs Hft Hl Hp Hq. pose proof (cstr_forall _ _ _ Hs) as Bs. pose proof (cstr_forall _ _ _ Ht) as Bt.
  assert (forall l, Forall (fun c => 0 < c < 256) l -> Forall (fun b => 0 <= b < 256) (l ++ [0])) as B0.
  { intros l Hb. apply Forall_app. split; [|by repeat constructor]. eapply Forall_impl; [done|]. simpl. lia. }
  rewrite (strcpy_spec fuel dest p s) by (unfold copyable; done || lia). simpl. set (m1 := write_bytes dest (s ++ [0]) m).
  assert (cstr m1 dest s) as Hd by (by apply cstr_written). assert (cstr m1 q t) as Ht1.
  { eapply cstr_ext; [|done]. intros x Hx. unfold m1. rewrite rd_write_bytes, length_app by auto. simpl. by rewrite decide_False by lia. }
  unfold strcat. rewrite (strlen_spec fuel dest s) by (done || lia). simpl.
  rewrite (strcpy_spec fuel _ q t) by (unfold copyable; done || lia). simpl.
  split; [done|]. split; [by apply cstr_appended|]. intros x Hx. unfold m1.
  rewrite !rd_write_bytes by auto. rewrite !length_app. simpl. by rewrite !decide_False by lia.
Qed.

Lemma strcpy_strcat_correct_witness :
  let m := write_bytes 300 [99; 0] (write_bytes 200 [97; 98; 0] ∅) in
  returns ('(d, m1) ← strcpy 9 100 200 m; strcat 9 d 300 m1) (fun '(r, m') => r = 100 /\ cstr m' 100 [97; 98; 99]).
Proof.
  intros m. eapply returns_mono.
  - apply (strcpy_strcat_correct 9 100 200 300 [97; 98] [99] m); simpl; try lia; by vm_compute.
  - intros [r m'] (? & ? & _). done.
Defined.

(** C15: [strcmp] orders strings lexicographically by unsigned bytes, a proper
    prefix first, and so does [strncmp] for the first [n] bytes. *)
Theorem strcmp_lexicographic fuel p q s t n m :
  cstr m p s -> cstr m q t -> (length s <= fuel)%nat ->
  (exists d, strcmp fuel p q m = Ret d /\ (d ?= 0) = lex s t) /\
  (strncmp p q n m ?= 0) = lex (take (Z.to_nat n) s) (take (Z.to_nat n) t).
Proof.
  intros Hs Ht Hf. split; [by apply strcmp_loop_spec|]. unfold strncmp. apply strncmp_loop_spec; by rewrite Z.add_0_r.
Qed.

Lemma strcmp_lexicographic_witness :
  let m := write_bytes 300 [97; 200; 0] (write_bytes 200 [97; 98; 0] ∅) in
  exists d, strcmp 9 200 300 m = Ret d /\ (d ?= 0) = Lt.
Proof. intros m. apply (strcmp_lexicographic 9 200 300 [97; 98] [97; 200] 1 m); simpl; try lia; by vm_compute. Defined.

(** C16: [strstr] returns the first position of a non-empty rest of the
    haystack that starts with the needle, and NULL if there is none. *)
Theorem strstr_first fuel p q s t m :
  cstr m p s -> cstr m q t -> (length s <= fuel)%nat -> (length t <= fuel)%nat ->
  exists r, strstr fuel p q m = Ret r /\ first_at (occurs s t) 0 (length s) p r.
Proof.
  intros Hs Ht Hf Hf'. rewrite <- (Z.add_0_r p). unfold strstr. destruct (strstr_loop_spec fuel fuel p 0 q s t m) as (r & Hr & Ha); try done; [lia|lia|].
  exists r. split; [done|]. by rewrite Z.add_0_r.
Qed.

Lemma strstr_first_witness :
  let m := write_bytes 300 [98; 99; 0] (write_bytes 200 [97; 98; 98; 99; 0] ∅) in
  (exists r, strstr 9 200 300 m = Ret r /\ first_at (occurs [97; 98; 98; 99] [98; 99]) 0 4 200 r) /\ strstr 9 200 300 m = Ret 202.
Proof.
  intros m. split; [|by vm_compute]. apply (strstr_first 9 200 300 [97; 98; 98; 99] [98; 99] m); simpl; try lia; by vm_compute.
Defined.

(** [strtok_r] returns NULL and changes nothing, whatever it is given. *)
Lemma strtok_r_null s delim saved m : strtok_r s delim saved m = (0, m).
Proof. done. Qed.

End CString.
