(* ===== verification/FrameHdr.v ===== *)
(** * Page frames: the shared header (kernel/include/frame_alloc.h)

    [struct page], the array of them that describes physical memory, the
    conversions between page, index and physical address, and the order
    arithmetic every user of the frame allocator goes through. *)

From S2P Require Import Prelude Dll.

Module FrameHdr.

Definition BUDDY_HIGH_ORDER : Z := 10.
Definition PAGE_SIZE : Z := 0x1000.
Definition PAGE_SHIFT : Z := 12.

Definition STRUCT_PAGE_FLAG_COMPOSITE_TAIL : Z := Z.shiftl 1 1.
Definition STRUCT_PAGE_FLAG_SLAB_COMPOSITE_HEAD : Z := Z.shiftl 1 2.
Definition STRUCT_PAGE_FLAG_KMALLOC_BUDDY : Z := Z.shiftl 1 3.

(** [struct page].  The members of the union share storage: [p_slot0] is
    [next], [slab_next], [order] and [comp_head], [p_slot1] is [prev] and
    [slab_prev]. *)
Record page := mk_page {
  p_flags : Z;
  p_slot0 : word;
  p_slot1 : word;
  p_this_cache : word;
  p_freelist : word;
  p_used_objs : Z;
  p_total_objs : Z
}.

(** A page as the [memset] of [early_mem_init] leaves it. *)
Definition zero_page : page := mk_page 0 NULL NULL NULL NULL 0 0.

Definition set_slot0 (w : word) (p : page) : page :=
  mk_page (p_flags p) w (p_slot1 p) (p_this_cache p) (p_freelist p) (p_used_objs p) (p_total_objs p).
Definition set_slot1 (w : word) (p : page) : page :=
  mk_page (p_flags p) (p_slot0 p) w (p_this_cache p) (p_freelist p) (p_used_objs p) (p_total_objs p).
Definition set_flags (f : Z) (p : page) : page :=
  mk_page f (p_slot0 p) (p_slot1 p) (p_this_cache p) (p_freelist p) (p_used_objs p) (p_total_objs p).

#[global] Program Instance page_node : Node page := {|
  nxt := p_slot0; prv := p_slot1; set_nxt := set_slot0; set_prv := set_slot1 |}.
Solve All Obligations with by intros.

(** The sizes the compiler gives the two structs. *)
Definition sizeof_page : Z := 48.
Definition sizeof_memmap_entry : Z := 24.

(** A [struct page *] is [Ref i] for [&pages[i]]; plain numbers lie below the
    array, which is mapped in the higher half. *)
Definition phys2page (phys : Z) : word := Ref (phys / PAGE_SIZE).

Definition page2idx (pages_count : Z) (pg : word) : outcome Z :=
  match pg with
  | Ref i => if (i <? 0) || (i >=? pages_count) then Panic "page is not in range" else Ret i
  | Num _ => Panic "page is not in range"
  end.

Definition page2phys (pages_count : Z) (pg : word) : outcome Z :=
  i ← page2idx pages_count pg; Ret (u64 (Z.shiftl i PAGE_SHIFT)).

(** The loops of [psize2order] and [size2order] halve a 64-bit value, so 64
    rounds are enough. *)
Fixpoint halve_until (fuel : nat) (limit size order : Z) : Z :=
  match fuel with
  | O => order
  | S fuel => if size >? limit then halve_until fuel limit (Z.shiftr size 1) (order +! 1) else order
  end.

Definition psize2order (size : Z) : Z := halve_until 64 PAGE_SIZE size 0.
Definition size2order (size : Z) : Z := halve_until 64 1 size 0.

(** [1 << order] is an [int] shift, converted to [size_t] on return. *)
Definition order2size (order : Z) : Z := u64 (s32 (Z.shiftl 1 order)).

(** ** Lemmas *)

Lemma order2size_pow k : 0 <= k < 31 -> order2size k = 2 ^ k.
Proof.
  intros. unfold order2size. rewrite Z.shiftl_1_l.
  pose proof (Z.pow_lt_mono_r 2 k 31). pose proof (pow2_pos k).
  rewrite s32_small, u64_small by lia. done.
Qed.

Lemma page2idx_ret n i : 0 <= i < n -> page2idx n (Ref i) = Ret i.
Proof.
  intros. unfold page2idx. destruct (Z.ltb_spec i 0); [lia|]. rewrite Z.geb_leb.
  destruct (Z.leb_spec n i); [lia | done].
Qed.

(** After the loop the value is at most the limit, and one round fewer would
    not have been enough. *)
Lemma halve_until_spec fuel limit size order :
  1 <= limit -> 0 <= size -> size / 2 ^ Z.of_nat fuel <= limit ->
  0 <= order -> order + Z.of_nat fuel < 2 ^ 64 ->
  let r := halve_until fuel limit size order in
  order <= r /\ size / 2 ^ (r - order) <= limit /\
  (order < r -> limit < size / 2 ^ (r - order - 1)).
Proof.
  intros Hlim. revert size order. induction fuel as [|fuel IH]; intros size order Hs Hf Ho Hb.
  - simpl in *. rewrite Z.sub_diag. simpl. lia.
  - rewrite Nat2Z.inj_succ in *. simpl halve_until. rewrite Z.gtb_ltb.
    destruct (Z.ltb_spec limit size) as [Hlt|Hge].
    + rewrite u64_small by lia. rewrite Z.shiftr_div_pow2 by lia. change (2 ^ 1) with 2.
      rewrite Z.pow_succ_r in Hf by lia. pose proof (pow2_pos (Z.of_nat fuel)).
      destruct (IH (size / 2) (order + 1)) as (H1 & H2 & H3); [|rewrite Z.div_div; lia|lia|lia|].
      { apply Z.div_pos; lia. }
      set (r := halve_until fuel limit (size / 2) (order + 1)) in *.
      assert (forall n, 0 <= n -> size / 2 / 2 ^ n = size / 2 ^ (n + 1)) as E.
      { intros n Hn. pose proof (pow2_pos n). rewrite Z.div_div by lia.
        by rewrite Z.pow_add_r, Z.mul_comm by lia. }
      split; [lia|]. split.
      * rewrite E in H2 by lia. by replace (r - order) with (r - (order + 1) + 1) by lia.
      * intros _. destruct (decide (r = order + 1)) as [Heq|Hne].
        { replace (r - order - 1) with 0 by lia. rewrite Z.pow_0_r, Z.div_1_r. lia. }
        rewrite E in H3 by lia.
        replace (r - order - 1) with (r - (order + 1) - 1 + 1) by lia. apply H3. lia.
    + cbn zeta. rewrite Z.sub_diag, Z.pow_0_r, Z.div_1_r. lia.
Qed.

Lemma psize2order_bounds size :
  0 <= size < 2 ^ 64 ->
  let k := psize2order size in
  0 <= k /\ size < (PAGE_SIZE + 1) * 2 ^ k /\ (0 < k -> (PAGE_SIZE + 1) * 2 ^ (k - 1) <= size).
Proof.
  intros Hs. unfold psize2order.
  destruct (halve_until_spec 64 PAGE_SIZE size 0) as (H1 & H2 & H3); [done|lia| |lia|lia|].
  { rewrite Z.div_small; [done|lia]. }
  set (k := halve_until 64 PAGE_SIZE size 0) in *. cbn zeta. rewrite Z.sub_0_r in *.
  pose proof (pow2_pos k). split; [lia|]. split.
  - pose proof (Z.mul_succ_div_gt size (2 ^ k)). nia.
  - intros Hk. specialize (H3 Hk). pose proof (pow2_pos (k - 1)).
    pose proof (Z.mul_div_le size (2 ^ (k - 1))). nia.
Qed.

(** [size2order] is the floor of the binary logarithm. *)
Lemma size2order_log2 size : 1 <= size < 2 ^ 64 -> size2order size = Z.log2 size.
Proof.
  intros Hs. unfold size2order.
  destruct (halve_until_spec 64 1 size 0) as (H1 & H2 & H3); [lia|lia| |lia|lia|].
  { rewrite Z.div_small; lia. }
  set (k := halve_until 64 1 size 0) in *. rewrite Z.sub_0_r in *.
  pose proof (pow2_pos k). symmetry. apply Z.log2_unique; [lia|].
  pose proof (Z.mul_succ_div_gt size (2 ^ k)). rewrite Z.pow_succ_r by lia. split; [|nia].
  destruct (decide (k = 0)) as [->|Hne]; [lia|].
  assert (1 < size / 2 ^ (k - 1)) as H4 by (apply H3; lia).
  pose proof (pow2_pos (k - 1)). pose proof (Z.mul_div_le size (2 ^ (k - 1))).
  replace (2 ^ k) with (2 * 2 ^ (k - 1)); [nia|].
  rewrite <- Z.pow_succ_r by lia. f_equal. lia.
Qed.

(** For whole numbers of pages, up to the orders the allocator serves, the
    block [psize2order] names holds the request. *)
Lemma psize2order_covers n :
  0 <= n -> n * PAGE_SIZE < 2 ^ 64 -> psize2order (n * PAGE_SIZE) <= BUDDY_HIGH_ORDER ->
  n <= 2 ^ psize2order (n * PAGE_SIZE).
Proof.
  intros Hn Hb. destruct (psize2order_bounds (n * PAGE_SIZE)) as (H1 & H2 & _).
  { unfold PAGE_SIZE in *. lia. }
  set (k := psize2order (n * PAGE_SIZE)) in *. unfold BUDDY_HIGH_ORDER. intros Hk.
  assert (2 ^ k <= 2 ^ 10) by (apply Z.pow_le_mono_r; lia). unfold PAGE_SIZE in *. nia.
Qed.

End FrameHdr.
