(* ===== verification/EarlyMem.v ===== *)
(** * Boot-time memory (kernel/src/mm/mem_init.c)

    The first-fit allocator that runs on a copy of the boot loader's memory
    map until the frame allocator takes over.  Its state is the memory map
    copy, the record of allocations (which the page tables are later built
    from) and the byte counters.  The theorems: an allocation hands out bytes
    that were available and removes exactly those; no two allocations overlap;
    no byte is lost or counted twice up to [early_mem_exit]; [early_mem_exit]
    leaves page-aligned regions and cannot panic. *)

From S2P Require Import Prelude Macros Dll FrameHdr.

(** What the Limine boot protocol fixes: the memory map entry types. *)
Class Limine := {
  LIMINE_MEMMAP_USABLE : Z;
  LIMINE_MEMMAP_FRAMEBUFFER : Z;
  LIMINE_MEMMAP_BOOTLOADER_RECLAIMABLE : Z
}.

Module EarlyMem.
Import Macros FrameHdr.

Section EarlyMem.
Context `{Limine}.

Record memmap_entry := mk_entry { ent_start : Z; ent_length : Z; ent_type : Z }.
Record limine_memmap_entry := mk_limine { lm_base : Z; lm_length : Z; lm_type : Z }.
Record early_mem_alloc_mapping := mk_mapping { map_start : Z; map_length : Z }.

Definition early_mem_max_allocations : Z := PAGE_SIZE / 16.

(** The array before any allocation, in the zeroed bss. *)
Definition no_mappings : list early_mem_alloc_mapping :=
  replicate (Z.to_nat early_mem_max_allocations) (mk_mapping 0 0).

Record em := mk_em {
  em_memmap : list memmap_entry;
  em_mappings : list early_mem_alloc_mapping;   (* early_mem_mappings, a fixed array *)
  em_allocations : Z;
  em_total_pages : Z;
  em_total_pages_usable : Z;
  em_bytes_allocated : Z;
  em_is_initialized : bool;
  em_hhdm_offset : Z
}.

(** ** [early_mem_alloc] *)

(** The first fit loop: the start of the piece cut off, and the new map. *)
Fixpoint first_fit (size : Z) (es : list memmap_entry) : option (Z * list memmap_entry) :=
  match es with
  | [] => None
  | ent :: es =>
      if (ent_type ent =? LIMINE_MEMMAP_USABLE) && (ent_length ent >=? size) then
        Some (ent_start ent,
              mk_entry (ent_start ent +! size) (ent_length ent -! size) (ent_type ent) :: es)
      else
        '(ret, es) ← first_fit size es; Some (ret, ent :: es)
  end.

Definition early_mem_alloc (size : Z) (e : em) : outcome (Z * em) :=
  if negb (em_is_initialized e) then
    Panic "trying to call early_mem_alloc() with early_mem_uninitialized=0"
  else if em_allocations e >? early_mem_max_allocations then
    Panic "tried to exceeded max allocation amount for early_mem"
  else
    match first_fit size (em_memmap e) with
    | Some (start, memmap) =>
        if em_allocations e <? Z.of_nat (length (em_mappings e)) then
          Ret (start +! em_hhdm_offset e,
               mk_em memmap
                     (<[Z.to_nat (em_allocations e) := mk_mapping start size]> (em_mappings e))
                     (em_allocations e +! 1) (em_total_pages e) (em_total_pages_usable e)
                     (em_bytes_allocated e +! size) true (em_hhdm_offset e))
        else Fault "early_mem_mappings index out of bounds"
    | None => Panic "early_mem_alloc() failed"
    end.

(** ** [early_mem_init] *)

(** Where the copy of the map goes: the first usable entry that can hold it. *)
Fixpoint find_memmap (space : Z) (es : list limine_memmap_entry) : option Z :=
  match es with
  | [] => None
  | ent :: es =>
      if (lm_type ent =? LIMINE_MEMMAP_USABLE) && (lm_length ent >=? space) then Some (lm_base ent)
      else find_memmap space es
  end.

(** The copy loop; [memmap] is the (hhdm) address of the copy. *)
Fixpoint copy_memmap (memmap offset space : Z) (es : list limine_memmap_entry) (high usable_bytes : Z)
    : list memmap_entry * Z * Z :=
  match es with
  | [] => ([], high, usable_bytes)
  | ent :: es =>
      let usable_bytes :=
        if lm_type ent =? LIMINE_MEMMAP_USABLE then usable_bytes +! lm_length ent else usable_bytes in
      let high := MAX high (lm_base ent +! lm_length ent) in
      let new :=
        if memmap =? lm_base ent +! offset then
          mk_entry (lm_base ent +! space) (lm_length ent -! space) (lm_type ent)
        else mk_entry (lm_base ent) (lm_length ent) (lm_type ent) in
      let '(rest, high, usable_bytes) := copy_memmap memmap offset space es high usable_bytes in
      (new :: rest, high, usable_bytes)
  end.

(** [early_mem_init]: the responses of the boot loader are its input; the
    result is the number of pages, the (hhdm) address of [pages] and the
    allocator's state. *)
Definition early_mem_init (memmap_response : option (list limine_memmap_entry))
    (hhdm_response : option Z) : outcome (Z * Z * em) :=
  match memmap_response, hhdm_response with
  | Some entries, Some offset =>
      let space := Z.of_nat (length entries) *! sizeof_memmap_entry in
      match find_memmap space entries with
      | Some base =>
          let '(memmap, high, usable_bytes) :=
            copy_memmap (base +! offset) offset space entries 0 0 in
          let total := high / PAGE_SIZE in
          '(pages, e) ← early_mem_alloc (total *! sizeof_page)
            (mk_em memmap no_mappings 0
                   total (usable_bytes / PAGE_SIZE) space true offset);
          Ret (total, pages, e)
      | None =>
          if decide (entries = []) then Panic "early_mem_alloc() failed"
          else Fault "memmap copy through a null pointer"
      end
  | _, _ => Panic "memmap or hhdm request failed"
  end.

(** ** [early_mem_exit], [early_mem_statistics] *)

Fixpoint align_entries (es : list memmap_entry) (bytes : Z) : list memmap_entry * Z :=
  match es with
  | [] => ([], bytes)
  | ent :: es =>
      if ent_type ent =? LIMINE_MEMMAP_USABLE then
        let cut := ALIGN_UP (ent_start ent) PAGE_SIZE -! ent_start ent in
        let '(es, bytes) := align_entries es (bytes +! cut) in
        (mk_entry (ent_start ent +! cut) (ent_length ent -! cut) (ent_type ent) :: es, bytes)
      else
        let '(es, bytes) := align_entries es bytes in (ent :: es, bytes)
  end.

Definition early_mem_exit (e : em) : outcome (Z * em) :=
  if negb (em_is_initialized e) then
    Panic "trying to call early_mem_exit() with early_mem_uninitialized=0"
  else
    let '(memmap, bytes) := align_entries (em_memmap e) (em_bytes_allocated e) in
    if tst bytes (PAGE_SIZE -! 1) then Panic "early_mem_exit() corrupted memory map"
    else
      Ret (bytes, mk_em memmap (em_mappings e) (em_allocations e) (em_total_pages e)
                        (em_total_pages_usable e -! bytes / PAGE_SIZE) bytes true (em_hhdm_offset e)).

Definition early_mem_statistics (e : em) : outcome (Z * Z) :=
  if negb (em_is_initialized e) then
    Panic "trying to call early_mem_statistics() with early_mem_uninitialized=0"
  else
    Ret (em_total_pages_usable e, em_total_pages_usable e -! em_bytes_allocated e / PAGE_SIZE).

(** ** Memory maps *)

Definition usable (e : memmap_entry) : Prop := ent_type e = LIMINE_MEMMAP_USABLE.
Definition ent_end (e : memmap_entry) : Z := ent_start e + ent_length e.

(** Physical addresses have at most 52 bits on x86-64. *)
Definition ent_ok (e : memmap_entry) : Prop :=
  0 <= ent_start e /\ 0 <= ent_length e /\ ent_end e <= 2 ^ 52.

Definition apart (e e' : memmap_entry) : Prop :=
  ent_end e <= ent_start e' \/ ent_end e' <= ent_start e.

(** Entries are in range and usable ones do not overlap. *)
Fixpoint map_ok (es : list memmap_entry) : Prop :=
  match es with
  | [] => True
  | e :: es => ent_ok e /\ Forall (fun e' => usable e -> usable e' -> apart e e') es /\ map_ok es
  end.

Definition ends_aligned (es : list memmap_entry) : Prop :=
  Forall (fun e => usable e -> (PAGE_SIZE | ent_end e)) es.

(** The byte at [a] is available. *)
Definition avail (es : list memmap_entry) (a : Z) : Prop :=
  exists e, e ∈ es /\ usable e /\ ent_start e <= a < ent_end e.

Fixpoint usable_bytes (es : list memmap_entry) : Z :=
  match es with
  | [] => 0
  | e :: es => (if ent_type e =? LIMINE_MEMMAP_USABLE then ent_length e else 0) + usable_bytes es
  end.

(** Cutting bytes off the front of an entry. *)
Definition shrink (e e' : memmap_entry) : Prop :=
  ent_type e' = ent_type e /\ ent_start e <= ent_start e' /\ 0 <= ent_length e' /\
  ent_end e' = ent_end e.

#[global] Instance shrink_trans : Transitive shrink.
Proof. unfold shrink. intros x y z. intuition (lia || congruence). Qed.

Lemma shrink_refl e : ent_ok e -> shrink e e.
Proof. unfold shrink, ent_ok. lia. Qed.

Lemma map_ok_ent es e : map_ok es -> e ∈ es -> ent_ok e.
Proof.
  induction es as [|e' es IH]; simpl; [set_solver|].
  intros (? & _ & ?) [-> | ?]%elem_of_cons; auto.
Qed.

Lemma shrink_all_refl es : map_ok es -> Forall2 shrink es es.
Proof. induction es; simpl; [constructor|]. intros (? & ? & ?). constructor; auto using shrink_refl. Qed.

Lemma shrink_map_ok es es' : Forall2 shrink es es' -> map_ok es -> map_ok es'.
Proof.
  induction 1 as [|e e' es es' He Hes IH]; simpl; [done|]. intros (Hok & Hap & Hrest).
  split; [|split; [|auto]].
  - unfold shrink, ent_ok in *. lia.
  - apply Forall_forall. intros x' Hx' Hu Hu'.
    apply list_elem_of_lookup in Hx' as [i Hi].
    destruct (Forall2_lookup_r _ _ _ _ _ Hes Hi) as (x & Hx & Hsh).
    rewrite Forall_forall in Hap. specialize (Hap x).
    unfold shrink, usable, apart in *. destruct He as (? & ? & ? & ?), Hsh as (? & ? & ? & ?).
    destruct Hap; [eauto using list_elem_of_lookup_2 | congruence | congruence | lia | lia].
Qed.

Lemma shrink_ends es es' : Forall2 shrink es es' -> ends_aligned es -> ends_aligned es'.
Proof.
  unfold ends_aligned. induction 1 as [|e e' es es' (Ht & _ & _ & Hend)]; [done|].
  intros [? ?]%Forall_cons. constructor; [|auto]. unfold usable in *. rewrite Ht, Hend. done.
Qed.

Lemma avail_cons e es a :
  avail (e :: es) a <-> (usable e /\ ent_start e <= a < ent_end e) \/ avail es a.
Proof.
  unfold avail. split.
  - intros (x & [-> | Hx]%elem_of_cons & ?); [by left|]. right. eauto.
  - intros [? | (x & ? & ?)]; [exists e | exists x]; set_solver.
Qed.

(** A byte lies in at most one usable entry. *)
Lemma avail_apart e es a :
  map_ok (e :: es) -> usable e -> ent_start e <= a < ent_end e -> ~ avail es a.
Proof.
  intros (_ & Hap & _) Hu Ha (x & Hx & Hux & Hax). rewrite Forall_forall in Hap.
  destruct (Hap x Hx Hu Hux); unfold ent_end in *; lia.
Qed.

Lemma usable_eqb e : (ent_type e =? LIMINE_MEMMAP_USABLE) = true <-> usable e.
Proof. apply Z.eqb_eq. Qed.

Lemma usable_bytes_nonneg es : map_ok es -> 0 <= usable_bytes es.
Proof.
  induction es as [|e es IH]; simpl; [done|]. intros ((? & ? & ?) & _ & ?%IH).
  destruct (_ =? _); lia.
Qed.

Lemma usable_bytes_aligned es :
  Forall (fun e => usable e -> (PAGE_SIZE | ent_start e)) es -> ends_aligned es ->
  (PAGE_SIZE | usable_bytes es).
Proof.
  unfold ends_aligned. induction es as [|e es IH]; simpl; [intros; apply Z.divide_0_r|].
  intros [Hs ?]%Forall_cons [He ?]%Forall_cons. apply Z.divide_add_r; [|auto].
  destruct (ent_type e =? _) eqn:Hu; [|apply Z.divide_0_r].
  apply usable_eqb in Hu. replace (ent_length e) with (ent_end e - ent_start e) by (unfold ent_end; lia).
  apply Z.divide_sub_r; auto.
Qed.

(** ** The loops *)

Lemma cut_front e n :
  ent_ok e -> 0 <= n <= ent_length e ->
  shrink e (mk_entry (ent_start e +! n) (ent_length e -! n) (ent_type e)) /\
  ent_start e +! n = ent_start e + n /\ ent_length e -! n = ent_length e - n.
Proof.
  intros (? & ? & ?) ?. unfold shrink, ent_end in *. simpl.
  rewrite !u64_small by lia. lia.
Qed.

Lemma first_fit_spec size es :
  map_ok es -> 0 <= size ->
  match first_fit size es with
  | Some (start, es') =>
      Forall2 shrink es es' /\
      (exists e, e ∈ es /\ usable e /\ ent_start e = start /\ size <= ent_length e) /\
      (forall a, avail es' a <-> avail es a /\ ~ (start <= a < start + size)) /\
      usable_bytes es' + size = usable_bytes es
  | None => forall e, e ∈ es -> usable e -> ent_length e < size
  end.
Proof.
  intros Hok Hs. induction es as [|e es IH]; simpl; [set_solver|].
  pose proof Hok as (He & _ & Hrest). specialize (IH Hrest).
  destruct ((ent_type e =? LIMINE_MEMMAP_USABLE) && (ent_length e >=? size)) eqn:Hc.
  - apply andb_true_iff in Hc as [Hu Hle]. apply Z.geb_le in Hle.
    destruct (cut_front e size He) as (Hsh & E1 & E2); [lia|]. pose proof Hu as Hu'.
    apply usable_eqb in Hu'. split; [|split; [|split]].
    + constructor; [done | by apply shrink_all_refl].
    + exists e. set_solver.
    + intros a. rewrite !avail_cons. unfold usable, ent_end at 1. simpl. rewrite E1, E2.
      pose proof (avail_apart e es a Hok Hu') as Hap. unfold usable, ent_end, ent_ok in *. split.
      * intros [[? ?] | Hin]; [split; [left; split; [done|lia] | lia]|]. split; [by right|].
        intros ?. apply Hap; [lia|done].
      * intros [[[? ?] | Hin] Hn]; [left; split; [done|lia] | by right].
    + simpl. rewrite Hu, E2. lia.
  - assert (usable e -> ent_length e < size) as Hno.
    { intros Hu%usable_eqb. rewrite Hu in Hc. simpl in Hc. rewrite Z.geb_leb in Hc.
      by apply Z.leb_gt in Hc. }
    destruct (first_fit size es) as [[start es']|] eqn:Hff; simpl.
    + destruct IH as (Hsh & (x & Hx & Hux & Hst & Hlen) & Hav & Hby). split; [|split; [|split]].
      * constructor; [by apply shrink_refl | done].
      * exists x. set_solver.
      * intros a. rewrite !avail_cons, Hav. pose proof (avail_apart e es a Hok) as Hap.
        assert (start <= a < start + size -> avail es a).
        { intros. exists x. unfold ent_end. split; [done|]. split; [done|]. lia. }
        naive_solver.
      * lia.
    + intros x [-> | ?]%elem_of_cons ?; auto.
Qed.

(** No entry loses more than the request. *)
Lemma first_fit_keeps size es start es' x :
  map_ok es -> 0 <= size -> first_fit size es = Some (start, es') -> x ∈ es -> usable x ->
  exists y, y ∈ es' /\ usable y /\ ent_length x - size <= ent_length y.
Proof.
  intros Hok Hs. revert es' Hok. induction es as [|e es IH]; intros es' Hok Hff Hx Hu; [set_solver|].
  pose proof Hok as (He & _ & Hrest). simpl in Hff.
  destruct ((ent_type e =? LIMINE_MEMMAP_USABLE) && (ent_length e >=? size)) eqn:Hc.
  - simplify_eq. apply andb_true_iff in Hc as [_ Hle]. apply Z.geb_le in Hle.
    destruct (cut_front e size He) as (_ & _ & E2); [lia|].
    apply elem_of_cons in Hx as [-> | Hx].
    + eexists. split; [left|]. split; [done|]. simpl. lia.
    + exists x. split; [by right|]. split; [done|lia].
  - destruct (first_fit size es) as [[start0 es0]|] eqn:Hf; simplify_eq/=.
    apply elem_of_cons in Hx as [-> | Hx].
    + exists e. split; [left|]. split; [done|lia].
    + destruct (IH es0 Hrest eq_refl Hx Hu) as (y & Hy & ? & ?). exists y. split; [by right|done].
Qed.

Lemma align_cut e :
  ent_ok e -> (PAGE_SIZE | ent_end e) ->
  let cut := ALIGN_UP (ent_start e) PAGE_SIZE -! ent_start e in
  0 <= cut <= ent_length e /\ (PAGE_SIZE | ent_start e + cut) /\
  forall a, ent_start e + cut <= a < ent_end e <-> ent_start e <= PAGE_SIZE * (a / PAGE_SIZE) < ent_end e.
Proof.
  intros (? & ? & ?) Hend.
  destruct (ALIGN_UP_bounds (ent_start e) 12) as [Hb Hd]; [lia|lia|unfold ent_end in *; lia|].
  change (2 ^ 12) with PAGE_SIZE in *. cbn zeta. rewrite u64_small by (unfold PAGE_SIZE in *; lia).
  set (up := ALIGN_UP (ent_start e) PAGE_SIZE) in *.
  destruct Hd as [q Hq], Hend as [r Hr]. unfold ent_end, PAGE_SIZE in *.
  split; [lia|]. split; [exists q; lia|]. intros a.
  pose proof (Z.div_mod a 0x1000). pose proof (Z.mod_pos_bound a 0x1000). lia.
Qed.

(** The exit loop keeps a byte exactly when its page was still available from
    its first byte on. *)
Lemma align_entries_spec es bytes :
  map_ok es -> ends_aligned es -> 0 <= bytes -> bytes + usable_bytes es < 2 ^ 64 ->
  let '(es', bytes') := align_entries es bytes in
  Forall2 shrink es es' /\ Forall (fun e => usable e -> (PAGE_SIZE | ent_start e)) es' /\
  usable_bytes es' + bytes' = usable_bytes es + bytes /\ bytes <= bytes' /\
  forall a, avail es' a <-> avail es (PAGE_SIZE * (a / PAGE_SIZE)).
Proof.
  revert bytes. induction es as [|e es IH]; intros bytes Hok Hends Hb Hlt; simpl.
  { split; [done|]. split; [done|]. split; [done|]. split; [done|]. unfold avail. set_solver. }
  pose proof Hok as (He & _ & Hrest). apply Forall_cons in Hends as [Hend Hends].
  pose proof (usable_bytes_nonneg _ Hrest) as Hnn. simpl in Hlt.
  destruct (ent_type e =? LIMINE_MEMMAP_USABLE) eqn:Hu.
  - pose proof Hu as Hu'. apply usable_eqb in Hu'. specialize (Hend Hu').
    destruct (align_cut e He Hend) as (Hcut & Hal & Hpage). cbn zeta in *.
    set (cut := ALIGN_UP (ent_start e) PAGE_SIZE -! ent_start e) in *.
    destruct (cut_front e cut He Hcut) as (Hsh & E1 & E2).
    assert (bytes +! cut = bytes + cut) as E3 by (apply u64_small; lia).
    specialize (IH (bytes +! cut) Hrest Hends). rewrite E3 in *.
    destruct (align_entries es (bytes + cut)) as [es' bytes'].
    destruct IH as (IH1 & IH2 & IH3 & IH4 & IH5); [lia|lia|].
    split; [by constructor|]. split; [constructor; [|done]; intros; simpl; by rewrite E1|].
    split; [simpl; rewrite Hu, E2; lia|]. split; [lia|]. intros a.
    rewrite !avail_cons, IH5, <- Hpage. destruct Hsh as (_ & _ & _ & ->). simpl. by rewrite E1.
  - specialize (IH bytes Hrest Hends). destruct (align_entries es bytes) as [es' bytes'].
    destruct IH as (IH1 & IH2 & IH3 & IH4 & IH5); [lia|lia|].
    assert (~ usable e) as Hnu by (intros Hx%usable_eqb; congruence).
    split; [constructor; [by apply shrink_refl | done]|].
    split; [by constructor|]. split; [simpl; rewrite Hu; lia|]. split; [lia|].
    intros a. rewrite !avail_cons, IH5. naive_solver.
Qed.

(** ** The allocator's invariant *)

(** The byte ranges handed out: the copy of the map, then every allocation. *)
Definition held (cpy : early_mem_alloc_mapping) (e : em) : list early_mem_alloc_mapping :=
  cpy :: take (Z.to_nat (em_allocations e)) (em_mappings e).

Definition region (m : early_mem_alloc_mapping) (a : Z) : Prop :=
  map_start m <= a < map_start m + map_length m.

Definition exclusive (ms : list early_mem_alloc_mapping) : Prop :=
  forall i j m m' a, ms !! i = Some m -> ms !! j = Some m' -> region m a -> region m' a -> i = j.

(** [boot] is the loader's map, [cpy] the range of the copy: the copy is a map
    of what is left, the ranges handed out are usable memory, do not overlap
    and are not available any more, and every usable byte is accounted for. *)
Record em_inv (boot : list memmap_entry) (cpy : early_mem_alloc_mapping) (e : em) : Prop := {
  inv_init : em_is_initialized e = true;
  inv_shrink : Forall2 shrink boot (em_memmap e);
  inv_map : map_ok (em_memmap e);
  inv_ends : ends_aligned (em_memmap e);
  inv_boot : forall a, avail (em_memmap e) a -> avail boot a;
  inv_bytes : 0 <= em_bytes_allocated e;
  inv_total : usable_bytes (em_memmap e) + em_bytes_allocated e = usable_bytes boot;
  inv_fits : usable_bytes boot < 2 ^ 64;
  inv_array : Z.of_nat (length (em_mappings e)) = early_mem_max_allocations;
  inv_allocs : 0 <= em_allocations e <= early_mem_max_allocations;
  inv_held : forall m a, m ∈ held cpy e -> region m a -> avail boot a /\ ~ avail (em_memmap e) a;
  inv_excl : exclusive (held cpy e)
}.

Lemma max_allocations : early_mem_max_allocations = 256.
Proof. reflexivity. Qed.

Lemma exclusive_snoc ms m :
  exclusive ms -> (forall m' a, m' ∈ ms -> region m a -> ~ region m' a) -> exclusive (ms ++ [m]).
Proof.
  intros Hex Hnew i j x y a.
  rewrite !lookup_snoc_Some. intros [[? Hi]|[-> ->]] [[? Hj]|[-> ->]] Hx Hy; eauto.
  - exfalso. eapply Hnew; eauto using list_elem_of_lookup_2.
  - exfalso. eapply Hnew; eauto using list_elem_of_lookup_2.
Qed.

Lemma held_alloc cpy e m :
  0 <= em_allocations e < Z.of_nat (length (em_mappings e)) ->
  forall e', em_mappings e' = <[Z.to_nat (em_allocations e) := m]> (em_mappings e) ->
  em_allocations e' = em_allocations e + 1 -> held cpy e' = held cpy e ++ [m].
Proof.
  intros Hn e' Hm Ha. unfold held. rewrite Hm, Ha, Z2Nat.inj_add by lia.
  rewrite Nat.add_1_r. erewrite take_S_r; [|apply list_lookup_insert_eq; lia].
  by rewrite take_insert_ge by lia.
Qed.

(** Some usable entry still has [n] bytes. *)
Definition room (n : Z) (e : em) : Prop :=
  exists x, x ∈ em_memmap e /\ usable x /\ n <= ent_length x.

(** What one allocation does. *)
Lemma early_mem_alloc_spec boot cpy e size :
  em_inv boot cpy e -> 0 <= size -> em_allocations e < early_mem_max_allocations ->
  room size e ->
  returns (early_mem_alloc size e) (fun '(p, e') =>
    exists start, p = start +! em_hhdm_offset e /\ em_inv boot cpy e' /\
      held cpy e' = held cpy e ++ [mk_mapping start size] /\
      (forall n, room (size + n) e -> room n e') /\
      em_total_pages e' = em_total_pages e /\
      em_total_pages_usable e' = em_total_pages_usable e /\
      em_hhdm_offset e' = em_hhdm_offset e /\
      em_allocations e' = em_allocations e + 1 /\
      forall a, (start <= a < start + size -> avail (em_memmap e) a) /\
           (avail (em_memmap e') a <-> avail (em_memmap e) a /\ ~ (start <= a < start + size))).
Proof.
  intros [] Hs Hn (x & Hx & Hux & Hxl). unfold early_mem_alloc. rewrite inv_init0. simpl.
  destruct (Z.gtb_spec (em_allocations e) early_mem_max_allocations); [lia|].
  pose proof (first_fit_spec size _ inv_map0 Hs) as Hff.
  destruct (first_fit size (em_memmap e)) as [[start memmap]|] eqn:Hfit; [|specialize (Hff x Hx Hux); lia].
  assert (forall n, room (size + n) e ->
      exists x, x ∈ memmap /\ usable x /\ n <= ent_length x) as Hroom.
  { intros n (w & Hw & Huw & Hwl).
    destruct (first_fit_keeps _ _ _ _ w inv_map0 Hs Hfit Hw Huw) as (v & Hv & Huv & Hvl).
    exists v. split; [done|]. split; [done|lia]. }
  destruct Hff as (Hsh & (y & Hy & Huy & Hst & Hlen) & Hav & Hby).
  assert (forall a, start <= a < start + size -> avail (em_memmap e) a) as Hin.
  { intros a Ha. exists y. unfold ent_end. split; [done|]. split; [done|lia]. }
  destruct (Z.ltb_spec (em_allocations e) (Z.of_nat (length (em_mappings e)))); [|lia]. simpl.
  pose proof (usable_bytes_nonneg _ (shrink_map_ok _ _ Hsh inv_map0)). pose proof max_allocations.
  exists start. split; [done|].
  assert (em_allocations e +! 1 = em_allocations e + 1) as Hnext by (apply u64_small; lia).
  set (e' := mk_em memmap _ _ _ _ _ _ _).
  assert (held cpy e' = held cpy e ++ [mk_mapping start size]) as Hheld.
  { apply held_alloc; [lia | done | exact Hnext]. }
  split; [|split; [done|]; repeat split; naive_solver].
  split; rewrite ?Hheld; try done.
  - by etrans.
  - by eapply shrink_map_ok.
  - by eapply shrink_ends.
  - intros a Ha%Hav. naive_solver.
  - apply u64_range.
  - simpl. rewrite u64_small by lia. lia.
  - simpl. by rewrite length_insert.
  - simpl. lia.
  - intros m a [Hm | ->%list_elem_of_singleton]%elem_of_app Hr.
    + destruct (inv_held0 m a Hm Hr). simpl. rewrite Hav. naive_solver.
    + unfold region in Hr. simpl in Hr. simpl. rewrite Hav. naive_solver.
  - apply exclusive_snoc; [done|]. intros m a Hm Hr Hr'.
    destruct (inv_held0 m a Hm Hr') as [_ []]. apply Hin. exact Hr.
Qed.

(** ** Initialisation *)

Definition boot_entry (l : limine_memmap_entry) : memmap_entry :=
  mk_entry (lm_base l) (lm_length l) (lm_type l).
Definition boot_map (entries : list limine_memmap_entry) : list memmap_entry :=
  boot_entry <$> entries.

Lemma find_memmap_first_fit space entries :
  find_memmap space entries = fst <$> first_fit space (boot_map entries).
Proof.
  induction entries as [|ent es IH]; simpl; [done|].
  destruct ((lm_type ent =? _) && _); [done|]. rewrite IH.
  by destruct (first_fit space (boot_map es)) as [[? ?]|].
Qed.

Lemma first_fit_base space entries base es' :
  first_fit space (boot_map entries) = Some (base, es') -> base ∈ lm_base <$> entries.
Proof.
  revert base es'. induction entries as [|ent es IH]; intros base es'; simpl; [done|].
  destruct ((lm_type ent =? _) && _); [intros; simplify_eq; left|].
  destruct (first_fit space (boot_map es)) as [[? ?]|]; intros; simplify_eq/=.
  right. eapply IH. done.
Qed.

Lemma offset_inj b b' offset :
  0 <= b <= 2 ^ 52 -> 0 <= b' <= 2 ^ 52 -> b +! offset = b' +! offset -> b = b'.
Proof.
  unfold u64. intros ? ? Heq.
  assert ((b - b') mod 2 ^ 64 = 0) as Hm.
  { replace (b - b') with (b + offset - (b' + offset)) by lia.
    rewrite Zminus_mod, Heq, Z.sub_diag. done. }
  apply Z.mod_divide in Hm as [q Hq]; [|lia]. lia.
Qed.

Fixpoint boot_high (es : list limine_memmap_entry) (high : Z) : Z :=
  match es with
  | [] => high
  | ent :: es => boot_high es (MAX high (lm_base ent +! lm_length ent))
  end.

(** Entries that do not start at the copy's address are copied unchanged, and
    the statistics are those of the loader's map. *)
Lemma copy_memmap_other memmap offset space es high bytes :
  (forall b, b ∈ lm_base <$> es -> memmap <> b +! offset) ->
  map_ok (boot_map es) -> 0 <= bytes -> bytes + usable_bytes (boot_map es) < 2 ^ 64 ->
  copy_memmap memmap offset space es high bytes =
    (boot_map es, boot_high es high, bytes + usable_bytes (boot_map es)).
Proof.
  revert high bytes. induction es as [|ent es IH]; intros high bytes Hne Hok Hb Hlt; simpl.
  { f_equal. lia. }
  destruct Hok as ((? & ? & ?) & _ & Hok). pose proof (usable_bytes_nonneg _ Hok). simpl in *.
  rewrite (proj2 (Z.eqb_neq memmap (lm_base ent +! offset))) by (apply Hne; left).
  revert Hlt. destruct (lm_type ent =? LIMINE_MEMMAP_USABLE); intros Hlt;
    (rewrite IH; [|intros; apply Hne; by right|done|try apply u64_range; lia|];
     rewrite ?(u64_small (bytes + _)) by lia; [f_equal; lia | lia]).
Qed.

(** The copy loop cuts the copy's own bytes out of the entry that holds it. *)
Lemma copy_memmap_first_fit space offset entries base es' high bytes :
  map_ok (boot_map entries) -> NoDup (lm_base <$> entries) ->
  first_fit space (boot_map entries) = Some (base, es') ->
  0 <= bytes -> bytes + usable_bytes (boot_map entries) < 2 ^ 64 ->
  copy_memmap (base +! offset) offset space entries high bytes =
    (es', boot_high entries high, bytes + usable_bytes (boot_map entries)).
Proof.
  revert es' high bytes.
  induction entries as [|ent es IH]; intros es' high bytes Hok Hnd Hff Hb Hlt; [done|].
  apply NoDup_cons in Hnd as [Hnew Hnd]. pose proof Hok as ((? & ? & Hend) & _ & Hok').
  pose proof (usable_bytes_nonneg _ Hok'). unfold ent_end in Hend. simpl in *.
  assert (forall b, b ∈ lm_base <$> es -> 0 <= b <= 2 ^ 52) as Hrange.
  { intros b (l & -> & Hl)%list_elem_of_fmap.
    assert (ent_ok (boot_entry l)) as (? & ? & ?) by
      (eapply map_ok_ent; [exact Hok' | by apply list_elem_of_fmap_2]).
    unfold ent_end in *. simpl in *. lia. }
  destruct ((lm_type ent =? LIMINE_MEMMAP_USABLE) && (lm_length ent >=? space)) eqn:Hc.
  - simplify_eq. rewrite Z.eqb_refl. apply andb_true_iff in Hc as [Hu _]. rewrite Hu in *.
    rewrite copy_memmap_other; [|..|done|apply u64_range|]; rewrite ?(u64_small (bytes + _)) by lia.
    + f_equal. lia.
    + intros b Hin Heq. apply offset_inj in Heq; [|lia|auto]. by subst.
    + lia.
  - destruct (first_fit space (boot_map es)) as [[base0 es0]|] eqn:Hff'; [|done]. simplify_eq/=.
    pose proof (first_fit_base _ _ _ _ Hff') as Hin.
    assert (base +! offset <> lm_base ent +! offset) as Hne.
    { intros Heq. apply offset_inj in Heq; [|auto|lia]. by subst. }
    rewrite (proj2 (Z.eqb_neq _ _) Hne).
    revert Hlt. destruct (lm_type ent =? LIMINE_MEMMAP_USABLE); intros Hlt;
      (erewrite IH; [|done|done|done|try apply u64_range; lia|];
       rewrite ?(u64_small (bytes + _)) by lia; [f_equal; lia | lia]).
Qed.

Lemma boot_high_ge es high :
  map_ok (boot_map es) -> 0 <= high <= 2 ^ 52 ->
  high <= boot_high es high <= 2 ^ 52 /\
  forall e, e ∈ boot_map es -> ent_end e <= boot_high es high.
Proof.
  revert high. induction es as [|ent es IH]; intros high Hok Hh; simpl; [set_solver by lia|].
  destruct Hok as ((? & ? & Hend) & _ & Hok). unfold ent_end in Hend. simpl in *.
  rewrite MAX_max, u64_small by lia.
  destruct (IH (Z.max high (lm_base ent + lm_length ent)) Hok) as [? Hall]; [lia|].
  split; [lia|]. intros e [-> | ?]%elem_of_cons; [unfold ent_end; simpl; lia | auto].
Qed.

(** The loader's map as the boot protocol promises it: in range, usable
    entries page aligned and disjoint, no two entries with the same base. *)
Definition boot_ok (entries : list limine_memmap_entry) : Prop :=
  map_ok (boot_map entries) /\ ends_aligned (boot_map entries) /\
  Forall (fun e => usable e -> (PAGE_SIZE | ent_start e)) (boot_map entries) /\
  NoDup (lm_base <$> entries) /\ usable_bytes (boot_map entries) < 2 ^ 64 /\
  Z.of_nat (length entries) * sizeof_memmap_entry < 2 ^ 64.

Definition boot_total (entries : list limine_memmap_entry) : Z := boot_high entries 0 / PAGE_SIZE.

Lemma boot_total_range entries : boot_ok entries -> 0 <= boot_total entries <= 2 ^ 40.
Proof.
  intros (Hok & _). destruct (boot_high_ge entries 0 Hok) as [? _]; [lia|].
  unfold boot_total, PAGE_SIZE. split; [apply Z.div_pos; lia|].
  apply Z.div_le_upper_bound; lia.
Qed.

(** The state just before [early_mem_init] allocates the page array. *)
Lemma copied_inv entries base memmap offset total upages :
  boot_ok entries -> 0 <= Z.of_nat (length entries) * sizeof_memmap_entry ->
  first_fit (Z.of_nat (length entries) * sizeof_memmap_entry) (boot_map entries) = Some (base, memmap) ->
  em_inv (boot_map entries) (mk_mapping base (Z.of_nat (length entries) * sizeof_memmap_entry))
    (mk_em memmap no_mappings 0
       total upages (Z.of_nat (length entries) * sizeof_memmap_entry) true offset) /\
  Forall2 shrink (boot_map entries) memmap.
Proof.
  set (space := Z.of_nat (length entries) * sizeof_memmap_entry).
  intros (Hok & Hends & _ & _ & Hlt & _) Hs Hff.
  pose proof (first_fit_spec space _ Hok Hs) as Hspec. rewrite Hff in Hspec.
  destruct Hspec as (Hsh & (x & Hx & Hux & Hst & Hlen) & Hav & Hby).
  split; [|done]. split; simpl; try done.
  - by eapply shrink_map_ok.
  - by eapply shrink_ends.
  - intros a Ha%Hav. naive_solver.
  - unfold held. simpl. intros m a ->%list_elem_of_singleton Hr. unfold region in Hr. simpl in Hr.
    split; [exists x; unfold ent_end; split; [done|]; split; [done|lia]|].
    rewrite Hav. lia.
  - unfold held, exclusive. simpl. intros [|i] [|j] m m' a; simpl; rewrite ?lookup_nil; done.
Qed.

Lemma early_mem_init_spec entries offset n :
  boot_ok entries ->
  0 <= n ->
  (exists x, x ∈ boot_map entries /\ usable x /\
     Z.of_nat (length entries) * sizeof_memmap_entry + boot_total entries * sizeof_page + n <= ent_length x) ->
  returns (early_mem_init (Some entries) (Some offset)) (fun '(total, pages, e) =>
    total = boot_total entries /\ em_total_pages e = total /\
    em_total_pages_usable e = usable_bytes (boot_map entries) / PAGE_SIZE /\
    em_allocations e = 1 /\ em_hhdm_offset e = offset /\ room n e /\
    exists cpy start,
      map_length cpy = Z.of_nat (length entries) * sizeof_memmap_entry /\
      pages = start +! offset /\
      held cpy e = [cpy; mk_mapping start (total * sizeof_page)] /\
      em_inv (boot_map entries) cpy e).
Proof.
  intros Hboot Hn0 (x & Hx & Hux & Hlen). pose proof Hboot as (Hok & _ & _ & Hnd & Hlt & Hsp).
  pose proof (boot_total_range _ Hboot) as Ht.
  unfold early_mem_init. rewrite u64_small by (unfold sizeof_memmap_entry in *; lia).
  set (space := Z.of_nat (length entries) * sizeof_memmap_entry) in *.
  assert (0 <= space) as Hs by (unfold space, sizeof_memmap_entry; lia).
  rewrite find_memmap_first_fit. pose proof (first_fit_spec space _ Hok Hs) as Hff.
  destruct (first_fit space (boot_map entries)) as [[base memmap]|] eqn:Hfind; simpl;
    [clear Hff | specialize (Hff x Hx Hux); unfold sizeof_page in *; lia].
  rewrite (copy_memmap_first_fit _ _ _ _ _ _ _ Hok Hnd Hfind) by lia.
  fold (boot_total entries). rewrite u64_small by (unfold sizeof_page; lia).
  destruct (copied_inv entries base memmap offset (boot_total entries)
    ((0 + usable_bytes (boot_map entries)) / PAGE_SIZE) Hboot Hs Hfind) as [Hinv Hsh].
  destruct (first_fit_keeps _ _ _ _ x Hok Hs Hfind Hx Hux) as (y & Hy & Huy & Hl).
  mstep. eapply returns_mono; [eapply (early_mem_alloc_spec _ _ _ _ Hinv)|].
  - unfold sizeof_page. lia.
  - simpl. by rewrite max_allocations.
  - exists y. split; [done|]. split; [done|lia].
  - simpl. intros [p e'] (start & -> & Hinv' & Hheld & Hroom & H1 & H2 & H3 & H4 & _). simpl.
    rewrite H1, H2, H3, H4. do 5 (split; [done|]).
    split; [apply Hroom; exists y; split; [done|]; split; [done|lia]|]. eexists _, start. split; [|split; [done|split; [exact Hheld|exact Hinv']]].
    done.
Qed.

(** ** Leaving the early phase *)

(** With aligned ends, a page available at its first byte is available. *)
Lemma avail_page es a : ends_aligned es -> avail es (PAGE_SIZE * (a / PAGE_SIZE)) -> avail es a.
Proof.
  intros Hends (e & He & Hu & Hst & Hlt). exists e. split; [done|]. split; [done|].
  unfold ends_aligned in Hends. rewrite Forall_forall in Hends.
  destruct (Hends e He Hu) as [q Hq]. unfold PAGE_SIZE in *.
  pose proof (Z.div_mod a 0x1000). pose proof (Z.mod_pos_bound a 0x1000). lia.
Qed.

Lemma tst_page_mask x : 0 <= x -> (PAGE_SIZE | x) -> tst x (PAGE_SIZE -! 1) = false.
Proof.
  intros Hx Hd. unfold tst. change (PAGE_SIZE -! 1) with (Z.ones 12).
  rewrite Z.land_ones by lia. change (2 ^ 12) with PAGE_SIZE.
  apply Z.mod_divide in Hd as ->; [done | unfold PAGE_SIZE; lia].
Qed.

Lemma early_mem_exit_spec boot cpy e :
  em_inv boot cpy e -> (PAGE_SIZE | usable_bytes boot) ->
  returns (early_mem_exit e) (fun '(bytes, e') =>
    em_inv boot cpy e' /\ held cpy e' = held cpy e /\
    bytes = em_bytes_allocated e' /\ (PAGE_SIZE | bytes) /\ em_total_pages e' = em_total_pages e /\
    em_total_pages_usable e' = em_total_pages_usable e -! bytes / PAGE_SIZE /\
    Forall (fun x => usable x -> (PAGE_SIZE | ent_start x)) (em_memmap e') /\
    forall a, avail (em_memmap e') a <-> avail (em_memmap e) (PAGE_SIZE * (a / PAGE_SIZE))).
Proof.
  intros [] Hdiv. unfold early_mem_exit. rewrite inv_init0. simpl.
  pose proof (align_entries_spec (em_memmap e) (em_bytes_allocated e) inv_map0 inv_ends0 inv_bytes0) as Ha.
  destruct (align_entries (em_memmap e) (em_bytes_allocated e)) as [memmap bytes].
  destruct Ha as (Hsh & Hal & Hsum & Hle & Hav); [lia|].
  assert (PAGE_SIZE | bytes) as Hb.
  { pose proof (usable_bytes_aligned _ Hal (shrink_ends _ _ Hsh inv_ends0)).
    replace bytes with (usable_bytes boot - usable_bytes memmap) by lia. by apply Z.divide_sub_r. }
  assert (forall a, avail memmap a -> avail (em_memmap e) a) as Hsub.
  { intros a ?%Hav. by apply avail_page. }
  rewrite tst_page_mask by (done || lia). simpl. split; [|done].
  split; simpl; try done.
  - by etrans.
  - by eapply shrink_map_ok.
  - by eapply shrink_ends.
  - auto.
  - lia.
  - lia.
  - intros m a Hm Hr. destruct (inv_held0 m a Hm Hr). auto.
Qed.

Lemma early_mem_statistics_ret boot cpy e :
  em_inv boot cpy e ->
  early_mem_statistics e =
    Ret (em_total_pages_usable e, em_total_pages_usable e -! em_bytes_allocated e / PAGE_SIZE).
Proof. intros []. unfold early_mem_statistics. by rewrite inv_init0. Qed.

(** C7: an early allocation hands out exactly [size] bytes that were usable
    and available, makes exactly those unavailable, and keeps the invariant:
    no two ranges handed out (the copy of the memory map included) overlap,
    and the bytes left plus the bytes handed out are the loader's total. *)
Theorem early_mem_alloc_exclusive boot cpy e size :
  em_inv boot cpy e -> 0 <= size -> em_allocations e < early_mem_max_allocations -> room size e ->
  returns (early_mem_alloc size e) (fun '(p, e') =>
    exists start, p = start +! em_hhdm_offset e /\ em_inv boot cpy e' /\
      held cpy e' = held cpy e ++ [mk_mapping start size] /\
      forall a, (start <= a < start + size -> avail (em_memmap e) a) /\
           (avail (em_memmap e') a <-> avail (em_memmap e) a /\ ~ (start <= a < start + size))).
Proof.
  intros Hinv Hs Hn Hfit. eapply returns_mono; [by eapply early_mem_alloc_spec|].
  intros [p e'] (start & ? & ? & ? & _ & _ & _ & _ & _ & ?). eauto.
Qed.

(** [early_mem_exit] never reports a corrupted map: it keeps the pages
    that are available from their first byte on, all regions it leaves start
    on a page boundary, and the invariant still holds. *)
Theorem early_mem_exit_aligned boot cpy e :
  em_inv boot cpy e -> (PAGE_SIZE | usable_bytes boot) ->
  returns (early_mem_exit e) (fun '(bytes, e') =>
    em_inv boot cpy e' /\ held cpy e' = held cpy e /\
    usable_bytes (em_memmap e') + bytes = usable_bytes boot /\
    Forall (fun x => usable x -> (PAGE_SIZE | ent_start x)) (em_memmap e') /\
    forall a, avail (em_memmap e') a <-> avail (em_memmap e) (PAGE_SIZE * (a / PAGE_SIZE))).
Proof.
  intros Hinv Hd. eapply returns_mono; [by eapply early_mem_exit_spec|].
  intros [b e'] (Hinv' & ? & -> & _ & _ & _ & ? & ?). pose proof (inv_total _ _ _ Hinv'). auto.
Qed.

(** after [early_mem_exit] the statistics count the pages still available
    as usable, but report as free only that number minus the pages handed out
    before, which [early_mem_exit] has already subtracted. *)
Theorem early_mem_free_undercounted boot cpy e :
  em_inv boot cpy e -> (PAGE_SIZE | usable_bytes boot) ->
  em_total_pages_usable e = usable_bytes boot / PAGE_SIZE ->
  returns ('(bytes, e') ← early_mem_exit e; st ← early_mem_statistics e'; Ret (bytes, e', st))
    (fun '(bytes, e', (usable, free)) =>
       usable = usable_bytes (em_memmap e') / PAGE_SIZE /\
       free = usable -! bytes / PAGE_SIZE).
Proof.
  intros Hinv Hd Hu. mcall (early_mem_exit_spec _ _ _ Hinv Hd).
  intros [b e'] (Hinv' & _ & -> & [q Hq] & _ & Hpu & _ & _).
  rewrite (early_mem_statistics_ret _ _ _ Hinv'). simpl. rewrite Hpu, Hu.
  split; [|done]. pose proof (inv_total _ _ _ Hinv') as Ht. pose proof (inv_fits _ _ _ Hinv').
  pose proof (usable_bytes_nonneg _ (inv_map _ _ _ Hinv')). pose proof (inv_bytes _ _ _ Hinv').
  destruct Hd as [r Hr]. rewrite Hq in *. rewrite Hr in *. unfold PAGE_SIZE in *.
  rewrite !Z.div_mul by lia.
  replace (usable_bytes (em_memmap e')) with ((r - q) * 0x1000) by lia. rewrite Z.div_mul by lia.
  apply u64_small. lia.
Qed.

End EarlyMem.

(** ** A small machine: one reserved page, one megabyte of usable memory *)

Module Sample.

Definition limine : Limine := Build_Limine 0 7 5.
#[local] Existing Instance limine.

Definition entries : list limine_memmap_entry :=
  [mk_limine 0 0x1000 1; mk_limine 0x1000 0x100000 0].

Definition state : em :=
  mk_em [mk_entry 0 0x1000 1; mk_entry 0x1030 0xFFFD0 0] no_mappings 0 0x101 0x100 48 true 0.

Lemma entries_ok : boot_ok entries.
Proof.
  split; [|split; [|split; [|split; [|split]]]].
  - simpl. unfold ent_ok, ent_end, usable. simpl.
    split; [lia|]. split; [by repeat constructor|]. split; [lia|]. by split.
  - repeat constructor; unfold usable; simpl; intros; [done | by exists 0x101].
  - repeat constructor; unfold usable; simpl; intros; [done | by exists 1].
  - simpl. apply (bool_decide_unpack _). by vm_compute.
  - vm_compute. done.
  - vm_compute. done.
Qed.

Lemma state_inv : em_inv (boot_map entries) (mk_mapping 0x1000 48) state.
Proof. by apply (copied_inv entries 0x1000 _ 0 0x101 0x100 entries_ok). Qed.

Lemma early_mem_alloc_exclusive_witness :
  returns (early_mem_alloc 0x3030 state) (fun '(p, e') =>
    exists start, p = start +! 0 /\ em_inv (boot_map entries) (mk_mapping 0x1000 48) e' /\
      held (mk_mapping 0x1000 48) e' = [mk_mapping 0x1000 48; mk_mapping start 0x3030] /\
      forall a, (start <= a < start + 0x3030 -> avail (em_memmap state) a) /\
           (avail (em_memmap e') a <-> avail (em_memmap state) a /\ ~ (start <= a < start + 0x3030))).
Proof.
  apply (early_mem_alloc_exclusive _ _ _ 0x3030 state_inv); [done | done |].
  eexists. split; [right; left|]. done.
Defined.

Lemma early_mem_exit_aligned_witness :
  returns (early_mem_exit state) (fun '(bytes, e') =>
    em_inv (boot_map entries) (mk_mapping 0x1000 48) e' /\
    held (mk_mapping 0x1000 48) e' = held (mk_mapping 0x1000 48) state /\
    usable_bytes (em_memmap e') + bytes = usable_bytes (boot_map entries) /\
    Forall (fun x => usable x -> (PAGE_SIZE | ent_start x)) (em_memmap e') /\
    forall a, avail (em_memmap e') a <-> avail (em_memmap state) (PAGE_SIZE * (a / PAGE_SIZE))).
Proof. apply (early_mem_exit_aligned _ _ _ state_inv). by exists 0x100. Defined.

Lemma early_mem_free_undercounted_witness :
  returns ('(bytes, e') ← early_mem_exit state; st ← early_mem_statistics e'; Ret (bytes, e', st))
    (fun '(bytes, e', (usable, free)) =>
       usable = usable_bytes (em_memmap e') / PAGE_SIZE /\ free = usable -! bytes / PAGE_SIZE).
Proof.
  apply (early_mem_free_undercounted _ _ _ state_inv); [by exists 0x100 | done].
Defined.

(** One page went to the copy of the map: 255 pages remain, 254 are reported. *)
Lemma statistics_sample :
  ('(_, e') ← early_mem_exit state; early_mem_statistics e') = Ret (255, 254).
Proof. vm_compute. reflexivity. Qed.

End Sample.
End EarlyMem.
