(* ===== verification/Blocks.v ===== *)
(** * Sets of aligned blocks

    The mathematics behind the buddy allocator of kernel/src/mm/frame_alloc.c:
    a free block is a pair (order, first page); a set of them denotes the page
    frames they cover.  Blocks are aligned to their size, so two of them are
    nested or disjoint; two buddies make up a block of the next order; a set
    in which no two buddies are both present is determined by the frames it
    covers. *)

From stdpp Require Import gmap sets list_numbers.
From S2P Require Import Prelude.

Module Blocks.

Definition max_order : Z := 10.

Definition block (i k : Z) : gset Z := list_to_set (seqZ i (2 ^ k)).

Definition freepages (B : gset (Z * Z)) : gset Z := set_bind (fun '(k, i) => block i k) B.

(** The other half of the pair: [i ^ 2^k]. *)
Definition buddy (i k : Z) : Z := Z.lxor i (2 ^ k).

Record block_ok (n k i : Z) : Prop := {
  bk_order : 0 <= k <= max_order;
  bk_low : 0 <= i;
  bk_high : i + 2 ^ k <= n;
  bk_align : (2 ^ k | i)
}.

(** Blocks lie within [n] pages, are aligned, and cover a page at most once. *)
Record blocks_ok (n : Z) (B : gset (Z * Z)) : Prop := {
  blocks_each : forall k i, (k, i) ∈ B -> block_ok n k i;
  blocks_once : forall k i k' i' p, (k, i) ∈ B -> (k', i') ∈ B ->
    i <= p < i + 2 ^ k -> i' <= p < i' + 2 ^ k' -> k = k' /\ i = i'
}.

(** No two buddies below the top order are both free. *)
Definition coalesced (B : gset (Z * Z)) : Prop :=
  forall k i, (k, i) ∈ B -> k < max_order -> (k, buddy i k) ∉ B.

(** ** Blocks *)

Lemma elem_block p i k : p ∈ block i k <-> i <= p < i + 2 ^ k.
Proof. unfold block. rewrite elem_of_list_to_set, elem_of_seqZ. done. Qed.

Lemma elem_freepages p B :
  p ∈ freepages B <-> exists k i, (k, i) ∈ B /\ i <= p < i + 2 ^ k.
Proof.
  unfold freepages. rewrite elem_of_set_bind. split.
  - intros ([k i] & ? & Hp). exists k, i. by rewrite elem_block in Hp.
  - intros (k & i & ? & ?). exists (k, i). by rewrite elem_block.
Qed.

Lemma block_split i k : 0 <= k -> block i (k + 1) = block i k ∪ block (i + 2 ^ k) k.
Proof.
  intros. apply set_eq. intros p. rewrite elem_of_union, !elem_block.
  rewrite Z.pow_add_r by lia. pose proof (pow2_pos k). lia.
Qed.

Lemma size_block i k : 0 <= k -> Z.of_nat (size (block i k)) = 2 ^ k.
Proof.
  intros. unfold block. rewrite size_list_to_set by apply NoDup_seqZ.
  rewrite length_seqZ. pose proof (pow2_pos k). lia.
Qed.

Lemma block_nonempty i k : 0 <= k -> i ∈ block i k.
Proof. intros. rewrite elem_block. pose proof (pow2_pos k). lia. Qed.

Lemma block_mono i c k : 0 <= c <= k -> block i c ⊆ block i k.
Proof.
  intros ? p. rewrite !elem_block. assert (2 ^ c <= 2 ^ k) by (apply Z.pow_le_mono_r; lia). lia.
Qed.

(** Aligned blocks are nested or disjoint. *)
Lemma aligned_nested i k i' k' p :
  0 <= k <= k' -> (2 ^ k | i) -> (2 ^ k' | i') ->
  i <= p < i + 2 ^ k -> i' <= p < i' + 2 ^ k' -> i' <= i /\ i + 2 ^ k <= i' + 2 ^ k'.
Proof.
  intros Hk [q ->] [q' ->] Hp Hp'. rewrite (pow2_split k k') in * by lia.
  pose proof (pow2_pos k). set (w := 2 ^ (k' - k)) in *. set (u := 2 ^ k) in *.
  assert (q' * w <= q < q' * w + w) by nia. nia.
Qed.

(** ** Buddies *)

Lemma lxor_1 q : Z.lxor q 1 = if Z.even q then q + 1 else q - 1.
Proof.
  destruct q as [|[p|p|]|[p|p|]]; simpl; try done; try lia.
  by destruct p.
Qed.

Lemma buddy_spec i k :
  0 <= k -> (2 ^ k | i) -> buddy i k = if Z.even (i / 2 ^ k) then i + 2 ^ k else i - 2 ^ k.
Proof.
  intros Hk [q ->]. pose proof (pow2_pos k). unfold buddy. rewrite Z.div_mul by lia.
  rewrite <- (Z.shiftl_mul_pow2 q) by lia. rewrite <- (Z.shiftl_1_l k).
  rewrite <- Z.shiftl_lxor, lxor_1, !Z.shiftl_mul_pow2 by lia.
  destruct (Z.even q); lia.
Qed.

(** The first page of the pair [i] belongs to. *)
Definition pair_base (i k : Z) : Z := 2 ^ (k + 1) * (i / 2 ^ (k + 1)).

Lemma pair_cases i k :
  0 <= k -> (2 ^ k | i) ->
  (pair_base i k = i /\ buddy i k = i + 2 ^ k) \/
  (pair_base i k = i - 2 ^ k /\ buddy i k = i - 2 ^ k).
Proof.
  intros Hk Ha. rewrite buddy_spec by done. destruct Ha as [q ->]. unfold pair_base.
  pose proof (pow2_pos k). rewrite Z.div_mul, Z.pow_add_r by lia. change (2 ^ 1) with 2.
  rewrite (Z.mul_comm q), Z.div_mul_cancel_l by lia.
  pose proof (Z.div_mod q 2). rewrite Zmod_even in *. destruct (Z.even q); nia.
Qed.

Lemma buddy_facts i k :
  0 <= k -> (2 ^ k | i) ->
  (2 ^ k | buddy i k) /\ buddy i k <> i /\ Z.min i (buddy i k) = pair_base i k /\
  pair_base (buddy i k) k = pair_base i k /\ (2 ^ (k + 1) | pair_base i k).
Proof.
  intros Hk Ha. pose proof (pow2_pos k) as Hp.
  assert ((2 ^ k | buddy i k)) as Hb.
  { rewrite buddy_spec by done. destruct (Z.even _);
      [apply Z.divide_add_r | apply Z.divide_sub_r]; auto; apply Z.divide_refl. }
  assert (2 ^ (k + 1) | pair_base i k) as Hpb by apply Z.divide_factor_l.
  assert (pair_base (buddy i k) k = pair_base i k) as Hsame.
  { unfold buddy, pair_base. f_equal. rewrite <- !Z.shiftr_div_pow2 by lia.
    rewrite Z.shiftr_lxor, <- (Z.shiftl_1_l k). rewrite Z.shiftr_shiftl_r by lia.
    replace (k + 1 - k) with 1 by lia. change (Z.shiftr 1 1) with 0. apply Z.lxor_0_r. }
  destruct (pair_cases i k) as [[? ?]|[? ?]]; try done;
    (split; [done|]; split; [lia|]; split; [lia|]; done).
Qed.

(** The buddy of the first half is the second half. *)
Lemma buddy_even i k : 0 <= k -> (2 ^ (k + 1) | i) -> buddy i k = i + 2 ^ k.
Proof.
  intros Hk Ha. assert (pair_base i k = i) as Hb.
  { destruct Ha as [q ->]. unfold pair_base. pose proof (pow2_pos (k + 1)).
    rewrite Z.div_mul by lia. lia. }
  pose proof (pow2_pos k). destruct (pair_cases i k) as [[? ?]|[? ?]]; try lia.
  etrans; [apply (pow2_divide k (k + 1)); lia | done].
Qed.

Lemma buddy_bounds i k :
  0 <= k -> 0 <= i -> (2 ^ k | i) -> 0 <= buddy i k < i + 2 ^ (k + 1).
Proof.
  intros Hk Hi Ha. pose proof (pow2_pos k). rewrite Z.pow_add_r by lia.
  pose proof (pow2_pos (k + 1)).
  assert (0 <= pair_base i k) by (apply Z.mul_nonneg_nonneg; [lia | apply Z.div_pos; lia]).
  destruct (pair_cases i k) as [[? ?]|[? ?]]; try done; lia.
Qed.

(** The two halves of a pair, from either of them. *)
Lemma block_pair i k :
  0 <= k -> (2 ^ k | i) -> block (pair_base i k) (k + 1) = block i k ∪ block (buddy i k) k.
Proof.
  intros Hk Ha. rewrite block_split by done.
  destruct (pair_cases i k) as [[-> ->]|[-> ->]]; try done.
  replace (i - 2 ^ k + 2 ^ k) with i by lia. set_solver.
Qed.

(** ** Adding and removing blocks *)

Lemma freepages_add B k i : freepages ({[(k, i)]} ∪ B) = block i k ∪ freepages B.
Proof.
  apply set_eq. intros p. rewrite elem_of_union, elem_block, !elem_freepages.
  set_unfold. naive_solver.
Qed.

Lemma freepages_empty : freepages ∅ = ∅.
Proof. apply set_eq. intros p. rewrite elem_freepages. set_solver. Qed.

Lemma blocks_ok_empty n : blocks_ok n ∅.
Proof. split; set_solver. Qed.

Lemma freepages_sub B k i : (k, i) ∈ B -> block i k ⊆ freepages B.
Proof. intros ? p. rewrite elem_block, elem_freepages. eauto. Qed.

Lemma freepages_del n B k i :
  blocks_ok n B -> (k, i) ∈ B -> freepages (B ∖ {[(k, i)]}) = freepages B ∖ block i k.
Proof.
  intros [_ Honce] Hin. apply set_eq. intros p.
  rewrite elem_of_difference, elem_block, !elem_freepages. split.
  - intros (k' & i' & Hin' & Hp). set_unfold. split; [naive_solver|]. intros Hp'.
    destruct Hin' as [Hin' Hne]. destruct (Honce k i k' i' p); try done. by subst.
  - intros [(k' & i' & Hin' & Hp) Hnp]. exists k', i'. set_unfold. naive_solver.
Qed.

Lemma blocks_ok_del n B x : blocks_ok n B -> blocks_ok n (B ∖ {[x]}).
Proof. intros [Heach Honce]. split; [|intros k i k' i' p]; set_solver. Qed.

Lemma blocks_ok_add n B k i :
  blocks_ok n B -> block_ok n k i -> block i k ## freepages B -> blocks_ok n ({[(k, i)]} ∪ B).
Proof.
  intros [Heach Honce] Hok Hdisj. split.
  - intros k' i' [Heq%elem_of_singleton | ?]%elem_of_union; [by simplify_eq | auto].
  - assert (forall k' i' p, (k', i') ∈ B -> i <= p < i + 2 ^ k -> i' <= p < i' + 2 ^ k' -> False) as Hno.
    { intros k' i' p Hin Hp Hp'. apply (Hdisj p); [by apply elem_block|].
      apply elem_freepages. eauto. }
    intros k1 i1 k2 i2 p [H1%elem_of_singleton | H1]%elem_of_union
      [H2%elem_of_singleton | H2]%elem_of_union Hp1 Hp2; simplify_eq; eauto.
    + exfalso. eauto.
    + exfalso. eauto.
Qed.

Lemma blocks_ok_notin n B k i :
  blocks_ok n B -> 0 <= k -> i ∉ freepages B -> (k, i) ∉ B.
Proof.
  intros Hok Hk Hi Hin. apply Hi, elem_freepages. exists k, i. pose proof (pow2_pos k). split; [done|lia].
Qed.

(** A free block of the same order that shares a page is the same block. *)
Lemma blocks_same n B k i i' p :
  blocks_ok n B -> (k, i') ∈ B -> (2 ^ k | i) -> 0 <= k ->
  i <= p < i + 2 ^ k -> i' <= p < i' + 2 ^ k -> (k, i) ∈ B.
Proof.
  intros Hok Hin Ha Hk Hp Hp'. destruct (blocks_each _ _ Hok _ _ Hin) as [_ _ _ Ha'].
  destruct (aligned_nested i k i' k p) as [? ?]; try done.
  assert (i = i') as -> by lia. done.
Qed.

(** ** Coalesced sets *)

(** Where all frames of an aligned block are free, one free block covers it. *)
Lemma coalesced_cover n B k i :
  blocks_ok n B -> coalesced B -> 0 <= k <= max_order -> (2 ^ k | i) -> block i k ⊆ freepages B ->
  exists k' i', k <= k' /\ (k', i') ∈ B /\ i' <= i /\ i + 2 ^ k <= i' + 2 ^ k'.
Proof.
  intros Hok Hco Hk. assert (0 <= k) as Hk0 by lia. revert Hk i. pattern k.
  apply natlike_ind; [| |exact Hk0]; clear k Hk0.
  - intros _ i _ Hfree.
    assert (i ∈ freepages B) as (k' & i' & Hin & Hp)%elem_freepages
      by (apply Hfree, block_nonempty; lia).
    destruct (blocks_each _ _ Hok _ _ Hin) as [? _ _ _].
    exists k', i'. change (2 ^ 0) with 1. repeat split; (done || lia).
  - intros j Hj0 IH Hk i Ha Hfree. rewrite <- Z.add_1_r in *.
    assert (2 ^ j | i) as Hj by (etrans; [apply (pow2_divide j (j + 1)); lia | done]).
    rewrite block_split in Hfree by lia. pose proof (pow2_pos j).
    assert (2 ^ (j + 1) = 2 * 2 ^ j) as E by (rewrite Z.pow_add_r; lia).
    destruct (IH ltac:(lia) i) as (k1 & i1 & Hk1 & Hin1 & Hc1); [done|set_solver|].
    destruct (IH ltac:(lia) (i + 2 ^ j)) as (k2 & i2 & Hk2 & Hin2 & Hc2);
      [by apply Z.divide_add_r|set_solver|].
    destruct (blocks_each _ _ Hok _ _ Hin1) as [? _ _ Ha1].
    destruct (blocks_each _ _ Hok _ _ Hin2) as [? _ _ Ha2].
    assert (forall k' i' p, j < k' -> (k', i') ∈ B -> i <= p < i + 2 ^ (j + 1) -> i' <= p < i' + 2 ^ k' ->
      exists k' i', j + 1 <= k' /\ (k', i') ∈ B /\ i' <= i /\ i + 2 ^ (j + 1) <= i' + 2 ^ k') as Hbig.
    { intros k' i' p Hk' Hin Hp Hp'. exists k', i'. split; [lia|]. split; [done|].
      destruct (blocks_each _ _ Hok _ _ Hin). eapply aligned_nested; eauto; lia. }
    destruct (decide (j < k1)); [eapply (Hbig k1 i1 i); eauto; lia|].
    destruct (decide (j < k2)); [eapply (Hbig k2 i2 (i + 2 ^ j)); eauto; lia|].
    assert (k1 = j) as -> by lia. assert (k2 = j) as -> by lia.
    assert (i1 = i) as -> by lia. assert (i2 = i + 2 ^ j) as -> by lia.
    destruct (Hco _ _ Hin1); [lia|]. by rewrite buddy_even.
Qed.

Lemma coalesced_incl n B B' :
  blocks_ok n B -> blocks_ok n B' -> coalesced B -> coalesced B' ->
  freepages B = freepages B' -> forall k i, (k, i) ∈ B -> (k, i) ∈ B'.
Proof.
  intros Hok Hok' Hco Hco' Heq k i Hin. pose proof (blocks_each _ _ Hok _ _ Hin) as [Hk _ _ Ha].
  pose proof (pow2_pos k).
  destruct (coalesced_cover n B' k i) as (k1 & i1 & Hle & Hin1 & Hc); try done.
  { rewrite <- Heq. by apply freepages_sub. }
  pose proof (blocks_each _ _ Hok' _ _ Hin1) as [Hk1 _ _ Ha1].
  destruct (coalesced_cover n B k1 i1) as (k2 & i2 & Hle2 & Hin2 & Hc2); try done.
  { rewrite Heq. by apply freepages_sub. }
  destruct (blocks_once _ _ Hok k i k2 i2 i) as [-> ->]; try done; [lia|lia|].
  assert (k1 = k2) as -> by lia. assert (i1 = i2) as -> by lia. done.
Qed.

(** The free frames determine the free blocks. *)
Lemma coalesced_unique n B B' :
  blocks_ok n B -> blocks_ok n B' -> coalesced B -> coalesced B' ->
  freepages B = freepages B' -> B = B'.
Proof.
  intros. apply set_eq. intros [k i]. split; [apply (coalesced_incl n B B') | apply (coalesced_incl n B' B)]; done.
Qed.

Lemma buddy_invol i k : buddy (buddy i k) k = i.
Proof. unfold buddy. by rewrite Z.lxor_assoc, Z.lxor_nilpotent, Z.lxor_0_r. Qed.

Lemma buddy_ne i k : 0 <= k -> buddy i k <> i.
Proof.
  intros Hk Heq. pose proof (pow2_pos k). unfold buddy in Heq.
  assert (Z.lxor i (Z.lxor i (2 ^ k)) = 0) as Hz by (rewrite Heq; apply Z.lxor_nilpotent).
  rewrite <- Z.lxor_assoc, Z.lxor_nilpotent, Z.lxor_0_l in Hz. lia.
Qed.

Lemma coalesced_sub B B' : B' ⊆ B -> coalesced B -> coalesced B'.
Proof. intros Hsub Hco k i Hin Hk Hin'. apply (Hco k i); auto. Qed.

Lemma coalesced_add B k i :
  0 <= k -> coalesced B -> (k < max_order -> (k, buddy i k) ∉ B) -> coalesced ({[(k, i)]} ∪ B).
Proof.
  intros Hk Hco Hnb k' i' Hin Hk' Hin'. pose proof (buddy_ne i k Hk).
  apply elem_of_union in Hin as [?%elem_of_singleton | Hin];
    apply elem_of_union in Hin' as [?%elem_of_singleton | Hin']; simplify_eq.
  - congruence.
  - by apply Hnb.
  - apply Hnb; [done|]. by rewrite buddy_invol.
  - by apply (Hco k' i').
Qed.

(** Two aligned positions have the same pair index iff equal or buddies. *)
Lemma same_pair k x i :
  0 <= k -> (2 ^ k | x) -> (2 ^ k | i) ->
  i / 2 ^ (k + 1) = x / 2 ^ (k + 1) <-> i = x \/ buddy i k = x.
Proof.
  intros Hk Hx Hi. pose proof (pow2_pos (k + 1)). pose proof (pow2_pos k). split.
  - intros Heq. assert (pair_base i k = pair_base x k) by (unfold pair_base; by rewrite Heq).
    destruct (pair_cases i k), (pair_cases x k); try done; lia.
  - intros [-> | <-]; [done|]. destruct (buddy_facts i k) as (_ & _ & _ & Hb & _); [done|done|].
    unfold pair_base in Hb. nia.
Qed.

(** The first part of a block is a block. *)
Lemma block_ok_prefix n k o a : block_ok n o a -> 0 <= k <= o -> block_ok n k a.
Proof.
  intros [] ?. assert (2 ^ k <= 2 ^ o) by (apply Z.pow_le_mono_r; lia).
  split; [lia|lia|lia|]. etrans; [apply (pow2_divide k o); lia | done].
Qed.

Lemma carve (F b c : gset Z) : c ⊆ b -> b ⊆ F -> F ∖ b ∪ b ∖ c = F ∖ c.
Proof.
  intros Hc Hb. apply set_eq. intros p. destruct (decide (p ∈ b)); set_solver.
Qed.

End Blocks.
