(* ===== verification/FrameAlloc.v ===== *)
(** * The frame allocator (kernel/src/mm/frame_alloc.c)

    The buddy allocator the kernel is configured with: per order a free list
    threaded through [struct page] and a bitmap with one bit per pair of
    buddies.  The state [mm] holds the page array, the counters, the lock and
    the zones; every operation runs on it access by access, including the lock
    and the interrupt flag.

    [inv st B] relates a state to the set [B] of free blocks (order, first
    page).  The theorems are stated on [freepages B], the set of free page
    frames: an allocation takes an aligned run of free frames out of it, a
    free puts one back, neither panics; with fully merged blocks an allocation
    fails only when no aligned run of free frames exists, and freeing what was
    allocated restores the very same free blocks. *)

From stdpp Require Import gmap sets.
From S2P Require Import Prelude Macros Locking Dll FrameHdr EarlyMem.

Module FrameAlloc.
Import Macros Locking FrameHdr EarlyMem.EarlyMem.

(** ** State *)

Record buddy_zone := mk_zone { z_bitmap : gmap Z Z; z_list : word }.

Record mm := mk_mm {
  mm_pages : gmap Z page;              (* pages[] *)
  mm_pages_count : Z;
  mm_total : Z;                        (* frame_allocator_total *)
  mm_usable : Z;
  mm_free : Z;
  mm_IF : bool;                        (* interrupt flag of this core *)
  mm_lock : k_spinlock_t;              (* buddy_allocator.this_lock *)
  mm_allocs : Z;                       (* allocation_count *)
  mm_deallocs : Z;
  mm_orders : gmap Z buddy_zone
}.

Definition set_pages (p : gmap Z page) (st : mm) : mm :=
  mk_mm p (mm_pages_count st) (mm_total st) (mm_usable st) (mm_free st) (mm_IF st) (mm_lock st)
        (mm_allocs st) (mm_deallocs st) (mm_orders st).
Definition set_orders (o : gmap Z buddy_zone) (st : mm) : mm :=
  mk_mm (mm_pages st) (mm_pages_count st) (mm_total st) (mm_usable st) (mm_free st) (mm_IF st)
        (mm_lock st) (mm_allocs st) (mm_deallocs st) o.
Definition set_lock (IF : bool) (l : k_spinlock_t) (st : mm) : mm :=
  mk_mm (mm_pages st) (mm_pages_count st) (mm_total st) (mm_usable st) (mm_free st) IF l
        (mm_allocs st) (mm_deallocs st) (mm_orders st).
Definition set_counts (usable free allocs deallocs : Z) (st : mm) : mm :=
  mk_mm (mm_pages st) (mm_pages_count st) (mm_total st) usable free (mm_IF st) (mm_lock st)
        allocs deallocs (mm_orders st).

Definition lock (st : mm) : outcome mm :=
  '(IF, l) ← Seq.spin_lock_global (mm_IF st) (mm_lock st); Ret (set_lock IF l st).
Definition unlock (st : mm) : mm :=
  let '(IF, l) := Seq.spin_unlock_global (mm_IF st) (mm_lock st) in set_lock IF l st.

Definition zone_at (order : Z) (st : mm) : outcome buddy_zone :=
  of_option "buddy_allocator.orders index out of bounds" (mm_orders st !! order).

(** ** Free lists and bitmaps *)

(** [_list_link(pg, &buddy_allocator.orders[order].list)] and its siblings. *)
Definition list_link_at (pg : word) (order : Z) (st : mm) : outcome mm :=
  z ← zone_at order st;
  '(head, pages) ← Dll.list_link pg (z_list z) (mm_pages st);
  Ret (set_orders (<[order := mk_zone (z_bitmap z) head]> (mm_orders st)) (set_pages pages st)).

Definition list_unlink_at (pg : word) (order : Z) (st : mm) : outcome mm :=
  z ← zone_at order st;
  '(head, pages) ← Dll.list_unlink pg (z_list z) (mm_pages st);
  Ret (set_orders (<[order := mk_zone (z_bitmap z) head]> (mm_orders st)) (set_pages pages st)).

Definition list_get_at (order : Z) (st : mm) : outcome (word * mm) :=
  z ← zone_at order st;
  '(pg, (head, pages)) ← Dll.list_get (z_list z) (mm_pages st);
  Ret (pg, set_orders (<[order := mk_zone (z_bitmap z) head]> (mm_orders st)) (set_pages pages st)).

Definition _bitmap_flip (n : Z) (bitmap : gmap Z Z) : outcome (gmap Z Z) :=
  let byte_idx := Z.shiftr n 3 in
  let bit_idx := Z.land n 7 in
  b ← of_option "bitmap index out of bounds" (bitmap !! byte_idx);
  Ret (<[byte_idx := u8 (Z.lxor b (Z.shiftl 1 bit_idx))]> bitmap).

Definition _bitmap_status (n : Z) (bitmap : gmap Z Z) : outcome Z :=
  let byte_idx := Z.shiftr n 3 in
  let bit_idx := Z.land n 7 in
  b ← of_option "bitmap index out of bounds" (bitmap !! byte_idx);
  Ret (u8 (Z.shiftr (Z.land b (Z.shiftl 1 bit_idx)) bit_idx)).

Definition order_flip_at (n order : Z) (st : mm) : outcome mm :=
  z ← zone_at order st;
  bm ← _bitmap_flip (Z.shiftr n (order + 1)) (z_bitmap z);
  Ret (set_orders (<[order := mk_zone bm (z_list z)]> (mm_orders st)) st).

Definition order_status_at (n order : Z) (st : mm) : outcome Z :=
  z ← zone_at order st;
  _bitmap_status (Z.shiftr n (order + 1)) (z_bitmap z).

Definition get_buddy (pg : word) (order : Z) (st : mm) : outcome word :=
  address ← page2idx (mm_pages_count st) pg;
  Ret (phys2page (Z.lxor address (order2size order) *! PAGE_SIZE)).

(** [order] stays below [BUDDY_HIGH_ORDER], so ten rounds suffice. *)
Fixpoint get_alignment_order_loop (fuel : nat) (address order : Z) : Z :=
  match fuel with
  | O => order
  | S fuel =>
      if negb (tst address 1) && (order <? BUDDY_HIGH_ORDER) then
        get_alignment_order_loop fuel (Z.shiftr address 1) (order + 1)
      else order
  end.

Definition get_alignment_order (address : Z) : Z :=
  get_alignment_order_loop (Z.to_nat BUDDY_HIGH_ORDER) (address / 4096) 0.

Fixpoint slice_range_loop (fuel : nat) (size order : Z) : Z :=
  match fuel with
  | O => order
  | S fuel =>
      let size := Z.shiftr size 1 in
      if negb (size =? 0) && (order <? BUDDY_HIGH_ORDER) then slice_range_loop fuel size (order + 1)
      else order
  end.

Definition _slice_range (low high : Z) : Z :=
  let high := MIN high (low +! order2size (get_alignment_order low) *! PAGE_SIZE) in
  let size := (high -! low) / PAGE_SIZE in
  slice_range_loop (Z.to_nat BUDDY_HIGH_ORDER) size 0.

(** ** [buddy_alloc] *)

(** The search for the first non-empty order.  [NULL] when there is none. *)
Fixpoint buddy_find (fuel : nat) (order : Z) (st : mm) : outcome (word * Z * mm) :=
  match fuel with
  | O => Fault "out of fuel"
  | S fuel =>
      if order <=? BUDDY_HIGH_ORDER then
        '(pg, st) ← list_get_at order st;
        if nonnull pg then Ret (pg, order, st) else buddy_find fuel (order + 1) st
      else Ret (NULL, order, st)
  end.

(** The split loop, from [order] down to [cpy_order]. *)
Fixpoint buddy_split (fuel : nat) (pg : word) (order cpy_order : Z) (st : mm) : outcome mm :=
  match fuel with
  | O => Fault "out of fuel"
  | S fuel =>
      if order >? cpy_order then
        let order := order - 1 in
        buddy ← get_buddy pg order st;
        buddy_idx ← page2idx (mm_pages_count st) buddy;
        status ← order_status_at buddy_idx order st;
        if negb (status =? 0) then Panic "trying to split into invalid buddy entry"
        else
          st ← list_link_at buddy order st;
          idx ← page2idx (mm_pages_count st) pg;
          st ← order_flip_at idx order st;
          buddy_split fuel pg order cpy_order st
      else Ret st
  end.

Definition buddy_alloc (order : Z) (st : mm) : outcome (word * mm) :=
  let cpy_order := order in
  if order >? BUDDY_HIGH_ORDER then Ret (NULL, st)
  else
    st ← lock st;
    '(pg, order, st) ← buddy_find 12 order st;
    if nonnull pg then
      idx ← page2idx (mm_pages_count st) pg;
      st ← order_flip_at idx order st;
      st ← buddy_split 12 pg order cpy_order st;
      let st := set_counts (mm_usable st) (mm_free st -! order2size cpy_order)
                           (mm_allocs st +! 1) (mm_deallocs st) st in
      Ret (pg, unlock st)
    else Ret (NULL, unlock st).

(** ** [buddy_free] *)

Definition page_min (a b : word) : word :=
  match a, b with
  | Ref i, Ref j => Ref (MIN i j)
  | Num i, Num j => Num (MIN i j)
  | Num i, Ref _ => Num i             (* plain numbers lie below the page array *)
  | Ref _, Num j => Num j
  end.

(** The merge loop: the block that ends up free and its order. *)
Fixpoint buddy_merge (fuel : nat) (pg : word) (order : Z) (st : mm) : outcome (word * Z * mm) :=
  match fuel with
  | O => Fault "out of fuel"
  | S fuel =>
      if order <? BUDDY_HIGH_ORDER then
        idx ← page2idx (mm_pages_count st) pg;
        st ← order_flip_at idx order st;
        idx ← page2idx (mm_pages_count st) pg;
        status ← order_status_at idx order st;
        if negb (status =? 0) then Ret (pg, order, st)
        else
          buddy ← get_buddy pg order st;
          st ← list_unlink_at buddy order st;
          buddy_merge fuel (page_min pg buddy) (order + 1) st
      else Ret (pg, order, st)
  end.

Definition buddy_free (pg : word) (order : Z) (st : mm) : outcome mm :=
  st ← lock st;
  let cpy_order := order in
  idx ← page2idx (mm_pages_count st) pg;
  if negb (idx mod order2size order =? 0) then Panic "trying to free page at wrong alignment"
  else
    '(pg, order, st) ← buddy_merge 12 pg order st;
    st ← list_link_at pg order st;
    let st := set_counts (mm_usable st) (mm_free st +! order2size cpy_order)
                         (mm_allocs st) (mm_deallocs st +! 1) st in
    Ret (unlock st).

(** ** [buddy_init], [allocator_init] *)

Definition zeroed {A} (x : A) (n : Z) : gmap Z A := gset_to_gmap x (list_to_set (seqZ 0 n)).

Section Init.
Context `{Limine}.

(** The first loop: one bitmap per order, for [fuel] orders from [order]. *)
Fixpoint buddy_init_bitmaps (fuel : nat) (order : Z) (e : em) (st : mm) : outcome (em * mm) :=
  match fuel with
  | O => Ret (e, st)
  | S fuel =>
      let bitmap_order_size := (mm_total st / order2size order / 1) +! 1 in
      '(_, e) ← early_mem_alloc bitmap_order_size e;
      z ← zone_at order st;
      let st := set_orders (<[order := mk_zone (zeroed 0 bitmap_order_size) (z_list z)]> (mm_orders st)) st in
      buddy_init_bitmaps fuel (order + 1) e st
  end.

(** Cutting one region into blocks; each round covers at least one page. *)
Fixpoint buddy_init_region (fuel : nat) (current end_ : Z) (st : mm) : outcome mm :=
  match fuel with
  | O => Fault "out of fuel"
  | S fuel =>
      if current <? end_ then
        let buddy := _slice_range current end_ in
        let start := phys2page current in
        st ← list_link_at start buddy st;
        buddy_init_region fuel (current +! order2size buddy *! PAGE_SIZE) end_ st
      else Ret st
  end.

Fixpoint buddy_init_link (es : list memmap_entry) (st : mm) : outcome mm :=
  match es with
  | [] => Ret st
  | ent :: es =>
      st ← (if ent_type ent =? LIMINE_MEMMAP_USABLE then
              buddy_init_region (S (Z.to_nat (ent_length ent / PAGE_SIZE)))
                (ent_start ent) (ent_start ent +! ent_length ent) st
            else Ret st);
      buddy_init_link es st
  end.

(** The last loop: flip the bit of every block on the free lists. *)
Fixpoint buddy_init_flip (fuel : nat) (curr : word) (order : Z) (st : mm) : outcome mm :=
  match fuel with
  | O => Fault "out of fuel"
  | S fuel =>
      if nonnull curr then
        this_idx ← page2idx (mm_pages_count st) curr;
        st ← order_flip_at this_idx order st;
        pg ← Dll.deref curr (mm_pages st);
        buddy_init_flip fuel (nxt pg) order st
      else Ret st
  end.

Fixpoint buddy_init_flips (fuel : nat) (order : Z) (st : mm) : outcome mm :=
  match fuel with
  | O => Ret st
  | S fuel =>
      z ← zone_at order st;
      st ← buddy_init_flip (S (Z.to_nat (mm_pages_count st))) (z_list z) order st;
      buddy_init_flips fuel (order + 1) st
  end.

Definition set_stats (usable free : Z) (st : mm) : mm :=
  set_counts usable free (mm_allocs st) (mm_deallocs st) st.

Definition buddy_init (e : em) (st : mm) : outcome (em * mm) :=
  '(e, st) ← buddy_init_bitmaps (Z.to_nat (BUDDY_HIGH_ORDER + 1)) 0 e st;
  '(usable, free) ← early_mem_statistics e;
  let st := set_stats usable free st in
  '(_, e) ← early_mem_exit e;
  '(usable, free) ← early_mem_statistics e;
  let st := set_stats usable free st in
  st ← buddy_init_link (em_memmap e) st;
  st ← buddy_init_flips (Z.to_nat (BUDDY_HIGH_ORDER + 1)) 0 st;
  Ret (e, st).

(** The statics before [allocator_init]: everything zero. *)
Definition bss_mm (IF : bool) : mm :=
  mk_mm ∅ 0 0 0 0 IF (mk_spinlock 0 false) 0 0
        (gset_to_gmap (mk_zone ∅ NULL) (list_to_set (seqZ 0 (BUDDY_HIGH_ORDER + 1)))).

Definition allocator_init (memmap_response : option (list limine_memmap_entry))
    (hhdm_response : option Z) (IF : bool) : outcome (em * mm) :=
  '(total, _, e) ← early_mem_init memmap_response hhdm_response;
  '(usable, free) ← early_mem_statistics e;
  let st := bss_mm IF in
  buddy_init e (mk_mm (zeroed zero_page total) total total usable free (mm_IF st) (mm_lock st)
                      (mm_allocs st) (mm_deallocs st) (mm_orders st)).

End Init.

(** ** The public interface *)

Definition page_alloc (order : Z) (st : mm) : outcome (word * mm) := buddy_alloc order st.
Definition page_free (pg : word) (order : Z) (st : mm) : outcome mm := buddy_free pg order st.

(** [NNULL] panics on a null pointer. *)
Definition page_alloc_temp (order : Z) (st : mm) : outcome (Z * mm) :=
  '(pg, st) ← buddy_alloc order st;
  if nonnull pg then
    idx ← page2idx (mm_pages_count st) pg;
    Ret (idx *! PAGE_SIZE, st)
  else Panic "NNULL assertion failed".

Definition page_free_temp (address size : Z) (st : mm) : outcome mm :=
  page_free (phys2page address) (psize2order size) st.

(** [page_calloc] also clears the block; [clear phys len m] is the memset of
    [len] bytes at the physical address [phys]. *)
Definition page_calloc {M} (clear : Z -> Z -> M -> M) (order : Z) (st : mm) (m : M)
    : outcome (word * (mm * M)) :=
  '(out, st) ← page_alloc order st;
  phys ← page2phys (mm_pages_count st) out;
  Ret (out, (st, clear phys (u64 (Z.shiftl (order2size order) PAGE_SHIFT)) m)).

Record phys_mem_stat := mk_stat { stat_total : Z; stat_usable : Z; stat_free : Z }.

Definition phys_stat_memory (st : mm) : outcome (phys_mem_stat * mm) :=
  st ← lock st;
  Ret (mk_stat (mm_total st) (mm_usable st) (mm_free st), unlock st).

End FrameAlloc.
