(* ===== verification/BuddyRep.v ===== *)
(** * The buddy allocator's data structures represent a set of free blocks

    [rep st B]: the free lists of the state [st] (kernel/src/mm/frame_alloc.c)
    hold exactly the blocks [B] and its bitmaps are large enough; [bits st]
    reads the bitmaps.  Each primitive of the allocator is specified on this
    representation, together with what it leaves alone. *)

From stdpp Require Import gmap sets.
From S2P Require Import Prelude Macros Locking Dll FrameHdr EarlyMem Blocks FrameAlloc.

Module BuddyRep.
Import Macros Locking FrameHdr Blocks FrameAlloc.

(** ** Bitmaps *)

Definition bm_bit (bm : gmap Z Z) (j : Z) : bool :=
  match bm !! Z.shiftr j 3 with Some b => Z.testbit b (Z.land j 7) | None => false end.

(** The bytes 0 to [m] are there. *)
Definition bitmap_ok (bm : gmap Z Z) (m : Z) : Prop :=
  forall x, 0 <= x <= m -> exists b, bm !! x = Some b.

Lemma land_7 n : Z.land n 7 = n mod 8.
Proof. change 7 with (Z.ones 3). by rewrite Z.land_ones by lia. Qed.

Lemma shiftr_3 n : Z.shiftr n 3 = n / 8.
Proof. by rewrite Z.shiftr_div_pow2. Qed.

Lemma testbit_flip b t s :
  0 <= t < 8 -> 0 <= s < 8 -> Z.testbit (u8 (Z.lxor b (Z.shiftl 1 t))) s = xorb (Z.testbit b s) (t =? s).
Proof.
  intros. unfold u8. rewrite Z.mod_pow2_bits_low by lia.
  by rewrite Z.lxor_spec, Z.shiftl_1_l, Z.pow2_bits_eqb by lia.
Qed.

Lemma bitmap_flip_spec n bm m :
  bitmap_ok bm m -> 0 <= n -> n / 8 <= m ->
  returns (_bitmap_flip n bm) (fun bm' => bitmap_ok bm' m /\
    forall j, 0 <= j -> bm_bit bm' j = xorb (bm_bit bm j) (bool_decide (j = n))).
Proof.
  intros Hok Hn Hm. assert (0 <= n / 8) by (apply Z.div_pos; lia).
  destruct (Hok (n / 8)) as [b Hb]; [lia|].
  unfold _bitmap_flip. rewrite shiftr_3, Hb. simpl. split.
  - intros x Hx. destruct (decide (x = n / 8)) as [->|].
    + rewrite lookup_insert_eq. eauto.
    + rewrite lookup_insert_ne by done. auto.
  - intros j Hj. unfold bm_bit. rewrite !land_7, !shiftr_3.
    pose proof (Z.mod_pos_bound n 8). pose proof (Z.mod_pos_bound j 8).
    pose proof (Z.div_mod n 8). pose proof (Z.div_mod j 8).
    destruct (decide (j / 8 = n / 8)) as [Heq|Hne].
    + rewrite Heq, lookup_insert_eq, Hb, testbit_flip by lia. f_equal.
      destruct (Z.eqb_spec (n mod 8) (j mod 8)); symmetry;
        [apply bool_decide_eq_true | apply bool_decide_eq_false]; lia || congruence.
    + rewrite lookup_insert_ne by done. rewrite bool_decide_eq_false_2, xorb_false_r by congruence.
      done.
Qed.

Lemma bitmap_status_spec n bm m :
  bitmap_ok bm m -> 0 <= n -> n / 8 <= m ->
  _bitmap_status n bm = Ret (Z.b2z (bm_bit bm n)).
Proof.
  intros Hok Hn Hm. assert (0 <= n / 8) by (apply Z.div_pos; lia).
  destruct (Hok (n / 8)) as [b Hb]; [lia|].
  unfold _bitmap_status, bm_bit. rewrite land_7, shiftr_3, Hb. simpl. f_equal.
  pose proof (Z.mod_pos_bound n 8). rewrite Z.shiftr_land, Z.shiftr_shiftl_l, Z.sub_diag by lia.
  rewrite Z.shiftl_0_r. change 1 with (Z.ones 1). rewrite Z.land_ones by lia.
  rewrite Z.shiftr_div_pow2 by lia. change (2 ^ 1) with 2. rewrite <- Z.testbit_spec' by lia.
  by destruct (Z.testbit b (n mod 8)).
Qed.

(** ** Representation *)

Definition bits (st : mm) (k j : Z) : bool :=
  match mm_orders st !! k with Some z => bm_bit (z_bitmap z) j | None => false end.

Record rep (st : mm) (B : gset (Z * Z)) : Prop := {
  rep_count : 0 <= mm_pages_count st <= 2 ^ 40;
  rep_pages : forall i, is_Some (mm_pages st !! i) <-> 0 <= i < mm_pages_count st;
  rep_zones : forall k, 0 <= k <= max_order -> exists z l,
    mm_orders st !! k = Some z /\ Dll.dll (mm_pages st) (z_list z) l /\
    (forall i, i ∈ l <-> (k, i) ∈ B) /\ bitmap_ok (z_bitmap z) (mm_pages_count st / 2 ^ k);
  rep_heads : forall k k' i, (k, i) ∈ B -> (k', i) ∈ B -> k = k'
}.

(** What the list and bitmap primitives never touch. *)
Definition same (st st' : mm) : Prop :=
  mm_pages_count st' = mm_pages_count st /\ mm_total st' = mm_total st /\
  mm_usable st' = mm_usable st /\ mm_free st' = mm_free st /\ mm_IF st' = mm_IF st /\
  mm_lock st' = mm_lock st /\ mm_allocs st' = mm_allocs st /\ mm_deallocs st' = mm_deallocs st /\
  Dll.relinked (mm_pages st) (mm_pages st').

#[global] Instance same_equiv : Equivalence same.
Proof.
  unfold same. split.
  - intros st. done.
  - intros st st' (? & ? & ? & ? & ? & ? & ? & ? & Hr). symmetry in Hr. naive_solver.
  - intros st st1 st2 (? & ? & ? & ? & ? & ? & ? & ? & Hr) (? & ? & ? & ? & ? & ? & ? & ? & Hr').
    assert (Dll.relinked (mm_pages st) (mm_pages st2)) by (by etrans).
    repeat split; congruence || done.
Qed.

(** The [struct page]s of pages outside [X] are unchanged. *)
Definition untouched (X : Z -> Prop) (st st' : mm) : Prop :=
  forall p, ~ X p -> mm_pages st' !! p = mm_pages st !! p.

Lemma untouched_trans X Y st st1 st2 :
  untouched X st st1 -> untouched Y st1 st2 -> untouched (fun p => X p \/ Y p) st st2.
Proof. intros H1 H2 p Hp. rewrite H2, H1; tauto. Qed.

Definition head_of (B : gset (Z * Z)) (p : Z) : Prop := exists k, (k, p) ∈ B.

(** ** The primitives *)

(** Replacing one zone and relinking pages that only its list uses. *)
Lemma rep_set_zone st B k z l B' pages :
  rep st B -> 0 <= k <= max_order -> Dll.relinked (mm_pages st) pages ->
  Dll.dll pages (z_list z) l -> (forall i, i ∈ l <-> (k, i) ∈ B') ->
  bitmap_ok (z_bitmap z) (mm_pages_count st / 2 ^ k) ->
  (forall k' i, k' <> k -> (k', i) ∈ B' <-> (k', i) ∈ B) ->
  (forall k' i, k' <> k -> (k', i) ∈ B -> pages !! i = mm_pages st !! i) ->
  (forall k k' i, (k, i) ∈ B' -> (k', i) ∈ B' -> k = k') ->
  rep (set_orders (<[k := z]> (mm_orders st)) (set_pages pages st)) B'.
Proof.
  intros [] Hk Hr Hd Hl Hbm HB Hf Hh. split; simpl; [done | | | done].
  - intros i. rewrite <- rep_pages0, <- !elem_of_dom, (Dll.relinked_dom _ _ Hr). done.
  - intros k' Hk'. destruct (decide (k' = k)) as [->|Hne].
    + rewrite lookup_insert_eq. eauto 10.
    + rewrite lookup_insert_ne by done.
      destruct (rep_zones0 k' Hk') as (z' & l' & Hz & Hd' & Hl' & Hbm'). exists z', l'.
      split; [done|]. split; [|split; [|done]].
      * eapply Dll.dll_frame; [done|]. intros a Ha%Hl'. eauto.
      * intros i. rewrite Hl', HB by done. done.
Qed.

Lemma bits_set_list st k z head pages k' j :
  mm_orders st !! k = Some z ->
  bits (set_orders (<[k := mk_zone (z_bitmap z) head]> (mm_orders st)) (set_pages pages st)) k' j =
  bits st k' j.
Proof.
  intros Hz. unfold bits. simpl. destruct (decide (k' = k)) as [->|].
  - by rewrite lookup_insert_eq, Hz.
  - by rewrite lookup_insert_ne.
Qed.

Lemma list_link_at_spec st B a k :
  rep st B -> 0 <= k <= max_order -> 0 <= a < mm_pages_count st -> ~ head_of B a ->
  returns (list_link_at (Ref a) k st) (fun st' =>
    rep st' ({[(k, a)]} ∪ B) /\ same st st' /\ (forall k j, bits st' k j = bits st k j) /\
    untouched (fun p => p = a \/ head_of B p) st st').
Proof.
  intros Hrep Hk Ha Hnew. destruct (rep_zones _ _ Hrep k Hk) as (z & l & Hz & Hd & Hl & Hbm).
  unfold list_link_at, zone_at. rewrite Hz. simpl.
  assert (a ∉ l) as Hal by (intros Hin%Hl; apply Hnew; by exists k).
  mcall (Dll.list_link_spec _ _ _ _ Hd Hal (proj2 (rep_pages _ _ Hrep a) Ha)).
  intros [h pages] (-> & Hd' & Hr & Hf). simpl.
  split; [|split; [done | split; [intros; by apply bits_set_list|]]].
  - eapply rep_set_zone; try done.
    + intros i. rewrite elem_of_cons, Hl. set_solver.
    + set_solver.
    + intros k' i Hne Hin. apply Hf. rewrite elem_of_cons, Hl. intros [-> | Hin'].
      * apply Hnew. by exists k'.
      * apply Hne. by eapply (rep_heads _ _ Hrep).
    + intros k1 k2 i. rewrite !elem_of_union, !elem_of_singleton. intros [?|?] [?|?]; simplify_eq; try done.
      * destruct Hnew. by exists k2.
      * destruct Hnew. by exists k1.
      * by eapply (rep_heads _ _ Hrep).
  - intros p Hp. simpl. apply Hf. rewrite elem_of_cons, Hl. intros [-> | Hin]; [tauto|].
    apply Hp. right. by exists k.
Qed.

(** Taking the block [a] out of the list of order [k]. *)
Lemma rep_remove st B k a z l head pages :
  rep st B -> 0 <= k <= max_order -> mm_orders st !! k = Some z -> (k, a) ∈ B ->
  (forall i, i ∈ l <-> (k, i) ∈ B ∖ {[(k, a)]}) -> Dll.dll pages head l ->
  bitmap_ok (z_bitmap z) (mm_pages_count st / 2 ^ k) -> Dll.relinked (mm_pages st) pages ->
  (forall b, (k, b) ∉ B -> pages !! b = mm_pages st !! b) ->
  let st' := set_orders (<[k := mk_zone (z_bitmap z) head]> (mm_orders st)) (set_pages pages st) in
  rep st' (B ∖ {[(k, a)]}) /\ same st st' /\ (forall k j, bits st' k j = bits st k j) /\
  untouched (head_of B) st st'.
Proof.
  intros Hrep Hk Hz Ha Hl Hd Hbm Hr Hf. cbn zeta.
  split; [|split; [done | split; [intros; by apply bits_set_list|]]].
  - eapply rep_set_zone; try done.
    + set_solver.
    + intros k' i Hne Hin. apply Hf. intros Hin'. apply Hne. by eapply (rep_heads _ _ Hrep).
    + intros k1 k2 i ? ?. apply (rep_heads _ _ Hrep k1 k2 i); set_solver.
  - intros p Hp. apply Hf. intros Hin. apply Hp. by exists k.
Qed.

Lemma list_get_at_spec st B k :
  rep st B -> 0 <= k <= max_order ->
  returns (list_get_at k st) (fun '(pg, st') =>
    same st st' /\ (forall k j, bits st' k j = bits st k j) /\ untouched (head_of B) st st' /\
    ((pg = NULL /\ rep st' B /\ forall i, (k, i) ∉ B) \/
     (exists a, pg = Ref a /\ (k, a) ∈ B /\ rep st' (B ∖ {[(k, a)]})))).
Proof.
  intros Hrep Hk. destruct (rep_zones _ _ Hrep k Hk) as (z & l & Hz & Hd & Hl & Hbm).
  unfold list_get_at, zone_at. rewrite Hz. simpl.
  mcall (Dll.list_get_spec _ _ _ Hd). intros [pg [head pages]] Hget. destruct l as [|a l].
  - destruct Hget as (-> & -> & ->). simpl.
    split; [done|]. split; [intros; by apply bits_set_list|]. split; [done|]. left. split; [done|].
    split; [|set_solver]. eapply rep_set_zone; try done. apply (rep_heads _ _ Hrep).
  - destruct Hget as (-> & Hd' & Hr & Hf). simpl.
    assert ((k, a) ∈ B) as Ha by (apply Hl; left).
    destruct Hd as [_ [Hal _]%NoDup_cons].
    destruct (rep_remove st B k a z l head pages) as (? & ? & ? & ?); try done.
    + intros i. rewrite elem_of_difference, elem_of_singleton, <- Hl, elem_of_cons. set_solver.
    + intros b Hb. apply Hf. by rewrite Hl.
    + eauto 10.
Qed.

Lemma list_unlink_at_spec st B k a :
  rep st B -> 0 <= k <= max_order -> (k, a) ∈ B ->
  returns (list_unlink_at (Ref a) k st) (fun st' =>
    rep st' (B ∖ {[(k, a)]}) /\ same st st' /\ (forall k j, bits st' k j = bits st k j) /\
    untouched (head_of B) st st').
Proof.
  intros Hrep Hk Ha. destruct (rep_zones _ _ Hrep k Hk) as (z & l & Hz & Hd & Hl & Hbm).
  unfold list_unlink_at, zone_at. rewrite Hz. simpl.
  assert (a ∈ l) as (l1 & l2 & ->)%list_elem_of_split by by apply Hl.
  mcall (Dll.list_unlink_spec _ _ _ _ _ Hd). intros [head pages] (Hd' & Hr & Hf). simpl.
  destruct Hd as [_ (_ & ? & [? ?]%NoDup_cons)%NoDup_app].
  eapply rep_remove; try done.
  - intros i. rewrite elem_of_difference, elem_of_singleton, <- Hl. set_solver.
  - intros b Hb. apply Hf. by rewrite Hl.
Qed.

(** The index computation of [order_flip_at] and [order_status_at] stays
    within the bitmap. *)
Lemma pair_index_ok n i k : 0 <= k -> 0 <= i < n -> 0 <= i / 2 ^ (k + 1) /\ i / 2 ^ (k + 1) / 8 <= n / 2 ^ k.
Proof.
  intros Hk Hi. pose proof (pow2_pos k). pose proof (pow2_pos (k + 1)).
  split; [apply Z.div_pos; lia|]. rewrite Z.div_div by lia.
  etrans; [apply Z.div_le_mono with (b := n)|]; [lia|lia|].
  rewrite Z.pow_add_r by lia. apply Z.div_le_compat_l; lia.
Qed.

Lemma order_flip_at_spec st B i k :
  rep st B -> 0 <= k <= max_order -> 0 <= i < mm_pages_count st ->
  returns (order_flip_at i k st) (fun st' =>
    rep st' B /\ same st st' /\ mm_pages st' = mm_pages st /\
    forall k' j, 0 <= j -> bits st' k' j = xorb (bits st k' j) (bool_decide (k' = k /\ j = i / 2 ^ (k + 1)))).
Proof.
  intros Hrep Hk Hi. destruct (rep_zones _ _ Hrep k Hk) as (z & l & Hz & Hd & Hl & Hbm).
  unfold order_flip_at, zone_at. rewrite Hz. simpl. rewrite Z.shiftr_div_pow2 by lia.
  destruct (pair_index_ok (mm_pages_count st) i k) as [H0 H8]; [lia|done|].
  mcall (bitmap_flip_spec _ _ _ Hbm H0 H8). intros bm [Hbm' Hbits]. simpl.
  split; [|split; [done|split; [done|]]].
  - apply (rep_set_zone st B k (mk_zone bm (z_list z)) l B (mm_pages st)); try done.
    apply (rep_heads _ _ Hrep).
  - intros k' j Hj. unfold bits. simpl. destruct (decide (k' = k)) as [->|Hne].
    + rewrite lookup_insert_eq, Hz. simpl. rewrite Hbits by done. f_equal.
      apply bool_decide_ext. naive_solver.
    + rewrite lookup_insert_ne by done.
      rewrite (bool_decide_eq_false_2 (k' = k /\ _)) by naive_solver. by rewrite xorb_false_r.
Qed.

Lemma order_status_at_spec st B i k :
  rep st B -> 0 <= k <= max_order -> 0 <= i < mm_pages_count st ->
  order_status_at i k st = Ret (Z.b2z (bits st k (i / 2 ^ (k + 1)))).
Proof.
  intros Hrep Hk Hi. destruct (rep_zones _ _ Hrep k Hk) as (z & l & Hz & Hd & Hl & Hbm).
  unfold order_status_at, zone_at, bits. rewrite Hz. simpl. rewrite Z.shiftr_div_pow2 by lia.
  destruct (pair_index_ok (mm_pages_count st) i k) as [? ?]; [lia|done|].
  by erewrite bitmap_status_spec.
Qed.

Lemma get_buddy_spec st B i k :
  rep st B -> 0 <= k <= max_order -> 0 <= i < mm_pages_count st -> (2 ^ k | i) ->
  get_buddy (Ref i) k st = Ret (Ref (buddy i k)).
Proof.
  intros Hrep Hk Hi Ha. unfold get_buddy. rewrite page2idx_ret by done. simpl.
  unfold max_order in *. rewrite order2size_pow by lia. fold (buddy i k).
  pose proof (rep_count _ _ Hrep). pose proof (buddy_bounds i k ltac:(lia) ltac:(lia) Ha).
  assert (2 ^ (k + 1) <= 2 ^ 11) by (apply Z.pow_le_mono_r; lia).
  unfold phys2page. rewrite u64_small by (unfold PAGE_SIZE; lia).
  rewrite Z.div_mul by (unfold PAGE_SIZE; lia). done.
Qed.

End BuddyRep.
