(* ===== verification/BuddyProof.v ===== *)
(** * Correctness of the buddy allocator

    The loops of [buddy_alloc] and [buddy_free] (kernel/src/mm/frame_alloc.c)
    against the set of free blocks, and the theorems about the two operations
    and their sequences. *)

From stdpp Require Import gmap sets.
From S2P Require Import Prelude Macros Locking Dll FrameHdr EarlyMem Blocks FrameAlloc BuddyRep.

Module BuddyProof.
Import Macros Locking FrameHdr Blocks FrameAlloc BuddyRep.

(** ** Bitmaps and free blocks *)

(** A pair's bit is set iff exactly one of the two buddies is free. *)
Definition parity (st : mm) (B : gset (Z * Z)) : Prop :=
  forall k i, 0 <= k < max_order -> (2 ^ k | i) -> 0 <= i < mm_pages_count st ->
  bits st k (i / 2 ^ (k + 1)) =
    xorb (bool_decide ((k, i) ∈ B)) (bool_decide ((k, buddy i k) ∈ B)).

(** Flipping the bit of a pair while one of its two blocks changes sides. *)
Lemma parity_toggle st st' B B' k x :
  parity st B -> mm_pages_count st' = mm_pages_count st -> 0 <= k -> (2 ^ k | x) ->
  (forall k' j, 0 <= j ->
     bits st' k' j = xorb (bits st k' j) (bool_decide (k' = k /\ j = x / 2 ^ (k + 1)))) ->
  (forall k' i, (k', i) <> (k, x) -> (k', i) ∈ B' <-> (k', i) ∈ B) ->
  ((k, x) ∈ B' <-> (k, x) ∉ B) ->
  parity st' B'.
Proof.
  intros Hpar Hn Hk Hx Hflip Hsame Htog k' i Hk' Hi Hr.
  pose proof (pow2_pos (k' + 1)). rewrite Hflip by (apply Z.div_pos; lia).
  rewrite Hpar by (done || lia). pose proof (buddy_ne i k').
  assert (forall k' i, (k', i) <> (k, x) -> bool_decide ((k', i) ∈ B') = bool_decide ((k', i) ∈ B)) as E
    by (intros; apply bool_decide_ext; auto).
  assert (bool_decide ((k, x) ∈ B') = negb (bool_decide ((k, x) ∈ B))) as T.
  { rewrite <- bool_decide_not. apply bool_decide_ext. done. }
  destruct (decide (k' = k /\ i / 2 ^ (k' + 1) = x / 2 ^ (k + 1))) as [[-> Heq]|Hne].
  - rewrite (bool_decide_eq_true_2 (k = k /\ _)) by done. apply same_pair in Heq as [-> | Hb]; [| |lia|done|done].
    + rewrite T, E by naive_solver. clear. by repeat destruct (bool_decide _).
    + rewrite Hb, T, E by naive_solver. clear. by repeat destruct (bool_decide _).
  - rewrite (bool_decide_eq_false_2 (k' = k /\ _)), xorb_false_r by done.
    rewrite !E; [done|..]; intros [= ? ?]; apply Hne; subst; split; try done.
    apply same_pair; auto; lia.
Qed.

Lemma parity_same st st' B :
  parity st B -> mm_pages_count st' = mm_pages_count st ->
  (forall k j, bits st' k j = bits st k j) -> parity st' B.
Proof. intros Hp Hn Hb k i ? ? ?. rewrite Hb. apply Hp; [done|done|lia]. Qed.

(** ** The search loop *)

Lemma buddy_find_spec fuel order st B :
  rep st B -> 0 <= order <= max_order + 1 -> max_order + 1 < order + Z.of_nat fuel ->
  returns (buddy_find fuel order st) (fun '(pg, o, st') =>
    same st st' /\ (forall k j, bits st' k j = bits st k j) /\ untouched (head_of B) st st' /\
    ((pg = NULL /\ rep st' B /\ forall k i, order <= k <= max_order -> (k, i) ∉ B) \/
     (exists a, pg = Ref a /\ order <= o <= max_order /\ (o, a) ∈ B /\ rep st' (B ∖ {[(o, a)]})))).
Proof.
  revert order st. induction fuel as [|fuel IH]; intros order st Hrep Ho Hf; simpl.
  { unfold max_order in *. lia. }
  unfold BUDDY_HIGH_ORDER. fold max_order. destruct (Z.leb_spec order max_order) as [Hle|Hgt].
  - mcall (list_get_at_spec st B order Hrep); [lia|].
    intros [pg st1] (Hs & Hb & Hu & Hcase). destruct Hcase as [(-> & Hrep1 & Hno) | (a & -> & Ha & Hrep1)].
    + simpl. eapply returns_mono; [apply (IH (order + 1) st1 Hrep1); lia|].
      intros [[pg o] st2] (Hs2 & Hb2 & Hu2 & Hcase).
      split; [by etrans|]. split; [intros; by rewrite Hb2|]. split.
      { intros p Hp. rewrite Hu2, Hu; done. }
      destruct Hcase as [(-> & Hrep2 & Hno2) | (a & -> & Hoa & Ha & Hrep2)].
      * left. split; [done|]. split; [done|]. intros k i Hk.
        destruct (decide (k = order)) as [->|]; [done|]. apply Hno2. lia.
      * right. exists a. split; [done|]. split; [lia|done].
    + simpl. split; [done|]. split; [done|]. split; [done|]. right. exists a.
      split; [done|]. split; [lia|done].
  - simpl. split; [done|]. split; [done|]. split; [done|]. left.
    split; [done|]. split; [done|]. intros. lia.
Qed.

(** ** Consistent states *)

(** What holds between the steps of both operations, with the lock held. *)
Record consistent (st : mm) (B : gset (Z * Z)) : Prop := {
  cs_rep : rep st B;
  cs_blocks : blocks_ok (mm_pages_count st) B;
  cs_parity : parity st B
}.

Lemma same_count st st' : same st st' -> mm_pages_count st' = mm_pages_count st.
Proof. by intros [? _]. Qed.
#[local] Hint Resolve same_count : munk.

Lemma not_head n B p : blocks_ok n B -> p ∉ freepages B -> ~ head_of B p.
Proof.
  intros Hok Hp [k Hk]. apply Hp, (freepages_sub B k p Hk), block_nonempty.
  apply (blocks_each _ _ Hok _ _ Hk).
Qed.

(** Facts about the halves of a block that is not free. *)
Lemma split_facts st B a o :
  consistent st B -> block_ok (mm_pages_count st) (o + 1) a -> 0 <= o ->
  block a (o + 1) ## freepages B ->
  buddy a o = a + 2 ^ o /\ block_ok (mm_pages_count st) o a /\
  block_ok (mm_pages_count st) o (buddy a o) /\
  (o, a) ∉ B /\ (o, buddy a o) ∉ B /\ ~ head_of B (buddy a o) /\
  buddy a o / 2 ^ (o + 1) = a / 2 ^ (o + 1) /\ order_status_at (buddy a o) o st = Ret 0.
Proof.
  intros [Hrep Hok Hpar] [Hk Ha0 Han Hal] Ho Hdisj.
  assert (2 ^ o | a) as Hao by (etrans; [apply (pow2_divide o (o + 1)); lia | done]).
  pose proof (buddy_even a o Ho Hal) as Hb. pose proof (pow2_pos o).
  rewrite Z.pow_add_r in Han by lia. change (2 ^ 1) with 2 in Han.
  destruct (buddy_facts a o) as (Hab & _); [done|done|].
  rewrite block_split in Hdisj by lia.
  assert (a ∉ freepages B) as Ha by (pose proof (block_nonempty a o Ho); set_solver).
  assert (buddy a o ∉ freepages B) as Hbf
    by (rewrite Hb; pose proof (block_nonempty (a + 2 ^ o) o Ho); set_solver).
  assert ((o, a) ∉ B) as Hna by (by eapply blocks_ok_notin).
  assert ((o, buddy a o) ∉ B) as Hnb by (by eapply blocks_ok_notin).
  assert (buddy a o / 2 ^ (o + 1) = a / 2 ^ (o + 1)) as Hidx.
  { apply same_pair; try done. right. apply buddy_invol. }
  split; [done|]. split; [split; (done || lia)|]. split; [split; (done || lia)|].
  split; [done|]. split; [done|]. split; [by eapply not_head|]. split; [done|].
  erewrite order_status_at_spec; [|done|lia|lia].
  rewrite Hidx, Hpar by (done || lia). by rewrite !bool_decide_eq_false_2.
Qed.

(** A block enters the free list and its pair's bit is flipped. *)
Lemma consistent_add st st1 st2 B k x :
  consistent st B -> block_ok (mm_pages_count st) k x -> block x k ## freepages B ->
  same st st1 -> (forall k j, bits st1 k j = bits st k j) ->
  rep st2 ({[(k, x)]} ∪ B) -> same st1 st2 ->
  (forall k' j, 0 <= j ->
     bits st2 k' j = xorb (bits st1 k' j) (bool_decide (k' = k /\ j = x / 2 ^ (k + 1)))) ->
  consistent st2 ({[(k, x)]} ∪ B).
Proof.
  intros [Hrep Hok Hpar] Hx Hdisj Hs1 Hb1 Hrep2 Hs2 Hb2. pose proof Hx as [? ? ? ?].
  pose proof (same_count _ _ Hs1) as Hn1. pose proof (same_count _ _ Hs2) as Hn2.
  split; [done| |].
  - rewrite Hn2, Hn1. by apply blocks_ok_add.
  - assert ((k, x) ∉ B).
    { eapply blocks_ok_notin; [done|lia|]. pose proof (block_nonempty x k). set_solver by lia. }
    eapply (parity_toggle st1 st2 B _ k x); try done; [|lia|set_solver..].
    by eapply parity_same.
Qed.

(** The split loop frees everything of the block but its first [2^c] pages. *)
Lemma buddy_split_spec fuel st B a o c :
  consistent st B -> block_ok (mm_pages_count st) o a -> 0 <= c <= o -> o - c < Z.of_nat fuel ->
  block a o ## freepages B ->
  returns (buddy_split fuel (Ref a) o c st) (fun st' => exists B',
    consistent st' B' /\ same st st' /\
    freepages B' = freepages B ∪ (block a o ∖ block a c) /\
    untouched (fun p => p ∈ freepages B ∪ (block a o ∖ block a c)) st st' /\
    (coalesced B -> coalesced B')).
Proof.
  revert st B o. induction fuel as [|fuel IH]; intros st B o Hcs Hbk Hc Hf Hdisj; [lia|].
  simpl. rewrite Z.gtb_ltb. destruct (Z.ltb_spec c o) as [Hlt|Hge].
  - assert (exists j, o = j + 1) as [j ->] by (exists (o - 1); lia).
    replace (j + 1 - 1) with j by lia. pose proof (cs_rep _ _ Hcs) as Hrep.
    destruct (split_facts st B a j Hcs Hbk) as (Hb & Hja & Hjb & Hna & Hnb & Hnh & Hidx & Hst);
      [lia|done|]. pose proof Hja as [Hk Ha0 Han Haj]. pose proof Hjb as [_ Hb0 Hbn _].
    pose proof (pow2_pos j).
    mpure (get_buddy_spec st B a j Hrep Hk ltac:(lia) Haj).
    mpure (page2idx_ret (mm_pages_count st) (buddy a j) ltac:(lia)). mpure Hst. simpl.
    mcall (list_link_at_spec st B (buddy a j) j Hrep Hk ltac:(lia) Hnh).
    intros st1 (Hrep1 & Hs1 & Hb1 & Hu1). pose proof (same_count _ _ Hs1) as Hn1.
    mpure (page2idx_ret (mm_pages_count st1) a ltac:(lia)).
    mcall (order_flip_at_spec st1 _ a j Hrep1 Hk ltac:(lia)).
    intros st2 (Hrep2 & Hs2 & Hp2 & Hb2). rewrite <- Hidx in Hb2.
    rewrite block_split, <- Hb in Hdisj by lia.
    assert (consistent st2 ({[(j, buddy a j)]} ∪ B)) as Hcs2.
    { eapply (consistent_add st st1 st2); try done. set_solver. }
    assert (block a j ## block (buddy a j) j) as Hhalves.
    { intros p. rewrite !elem_block. lia. }
    eapply returns_mono; [apply (IH st2 _ j Hcs2)|];
      rewrite ?(same_count _ _ Hs2), ?Hn1, ?freepages_add; [done|lia|lia|set_solver|].
    intros st3 (B' & Hcs3 & Hs3 & Hfp & Hu3 & Hco). exists B'. split; [done|].
    split; [by do 2 (etrans; [done|])|].
    assert (block a c ⊆ block a j) as Hsub by (apply block_mono; lia).
    rewrite block_split, <- Hb by lia. split; [|split].
    + rewrite Hfp. clear -Hhalves Hsub. set_solver.
    + intros p Hp. pose proof (block_nonempty (buddy a j) j) as Hbb.
      rewrite Hu3, Hp2, Hu1; [done| |clear -Hp Hhalves Hsub; set_solver].
      intros [-> | Hh]; [apply Hp; specialize (Hbb ltac:(lia)); clear -Hbb Hhalves Hsub; set_solver|].
      apply (not_head _ _ p (cs_blocks _ _ Hcs)); [clear -Hp; set_solver | done].
    + intros Hc0. apply Hco, coalesced_add; [lia|done|]. intros _. by rewrite buddy_invol.
  - assert (o = c) as -> by lia. simpl. exists B. split; [done|]. split; [done|].
    split; [set_solver|]. split; [done|done].
Qed.

(** ** The merge loop *)

(** Facts about a block that is about to be freed at order [k]. *)
Lemma merge_facts st B k i :
  consistent st B -> block_ok (mm_pages_count st) k i -> block i k ## freepages B -> k < max_order ->
  (2 ^ k | buddy i k) /\ (k, i) ∉ B /\ buddy i k <> i /\
  buddy i k / 2 ^ (k + 1) = i / 2 ^ (k + 1) /\
  bits st k (i / 2 ^ (k + 1)) = bool_decide ((k, buddy i k) ∈ B).
Proof.
  intros [Hrep Hok Hpar] [Hk Hi0 Hin Hia] Hdisj Hlt. pose proof (pow2_pos k).
  destruct (buddy_facts i k) as (Hb & Hne & _); [lia|done|].
  assert (i ∉ freepages B) by (pose proof (block_nonempty i k); set_solver by lia).
  assert ((k, i) ∉ B) by (eapply blocks_ok_notin; [done|lia|done]).
  split; [done|]. split; [done|]. split; [done|]. split.
  - apply same_pair; [lia|done|done|]. right. apply buddy_invol.
  - rewrite Hpar by (done || lia). by rewrite bool_decide_eq_false_2, xorb_false_l.
Qed.

(** The buddy leaves the free list and the pair's bit is flipped: the pair is
    a block of the next order, free to be merged further. *)
Lemma merge_consistent st st1 st2 B k i :
  consistent st B -> block_ok (mm_pages_count st) k i -> block i k ## freepages B -> k < max_order ->
  (k, buddy i k) ∈ B -> same st st1 -> same st1 st2 ->
  (forall k' j, 0 <= j ->
     bits st1 k' j = xorb (bits st k' j) (bool_decide (k' = k /\ j = i / 2 ^ (k + 1)))) ->
  rep st2 (B ∖ {[(k, buddy i k)]}) -> (forall k j, bits st2 k j = bits st1 k j) ->
  let B' := B ∖ {[(k, buddy i k)]} in
  consistent st2 B' /\ block_ok (mm_pages_count st) (k + 1) (pair_base i k) /\
  block (pair_base i k) (k + 1) ## freepages B' /\
  block (pair_base i k) (k + 1) ∪ freepages B' = block i k ∪ freepages B.
Proof.
  intros Hcs Hbk Hdisj Hlt Hin Hs1 Hs2 Hb1 Hrep2 Hb2. cbn zeta.
  destruct (merge_facts st B k i Hcs Hbk Hdisj Hlt) as (Hba & Hni & Hne & Hidx & _).
  destruct Hcs as [Hrep Hok Hpar]. pose proof Hbk as [Hk Hi0 Hin' Hia].
  pose proof (blocks_each _ _ Hok _ _ Hin) as [_ Hb0 Hbn _].
  pose proof (freepages_sub _ _ _ Hin) as Hsub.
  rewrite block_pair by (done || lia). rewrite (freepages_del _ _ _ _ Hok Hin).
  split; [|split; [|split]].
  - split; [done| |].
    + rewrite (same_count _ _ Hs2), (same_count _ _ Hs1). by apply blocks_ok_del.
    + eapply (parity_toggle st st2 B _ k (buddy i k)); try done; [|lia|..].
      * rewrite (same_count _ _ Hs2). by apply same_count.
      * intros k' j Hj. by rewrite Hb2, Hb1, Hidx by done.
      * intros k' x Hx. clear -Hx. set_solver.
      * clear -Hin. set_solver.
  - destruct (buddy_facts i k) as (_ & _ & Hmin & _ & Hal); [lia|done|].
    assert (2 ^ (k + 1) = 2 * 2 ^ k) by (rewrite Z.pow_add_r; lia).
    split; [lia|lia| |done]. destruct (pair_cases i k) as [[? ?]|[? ?]]; (done || lia).
  - clear -Hdisj. set_solver.
  - apply set_eq. intros p. rewrite !elem_of_union, elem_of_difference.
    destruct (decide (p ∈ block (buddy i k) k)) as [Hp|Hp]; clear -Hsub Hp; set_solver.
Qed.

Lemma buddy_merge_spec fuel st B i k :
  consistent st B -> block_ok (mm_pages_count st) k i -> block i k ## freepages B ->
  max_order - k < Z.of_nat fuel ->
  returns (buddy_merge fuel (Ref i) k st) (fun '(pg, o, st') => exists a B',
    pg = Ref a /\ rep st' B' /\ blocks_ok (mm_pages_count st) B' /\
    block_ok (mm_pages_count st) o a /\ block a o ## freepages B' /\
    block a o ∪ freepages B' = block i k ∪ freepages B /\
    parity st' ({[(o, a)]} ∪ B') /\ same st st' /\
    untouched (fun p => p ∈ freepages B) st st' /\ (coalesced B -> coalesced ({[(o, a)]} ∪ B'))).
Proof.
  revert st B i k. induction fuel as [|fuel IH]; intros st B i k Hcs Hbk Hdisj Hf;
    [destruct Hbk; lia|].
  simpl. unfold BUDDY_HIGH_ORDER. fold max_order. pose proof Hbk as [Hk Hi0 Hin Hia].
  pose proof (pow2_pos k). pose proof Hcs as [Hrep Hok Hpar]. destruct (Z.ltb_spec k max_order) as [Hlt|Hge].
  - destruct (merge_facts st B k i Hcs Hbk Hdisj Hlt) as (Hba & Hni & Hne & Hidx & Hbit).
    mpure (page2idx_ret (mm_pages_count st) i ltac:(lia)).
    mcall (order_flip_at_spec st B i k Hrep Hk ltac:(lia)).
    intros st1 (Hrep1 & Hs1 & Hp1 & Hb1). pose proof (same_count _ _ Hs1) as Hn1.
    mpure (page2idx_ret (mm_pages_count st1) i ltac:(lia)).
    mpure (order_status_at_spec st1 B i k Hrep1 Hk ltac:(lia)).
    rewrite Hb1, Hbit by (apply Z.div_pos; [lia|apply pow2_pos; lia]).
    rewrite (bool_decide_eq_true_2 (k = k /\ _)) by done.
    case_bool_decide as Hbud; simpl.
    + mpure (get_buddy_spec st1 B i k Hrep1 Hk ltac:(lia) Hia).
      mcall (list_unlink_at_spec st1 B k (buddy i k) Hrep1 Hk Hbud).
      intros st2 (Hrep2 & Hs2 & Hb2 & Hu2). pose proof (same_count _ _ Hs2) as Hn2.
      destruct (merge_consistent st st1 st2 B k i) as (Hcs2 & Hbk2 & Hdisj2 & Heq2); try done.
      destruct (buddy_facts i k) as (_ & _ & Hmin & _); [lia|done|].
      simpl. rewrite MIN_min, Hmin.
      eapply returns_mono; [apply (IH st2 _ (pair_base i k) (k + 1) Hcs2)|];
        rewrite ?Hn2, ?Hn1; [done|done|lia|].
      intros [[pg o] st3] (a & B' & -> & Hrep3 & Hok3 & Hbk3 & Hd3 & Heq3 & Hp3 & Hs3 & Hu3 & Hco3).
      exists a, B'. do 5 (split; [done|]). split; [by rewrite Heq3|]. split; [done|].
      split; [by do 2 (etrans; [done|])|]. split; [|intros Hco; apply Hco3; eapply coalesced_sub; [|done]; set_solver].
      intros p Hp. rewrite Hu3, Hu2, Hp1; [done| |].
      * intros Hh. by apply (not_head _ _ p Hok).
      * rewrite (freepages_del _ _ _ _ Hok Hbud). clear -Hp. set_solver.
    + exists i, B. do 5 (split; [done|]). split; [done|].
      split; [|split; [done|split; [intros p _; by rewrite Hp1|]]].
      * eapply (parity_toggle st st1 B _ k i); try done; [lia|clear; set_solver|clear -Hni; set_solver].
      * intros Hco. apply coalesced_add; [lia|done|done].
  - assert (k = max_order) as -> by lia. simpl. exists i, B. do 6 (split; [done|]).
    split; [|split; [done|split; [done|]]].
    + intros k' x Hk' Hx Hr. rewrite Hpar by done.
      f_equal; apply bool_decide_ext; rewrite elem_of_union, elem_of_singleton; naive_solver lia.
    + intros Hco. apply coalesced_add; [lia|done|]. lia.
Qed.

(** ** The operations *)

(** Between operations: the lock is free and the structures are consistent. *)
Definition inv (st : mm) (B : gset (Z * Z)) : Prop := unlocked (mm_lock st) /\ consistent st B.

(** Both operations keep the size of memory, the static counters, the caller's
    interrupt flag and everything but the links in the page structs. *)
Definition kept (st st' : mm) : Prop :=
  mm_pages_count st' = mm_pages_count st /\ mm_total st' = mm_total st /\
  mm_usable st' = mm_usable st /\ mm_IF st' = mm_IF st /\
  Dll.relinked (mm_pages st) (mm_pages st').

(** The fields [consistent] depends on. *)
Lemma consistent_fields st st' B :
  consistent st B -> mm_pages st' = mm_pages st -> mm_pages_count st' = mm_pages_count st ->
  mm_orders st' = mm_orders st -> consistent st' B.
Proof.
  intros [[] Hok Hpar] Hp Hn Ho.
  split; [split|by rewrite Hn|]; rewrite ?Hp, ?Hn, ?Ho; try done.
  eapply parity_same; [done|done|]. intros. unfold bits. by rewrite Ho.
Qed.

Definition locked (st : mm) : mm := set_lock false (mk_spinlock 1 (mm_IF st)) st.

Lemma lock_ret st : unlocked (mm_lock st) -> lock st = Ret (locked st).
Proof. intros Hl. unfold lock. by rewrite Seq.spin_lock_global_ret. Qed.

(** Giving the lock back after a body that left it and the flag alone. *)
Lemma unlock_ret st st' :
  mm_lock st' = mm_lock (locked st) -> mm_IF st' = mm_IF (locked st) ->
  unlock st' = set_lock (mm_IF st) (mk_spinlock 0 (mm_IF st)) st'.
Proof. intros Hl Hi. unfold unlock. rewrite Hl, Hi. exact (f_equal (fun '(IF, l) => set_lock IF l st') (Seq.spin_unlock_global_ret (mm_IF st))). Qed.

Lemma head_free n B p : blocks_ok n B -> head_of B p -> p ∈ freepages B.
Proof. intros Hok Hh. destruct (decide (p ∈ freepages B)); [done|]. by destruct (not_head n B p). Qed.

Lemma consistent_remove st st1 st2 B k a :
  consistent st B -> (k, a) ∈ B -> same st st1 -> (forall k j, bits st1 k j = bits st k j) ->
  rep st2 (B ∖ {[(k, a)]}) -> same st1 st2 ->
  (forall k' j, 0 <= j ->
     bits st2 k' j = xorb (bits st1 k' j) (bool_decide (k' = k /\ j = a / 2 ^ (k + 1)))) ->
  consistent st2 (B ∖ {[(k, a)]}).
Proof.
  intros [Hrep Hok Hpar] Ha Hs1 Hb1 Hrep2 Hs2 Hb2.
  pose proof (blocks_each _ _ Hok _ _ Ha) as [Hk _ _ Hal].
  pose proof (same_count _ _ Hs1) as Hn1. pose proof (same_count _ _ Hs2) as Hn2.
  split; [done| |].
  - rewrite Hn2, Hn1. by apply blocks_ok_del.
  - eapply (parity_toggle st1 st2 B _ k a); try done; [|lia|set_solver|set_solver].
    by eapply parity_same.
Qed.

Lemma buddy_alloc_spec st B k :
  inv st B -> 0 <= k <= max_order ->
  returns (buddy_alloc k st) (fun '(pg, st') => exists B',
    inv st' B' /\ kept st st' /\ untouched (fun p => p ∈ freepages B) st st' /\
    (coalesced B -> coalesced B') /\
    ((pg = NULL /\ B' = B /\ mm_free st' = mm_free st /\ forall k' i, k <= k' -> (k', i) ∉ B) \/
     (exists a, pg = Ref a /\ block_ok (mm_pages_count st) k a /\ block a k ⊆ freepages B /\
        freepages B' = freepages B ∖ block a k /\ mm_free st' = mm_free st -! 2 ^ k))).
Proof.
  intros [Hl Hcs] Hk. unfold buddy_alloc. rewrite Z.gtb_ltb.
  destruct (Z.ltb_spec BUDDY_HIGH_ORDER k) as [Hgt|_]; [unfold BUDDY_HIGH_ORDER, max_order in *; lia|].
  mpure (lock_ret st Hl). assert (consistent (locked st) B) as Hcs0 by (by eapply consistent_fields).
  pose proof Hcs0 as [Hrep0 Hok0 Hpar0].
  mcall (buddy_find_spec 12 k (locked st) B Hrep0); [lia|unfold max_order in *; lia|].
  intros [[pg o] st1] (Hs1 & Hb1 & Hu1 & Hcase). pose proof (same_count _ _ Hs1) as Hn1.
  destruct Hcase as [(-> & Hrep1 & Hno) | (a & -> & Ho & Ha & Hrep1)]; simpl.
  - pose proof Hs1 as (_ & ? & ? & ? & ? & ? & ? & ? & ?). rewrite (unlock_ret st st1) by done.
    exists B. split; [split; [done|]; eapply (consistent_fields st1); try done|].
    { split; [done| |]; [by rewrite Hn1 | by eapply parity_same]. }
    split; [done|]. split; [intros p Hp; apply Hu1; contradict Hp; by eapply head_free|].
    split; [done|]. left. split; [done|]. split; [done|]. split; [done|].
    intros k' i Hk' Hin. destruct (blocks_each _ _ Hok0 _ _ Hin) as [? _ _ _].
    apply (Hno k' i); [lia|done].
  - pose proof (blocks_each _ _ Hok0 _ _ Ha) as Hbk. pose proof Hbk as [Hko Ha0 Han Hal].
    pose proof (pow2_pos o). simpl in Han.
    mpure (page2idx_ret (mm_pages_count st1) a ltac:(simpl in Hn1; lia)).
    mcall (order_flip_at_spec st1 _ a o Hrep1 Hko ltac:(simpl in Hn1; lia)).
    intros st2 (Hrep2 & Hs2 & Hp2 & Hb2). pose proof (same_count _ _ Hs2) as Hn2.
    assert (consistent st2 (B ∖ {[(o, a)]})) as Hcs2 by (eapply consistent_remove; try done; done).
    pose proof (freepages_del _ _ _ _ Hok0 Ha) as Hdel.
    assert (block a o ## freepages (B ∖ {[(o, a)]})) as Hd2 by (rewrite Hdel; set_solver).
    mcall (buddy_split_spec 12 st2 _ a o k Hcs2); [by rewrite Hn2, Hn1|lia|unfold max_order in *; lia|done|].
    intros st3 (B' & Hcs3 & Hs3 & Hfp & Hu3 & Hco).
    assert (same (locked st) st3) as (? & ? & ? & Hfr & ? & ? & Hal' & ? & ?) by (by do 2 (etrans; [done|])).
    simpl. rewrite (unlock_ret st) by done. exists B'.
    split; [split; [done|]; by eapply (consistent_fields st3)|]. split; [done|].
    pose proof (block_mono a k o ltac:(lia)) as Hmono.
    pose proof (freepages_sub _ _ _ Ha) as Hsub.
    split; [|split; [|right; exists a; split; [done|]; split; [apply (block_ok_prefix _ k o a Hbk); lia|]]].
    + intros p Hp. simpl. rewrite Hu3, Hp2, Hu1; [done| |].
      * contradict Hp. by eapply head_free.
      * rewrite Hdel. clear -Hp Hsub. set_solver.
    + intros Hc. eapply Hco, coalesced_sub; [|done]. clear. set_solver.
    + split; [by etrans|]. split; [by rewrite Hfp, Hdel, carve|]. simpl.
      rewrite order2size_pow by (unfold max_order in *; lia). by rewrite Hfr.
Qed.

Lemma buddy_free_spec st B k i :
  inv st B -> block_ok (mm_pages_count st) k i -> block i k ## freepages B ->
  returns (buddy_free (Ref i) k st) (fun st' => exists B',
    inv st' B' /\ kept st st' /\ untouched (fun p => p ∈ freepages B ∪ block i k) st st' /\
    (coalesced B -> coalesced B') /\
    freepages B' = freepages B ∪ block i k /\ mm_free st' = mm_free st +! 2 ^ k).
Proof.
  intros [Hl Hcs] Hbk Hdisj. pose proof Hbk as [Hk Hi0 Hin Hia]. pose proof (pow2_pos k).
  unfold buddy_free. mpure (lock_ret st Hl).
  assert (consistent (locked st) B) as Hcs0 by (by eapply consistent_fields).
  mpure (page2idx_ret (mm_pages_count (locked st)) i ltac:(simpl; lia)).
  rewrite order2size_pow by (unfold max_order in *; lia).
  rewrite (proj2 (Z.mod_divide i (2 ^ k) ltac:(lia)) Hia). simpl.
  mcall (buddy_merge_spec 12 (locked st) B i k Hcs0 Hbk Hdisj); [unfold max_order in *; lia|].
  intros [[pg o] st1] (a & B' & -> & Hrep1 & Hok1 & Hbk1 & Hd1 & Heq1 & Hp1 & Hs1 & Hu1 & Hco1).
  pose proof (same_count _ _ Hs1) as Hn1. pose proof Hbk1 as [Hko Ha0 Han _]. simpl in Hn1, Han.
  pose proof (pow2_pos o) as Hpo. pose proof (block_nonempty a o ltac:(lia)) as Hao.
  assert (~ head_of B' a) as Hnh by (eapply not_head; [done | set_solver]).
  mcall (list_link_at_spec st1 B' a o Hrep1 Hko ltac:(lia) Hnh).
  intros st2 (Hrep2 & Hs2 & Hb2 & Hu2). pose proof (same_count _ _ Hs2) as Hn2.
  assert (same (locked st) st2) as (? & ? & ? & Hfr & ? & ? & ? & ? & ?) by (by etrans).
  simpl. rewrite (unlock_ret st) by done. exists ({[(o, a)]} ∪ B').
  rewrite freepages_add, Heq1. split; [split; [done|]|].
  { eapply (consistent_fields st2); try done. split; [done| |by eapply parity_same].
    rewrite Hn2, Hn1. by apply blocks_ok_add. }
  split; [done|]. split; [|split; [done|split; [set_solver|simpl; by rewrite Hfr]]].
  intros p Hp. simpl. rewrite Hu2, Hu1; [done|set_solver|].
  assert (p ∉ block a o ∪ freepages B') as Hp' by (rewrite Heq1; set_solver).
  intros [-> | Hh%(head_free _ _ _ Hok1)]; set_solver.
Qed.

End BuddyProof.
