(* ===== verification/BuddyInit.v ===== *)
(** * Bringing up the frame allocator

    [buddy_init] and [allocator_init] (kernel/src/mm/frame_alloc.c) on top of
    the boot-time allocator: the memory map is cut into the largest aligned
    blocks, the blocks go to the free lists, the bitmaps are set to match.
    The result is a consistent allocator whose free frames are exactly the
    available pages of the map, none of them handed out before. *)

From stdpp Require Import gmap sets.
From S2P Require Import Prelude Macros Locking Dll FrameHdr EarlyMem Blocks FrameAlloc BuddyRep BuddyProof.

Module BuddyInit.
Import Macros Locking FrameHdr EarlyMem.EarlyMem Blocks FrameAlloc BuddyRep BuddyProof.

(** ** The order of the next block *)

Lemma even_bit q : tst q 1 = Z.odd q.
Proof.
  unfold tst. change 1 with (Z.ones 1). rewrite Z.land_ones by lia. change (2 ^ 1) with 2.
  rewrite Zmod_odd. by destruct (Z.odd q).
Qed.

Lemma alignment_loop_spec fuel q order :
  0 <= order -> order + Z.of_nat fuel = max_order ->
  let r := get_alignment_order_loop fuel q order in
  order <= r <= max_order /\ (2 ^ (r - order) | q) /\
  forall m, 0 <= m <= max_order - order -> (2 ^ m | q) -> order + m <= r.
Proof.
  revert q order. induction fuel as [|fuel IH]; intros q order Ho Hf; simpl.
  - rewrite Z.sub_diag. split; [lia|]. split; [apply Z.divide_1_l|]. lia.
  - unfold BUDDY_HIGH_ORDER. fold max_order. rewrite even_bit, Z.negb_odd.
    destruct (Z.ltb_spec order max_order); [|lia]. rewrite andb_true_r.
    destruct (Z.even q) eqn:He.
    + rewrite Z.shiftr_div_pow2 by lia. change (2 ^ 1) with 2.
      apply Z.even_spec in He as [w ->]. rewrite (Z.mul_comm 2 w), Z.div_mul by lia.
      destruct (IH w (order + 1)) as (H1 & H2 & H3); [lia|lia|].
      set (r := get_alignment_order_loop fuel w (order + 1)) in *.
      split; [lia|]. split.
      * replace (r - order) with (r - (order + 1) + 1) by lia.
        rewrite Z.pow_add_r by lia. by apply Z.mul_divide_mono_r.
      * intros m Hm Hd. destruct (decide (m = 0)) as [->|]; [lia|].
        assert (order + 1 + (m - 1) <= r); [|lia]. apply H3; [lia|].
        replace m with (m - 1 + 1) in Hd by lia. rewrite Z.pow_add_r in Hd by lia.
        by apply Z.mul_divide_cancel_r in Hd.
    + rewrite Z.sub_diag. split; [lia|]. split; [apply Z.divide_1_l|]. intros m Hm Hd.
      destruct (decide (m = 0)) as [->|]; [lia|]. exfalso.
      assert (2 | q) as [w ->].
      { etrans; [|exact Hd]. apply (pow2_divide 1 m); lia. }
      by rewrite Z.even_mul, orb_true_r in He.
Qed.

Lemma slice_loop_spec fuel size order :
  0 <= order -> order + Z.of_nat fuel = max_order -> 1 <= size ->
  let r := slice_range_loop fuel size order in
  order <= r <= max_order /\ 2 ^ (r - order) <= size /\
  forall m, 0 <= m <= max_order - order -> 2 ^ m <= size -> order + m <= r.
Proof.
  revert size order. induction fuel as [|fuel IH]; intros size order Ho Hf Hs; simpl.
  - rewrite Z.sub_diag. split; [lia|]. split; [done|]. lia.
  - unfold BUDDY_HIGH_ORDER. fold max_order.
    destruct (Z.ltb_spec order max_order); [|lia]. rewrite andb_true_r.
    rewrite Z.shiftr_div_pow2 by lia. change (2 ^ 1) with 2.
    pose proof (Z.div_mod size 2). pose proof (Z.mod_pos_bound size 2).
    assert (0 <= size / 2) by (apply Z.div_pos; lia).
    assert (forall m, 1 <= m -> 2 ^ m = 2 * 2 ^ (m - 1)) as E.
    { intros m Hm. rewrite <- Z.pow_succ_r by lia. f_equal. lia. }
    destruct (Z.eqb_spec (size / 2) 0) as [Hz|Hz]; simpl.
    + rewrite Z.sub_diag. split; [lia|]. split; [lia|]. intros m Hm Hp.
      destruct (decide (m = 0)) as [->|]; [lia|]. rewrite E in Hp by lia.
      pose proof (pow2_pos (m - 1)). lia.
    + destruct (IH (size / 2) (order + 1)) as (L1 & L2 & L3); [lia|lia|lia|].
      set (r := slice_range_loop fuel (size / 2) (order + 1)) in *.
      split; [lia|]. split.
      * rewrite E by lia. replace (r - order - 1) with (r - (order + 1)) by lia. lia.
      * intros m Hm Hp. destruct (decide (m = 0)) as [->|]; [lia|].
        assert (order + 1 + (m - 1) <= r); [|lia]. apply L3; [lia|]. rewrite E in Hp by lia. lia.
Qed.

(** [_slice_range] picks the largest aligned block that fits. *)
Lemma slice_range_spec p q :
  0 <= p < q -> q <= 2 ^ 40 ->
  let k := _slice_range (p * PAGE_SIZE) (q * PAGE_SIZE) in
  0 <= k <= max_order /\ (2 ^ k | p) /\ p + 2 ^ k <= q /\
  forall m, 0 <= m <= max_order -> (2 ^ m | p) -> p + 2 ^ m <= q -> m <= k.
Proof.
  intros Hp Hq. unfold _slice_range, get_alignment_order.
  change 4096 with PAGE_SIZE. rewrite Z.div_mul by (unfold PAGE_SIZE; lia).
  destruct (alignment_loop_spec (Z.to_nat BUDDY_HIGH_ORDER) p 0) as (A1 & A2 & A3); [lia|done|].
  set (ao := get_alignment_order_loop _ p 0) in *. rewrite Z.sub_0_r in *.
  unfold max_order in *. pose proof (pow2_pos ao).
  assert (2 ^ ao <= 2 ^ 10) by (apply Z.pow_le_mono_r; lia).
  rewrite order2size_pow, MIN_min by lia. unfold PAGE_SIZE.
  rewrite (u64_small (2 ^ ao * _)) by lia. rewrite (u64_small (_ + 2 ^ ao * _)) by lia.
  rewrite (u64_small (_ - _)) by lia.
  replace (Z.min (q * 0x1000) (p * 0x1000 + 2 ^ ao * 0x1000) - p * 0x1000)
    with (Z.min (q - p) (2 ^ ao) * 0x1000) by lia.
  rewrite Z.div_mul by lia.
  destruct (slice_loop_spec (Z.to_nat BUDDY_HIGH_ORDER) (Z.min (q - p) (2 ^ ao)) 0)
    as (S1 & S2 & S3); [lia|done|lia|].
  set (k := slice_range_loop _ _ 0) in *. rewrite Z.sub_0_r in *. unfold max_order in *.
  assert (k <= ao) by (apply (Z.pow_le_mono_r_iff 2); lia).
  cbn zeta. split; [lia|]. split; [etrans; [apply (pow2_divide k ao); lia | done]|].
  split; [lia|]. intros m Hm Hd Hle. assert (0 + m <= ao) by (apply A3; [lia|done]).
  assert (2 ^ m <= 2 ^ ao) by (apply Z.pow_le_mono_r; lia).
  assert (0 + m <= k); [|lia]. apply S3; lia.
Qed.

(** ** Cutting a region into blocks *)

Definition span (p q : Z) : gset Z := list_to_set (seqZ p (q - p)).

Lemma elem_span x p q : x ∈ span p q <-> p <= x < q.
Proof. unfold span. rewrite elem_of_list_to_set, elem_of_seqZ. lia. Qed.

Lemma span_split p k q : 0 <= k -> p + 2 ^ k <= q -> span p q = block p k ∪ span (p + 2 ^ k) q.
Proof.
  intros. pose proof (pow2_pos k). apply set_eq. intros x.
  rewrite elem_of_union, elem_block, !elem_span. lia.
Qed.

(** A free block that ends at [p] could not have been larger within [q]. *)
Definition abut (B : gset (Z * Z)) (p q : Z) : Prop :=
  forall k i, (k, i) ∈ B -> i + 2 ^ k = p -> k < max_order -> (2 ^ (k + 1) | i) -> q < i + 2 ^ (k + 1).

Lemma region_coalesced n B p q k :
  blocks_ok n B -> 0 <= k <= max_order -> (2 ^ k | p) -> p + 2 ^ k <= q ->
  (forall m, 0 <= m <= max_order -> (2 ^ m | p) -> p + 2 ^ m <= q -> m <= k) ->
  span p q ## freepages B -> q ∉ freepages B -> coalesced B -> abut B p q ->
  coalesced ({[(k, p)]} ∪ B) /\ abut ({[(k, p)]} ∪ B) (p + 2 ^ k) q /\
  q ∉ freepages ({[(k, p)]} ∪ B).
Proof.
  intros Hok Hk Hp Hle Hmax Hdisj Hq Hco Hab. pose proof (pow2_pos k).
  assert (forall x, p <= x <= q -> x ∉ freepages B) as Hno.
  { intros x Hx. destruct (decide (x = q)) as [->|]; [done|]. intros Hin.
    apply (Hdisj x); [apply elem_span; lia | done]. }
  split; [|split].
  - apply coalesced_add; [lia|done|]. intros Hlt Hin.
    assert (2 ^ (k + 1) = 2 * 2 ^ k) by (rewrite Z.pow_add_r; lia).
    destruct (buddy_facts p k) as (_ & _ & _ & _ & Hal); [lia|done|].
    destruct (pair_cases p k) as [[Hb1 Hb2]|[Hb1 Hb2]]; [lia|done| |]; rewrite Hb2 in Hin.
    + apply (Hno (p + 2 ^ k)); [lia|]. apply (freepages_sub _ _ _ Hin), block_nonempty. lia.
    + specialize (Hab k (p - 2 ^ k) Hin). rewrite Hb1 in Hal. specialize (Hab ltac:(lia) Hlt Hal). lia.
  - intros k' i [?%elem_of_singleton | Hin]%elem_of_union Hend Hlt Hal; simplify_eq.
    + destruct (decide (q < p + 2 ^ (k + 1))); [done|].
      assert (k + 1 <= k); [|lia]. apply Hmax; [lia|done|lia].
    + destruct (blocks_each _ _ Hok _ _ Hin) as [? _ _ _]. pose proof (pow2_pos k').
      destruct (Hno (p + 2 ^ k - 1)); [lia|]. apply (freepages_sub _ _ _ Hin), elem_block. lia.
  - rewrite freepages_add, elem_of_union, elem_block. intros [?|?]; [lia|done].
Qed.

Lemma region_spec fuel p q st B :
  rep st B -> blocks_ok (mm_pages_count st) B -> 0 <= p <= q -> q <= mm_pages_count st ->
  q - p < Z.of_nat fuel -> span p q ## freepages B ->
  returns (buddy_init_region fuel (p * PAGE_SIZE) (q * PAGE_SIZE) st) (fun st' => exists B',
    rep st' B' /\ blocks_ok (mm_pages_count st) B' /\ same st st' /\
    (forall k j, bits st' k j = bits st k j) /\ freepages B' = freepages B ∪ span p q /\
    (coalesced B -> (p < q -> abut B p q /\ q ∉ freepages B) -> coalesced B')).
Proof.
  revert p st B. induction fuel as [|fuel IH]; intros p st B Hrep Hok Hp Hq Hf Hdisj; [lia|].
  simpl. pose proof (rep_count _ _ Hrep) as Hn.
  destruct (Z.ltb_spec (p * PAGE_SIZE) (q * PAGE_SIZE)) as [Hlt|Hge].
  - assert (p < q) as Hpq by (unfold PAGE_SIZE in *; lia).
    destruct (slice_range_spec p q) as (Hk & Ha & Hle & Hmax); [lia|lia|].
    set (k := _slice_range _ _) in *. pose proof (pow2_pos k).
    unfold phys2page. rewrite Z.div_mul by (unfold PAGE_SIZE; lia).
    assert (p ∉ freepages B) as Hpf by (intros Hin; apply (Hdisj p); [apply elem_span; lia | done]).
    mcall (list_link_at_spec st B p k Hrep Hk ltac:(lia) ltac:(by eapply not_head)).
    intros st1 (Hrep1 & Hs1 & Hb1 & _). pose proof (same_count _ _ Hs1) as Hn1.
    unfold max_order in Hk. rewrite order2size_pow by lia.
    assert (2 ^ k <= 2 ^ 10) by (apply Z.pow_le_mono_r; lia).
    rewrite (u64_small (2 ^ k * _)), u64_small by (unfold PAGE_SIZE; lia).
    replace (p * PAGE_SIZE + 2 ^ k * PAGE_SIZE) with ((p + 2 ^ k) * PAGE_SIZE) by lia.
    rewrite (span_split p k q) in Hdisj by lia.
    eapply returns_mono; [apply (IH (p + 2 ^ k) st1 _ Hrep1)|]; rewrite ?Hn1; [|lia|lia|lia| |].
    + apply blocks_ok_add; [done|split; (done || lia)|clear -Hdisj; set_solver].
    + rewrite freepages_add. intros x. rewrite elem_of_union, elem_span, elem_block.
      intros Hx [?|Hx']; [lia|]. apply (Hdisj x); [|done]. rewrite elem_of_union, elem_span. lia.
    + intros st2 (B' & Hrep2 & Hok2 & Hs2 & Hb2 & Hfp & Hco). exists B'. split; [done|]. split; [done|].
      split; [by etrans|]. split; [intros; by rewrite Hb2|].
      split; [rewrite Hfp, freepages_add, (span_split p k q) by lia; clear; set_solver|].
      intros Hc Habq. destruct (Habq Hpq) as [Hab Hqf]. rewrite <- (span_split p k q) in Hdisj by lia.
      destruct (region_coalesced _ B p q k Hok) as (? & ? & ?); (done || auto).
  - assert (p = q) as -> by (unfold PAGE_SIZE in *; lia). simpl. exists B.
    do 4 (split; [done|]). split; [|done].
    apply set_eq. intros x. rewrite elem_of_union, elem_span. intuition lia.
Qed.

(** ** All regions of the memory map *)

Section Regions.
Context `{Limine}.

Lemma avail_app es es' a : avail (es ++ es') a <-> avail es a \/ avail es' a.
Proof. unfold avail. setoid_rewrite elem_of_app. naive_solver. Qed.

Lemma map_ok_apart es e es' e' :
  map_ok (es ++ e :: es') -> e' ∈ es -> usable e' -> usable e -> apart e' e.
Proof.
  induction es as [|x es IH]; simpl; [set_solver|].
  intros (_ & Hap & Hok) [-> | Hin]%elem_of_cons Hu Hu'; [|auto].
  rewrite Forall_forall in Hap. apply Hap; [set_solver|done|done].
Qed.

(** Usable entries start and end on page boundaries, within [n] pages. *)
Definition paged (n : Z) (es : list memmap_entry) : Prop :=
  Forall (fun e => usable e -> (PAGE_SIZE | ent_start e) /\ (PAGE_SIZE | ent_end e) /\ ent_end e <= n * PAGE_SIZE) es.

(** No usable entry ends where another one starts. *)
Definition gaps (es : list memmap_entry) : Prop :=
  forall e e', e ∈ es -> e' ∈ es -> usable e -> usable e' ->
  ent_start e < ent_end e -> ent_start e' < ent_end e' -> ent_end e <> ent_start e'.

Lemma avail_one e p q x :
  usable e -> ent_start e = p * PAGE_SIZE -> ent_end e = q * PAGE_SIZE ->
  avail [e] (x * PAGE_SIZE) <-> p <= x < q.
Proof.
  intros Hu Hs He. unfold avail. split.
  - intros (e' & ->%list_elem_of_singleton & _ & Hx). rewrite Hs, He in Hx. unfold PAGE_SIZE in *. lia.
  - intros Hx. exists e. split; [by apply list_elem_of_singleton|]. split; [done|].
    rewrite Hs, He. unfold PAGE_SIZE. lia.
Qed.

Lemma gaps_region n done e es B p q :
  gaps (done ++ e :: es) -> map_ok (done ++ e :: es) -> paged n (done ++ e :: es) -> usable e ->
  ent_start e = p * PAGE_SIZE -> ent_end e = q * PAGE_SIZE -> 0 <= p < q ->
  blocks_ok n B -> (forall x, x ∈ freepages B <-> avail done (x * PAGE_SIZE)) ->
  abut B p q /\ q ∉ freepages B.
Proof.
  intros Hg Hok Hpg Hu Hs He Hpq HB HF.
  assert (forall x e', e' ∈ done -> usable e' -> ent_start e' <= x * PAGE_SIZE < ent_end e' ->
            x <> p - 1 /\ x <> q) as Hno.
  { intros x e' Hin Hu' Hx. pose proof (map_ok_apart _ _ _ _ Hok Hin Hu' Hu) as Hap.
    pose proof (Hg e' e ltac:(set_solver) ltac:(set_solver) Hu' Hu ltac:(lia)) as G1.
    pose proof (Hg e e' ltac:(set_solver) ltac:(set_solver) Hu Hu') as G2.
    unfold paged in Hpg. rewrite Forall_forall in Hpg.
    destruct (Hpg e' ltac:(set_solver) Hu') as ([s Hs'] & [t Ht'] & _).
    unfold apart in Hap. rewrite Hs, He, Hs', Ht' in *. unfold PAGE_SIZE in *. lia. }
  split.
  - intros k i Hin Hend Hlt _. exfalso. pose proof (blocks_each _ _ HB _ _ Hin) as [Hk _ _ _].
    pose proof (pow2_pos k).
    assert (p - 1 ∈ freepages B) as (e' & He' & Hu' & Hx)%HF
      by (apply (freepages_sub _ _ _ Hin), elem_block; lia).
    destruct (Hno (p - 1) e'); done.
  - intros (e' & He' & Hu' & Hx)%HF. destruct (Hno q e'); done.
Qed.

Lemma link_spec es done st B :
  rep st B -> blocks_ok (mm_pages_count st) B -> map_ok (done ++ es) ->
  paged (mm_pages_count st) (done ++ es) ->
  (forall x, x ∈ freepages B <-> avail done (x * PAGE_SIZE)) ->
  returns (buddy_init_link es st) (fun st' => exists B',
    rep st' B' /\ blocks_ok (mm_pages_count st) B' /\ same st st' /\
    (forall k j, bits st' k j = bits st k j) /\
    (forall x, x ∈ freepages B' <-> avail (done ++ es) (x * PAGE_SIZE)) /\
    (coalesced B -> gaps (done ++ es) -> coalesced B')).
Proof.
  revert done st B. induction es as [|e es IH]; intros done st B Hrep Hok Hmap Hpg HF; simpl.
  { exists B. rewrite app_nil_r. done. }
  assert (e ∈ done ++ e :: es) as Hin by (clear; set_solver).
  pose proof (map_ok_ent _ _ Hmap Hin) as (He0 & He1 & He2).
  destruct (ent_type e =? LIMINE_MEMMAP_USABLE) eqn:Hu.
  - apply usable_eqb in Hu. pose proof Hpg as Hpg'. unfold paged in Hpg'. rewrite Forall_forall in Hpg'.
    destruct (Hpg' e Hin Hu) as ([p Hp] & [q Hq] & Hqn).
    assert (0 <= p <= q) as Hpq by (unfold ent_end, PAGE_SIZE in *; lia).
    assert (q <= mm_pages_count st) as Hqc by (unfold PAGE_SIZE in *; lia).
    assert (ent_start e +! ent_length e = q * PAGE_SIZE) as E1.
    { rewrite u64_small; unfold ent_end in *; lia. }
    assert (ent_length e / PAGE_SIZE = q - p) as E2.
    { replace (ent_length e) with ((q - p) * PAGE_SIZE) by (unfold ent_end in *; lia).
      apply Z.div_mul. unfold PAGE_SIZE. lia. }
    rewrite E1, E2, Hp.
    assert (span p q ## freepages B) as Hdisj.
    { intros x Hx%elem_span (e' & He' & Hu' & Hx')%HF.
      pose proof (map_ok_apart _ _ _ _ Hmap He' Hu' Hu) as Hap. unfold apart in Hap.
      rewrite Hp, Hq in Hap. unfold PAGE_SIZE in *. lia. }
    mcall (region_spec (S (Z.to_nat (q - p))) p q st B Hrep Hok Hpq Hqc ltac:(lia) Hdisj).
    intros st1 (B1 & Hrep1 & Hok1 & Hs1 & Hb1 & Hfp1 & Hco1).
    pose proof (same_count _ _ Hs1) as Hn1.
    eapply returns_mono; [apply (IH (done ++ [e]) st1 B1 Hrep1); rewrite ?Hn1, <- ?(assoc_L (++)); try done|].
    { intros x. rewrite Hfp1, elem_of_union, avail_app, HF, elem_span, (avail_one e p q) by done. done. }
    intros st2 (B2 & Hrep2 & Hok2 & Hs2 & Hb2 & HF2 & Hco2). exists B2.
    rewrite Hn1, <- (assoc_L (++)) in *. split; [done|]. split; [done|].
    split; [by etrans|]. split; [intros; by rewrite Hb2|]. split; [done|].
    intros Hc Hg. apply Hco2; [|done]. apply Hco1; [done|]. intros Hlt.
    eapply (gaps_region _ done e es B p q); try done. lia.
  - simpl. eapply returns_mono; [apply (IH (done ++ [e]) st B Hrep); rewrite <- ?(assoc_L (++)); try done|].
    { intros x. rewrite HF, avail_app. split; [by left|]. intros [?|Hx]; [done|].
      destruct Hx as (e' & ->%list_elem_of_singleton & Hu' & _). apply usable_eqb in Hu'. congruence. }
    intros st2 (B2 & Hrep2). exists B2. by rewrite <- (assoc_L (++)) in Hrep2.
Qed.

End Regions.

(** ** Setting the bitmaps *)

Definition at_order (k : Z) (l : list Z) : gset (Z * Z) := list_to_set ((fun i => (k, i)) <$> l).

Lemma elem_at_order k l x : x ∈ at_order k l <-> x.1 = k /\ x.2 ∈ l.
Proof.
  unfold at_order. rewrite elem_of_list_to_set, list_elem_of_fmap. destruct x as [k' i]. simpl. split.
  - intros (y & [= -> ->] & ?). done.
  - intros [-> ?]. eauto.
Qed.

(** Walking a free list: each block's bit is flipped once. *)
Lemma flip_spec fuel l curr p k st B S :
  rep st B -> blocks_ok (mm_pages_count st) B -> 0 <= k <= max_order -> parity st S ->
  Dll.dseg (mm_pages st) p curr NULL l -> NoDup l ->
  (forall i, i ∈ l -> (k, i) ∈ B /\ (k, i) ∉ S) -> (length l < fuel)%nat ->
  returns (buddy_init_flip fuel curr k st) (fun st' =>
    rep st' B /\ same st st' /\ mm_pages st' = mm_pages st /\ parity st' (at_order k l ∪ S)).
Proof.
  revert l curr p st S. induction fuel as [|fuel IH]; intros l curr p st S Hrep Hok Hk Hpar Hd Hnd Hin Hf; [lia|].
  simpl. destruct l as [|i l]; simpl in Hd.
  - subst curr. simpl. do 3 (split; [done|]).
    replace (at_order k [] ∪ S) with S; [done|]. unfold at_order. simpl. set_solver.
  - destruct Hd as (-> & x & Hx & _ & Hd). apply NoDup_cons in Hnd as [Hil Hnd]. simpl.
    destruct (Hin i) as [HiB HiS]; [left|]. pose proof (blocks_each _ _ Hok _ _ HiB) as [_ Hi0 Hin0 Hia].
    pose proof (pow2_pos k).
    mpure (page2idx_ret (mm_pages_count st) i ltac:(lia)).
    mcall (order_flip_at_spec st B i k Hrep Hk ltac:(lia)).
    intros st1 (Hrep1 & Hs1 & Hp1 & Hb1). pose proof (same_count _ _ Hs1) as Hn1.
    rewrite Hp1. mpure (Dll.deref_some _ _ _ Hx). rewrite <- Hp1 in Hd.
    assert (parity st1 ({[(k, i)]} ∪ S)) as Hpar1.
    { eapply (parity_toggle st st1 S _ k i); try done; [lia|clear; set_solver|clear -HiS; set_solver]. }
    eapply returns_mono; [eapply (IH l _ _ st1 _ Hrep1); [by rewrite Hn1|done|done|done|done| |simpl in Hf; lia]|].
    + intros j Hj. destruct (Hin j) as [? Hj']; [by right|]. split; [done|]. clear -Hj Hj' Hil. set_solver.
    + intros st2 (? & ? & Hp2 & Hpar2). split; [done|]. split; [by etrans|].
      split; [by rewrite Hp2|].
      replace (at_order k (i :: l) ∪ S) with (at_order k l ∪ ({[(k, i)]} ∪ S)); [done|].
      unfold at_order. rewrite fmap_cons. simpl. clear. set_solver.
Qed.

Definition below (o : Z) (B : gset (Z * Z)) : gset (Z * Z) := filter (fun x => x.1 < o) B.

Lemma flips_spec fuel o st B :
  rep st B -> blocks_ok (mm_pages_count st) B -> 0 <= o -> o + Z.of_nat fuel = max_order + 1 ->
  parity st (below o B) ->
  returns (buddy_init_flips fuel o st) (fun st' => rep st' B /\ same st st' /\ parity st' B).
Proof.
  revert o st. induction fuel as [|fuel IH]; intros o st Hrep Hok Ho Hf Hpar; cbn [buddy_init_flips].
  - split; [done|]. split; [done|]. replace (below o B) with B in Hpar; [done|].
    apply set_eq. intros [k i]. unfold below. rewrite elem_of_filter. simpl. split; [|tauto].
    intros Hin. split; [|done]. destruct (blocks_each _ _ Hok _ _ Hin). lia.
  - assert (0 <= o <= max_order) as Ho' by lia.
    destruct (rep_zones _ _ Hrep o Ho') as (z & l & Hz & [Hd Hnd] & Hl & _).
    unfold zone_at. rewrite Hz. mstep. apply returns_ret. mstep. eapply returns_mono.
    { eapply (flip_spec _ l _ _ o st B (below o B)); try done.
      - intros i Hi. split; [by apply Hl|]. unfold below. rewrite elem_of_filter. simpl. lia.
      - assert (length l <= Z.to_nat (mm_pages_count st))%nat; [|lia].
        apply list_length_bound; [done|]. intros i Hi%Hl.
        destruct (blocks_each _ _ Hok _ _ Hi). pose proof (pow2_pos o). lia. }
    intros st1 (Hrep1 & Hs1 & _ & Hpar1). pose proof (same_count _ _ Hs1) as Hn1.
    eapply returns_mono; [apply (IH (o + 1) st1 Hrep1); [by rewrite Hn1|lia|lia|]|].
    + replace (below (o + 1) B) with (at_order o l ∪ below o B); [done|].
      apply set_eq. intros [k i]. unfold below. rewrite elem_of_union, elem_at_order, !elem_of_filter. simpl.
      rewrite Hl. split; [intros [[-> ?]|[? ?]]; (split; [lia|done])|].
      intros [? ?]. destruct (decide (k = o)) as [->|]; [by left|right; split; [lia|done]].
    + intros st2 (? & ? & ?). split; [done|]. split; [by etrans|done].
Qed.

Section Init.
Context `{Limine}.

(** ** Allocating the bitmaps *)

Lemma zeroed_lookup {A} (x : A) n i : zeroed x n !! i = if decide (0 <= i < n) then Some x else None.
Proof.
  unfold zeroed. rewrite lookup_gset_to_gmap. destruct (decide (0 <= i < n)).
  - rewrite option_guard_True; [done|]. rewrite elem_of_list_to_set, elem_of_seqZ. lia.
  - rewrite option_guard_False; [done|]. rewrite elem_of_list_to_set, elem_of_seqZ. lia.
Qed.

(** Empty free lists, and zeroed bitmaps for the orders below [o]. *)
Definition blank (o : Z) (st : mm) : Prop :=
  forall k, 0 <= k <= max_order -> exists z, mm_orders st !! k = Some z /\ z_list z = NULL /\
  (k < o -> z_bitmap z = zeroed 0 (mm_total st / 2 ^ k + 1)).

Lemma bitmaps_spec fuel o boot cpy e st r :
  em_inv boot cpy e -> em_allocations e + Z.of_nat fuel <= early_mem_max_allocations ->
  0 <= mm_total st <= 2 ^ 40 -> 0 <= o -> o + Z.of_nat fuel = max_order + 1 -> blank o st ->
  room (Z.of_nat fuel * (mm_total st + 1) + r) e -> 0 <= r ->
  returns (buddy_init_bitmaps fuel o e st) (fun '(e', st') => exists orders ms,
    em_inv boot cpy e' /\ st' = set_orders orders st /\ blank (max_order + 1) st' /\
    em_total_pages_usable e' = em_total_pages_usable e /\
    held cpy e' = held cpy e ++ ms /\ length ms = fuel).
Proof.
  revert o e st. induction fuel as [|fuel IH]; intros o e st Hinv Ha Hn Ho Hf Hbl Hroom Hr.
  { simpl. exists (mm_orders st), []. rewrite app_nil_r. split; [done|]. split; [by destruct st|].
    split; [|done]. replace (max_order + 1) with o by (simpl in Hf; lia). done. }
  cbn [buddy_init_bitmaps]. unfold max_order in *. pose proof (pow2_pos o).
  assert (0 <= mm_total st / 2 ^ o <= mm_total st) as Hd.
  { split; [apply Z.div_pos; lia|]. apply Z.div_le_upper_bound; nia. }
  rewrite order2size_pow, Z.div_1_r, u64_small by lia. set (sz := mm_total st / 2 ^ o + 1) in *.
  mcall (early_mem_alloc_spec boot cpy e sz Hinv); [lia|lia| |].
  { destruct Hroom as (x & ? & ? & ?). exists x. split; [done|]. split; [done|nia]. }
  intros [p e1] (start & _ & Hinv1 & Hheld1 & Hroom1 & _ & Hu1 & _ & Ha1 & _).
  destruct (Hbl o) as (z & Hz & Hzl & _); [unfold max_order; lia|]. unfold zone_at. rewrite Hz.
  mstep. apply returns_ret. set (st1 := set_orders _ st).
  assert (blank (o + 1) st1) as Hbl1.
  { intros k Hk. subst st1. simpl. destruct (decide (k = o)) as [->|Hne].
    - rewrite lookup_insert_eq. eexists. split; [done|]. done.
    - rewrite lookup_insert_ne by done. destruct (Hbl k Hk) as (z' & ? & ? & Hz'). exists z'.
      split; [done|]. split; [done|]. intros. apply Hz'. lia. }
  eapply returns_mono; [apply (IH (o + 1) e1 st1 Hinv1)|]; try done; try lia.
  { apply Hroom1. destruct Hroom as (x & ? & ? & ?). exists x. split; [done|]. split; [done|]. simpl. nia. }
  intros [e2 st2] (orders & ms & ? & -> & ? & ? & Hheld2 & Hlen). eexists _, (_ :: ms).
  split; [done|]. split; [reflexivity|]. split; [done|]. split; [congruence|].
  split; [|simpl; by rewrite Hlen]. rewrite Hheld2, Hheld1, <- (assoc_L (++)). done.
Qed.

(** Fresh lists and bitmaps represent the empty set of free blocks. *)
Lemma blank_rep st :
  blank (max_order + 1) st -> mm_pages_count st = mm_total st -> 0 <= mm_total st <= 2 ^ 40 ->
  mm_pages st = zeroed zero_page (mm_total st) -> consistent st ∅.
Proof.
  intros Hbl Hc Hn Hp. split; [split|split|].
  - lia.
  - intros i. rewrite Hp, zeroed_lookup, Hc. destruct (decide _); split; (done || eauto || intros []; done).
  - intros k Hk. destruct (Hbl k Hk) as (z & Hz & Hzl & Hzb). exists z, [].
    split; [done|]. split; [rewrite Hzl; split; [done|apply NoDup_nil_2]|]. split; [set_solver|].
    rewrite Hc. intros x Hx. rewrite Hzb, zeroed_lookup, decide_True by lia. eauto.
  - set_solver.
  - set_solver.
  - set_solver.
  - intros k i Hk _ _. rewrite !bool_decide_eq_false_2 by set_solver. unfold bits.
    destruct (Hbl k ltac:(lia)) as (z & -> & _ & Hzb). unfold bm_bit.
    rewrite Hzb, zeroed_lookup by lia.
    destruct (decide _); [apply Z.bits_0|done].
Qed.

(** ** Shrinking keeps regions apart *)

Lemma map_ok_lookup es i j x y :
  map_ok es -> es !! i = Some x -> es !! j = Some y -> i <> j -> usable x -> usable y -> apart x y.
Proof.
  intros Hok. revert i j. induction es as [|e es IH]; intros i j Hi Hj Hne Hx Hy; [done|].
  pose proof Hok as (_ & Hap & Hrest). rewrite Forall_forall in Hap.
  destruct i as [|i], j as [|j]; simplify_eq/=.
  - apply (Hap y); eauto using list_elem_of_lookup_2.
  - assert (apart y x) as [?|?] by (apply (Hap x); eauto using list_elem_of_lookup_2); [right|left]; done.
  - eapply (IH Hrest i j); eauto.
Qed.

Lemma gaps_shrink es es' : map_ok es -> Forall2 shrink es es' -> gaps es -> gaps es'.
Proof.
  intros Hok Hsh Hg e e' [i Hi]%list_elem_of_lookup [j Hj]%list_elem_of_lookup Hu Hu' Hne Hne' Heq.
  destruct (Forall2_lookup_r _ _ _ _ _ Hsh Hi) as (x & Hx & Ht & Hs & _ & Hend).
  destruct (Forall2_lookup_r _ _ _ _ _ Hsh Hj) as (y & Hy & Ht' & Hs' & _ & Hend').
  destruct (decide (i = j)) as [->|Hij]; [simplify_eq; lia|].
  assert (usable x) by (unfold usable in *; congruence).
  assert (usable y) by (unfold usable in *; congruence).
  destruct (map_ok_lookup _ _ _ _ _ Hok Hx Hy Hij) as [?|?]; [done|done| |lia].
  apply (Hg x y); eauto using list_elem_of_lookup_2; lia.
Qed.

(** ** [buddy_init] and [allocator_init] *)

Lemma avail_end es a n :
  avail es a -> (forall e, e ∈ es -> usable e -> ent_end e <= n) -> a < n.
Proof. intros (e & He & Hu & ?) Hb. specialize (Hb e He Hu). lia. Qed.

(** Regions of the final map: whole pages within the [n] pages of memory. *)
Lemma final_paged boot cpy e n :
  em_inv boot cpy e -> Forall (fun x => usable x -> (PAGE_SIZE | ent_start x)) (em_memmap e) ->
  (forall x, x ∈ boot -> usable x -> ent_end x <= n * PAGE_SIZE) -> paged n (em_memmap e).
Proof.
  intros [] Hst Hb. unfold paged, ends_aligned in *. rewrite Forall_forall in *.
  intros x Hx Hu. split; [auto|]. split; [auto|].
  apply list_elem_of_lookup in Hx as [i Hi].
  destruct (Forall2_lookup_r _ _ _ _ _ inv_shrink0 Hi) as (y & Hy & Ht & _ & _ & ->).
  apply Hb; [by eapply list_elem_of_lookup_2|]. unfold usable in *. congruence.
Qed.

Lemma buddy_init_spec boot cpy e st :
  em_inv boot cpy e -> map_ok boot -> (PAGE_SIZE | usable_bytes boot) ->
  (forall x, x ∈ boot -> usable x -> ent_end x <= mm_total st * PAGE_SIZE) ->
  em_allocations e + 11 <= early_mem_max_allocations -> room (11 * (mm_total st + 1)) e ->
  blank 0 st -> mm_pages_count st = mm_total st -> 0 <= mm_total st <= 2 ^ 40 ->
  mm_pages st = zeroed zero_page (mm_total st) -> unlocked (mm_lock st) ->
  returns (buddy_init e st) (fun '(e', st') => exists B ms,
    em_inv boot cpy e' /\ held cpy e' = held cpy e ++ ms /\ length ms = 11%nat /\
    inv st' B /\ mm_pages_count st' = mm_total st /\ mm_IF st' = mm_IF st /\
    (forall x, x ∈ freepages B <-> avail (em_memmap e') (x * PAGE_SIZE)) /\
    (gaps boot -> coalesced B)).
Proof.
  intros Hinv Hmap Hdiv Hbound Hal Hroom Hbl Hc Hn Hp Hl. unfold buddy_init.
  rewrite <- (Z.add_0_r (11 * _)) in Hroom.
  mcall (bitmaps_spec (Z.to_nat (BUDDY_HIGH_ORDER + 1)) 0 boot cpy e st 0 Hinv Hal Hn);
    [lia|done|done|done|lia|].
  intros [e1 st1] (orders & ms & Hinv1 & -> & Hbl1 & Hu1 & Hheld1 & Hlen).
  mpure (early_mem_statistics_ret _ _ _ Hinv1).
  mcall (early_mem_exit_spec _ _ _ Hinv1 Hdiv).
  intros [b e2] (Hinv2 & Hheld2 & _ & _ & _ & _ & Hst2 & _).
  mpure (early_mem_statistics_ret _ _ _ Hinv2).
  set (st2 := set_stats _ _ _). assert (consistent st2 ∅) as [Hrep Hok Hpar].
  { by apply (consistent_fields (set_orders orders st)); [apply blank_rep|..]. }
  mcall (link_spec (em_memmap e2) [] st2 ∅ Hrep Hok); [apply (inv_map _ _ _ Hinv2)| | |].
  { eapply final_paged; [done|done|]. simpl. by rewrite Hc. }
  { intros x. unfold avail. rewrite elem_freepages. split; [|by intros (? & ?%not_elem_of_nil & _)].
    by intros (k & i & ?%not_elem_of_empty & _). }
  intros st3 (B & Hrep3 & Hok3 & Hs3 & Hb3 & HF & Hco). pose proof (same_count _ _ Hs3) as Hn3.
  mcall (flips_spec (Z.to_nat (BUDDY_HIGH_ORDER + 1)) 0 st3 B Hrep3); [by rewrite Hn3|lia|done| |].
  { replace (below 0 B) with (∅ : gset (Z * Z)); [by eapply parity_same|].
    apply set_eq. intros [k i]. unfold below. rewrite elem_of_filter, elem_of_empty. simpl.
    split; [done|]. intros [? Hin]. destruct (blocks_each _ _ Hok3 _ _ Hin). lia. }
  intros st4 (Hrep4 & Hs4 & Hpar4). simpl. exists B, ms.
  assert (same st2 st4) as (Hn4 & _ & _ & _ & HIF & Hlk & _) by (by etrans).
  split; [done|]. split; [by rewrite Hheld2|]. split; [done|].
  split; [split; [by unfold unlocked; rewrite Hlk|]; split; [done|by rewrite Hn4|done]|].
  split; [by rewrite Hn4|]. split; [done|]. split; [done|].
  intros Hg. apply Hco; [intros ? ?; set_solver|]. simpl. eapply gaps_shrink; [done| |done].
  apply (inv_shrink _ _ _ Hinv2).
Qed.

End Init.
End BuddyInit.
