(* ===== verification/BuddyTheorems.v ===== *)
(** * Theorems about the frame allocator

    The statements the rest of the kernel relies on: what
    [allocator_init], [buddy_alloc] and [buddy_free]
    (kernel/src/mm/frame_alloc.c) promise, one operation at a time and for any
    sequence of operations of their clients. *)

From stdpp Require Import gmap sets.
From S2P Require Import Prelude Macros Locking Dll FrameHdr EarlyMem Blocks FrameAlloc BuddyRep BuddyProof BuddyInit.

Module BuddyTheorems.
Import Macros Locking FrameHdr EarlyMem.EarlyMem Blocks FrameAlloc BuddyRep BuddyProof BuddyInit.

(** ** Bring-up *)

Section Init.
Context `{Limine}.

(** Bytes the early allocations of [allocator_init] need in one region. *)
Definition boot_need (entries : list limine_memmap_entry) : Z :=
  Z.of_nat (length entries) * sizeof_memmap_entry + boot_total entries * sizeof_page +
  11 * (boot_total entries + 1).

Lemma boot_end entries x :
  boot_ok entries -> x ∈ boot_map entries -> usable x -> ent_end x <= boot_total entries * PAGE_SIZE.
Proof.
  intros (Hok & Hends & _) Hx Hu. destruct (boot_high_ge entries 0 Hok) as [_ Hh]; [lia|].
  specialize (Hh x Hx). unfold ends_aligned in Hends. rewrite Forall_forall in Hends.
  destruct (Hends x Hx Hu) as [q Hq]. rewrite Hq in *. unfold boot_total.
  apply Z.mul_le_mono_nonneg_r; [unfold PAGE_SIZE; lia|].
  apply Z.div_le_lower_bound; [unfold PAGE_SIZE; lia|]. lia.
Qed.

Lemma allocator_init_spec entries offset IF :
  boot_ok entries -> (exists x, x ∈ boot_map entries /\ usable x /\ boot_need entries <= ent_length x) ->
  returns (allocator_init (Some entries) (Some offset) IF) (fun '(e, st) => exists cpy B,
    em_inv (boot_map entries) cpy e /\ length (held cpy e) = 13%nat /\
    inv st B /\ mm_pages_count st = boot_total entries /\ mm_IF st = IF /\
    (forall x, x ∈ freepages B <-> avail (em_memmap e) (x * PAGE_SIZE)) /\
    (gaps (boot_map entries) -> coalesced B)).
Proof.
  intros Hboot Hneed. unfold allocator_init. pose proof (boot_total_range _ Hboot) as Hn.
  mcall (early_mem_init_spec entries offset (11 * (boot_total entries + 1)) Hboot); [lia|done|].
  intros [[total pages] e] (-> & _ & Hu & Ha & _ & Hroom & cpy & start & _ & _ & Hheld & Hinv).
  mpure (early_mem_statistics_ret _ _ _ Hinv).
  eapply returns_mono; [apply (buddy_init_spec _ _ _ _ Hinv)|].
  - apply Hboot.
  - destruct Hboot as (_ & Hends & Hst & _). by apply usable_bytes_aligned.
  - intros x Hx Hux. by apply boot_end.
  - rewrite Ha, max_allocations. lia.
  - done.
  - intros k Hk. exists (mk_zone ∅ NULL). split; [|split; [done|lia]]. unfold bss_mm. cbn [mm_orders].
    rewrite lookup_gset_to_gmap, option_guard_True; [done|].
    rewrite elem_of_list_to_set, elem_of_seqZ. unfold BUDDY_HIGH_ORDER, max_order in *. lia.
  - done.
  - done.
  - done.
  - done.
  - intros [e' st'] (B & ms & Hinv' & Hheld' & Hlen & Hst). exists cpy, B.
    split; [done|]. split; [by rewrite Hheld', Hheld, length_app, Hlen|]. done.
Qed.

(** C4: after [allocator_init] on a memory map as the boot protocol promises
    it, with one region large enough for the allocator's own data, the frame
    allocator is consistent and unlocked, its free frames are exactly the
    pages of the remaining memory map, none of them overlaps the page array,
    the bitmaps or the copy of the map, and if no two usable regions touch the
    free blocks are as large as possible. *)
Theorem allocator_init_correct entries offset IF :
  boot_ok entries -> (exists x, x ∈ boot_map entries /\ usable x /\ boot_need entries <= ent_length x) ->
  returns (allocator_init (Some entries) (Some offset) IF) (fun '(e, st) => exists cpy B,
    inv st B /\ mm_pages_count st = boot_total entries /\ mm_IF st = IF /\
    (forall x, x ∈ freepages B <-> avail (em_memmap e) (x * PAGE_SIZE)) /\
    (length (held cpy e) = 13%nat /\
     forall m a, m ∈ held cpy e -> region m a -> a / PAGE_SIZE ∉ freepages B) /\
    (gaps (boot_map entries) -> coalesced B)).
Proof.
  intros Hboot Hneed. eapply returns_mono; [by apply allocator_init_spec|].
  intros [e st] (cpy & B & Hem & Hlen & Hinv & Hn & HIF & HF & Hco). exists cpy, B.
  do 4 (split; [done|]). split; [|done]. split; [done|].
  intros m a Hm Hr Hin%HF. destruct (inv_held _ _ _ Hem m a Hm Hr) as [_ []].
  apply avail_page; [apply (inv_ends _ _ _ Hem)|]. by rewrite Z.mul_comm.
Qed.

End Init.

(** ** One operation *)

(** C2: an allocation never panics or faults, gives back the lock and the
    interrupt flag, and either returns the first page of an aligned run of
    [2^k] frames that were free and now are not, charging [2^k] pages to the
    free counter, or returns [NULL] with the free blocks unchanged.  No
    [struct page] of a frame in use changes. *)
Theorem buddy_alloc_correct st B k :
  inv st B -> 0 <= k <= BUDDY_HIGH_ORDER ->
  returns (buddy_alloc k st) (fun '(pg, st') => exists B',
    inv st' B' /\ kept st st' /\ (forall p, p ∉ freepages B -> mm_pages st' !! p = mm_pages st !! p) /\
    ((pg = NULL /\ B' = B /\ mm_free st' = mm_free st) \/
     (exists a, pg = Ref a /\ (2 ^ k | a) /\ block a k ⊆ freepages B /\
        freepages B' = freepages B ∖ block a k /\ mm_free st' = mm_free st -! 2 ^ k))).
Proof.
  intros Hinv Hk. eapply returns_mono; [by apply buddy_alloc_spec|].
  intros [pg st'] (B' & ? & ? & Hu & _ & Hcase). exists B'. split; [done|]. split; [done|].
  split; [done|]. destruct Hcase as [(-> & -> & ? & _)|(a & -> & [] & ? & ? & ?)]; [by left|].
  right. by exists a.
Qed.

(** C3: freeing an aligned block of frames that are in use never panics or
    faults, gives back the lock and the interrupt flag, adds exactly those
    frames to the free ones and credits them to the free counter; no
    [struct page] of any other frame in use changes, and where no two buddies
    were free side by side before, none are afterwards: the block is merged
    with its buddy for as long as the buddy is free. *)
Theorem buddy_free_correct st B k i :
  inv st B -> block_ok (mm_pages_count st) k i -> block i k ## freepages B ->
  returns (buddy_free (Ref i) k st) (fun st' => exists B',
    inv st' B' /\ kept st st' /\
    (forall p, p ∉ freepages B ∪ block i k -> mm_pages st' !! p = mm_pages st !! p) /\
    (coalesced B -> coalesced B') /\
    freepages B' = freepages B ∪ block i k /\ mm_free st' = mm_free st +! 2 ^ k).
Proof.
  intros Hinv Hbk Hdisj. eapply returns_mono; [by apply buddy_free_spec|].
  intros st' (B' & ? & ? & ? & ? & ?). by exists B'.
Qed.

(** C5: while the free blocks are fully merged, an allocation of order [k]
    succeeds whenever some aligned run of [2^k] frames is free. *)
Theorem buddy_alloc_complete st B k i :
  inv st B -> coalesced B -> 0 <= k <= BUDDY_HIGH_ORDER -> (2 ^ k | i) -> block i k ⊆ freepages B ->
  returns (buddy_alloc k st) (fun '(pg, _) => exists a, pg = Ref a).
Proof.
  intros Hinv Hco Hk Ha Hfree. eapply returns_mono; [by apply buddy_alloc_spec|].
  intros [pg st'] (B' & _ & _ & _ & _ & [(_ & _ & _ & Hno)|(a & -> & _)]); [|by exists a].
  destruct Hinv as [_ [_ Hok _]].
  destruct (coalesced_cover _ B k i Hok Hco Hk Ha Hfree) as (k' & i' & Hle & Hin & _).
  by destruct (Hno k' i' Hle).
Qed.

(** freeing what was just allocated restores the very same set of free
    blocks and the free counter: the merge loop undoes the split loop. *)
Theorem buddy_alloc_free_roundtrip st B k :
  inv st B -> coalesced B -> 0 <= k <= BUDDY_HIGH_ORDER -> 0 <= mm_free st < 2 ^ 64 ->
  returns ('(pg, st1) ← buddy_alloc k st;
           if nonnull pg then buddy_free pg k st1 else Ret st1)
    (fun st' => inv st' B /\ mm_free st' = mm_free st).
Proof.
  intros Hinv Hco Hk Hfree. mcall (buddy_alloc_spec st B k Hinv Hk).
  intros [pg st1] (B1 & Hinv1 & Hk1 & _ & Hco1 & Hcase). pose proof Hk1 as (Hn1 & _).
  destruct Hcase as [(-> & -> & ? & _)|(a & -> & Hbk & Hsub & Hfp & Hf1)]; [done|]. simpl.
  eapply returns_mono; [apply (buddy_free_spec st1 B1 k a Hinv1)|].
  - by rewrite Hn1.
  - rewrite Hfp. set_solver.
  - intros st2 (B2 & Hinv2 & (Hn2 & _) & _ & Hco2 & Hfp2 & Hf2). simpl in *. split.
    + replace B with B2; [done|]. destruct Hinv as [_ [_ Hok _]], Hinv2 as [_ [_ Hok2 _]].
      rewrite Hn2, Hn1 in Hok2. eapply coalesced_unique; eauto.
      rewrite Hfp2, Hfp, difference_union_L. set_solver.
    + rewrite Hf2, Hf1, u64_add_sub. by apply u64_small.
Qed.

(** ** Any sequence of operations *)

(** The allocator and the blocks its clients hold.  Clients allocate blocks of
    any order and free blocks they hold, in any order. *)
Inductive client_step : mm * gset (Z * Z) -> mm * gset (Z * Z) -> Prop :=
  | client_alloc st L k a st' :
      0 <= k -> buddy_alloc k st = Ret (Ref a, st') ->
      client_step (st, L) (st', {[(k, a)]} ∪ L)
  | client_alloc_null st L k st' :
      0 <= k -> buddy_alloc k st = Ret (NULL, st') ->
      client_step (st, L) (st', L)
  | client_free st L k a st' :
      (k, a) ∈ L -> buddy_free (Ref a) k st = Ret st' ->
      client_step (st, L) (st', L ∖ {[(k, a)]}).

(** The frames held and the free ones are the frames there were at the start;
    the blocks held are aligned, in range and disjoint. *)
Record client_inv (st0 : mm) (B0 : gset (Z * Z)) (w : mm * gset (Z * Z)) (B : gset (Z * Z)) : Prop := {
  ci_inv : inv w.1 B;
  ci_count : mm_pages_count w.1 = mm_pages_count st0;
  ci_IF : mm_IF w.1 = mm_IF st0;
  ci_live : blocks_ok (mm_pages_count st0) w.2;
  ci_apart : freepages w.2 ## freepages B;
  ci_all : freepages w.2 ∪ freepages B = freepages B0;
  ci_merged : coalesced B0 -> coalesced B
}.

Lemma union_difference_move (X F b : gset Z) : b ⊆ F -> (b ∪ X) ∪ (F ∖ b) = X ∪ F.
Proof. intros. apply set_eq. intros p. destruct (decide (p ∈ b)); set_solver. Qed.

Lemma client_inv_step st0 B0 w w' B :
  client_inv st0 B0 w B -> client_step w w' -> exists B', client_inv st0 B0 w' B'.
Proof.
  intros Hc Hstep. destruct Hstep as [st L k a st' Hk Heq|st L k st' Hk Heq|st L k a st' Hin Heq];
    destruct Hc as [Hinv Hn HIF Hlive Hap Hall Hm]; simpl in *.
  - assert (k <= max_order) as Hk'.
    { unfold buddy_alloc, BUDDY_HIGH_ORDER in Heq. fold max_order in Heq.
      destruct (Z.gtb_spec k max_order); [done|lia]. }
    pose proof (buddy_alloc_spec st B k Hinv ltac:(lia)) as Hspec. rewrite Heq in Hspec. simpl in Hspec.
    destruct Hspec as (B' & Hinv' & (Hn' & _ & _ & HIF' & _) & _ & Hco & [(? & _)|(a' & [= <-] & Hbk & Hsub & Hfp & _)]);
      [done|].
    exists B'. split; simpl; [done|congruence|congruence| | | |auto].
    + apply blocks_ok_add; [done|by rewrite <- Hn|]. clear -Hap Hsub. set_solver.
    + rewrite freepages_add, Hfp. clear -Hap. set_solver.
    + rewrite freepages_add, Hfp, union_difference_move by done. done.
  - destruct (decide (k <= max_order)) as [Hk'|Hk'].
    + pose proof (buddy_alloc_spec st B k Hinv ltac:(lia)) as Hspec. rewrite Heq in Hspec. simpl in Hspec.
      destruct Hspec as (B' & Hinv' & (Hn' & _ & _ & HIF' & _) & _ & Hco & [(_ & -> & _)|(? & ? & _)]); [|done].
      exists B. split; simpl; (done || congruence).
    + unfold buddy_alloc, BUDDY_HIGH_ORDER in Heq. fold max_order in Heq.
      destruct (Z.gtb_spec k max_order); [|lia]. simplify_eq. exists B. done.
  - pose proof (blocks_each _ _ Hlive _ _ Hin) as Hbk. pose proof (freepages_sub _ _ _ Hin) as Hsub.
    pose proof (buddy_free_spec st B k a Hinv) as Hspec. rewrite Heq in Hspec. simpl in Hspec.
    destruct Hspec as (B' & Hinv' & (Hn' & _ & _ & HIF' & _) & _ & Hco & Hfp & _).
    { by rewrite Hn. }
    { clear -Hap Hsub. set_solver. }
    exists B'. split; simpl; [done|congruence|congruence|by apply blocks_ok_del| | |auto].
    + rewrite (freepages_del _ _ _ _ Hlive Hin), Hfp. clear -Hap. set_solver.
    + rewrite (freepages_del _ _ _ _ Hlive Hin), Hfp, <- Hall. apply set_eq. intros p.
      destruct (decide (p ∈ block a k)) as [Hp|Hp]; clear -Hsub Hp; set_solver.
Qed.

Lemma client_inv_reachable st0 B0 w :
  inv st0 B0 -> rtc client_step (st0, ∅) w -> exists B, client_inv st0 B0 w B.
Proof.
  intros Hinv Hr. revert w Hr. apply rtc_ind_r.
  - exists B0. split; simpl; rewrite ?freepages_empty; try done. set_solver.
  - intros w w' _ Hstep [B HB]. by eapply client_inv_step.
Qed.

(** C1: whatever blocks clients allocate and free from a consistent
    allocator, the blocks in use at any time are aligned, disjoint from each
    other and from the free frames, no frame is lost or invented, the next
    allocation or free of a held block cannot panic, fault or dead-lock, and
    once everything is returned the free blocks are those of the start if no
    two buddies were free side by side at the start. *)
Theorem buddy_clients_safe st0 B0 st L :
  inv st0 B0 -> rtc client_step (st0, ∅) (st, L) -> exists B,
    inv st B /\ mm_IF st = mm_IF st0 /\
    blocks_ok (mm_pages_count st0) L /\ freepages L ## freepages B /\
    freepages L ∪ freepages B = freepages B0 /\
    (forall k, 0 <= k -> exists r, buddy_alloc k st = Ret r) /\
    (forall k a, (k, a) ∈ L -> exists st', buddy_free (Ref a) k st = Ret st') /\
    (coalesced B0 -> L = ∅ -> B = B0).
Proof.
  intros Hinv Hr. destruct (client_inv_reachable st0 B0 _ Hinv Hr) as [B [Hi Hn HIF Hl Ha Hall Hm]].
  simpl in *. exists B. do 5 (split; [done|]). split; [|split].
  - intros k Hk. destruct (decide (k <= max_order)).
    + destruct (returns_inv _ _ (buddy_alloc_spec st B k Hi ltac:(lia))) as (r & ? & _). eauto.
    + unfold buddy_alloc, BUDDY_HIGH_ORDER. fold max_order.
      destruct (Z.gtb_spec k max_order); [eauto|lia].
  - intros k a Hin. pose proof (blocks_each _ _ Hl _ _ Hin) as Hbk. rewrite <- Hn in Hbk.
    pose proof (freepages_sub _ _ _ Hin) as Hsub.
    destruct (returns_inv _ _ (buddy_free_spec st B k a Hi Hbk ltac:(clear -Ha Hsub; set_solver)))
      as (st' & ? & _). eauto.
  - intros Hco ->. destruct Hi as [_ [_ Hok _]], Hinv as [_ [_ Hok0 _]]. rewrite Hn in Hok.
    eapply coalesced_unique; eauto. rewrite <- Hall, freepages_empty. set_solver.
Qed.

(** ** The small machine of [EarlyMem.Sample], brought up *)

Module Sample.
Import EarlyMem.EarlyMem.Sample.
#[local] Existing Instance limine.

Definition machine : outcome (em * mm) := allocator_init (Some entries) (Some 0) true.
Definition e0 : em := match machine with Ret (e, _) => e | _ => state end.
Definition st0 : mm := match machine with Ret (_, st) => st | _ => bss_mm true end.

(** Memory left after bring-up: pages 5 to 256. *)
Lemma e0_memmap : em_memmap e0 = [mk_entry 0 0x1000 1; mk_entry 0x5000 0xFC000 0].
Proof. vm_compute. reflexivity. Qed.

Lemma entries_need : exists x, x ∈ boot_map entries /\ usable x /\ boot_need entries <= ent_length x.
Proof. eexists. split; [right; left|]. split; [done|]. vm_compute. done. Qed.

Lemma entries_gaps : gaps (boot_map entries).
Proof.
  intros e e' He He' Hu Hu' _ _ Heq. unfold boot_map in *. simpl in He, He'.
  rewrite !elem_of_cons, elem_of_nil in He, He'. unfold usable in *.
  destruct He as [->|[->|[]]], He' as [->|[->|[]]]; done.
Qed.

Lemma allocator_init_correct_witness :
  returns machine (fun '(e, st) => exists cpy B,
    inv st B /\ mm_pages_count st = boot_total entries /\ mm_IF st = true /\
    (forall x, x ∈ freepages B <-> avail (em_memmap e) (x * PAGE_SIZE)) /\
    (length (held cpy e) = 13%nat /\
     forall m a, m ∈ held cpy e -> region m a -> a / PAGE_SIZE ∉ freepages B) /\
    (gaps (boot_map entries) -> coalesced B)).
Proof. exact (allocator_init_correct entries 0 true entries_ok entries_need). Defined.

Lemma st0_ready : exists B, inv st0 B /\ coalesced B /\ mm_pages_count st0 = 257 /\
  forall x, x ∈ freepages B <-> 5 <= x < 257.
Proof.
  pose proof (allocator_init_spec entries 0 true entries_ok entries_need) as Hi.
  pose proof e0_memmap as Hm. unfold e0 in Hm. unfold st0. fold machine in Hi.
  destruct machine as [[e st]| |]; [|done|done]. simpl in *.
  destruct Hi as (cpy & B & _ & _ & Hinv & Hn & _ & HF & Hco). exists B.
  split; [done|]. split; [apply Hco, entries_gaps|]. split; [done|].
  intros x. rewrite HF, Hm. unfold avail, usable, ent_end, PAGE_SIZE. split.
  - intros (y & Hy & Hu & Hx). rewrite !elem_of_cons, elem_of_nil in Hy.
    destruct Hy as [->|[->|[]]]; simpl in *; [done|lia].
  - intros Hx. eexists. split; [right; left|]. simpl. split; [done|lia].
Qed.

Lemma buddy_alloc_correct_witness : exists B, inv st0 B /\
  returns (buddy_alloc 3 st0) (fun '(pg, st') => exists B',
    inv st' B' /\ kept st0 st' /\ (forall p, p ∉ freepages B -> mm_pages st' !! p = mm_pages st0 !! p) /\
    ((pg = NULL /\ B' = B /\ mm_free st' = mm_free st0) \/
     (exists a, pg = Ref a /\ (2 ^ 3 | a) /\ block a 3 ⊆ freepages B /\
        freepages B' = freepages B ∖ block a 3 /\ mm_free st' = mm_free st0 -! 2 ^ 3))).
Proof.
  destruct st0_ready as (B & Hinv & _). exists B. split; [exact Hinv|].
  apply (buddy_alloc_correct st0 B 3 Hinv). unfold BUDDY_HIGH_ORDER. lia.
Defined.

(** Page 4 holds allocator data; handing it over makes it free. *)
Lemma buddy_free_correct_witness : exists B, inv st0 B /\ coalesced B /\
  returns (buddy_free (Ref 4) 0 st0) (fun st' => exists B',
    inv st' B' /\ kept st0 st' /\
    (forall p, p ∉ freepages B ∪ block 4 0 -> mm_pages st' !! p = mm_pages st0 !! p) /\
    (coalesced B -> coalesced B') /\
    freepages B' = freepages B ∪ block 4 0 /\ mm_free st' = mm_free st0 +! 2 ^ 0).
Proof.
  destruct st0_ready as (B & Hinv & Hco & Hn & HF). exists B. split; [exact Hinv|]. split; [exact Hco|].
  apply (buddy_free_correct st0 B 0 4 Hinv).
  - rewrite Hn. clear. split; [unfold max_order; lia|lia|lia|exists 4; lia].
  - intros p Hp%elem_block Hp'%HF. change (2 ^ 0) with 1 in Hp. lia.
Defined.

Lemma buddy_alloc_complete_witness :
  returns (buddy_alloc 7 st0) (fun '(pg, _) => exists a, pg = Ref a).
Proof.
  destruct st0_ready as (B & Hinv & Hco & _ & HF).
  apply (buddy_alloc_complete st0 B 7 128 Hinv Hco); [unfold BUDDY_HIGH_ORDER; lia|exists 1; lia|].
  intros p Hp%elem_block. apply HF. change (2 ^ 7) with 128 in Hp. lia.
Defined.

Lemma buddy_alloc_free_roundtrip_witness : exists B, inv st0 B /\
  returns ('(pg, st1) ← buddy_alloc 2 st0;
           if nonnull pg then buddy_free pg 2 st1 else Ret st1)
    (fun st' => inv st' B /\ mm_free st' = mm_free st0).
Proof.
  destruct st0_ready as (B & Hinv & Hco & _). exists B. split; [exact Hinv|].
  apply (buddy_alloc_free_roundtrip st0 B 2 Hinv Hco); [unfold BUDDY_HIGH_ORDER; lia|].
  clear. vm_compute. split; [discriminate|reflexivity].
Defined.

Definition st1 : mm := match buddy_alloc 4 st0 with Ret (_, st) => st | _ => st0 end.

Lemma alloc_4 : buddy_alloc 4 st0 = Ret (Ref 16, st1).
Proof. vm_compute. reflexivity. Qed.

Lemma buddy_clients_safe_witness : exists B0 B,
    inv st0 B0 /\ inv st1 B /\ mm_IF st1 = mm_IF st0 /\
    blocks_ok (mm_pages_count st0) ({[(4, 16)]} ∪ ∅) /\ freepages ({[(4, 16)]} ∪ ∅) ## freepages B /\
    freepages ({[(4, 16)]} ∪ ∅) ∪ freepages B = freepages B0 /\
    (forall k, 0 <= k -> exists r, buddy_alloc k st1 = Ret r) /\
    (forall k a, (k, a) ∈ ({[(4, 16)]} ∪ ∅ : gset (Z * Z)) -> exists st', buddy_free (Ref a) k st1 = Ret st') /\
    coalesced B0.
Proof.
  destruct st0_ready as (B0 & Hinv & Hco & _).
  destruct (buddy_clients_safe st0 B0 st1 ({[(4, 16)]} ∪ ∅) Hinv) as (B & H1 & H2 & H3 & H4 & H5 & H6 & H7 & _).
  - apply rtc_once, client_alloc; [lia | exact alloc_4].
  - exists B0, B. repeat (split; [assumption|]). exact Hco.
Defined.

End Sample.
End BuddyTheorems.
