(* ===== verification/PageIface.v ===== *)
(** * What the frame allocator promises to its clients

    The heap (kernel/src/mm/slab.c) and the page tables
    (kernel/src/arch/x86-64/mmu.c) take page frames through [page_alloc] and
    [page_free] and keep their own data in the [struct page]s of the frames
    they hold.  [PageAllocator] states what they rely on; their theorems are
    proved against it.  The buddy allocator is an instance. *)

From stdpp Require Import gmap sets.
From S2P Require Import Prelude Dll FrameHdr Blocks FrameAlloc BuddyRep BuddyProof.

Module PageIface.
Import FrameHdr Blocks FrameAlloc BuddyRep BuddyProof.

(** The page array has a struct for each of its pages, no more. *)
Definition pages_dom (st : mm) : Prop :=
  forall i, is_Some (mm_pages st !! i) <-> 0 <= i < mm_pages_count st.

(** An aligned run of [2^k] frames of [F]. *)
Definition can_serve (F : gset Z) (k : Z) : Prop := exists i, (2 ^ k | i) /\ block i k ⊆ F.

(** [pa_ok st F]: the allocator is ready and [F] are its free frames. *)
Class PageAllocator := {
  pa_alloc : Z -> mm -> outcome (word * mm);
  pa_free : word -> Z -> mm -> outcome mm;
  pa_ok : mm -> gset Z -> Prop;

  pa_count : forall st F, pa_ok st F ->
    0 <= mm_pages_count st <= 2 ^ 40 /\ pages_dom st /\ forall p, p ∈ F -> 0 <= p < mm_pages_count st;

  (** An aligned block of free frames, or [NULL] when there is none; page
      structs of other frames and all fields but the links are left alone. *)
  pa_alloc_ok : forall st F k, pa_ok st F -> 0 <= k <= BUDDY_HIGH_ORDER ->
    returns (pa_alloc k st) (fun '(pg, st') =>
      kept st st' /\ untouched (fun p => p ∈ F) st st' /\
      ((pg = NULL /\ pa_ok st' F /\ ~ can_serve F k) \/
       (exists a, pg = Ref a /\ block_ok (mm_pages_count st) k a /\ block a k ⊆ F /\
          pa_ok st' (F ∖ block a k))));

  pa_free_ok : forall st F k i, pa_ok st F -> block_ok (mm_pages_count st) k i -> block i k ## F ->
    returns (pa_free (Ref i) k st) (fun st' =>
      kept st st' /\ untouched (fun p => p ∈ F ∪ block i k) st st' /\ pa_ok st' (F ∪ block i k));

  pa_high : forall st F k, pa_ok st F -> BUDDY_HIGH_ORDER < k -> pa_alloc k st = Ret (NULL, st);

  (** Clients may write all but the links of the free frames. *)
  pa_stable : forall st F pages, pa_ok st F -> dom pages = dom (mm_pages st) ->
    (forall p, p ∈ F -> Dll.links pages p = Dll.links (mm_pages st) p) -> pa_ok (set_pages pages st) F;

  (** It does not depend on the interrupt flag. *)
  pa_irq : forall st F b, pa_ok st F -> pa_ok (set_lock b (mm_lock st) st) F
}.

(** ** The buddy allocator *)

Definition buddy_ok (st : mm) (F : gset Z) : Prop := exists B, inv st B /\ coalesced B /\ freepages B = F.

Lemma buddy_stable st F pages :
  buddy_ok st F -> dom pages = dom (mm_pages st) ->
  (forall p, p ∈ F -> Dll.links pages p = Dll.links (mm_pages st) p) -> buddy_ok (set_pages pages st) F.
Proof.
  intros (B & [Hl [Hrep Hok Hpar]] & Hco & <-) Hdom Hsame. exists B. split; [|done]. split; [done|].
  split; [|done|done]. destruct Hrep as [Hc Hp Hz Hh]. split; [done| | |done].
  - intros i. simpl. rewrite <- Hp, <- !elem_of_dom, Hdom. done.
  - intros k Hk. destruct (Hz k Hk) as (z & l & ? & Hd & Hll & ?). exists z, l.
    split; [done|]. split; [|done]. eapply Dll.dll_links; [done|]. intros a Ha%Hll. simpl.
    apply Hsame. eapply head_free; [done|]. by exists k.
Qed.

#[global] Instance buddy_page_allocator : PageAllocator.
Proof.
  refine {| pa_alloc := page_alloc; pa_free := page_free; pa_ok := buddy_ok |}.
  - intros st F (B & [_ [[Hc Hp _ _] Hok _]] & _ & <-). split; [done|]. split; [done|].
    intros p (k & i & Hin & Hr)%elem_freepages. destruct (blocks_each _ _ Hok _ _ Hin). lia.
  - intros st F k (B & Hinv & Hco & <-) Hk. eapply returns_mono; [by apply buddy_alloc_spec|].
    intros [pg st'] (B' & Hinv' & Hkept & Hu & Hco' & Hcase). split; [done|]. split; [done|].
    destruct Hcase as [(-> & -> & _ & Hno)|(a & -> & Hbk & Hsub & Hfp & _)].
    + left. split; [done|]. split; [by exists B|]. intros (i & Hi & Hin).
      destruct Hinv as [_ [_ Hok _]].
      destruct (coalesced_cover _ B k i Hok Hco Hk Hi Hin) as (k' & i' & Hle & Hb & _). by apply (Hno k' i').
    + right. exists a. do 3 (split; [done|]). exists B'. auto.
  - intros st F k i (B & Hinv & Hco & <-) Hbk Hd. eapply returns_mono; [by apply buddy_free_spec|].
    intros st' (B' & Hinv' & Hkept & Hu & Hco' & Hfp & _). split; [done|]. split; [done|]. exists B'. auto.
  - intros st F k _ Hk. unfold page_alloc, buddy_alloc. destruct (Z.gtb_spec k BUDDY_HIGH_ORDER); [done|lia].
  - intros. by apply buddy_stable.
  - intros st F b (B & [Hl [[Hc Hp Hz Hh] Hok Hpar]] & Hco & HF). exists B. by split_and!.
Defined.

End PageIface.
