(* ===== verification/Slab.v ===== *)
(** * The kernel heap (kernel/src/mm/slab.c)

    Ten caches of power-of-two objects, each with lists of full (all objects
    free), partial and empty (no object free) slabs.  A slab is a block of page
    frames; its administration lives in the [struct page] of the first frame,
    the free objects are chained through their own first eight bytes.  Larger
    requests go to the frame allocator directly.

    The state [heap] is the frame allocator's state, the bytes of memory (at
    their higher-half addresses) and the caches.  The sanitizer of the source
    is configured out (CONFIG_SLAB_SANITIZE), as in the build. *)

From stdpp Require Import gmap sets.
From S2P Require Import Prelude Macros Locking Dll Mem FrameHdr FrameAlloc PageIface.

Module Slab.
Import Macros Locking Mem FrameHdr FrameAlloc PageIface.

(** ** Constants and state *)

Definition KMALLOC_MAX_CACHE_SIZE : Z := PAGE_SIZE * 2.
Definition KMALLOC_ALLOC_MIN : Z := 16.
Definition KMALLOC_ALLOC_MAX : Z := 8192.
Definition KMALLOC_ALLOC_SIZES : Z := 10.

Definition kmalloc_pps_mappings : list Z := [1; 1; 1; 1; 2; 4; 8; 8; 16; 16].

Record slab_cache := mk_cache {
  sc_name : option string;
  sc_pages_per_slab : Z;
  sc_obj_size : Z;
  sc_obj_md_size : Z;
  sc_total_objs : Z;
  sc_total_objs_allocated : Z;
  sc_full_slab_count : Z;
  sc_partial_slab_count : Z;
  sc_empty_slab_count : Z;
  sc_full_slabs : word;
  sc_partial_slabs : word;
  sc_empty_slabs : word;
  sc_lock : k_spinlock_t
}.

Record heap := mk_heap {
  h_mm : mm;                         (* frame allocator, page array, interrupt flag *)
  h_mem : mem;                       (* memory, by virtual address *)
  h_caches : gmap Z slab_cache;      (* kmalloc_generic_caches *)
  h_initialized : Z;                 (* slab_initialized *)
  h_offset : Z                       (* hhdm->offset *)
}.

Definition set_mm (x : mm) (h : heap) : heap :=
  mk_heap x (h_mem h) (h_caches h) (h_initialized h) (h_offset h).
Definition set_mem (x : mem) (h : heap) : heap :=
  mk_heap (h_mm h) x (h_caches h) (h_initialized h) (h_offset h).
Definition set_caches (x : gmap Z slab_cache) (h : heap) : heap :=
  mk_heap (h_mm h) (h_mem h) x (h_initialized h) (h_offset h).
Definition h_pages (h : heap) : gmap Z page := mm_pages (h_mm h).
Definition set_h_pages (p : gmap Z page) (h : heap) : heap := set_mm (set_pages p (h_mm h)) h.
Definition set_IF (b : bool) (h : heap) : heap := set_mm (set_lock b (mm_lock (h_mm h)) (h_mm h)) h.

(** Field writes of [struct page]/[struct slab]. *)
Definition set_this_cache (c : word) (p : page) : page :=
  mk_page (p_flags p) (p_slot0 p) (p_slot1 p) c (p_freelist p) (p_used_objs p) (p_total_objs p).
Definition set_freelist (w : word) (p : page) : page :=
  mk_page (p_flags p) (p_slot0 p) (p_slot1 p) (p_this_cache p) w (p_used_objs p) (p_total_objs p).
Definition set_used (n : Z) (p : page) : page :=
  mk_page (p_flags p) (p_slot0 p) (p_slot1 p) (p_this_cache p) (p_freelist p) (u16 n) (p_total_objs p).
Definition set_total (n : Z) (p : page) : page :=
  mk_page (p_flags p) (p_slot0 p) (p_slot1 p) (p_this_cache p) (p_freelist p) (p_used_objs p) (u16 n).

Definition pg_get (w : word) (h : heap) : outcome page := Dll.deref w (h_pages h).
Definition pg_upd (w : word) (f : page -> page) (h : heap) : outcome heap :=
  p ← Dll.upd w f (h_pages h); Ret (set_h_pages p h).

Definition cache_get (w : word) (h : heap) : outcome slab_cache :=
  match w with
  | Ref i => of_option "not a slab cache" (h_caches h !! i)
  | Num _ => Fault "slab cache pointer is a number"
  end.
Definition cache_upd (w : word) (f : slab_cache -> slab_cache) (h : heap) : outcome heap :=
  match w with
  | Ref i => c ← of_option "not a slab cache" (h_caches h !! i); Ret (set_caches (<[i := f c]> (h_caches h)) h)
  | Num _ => Fault "slab cache pointer is a number"
  end.

(** The three lists of a cache, with their counters. *)
Inductive which := Full | Partial | Empty.

Definition head_get (l : which) (c : slab_cache) : word :=
  match l with Full => sc_full_slabs c | Partial => sc_partial_slabs c | Empty => sc_empty_slabs c end.

Definition head_set (l : which) (w : word) (d : Z) (c : slab_cache) : slab_cache :=
  mk_cache (sc_name c) (sc_pages_per_slab c) (sc_obj_size c) (sc_obj_md_size c) (sc_total_objs c)
    (sc_total_objs_allocated c)
    (match l with Full => sc_full_slab_count c +! d | _ => sc_full_slab_count c end)
    (match l with Partial => sc_partial_slab_count c +! d | _ => sc_partial_slab_count c end)
    (match l with Empty => sc_empty_slab_count c +! d | _ => sc_empty_slab_count c end)
    (match l with Full => w | _ => sc_full_slabs c end)
    (match l with Partial => w | _ => sc_partial_slabs c end)
    (match l with Empty => w | _ => sc_empty_slabs c end)
    (sc_lock c).

Definition set_totals (total allocated : Z) (c : slab_cache) : slab_cache :=
  mk_cache (sc_name c) (sc_pages_per_slab c) (sc_obj_size c) (sc_obj_md_size c) (u64 total) (u64 allocated)
    (sc_full_slab_count c) (sc_partial_slab_count c) (sc_empty_slab_count c)
    (sc_full_slabs c) (sc_partial_slabs c) (sc_empty_slabs c) (sc_lock c).
Definition set_sc_lock (l : k_spinlock_t) (c : slab_cache) : slab_cache :=
  mk_cache (sc_name c) (sc_pages_per_slab c) (sc_obj_size c) (sc_obj_md_size c) (sc_total_objs c)
    (sc_total_objs_allocated c) (sc_full_slab_count c) (sc_partial_slab_count c) (sc_empty_slab_count c)
    (sc_full_slabs c) (sc_partial_slabs c) (sc_empty_slabs c) l.

(** [_list_link(s, &c->..._slabs); c->..._slab_count++] *)
Definition slab_link (l : which) (s : word) (c : word) (h : heap) : outcome heap :=
  k ← cache_get c h;
  '(head, pages) ← Dll.list_link s (head_get l k) (h_pages h);
  cache_upd c (head_set l head 1) (set_h_pages pages h).

(** [_list_unlink(s, &c->..._slabs); c->..._slab_count--] *)
Definition slab_unlink (l : which) (s : word) (c : word) (h : heap) : outcome heap :=
  k ← cache_get c h;
  '(head, pages) ← Dll.list_unlink s (head_get l k) (h_pages h);
  cache_upd c (head_set l head (-1)) (set_h_pages pages h).

Definition cache_lock (c : word) (h : heap) : outcome heap :=
  k ← cache_get c h;
  '(IF, l) ← Seq.spin_lock_global (mm_IF (h_mm h)) (sc_lock k);
  cache_upd c (set_sc_lock l) (set_IF IF h).

Definition cache_unlock (c : word) (h : heap) : outcome heap :=
  k ← cache_get c h;
  let '(IF, l) := Seq.spin_unlock_global (mm_IF (h_mm h)) (sc_lock k) in
  cache_upd c (set_sc_lock l) (set_IF IF h).

(** A pointer to an object in memory. *)
Definition obj_addr (w : word) : outcome Z :=
  match w with
  | Num n => if n =? 0 then Fault "null object pointer" else Ret n
  | Ref _ => Fault "object pointer is a page"
  end.

(** ** Helpers of slab.c *)

Definition slab2addr (s : word) (h : heap) : outcome Z :=
  i ← page2idx (mm_pages_count (h_mm h)) s; Ret (u64 (Z.shiftl i PAGE_SHIFT)).

Fixpoint size2block_loop (fuel : nat) (size order : Z) : Z :=
  match fuel with
  | O => order
  | S fuel =>
      let size := Z.shiftr size 1 in
      if size =? 0 then order else size2block_loop fuel size (order + 1)
  end.

Definition _size2block (size : Z) : outcome Z :=
  if size =? 0 then Panic "size == 0"
  else Ret (size2block_loop 64 (Z.shiftr (size -! 1) 3) 0).

(** The loops over the tail pages run from the last page to the second. *)
Fixpoint mark_tails (n : nat) (i : Z) (head : word) (h : heap) : outcome heap :=
  match n with
  | O => Ret h
  | S m =>
      let pg := Ref (i + Z.of_nat n) in
      p ← pg_get pg h;
      if tst (p_flags p) STRUCT_PAGE_FLAG_COMPOSITE_TAIL then Panic "page was part of composite tail already"
      else
        h ← pg_upd pg (fun p => set_flags (Z.lor (p_flags p) STRUCT_PAGE_FLAG_COMPOSITE_TAIL) p) h;
        h ← pg_upd pg (set_slot0 head) h;
        mark_tails m i head h
  end.

Definition _mark_composite_page (head : word) (num_pgs : Z) (h : heap) : outcome heap :=
  p ← pg_get head h;
  if (num_pgs =? 0) || tst (p_flags p) STRUCT_PAGE_FLAG_SLAB_COMPOSITE_HEAD then
    Panic "tried to create composite page where head was part of tail"
  else
    h ← pg_upd head (fun p => set_flags (Z.lor (p_flags p) STRUCT_PAGE_FLAG_SLAB_COMPOSITE_HEAD) p) h;
    i ← page2idx (mm_pages_count (h_mm h)) head;
    mark_tails (Z.to_nat (num_pgs -! 1)) i head h.

Fixpoint unmark_tails (n : nat) (i : Z) (h : heap) : outcome heap :=
  match n with
  | O => Ret h
  | S m =>
      let pg := Ref (i + Z.of_nat n) in
      p ← pg_get pg h;
      if negb (tst (p_flags p) STRUCT_PAGE_FLAG_COMPOSITE_TAIL) then Panic "page wasn't part of composite tail"
      else
        h ← pg_upd pg (fun p => set_flags (Z.land (p_flags p) (Z.lnot STRUCT_PAGE_FLAG_COMPOSITE_TAIL)) p) h;
        unmark_tails m i h
  end.

Definition _unmark_composite_page (head : word) (num_pgs : Z) (h : heap) : outcome heap :=
  h ← pg_upd head (fun p => set_flags (Z.land (p_flags p) (Z.lnot STRUCT_PAGE_FLAG_SLAB_COMPOSITE_HEAD)) p) h;
  i ← page2idx (mm_pages_count (h_mm h)) head;
  unmark_tails (Z.to_nat (num_pgs -! 1)) i h.

(** ** Initialisation *)

Definition init_slab_cache (c : word) (alloc_size : Z) (name : string) (h : heap) : outcome heap :=
  k ← cache_get c h;
  match sc_name k with
  | Some _ => Panic "slab_cache already initalized"
  | None =>
      if tst alloc_size (alloc_size -! 1) || (alloc_size <? KMALLOC_ALLOC_MIN)
         || (alloc_size >? KMALLOC_ALLOC_MAX) then Panic "not pow2"
      else
        pps ← of_option "kmalloc_pps_mappings index out of bounds"
          (kmalloc_pps_mappings !! Z.to_nat (size2order (Z.shiftr alloc_size 5)));
        cache_upd c (fun k => mk_cache (Some name) (u16 pps) (u16 alloc_size) (u16 alloc_size) 0 0 0 0 0
                                NULL NULL NULL (mk_spinlock 0 (lk_old_state (sc_lock k)))) h
  end.

Fixpoint slab_init_loop (n : nat) (i : Z) (h : heap) : outcome heap :=
  match n with
  | O => Ret h
  | S n =>
      h ← init_slab_cache (Ref i) (Z.shiftl 1 (i + 4)) "some cache" h;
      slab_init_loop n (i + 1) h
  end.

Definition slab_init (h : heap) : outcome heap :=
  h ← slab_init_loop (Z.to_nat KMALLOC_ALLOC_SIZES) 0 h;
  Ret (mk_heap (h_mm h) (h_mem h) (h_caches h) 1 (h_offset h)).

(** The caches in the zeroed bss. *)
Definition bss_cache : slab_cache :=
  mk_cache None 0 0 0 0 0 0 0 0 NULL NULL NULL (mk_spinlock 0 false).
Definition bss_heap (st : mm) (m : mem) (offset : Z) : heap :=
  mk_heap st m (zeroed bss_cache KMALLOC_ALLOC_SIZES) 0 offset.

Section Alloc.
Context {PA : PageAllocator}.

(** ** Slabs *)

(** Chain the objects [i .. i + n], the last one to null. *)
Fixpoint build_freelist (n : nat) (i slab_data md : Z) (m : mem) : mem :=
  match n with
  | O => m
  | S n =>
      let next := slab_data + (i + 1) * md in
      build_freelist n (i + 1) slab_data md (write64 (slab_data + i * md) next m)
  end.

Definition new_slab (c : word) (page_count : Z) (h : heap) : outcome heap :=
  let alloc_order := size2order page_count in
  '(new, st) ← pa_alloc alloc_order (h_mm h);
  let h := set_mm st h in
  k ← cache_get c h;
  h ← pg_upd new (set_this_cache c) h;
  h ← pg_upd new (set_total ((order2size alloc_order *! PAGE_SIZE) / sc_obj_md_size k)) h;
  p ← pg_get new h;
  if negb (p_total_objs p =? (sc_pages_per_slab k *! PAGE_SIZE) / sc_obj_md_size k) then Panic "check failed"
  else
    h ← pg_upd new (set_used 0) h;
    phys ← slab2addr new h;
    let slab_data := phys +! h_offset h in
    p ← pg_get new h;
    let h := set_mem (build_freelist (Z.to_nat (p_total_objs p - 1)) 0 slab_data (sc_obj_md_size k) (h_mem h)) h in
    let h := set_mem (write64 (slab_data + (p_total_objs p - 1) * sc_obj_md_size k) 0 (h_mem h)) h in
    h ← pg_upd new (set_freelist (Num slab_data)) h;
    h ← slab_link Full new c h;
    p ← pg_get new h;
    h ← cache_upd c (fun k => set_totals (sc_total_objs k + p_total_objs p) (sc_total_objs_allocated k) k) h;
    _mark_composite_page new (order2size alloc_order) h.

Definition _attempt_free_full (c : word) (h : heap) : outcome heap :=
  k ← cache_get c h;
  b ← _size2block (sc_obj_md_size k);
  if sc_full_slab_count k >? b +! 1 then
    let s := sc_full_slabs k in
    h ← slab_unlink Full s c h;
    p ← pg_get s h;
    h ← cache_upd c (fun k => set_totals (sc_total_objs k - p_total_objs p) (sc_total_objs_allocated k) k) h;
    h ← _unmark_composite_page s (sc_pages_per_slab k) h;
    st ← pa_free s (size2order (sc_pages_per_slab k)) (h_mm h);
    Ret (set_mm st h)
  else Ret h.

(** [ret = s->freelist; s->freelist = *(uintptr_t * )s->freelist;
    s->used_objs++; s->this_cache->total_objs_allocated++] *)
Definition take_object (s : word) (h : heap) : outcome (Z * heap) :=
  p ← pg_get s h;
  ret ← obj_addr (p_freelist p);
  h ← pg_upd s (set_freelist (Num (read64 ret (h_mem h)))) h;
  h ← cache_upd (p_this_cache p) (fun k => set_totals (sc_total_objs k) (sc_total_objs_allocated k + 1) k) h;
  h ← pg_upd s (fun p => set_used (p_used_objs p + 1) p) h;
  Ret (ret, h).

(** From [got_full] on; the second round always finds the new slab. *)
Fixpoint got_full (fuel : nat) (c : word) (h : heap) : outcome (Z * heap) :=
  match fuel with
  | O => Fault "out of fuel"
  | S fuel =>
      k ← cache_get c h;
      let full := sc_full_slabs k in
      if nonnull full then
        h ← slab_unlink Full full c h;
        h ← slab_link Partial full c h;
        take_object full h
      else
        h ← new_slab c (sc_pages_per_slab k) h;
        got_full fuel c h
  end.

Definition cache_alloc (c : word) (h : heap) : outcome (Z * heap) :=
  let '(old, IF) := preempt_fetch_disable (mm_IF (h_mm h)) in
  h ← cache_lock c (set_IF IF h);
  k ← cache_get c h;
  let part := sc_partial_slabs k in
  '(ret, h) ←
    (if nonnull part then
       p ← pg_get part h;
       if negb (nonnull (p_freelist p)) then Panic "partial->freelist is empty"
       else
         '(ret, h) ← take_object part h;
         p ← pg_get part h;
         if p_used_objs p =? p_total_objs p then
           if nonnull (p_freelist p) then Panic "part->freelist has items"
           else
             h ← slab_unlink Partial part c h;
             h ← slab_link Empty part c h;
             Ret (ret, h)
         else Ret (ret, h)
     else got_full 2 c h);
  h ← cache_unlock c h;
  Ret (ret, set_IF (preempt_restore old (mm_IF (h_mm h))) h).

Definition _find_corresponding_slab (addr : Z) (h : heap) : outcome word :=
  let this := phys2page (addr -! h_offset h) in
  p ← pg_get this h;
  if tst (p_flags p) STRUCT_PAGE_FLAG_SLAB_COMPOSITE_HEAD then Ret this
  else if tst (p_flags p) STRUCT_PAGE_FLAG_COMPOSITE_TAIL then Ret (p_slot0 p)
  else Panic "Invalid slab flags".

(** ** The public interface *)

(** Pointers are addresses; 0 is the null pointer. *)
Definition kmalloc (size : Z) (h : heap) : outcome (Z * heap) :=
  if size >? KMALLOC_MAX_CACHE_SIZE then
    '(ret, st) ← pa_alloc (psize2order size) (h_mm h);
    let h := set_mm st h in
    h ← pg_upd ret (fun p => set_flags (Z.lor (p_flags p) STRUCT_PAGE_FLAG_KMALLOC_BUDDY) p) h;
    h ← pg_upd ret (set_slot0 (Num (psize2order size))) h;
    phys ← page2phys (mm_pages_count (h_mm h)) ret;
    Ret (h_offset h +! phys, h)
  else if size =? 0 then Ret (0, h)
  else if h_initialized h =? 0 then Panic "slab isn't initialized"
  else
    i ← _size2block size;
    if i >=? KMALLOC_ALLOC_SIZES then Panic "kmalloc: tried to allocate too much"
    else cache_alloc (Ref i) h.

Definition kfree (addr : Z) (h : heap) : outcome heap :=
  if addr =? 0 then Ret h
  else
    let pg := phys2page (addr -! h_offset h) in
    p ← pg_get pg h;
    if tst (p_flags p) STRUCT_PAGE_FLAG_KMALLOC_BUDDY then
      h ← pg_upd pg (fun p => set_flags (Z.land (p_flags p) (Z.lnot STRUCT_PAGE_FLAG_KMALLOC_BUDDY)) p) h;
      p ← pg_get pg h;
      ord ← (match p_slot0 p with Num n => Ret n | Ref _ => Fault "order field holds a pointer" end);
      h ← pg_upd pg (set_slot0 (Num 0)) h;
      st ← pa_free pg ord (h_mm h);
      Ret (set_mm st h)
    else
      s ← _find_corresponding_slab addr h;
      let '(old, IF) := preempt_fetch_disable (mm_IF (h_mm h)) in
      p ← pg_get s h;
      h ← cache_lock (p_this_cache p) (set_IF IF h);
      fl ← (match p_freelist p with Num n => Ret n | Ref _ => Fault "free list holds a page" end);
      let h := set_mem (write64 addr fl (h_mem h)) h in
      h ← pg_upd s (set_freelist (Num addr)) h;
      let c := p_this_cache p in
      h ← (if p_used_objs p =? p_total_objs p then
             h ← slab_unlink Empty s c h;
             slab_link Partial s c h
           else if p_used_objs p =? 1 then
             h ← slab_unlink Partial s c h;
             h ← slab_link Full s c h;
             _attempt_free_full c h
           else Ret h);
      h ← pg_upd s (fun p => set_used (p_used_objs p - 1) p) h;
      h ← cache_upd c (fun k => set_totals (sc_total_objs k) (sc_total_objs_allocated k - 1) k) h;
      p ← pg_get s h;
      h ← cache_unlock (p_this_cache p) h;
      Ret (set_IF (preempt_restore old (mm_IF (h_mm h))) h).

Definition krealloc (addr size : Z) (h : heap) : outcome (Z * heap) :=
  '(new, h) ← kmalloc size h;
  if addr =? 0 then Ret (new, h)
  else
    let pg := phys2page (addr -! h_offset h) in
    p ← pg_get pg h;
    copy_size ←
      (if tst (p_flags p) STRUCT_PAGE_FLAG_KMALLOC_BUDDY then
         match p_slot0 p with Num order => Ret (MIN order size) | Ref _ => Fault "order field holds a pointer" end
       else
         s ← _find_corresponding_slab addr h;
         sp ← pg_get s h;
         k ← cache_get (p_this_cache sp) h;
         Ret (MIN (sc_obj_size k) size));
    let h := set_mem (memcpy new addr copy_size (h_mem h)) h in
    h ← kfree addr h;
    Ret (new, h).

Definition kcalloc (entries size : Z) (h : heap) : outcome (Z * heap) :=
  '(ret, h) ← kmalloc (entries *! size) h;
  Ret (ret, set_mem (memset ret 0 (entries *! size) (h_mem h)) h).

End Alloc.
End Slab.
