(* ===== verification/SlabRep.v ===== *)
(** * What the heap's data structures represent

    [heap_rep h F own loc]: in the heap state [h] (kernel/src/mm/slab.c), [F]
    are the free page frames, [own] says for every block of frames the heap
    holds what it is (a slab of a cache with its free objects, or one large
    allocation), and [loc] on which list of which cache each slab is.  The
    primitives of the slab allocator are specified on this representation. *)

From stdpp Require Import gmap sets.
From S2P Require Import Prelude Macros Locking Dll Mem FrameHdr Blocks FrameAlloc BuddyRep BuddyProof PageIface Slab.

Module SlabRep.
Import Macros Locking Mem FrameHdr Blocks FrameAlloc BuddyRep BuddyProof PageIface Slab.

(** ** The caches *)

(** Cache [ci] holds objects of [osz ci] bytes in slabs of [2 ^ sord ci] pages. *)
Definition osz (ci : Z) : Z := 2 ^ (ci + 4).
Definition sord (ci : Z) : Z := nth (Z.to_nat ci) [0; 0; 0; 0; 0; 1; 2; 3; 3; 4] 0.
Definition nobj (ci : Z) : Z := 2 ^ sord ci * PAGE_SIZE / osz ci.

Definition cache_ix (ci : Z) : Prop := 0 <= ci < KMALLOC_ALLOC_SIZES.

Lemma cache_cases ci : cache_ix ci ->
  ci = 0 \/ ci = 1 \/ ci = 2 \/ ci = 3 \/ ci = 4 \/ ci = 5 \/ ci = 6 \/ ci = 7 \/ ci = 8 \/ ci = 9.
Proof. unfold cache_ix, KMALLOC_ALLOC_SIZES. lia. Qed.

Ltac each_cache H := destruct (cache_cases _ H) as [->|[->|[->|[->|[->|[->|[->|[->|[->| ->]]]]]]]]].

Lemma cache_facts ci : cache_ix ci ->
  0 <= sord ci <= max_order /\ 16 <= osz ci <= KMALLOC_ALLOC_MAX /\ 8 <= nobj ci <= 256 /\
  nobj ci * osz ci = 2 ^ sord ci * PAGE_SIZE.
Proof. intros Hc. each_cache Hc; vm_compute; repeat split; discriminate. Qed.

(** ** Owners *)

#[global] Instance which_eq_dec : EqDecision which.
Proof. solve_decision. Defined.

Inductive owner :=
  | OSlab (ci : Z) (fl : list Z)      (* a slab of cache [ci], free objects in list order *)
  | OBig (k : Z).                     (* one allocation of [2^k] pages *)

Definition ord_of (o : owner) : Z := match o with OSlab ci _ => sord ci | OBig k => k end.

Definition obj (off s ci j : Z) : Z := off + s * PAGE_SIZE + j * osz ci.
Definition is_obj (off s ci a : Z) : Prop := exists j, 0 <= j < nobj ci /\ a = obj off s ci j.

(** The free objects, chained through memory. *)
Fixpoint chain (m : mem) (fl : list Z) : Prop :=
  match fl with
  | [] => True
  | a :: fl => read64 a m = hd 0 fl /\ chain m fl
  end.

(** The first page's struct, up to its links. *)
Record slab_head (ci : Z) (fl : list Z) (pg : page) : Prop := {
  sh_flags : p_flags pg = STRUCT_PAGE_FLAG_SLAB_COMPOSITE_HEAD;
  sh_cache : p_this_cache pg = Ref ci;
  sh_free : p_freelist pg = Num (hd 0 fl);
  sh_used : p_used_objs pg = nobj ci - Z.of_nat (length fl);
  sh_total : p_total_objs pg = nobj ci
}.

Definition tail_page (s : Z) (pg : page) : Prop :=
  p_flags pg = STRUCT_PAGE_FLAG_COMPOSITE_TAIL /\ p_slot0 pg = Ref s.

Definition owner_ok (h : heap) (s : Z) (o : owner) : Prop :=
  match o with
  | OSlab ci fl =>
      cache_ix ci /\ (exists pg, h_pages h !! s = Some pg /\ slab_head ci fl pg) /\
      chain (h_mem h) fl /\ NoDup fl /\ (forall a, a ∈ fl -> is_obj (h_offset h) s ci a) /\
      (forall p, p ∈ block s (sord ci) -> p <> s -> exists pg, h_pages h !! p = Some pg /\ tail_page s pg)
  | OBig k =>
      (exists pg, h_pages h !! s = Some pg /\ p_flags pg = STRUCT_PAGE_FLAG_KMALLOC_BUDDY /\ p_slot0 pg = Num k) /\
      (forall p, p ∈ block s k -> p <> s -> exists pg, h_pages h !! p = Some pg /\ p_flags pg = 0)
  end.

Definition count_get (l : which) (c : slab_cache) : Z :=
  match l with
  | Full => sc_full_slab_count c | Partial => sc_partial_slab_count c | Empty => sc_empty_slab_count c
  end.

Record cache_static (ci : Z) (c : slab_cache) : Prop := {
  cst_pps : sc_pages_per_slab c = 2 ^ sord ci;
  cst_size : sc_obj_size c = osz ci;
  cst_md : sc_obj_md_size c = osz ci
}.

Record cache_ok (pages : gmap Z page) (loc : gmap Z (Z * which)) (ci : Z) (c : slab_cache) : Prop := {
  co_static : cache_static ci c;
  co_list : forall l, exists ls, Dll.dll pages (head_get l c) ls /\
    (forall s, s ∈ ls <-> loc !! s = Some (ci, l)) /\ count_get l c = Z.of_nat (length ls)
}.

Section Rep.
Context {PA : PageAllocator}.

Record heap_rep (h : heap) (F : gset Z) (own : gmap Z owner) (loc : gmap Z (Z * which)) : Prop := {
  hr_pa : pa_ok (h_mm h) F;
  hr_init : h_initialized h <> 0;
  hr_off : 0 < h_offset h /\ h_offset h + mm_pages_count (h_mm h) * PAGE_SIZE < 2 ^ 64;
  hr_zero : forall p, p ∈ F -> exists pg, h_pages h !! p = Some pg /\ p_flags pg = 0;
  hr_blocks : forall s o, own !! s = Some o ->
    block_ok (mm_pages_count (h_mm h)) (ord_of o) s /\ block s (ord_of o) ## F;
  hr_own : forall s o, own !! s = Some o -> owner_ok h s o;
  hr_once : forall s o s' o' p, own !! s = Some o -> own !! s' = Some o' ->
    p ∈ block s (ord_of o) -> p ∈ block s' (ord_of o') -> s = s';
  hr_caches : forall ci, cache_ix ci -> exists c, h_caches h !! ci = Some c /\ cache_ok (h_pages h) loc ci c;
  hr_loc : forall s ci l, loc !! s = Some (ci, l) -> cache_ix ci /\ is_Some (h_pages h !! s) /\ s ∉ F /\
    forall s' o, own !! s' = Some o -> s ∈ block s' (ord_of o) -> s' = s /\ exists ci fl, o = OSlab ci fl
}.

End Rep.

(** What the list primitives leave alone. *)
Definition locks (h : heap) (i : Z) : option k_spinlock_t := sc_lock <$> h_caches h !! i.

Record hsame (h h' : heap) : Prop := {
  hs_locks : forall i, locks h' i = locks h i;
  hs_IF : mm_IF (h_mm h') = mm_IF (h_mm h);
  hs_off : h_offset h' = h_offset h;
  hs_init : h_initialized h' = h_initialized h;
  hs_count : mm_pages_count (h_mm h') = mm_pages_count (h_mm h)
}.

#[global] Instance hsame_equiv : Equivalence hsame.
Proof.
  split.
  - intros h. by split.
  - intros h h' []. by split.
  - intros h1 h2 h3 [] []. split; intros; congruence.
Qed.

(** ** Objects *)

Lemma obj_range off s ci j :
  cache_ix ci -> 0 <= j < nobj ci ->
  off + s * PAGE_SIZE <= obj off s ci j /\
  obj off s ci j + osz ci <= off + (s + 2 ^ sord ci) * PAGE_SIZE.
Proof. intros Hc Hj. destruct (cache_facts ci Hc) as (_ & ? & _ & ?). unfold obj. nia. Qed.

(** The page of an object's first byte belongs to its slab. *)
Lemma obj_page off s ci j :
  cache_ix ci -> 0 <= j < nobj ci ->
  (obj off s ci j - off) / PAGE_SIZE ∈ block s (sord ci).
Proof.
  intros Hc Hj. destruct (obj_range off s ci j Hc Hj). destruct (cache_facts ci Hc) as (_ & ? & _ & _).
  rewrite elem_block. unfold PAGE_SIZE in *. split.
  - apply Z.div_le_lower_bound; lia.
  - apply Z.div_lt_upper_bound; lia.
Qed.

Lemma obj_inj off s ci j j' : cache_ix ci -> obj off s ci j = obj off s ci j' -> j = j'.
Proof. intros Hc. destruct (cache_facts ci Hc) as (_ & ? & _ & _). unfold obj. nia. Qed.

(** Objects of one slab, or of slabs without a common page, do not overlap. *)
Lemma obj_apart off s ci j s' ci' j' :
  cache_ix ci -> cache_ix ci' -> 0 <= j < nobj ci -> 0 <= j' < nobj ci' ->
  (forall p, p ∈ block s (sord ci) -> p ∈ block s' (sord ci') -> s = s' /\ ci = ci') ->
  (s = s' /\ ci = ci' /\ j = j') \/
  obj off s ci j + osz ci <= obj off s' ci' j' \/ obj off s' ci' j' + osz ci' <= obj off s ci j.
Proof.
  intros Hc Hc' Hj Hj' Hdis. destruct (obj_range off s ci j Hc Hj). destruct (obj_range off s' ci' j' Hc' Hj').
  destruct (cache_facts ci Hc) as (? & ? & _ & _). destruct (cache_facts ci' Hc') as (? & ? & _ & _).
  pose proof (pow2_pos (sord ci)). pose proof (pow2_pos (sord ci')).
  destruct (decide (s + 2 ^ sord ci <= s')); [right; left; unfold PAGE_SIZE in *; lia|].
  destruct (decide (s' + 2 ^ sord ci' <= s)); [right; right; unfold PAGE_SIZE in *; lia|].
  destruct (Hdis (Z.max s s')) as [-> ->]; [rewrite elem_block; lia..|].
  unfold obj. destruct (decide (j = j')); [by left|]. right. nia.
Qed.

Lemma chain_ext m m' fl :
  (forall a, a ∈ fl -> read64 a m' = read64 a m) -> chain m fl -> chain m' fl.
Proof.
  induction fl as [|a fl IH]; simpl; [done|]. intros Hext [Ha Hc].
  split; [rewrite Hext by left; done|]. apply IH; [|done]. intros. apply Hext. by right.
Qed.

Lemma slab_head_payload ci fl pg pg' :
  Dll.payload pg' = Dll.payload pg -> slab_head ci fl pg -> slab_head ci fl pg'.
Proof.
  unfold Dll.payload, set_nxt, set_prv. simpl. unfold set_slot0, set_slot1. simpl.
  intros [= ? ? ? ? ?] []. split; congruence.
Qed.

(** ** Relinking slabs *)

Section Lists.
Context {PA : PageAllocator}.

(** A page that may carry list links: in use, and no page of an owner other
    than the first page of a slab. *)
Definition linkable (F : gset Z) (own : gmap Z owner) (p : Z) : Prop :=
  p ∉ F /\ forall s o, own !! s = Some o -> p ∈ block s (ord_of o) -> s = p /\ exists ci fl, o = OSlab ci fl.

Lemma linkable_loc h F own loc s x :
  heap_rep h F own loc -> loc !! s = Some x -> linkable F own s.
Proof. intros Hr Hs. destruct x as [ci l]. destruct (hr_loc _ _ _ _ Hr _ _ _ Hs) as (_ & _ & ? & ?). by split. Qed.

Lemma owner_ok_relinked h h' F own s o :
  Dll.relinked (h_pages h) (h_pages h') -> h_mem h' = h_mem h -> h_offset h' = h_offset h ->
  (forall p, linkable F own p \/ h_pages h' !! p = h_pages h !! p) ->
  0 <= ord_of o -> own !! s = Some o -> owner_ok h s o -> owner_ok h' s o.
Proof.
  intros Hr Hm Ho Hch Hord Hs Hok.
  assert (forall p, p ∈ block s (ord_of o) -> p <> s -> h_pages h' !! p = h_pages h !! p) as Htail.
  { intros p Hp Hne. destruct (Hch p) as [[_ Hl]|]; [|done]. by destruct (Hl s o Hs Hp) as [-> _]. }
  destruct o as [ci fl|k]; simpl in *.
  - destruct Hok as (Hci & (pg & Hpg & Hhd) & Hc & Hnd & Hob & Ht). rewrite Hm, Ho.
    split; [done|]. split; [|split; [done|split; [done|split; [done|]]]].
    + destruct (Dll.relinked_lookup _ _ _ _ Hr Hpg) as (pg' & Hpg' & Hpay).
      exists pg'. split; [done|]. by eapply slab_head_payload.
    + intros p Hp Hne. rewrite Htail by done. auto.
  - destruct Hok as [(pg & Hpg & Hf & Hk) Ht]. split.
    + exists pg. split; [|done]. destruct (Hch s) as [[_ Hl]| ->]; [|done].
      destruct (Hl s (OBig k) Hs) as (_ & ? & ? & ?); [by apply block_nonempty|done].
    + intros p Hp Hne. rewrite Htail by done. auto.
Qed.

(** Replacing the page array by one that is only relinked, and one cache. *)
Lemma rep_relink h F own loc ci c c' pages loc' :
  heap_rep h F own loc -> Dll.relinked (h_pages h) pages ->
  (forall p, linkable F own p \/ pages !! p = h_pages h !! p) ->
  cache_ix ci -> h_caches h !! ci = Some c -> cache_ok pages loc' ci c' ->
  (forall s ci' l, ci' <> ci -> loc' !! s = Some (ci', l) <-> loc !! s = Some (ci', l)) ->
  (forall s ci' l, ci' <> ci -> loc !! s = Some (ci', l) -> pages !! s = h_pages h !! s) ->
  (forall s l, loc' !! s = Some (ci, l) -> is_Some (h_pages h !! s) /\ linkable F own s) ->
  heap_rep (set_caches (<[ci := c']> (h_caches h)) (set_h_pages pages h)) F own loc'.
Proof.
  intros [Hpa Hin Hoff Hz Hb Ho H1 Hcs Hl] Hr Hch Hci Hc Hok' Hloc Hfr Hnew.
  pose proof (Dll.relinked_dom _ _ Hr) as Hdom.
  assert (forall p, p ∈ F -> pages !! p = h_pages h !! p) as HF.
  { intros p Hp. destruct (Hch p) as [[? _]|]; done. }
  split; simpl; try done.
  - apply pa_stable; [done|done|]. intros p Hp. apply Dll.links_eq. auto.
  - intros p Hp. unfold h_pages. simpl. rewrite HF by done. auto.
  - intros s o Hs. eapply (owner_ok_relinked h); try done; [|by apply Ho].
    apply (Hb s o Hs).
  - intros ci' Hci'. destruct (decide (ci' = ci)) as [->|Hne].
    + exists c'. by rewrite lookup_insert_eq.
    + rewrite lookup_insert_ne by done. destruct (Hcs ci' Hci') as (c2 & Hc2 & [Hst Hls]).
      exists c2. split; [done|]. split; [done|]. intros l.
      destruct (Hls l) as (ls & Hd & Hmem & Hcnt). exists ls. split; [|split; [|done]].
      * eapply Dll.dll_frame; [done|]. intros a Ha%Hmem. by eapply Hfr.
      * intros s. rewrite Hmem. by rewrite Hloc.
  - intros s ci' l Hs. unfold h_pages. simpl.
    assert (forall p, is_Some (pages !! p) <-> is_Some (h_pages h !! p)) as Hsome.
    { intros p. by rewrite <- !elem_of_dom, Hdom. }
    rewrite Hsome. destruct (decide (ci' = ci)) as [->|Hne].
    + split; [done|]. destruct (Hnew s l Hs) as [? [? ?]]. done.
    + apply Hloc in Hs; [|done]. apply (Hl s ci' l Hs).
Qed.

Lemma hsame_relink h ci c l w d pages :
  h_caches h !! ci = Some c ->
  hsame h (set_caches (<[ci := head_set l w d c]> (h_caches h)) (set_h_pages pages h)).
Proof.
  intros Hc. split; simpl; try done. intros i. unfold locks. simpl.
  destruct (decide (i = ci)) as [->|]; [by rewrite lookup_insert_eq, Hc | by rewrite lookup_insert_ne].
Qed.

Lemma cache_static_head ci c l w d : cache_static ci c -> cache_static ci (head_set l w d c).
Proof. intros []. by split. Qed.

(** All lists of a cache, with one replaced. *)
Lemma cache_ok_set pages pages' loc loc' ci c l w d ls :
  cache_ok pages loc ci c -> Dll.dll pages' w ls ->
  (forall s, s ∈ ls <-> loc' !! s = Some (ci, l)) -> count_get l c +! d = Z.of_nat (length ls) ->
  (forall s l', l' <> l -> loc' !! s = Some (ci, l') <-> loc !! s = Some (ci, l')) ->
  (forall s l', l' <> l -> loc !! s = Some (ci, l') -> pages' !! s = pages !! s) ->
  cache_ok pages' loc' ci (head_set l w d c).
Proof.
  intros [Hst Hls] Hd Hmem Hcnt Hloc Hfr. split; [by apply cache_static_head|]. intros l'.
  destruct (decide (l' = l)) as [->|Hne].
  - exists ls. split; [by destruct l|]. split; [done|]. by destruct l.
  - destruct (Hls l') as (ls' & Hd' & Hmem' & Hcnt'). exists ls'.
    replace (head_get l' (head_set l w d c)) with (head_get l' c) by (by destruct l, l').
    replace (count_get l' (head_set l w d c)) with (count_get l' c) by (by destruct l, l').
    split; [|split; [|done]].
    + eapply Dll.dll_frame; [done|]. intros a Ha%Hmem'. by eapply Hfr.
    + intros s. by rewrite Hmem', Hloc.
Qed.

Lemma cache_get_ok h F own loc ci :
  heap_rep h F own loc -> cache_ix ci ->
  exists c, h_caches h !! ci = Some c /\ cache_get (Ref ci) h = Ret c /\ cache_ok (h_pages h) loc ci c.
Proof.
  intros Hr Hci. destruct (hr_caches _ _ _ _ Hr ci Hci) as (c & Hc & Hok).
  exists c. unfold cache_get. by rewrite Hc.
Qed.

Lemma list_short h F own loc head ls :
  heap_rep h F own loc -> Dll.dll (h_pages h) head ls -> Z.of_nat (length ls) <= 2 ^ 40.
Proof.
  intros Hr Hd. destruct (pa_count _ _ (hr_pa _ _ _ _ Hr)) as (Hn & Hdom & _).
  assert (length ls <= Z.to_nat (mm_pages_count (h_mm h)))%nat; [|lia].
  apply list_length_bound; [apply Hd|]. intros i Hi. apply Hdom. by eapply Dll.dll_elem.
Qed.

Lemma slab_link_spec h F own loc ci l s :
  heap_rep h F own loc -> cache_ix ci -> loc !! s = None -> is_Some (h_pages h !! s) -> linkable F own s ->
  returns (slab_link l (Ref s) (Ref ci) h) (fun h' =>
    heap_rep h' F own (<[s := (ci, l)]> loc) /\ hsame h h' /\ h_mem h' = h_mem h /\
    Dll.relinked (h_pages h) (h_pages h') /\
    (forall p, p <> s -> loc !! p = None -> h_pages h' !! p = h_pages h !! p) /\
    exists c, h_caches h' !! ci = Some c /\ head_get l c = Ref s).
Proof.
  intros Hr Hci Hls Hs Hlk. destruct (cache_get_ok _ _ _ _ ci Hr Hci) as (c & Hc & Hget & Hok).
  destruct (co_list _ _ _ _ Hok l) as (ls & Hd & Hmem & Hcnt).
  unfold slab_link. mpure Hget.
  assert (s ∉ ls) as Hns by (rewrite Hmem; congruence).
  mcall (Dll.list_link_spec _ _ _ _ Hd Hns Hs). intros [head pages] (-> & Hd' & Hrl & Hf).
  unfold cache_upd. simpl. rewrite Hc. simpl.
  assert (forall p, p <> s -> (forall x, loc !! p = Some x -> x <> (ci, l)) -> pages !! p = h_pages h !! p) as Hfr.
  { intros p Hne Hp. apply Hf. rewrite elem_of_cons, Hmem. intros [->|Hin]; [done|]. by eapply Hp. }
  split; [|split; [by apply hsame_relink|split; [done|split; [done|]]]].
  - eapply rep_relink; try done.
    + intros p. destruct (decide (p = s)) as [->|Hne]; [by left|].
      destruct (decide (loc !! p = Some (ci, l))) as [Hp|Hp]; [left; by eapply linkable_loc|].
      right. apply Hfr; [done|]. by intros x ? ->.
    + eapply cache_ok_set; try done.
      * intros x. rewrite elem_of_cons, Hmem. destruct (decide (x = s)) as [->|];
          [rewrite lookup_insert_eq; naive_solver | rewrite lookup_insert_ne by done; naive_solver].
      * simpl. pose proof (list_short _ _ _ _ _ _ Hr Hd). rewrite Hcnt, u64_small; lia.
      * intros x l' Hl'. destruct (decide (x = s)) as [->|];
          [rewrite lookup_insert_eq; naive_solver | by rewrite lookup_insert_ne].
      * intros x l' Hl' Hx. apply Hfr; [congruence|]. intros ? Hx' ->. congruence.
    + intros x ci' l' Hne. destruct (decide (x = s)) as [->|];
        [rewrite lookup_insert_eq; naive_solver | by rewrite lookup_insert_ne].
    + intros x ci' l' Hne Hx. apply Hfr; [congruence|]. intros ? Hx' ->. congruence.
    + intros x l'. destruct (decide (x = s)) as [->|Hne]; [by rewrite lookup_insert_eq|].
      rewrite lookup_insert_ne by done. intros Hx. split; [|by eapply linkable_loc].
      apply (hr_loc _ _ _ _ Hr _ _ _ Hx).
  - split.
    + intros p Hne Hp. apply Hfr; [done|]. intros x ? ->. congruence.
    + eexists. rewrite lookup_insert_eq. split; [done|]. by destruct l.
Qed.

Lemma slab_unlink_spec h F own loc ci l s :
  heap_rep h F own loc -> loc !! s = Some (ci, l) ->
  returns (slab_unlink l (Ref s) (Ref ci) h) (fun h' =>
    heap_rep h' F own (delete s loc) /\ hsame h h' /\ h_mem h' = h_mem h /\
    Dll.relinked (h_pages h) (h_pages h') /\
    forall p, loc !! p = None -> h_pages h' !! p = h_pages h !! p).
Proof.
  intros Hr Hls. destruct (hr_loc _ _ _ _ Hr _ _ _ Hls) as (Hci & Hs & _).
  destruct (cache_get_ok _ _ _ _ ci Hr Hci) as (c & Hc & Hget & Hok).
  destruct (co_list _ _ _ _ Hok l) as (ls & Hd & Hmem & Hcnt).
  unfold slab_unlink. mpure Hget.
  assert (s ∈ ls) as (l1 & l2 & ->)%list_elem_of_split by (by apply Hmem).
  mcall (Dll.list_unlink_spec _ _ _ _ _ Hd). intros [head pages] (Hd' & Hrl & Hf).
  unfold cache_upd. simpl. rewrite Hc. simpl.
  pose proof Hd as [_ (_ & Hn1 & [Hn2 _]%NoDup_cons)%NoDup_app].
  assert (forall p, (forall x, loc !! p = Some x -> x <> (ci, l)) -> pages !! p = h_pages h !! p) as Hfr.
  { intros p Hp. apply Hf. rewrite Hmem. intros Hin. by eapply Hp. }
  split; [|split; [by apply hsame_relink|split; [done|split; [done|]]]].
  - eapply rep_relink; try done.
    + intros p. destruct (decide (loc !! p = Some (ci, l))) as [Hp|Hp]; [left; by eapply linkable_loc|].
      right. apply Hfr. by intros x ? ->.
    + eapply cache_ok_set; try done.
      * intros x. destruct (decide (x = s)) as [->|Hne]; [rewrite lookup_delete_eq; set_solver|].
        rewrite lookup_delete_ne, <- Hmem by done. set_solver.
      * simpl. pose proof (list_short _ _ _ _ _ _ Hr Hd) as Hsh.
        rewrite Hcnt, !length_app in *. simpl in *. rewrite u64_small; lia.
      * intros x l' Hl'. destruct (decide (x = s)) as [->|];
          [rewrite lookup_delete_eq; naive_solver | by rewrite lookup_delete_ne].
      * intros x l' Hl' Hx. apply Hfr. intros ? Hx' ->. congruence.
    + intros x ci' l' Hne. destruct (decide (x = s)) as [->|];
        [rewrite lookup_delete_eq; naive_solver | by rewrite lookup_delete_ne].
    + intros x ci' l' Hne Hx. apply Hfr. intros ? Hx' ->. congruence.
    + intros x l' [_ Hx]%lookup_delete_Some. split; [|by eapply linkable_loc].
      apply (hr_loc _ _ _ _ Hr _ _ _ Hx).
  - intros p Hp. apply Hfr. intros x ? ->. congruence.
Qed.

End Lists.
End SlabRep.
