(* ===== verification/SlabOps.v ===== *)
(** * Steps of the slab allocator on the represented heap

    Taking an object off a slab's free list, putting one back, exchanging
    blocks with the frame allocator, marking composite pages, creating and
    evicting slabs (kernel/src/mm/slab.c). *)

From stdpp Require Import gmap sets.
From S2P Require Import Prelude Macros Locking Dll Mem FrameHdr Blocks FrameAlloc BuddyRep BuddyProof PageIface Slab SlabRep.

Module SlabOps.
Import Macros Locking Mem FrameHdr Blocks FrameAlloc BuddyRep BuddyProof PageIface Slab SlabRep.

Section Ops.
Context {PA : PageAllocator}.

(** ** One slab's administration *)

Lemma pg_get_some h s pg : h_pages h !! s = Some pg -> pg_get (Ref s) h = Ret pg.
Proof. intros Hs. unfold pg_get. by apply Dll.deref_some. Qed.

Lemma pg_upd_some h s pg f :
  h_pages h !! s = Some pg -> pg_upd (Ref s) f h = Ret (set_h_pages (<[s := f pg]> (h_pages h)) h).
Proof. intros Hs. unfold pg_upd. by rewrite (Dll.upd_some _ _ _ _ Hs). Qed.

(** A page struct just written. *)
Lemma pg_upd_again h s x pages g :
  pg_upd (Ref s) g (set_h_pages (<[s := x]> pages) h) = Ret (set_h_pages (<[s := g x]> pages) h).
Proof.
  erewrite pg_upd_some; [|apply lookup_insert_eq]. unfold h_pages. simpl.
  by rewrite insert_insert_eq.
Qed.

Lemma pg_get_again h s x pages : pg_get (Ref s) (set_h_pages (<[s := x]> pages) h) = Ret x.
Proof. apply pg_get_some. apply lookup_insert_eq. Qed.

Lemma slab_once h F own loc s ci fl s' ci' fl' p :
  heap_rep h F own loc -> own !! s = Some (OSlab ci fl) -> own !! s' = Some (OSlab ci' fl') ->
  p ∈ block s (sord ci) -> p ∈ block s' (sord ci') -> s = s' /\ ci = ci'.
Proof.
  intros Hr Hs Hs' Hp Hp'. assert (s = s') as -> by (eapply (hr_once _ _ _ _ Hr); eauto).
  split; [done|congruence].
Qed.

(** Free objects of two slabs, or two of one slab, are sixteen bytes apart. *)
Lemma objects_apart h F own loc s ci fl s' ci' fl' a a' :
  heap_rep h F own loc -> own !! s = Some (OSlab ci fl) -> own !! s' = Some (OSlab ci' fl') ->
  is_obj (h_offset h) s ci a -> is_obj (h_offset h) s' ci' a' ->
  a = a' /\ s = s' \/ a + osz ci <= a' \/ a' + osz ci' <= a.
Proof.
  intros Hr Hs Hs' (j & Hj & ->) (j' & Hj' & ->).
  destruct (hr_own _ _ _ _ Hr _ _ Hs) as (Hci & _). destruct (hr_own _ _ _ _ Hr _ _ Hs') as (Hci' & _).
  destruct (obj_apart (h_offset h) s ci j s' ci' j') as [(-> & -> & ->)|?]; auto.
  intros p Hp Hp'. eapply slab_once; eauto.
Qed.

(** Rewriting one slab's administration and free list. *)
Lemma rep_update_slab h F own loc s ci fl fl' pg pg' m :
  heap_rep h F own loc -> own !! s = Some (OSlab ci fl) -> h_pages h !! s = Some pg ->
  nxt pg' = nxt pg -> prv pg' = prv pg -> slab_head ci fl' pg' ->
  chain m fl' -> NoDup fl' -> (forall a, a ∈ fl' -> is_obj (h_offset h) s ci a) ->
  (forall s2 ci2 fl2 a, s2 <> s -> own !! s2 = Some (OSlab ci2 fl2) -> a ∈ fl2 -> read64 a m = read64 a (h_mem h)) ->
  heap_rep (set_mem m (set_h_pages (<[s := pg']> (h_pages h)) h)) F (<[s := OSlab ci fl']> own) loc.
Proof.
  intros Hr Hs Hpg Hn Hp Hhd Hch Hnd Hob Hfr.
  pose proof Hr as [Hpa Hin Hoff Hz Hb Ho H1 Hcs Hl].
  assert (forall s' o, <[s := OSlab ci fl']> own !! s' = Some o ->
            exists o', own !! s' = Some o' /\ ord_of o' = ord_of o /\
              (forall ci fl, o' = OSlab ci fl -> exists ci fl, o = OSlab ci fl)) as Hord.
  { intros s' o. destruct (decide (s' = s)) as [->|].
    - rewrite lookup_insert_eq. intros [= <-]. exists (OSlab ci fl). eauto.
    - rewrite lookup_insert_ne by done. eauto 10. }
  assert (s ∈ block s (sord ci)) as Hss.
  { apply block_nonempty. destruct (Hb _ _ Hs) as [[] _]. simpl in *. lia. }
  split; simpl; try done.
  - apply pa_stable; [done|apply dom_insert_lookup_L; by exists pg|]. intros p Hp'. apply Dll.links_eq, lookup_insert_ne.
    intros <-. destruct (Hb _ _ Hs) as [_ Hd]. by apply (Hd s).
  - intros p Hp'. unfold h_pages. simpl. rewrite lookup_insert_ne; [auto|]. intros <-.
    destruct (Hb _ _ Hs) as [_ Hd]. by apply (Hd s).
  - intros s' o (o' & Ho' & <- & _)%Hord. auto.
  - intros s' o Hs'. destruct (decide (s' = s)) as [->|Hne].
    + rewrite lookup_insert_eq in Hs'. injection Hs' as <-. destruct (Ho _ _ Hs) as (Hci & _ & _ & _ & _ & Ht).
      split; [done|]. split; [exists pg'; unfold h_pages; simpl; by rewrite lookup_insert_eq|].
      do 3 (split; [done|]). intros p Hp' Hne. unfold h_pages. simpl. rewrite lookup_insert_ne by done. auto.
    + rewrite lookup_insert_ne in Hs' by done. pose proof (Ho _ _ Hs') as Hok'.
      assert (forall p, p ∈ block s' (ord_of o) -> <[s:=pg']> (h_pages h) !! p = h_pages h !! p) as Hsame.
      { intros p Hp'. apply lookup_insert_ne. intros <-. apply Hne. symmetry. by eapply (H1 s _ s' o s). }
      assert (s' ∈ block s' (ord_of o)) as Hself
        by (apply block_nonempty; destruct (Hb _ _ Hs') as [[] _]; lia).
      destruct o as [ci2 fl2|k]; simpl in *; unfold h_pages in *; simpl in *.
      * destruct Hok' as (? & ? & Hc2 & ? & ? & Ht2). split; [done|]. rewrite Hsame by done.
        split; [done|]. split; [eapply chain_ext; [|done]; eauto|]. do 2 (split; [done|]).
        intros p Hp' Hnp. rewrite Hsame by done. auto.
      * rewrite Hsame by done. destruct Hok' as [? Ht2]. split; [done|].
        intros p Hp' Hnp. rewrite Hsame by done. auto.
  - intros s1 o1 s2 o2 p (? & ? & <- & _)%Hord (? & ? & <- & _)%Hord. eauto.
  - intros ci' Hci'. destruct (Hcs ci' Hci') as (c & Hc & [Hst Hls]). exists c. split; [done|].
    split; [done|]. intros l. destruct (Hls l) as (ls & Hd & Hmem). exists ls. split; [|done].
    by eapply Dll.dll_insert_payload.
  - intros s' ci' l Hs'. destruct (Hl _ _ _ Hs') as (? & Hsome & ? & Hlk). split; [done|].
    split; [unfold h_pages; simpl; rewrite lookup_insert_is_Some'; by right|]. split; [done|].
    intros s2 o (o' & Ho' & <- & Hsl)%Hord Hin2. destruct (Hlk s2 o' Ho' Hin2) as (-> & ci2 & fl2 & ->).
    split; [done|]. by eapply Hsl.
Qed.

(** The counters and the lock of a cache do not matter to the representation. *)
Lemma rep_set_cache h F own loc ci c c' :
  heap_rep h F own loc -> h_caches h !! ci = Some c ->
  sc_pages_per_slab c' = sc_pages_per_slab c -> sc_obj_size c' = sc_obj_size c -> sc_obj_md_size c' = sc_obj_md_size c ->
  (forall l, head_get l c' = head_get l c) -> (forall l, count_get l c' = count_get l c) ->
  heap_rep (set_caches (<[ci := c']> (h_caches h)) h) F own loc.
Proof.
  intros [] Hc Hp Hs Hm Hhd Hcnt. split; simpl; try done. intros ci' Hci'. destruct (decide (ci' = ci)) as [->|].
  - rewrite lookup_insert_eq. destruct (hr_caches0 ci Hci') as (c0 & Hc0 & [[] Hls]).
    assert (c0 = c) as -> by congruence. exists c'. split; [done|]. split; [split; congruence|].
    intros l. rewrite Hhd, Hcnt. apply Hls.
  - rewrite lookup_insert_ne by done. auto.
Qed.

Lemma rep_set_totals h F own loc ci c t a :
  heap_rep h F own loc -> h_caches h !! ci = Some c ->
  heap_rep (set_caches (<[ci := set_totals t a c]> (h_caches h)) h) F own loc /\
  hsame h (set_caches (<[ci := set_totals t a c]> (h_caches h)) h).
Proof.
  intros Hr Hc. split; [by eapply rep_set_cache|].
  split; simpl; try done. intros i. unfold locks. simpl.
  destruct (decide (i = ci)) as [->|]; [by rewrite lookup_insert_eq, Hc | by rewrite lookup_insert_ne].
Qed.

Lemma obj_bounds h F own loc s ci fl a :
  heap_rep h F own loc -> own !! s = Some (OSlab ci fl) -> is_obj (h_offset h) s ci a ->
  0 < a /\ a + osz ci < 2 ^ 64.
Proof.
  intros Hr Hs (j & Hj & ->). destruct (hr_own _ _ _ _ Hr _ _ Hs) as (Hci & _).
  destruct (hr_blocks _ _ _ _ Hr _ _ Hs) as [[_ Hs0 Hsn _] _]. simpl in *.
  destruct (pa_count _ _ (hr_pa _ _ _ _ Hr)) as (Hn & _). destruct (hr_off _ _ _ _ Hr).
  destruct (obj_range (h_offset h) s ci j Hci Hj).
  unfold PAGE_SIZE in *. lia.
Qed.

Lemma set_caches_pages c p h : set_caches c (set_h_pages p h) = set_h_pages p (set_caches c h).
Proof. done. Qed.

(** A slab has at most [nobj] free objects. *)
Lemma free_count off s ci fl :
  cache_ix ci -> NoDup fl -> (forall a, a ∈ fl -> is_obj off s ci a) -> Z.of_nat (length fl) <= nobj ci.
Proof.
  intros Hci Hnd Hob. destruct (cache_facts ci Hci) as (_ & _ & HN & _).
  assert (length fl <= length (obj off s ci <$> seqZ 0 (nobj ci)))%nat as Hle.
  { apply submseteq_length, NoDup_submseteq; [done|]. intros a (j & Hj & ->)%Hob.
    apply list_elem_of_fmap_2, elem_of_seqZ. lia. }
  rewrite length_fmap, length_seqZ in Hle. lia.
Qed.

(** Taking the first free object. *)
Lemma take_object_spec h F own loc s ci a fl :
  heap_rep h F own loc -> own !! s = Some (OSlab ci (a :: fl)) ->
  returns (take_object (Ref s) h) (fun '(ret, h') =>
    ret = a /\ heap_rep h' F (<[s := OSlab ci fl]> own) loc /\ hsame h h' /\ h_mem h' = h_mem h).
Proof.
  intros Hr Hs. destruct (hr_own _ _ _ _ Hr _ _ Hs) as (Hci & (pg & Hpg & Hhd) & [Hrd Hch] & Hnd & Hob & _).
  destruct Hhd as [Hfl Hca Hfr Hus Hto]. destruct (cache_facts ci Hci) as (_ & _ & HN & _).
  destruct (obj_bounds _ _ _ _ _ _ _ a Hr Hs) as [Ha0 _]; [apply Hob; left|].
  destruct (cache_get_ok _ _ _ _ ci Hr Hci) as (c & Hc & _ & _).
  unfold take_object. mpure (pg_get_some _ _ _ Hpg). rewrite Hfr, Hca. simpl.
  destruct (Z.eqb_spec a 0); [lia|]. simpl.
  mpure (pg_upd_some _ _ _ (set_freelist (Num (read64 a (h_mem h)))) Hpg).
  unfold cache_upd. simpl. rewrite Hc. simpl. rewrite set_caches_pages.
  mret pg_upd_again. simpl. split; [done|].
  destruct (rep_set_totals h F own loc ci c (sc_total_objs c) (sc_total_objs_allocated c + 1) Hr Hc) as [Hr1 Hs1].
  split; [|split; [|done]].
  - eapply (rep_update_slab _ _ _ _ s ci (a :: fl) fl pg _ (h_mem h) Hr1 Hs Hpg); try done.
    + split; simpl; try done; [by rewrite Hrd|]. rewrite Hus.
      pose proof (free_count _ _ _ _ Hci Hnd Hob). simpl in *. rewrite u16_small; lia.
    + by apply NoDup_cons in Hnd as [_ ?].
    + intros x Hx. apply Hob. by right.
  - etrans; [exact Hs1|]. by split.
Qed.

(** Putting an object back in front. *)
Lemma rep_give_back h F own loc s ci fl a pg :
  heap_rep h F own loc -> own !! s = Some (OSlab ci fl) -> h_pages h !! s = Some pg ->
  is_obj (h_offset h) s ci a -> a ∉ fl ->
  heap_rep (set_mem (write64 a (hd 0 fl) (h_mem h))
    (set_h_pages (<[s := set_used (p_used_objs pg - 1) (set_freelist (Num a) pg)]> (h_pages h)) h))
    F (<[s := OSlab ci (a :: fl)]> own) loc.
Proof.
  intros Hr Hs Hpg Hoa Hna.
  destruct (hr_own _ _ _ _ Hr _ _ Hs) as (Hci & (pg' & Hpg' & Hhd) & Hch & Hnd & Hob & _).
  assert (pg' = pg) as -> by congruence. destruct Hhd as [Hfl Hca Hfr Hus Hto].
  destruct (cache_facts ci Hci) as (_ & Hosz & HN & _).
  assert (forall s2 ci2 fl2 b, own !! s2 = Some (OSlab ci2 fl2) -> b ∈ fl2 -> b <> a ->
            read64 b (write64 a (hd 0 fl) (h_mem h)) = read64 b (h_mem h)) as Hother.
  { intros s2 ci2 fl2 b Hs2 Hb Hne. apply read64_write64_other.
    destruct (hr_own _ _ _ _ Hr _ _ Hs2) as (Hci2 & _ & _ & _ & Hob2 & _).
    destruct (cache_facts ci2 Hci2) as (_ & Hosz2 & _ & _).
    destruct (objects_apart _ _ _ _ _ _ _ _ _ _ a b Hr Hs Hs2 Hoa (Hob2 _ Hb)) as [[? _]|?]; [congruence|lia]. }
  assert (0 <= hd 0 fl < 2 ^ 64) as Hhd0.
  { destruct fl as [|b fl']; simpl; [lia|].
    destruct (obj_bounds _ _ _ _ _ _ _ b Hr Hs) as [? ?]; [apply Hob; left|lia]. }
  eapply rep_update_slab; try done.
  - split; simpl; try done. rewrite Hus.
    assert (Z.of_nat (length (a :: fl)) <= nobj ci) as Hlen; [|simpl in Hlen; rewrite u16_small; lia].
    eapply (free_count (h_offset h) s); [done|by apply NoDup_cons|].
    intros b [->|Hb]%elem_of_cons; auto.
  - split; [by rewrite read64_write64|]. eapply chain_ext; [|done]. intros b Hb.
    eapply Hother; [done|done|set_solver].
  - by apply NoDup_cons.
  - intros b [->|Hb]%elem_of_cons; auto.
  - intros s2 ci2 fl2 b Hne Hs2 Hb. eapply Hother; [done|done|].
    intros ->. destruct (hr_own _ _ _ _ Hr _ _ Hs2) as (Hci2 & _ & _ & _ & Hob2 & _).
    destruct (cache_facts ci2 Hci2) as (_ & Hosz2 & _ & _).
    destruct (objects_apart _ _ _ _ _ _ _ _ _ _ a a Hr Hs Hs2 Hoa (Hob2 _ Hb)) as [[_ ?]|?]; [done|lia].
Qed.

(** ** Exchanging blocks with the frame allocator *)

(** The frame allocator changed at most the links of the frames [X], none of
    which the heap uses. *)
Lemma rep_mm h F own loc st F' (X : gset Z) :
  heap_rep h F own loc -> kept (h_mm h) st -> untouched (fun p => p ∈ X) (h_mm h) st -> pa_ok st F' ->
  F' ⊆ X -> (forall s o, own !! s = Some o -> block s (ord_of o) ## X) ->
  (forall p, p ∈ X -> loc !! p = None) ->
  (forall p, p ∈ X -> exists pg, h_pages h !! p = Some pg /\ p_flags pg = 0) ->
  heap_rep (set_mm st h) F' own loc.
Proof.
  intros [Hpa Hin Hoff Hz Hb Ho H1 Hcs Hl] (Hn & _ & _ & _ & Hrl) Hun Hpa' Hsub Hdis Hlx Hzx.
  assert (forall p, p ∉ X -> mm_pages st !! p = h_pages h !! p) as Hsame by apply Hun.
  split; simpl; try done.
  - by rewrite Hn.
  - intros p Hp. destruct (Hzx p) as (pg & Hpg & Hf); [auto|].
    destruct (Dll.relinked_lookup _ _ _ _ Hrl Hpg) as (pg' & Hpg' & Hpay). exists pg'.
    split; [done|]. rewrite <- Hf. by injection Hpay.
  - intros s o Hs. rewrite Hn. destruct (Hb s o Hs). split; [done|]. specialize (Hdis s o Hs).
    clear -Hdis Hsub. set_solver.
  - intros s o Hs. specialize (Ho s o Hs). destruct (Hb s o Hs) as [[? _ _ _] _].
    assert (forall p, p ∈ block s (ord_of o) -> mm_pages st !! p = h_pages h !! p) as Hs2.
    { intros p Hp. apply Hsame. intros HX. by apply (Hdis s o Hs p). }
    assert (s ∈ block s (ord_of o)) by (apply block_nonempty; lia).
    destruct o as [ci fl|k]; simpl in *; unfold h_pages; simpl.
    + destruct Ho as (? & ? & ? & ? & ? & Ht). rewrite Hs2 by done.
      do 5 (split; [done|]). intros p Hp Hne. rewrite Hs2 by done. auto.
    + rewrite Hs2 by done. destruct Ho as [? Ht]. split; [done|]. intros p Hp Hne.
      rewrite Hs2 by done. auto.
  - intros ci Hci. destruct (Hcs ci Hci) as (c & Hc & [Hst Hls]). exists c. split; [done|].
    split; [done|]. intros l. destruct (Hls l) as (ls & Hd & Hmem & Hcnt). exists ls.
    split; [|done]. eapply Dll.dll_frame; [done|]. intros a Ha%Hmem. unfold h_pages. simpl.
    apply Hsame. intros HX. rewrite Hlx in Ha; done.
  - intros s ci l Hs. destruct (Hl s ci l Hs) as (? & Hsome & ? & Hlk).
    assert (s ∉ X) as HsX by (intros HX; rewrite Hlx in Hs; done).
    split; [done|]. unfold h_pages. simpl. rewrite Hsame by done. split; [done|]. split; [|done].
    intros HF. by apply HsX, Hsub.
Qed.

Lemma kept_hsame h st : kept (h_mm h) st -> hsame h (set_mm st h).
Proof. intros (? & _ & _ & ? & _). by split. Qed.

(** ** Pages the heap holds but has not assigned *)

Definition unowned (own : gmap Z owner) (p : Z) : Prop :=
  forall s o, own !! s = Some o -> p ∉ block s (ord_of o).

(** Writing page structs and memory that belong to no owner. *)
Lemma rep_private h F own loc pages m :
  heap_rep h F own loc -> dom pages = dom (h_pages h) ->
  (forall p, pages !! p = h_pages h !! p \/
        ((p ∈ F -> p_flags <$> pages !! p = p_flags <$> h_pages h !! p) /\ unowned own p /\
           Dll.links pages p = Dll.links (h_pages h) p) \/
        (p ∉ F /\ unowned own p /\ loc !! p = None)) ->
  (forall s ci fl a, own !! s = Some (OSlab ci fl) -> a ∈ fl -> read64 a m = read64 a (h_mem h)) ->
  heap_rep (set_mem m (set_h_pages pages h)) F own loc.
Proof.
  intros [Hpa Hin Hoff Hz Hb Ho H1 Hcs Hl] Hdom Hch Hm.
  assert (forall p, p ∈ F -> p_flags <$> pages !! p = p_flags <$> h_pages h !! p /\
            Dll.links pages p = Dll.links (h_pages h) p) as HF.
  { intros p Hp. destruct (Hch p) as [Heq|[(Hf & _ & Hk)|[? _]]]; [|auto|done].
    by rewrite Heq, (Dll.links_eq _ _ _ Heq). }
  assert (forall s o p, own !! s = Some o -> p ∈ block s (ord_of o) -> pages !! p = h_pages h !! p) as HO.
  { intros s o p Hs Hp. destruct (Hch p) as [|[(_ & Hu & _)|(_ & Hu & _)]]; [done|..]; by destruct (Hu s o Hs). }
  split; simpl; try done.
  - apply pa_stable; [done|done|]. apply HF.
  - intros p Hp. destruct (Hz p Hp) as (pg & Hpg & Hf). destruct (HF p Hp) as [Hfl _].
    rewrite Hpg in Hfl. unfold h_pages. simpl. destruct (pages !! p) as [pg'|]; [|done].
    exists pg'. split; [done|]. simpl in Hfl. congruence.
  - intros s o Hs. specialize (Ho s o Hs). destruct (Hb s o Hs) as [[? _ _ _] _].
    assert (s ∈ block s (ord_of o)) by (apply block_nonempty; lia).
    destruct o as [ci fl|k]; simpl in *; unfold h_pages; simpl.
    + destruct Ho as (? & ? & ? & ? & ? & Ht). rewrite (HO s (OSlab ci fl) s) by done.
      do 2 (split; [done|]). split; [eapply chain_ext; [|done]; eauto|]. do 2 (split; [done|]).
      intros p Hp Hne. rewrite (HO s (OSlab ci fl) p) by done. auto.
    + rewrite (HO s (OBig k) s) by done. destruct Ho as [? Ht]. split; [done|]. intros p Hp Hne.
      rewrite (HO s (OBig k) p) by done. auto.
  - intros ci Hci. destruct (Hcs ci Hci) as (c & Hc & [Hst Hls]). exists c. split; [done|].
    split; [done|]. intros l. destruct (Hls l) as (ls & Hd & Hmem & Hcnt). exists ls.
    split; [|done]. eapply Dll.dll_links; [done|]. intros a Ha%Hmem. unfold h_pages. simpl.
    destruct (Hch a) as [Heq|[(_ & _ & ?)|(_ & _ & ?)]]; [unfold Dll.links; by rewrite Heq|done|congruence].
  - intros s ci l Hs. destruct (Hl s ci l Hs) as (? & Hsome & ? & Hlk). split; [done|].
    unfold h_pages. simpl. split; [|done]. by rewrite <- elem_of_dom, Hdom, elem_of_dom.
Qed.

(** A held block gets an owner, an owner gives its block up. *)
Lemma rep_adopt h F own loc s o :
  heap_rep h F own loc -> own !! s = None -> block_ok (mm_pages_count (h_mm h)) (ord_of o) s ->
  block s (ord_of o) ## F -> (forall p, p ∈ block s (ord_of o) -> unowned own p) -> owner_ok h s o ->
  (forall p, p ∈ block s (ord_of o) -> is_Some (loc !! p) -> p = s /\ exists ci fl, o = OSlab ci fl) ->
  heap_rep h F (<[s := o]> own) loc.
Proof.
  intros [Hpa Hin Hoff Hz Hb Ho H1 Hcs Hl] Hs Hbk Hd Hu Hok Hloc.
  assert (s ∈ block s (ord_of o)) as Hss by (apply block_nonempty; destruct Hbk; lia).
  split; try done.
  - intros s' o'. destruct (decide (s' = s)) as [->|];
      [rewrite lookup_insert_eq; by intros [= <-] | rewrite lookup_insert_ne by done; auto].
  - intros s' o'. destruct (decide (s' = s)) as [->|];
      [rewrite lookup_insert_eq; by intros [= <-] | rewrite lookup_insert_ne by done; auto].
  - intros s1 o1 s2 o2 p.
    destruct (decide (s1 = s)) as [->|], (decide (s2 = s)) as [->|]; rewrite ?lookup_insert_eq;
      rewrite ?lookup_insert_ne by done; [done| | |by apply H1].
    + intros [= <-] Hs2 Hp Hp2. by destruct (Hu p Hp s2 o2).
    + intros Hs1 [= <-] Hp1 Hp. by destruct (Hu p Hp s1 o1).
  - intros s' ci l Hs'. destruct (Hl s' ci l Hs') as (? & ? & ? & Hlk). do 3 (split; [done|]).
    intros s2 o2. destruct (decide (s2 = s)) as [->|].
    + rewrite lookup_insert_eq. intros [= <-] Hp. destruct (Hloc s' Hp) as [-> ?]; [by rewrite Hs'|done].
    + rewrite lookup_insert_ne by done. apply Hlk.
Qed.

Lemma rep_disown h F own loc s :
  heap_rep h F own loc -> heap_rep h F (delete s own) loc.
Proof.
  intros [Hpa Hin Hoff Hz Hb Ho H1 Hcs Hl]. split; try done.
  - intros s' o [_ Hs']%lookup_delete_Some. auto.
  - intros s' o [_ Hs']%lookup_delete_Some. auto.
  - intros s1 o1 s2 o2 p [_ ?]%lookup_delete_Some [_ ?]%lookup_delete_Some. eauto.
  - intros s' ci l Hs'. destruct (Hl s' ci l Hs') as (? & ? & ? & Hlk). do 3 (split; [done|]).
    intros s2 o2 [_ ?]%lookup_delete_Some. by apply Hlk.
Qed.

(** The pages of an owner's block are no one else's once it is gone. *)
Lemma unowned_delete h F own loc s o p :
  heap_rep h F own loc -> own !! s = Some o -> p ∈ block s (ord_of o) -> unowned (delete s own) p.
Proof.
  intros Hr Hs Hp s' o' [Hne Hs']%lookup_delete_Some Hp'. apply Hne.
  by eapply (hr_once _ _ _ _ Hr s o s' o' p).
Qed.

(** ** Composite pages *)

(** [pages'] marks the pages [i+1 .. i+n] as tails of [i]. *)
Lemma mark_tails_spec n i h :
  0 <= i ->
  (forall p, i < p <= i + Z.of_nat n -> exists pg, h_pages h !! p = Some pg /\ p_flags pg = 0) ->
  returns (mark_tails n i (Ref i) h) (fun h' => exists pages,
    h' = set_h_pages pages h /\ dom pages = dom (h_pages h) /\
    (forall p, ~ (i < p <= i + Z.of_nat n) -> pages !! p = h_pages h !! p) /\
    (forall p, i < p <= i + Z.of_nat n -> exists pg, pages !! p = Some pg /\ tail_page i pg)).
Proof.
  intros Hi. revert h. induction n as [|n IH]; intros h Hz.
  { simpl. exists (h_pages h). split; [by destruct h as [[]]|]. split; [done|]. split; [done|]. lia. }
  cbn [mark_tails]. set (q := i + Z.of_nat (S n)) in *.
  destruct (Hz q) as (pg & Hpg & Hf); [lia|]. mpure (pg_get_some _ _ _ Hpg). rewrite Hf. simpl.
  mpure (pg_upd_some _ _ _ (fun p => set_flags (Z.lor (p_flags p) STRUCT_PAGE_FLAG_COMPOSITE_TAIL) p) Hpg).
  mret pg_upd_again. set (pg' := set_slot0 (Ref i) _).
  eapply returns_mono; [apply IH|].
  - intros p Hp. unfold h_pages. simpl. rewrite lookup_insert_ne by lia. apply Hz. lia.
  - intros h' (pages & -> & Hdom & Hout & Hin). exists pages. unfold h_pages in *. simpl in *.
    split; [done|]. split; [rewrite Hdom; apply dom_insert_lookup_L; by exists pg|]. split.
    + intros p Hp. rewrite Hout, lookup_insert_ne by lia. done.
    + intros p Hp. destruct (decide (p = q)) as [->|]; [|apply Hin; lia].
      exists pg'. rewrite Hout by lia. rewrite lookup_insert_eq. split; [done|].
      split; [simpl; by rewrite Hf|done].
Qed.

Lemma unmark_tails_spec n i h :
  0 <= i ->
  (forall p, i < p <= i + Z.of_nat n ->
     exists pg, h_pages h !! p = Some pg /\ p_flags pg = STRUCT_PAGE_FLAG_COMPOSITE_TAIL) ->
  returns (unmark_tails n i h) (fun h' => exists pages,
    h' = set_h_pages pages h /\ dom pages = dom (h_pages h) /\
    (forall p, ~ (i < p <= i + Z.of_nat n) -> pages !! p = h_pages h !! p) /\
    (forall p, i < p <= i + Z.of_nat n -> exists pg, pages !! p = Some pg /\ p_flags pg = 0)).
Proof.
  intros Hi. revert h. induction n as [|n IH]; intros h Hz.
  { simpl. exists (h_pages h). split; [by destruct h as [[]]|]. split; [done|]. split; [done|]. lia. }
  cbn [unmark_tails]. set (q := i + Z.of_nat (S n)) in *.
  destruct (Hz q) as (pg & Hpg & Hf); [lia|]. mpure (pg_get_some _ _ _ Hpg). rewrite Hf. simpl.
  mret (pg_upd_some _ _ _ _ Hpg).
  eapply returns_mono; [apply IH|].
  - intros p Hp. unfold h_pages. simpl. rewrite lookup_insert_ne by lia. apply Hz. lia.
  - intros h' (pages & -> & Hdom & Hout & Hin). exists pages. unfold h_pages in *. simpl in *.
    split; [done|]. split; [rewrite Hdom; apply dom_insert_lookup_L; by exists pg|]. split.
    + intros p Hp. rewrite Hout, lookup_insert_ne by lia. done.
    + intros p Hp. destruct (decide (p = q)) as [->|]; [|apply Hin; lia].
      eexists. rewrite Hout by lia. rewrite lookup_insert_eq. split; [done|]. simpl. by rewrite Hf.
Qed.

(** ** The free list of a new slab *)

Lemma build_freelist_spec n i base md m :
  16 <= md -> 0 <= i -> 0 < base -> base + (i + Z.of_nat n) * md < 2 ^ 64 ->
  let m' := build_freelist n i base md m in
  (forall j, i <= j < i + Z.of_nat n -> read64 (base + j * md) m' = base + (j + 1) * md) /\
  (forall x, x < base + i * md \/ base + (i + Z.of_nat n) * md <= x -> rd m' x = rd m x).
Proof.
  intros Hmd. revert i m. induction n as [|n IH]; intros i m Hi Hb Hlt; simpl.
  { split; [lia|done]. }
  destruct (IH (i + 1) (write64 (base + i * md) (base + (i + 1) * md) m)) as [IH1 IH2]; [lia|lia|nia|].
  split.
  - intros j Hj. destruct (decide (j = i)) as [->|Hne]; [|apply IH1; lia].
    erewrite read64_ext; [apply read64_write64; nia|]. intros x Hx. apply IH2. nia.
  - intros x Hx. rewrite IH2 by nia. apply write64_other. nia.
Qed.

Lemma chain_seq m A i n :
  (forall j, i <= j < i + Z.of_nat n -> read64 (A j) m = if decide (j + 1 < i + Z.of_nat n) then A (j + 1) else 0) ->
  chain m (A <$> seqZ i (Z.of_nat n)).
Proof.
  revert i. induction n as [|n IH]; intros i Hrd; [done|].
  rewrite seqZ_cons, fmap_cons by lia. replace (Z.pred (Z.of_nat (S n))) with (Z.of_nat n) by lia.
  rewrite <- Z.add_1_r. split.
  - rewrite Hrd by lia. destruct n as [|n].
    + rewrite decide_False by lia. done.
    + rewrite decide_True by lia. rewrite seqZ_cons by lia. done.
  - apply IH. intros j Hj. rewrite Hrd by lia.
    replace (i + 1 + Z.of_nat n) with (i + Z.of_nat (S n)) by lia. done.
Qed.

Definition all_objs (off s ci : Z) : list Z := obj off s ci <$> seqZ 0 (nobj ci).

Lemma all_objs_facts off s ci :
  cache_ix ci ->
  NoDup (all_objs off s ci) /\ Z.of_nat (length (all_objs off s ci)) = nobj ci /\
  (forall a, a ∈ all_objs off s ci <-> is_obj off s ci a) /\
  hd 0 (all_objs off s ci) = off + s * PAGE_SIZE.
Proof.
  intros Hci. destruct (cache_facts ci Hci) as (_ & _ & HN & _). unfold all_objs. split; [|split; [|split]].
  - apply NoDup_fmap_2_strong; [|apply NoDup_seqZ]. intros j j' _ _. by apply obj_inj.
  - rewrite length_fmap, length_seqZ. lia.
  - intros a. rewrite list_elem_of_fmap. unfold is_obj. setoid_rewrite elem_of_seqZ. split.
    + intros (j & -> & Hj). exists j. split; [lia|done].
    + intros (j & Hj & ->). exists j. split; [done|lia].
  - rewrite seqZ_cons by lia. simpl. unfold obj. lia.
Qed.

(** The memory of a new slab: all objects chained, nothing else written. *)
Lemma new_freelist off s ci m :
  cache_ix ci -> 0 < off -> 0 <= s -> off + (s + 2 ^ sord ci) * PAGE_SIZE < 2 ^ 64 ->
  let base := off + s * PAGE_SIZE in
  let m' := write64 (base + (nobj ci - 1) * osz ci) 0
              (build_freelist (Z.to_nat (nobj ci - 1)) 0 base (osz ci) m) in
  chain m' (all_objs off s ci) /\
  forall x, x < base \/ base + 2 ^ sord ci * PAGE_SIZE <= x -> rd m' x = rd m x.
Proof.
  intros Hci Hoff Hs Hlt. cbn zeta. destruct (cache_facts ci Hci) as (_ & Hosz & HN & Hsz).
  assert (0 <= s * PAGE_SIZE) by (unfold PAGE_SIZE; lia).
  destruct (build_freelist_spec (Z.to_nat (nobj ci - 1)) 0 (off + s * PAGE_SIZE) (osz ci) m) as [H1 H2];
    [lia|lia|lia|rewrite Z2Nat.id by lia; nia|].
  rewrite Z2Nat.id in * by lia. set (m1 := build_freelist _ _ _ _ _) in *. split.
  - unfold all_objs. rewrite <- (Z2Nat.id (nobj ci)) at 2 by lia. apply chain_seq.
    intros j Hj. rewrite Z2Nat.id in * by lia. unfold obj.
    destruct (decide (j + 1 < 0 + nobj ci)) as [Hlt'|Hge].
    + rewrite read64_write64_other by nia. apply H1. lia.
    + assert (j = nobj ci - 1) as -> by lia. apply read64_write64. lia.
  - intros x Hx. rewrite write64_other by nia. apply H2. nia.
Qed.

(** ** New slabs *)

(** Taking a block from the frame allocator: its pages have no flags, no
    owner and are on no list. *)
Lemma block_taken h F own loc st s k :
  heap_rep h F own loc -> kept (h_mm h) st -> untouched (fun p => p ∈ F) (h_mm h) st ->
  block_ok (mm_pages_count (h_mm h)) k s -> block s k ⊆ F -> pa_ok st (F ∖ block s k) ->
  heap_rep (set_mm st h) (F ∖ block s k) own loc /\ own !! s = None /\
  (forall p, p ∈ block s k -> p ∉ F ∖ block s k /\ unowned own p /\ loc !! p = None /\
     exists pg, h_pages (set_mm st h) !! p = Some pg /\ p_flags pg = 0).
Proof.
  intros Hr Hk Hun Hbk Hsub Hpa. pose proof Hr as [Hpa0 Hin Hoff Hz Hb Ho H1 Hcs Hl].
  assert (forall p, p ∈ F -> loc !! p = None) as Hloc.
  { intros p Hp. destruct (loc !! p) as [[ci l]|] eqn:Hp'; [|done]. by destruct (Hl _ _ _ Hp') as (_ & _ & ? & _). }
  split; [|split].
  - eapply rep_mm; try done; [clear; set_solver|]. intros s' o Hs'. by apply Hb.
  - destruct (own !! s) as [o|] eqn:Hs; [|done]. destruct (Hb _ _ Hs) as [[? _ _ _] Hd].
    destruct (Hd s); [apply block_nonempty; lia|]. apply Hsub, block_nonempty. destruct Hbk. lia.
  - intros p Hp. split; [clear -Hp; set_solver|]. split; [|split; [auto|]].
    + intros s' o Hs' Hp'. destruct (Hb _ _ Hs') as [_ Hd]. apply (Hd p); auto.
    + destruct (Hz p) as (pg & Hpg & Hf); [auto|]. destruct Hk as (_ & _ & _ & _ & Hrl).
      destruct (Dll.relinked_lookup _ _ _ _ Hrl Hpg) as (pg' & Hpg' & Hpay). exists pg'.
      split; [done|]. rewrite <- Hf. by injection Hpay.
Qed.

Lemma set_mem_pages m p h : set_mem m (set_h_pages p h) = set_h_pages p (set_mem m h).
Proof. done. Qed.

(** [_mark_composite_page] on a block whose pages have no flags yet. *)
Lemma mark_composite_spec h s k pg :
  block_ok (mm_pages_count (h_mm h)) k s -> h_pages h !! s = Some pg ->
  (forall p, p ∈ block s k -> exists pg, h_pages h !! p = Some pg /\ p_flags pg = 0) ->
  returns (_mark_composite_page (Ref s) (order2size k) h) (fun h' => exists pages,
    h' = set_h_pages pages h /\ dom pages = dom (h_pages h) /\
    pages !! s = Some (set_flags STRUCT_PAGE_FLAG_SLAB_COMPOSITE_HEAD pg) /\
    (forall p, p ∉ block s k -> pages !! p = h_pages h !! p) /\
    (forall p, p ∈ block s k -> p <> s -> exists pg, pages !! p = Some pg /\ tail_page s pg)).
Proof.
  intros [Hk Hs0 Hsn _] Hpg Hz. unfold max_order in Hk. pose proof (pow2_pos k).
  unfold _mark_composite_page. rewrite order2size_pow by lia.
  mpure (pg_get_some _ _ _ Hpg). destruct (Hz s) as (pg' & Hpg' & Hf); [apply block_nonempty; lia|].
  assert (pg' = pg) as -> by congruence. rewrite Hf. destruct (Z.eqb_spec (2 ^ k) 0); [lia|]. simpl.
  mret (pg_upd_some _ _ _ _ Hpg). mret page2idx_ret; [simpl; lia|]. rewrite Hf.
  assert (2 ^ k <= 2 ^ 10) by (apply Z.pow_le_mono_r; lia). rewrite u64_small by lia.
  assert (forall p, s < p <= s + Z.of_nat (Z.to_nat (2 ^ k - 1)) <-> p ∈ block s k /\ p <> s) as Hrange
    by (intros p; rewrite elem_block; lia).
  eapply returns_mono; [apply mark_tails_spec; [lia|]|].
  - intros p [Hp Hne]%Hrange. unfold h_pages. simpl. rewrite lookup_insert_ne by done. auto.
  - intros h' (pages & -> & Hdom & Hout & Hin). exists pages. unfold h_pages in *. simpl in *.
    split; [done|]. split; [rewrite Hdom; apply dom_insert_lookup_L; by exists pg|].
    split; [|split].
    + rewrite Hout by (rewrite Hrange; tauto). by rewrite lookup_insert_eq.
    + intros p Hp. rewrite Hout by (rewrite Hrange; tauto). apply lookup_insert_ne. intros <-.
      apply Hp, block_nonempty. lia.
    + intros p Hp Hne. apply Hin. by apply Hrange.
Qed.

(** The page struct [new_slab] fills in. *)
Lemma new_head_page ci fl pg base :
  cache_ix ci -> p_flags pg = 0 -> Z.of_nat (length fl) = nobj ci -> hd 0 fl = base ->
  slab_head ci fl (set_flags STRUCT_PAGE_FLAG_SLAB_COMPOSITE_HEAD
    (set_freelist (Num base) (set_used 0 (set_total (nobj ci) (set_this_cache (Ref ci) pg))))).
Proof.
  intros Hci Hf Hlen Hhd. destruct (cache_facts ci Hci) as (_ & _ & HN & _).
  split; simpl; rewrite ?u16_small by lia; try done; [by rewrite Hhd|lia].
Qed.

(** Outside the bytes of the block [s], [k]. *)
Definition outside (off s k x : Z) : Prop := x < off + s * PAGE_SIZE \/ off + (s + 2 ^ k) * PAGE_SIZE <= x.

(** Memory of a block that has no owner is no one's free object. *)
Lemma free_objects_outside h F own loc s k m :
  heap_rep h F own loc -> 0 <= k -> (forall p, p ∈ block s k -> unowned own p) ->
  (forall x, outside (h_offset h) s k x -> rd m x = rd (h_mem h) x) ->
  forall s' ci fl a, own !! s' = Some (OSlab ci fl) -> a ∈ fl -> read64 a m = read64 a (h_mem h).
Proof.
  intros Hr Hk Hu Hm s' ci fl a Hs' Ha. destruct (hr_own _ _ _ _ Hr _ _ Hs') as (Hci & _ & _ & _ & Hob & _).
  destruct (Hob a Ha) as (j & Hj & ->). destruct (obj_range (h_offset h) s' ci j Hci Hj) as [Hlo Hhi].
  destruct (cache_facts ci Hci) as (? & ? & _ & _). pose proof (pow2_pos (sord ci)). pose proof (pow2_pos k).
  apply read64_ext. intros x Hx. apply Hm. unfold outside.
  destruct (decide (s' + 2 ^ sord ci <= s)); [left; unfold PAGE_SIZE in *; lia|].
  destruct (decide (s + 2 ^ k <= s')); [right; unfold PAGE_SIZE in *; lia|].
  destruct (Hu (Z.max s s') ltac:(rewrite elem_block; lia) _ _ Hs'). simpl. rewrite elem_block. lia.
Qed.

Lemma slab2addr_ret h s :
  0 <= s < mm_pages_count (h_mm h) -> mm_pages_count (h_mm h) <= 2 ^ 40 -> slab2addr (Ref s) h = Ret (s * PAGE_SIZE).
Proof.
  intros Hs Hn. unfold slab2addr. rewrite page2idx_ret by lia. simpl.
  rewrite Z.shiftl_mul_pow2 by (unfold PAGE_SHIFT; lia). unfold PAGE_SHIFT. rewrite u64_small; [done|lia].
Qed.

(** The end of [new_slab]: link the slab whose page struct and free list are
    written, mark its pages. *)
Lemma finish_slab_spec h F own loc ci s pg fl :
  heap_rep h F own loc -> cache_ix ci -> own !! s = None -> block_ok (mm_pages_count (h_mm h)) (sord ci) s ->
  (forall p, p ∈ block s (sord ci) -> p ∉ F /\ unowned own p /\ loc !! p = None /\
     exists pg, h_pages h !! p = Some pg /\ p_flags pg = 0) ->
  h_pages h !! s = Some pg -> slab_head ci fl (set_flags STRUCT_PAGE_FLAG_SLAB_COMPOSITE_HEAD pg) ->
  chain (h_mem h) fl -> NoDup fl -> (forall a, a ∈ fl -> is_obj (h_offset h) s ci a) ->
  returns (h ← slab_link Full (Ref s) (Ref ci) h;
           p ← pg_get (Ref s) h;
           h ← cache_upd (Ref ci) (fun k => set_totals (sc_total_objs k + p_total_objs p) (sc_total_objs_allocated k) k) h;
           _mark_composite_page (Ref s) (2 ^ sord ci) h)
    (fun h' => heap_rep h' F (<[s := OSlab ci fl]> own) (<[s := (ci, Full)]> loc) /\ hsame h h' /\ h_mem h' = h_mem h).
Proof.
  intros Hr Hci Hs Hbk Hblk Hpg Hhd Hch Hnd Hob. pose proof Hbk as [Hk Hs0 Hsn _]. unfold max_order in Hk.
  assert (s ∈ block s (sord ci)) as Hss by (apply block_nonempty; lia).
  destruct (Hblk s Hss) as (HsF & Hsu & Hsl & _).
  mcall (slab_link_spec h F own loc ci Full s Hr Hci Hsl); [by exists pg|split; [done|]|].
  { intros s' o Hs' Hin. by destruct (Hsu s' o Hs'). }
  intros h2 (Hr2 & Hsm2 & Hm2 & Hrl & Hother & _).
  destruct (Dll.relinked_lookup _ _ _ _ Hrl Hpg) as (pg2 & Hpg2 & Hpay).
  mpure (pg_get_some _ _ _ Hpg2). destruct (cache_get_ok _ _ _ _ ci Hr2 Hci) as (c & Hc & _ & _).
  unfold cache_upd. rewrite Hc. simpl.
  destruct (rep_set_totals h2 _ _ _ ci c (sc_total_objs c + p_total_objs pg2) (sc_total_objs_allocated c) Hr2 Hc) as [Hr3 Hsm3].
  set (h3 := set_caches _ h2) in *. rewrite <- order2size_pow by lia.
  assert (forall p, p ∈ block s (sord ci) -> exists pg, h_pages h3 !! p = Some pg /\ p_flags pg = 0) as Hz.
  { intros p Hp. destruct (Hblk p Hp) as (_ & _ & Hl & pg' & Hpg' & Hf).
    destruct (Dll.relinked_lookup _ _ _ _ Hrl Hpg') as (pg3 & Hpg3 & Hpay3). exists pg3.
    split; [done|]. rewrite <- Hf. by injection Hpay3. }
  eapply returns_mono; [apply (mark_composite_spec h3 s (sord ci) pg2); [|done|done]|].
  { simpl. by rewrite (hs_count _ _ Hsm2). }
  intros h' (pages & -> & Hdom & Hpgs & Hout & Htail).
  assert (hsame h (set_h_pages pages h3)) as Hsm by (etrans; [exact Hsm2|]; etrans; [exact Hsm3|]; by split).
  split; [|split; [done|exact Hm2]]. apply rep_adopt; simpl.
  - eapply (rep_private _ _ _ _ pages (h_mem h3)) in Hr3; [exact Hr3|done| |done].
    intros p. destruct (decide (p ∈ block s (sord ci))) as [Hp|Hp]; [right|left; by apply Hout].
    destruct (Hblk p Hp) as (HpF & Hpu & Hpl & _).
    destruct (decide (p = s)) as [->|Hne]; [left|right].
    + split; [done|]. split; [done|]. unfold Dll.links. rewrite Hpgs. simpl. unfold h3, h_pages in *. simpl. by rewrite Hpg2.
    + split; [done|]. split; [done|]. by rewrite lookup_insert_ne.
  - done.
  - by rewrite (hs_count _ _ Hsm2).
  - intros p Hp HF. by destruct (Hblk p Hp).
  - intros p Hp. apply (Hblk p Hp).
  - split; [done|]. split; [eexists; split; [exact Hpgs|]|].
    { eapply slab_head_payload; [|exact Hhd]. revert Hpay. clear. destruct pg, pg2. by intros [= -> -> -> -> ->]. }
    rewrite Hm2, (hs_off _ _ Hsm2). done.
  - intros p Hp. destruct (Hblk p Hp) as (_ & _ & Hl & _). destruct (decide (p = s)) as [->|Hne]; [eauto|].
    rewrite lookup_insert_ne by done. rewrite Hl. by intros [].
Qed.

Lemma new_slab_spec h F own loc ci :
  heap_rep h F own loc -> cache_ix ci -> can_serve F (sord ci) ->
  returns (new_slab (Ref ci) (2 ^ sord ci) h) (fun h' => exists s,
    own !! s = None /\ loc !! s = None /\ block s (sord ci) ⊆ F /\
    heap_rep h' (F ∖ block s (sord ci)) (<[s := OSlab ci (all_objs (h_offset h) s ci)]> own) (<[s := (ci, Full)]> loc) /\
    hsame h h' /\
    forall x, outside (h_offset h) s (sord ci) x -> rd (h_mem h') x = rd (h_mem h) x).
Proof.
  intros Hr Hci Hcan. destruct (cache_facts ci Hci) as (Hk & Hosz & HN & Hsz).
  pose proof (pow2_pos (sord ci)) as Hp2. unfold max_order in Hk.
  assert (2 ^ sord ci <= 2 ^ 10) by (apply Z.pow_le_mono_r; lia).
  unfold new_slab. rewrite size2order_log2, Z.log2_pow2 by lia.
  mcall (pa_alloc_ok (h_mm h) F (sord ci) (hr_pa _ _ _ _ Hr)); [unfold BUDDY_HIGH_ORDER; lia|].
  intros [w st] (Hkept & Hun & [(_ & _ & Hno)|(s & -> & Hbk & Hsub & Hpa1)]); [done|].
  destruct (block_taken h F own loc st s (sord ci)) as (Hr1 & Hs & Hblk); try done.
  pose proof (kept_hsame h st Hkept) as Hsm1. set (h1 := set_mm st h) in *.
  set (F1 := F ∖ block s (sord ci)) in *. cbv zeta.
  pose proof Hbk as [_ Hs0 Hsn _]. assert (s ∈ block s (sord ci)) as Hss by (apply block_nonempty; lia).
  destruct (Hblk s Hss) as (HsF & Hsu & Hsl & pg0 & Hpg0 & Hf0).
  destruct (pa_count _ _ (hr_pa _ _ _ _ Hr)) as (Hn & _). destruct (hr_off _ _ _ _ Hr) as [Ho1 Ho2]. unfold PAGE_SIZE in Ho2.
  assert (mm_pages_count (h_mm h1) = mm_pages_count (h_mm h)) as Hn1 by apply Hkept.
  destruct (cache_get_ok _ _ _ _ ci Hr1 Hci) as (c & Hc & Hget & [[Hcp Hcs Hcm] _]).
  mpure Hget. rewrite Hcp, Hcm. rewrite order2size_pow by lia.
  rewrite (u64_small (2 ^ sord ci * PAGE_SIZE)) by (unfold PAGE_SIZE; lia). fold (nobj ci).
  mret (pg_upd_some _ _ _ _ Hpg0). mret pg_upd_again. mret pg_get_again. simpl p_total_objs.
  rewrite u16_small by lia. rewrite Z.eqb_refl. simpl negb.
  mret pg_upd_again. mret slab2addr_ret; [simpl in *; lia|simpl in *; lia|]. mret pg_get_again. simpl p_total_objs.
  rewrite u16_small by lia. simpl h_offset. rewrite (u64_small (s * PAGE_SIZE + _)) by (unfold PAGE_SIZE; lia).
  rewrite (Z.add_comm (s * PAGE_SIZE)).
  destruct (new_freelist (h_offset h) s ci (h_mem h)) as [Hch Hfr]; [done|lia|lia|unfold PAGE_SIZE; lia|].
  cbv zeta in Hch, Hfr.
  destruct (all_objs_facts (h_offset h) s ci Hci) as (Hnd & Hlen & Hall & Hhd).
  simpl h_mem. rewrite set_mem_pages. simpl h_mem. rewrite set_mem_pages. mret pg_upd_again.
  set (m := write64 _ _ _) in *. set (pg1 := set_freelist _ _).
  assert (forall x, outside (h_offset h) s (sord ci) x -> rd m x = rd (h_mem h) x) as Hout.
  { intros x Hx. apply Hfr. unfold outside in Hx. lia. }
  assert (dom (<[s:=pg1]> (h_pages h1)) = dom (h_pages h1)) as Hdom by (apply dom_insert_lookup_L; by exists pg0).
  eapply returns_mono; [eapply (finish_slab_spec _ F1 own loc ci s pg1 (all_objs (h_offset h) s ci))|]; try done.
  - eapply (rep_private h1 F1 own loc (<[s:=pg1]> (h_pages h1)) m); [done|done| |].
    + intros p. destruct (decide (p = s)) as [->|]; [by right; right|left; by apply lookup_insert_ne].
    + eapply (free_objects_outside h1 F1 own loc s (sord ci)); [done|lia|apply Hblk|done].
  - simpl in *. by rewrite Hn1.
  - intros p Hp. destruct (Hblk p Hp) as (? & ? & ? & pg & Hpg & Hf). do 3 (split; [done|]).
    unfold h_pages. simpl. destruct (decide (p = s)) as [->|]; [rewrite lookup_insert_eq | rewrite lookup_insert_ne by done]; eauto.
  - apply lookup_insert_eq.
  - by apply new_head_page.
  - intros a. apply Hall.
  - intros h' (Hr' & Hsm' & Hm'). exists s. do 4 (split; [done|]).
    split; [etrans; [exact Hsm1|]; etrans; [|exact Hsm']; by split|]. intros x Hx. rewrite Hm'. by apply Hout.
Qed.

End Ops.
End SlabOps.
