(* ===== verification/SlabProof.v ===== *)
(** * The kernel heap keeps its invariant

    [heap_ok]: the representation of SlabRep with every slab on the list that
    fits its free objects and all cache locks free.  Specifications of
    [cache_alloc], [kmalloc] and [kfree] (kernel/src/mm/slab.c) on it. *)

From stdpp Require Import gmap sets.
From S2P Require Import Prelude Macros Locking Dll Mem FrameHdr Blocks FrameAlloc BuddyRep BuddyProof PageIface Slab SlabRep SlabOps.

Module SlabProof.
Import Macros Locking Mem FrameHdr Blocks FrameAlloc BuddyRep BuddyProof PageIface Slab SlabRep SlabOps.

Section Proof.
Context {PA : PageAllocator}.

(** ** Giving a slab back to the frame allocator *)

Lemma unmark_composite_spec h s k pg :
  block_ok (mm_pages_count (h_mm h)) k s -> h_pages h !! s = Some pg ->
  p_flags pg = STRUCT_PAGE_FLAG_SLAB_COMPOSITE_HEAD ->
  (forall p, p ∈ block s k -> p <> s ->
     exists pg, h_pages h !! p = Some pg /\ p_flags pg = STRUCT_PAGE_FLAG_COMPOSITE_TAIL) ->
  returns (_unmark_composite_page (Ref s) (2 ^ k) h) (fun h' => exists pages,
    h' = set_h_pages pages h /\ dom pages = dom (h_pages h) /\ pages !! s = Some (set_flags 0 pg) /\
    (forall p, p ∉ block s k -> pages !! p = h_pages h !! p) /\
    (forall p, p ∈ block s k -> exists pg, pages !! p = Some pg /\ p_flags pg = 0)).
Proof.
  intros [Hk Hs0 Hsn _] Hpg Hf Ht. unfold max_order in Hk. pose proof (pow2_pos k).
  unfold _unmark_composite_page. mret (pg_upd_some _ _ _ _ Hpg). mret page2idx_ret; [simpl; lia|]. rewrite Hf.
  assert (2 ^ k <= 2 ^ 10) by (apply Z.pow_le_mono_r; lia). rewrite u64_small by lia.
  assert (forall p, s < p <= s + Z.of_nat (Z.to_nat (2 ^ k - 1)) <-> p ∈ block s k /\ p <> s) as Hrange
    by (intros p; rewrite elem_block; lia).
  eapply returns_mono; [apply unmark_tails_spec; [lia|]|].
  - intros p [Hp Hne]%Hrange. unfold h_pages. simpl. rewrite lookup_insert_ne by done. auto.
  - intros h' (pages & -> & Hdom & Hout & Hin). exists pages. unfold h_pages in *. simpl in *.
    assert (pages !! s = Some (set_flags 0 pg)) as Hs.
    { rewrite Hout by (rewrite Hrange; tauto). by rewrite lookup_insert_eq. }
    split; [done|]. split; [rewrite Hdom; apply dom_insert_lookup_L; by exists pg|].
    split; [done|]. split.
    + intros p Hp. rewrite Hout by (rewrite Hrange; tauto). apply lookup_insert_ne. intros <-.
      apply Hp, block_nonempty. lia.
    + intros p Hp. destruct (decide (p = s)) as [->|Hne]; [eauto|]. apply Hin. by apply Hrange.
Qed.

(** A slab without owner, on the full list of its cache, all its pages still
    marked. *)
Record detached (h : heap) (F : gset Z) (own : gmap Z owner) (loc : gmap Z (Z * which)) (s ci : Z) (pg : page) : Prop := {
  de_block : block_ok (mm_pages_count (h_mm h)) (sord ci) s;
  de_ci : cache_ix ci;
  de_apart : forall p, p ∈ block s (sord ci) -> p ∉ F /\ unowned own p;
  de_unlisted : forall p, p ∈ block s (sord ci) -> p <> s -> loc !! p = None;
  de_page : h_pages h !! s = Some pg;
  de_flags : p_flags pg = STRUCT_PAGE_FLAG_SLAB_COMPOSITE_HEAD;
  de_tails : forall p, p ∈ block s (sord ci) -> p <> s -> exists pg, h_pages h !! p = Some pg /\ tail_page s pg
}.

(** [_attempt_free_full] keeps everything, or gives the first full slab back. *)
Lemma attempt_free_full_spec h F own loc s ci c pg :
  heap_rep h F own loc -> detached h F own loc s ci pg -> loc !! s = Some (ci, Full) ->
  h_caches h !! ci = Some c -> sc_full_slabs c = Ref s ->
  returns (_attempt_free_full (Ref ci) h) (fun h' => h' = h \/
    (heap_rep h' (F ∪ block s (sord ci)) own (delete s loc) /\ hsame h h' /\ h_mem h' = h_mem h /\
     exists pg', h_pages h' !! s = Some pg' /\ p_this_cache pg' = p_this_cache pg)).
Proof.
  intros Hr Hd Hloc Hc Hhead. pose proof Hd as [Hbk Hci Hap Hul Hpg Hf Ht].
  destruct (cache_get_ok _ _ _ _ ci Hr Hci) as (c' & Hc' & Hget & [[Hcp Hcs Hcm] _]).
  assert (c' = c) as -> by congruence. pose proof Hbk as [Hk Hs0 Hsn _]. unfold max_order in Hk.
  assert (s ∈ block s (sord ci)) as Hss by (apply block_nonempty; lia).
  unfold _attempt_free_full. mpure Hget. rewrite Hcm, Hcp, Hhead. mstep.
  eapply (returns_eq _ (size2block_loop 64 (Z.shiftr (osz ci -! 1) 3) 0)).
  { clear -Hci. each_cache Hci; reflexivity. }
  destruct (Z.gtb_spec (sc_full_slab_count c) (size2block_loop 64 (Z.shiftr (osz ci -! 1) 3) 0 +! 1)); [|by left].
  cbv zeta. mcall (slab_unlink_spec h F own loc ci Full s Hr Hloc).
  intros h1 (Hr1 & Hsm1 & Hm1 & Hrl & Hoth).
  destruct (Dll.relinked_lookup _ _ _ _ Hrl Hpg) as (pg1 & Hpg1 & Hpay).
  assert (p_flags pg1 = STRUCT_PAGE_FLAG_SLAB_COMPOSITE_HEAD /\ p_this_cache pg1 = p_this_cache pg) as [Hf1 Hca1].
  { rewrite <- Hf. by injection Hpay. }
  mpure (pg_get_some _ _ _ Hpg1). destruct (cache_get_ok _ _ _ _ ci Hr1 Hci) as (c1 & Hc1 & _ & _).
  unfold cache_upd. rewrite Hc1. simpl mbind.
  destruct (rep_set_totals h1 _ _ _ ci c1 (sc_total_objs c1 - p_total_objs pg1) (sc_total_objs_allocated c1) Hr1 Hc1) as [Hr2 Hsm2].
  set (h2 := set_caches _ h1) in *.
  mcall (unmark_composite_spec h2 s (sord ci) pg1); [by simpl; rewrite (hs_count _ _ Hsm1)|done|done| |].
  { intros p Hp Hne. destruct (Ht p Hp Hne) as (pg' & Hpg' & Hfl' & _). exists pg'. split; [|done].
    rewrite <- Hpg'. apply Hoth. auto. }
  intros h3 (pages & -> & Hdom & Hs3 & Hout & Hz).
  assert (heap_rep (set_mem (h_mem h2) (set_h_pages pages h2)) F own (delete s loc)) as Hr3.
  { apply rep_private; [done|done| |done]. intros p.
    destruct (decide (p ∈ block s (sord ci))) as [Hp|Hp]; [right; right|left; by apply Hout].
    destruct (Hap p Hp). do 2 (split; [done|]). destruct (decide (p = s)) as [->|]; [apply lookup_delete_eq|].
    rewrite lookup_delete_ne by done. auto. }
  assert (2 ^ sord ci <= 2 ^ 10) by (apply Z.pow_le_mono_r; lia). pose proof (pow2_pos (sord ci)).
  rewrite size2order_log2, Z.log2_pow2 by lia.
  assert (forall p, p ∈ F ∪ block s (sord ci) -> p ∈ F \/ p ∈ block s (sord ci)) as Hun by (clear; set_solver).
  mcall (pa_free_ok _ F (sord ci) s (hr_pa _ _ _ _ Hr3)).
  - simpl. by rewrite (hs_count _ _ Hsm1).
  - intros p Hp HF. by destruct (Hap p Hp).
  - intros st (Hkept & Hunt & Hpa). right. pose proof (kept_hsame _ _ Hkept) as Hsm4. split; [|split; [|split; [done|]]].
    + eapply (rep_mm _ F own (delete s loc) st (F ∪ block s (sord ci)) _ Hr3 Hkept Hunt Hpa); [done|..].
      * intros s' o Hs' p Hp [HF|HB]%Hun; [by apply (hr_blocks _ _ _ _ Hr3 _ _ Hs') in HF|by apply (Hap p HB) in Hs'].
      * intros p [HF|HB]%Hun.
        -- destruct (delete s loc !! p) as [[? ?]|] eqn:Hp; [|done]. by apply (hr_loc _ _ _ _ Hr3) in Hp as (_ & _ & ? & _).
        -- destruct (decide (p = s)) as [->|]; [apply lookup_delete_eq|]. rewrite lookup_delete_ne by done. auto.
      * intros p [HF|HB]%Hun; [by apply (hr_zero _ _ _ _ Hr3)|auto].
    + etrans; [exact Hsm1|]. etrans; [exact Hsm2|]. etrans; [|exact Hsm4]. by split.
    + destruct Hkept as (_ & _ & _ & _ & Hrl4). destruct (Dll.relinked_lookup _ _ _ _ Hrl4 Hs3) as (pg4 & Hpg4 & Hpay4).
      exists pg4. split; [done|]. rewrite <- Hca1. by injection Hpay4.
Qed.

(** ** Entering and leaving a cache's critical section *)

Definition unlocked_all (h : heap) : Prop := forall ci, cache_ix ci -> exists l, locks h ci = Some l /\ unlocked l.

Record entered (ci : Z) (h h1 : heap) : Prop := {
  en_lock : locks h1 ci = Some (mk_spinlock 1 false);
  en_others : forall i, i <> ci -> locks h1 i = locks h i;
  en_IF : mm_IF (h_mm h1) = false;
  en_mem : h_mem h1 = h_mem h;
  en_pages : h_pages h1 = h_pages h;
  en_count : mm_pages_count (h_mm h1) = mm_pages_count (h_mm h);
  en_off : h_offset h1 = h_offset h;
  en_init : h_initialized h1 = h_initialized h
}.

(** What every call leaves as it was. *)
Record hdone (h h' : heap) : Prop := {
  hd_IF : mm_IF (h_mm h') = mm_IF (h_mm h);
  hd_count : mm_pages_count (h_mm h') = mm_pages_count (h_mm h);
  hd_off : h_offset h' = h_offset h;
  hd_init : h_initialized h' = h_initialized h
}.

#[global] Instance hdone_equiv : Equivalence hdone.
Proof.
  split.
  - intros h. by split.
  - intros h h' []. by split.
  - intros h1 h2 h3 [] []. split; intros; congruence.
Qed.

Lemma rep_irq h F own loc b : heap_rep h F own loc -> heap_rep (set_IF b h) F own loc.
Proof. intros []. split; try done. by apply pa_irq. Qed.

Lemma rep_set_lock h F own loc ci c l :
  heap_rep h F own loc -> h_caches h !! ci = Some c ->
  heap_rep (set_caches (<[ci := set_sc_lock l c]> (h_caches h)) h) F own loc.
Proof. intros Hr Hc. by eapply rep_set_cache. Qed.

Lemma cache_lock_enter h F own loc ci :
  heap_rep h F own loc -> unlocked_all h -> cache_ix ci ->
  returns (cache_lock (Ref ci) (set_IF false h)) (fun h1 => heap_rep h1 F own loc /\ entered ci h h1).
Proof.
  intros Hr Hu Hci. destruct (cache_get_ok _ _ _ _ ci (rep_irq _ _ _ _ false Hr) Hci) as (c & Hc & Hget & _).
  unfold cache_lock. mpure Hget. destruct (Hu ci Hci) as (l & Hl & Hlu).
  assert (sc_lock c = l) as -> by (unfold locks in Hl; simpl in Hc; rewrite Hc in Hl; by injection Hl).
  mpure (Seq.spin_lock_global_ret false l Hlu). unfold cache_upd. simpl. simpl in Hc. rewrite Hc. simpl.
  split.
  - apply (rep_set_lock (set_IF false (set_IF false h))); [|done]. by do 2 apply rep_irq.
  - split; try done; unfold locks; simpl; [by rewrite lookup_insert_eq|].
    intros i Hi. by rewrite lookup_insert_ne.
Qed.

Lemma cache_unlock_leave h h1 h2 F own loc ci :
  unlocked_all h -> entered ci h h1 -> hsame h1 h2 -> heap_rep h2 F own loc -> cache_ix ci ->
  returns (cache_unlock (Ref ci) h2) (fun h3 =>
    let h4 := set_IF (preempt_restore (mm_IF (h_mm h)) (mm_IF (h_mm h3))) h3 in
    heap_rep h4 F own loc /\ unlocked_all h4 /\ hdone h h4 /\ h_mem h4 = h_mem h2).
Proof.
  intros Hu [Hel Heo Hei _ _ Hec Hef Hen] [Hsl Hsi Hsf Hsn Hsc] Hr Hci.
  destruct (cache_get_ok _ _ _ _ ci Hr Hci) as (c & Hc & Hget & _).
  unfold cache_unlock. mpure Hget.
  assert (sc_lock c = mk_spinlock 1 false) as ->.
  { rewrite <- (Hsl ci) in Hel. unfold locks in Hel. rewrite Hc in Hel. by injection Hel. }
  rewrite Hsi, Hei. cbn. rewrite Hc. cbn. split; [|split; [|split; [|done]]].
  - apply rep_irq. apply (rep_set_lock (set_IF false h2)); [by apply rep_irq|done].
  - intros i Hi. unfold locks. simpl. destruct (decide (i = ci)) as [->|Hne].
    + rewrite lookup_insert_eq. by eexists.
    + rewrite lookup_insert_ne by done. destruct (Hu i Hi) as (l & Hl & ?). exists l. split; [|done].
      rewrite <- Hl, <- (Heo i) by done. apply Hsl.
  - split; simpl; try congruence. by destruct (mm_IF (h_mm h)).
Qed.

(** ** The invariant between calls *)

(** The list a slab with the free objects [fl] is on. *)
Definition kind (ci : Z) (fl : list Z) : which :=
  match fl with [] => Empty | _ => if Z.of_nat (length fl) =? nobj ci then Full else Partial end.

Definition slot (o : owner) : option (Z * which) :=
  match o with OSlab ci fl => Some (ci, kind ci fl) | OBig _ => None end.
Definition loc_of (own : gmap Z owner) : gmap Z (Z * which) := omap slot own.

Record heap_ok (h : heap) (F : gset Z) (own : gmap Z owner) : Prop := {
  ho_rep : heap_rep h F own (loc_of own);
  ho_unlocked : unlocked_all h
}.

Lemma loc_of_slab own s ci l :
  loc_of own !! s = Some (ci, l) <-> exists fl, own !! s = Some (OSlab ci fl) /\ kind ci fl = l.
Proof.
  unfold loc_of. rewrite lookup_omap. destruct (own !! s) as [[ci' fl|k]|]; simpl; naive_solver.
Qed.

Lemma loc_of_insert own s ci fl :
  loc_of (<[s := OSlab ci fl]> own) = <[s := (ci, kind ci fl)]> (loc_of own).
Proof. unfold loc_of. by erewrite omap_insert_Some. Qed.

Lemma loc_of_insert_same own s ci fl fl' :
  own !! s = Some (OSlab ci fl) -> kind ci fl' = kind ci fl -> loc_of (<[s := OSlab ci fl']> own) = loc_of own.
Proof.
  intros Hs Hk. rewrite loc_of_insert, Hk. apply insert_id. unfold loc_of. by rewrite lookup_omap, Hs.
Qed.

Lemma loc_of_big own s k : own !! s = None -> loc_of (<[s := OBig k]> own) = loc_of own.
Proof.
  intros Hs. unfold loc_of. erewrite omap_insert_None by done. apply delete_id. by rewrite lookup_omap, Hs.
Qed.

Lemma loc_of_delete own s : loc_of (delete s own) = delete s (loc_of own).
Proof. apply omap_delete. Qed.

(** The head of a cache's list. *)
Lemma list_head h F own ci c l :
  heap_rep h F own (loc_of own) -> h_caches h !! ci = Some c -> cache_ok (h_pages h) (loc_of own) ci c ->
  (head_get l c = NULL /\ forall s, loc_of own !! s <> Some (ci, l)) \/
  (exists s fl, head_get l c = Ref s /\ own !! s = Some (OSlab ci fl) /\ kind ci fl = l /\
     loc_of own !! s = Some (ci, l)).
Proof.
  intros Hr Hc Hok. destruct (co_list _ _ _ _ Hok l) as (ls & Hd & Hmem & _). destruct ls as [|s ls].
  - left. split; [by apply Dll.dll_nil in Hd|]. intros s Hs. apply Hmem in Hs. by apply elem_of_nil in Hs.
  - right. assert (loc_of own !! s = Some (ci, l)) as Hs by (apply Hmem; left).
    pose proof Hs as (fl & Hf & Hk)%loc_of_slab. exists s, fl. split; [|done]. apply Hd.
Qed.

(** ** Allocating from a cache *)

(** Moving a slab from one list of its cache to another. *)
Lemma move_spec h F own loc ci l l' s :
  heap_rep h F own loc -> loc !! s = Some (ci, l) ->
  returns (h ← slab_unlink l (Ref s) (Ref ci) h; slab_link l' (Ref s) (Ref ci) h) (fun h' =>
    heap_rep h' F own (<[s := (ci, l')]> loc) /\ hsame h h' /\ h_mem h' = h_mem h /\
    Dll.relinked (h_pages h) (h_pages h') /\
    (forall p, p <> s -> loc !! p = None -> h_pages h' !! p = h_pages h !! p) /\
    exists c, h_caches h' !! ci = Some c /\ head_get l' c = Ref s).
Proof.
  intros Hr Hs. destruct (hr_loc _ _ _ _ Hr _ _ _ Hs) as (Hci & Hsome & _).
  mcall (slab_unlink_spec h F own loc ci l s Hr Hs). intros h1 (Hr1 & Hsm1 & Hm1 & Hrl1 & Ho1).
  eapply returns_mono; [apply (slab_link_spec h1 F own (delete s loc) ci l' s Hr1 Hci)|].
  - apply lookup_delete_eq.
  - by rewrite <- elem_of_dom, (Dll.relinked_dom _ _ Hrl1), elem_of_dom.
  - exact (linkable_loc _ _ _ _ _ _ Hr Hs).
  - intros h2 (Hr2 & Hsm2 & Hm2 & Hrl2 & Ho2 & Hc2). rewrite insert_delete_eq in Hr2. split; [done|].
    split; [by etrans|]. split; [congruence|]. split; [|split; [|done]].
    + unfold Dll.relinked in *. congruence.
    + intros p Hne Hp. rewrite Ho2, Ho1; [done|done|done|]. by rewrite lookup_delete_ne.
Qed.

Lemma kind_full ci fl : kind ci fl = Full -> Z.of_nat (length fl) = nobj ci.
Proof. unfold kind. destruct fl; [done|]. by destruct (Z.eqb_spec (Z.of_nat (length (z :: fl))) (nobj ci)). Qed.

Lemma full_kind ci fl : cache_ix ci -> Z.of_nat (length fl) = nobj ci -> kind ci fl = Full.
Proof.
  intros Hci Hl. destruct (cache_facts ci Hci) as (_ & _ & HN & _). unfold kind. rewrite Hl, Z.eqb_refl.
  destruct fl; [simpl in Hl; lia|done].
Qed.

Lemma kind_between ci fl : fl <> [] -> Z.of_nat (length fl) < nobj ci -> kind ci fl = Partial.
Proof. destruct fl; [done|]. intros _ Hl. unfold kind. destruct (Z.eqb_spec (Z.of_nat (length (z :: fl))) (nobj ci)); [lia|done]. Qed.

(** A round of the [got_full] loop that finds a slab. *)
Lemma got_full_found h F own ci c s fl n :
  heap_rep h F own (loc_of own) -> cache_get (Ref ci) h = Ret c -> sc_full_slabs c = Ref s ->
  own !! s = Some (OSlab ci fl) -> Z.of_nat (length fl) = nobj ci ->
  returns (got_full (S n) (Ref ci) h) (fun '(ret, h') => exists fl', fl = ret :: fl' /\
    heap_rep h' F (<[s := OSlab ci fl']> own) (loc_of (<[s := OSlab ci fl']> own)) /\ hsame h h' /\ h_mem h' = h_mem h).
Proof.
  intros Hr Hget Hhd Hs Hlen. destruct (hr_own _ _ _ _ Hr _ _ Hs) as (Hci & _).
  destruct (cache_facts ci Hci) as (_ & _ & HN & _).
  cbn [got_full]. mpure Hget. rewrite Hhd. simpl nonnull. cbv iota zeta. apply returns_assoc.
  mcall (move_spec h F own (loc_of own) ci Full Partial s Hr).
  { apply loc_of_slab. exists fl. split; [done|]. by apply full_kind. }
  intros h1 (Hr1 & Hsm1 & Hm1 & _). destruct fl as [|a fl]; [simpl in Hlen; lia|].
  eapply returns_mono; [exact (take_object_spec h1 F own _ s ci a fl Hr1 Hs)|].
  intros [ret h2] (-> & Hr2 & Hsm2 & Hm2). exists fl. split; [done|]. split; [|split; [by etrans|congruence]].
  rewrite loc_of_insert, kind_between; [done| |].
  - intros ->. simpl in Hlen. lia.
  - simpl in Hlen. lia.
Qed.

(** The cache has a free object, or the frame allocator a block for a new
    slab. *)
Definition room (F : gset Z) (own : gmap Z owner) (ci : Z) : Prop :=
  (exists s fl, own !! s = Some (OSlab ci fl) /\ fl <> []) \/ can_serve F (sord ci).

(** [ret] was the first free object of a slab, an old or a new one. *)
Inductive taken (off : Z) (F : gset Z) (own : gmap Z owner) (m m' : mem) (ci ret : Z) : gset Z -> gmap Z owner -> Prop :=
  | taken_old s fl :
      own !! s = Some (OSlab ci (ret :: fl)) -> m' = m ->
      taken off F own m m' ci ret F (<[s := OSlab ci fl]> own)
  | taken_new s fl :
      own !! s = None -> block s (sord ci) ⊆ F -> ret :: fl = all_objs off s ci ->
      (forall x, outside off s (sord ci) x -> rd m' x = rd m x) ->
      taken off F own m m' ci ret (F ∖ block s (sord ci)) (<[s := OSlab ci fl]> own).

Lemma got_full_spec h F own ci :
  heap_rep h F own (loc_of own) -> cache_ix ci ->
  (exists s, loc_of own !! s = Some (ci, Full)) \/ can_serve F (sord ci) ->
  returns (got_full 2 (Ref ci) h) (fun '(ret, h') => exists F' own',
    heap_rep h' F' own' (loc_of own') /\ hsame h h' /\ taken (h_offset h) F own (h_mem h) (h_mem h') ci ret F' own').
Proof.
  intros Hr Hci Hroom. destruct (cache_get_ok _ _ _ _ ci Hr Hci) as (c & Hc & Hget & Hok).
  destruct (list_head _ _ _ _ _ Full Hr Hc Hok) as [[Hn Hno]|(s & fl & Hhd & Hs & Hk & _)].
  - assert (can_serve F (sord ci)) as Hcan by (destruct Hroom as [[s Hs]|]; [by destruct (Hno s)|done]).
    cbn [got_full]. mpure Hget. simpl in Hn. rewrite Hn. simpl nonnull. cbv iota zeta.
    rewrite (cst_pps _ _ (co_static _ _ _ _ Hok)).
    mcall (new_slab_spec h F own (loc_of own) ci Hr Hci Hcan).
    intros h1 (s & Hs & Hl & Hsub & Hr1 & Hsm1 & Hm1).
    destruct (all_objs_facts (h_offset h) s ci Hci) as (_ & Hlen & _).
    remember (all_objs (h_offset h) s ci) as fl eqn:Hfl.
    rewrite <- (full_kind ci fl Hci Hlen), <- loc_of_insert in Hr1.
    destruct (cache_get_ok _ _ _ _ ci Hr1 Hci) as (c1 & Hc1 & Hget1 & Hok1).
    destruct (list_head _ _ _ _ _ Full Hr1 Hc1 Hok1) as [[_ Hno1]|(s1 & fl1 & Hhd1 & Hs1 & Hk1 & Hl1)].
    { destruct (Hno1 s). rewrite loc_of_insert, lookup_insert_eq, full_kind; done. }
    assert (s1 = s) as ->.
    { destruct (decide (s1 = s)) as [|Hne]; [done|]. destruct (Hno s1).
      by rewrite loc_of_insert, lookup_insert_ne in Hl1. }
    rewrite lookup_insert_eq in Hs1. injection Hs1 as <-.
    eapply returns_mono; [eapply (got_full_found h1 _ _ ci c1 s fl 0 Hr1 Hget1 Hhd1)|]; [apply lookup_insert_eq|done|].
    intros [ret h2] (fl' & Hfl' & Hr2 & Hsm2 & Hm2). rewrite insert_insert_eq in Hr2.
    do 2 eexists. split; [exact Hr2|]. split; [by etrans|].
    apply taken_new; [done|done|congruence|].
    intros x Hx. rewrite Hm2. auto.
  - eapply returns_mono; [eapply (got_full_found h F own ci c s fl 1 Hr Hget Hhd Hs)|]; [by apply kind_full|].
    intros [ret h2] (fl' & -> & Hr2 & Hsm2 & Hm2). do 2 eexists. split; [exact Hr2|]. split; [done|].
    by apply taken_old.
Qed.

(** The branch of [cache_alloc] that takes from a partial slab. *)
Lemma from_partial_spec h F own ci s fl :
  heap_rep h F own (loc_of own) -> own !! s = Some (OSlab ci fl) -> kind ci fl = Partial ->
  returns (p ← pg_get (Ref s) h;
           if negb (nonnull (p_freelist p)) then Panic "partial->freelist is empty"
           else
             '(ret, h) ← take_object (Ref s) h;
             p ← pg_get (Ref s) h;
             if p_used_objs p =? p_total_objs p then
               if nonnull (p_freelist p) then Panic "part->freelist has items"
               else
                 h ← slab_unlink Partial (Ref s) (Ref ci) h;
                 h ← slab_link Empty (Ref s) (Ref ci) h;
                 Ret (ret, h)
             else Ret (ret, h)) (fun '(ret, h') => exists fl', fl = ret :: fl' /\ h_mem h' = h_mem h /\
    heap_rep h' F (<[s := OSlab ci fl']> own) (loc_of (<[s := OSlab ci fl']> own)) /\ hsame h h').
Proof.
  intros Hr Hs Hk. destruct (hr_own _ _ _ _ Hr _ _ Hs) as (Hci & (pg & Hpg & Hhd) & _ & Hnd & Hob & _).
  destruct fl as [|a fl]; [done|]. destruct (obj_bounds _ _ _ _ _ _ _ a Hr Hs) as [Ha0 _]; [apply Hob; left|].
  mpure (pg_get_some _ _ _ Hpg). rewrite (sh_free _ _ _ Hhd). simpl. destruct (Z.eqb_spec a 0); [lia|]. simpl.
  mcall (take_object_spec h F own _ s ci a fl Hr Hs). intros [ret h1] (-> & Hr1 & Hsm1 & Hm1). cbv beta iota.
  set (own1 := <[s := OSlab ci fl]> own) in *. assert (own1 !! s = Some (OSlab ci fl)) as Hs1 by apply lookup_insert_eq.
  destruct (hr_own _ _ _ _ Hr1 _ _ Hs1) as (_ & (pg1 & Hpg1 & Hhd1) & _).
  mpure (pg_get_some _ _ _ Hpg1). rewrite (sh_free _ _ _ Hhd1), (sh_used _ _ _ Hhd1), (sh_total _ _ _ Hhd1).
  assert (loc_of own !! s = Some (ci, Partial)) as Hl by (apply loc_of_slab; eauto).
  pose proof (free_count _ _ _ _ Hci Hnd Hob) as Hcnt. simpl in Hcnt.
  destruct (Z.eqb_spec (nobj ci - Z.of_nat (length fl)) (nobj ci)) as [He|He].
  - destruct fl as [|b fl]; [|simpl in He; lia]. simpl nonnull. cbv iota. apply returns_assoc.
    mcall (move_spec h1 F own1 (loc_of own) ci Partial Empty s Hr1 Hl). intros h2 (Hr2 & Hsm2 & Hm2 & _).
    exists []. split; [done|]. split; [congruence|]. split; [|by etrans].
    by rewrite loc_of_insert.
  - exists fl. split; [done|]. split; [done|]. split; [|done].
    rewrite (loc_of_insert_same _ _ _ (a :: fl)); [done|done|]. rewrite Hk. apply kind_between; [|lia].
    intros ->. simpl in He. lia.
Qed.

Lemma cache_alloc_spec h F own ci :
  heap_ok h F own -> cache_ix ci -> room F own ci ->
  returns (cache_alloc (Ref ci) h) (fun '(ret, h') => exists F' own',
    heap_ok h' F' own' /\ hdone h h' /\ taken (h_offset h) F own (h_mem h) (h_mem h') ci ret F' own').
Proof.
  intros [Hr Hu] Hci Hroom. unfold cache_alloc. simpl.
  mcall (cache_lock_enter h F own _ ci Hr Hu Hci). intros h1 [Hr1 Hen].
  destruct (cache_get_ok _ _ _ _ ci Hr1 Hci) as (c & Hc & Hget & Hok). mpure Hget.
  apply returns_bind, (returns_mono _ (fun '(ret, h2) => exists F' own',
    heap_rep h2 F' own' (loc_of own') /\ hsame h1 h2 /\ taken (h_offset h1) F own (h_mem h1) (h_mem h2) ci ret F' own')).
  - destruct (list_head _ _ _ _ _ Partial Hr1 Hc Hok) as [[Hn Hno]|(s & fl & Hhd & Hs & Hk & _)].
    + simpl in Hn. rewrite Hn. simpl nonnull. cbv iota. apply got_full_spec; [done|done|].
      destruct Hroom as [(s & fl & Hs & Hfl)|]; [left|by right]. exists s. apply loc_of_slab.
      exists fl. split; [done|]. destruct (kind ci fl) eqn:Hk; [done| |by destruct fl as [|? ?]; [|unfold kind in Hk; destruct (_ =? _)]].
      destruct (Hno s). apply loc_of_slab. eauto.
    + simpl in Hhd. rewrite Hhd. simpl nonnull. cbv iota.
      eapply returns_mono; [exact (from_partial_spec h1 F own ci s fl Hr1 Hs Hk)|].
      intros [ret h2] (fl' & -> & Hm2 & Hr2 & Hsm2). do 2 eexists. split; [exact Hr2|]. split; [done|].
      by apply taken_old.
  - intros [ret h2] (F' & own' & Hr2 & Hsm2 & Htk). cbv beta iota.
    mcall (cache_unlock_leave h h1 h2 F' own' _ ci Hu Hen Hsm2 Hr2 Hci). intros h3 (Hr4 & Hu4 & Hd4 & Hm4).
    simpl. exists F', own'. split; [by split|]. split; [done|]. simpl in Hm4. rewrite Hm4.
    rewrite <- (en_mem _ _ _ Hen), <- (en_off _ _ _ Hen). done.
Qed.

(** ** Freeing an object *)

(** From an object's address to the page struct of its slab. *)
Lemma obj_phys h F own loc s ci fl a :
  heap_rep h F own loc -> own !! s = Some (OSlab ci fl) -> is_obj (h_offset h) s ci a ->
  exists p pg, phys2page (a -! h_offset h) = Ref p /\ p ∈ block s (sord ci) /\ h_pages h !! p = Some pg /\
    tst (p_flags pg) STRUCT_PAGE_FLAG_KMALLOC_BUDDY = false.
Proof.
  intros Hr Hs Ha. destruct (hr_own _ _ _ _ Hr _ _ Hs) as (Hci & (pg & Hpg & Hhd) & _ & _ & _ & Ht).
  destruct (obj_bounds _ _ _ _ _ _ _ a Hr Hs Ha) as [Ha0 Ha1]. destruct Ha as (j & Hj & ->).
  destruct (hr_off _ _ _ _ Hr) as [Ho _]. destruct (obj_range (h_offset h) s ci j Hci Hj) as [Hlo Hhi].
  destruct (cache_facts ci Hci) as (_ & Hosz & _ & _).
  destruct (hr_blocks _ _ _ _ Hr _ _ Hs) as [[_ Hs0 _ _] _].
  pose proof (obj_page (h_offset h) s ci j Hci Hj) as Hp. unfold phys2page. rewrite u64_small by (unfold PAGE_SIZE in *; lia).
  revert Hp. generalize ((obj (h_offset h) s ci j - h_offset h) / PAGE_SIZE). intros p Hp.
  destruct (decide (p = s)) as [->|Hne].
  - exists s, pg. rewrite (sh_flags _ _ _ Hhd). done.
  - destruct (Ht p Hp Hne) as (pg' & Hpg' & Hf' & _). exists p, pg'. by rewrite Hf'.
Qed.

Lemma find_slab_spec h F own loc s ci fl a :
  heap_rep h F own loc -> own !! s = Some (OSlab ci fl) -> is_obj (h_offset h) s ci a ->
  _find_corresponding_slab a h = Ret (Ref s).
Proof.
  intros Hr Hs Ha. destruct (obj_phys _ _ _ _ _ _ _ _ Hr Hs Ha) as (p & pg & Hp & Hin & Hpg & _).
  destruct (hr_own _ _ _ _ Hr _ _ Hs) as (Hci & (pgs & Hpgs & Hhd) & _ & _ & _ & Ht).
  unfold _find_corresponding_slab. rewrite Hp, (pg_get_some _ _ _ Hpg). simpl.
  destruct (decide (p = s)) as [->|Hne].
  - assert (pg = pgs) as -> by congruence. by rewrite (sh_flags _ _ _ Hhd).
  - destruct (Ht p Hin Hne) as (pg' & Hpg' & Hf' & Hs'). assert (pg = pg') as -> by congruence.
    by rewrite Hf', Hs'.
Qed.

(** Detaching the slab and putting the object in front of its free list. *)
Lemma detach_give_back h F own loc s ci fl a pg :
  heap_rep h F own loc -> own !! s = Some (OSlab ci fl) -> h_pages h !! s = Some pg ->
  is_obj (h_offset h) s ci a ->
  let h' := set_h_pages (<[s := set_freelist (Num a) pg]> (h_pages h)) (set_mem (write64 a (hd 0 fl) (h_mem h)) h) in
  heap_rep h' F (delete s own) loc /\ detached h' F (delete s own) loc s ci (set_freelist (Num a) pg).
Proof.
  intros Hr Hs Hpg Ha h'. pose proof (hr_own _ _ _ _ Hr _ _ Hs) as (Hci & (pg' & Hpg' & Hhd) & _ & _ & _ & Ht).
  assert (pg' = pg) as -> by congruence. destruct (hr_blocks _ _ _ _ Hr _ _ Hs) as [Hbk Hd]. simpl in Hbk, Hd.
  pose proof Hbk as [Hk Hs0 _ _]. assert (s ∈ block s (sord ci)) as Hss by (apply block_nonempty; lia).
  assert (forall p, p ∈ block s (sord ci) -> unowned (delete s own) p) as Hu.
  { intros p Hp. by eapply (unowned_delete _ _ _ _ s (OSlab ci fl)). }
  split; [|split; simpl; try done].
  - apply (rep_private h F (delete s own) loc (<[s := set_freelist (Num a) pg]> (h_pages h)) (write64 a (hd 0 fl) (h_mem h))).
    + by apply rep_disown.
    + apply dom_insert_lookup_L. by exists pg.
    + intros p. destruct (decide (p = s)) as [->|]; [right; left|left; by apply lookup_insert_ne].
      split; [intros HF; by destruct (Hd s)|]. split; [by apply Hu|]. unfold Dll.links. by rewrite lookup_insert_eq, Hpg.
    + eapply (free_objects_outside h F (delete s own) loc s (sord ci)); [by apply rep_disown|lia|done|].
      intros x Hx. apply write64_other. destruct Ha as (j & Hj & ->).
      destruct (obj_range (h_offset h) s ci j Hci Hj). destruct (cache_facts ci Hci) as (_ & ? & _ & _).
      unfold outside in Hx. lia.
  - intros p Hp. split; [|by apply Hu]. intros HF. by apply (Hd p).
  - intros p Hp Hne. destruct (loc !! p) as [[c l]|] eqn:Hl; [|done].
    destruct (hr_loc _ _ _ _ Hr _ _ _ Hl) as (_ & _ & _ & Hx). by destruct (Hx s _ Hs Hp) as [? _].
  - apply lookup_insert_eq.
  - apply (sh_flags _ _ _ Hhd).
  - intros p Hp Hne. unfold h_pages. simpl. rewrite lookup_insert_ne by done. auto.
Qed.

Lemma detached_moved h h' F own loc s ci pg x :
  detached h F own loc s ci pg -> hsame h h' -> Dll.relinked (h_pages h) (h_pages h') ->
  (forall p, p <> s -> loc !! p = None -> h_pages h' !! p = h_pages h !! p) ->
  exists pg', detached h' F own (<[s := x]> loc) s ci pg' /\ Dll.payload pg' = Dll.payload pg.
Proof.
  intros [Hbk Hci Hap Hul Hpg Hf Ht] Hsm Hrl Hoth.
  destruct (Dll.relinked_lookup _ _ _ _ Hrl Hpg) as (pg' & Hpg' & Hpay). exists pg'. split; [|done].
  split; try done.
  - by rewrite (hs_count _ _ Hsm).
  - intros p Hp Hne. rewrite lookup_insert_ne by done. auto.
  - rewrite <- Hf. by injection Hpay.
  - intros p Hp Hne. rewrite Hoth; auto.
Qed.

(** The slab moves to the list that fits its free objects, or leaves the heap. *)
Lemma relist_spec h F own loc s ci fl a pg :
  heap_rep h F own loc -> detached h F own loc s ci pg -> loc !! s = Some (ci, kind ci fl) ->
  Z.of_nat (length (a :: fl)) <= nobj ci ->
  p_used_objs pg = nobj ci - Z.of_nat (length fl) -> p_total_objs pg = nobj ci ->
  returns (if p_used_objs pg =? p_total_objs pg then
             h ← slab_unlink Empty (Ref s) (Ref ci) h;
             slab_link Partial (Ref s) (Ref ci) h
           else if p_used_objs pg =? 1 then
             h ← slab_unlink Partial (Ref s) (Ref ci) h;
             h ← slab_link Full (Ref s) (Ref ci) h;
             _attempt_free_full (Ref ci) h
           else Ret h) (fun h' => hsame h h' /\ h_mem h' = h_mem h /\
    ((heap_rep h' F own (<[s := (ci, kind ci (a :: fl))]> loc) /\
      exists pg', detached h' F own (<[s := (ci, kind ci (a :: fl))]> loc) s ci pg' /\ Dll.payload pg' = Dll.payload pg) \/
     (Z.of_nat (length (a :: fl)) = nobj ci /\ heap_rep h' (F ∪ block s (sord ci)) own (delete s loc) /\
      exists pg', h_pages h' !! s = Some pg' /\ p_this_cache pg' = p_this_cache pg))).
Proof.
  intros Hr Hd Hl Hlen Hus Hto. destruct (cache_facts ci (de_ci _ _ _ _ _ _ _ Hd)) as (_ & _ & HN & _).
  pose proof (de_ci _ _ _ _ _ _ _ Hd) as Hci. rewrite Hus, Hto. cbn [length] in *.
  destruct (Z.eqb_spec (nobj ci - Z.of_nat (length fl)) (nobj ci)) as [He|He].
  { destruct fl as [|b fl]; [|simpl in He; lia].
    rewrite (kind_between ci [a]) by (done || (simpl; lia)).
    eapply returns_mono; [exact (move_spec h F own loc ci Empty Partial s Hr Hl)|].
    intros h1 (Hr1 & Hsm1 & Hm1 & Hrl1 & Ho1 & _). split; [done|]. split; [done|]. left. split; [done|].
    by eapply detached_moved. }
  destruct (Z.eqb_spec (nobj ci - Z.of_nat (length fl)) 1) as [H1|H1].
  - rewrite (full_kind ci (a :: fl)) by (done || (simpl; lia)).
    rewrite (kind_between ci fl) in Hl by (try (intros ->; simpl in H1); lia).
    apply returns_assoc. mcall (move_spec h F own loc ci Partial Full s Hr Hl).
    intros h1 (Hr1 & Hsm1 & Hm1 & Hrl1 & Ho1 & c & Hc & Hhd).
    destruct (detached_moved _ _ _ _ _ _ _ _ (ci, Full) Hd Hsm1 Hrl1 Ho1) as (pg1 & Hd1 & Hpay1).
    eapply returns_mono; [eapply (attempt_free_full_spec h1 F own _ s ci c pg1 Hr1 Hd1 _ Hc Hhd)|].
    intros h2 [->|(Hr2 & Hsm2 & Hm2 & pg2 & Hpg2 & Hca2)].
    + split; [done|]. split; [done|]. left. split; [done|]. by exists pg1.
    + split; [by etrans|]. split; [congruence|]. right. rewrite delete_insert_eq in Hr2. split; [lia|]. split; [done|].
      exists pg2. split; [done|]. rewrite Hca2. by injection Hpay1.
  - assert (kind ci (a :: fl) = kind ci fl) as ->.
    { rewrite !kind_between; simpl; try lia; try done. intros ->. simpl in He. lia. }
    split; [done|]. split; [done|]. left. rewrite insert_id by done. eauto.
    Unshelve. by rewrite lookup_insert_eq.
Qed.

(** The end of [kfree]: the counters, and the slab is the heap's again. *)
Lemma reattach h F own loc s ci fl pg :
  heap_rep h F own loc -> detached h F own loc s ci pg -> own !! s = None ->
  slab_head ci fl (set_used (p_used_objs pg - 1) pg) -> chain (h_mem h) fl -> NoDup fl ->
  (forall a, a ∈ fl -> is_obj (h_offset h) s ci a) ->
  heap_rep (set_h_pages (<[s := set_used (p_used_objs pg - 1) pg]> (h_pages h)) h) F (<[s := OSlab ci fl]> own) loc.
Proof.
  intros Hr [Hbk Hci Hap Hul Hpg Hf Ht] Hs Hhd Hch Hnd Hob. pose proof Hbk as [Hk Hs0 _ _].
  assert (s ∈ block s (sord ci)) as Hss by (apply block_nonempty; lia). destruct (Hap s Hss) as [HsF Hsu].
  apply rep_adopt; simpl; try done.
  - eapply (rep_private h F own loc (<[s := set_used (p_used_objs pg - 1) pg]> (h_pages h)) (h_mem h)); try done.
    + apply dom_insert_lookup_L. by exists pg.
    + intros p. destruct (decide (p = s)) as [->|]; [right; left|left; by apply lookup_insert_ne].
      split; [done|]. split; [done|]. unfold Dll.links. by rewrite lookup_insert_eq, Hpg.
  - intros p Hp HF. by destruct (Hap p Hp).
  - intros p Hp. apply (Hap p Hp).
  - split; [done|]. split; [eexists; split; [apply lookup_insert_eq|done]|]. do 3 (split; [done|]).
    intros p Hp Hne. unfold h_pages. simpl. rewrite lookup_insert_ne by done. auto.
  - intros p Hp [x Hl]. destruct (decide (p = s)) as [->|Hne]; [eauto|]. rewrite Hul in Hl; done.
Qed.

(** The slab that took the object back stayed, or was given up when it was
    the last object. *)
Inductive given (own : gmap Z owner) (F : gset Z) (s ci a : Z) (fl : list Z) : gset Z -> gmap Z owner -> Prop :=
  | given_kept : given own F s ci a fl F (<[s := OSlab ci (a :: fl)]> own)
  | given_up : Z.of_nat (length (a :: fl)) = nobj ci ->
      given own F s ci a fl (F ∪ block s (sord ci)) (delete s own).

(** The last lines of [kfree] before the unlock. *)
Definition kfree_end (s ci : Z) (h : heap) : outcome (word * heap) :=
  h ← pg_upd (Ref s) (fun p => set_used (p_used_objs p - 1) p) h;
  h ← cache_upd (Ref ci) (fun k => set_totals (sc_total_objs k) (sc_total_objs_allocated k - 1) k) h;
  p ← pg_get (Ref s) h;
  Ret (p_this_cache p, h).

Lemma kfree_end_step h F own s ci pg :
  h_pages h !! s = Some pg -> p_this_cache pg = Ref ci -> cache_ix ci ->
  heap_rep (set_h_pages (<[s := set_used (p_used_objs pg - 1) pg]> (h_pages h)) h) F own (loc_of own) ->
  returns (kfree_end s ci h) (fun '(c, h') => c = Ref ci /\
    heap_rep h' F own (loc_of own) /\ hsame h h' /\ h_mem h' = h_mem h).
Proof.
  intros Hpg Hca Hci Hr. unfold kfree_end. mret (pg_upd_some _ _ _ _ Hpg). set (h1 := set_h_pages _ h) in *.
  destruct (cache_get_ok _ _ _ _ ci Hr Hci) as (c & Hc & _ & _). unfold cache_upd. rewrite Hc. simpl mbind.
  destruct (rep_set_totals h1 _ _ _ ci c (sc_total_objs c) (sc_total_objs_allocated c - 1) Hr Hc) as [Hr2 Hsm2].
  set (h2 := set_caches _ h1) in *.
  mpure (pg_get_some h2 s (set_used (p_used_objs pg - 1) pg) (lookup_insert_eq _ _ _)).
  simpl p_this_cache. split; [done|]. split; [exact Hr2|]. split; [|done]. etrans; [|exact Hsm2]. by split.
Qed.

(** The slab kept its object, or went with it. *)
Lemma kfree_end_kept h F own s ci a fl pg pg0 :
  own !! s = Some (OSlab ci fl) -> 
  heap_rep h F (delete s own) (<[s := (ci, kind ci (a :: fl))]> (loc_of own)) ->
  detached h F (delete s own) (<[s := (ci, kind ci (a :: fl))]> (loc_of own)) s ci pg ->
  Dll.payload pg = Dll.payload pg0 -> slab_head ci (a :: fl) (set_used (p_used_objs pg0 - 1) pg0) ->
  chain (h_mem h) (a :: fl) -> NoDup (a :: fl) -> (forall b, b ∈ a :: fl -> is_obj (h_offset h) s ci b) ->
  heap_rep (set_h_pages (<[s := set_used (p_used_objs pg - 1) pg]> (h_pages h)) h) F
    (<[s := OSlab ci (a :: fl)]> own) (loc_of (<[s := OSlab ci (a :: fl)]> own)).
Proof.
  intros Hs Hr Hd Hpay Hhd Hch Hnd Hob. rewrite loc_of_insert, <- (insert_delete_eq own s).
  apply reattach; try done; [apply lookup_delete_eq|].
  eapply slab_head_payload; [|exact Hhd]. revert Hpay. clear. destruct pg, pg0. by intros [= -> -> -> -> ->].
Qed.

Lemma kfree_end_gone h F own s pg :
  heap_rep h F (delete s own) (delete s (loc_of own)) -> unowned (delete s own) s -> h_pages h !! s = Some pg ->
  heap_rep (set_h_pages (<[s := set_used (p_used_objs pg - 1) pg]> (h_pages h)) h) F
    (delete s own) (loc_of (delete s own)).
Proof.
  intros Hr Hu Hpg. rewrite loc_of_delete.
  eapply (rep_private h _ _ _ (<[s := set_used (p_used_objs pg - 1) pg]> (h_pages h)) (h_mem h)); try done.
  - apply dom_insert_lookup_L. by exists pg.
  - intros p. destruct (decide (p = s)) as [->|]; [right; left|left; by apply lookup_insert_ne].
    split; [by rewrite lookup_insert_eq, Hpg|]. split; [done|]. unfold Dll.links. by rewrite lookup_insert_eq, Hpg.
Qed.

Lemma kfree_end_fold {A} s ci h (k : word -> heap -> outcome A) :
  (h ← pg_upd (Ref s) (fun p => set_used (p_used_objs p - 1) p) h;
   h ← cache_upd (Ref ci) (fun k => set_totals (sc_total_objs k) (sc_total_objs_allocated k - 1) k) h;
   p ← pg_get (Ref s) h;
   k (p_this_cache p) h) = ('(c, h) ← kfree_end s ci h; k c h).
Proof.
  unfold kfree_end. destruct (pg_upd _ _ h) as [h1| |]; try done. cbn [mbind outcome_bind].
  destruct (cache_upd _ _ h1) as [h2| |]; try done. cbn [mbind outcome_bind]. by destruct (pg_get _ h2).
Qed.

(** What [relist_spec] left, with the counters done. *)
Lemma kfree_end_spec h F own s ci fl a pg :
  own !! s = Some (OSlab ci fl) -> cache_ix ci -> slab_head ci (a :: fl) (set_used (p_used_objs pg - 1) pg) ->
  chain (h_mem h) (a :: fl) -> NoDup (a :: fl) -> (forall b, b ∈ a :: fl -> is_obj (h_offset h) s ci b) ->
  p_this_cache pg = Ref ci -> unowned (delete s own) s ->
  (heap_rep h F (delete s own) (<[s := (ci, kind ci (a :: fl))]> (loc_of own)) /\
   exists pg', detached h F (delete s own) (<[s := (ci, kind ci (a :: fl))]> (loc_of own)) s ci pg' /\
     Dll.payload pg' = Dll.payload pg) \/
  (Z.of_nat (length (a :: fl)) = nobj ci /\ heap_rep h (F ∪ block s (sord ci)) (delete s own) (delete s (loc_of own)) /\
   exists pg', h_pages h !! s = Some pg' /\ p_this_cache pg' = p_this_cache pg) ->
  returns (kfree_end s ci h) (fun '(c, h') => c = Ref ci /\ exists F' own',
    heap_rep h' F' own' (loc_of own') /\ hsame h h' /\ h_mem h' = h_mem h /\ given own F s ci a fl F' own').
Proof.
  intros Hs Hci Hhd Hch Hnd Hob Hca Hu [(Hr & pg' & Hd & Hpay)|(Hlen & Hr & pg' & Hpg & Hca')].
  - eapply returns_mono; [eapply (kfree_end_step h F _ s ci pg' (de_page _ _ _ _ _ _ _ Hd))|].
    + rewrite <- Hca. by injection Hpay.
    + done.
    + by eapply kfree_end_kept.
    + intros [c h4] (-> & Hr4 & Hsm4 & Hm4). split; [done|]. do 2 eexists. split_and!; try done. constructor.
  - eapply returns_mono; [eapply (kfree_end_step h _ _ s ci pg' Hpg)|].
    + congruence.
    + done.
    + by eapply kfree_end_gone.
    + intros [c h4] (-> & Hr4 & Hsm4 & Hm4). split; [done|]. do 2 eexists. split_and!; try done. by constructor.
Qed.

Lemma kfree_object_spec h F own s ci fl a :
  heap_ok h F own -> own !! s = Some (OSlab ci fl) -> is_obj (h_offset h) s ci a -> a ∉ fl ->
  returns (kfree a h) (fun h' => exists F' own',
    heap_ok h' F' own' /\ hdone h h' /\ given own F s ci a fl F' own' /\
    forall x, ~ (a <= x < a + osz ci) -> rd (h_mem h') x = rd (h_mem h) x).
Proof.
  intros [Hr Hu] Hs Ha Hna. destruct (hr_own _ _ _ _ Hr _ _ Hs) as (Hci & (pg & Hpg & Hhd) & _ & Hnd & Hob & _).
  destruct (obj_bounds _ _ _ _ _ _ _ a Hr Hs Ha) as [Ha0 Ha1].
  destruct (obj_phys _ _ _ _ _ _ _ _ Hr Hs Ha) as (p & pg' & Hp & Hin & Hpg' & Hnb).
  unfold kfree. destruct (Z.eqb_spec a 0); [lia|]. cbv zeta. rewrite Hp. mpure (pg_get_some _ _ _ Hpg'). rewrite Hnb.
  mpure (find_slab_spec _ _ _ _ _ _ _ _ Hr Hs Ha). simpl preempt_fetch_disable. cbv beta iota.
  mpure (pg_get_some _ _ _ Hpg). rewrite (sh_cache _ _ _ Hhd), (sh_free _ _ _ Hhd).
  mcall (cache_lock_enter h F own _ ci Hr Hu Hci). intros h1 [Hr1 Hen]. simpl mbind.
  assert (h_pages h1 !! s = Some pg) as Hpg1 by (by rewrite (en_pages _ _ _ Hen)).
  rewrite <- (en_off _ _ _ Hen) in Ha.
  pose proof (rep_give_back _ _ _ _ _ _ _ _ _ Hr1 Hs Hpg1 Ha Hna) as Hgb.
  destruct (hr_own _ _ _ _ Hgb _ _ (lookup_insert_eq _ _ _)) as (_ & (pg2 & Hpg2 & Hhd2) & Hch2 & Hnd2 & Hob2 & _).
  clear Hgb. unfold h_pages in Hpg2. simpl in Hpg2. rewrite lookup_insert_eq in Hpg2. injection Hpg2 as <-. simpl in Hch2, Hob2.
  destruct (detach_give_back _ _ _ _ _ _ _ _ _ Hr1 Hs Hpg1 Ha) as [Hr2 Hd2].
  mret (pg_upd_some (set_mem _ h1) s pg _ Hpg1). set (h2 := set_h_pages _ _) in *.
  change (p_used_objs pg) with (p_used_objs (set_freelist (Num a) pg)).
  change (p_total_objs pg) with (p_total_objs (set_freelist (Num a) pg)).
  mcall (relist_spec h2 F (delete s own) (loc_of own) s ci fl a (set_freelist (Num a) pg) Hr2 Hd2).
  { apply loc_of_slab. eauto. }
  { by eapply free_count. }
  { apply (sh_used _ _ _ Hhd). }
  { apply (sh_total _ _ _ Hhd). }
  intros h3 (Hsm3 & Hm3 & Hcase).
  assert (hsame h1 h3) as Hsm13 by (etrans; [|exact Hsm3]; by split).
  rewrite (kfree_end_fold s ci h3 (fun c h' => h' ← cache_unlock c h';
             Ret (set_IF (preempt_restore (mm_IF (h_mm h)) (mm_IF (h_mm h'))) h'))).
  apply returns_bind, (returns_mono _ (fun '(c, h') => c = Ref ci /\ exists F' own',
    heap_rep h' F' own' (loc_of own') /\ hsame h3 h' /\ h_mem h' = h_mem h3 /\ given own F s ci a fl F' own')).
  - apply (kfree_end_spec h3 F own s ci fl a (set_freelist (Num a) pg)); try done; [by rewrite Hm3|by rewrite (hs_off _ _ Hsm3)|apply (sh_cache _ _ _ Hhd)|].
    eapply (unowned_delete _ _ _ _ s (OSlab ci fl)); [exact Hr|done|].
    apply block_nonempty. apply (de_block _ _ _ _ _ _ _ Hd2).
  - intros [c h4] (-> & F' & own' & Hr4 & Hsm4 & Hm4 & Hg). cbv beta iota.
    mcall (cache_unlock_leave h h1 h4 F' own' _ ci Hu Hen ltac:(by etrans) Hr4 Hci). intros h5 (Hr5 & Hu5 & Hd5 & Hm5).
    exists F', own'. split; [by split|]. split; [done|]. split; [done|]. intros x Hx.
    simpl in Hm5. simpl h_mem. rewrite Hm5, Hm4, Hm3. simpl. rewrite write64_other, (en_mem _ _ _ Hen); [done|].
    destruct (cache_facts ci Hci) as (_ & ? & _ & _). lia.
Qed.

(** ** Large allocations *)

Lemma page2phys_ret h s :
  0 <= s < mm_pages_count (h_mm h) -> mm_pages_count (h_mm h) <= 2 ^ 40 ->
  page2phys (mm_pages_count (h_mm h)) (Ref s) = Ret (s * PAGE_SIZE).
Proof. apply slab2addr_ret. Qed.

Lemma kmalloc_big_spec h F own size :
  heap_ok h F own -> KMALLOC_MAX_CACHE_SIZE < size < 2 ^ 64 -> psize2order size <= BUDDY_HIGH_ORDER ->
  can_serve F (psize2order size) ->
  returns (kmalloc size h) (fun '(ret, h') => exists s,
    own !! s = None /\ block s (psize2order size) ⊆ F /\ ret = h_offset h + s * PAGE_SIZE /\
    heap_ok h' (F ∖ block s (psize2order size)) (<[s := OBig (psize2order size)]> own) /\ hdone h h' /\
    h_mem h' = h_mem h).
Proof.
  intros [Hr Hu] Hsize Hk Hcan. destruct (psize2order_bounds size) as [Hk0 _].
  { unfold KMALLOC_MAX_CACHE_SIZE, PAGE_SIZE in Hsize. lia. }
  unfold kmalloc. destruct (Z.gtb_spec size KMALLOC_MAX_CACHE_SIZE); [|lia]. set (k := psize2order size) in *.
  mcall (pa_alloc_ok (h_mm h) F k (hr_pa _ _ _ _ Hr)); [lia|].
  intros [w st] (Hkept & Hun & [(_ & _ & Hno)|(s & -> & Hbk & Hsub & Hpa1)]); [done|].
  destruct (block_taken h F own (loc_of own) st s k) as (Hr1 & Hs & Hblk); try done.
  pose proof (kept_hsame h st Hkept) as Hsm1. cbv zeta. set (h1 := set_mm st h) in *.
  pose proof Hbk as [_ Hs0 Hsn _]. assert (s ∈ block s k) as Hss by (apply block_nonempty; lia).
  destruct (Hblk s Hss) as (HsF & Hsu & Hsl & pg0 & Hpg0 & Hf0).
  destruct (pa_count _ _ (hr_pa _ _ _ _ Hr)) as (Hn & _). destruct (hr_off _ _ _ _ Hr) as [Ho1 Ho2]. unfold PAGE_SIZE in Ho2.
  pose proof (pow2_pos k Hk0) as Hp2. pose proof (hs_count _ _ Hsm1) as Hn1.
  mret (pg_upd_some _ _ _ _ Hpg0). mret pg_upd_again. rewrite Hf0. set (pg1 := set_slot0 _ _).
  mret page2phys_ret; [simpl in *; lia|simpl in *; lia|]. exists s. simpl h_offset.
  rewrite u64_small by (unfold PAGE_SIZE; lia). do 3 (split; [done|]). split; [split|].
  - rewrite loc_of_big by done. apply rep_adopt; simpl; try done.
    + eapply (rep_private h1 _ own (loc_of own) (<[s := pg1]> (h_pages h1)) (h_mem h1)); try done.
      * apply dom_insert_lookup_L. by exists pg0.
      * intros p. destruct (decide (p = s)) as [->|]; [by right; right|left; by apply lookup_insert_ne].
    + simpl in Hn1. by rewrite Hn1.
    + clear. set_solver.
    + intros p Hp. apply (Hblk p Hp).
    + split; [exists pg1; split; [apply lookup_insert_eq|done]|]. intros p Hp Hne.
      unfold h_pages. simpl. rewrite lookup_insert_ne by done. apply (Hblk p Hp).
    + intros p Hp. destruct (Hblk p Hp) as (_ & _ & -> & _). by intros [].
  - exact Hu.
  - split; [|done]. destruct Hsm1. by split.
Qed.

Lemma kfree_big_spec h F own s k :
  heap_ok h F own -> own !! s = Some (OBig k) ->
  returns (kfree (h_offset h + s * PAGE_SIZE) h) (fun h' =>
    heap_ok h' (F ∪ block s k) (delete s own) /\ hdone h h' /\ h_mem h' = h_mem h).
Proof.
  intros [Hr Hu] Hs. destruct (hr_own _ _ _ _ Hr _ _ Hs) as [(pg & Hpg & Hf & Hsl) Ht].
  destruct (hr_blocks _ _ _ _ Hr _ _ Hs) as [Hbk Hd]. simpl in Hbk, Hd. pose proof Hbk as [[Hk0 Hk1] Hs0 Hsn _].
  destruct (pa_count _ _ (hr_pa _ _ _ _ Hr)) as (Hn & _). destruct (hr_off _ _ _ _ Hr) as [Ho1 Ho2]. unfold PAGE_SIZE in Ho2.
  pose proof (pow2_pos k Hk0). assert (s ∈ block s k) as Hss by (apply block_nonempty; lia).
  assert (forall p, p ∈ block s k -> loc_of own !! p = None) as Hul.
  { intros p Hp. destruct (loc_of own !! p) as [[c l]|] eqn:Hl; [|done].
    destruct (hr_loc _ _ _ _ Hr _ _ _ Hl) as (_ & _ & _ & Hx). by destruct (Hx s _ Hs Hp) as (_ & ? & ? & ?). }
  assert (forall p, p ∈ block s k -> unowned (delete s own) p) as Hun.
  { intros p Hp. by eapply (unowned_delete _ _ _ _ s (OBig k)). }
  unfold kfree. destruct (Z.eqb_spec (h_offset h + s * PAGE_SIZE) 0); [unfold PAGE_SIZE in *; lia|]. cbv zeta.
  assert (phys2page ((h_offset h + s * PAGE_SIZE) -! h_offset h) = Ref s) as ->.
  { unfold phys2page. rewrite u64_small by (unfold PAGE_SIZE; lia).
    replace (h_offset h + s * PAGE_SIZE - h_offset h) with (s * PAGE_SIZE) by lia. by rewrite Z.div_mul. }
  mpure (pg_get_some _ _ _ Hpg). rewrite Hf. simpl tst. cbv iota.
  mret (pg_upd_some _ _ _ _ Hpg). mret pg_get_again. simpl p_slot0. rewrite Hsl. simpl mbind at 1.
  mret pg_upd_again. rewrite Hf. set (pg1 := set_slot0 _ _).
  assert (heap_rep (set_mem (h_mem h) (set_h_pages (<[s:=pg1]> (h_pages h)) h)) F (delete s own) (loc_of (delete s own))) as Hr1.
  { rewrite loc_of_delete, (delete_id (loc_of own)) by (by apply Hul). apply rep_private; [by apply rep_disown| | |done].
    - apply dom_insert_lookup_L. by exists pg.
    - intros p. destruct (decide (p = s)) as [->|]; [right; right|left; by apply lookup_insert_ne].
      split; [intros HF; by apply (Hd s)|]. auto. }
  assert (forall p, p ∈ F ∪ block s k -> p ∈ F \/ p ∈ block s k) as HU by (clear; set_solver).
  mcall (pa_free_ok _ F k s (hr_pa _ _ _ _ Hr1) Hbk Hd). intros st (Hkept & Hunt & Hpa).
  pose proof (kept_hsame _ _ Hkept) as Hsm. split; [split|split; [|done]].
  - eapply (rep_mm _ F _ _ st (F ∪ block s k) _ Hr1 Hkept Hunt Hpa); [done|..].
    + intros s' o Hs' p Hp [HF|HB]%HU; [by apply (hr_blocks _ _ _ _ Hr1 _ _ Hs') in HF|by apply (Hun p HB) in Hs'].
    + intros p [HF|HB]%HU.
      * destruct (loc_of (delete s own) !! p) as [[? ?]|] eqn:Hp; [|done]. by apply (hr_loc _ _ _ _ Hr1) in Hp as (_ & _ & ? & _).
      * rewrite loc_of_delete. apply lookup_delete_None. auto.
    + intros p [HF|HB]%HU; [by apply (hr_zero _ _ _ _ Hr1)|]. unfold h_pages. simpl.
      destruct (decide (p = s)) as [->|]; [rewrite lookup_insert_eq; eauto | rewrite lookup_insert_ne by done; auto].
  - exact Hu.
  - destruct Hsm. by split.
Qed.

End Proof.
End SlabProof.
