(* ===== verification/HeapSpec.v ===== *)
(** * The heap as its clients see it

    A client of [kmalloc]/[kfree] (kernel/src/mm/slab.c) knows which addresses
    it was given and how many bytes are there.  [live] reads that off the
    representation; [heap_abs] relates a heap state to the map of live blocks.
    The operations act on this map: [kmalloc] adds a block apart from all
    others, [kfree] removes one, and neither changes a byte of the others. *)

From stdpp Require Import gmap sets.
From S2P Require Import Prelude Macros Locking Dll Mem FrameHdr Blocks FrameAlloc BuddyRep BuddyProof PageIface Slab SlabRep SlabOps SlabProof.

Module HeapSpec.
Import Macros Locking Mem FrameHdr Blocks FrameAlloc BuddyRep BuddyProof PageIface Slab SlabRep SlabOps SlabProof.

(** [live off own a n]: the client holds the [n] bytes from [a]. *)
Inductive live (off : Z) (own : gmap Z owner) : Z -> Z -> Prop :=
  | live_obj s ci fl a :
      own !! s = Some (OSlab ci fl) -> is_obj off s ci a -> a ∉ fl -> live off own a (osz ci)
  | live_big s k : own !! s = Some (OBig k) -> live off own (off + s * PAGE_SIZE) (2 ^ k * PAGE_SIZE).

Section Spec.
Context {PA : PageAllocator}.

Record heap_abs (h : heap) (F : gset Z) (own : gmap Z owner) (L : gmap Z Z) : Prop := {
  ha_ok : heap_ok h F own;
  ha_live : forall a n, L !! a = Some n <-> live (h_offset h) own a n
}.

(** Two blocks share no byte. *)
Definition disjoint (a n b m : Z) : Prop := a + n <= b \/ b + m <= a.

(** A live block lies in the frames of its owner. *)
Lemma live_range h F own loc a n :
  heap_rep h F own loc -> live (h_offset h) own a n ->
  exists s o, own !! s = Some o /\ 16 <= n /\ h_offset h + s * PAGE_SIZE <= a /\
    a + n <= h_offset h + (s + 2 ^ ord_of o) * PAGE_SIZE.
Proof.
  intros Hr [s ci fl b Hs Ha Hn|s k Hs].
  - destruct (hr_own _ _ _ _ Hr _ _ Hs) as (Hci & _). destruct Ha as (j & Hj & ->).
    destruct (cache_facts ci Hci) as (_ & ? & _ & _).
    exists s, (OSlab ci fl). split; [done|]. split; [lia|]. by apply obj_range.
  - exists s, (OBig k). split; [done|]. destruct (hr_blocks _ _ _ _ Hr _ _ Hs) as [[[Hk _] _ _ _] _].
    simpl in *. pose proof (pow2_pos k Hk). unfold PAGE_SIZE. lia.
Qed.

(** Frames of different owners are apart. *)
Lemma owners_apart h F own loc s o s' o' :
  heap_rep h F own loc -> own !! s = Some o -> own !! s' = Some o' -> s <> s' ->
  s + 2 ^ ord_of o <= s' \/ s' + 2 ^ ord_of o' <= s.
Proof.
  intros Hr Hs Hs' Hne. destruct (decide (s + 2 ^ ord_of o <= s')); [by left|].
  destruct (decide (s' + 2 ^ ord_of o' <= s)); [by right|]. destruct Hne.
  destruct (hr_blocks _ _ _ _ Hr _ _ Hs) as [[[? _] _ _ _] _].
  destruct (hr_blocks _ _ _ _ Hr _ _ Hs') as [[[? _] _ _ _] _].
  pose proof (pow2_pos (ord_of o)). pose proof (pow2_pos (ord_of o')).
  apply (hr_once _ _ _ _ Hr s o s' o' (Z.max s s')); [done|done|rewrite elem_block; lia..].
Qed.

(** A live block and anything of another kind that the same owner holds. *)
Lemma live_apart h F own loc a n b m :
  heap_rep h F own loc -> live (h_offset h) own a n -> live (h_offset h) own b m ->
  (a = b /\ n = m) \/ disjoint a n b m.
Proof.
  intros Hr Ha Hb. unfold disjoint.
  destruct Ha as [s ci fl a Hs Hoa Hna|s k Hs], Hb as [s' ci' fl' b Hs' Hob Hnb|s' k' Hs'].
  - destruct (objects_apart _ _ _ _ _ _ _ _ _ _ a b Hr Hs Hs' Hoa Hob) as [[-> ->]|?]; [|by right].
    left. split; [done|]. congruence.
  - destruct (decide (s = s')) as [->|Hne]; [congruence|]. right.
    destruct (hr_own _ _ _ _ Hr _ _ Hs) as (Hci & _). destruct Hoa as (j & Hj & ->).
    destruct (obj_range (h_offset h) s ci j Hci Hj).
    destruct (owners_apart _ _ _ _ _ _ _ _ Hr Hs Hs' Hne); simpl in *; unfold PAGE_SIZE in *; lia.
  - destruct (decide (s = s')) as [->|Hne]; [congruence|]. right.
    destruct (hr_own _ _ _ _ Hr _ _ Hs') as (Hci & _). destruct Hob as (j & Hj & ->).
    destruct (obj_range (h_offset h) s' ci' j Hci Hj).
    destruct (owners_apart _ _ _ _ _ _ _ _ Hr Hs Hs' Hne); simpl in *; unfold PAGE_SIZE in *; lia.
  - destruct (decide (s = s')) as [->|Hne]; [left; split; [done|congruence]|]. right.
    destruct (owners_apart _ _ _ _ _ _ _ _ Hr Hs Hs' Hne); simpl in *; unfold PAGE_SIZE in *; lia.
Qed.

(** A free object and a live block. *)
Lemma free_live_apart h F own loc s ci fl x b m :
  heap_rep h F own loc -> own !! s = Some (OSlab ci fl) -> x ∈ fl -> live (h_offset h) own b m ->
  disjoint x (osz ci) b m.
Proof.
  intros Hr Hs Hx Hb. destruct (hr_own _ _ _ _ Hr _ _ Hs) as (Hci & _ & _ & _ & Hob & _).
  unfold disjoint. destruct Hb as [s' ci' fl' b Hs' Hob' Hnb|s' k' Hs'].
  - destruct (objects_apart _ _ _ _ _ _ _ _ _ _ x b Hr Hs Hs' (Hob x Hx) Hob') as [[-> ->]|?]; [congruence|done].
  - destruct (decide (s = s')) as [->|Hne]; [congruence|]. destruct (Hob x Hx) as (j & Hj & ->).
    destruct (obj_range (h_offset h) s ci j Hci Hj).
    destruct (owners_apart _ _ _ _ _ _ _ _ Hr Hs Hs' Hne); simpl in *; unfold PAGE_SIZE in *; lia.
Qed.

(** Clients may write the bytes they hold. *)
Lemma client_write h F own L a n m :
  heap_abs h F own L -> L !! a = Some n ->
  (forall x, ~ (a <= x < a + n) -> rd m x = rd (h_mem h) x) ->
  heap_abs (set_mem m h) F own L.
Proof.
  intros [[Hr Hu] Hl] Ha Hm. split; [split|]; [|done|done].
  assert (set_mem m h = set_mem m (set_h_pages (h_pages h) h)) as -> by (by destruct h as [[]]).
  apply rep_private; [done|done|by left|]. intros s ci fl x Hs Hx. apply read64_ext. intros y Hy. apply Hm.
  apply Hl in Ha. destruct (hr_own _ _ _ _ Hr _ _ Hs) as (Hci & _).
  destruct (cache_facts ci Hci) as (_ & ? & _ & _).
  destruct (free_live_apart _ _ _ _ _ _ _ _ _ _ Hr Hs Hx Ha); lia.
Qed.

(** ** How the live blocks change *)

(** The owners' blocks, one by one. *)
Definition holds (off s : Z) (o : owner) (a n : Z) : Prop :=
  match o with
  | OSlab ci fl => is_obj off s ci a /\ a ∉ fl /\ n = osz ci
  | OBig k => a = off + s * PAGE_SIZE /\ n = 2 ^ k * PAGE_SIZE
  end.

Lemma live_holds off own a n : live off own a n <-> exists s o, own !! s = Some o /\ holds off s o a n.
Proof.
  split.
  - intros [s ci fl b Hs Ha Hn|s k Hs]; eexists s, _; (split; [done|]); done.
  - intros (s & [ci fl|k] & Hs & Hh); simpl in Hh.
    + destruct Hh as (? & ? & ->). by eapply live_obj.
    + destruct Hh as [-> ->]. by apply live_big.
Qed.

Lemma live_insert off own s o a n :
  live off (<[s := o]> own) a n <-> holds off s o a n \/ live off (delete s own) a n.
Proof.
  rewrite !live_holds. split.
  - intros (s' & o' & Hs' & Hh). destruct (decide (s' = s)) as [->|Hne].
    + rewrite lookup_insert_eq in Hs'. injection Hs' as <-. by left.
    + right. exists s', o'. rewrite lookup_insert_ne in Hs' by done. by rewrite lookup_delete_ne.
  - intros [Hh|(s' & o' & [Hne Hs']%lookup_delete_Some & Hh)].
    + exists s, o. by rewrite lookup_insert_eq.
    + exists s', o'. by rewrite lookup_insert_ne.
Qed.

Lemma live_split off own s o a n :
  own !! s = Some o -> live off own a n <-> holds off s o a n \/ live off (delete s own) a n.
Proof. intros Hs. rewrite <- live_insert, insert_id by done. done. Qed.

Lemma holds_apart h F own loc s o a n b m :
  heap_rep h F own loc -> own !! s = Some o -> holds (h_offset h) s o a n -> live (h_offset h) (delete s own) b m -> a <> b.
Proof.
  intros Hr Hs Ha Hb <-. assert (live (h_offset h) {[s := o]} a n) as Ha'.
  { apply live_holds. exists s, o. by rewrite lookup_singleton_eq. }
  apply live_holds in Hb as (s' & o' & [Hne Hs']%lookup_delete_Some & Hb).
  assert (forall s o n, own !! s = Some o -> holds (h_offset h) s o a n ->
            h_offset h + s * PAGE_SIZE <= a < h_offset h + (s + 2 ^ ord_of o) * PAGE_SIZE) as Hin.
  { clear -Hr. intros s o n Hs Ho. destruct o as [ci fl|k]; simpl in *.
    - destruct Ho as ((j & Hj & ->) & _). destruct (hr_own _ _ _ _ Hr _ _ Hs) as (Hci & _).
      destruct (obj_range (h_offset h) s ci j Hci Hj). destruct (cache_facts ci Hci) as (_ & ? & _ & _). lia.
    - destruct Ho as [-> _]. destruct (hr_blocks _ _ _ _ Hr _ _ Hs) as [[[Hk _] _ _ _] _]. simpl in Hk.
      pose proof (pow2_pos k Hk). unfold PAGE_SIZE. lia. }
  pose proof (Hin _ _ _ Hs Ha). pose proof (Hin _ _ _ Hs' Hb).
  destruct (owners_apart _ _ _ _ _ _ _ _ Hr Hs Hs' ltac:(done)); unfold PAGE_SIZE in *; lia.
Qed.

(** A list of [nobj] objects is all objects. *)
Lemma all_free off s ci fl a :
  cache_ix ci -> NoDup fl -> (forall b, b ∈ fl -> is_obj off s ci b) -> Z.of_nat (length fl) = nobj ci ->
  is_obj off s ci a -> a ∈ fl.
Proof.
  intros Hci Hnd Hob Hlen Ha. destruct (all_objs_facts off s ci Hci) as (Hnd' & Hlen' & Hall & _).
  assert (fl ≡ₚ all_objs off s ci) as ->; [|by apply Hall]. apply submseteq_length_Permutation; [|lia].
  apply NoDup_submseteq; [done|]. intros b Hb. by apply Hall, Hob.
Qed.

(** An owner that holds one block more. *)
Lemma abs_insert h F own L h' F' s o ret n0 :
  heap_abs h F own L -> heap_ok h' F' (<[s := o]> own) -> h_offset h' = h_offset h ->
  (forall a n, holds (h_offset h) s o a n <->
     (a = ret /\ n = n0) \/ (exists o0, own !! s = Some o0 /\ holds (h_offset h) s o0 a n)) ->
  (forall o0 n, own !! s = Some o0 -> ~ holds (h_offset h) s o0 ret n) ->
  heap_abs h' F' (<[s := o]> own) (<[ret := n0]> L) /\ L !! ret = None.
Proof.
  intros [Hok Hl] Hok' Hoff Hh Hno.
  assert (forall n, ~ live (h_offset h) (delete s own) ret n) as Hnd.
  { intros n Hn. rewrite <- Hoff in *. eapply (holds_apart h' F' (<[s := o]> own) _ s o ret n0 ret n (ho_rep _ _ _ Hok'));
      [apply lookup_insert_eq|apply Hh; by left|by rewrite delete_insert_eq|done]. }
  assert (forall a n, live (h_offset h) own a n <->
            (exists o0, own !! s = Some o0 /\ holds (h_offset h) s o0 a n) \/ live (h_offset h) (delete s own) a n) as Hsp.
  { intros a n. destruct (own !! s) as [o0|] eqn:Hs.
    - rewrite (live_split _ _ _ _ a n Hs). naive_solver.
    - rewrite (delete_id own s Hs). naive_solver. }
  split.
  - split; [done|]. intros a n. rewrite Hoff, live_insert, Hh. destruct (decide (a = ret)) as [->|Hne].
    + rewrite lookup_insert_eq. split; [intros [= <-]; by left; left|].
      intros [[[_ ->]|(o0 & Hs & Ho)]|Hn]; [done|by destruct (Hno _ _ Hs Ho)|by destruct (Hnd n)].
    + rewrite lookup_insert_ne, Hl, Hsp by done. naive_solver.
  - destruct (L !! ret) as [n|] eqn:Hn; [|done]. apply Hl, Hsp in Hn as [(o0 & Hs & Ho)|Hn]; [by destruct (Hno _ _ Hs Ho)|by destruct (Hnd n)].
Qed.

Lemma abs_delete h F own L h' F' own' a :
  heap_abs h F own L -> heap_ok h' F' own' -> h_offset h' = h_offset h ->
  (forall b n, live (h_offset h) own' b n <-> live (h_offset h) own b n /\ b <> a) ->
  heap_abs h' F' own' (delete a L).
Proof.
  intros [Hok Hl] Hok' Hoff Hiff. split; [done|]. intros b n. rewrite Hoff, Hiff, lookup_delete_Some, Hl. naive_solver.
Qed.

Lemma abs_taken h F own L h' F' own' ci ret :
  heap_abs h F own L -> heap_ok h' F' own' -> h_offset h' = h_offset h -> cache_ix ci ->
  taken (h_offset h) F own (h_mem h) (h_mem h') ci ret F' own' ->
  (heap_abs h' F' own' (<[ret := osz ci]> L) /\ L !! ret = None) /\ exists s, is_obj (h_offset h) s ci ret.
Proof.
  intros Ha Hok' Hoff Hci Ht. pose proof (ha_ok _ _ _ _ Ha) as [Hr _].
  destruct Ht as [s fl Hs Hm|s fl Hs Hsub Hfl Hm].
  - destruct (hr_own _ _ _ _ Hr _ _ Hs) as (_ & _ & _ & [Hn _]%NoDup_cons & Hob & _).
    split; [|exists s; apply Hob; left].
    apply (abs_insert h F own L h' F s _ ret (osz ci)); try done.
    + intros a n. simpl. rewrite Hs. assert (is_obj (h_offset h) s ci ret) by (apply Hob; left).
      split.
      * intros (Hoa & Hna & ->). destruct (decide (a = ret)) as [->|]; [by left|right].
        eexists. split; [done|]. simpl. split_and!; try done. by apply not_elem_of_cons.
      * intros [[-> ->]|(o0 & [= <-] & Hoa & [_ ?]%not_elem_of_cons & ->)]; done.
    + intros o0 n. rewrite Hs. intros [= <-] (_ & [? _]%not_elem_of_cons & _). done.
  - destruct (all_objs_facts (h_offset h) s ci Hci) as (Hnd & _ & Hall & _). rewrite <- Hfl in Hnd, Hall.
    apply NoDup_cons in Hnd as [Hn _]. split; [|exists s; apply Hall; left].
    apply (abs_insert h F own L h' (F ∖ block s (sord ci)) s _ ret (osz ci)); try done.
    + intros a n. simpl. rewrite Hs, <- Hall, elem_of_cons. naive_solver.
    + intros o0 n. by rewrite Hs.
Qed.

Lemma abs_given h F own L h' F' own' s ci fl a :
  heap_abs h F own L -> heap_ok h' F' own' -> h_offset h' = h_offset h ->
  own !! s = Some (OSlab ci fl) -> is_obj (h_offset h) s ci a -> a ∉ fl ->
  given own F s ci a fl F' own' -> heap_abs h' F' own' (delete a L).
Proof.
  intros Ha Hok' Hoff Hs Hoa Hna Hg. pose proof (ha_ok _ _ _ _ Ha) as [Hr _].
  destruct (hr_own _ _ _ _ Hr _ _ Hs) as (Hci & _ & _ & Hnd & Hob & _).
  assert (forall b n, live (h_offset h) (delete s own) b n -> b <> a) as Hne.
  { intros b n Hb <-. by eapply (holds_apart h F own _ s (OSlab ci fl) b (osz ci) b n). }
  apply (abs_delete h F own L); try done. intros b n. destruct Hg as [|Hlen].
  - rewrite live_insert, (live_split _ own s (OSlab ci fl) b n Hs). simpl. rewrite not_elem_of_cons. naive_solver.
  - rewrite (live_split _ own s (OSlab ci fl) b n Hs). simpl. split; [naive_solver|].
    intros [[(Hob' & Hnb & _)|?] Hba]; [|done].
    assert (b ∈ a :: fl) as [?|?]%elem_of_cons; [|done..]. eapply all_free; try done; [by apply NoDup_cons|].
    intros x [->|Hx]%elem_of_cons; auto.
Qed.

(** ** Requests *)

(** The cache for a small request and the bytes a request gets. *)
Definition class_of (size : Z) : Z := Z.log2 ((size - 1) / 8).
Definition capacity (size : Z) : Z :=
  if size <=? KMALLOC_MAX_CACHE_SIZE then osz (class_of size) else 2 ^ psize2order size * PAGE_SIZE.

(** There is a free object of the cache, or frames for a new slab or for the
    large block. *)
Definition serves (F : gset Z) (own : gmap Z owner) (size : Z) : Prop :=
  if size <=? KMALLOC_MAX_CACHE_SIZE then room F own (class_of size)
  else psize2order size <= BUDDY_HIGH_ORDER /\ can_serve F (psize2order size).

Lemma size2block_log n v o : 0 <= v < 2 ^ Z.of_nat n -> size2block_loop n v o = o + Z.log2 v.
Proof.
  revert v o. induction n as [|n IH]; intros v o Hv.
  { simpl in Hv. assert (v = 0) as -> by lia. simpl. lia. }
  cbn [size2block_loop]. rewrite Z.shiftr_div_pow2 by lia. change (2 ^ 1) with 2.
  destruct (Z.eqb_spec (v / 2) 0) as [H0|H0].
  - assert (v = 0 \/ v = 1) as [->| ->] by (pose proof (Z.mod_pos_bound v 2); pose proof (Z.div_mod v 2); lia); simpl; lia.
  - rewrite IH.
    + assert (2 <= v) by (pose proof (Z.mod_pos_bound v 2); pose proof (Z.div_mod v 2); lia).
      assert (1 <= Z.log2 v) by (apply Z.log2_le_pow2; lia).
      pose proof (Z.log2_shiftr v 1) as Hl. rewrite Z.shiftr_div_pow2 in Hl by lia. change (2 ^ 1) with 2 in Hl. lia.
    + split; [apply Z.div_pos; lia|]. apply Z.div_lt_upper_bound; [lia|].
      replace (2 * 2 ^ Z.of_nat n) with (2 ^ Z.of_nat (S n)); [lia|].
      rewrite Nat2Z.inj_succ, Z.pow_succ_r by lia. lia.
Qed.

(** [_size2block] picks the smallest cache the request fits in. *)
Lemma size2block_spec size :
  0 < size <= KMALLOC_MAX_CACHE_SIZE ->
  _size2block size = Ret (class_of size) /\ cache_ix (class_of size) /\ size <= osz (class_of size) /\
  (0 < class_of size -> osz (class_of size - 1) < size).
Proof.
  unfold KMALLOC_MAX_CACHE_SIZE, PAGE_SIZE. intros Hs. unfold _size2block, class_of.
  destruct (Z.eqb_spec size 0); [lia|]. rewrite u64_small, Z.shiftr_div_pow2 by lia. change (2 ^ 3) with 8.
  assert (0 <= (size - 1) / 8 < 1024) as Hv by (split; [apply Z.div_pos; lia|apply Z.div_lt_upper_bound; lia]).
  rewrite size2block_log by (simpl; lia). rewrite Z.add_0_l. split; [done|].
  pose proof (Z.div_mod (size - 1) 8). pose proof (Z.mod_pos_bound (size - 1) 8). set (v := (size - 1) / 8) in *.
  unfold cache_ix, KMALLOC_ALLOC_SIZES, osz. destruct (decide (v = 0)) as [->|Hne].
  - simpl. split; [lia|]. split; lia.
  - destruct (Z.log2_spec v) as [H1 H2]; [lia|]. pose proof (Z.log2_nonneg v).
    assert (Z.log2 v < 10) by (apply Z.log2_lt_pow2; lia).
    rewrite Z.pow_succ_r in H2 by done. rewrite Z.pow_add_r by lia. split; [lia|]. split; [simpl; lia|].
    intros Hp. replace (Z.log2 v - 1 + 4) with (Z.log2 v + 3) by lia. rewrite Z.pow_add_r by lia. simpl. lia.
Qed.

Lemma kmalloc_small h size :
  0 < size <= KMALLOC_MAX_CACHE_SIZE -> h_initialized h <> 0 -> kmalloc size h = cache_alloc (Ref (class_of size)) h.
Proof.
  intros Hs Hi. destruct (size2block_spec size) as (Hb & Hci & _); [lia|]. unfold kmalloc.
  destruct (Z.gtb_spec size KMALLOC_MAX_CACHE_SIZE); [lia|]. destruct (Z.eqb_spec size 0); [lia|].
  destruct (Z.eqb_spec (h_initialized h) 0); [done|]. rewrite Hb. simpl.
  destruct (Z.geb_spec (class_of size) KMALLOC_ALLOC_SIZES); [destruct Hci; lia|done].
Qed.

(** Small requests and whole numbers of pages get what they asked for. *)
Lemma capacity_enough size :
  0 < size < 2 ^ 64 -> size <= KMALLOC_MAX_CACHE_SIZE \/ (PAGE_SIZE | size) ->
  psize2order size <= BUDDY_HIGH_ORDER -> size <= capacity size.
Proof.
  intros Hs Hfit Hk. unfold capacity. destruct (Z.leb_spec size KMALLOC_MAX_CACHE_SIZE) as [Hle|Hgt].
  - destruct (size2block_spec size) as (_ & _ & ? & _); lia.
  - destruct Hfit as [?|[n ->]]; [lia|]. pose proof (psize2order_covers n).
    apply Z.mul_le_mono_nonneg_r; [done|]. unfold PAGE_SIZE in *. lia.
Qed.

Lemma live_aligned h F own loc a n :
  heap_rep h F own loc -> live (h_offset h) own a n -> (n | a - h_offset h).
Proof.
  intros Hr [s ci fl b Hs (j & Hj & ->) Hn|s k Hs]; destruct (hr_blocks _ _ _ _ Hr _ _ Hs) as [[Hk Hs0 Hsn Hal] _].
  - simpl in Hal. destruct (hr_own _ _ _ _ Hr _ _ Hs) as (Hci & _). destruct (cache_facts ci Hci) as (_ & _ & _ & Hsz).
    destruct Hal as [q ->]. exists (q * nobj ci + j). unfold obj.
    rewrite Z.mul_add_distr_r, <- (Z.mul_assoc q (nobj ci)), Hsz. lia.
  - simpl in Hal. destruct Hal as [q ->]. exists q. lia.
Qed.

(** Bytes of live blocks are outside a block of free frames. *)
Lemma live_outside h F own loc a n s k x :
  heap_rep h F own loc -> live (h_offset h) own a n -> 0 <= k -> block s k ⊆ F -> a <= x < a + n ->
  outside (h_offset h) s k x.
Proof.
  intros Hr Ha Hk Hsub Hx. destruct (live_range _ _ _ _ _ _ Hr Ha) as (s' & o & Hs' & _ & Hlo & Hhi).
  destruct (hr_blocks _ _ _ _ Hr _ _ Hs') as [[[Hk' _] _ _ _] Hd].
  pose proof (pow2_pos k Hk). pose proof (pow2_pos (ord_of o) Hk'). unfold outside.
  destruct (decide (s' + 2 ^ ord_of o <= s)); [left; unfold PAGE_SIZE in *; lia|].
  destruct (decide (s + 2 ^ k <= s')); [right; unfold PAGE_SIZE in *; lia|].
  destruct (Hd (Z.max s s')); [rewrite elem_block; lia|]. apply Hsub. rewrite elem_block. lia.
Qed.

(** ** The operations on the live blocks *)

Definition unchanged (L : gmap Z Z) (m m' : mem) : Prop :=
  forall b k x, L !! b = Some k -> b <= x < b + k -> rd m' x = rd m x.

(** Slabs stay slabs of their cache. *)
Definition slabs_stay (own own' : gmap Z owner) : Prop :=
  forall s ci fl, own !! s = Some (OSlab ci fl) -> exists fl', own' !! s = Some (OSlab ci fl').

Lemma slabs_stay_insert own s ci fl :
  (forall ci' fl', own !! s = Some (OSlab ci' fl') -> ci' = ci) -> slabs_stay own (<[s := OSlab ci fl]> own).
Proof.
  intros Hs s' ci' fl' Hs'. destruct (decide (s' = s)) as [->|]; [|rewrite lookup_insert_ne by done; eauto].
  rewrite lookup_insert_eq, (Hs ci' fl' Hs'). eauto.
Qed.

Lemma kmalloc_spec h F own L size :
  heap_abs h F own L -> 0 < size < 2 ^ 64 -> serves F own size ->
  returns (kmalloc size h) (fun '(ret, h') => exists F' own',
    heap_abs h' F' own' (<[ret := capacity size]> L) /\ L !! ret = None /\ hdone h h' /\ unchanged L (h_mem h) (h_mem h') /\
    slabs_stay own own').
Proof.
  intros Ha Hsize. pose proof (ha_ok _ _ _ _ Ha) as Hok. unfold serves, capacity.
  destruct (Z.leb_spec size KMALLOC_MAX_CACHE_SIZE) as [Hle|Hgt].
  - intros Hroom. destruct (size2block_spec size) as (_ & Hci & _); [lia|].
    rewrite kmalloc_small; [|lia|apply (hr_init _ _ _ _ (ho_rep _ _ _ Hok))].
    eapply returns_mono; [exact (cache_alloc_spec h F own _ Hok Hci Hroom)|].
    intros [ret h'] (F' & own' & Hok' & Hd & Ht). exists F', own'.
    destruct (abs_taken h F own L h' F' own' (class_of size) ret) as [[Ha' Hn] _]; try done; [apply Hd|].
    do 3 (split; [done|]). destruct Ht as [s fl Hs Hm|s fl Hs Hsub Hfl Hm].
    + split; [intros b k x _ _; by rewrite Hm|]. apply slabs_stay_insert. congruence.
    + split; [|apply slabs_stay_insert; congruence]. intros b k x Hb' Hx. apply (ha_live _ _ _ _ Ha) in Hb'.
      apply Hm. destruct (cache_facts _ Hci) as ([? _] & _). by eapply live_outside; [apply Hok|..].
  - intros [Hk Hcan]. eapply returns_mono; [exact (kmalloc_big_spec h F own size Hok ltac:(lia) Hk Hcan)|].
    intros [ret h'] (s & Hs & Hsub & -> & Hok' & Hd & Hm). do 2 eexists. split_and!.
    all: try (eapply abs_insert; [exact Ha|exact Hok'|apply Hd| |]; [intros a n; simpl; rewrite Hs; naive_solver|by rewrite Hs]).
    + done.
    + intros b k x _ _. by rewrite Hm.
    + intros s' ci fl Hs'. exists fl. rewrite lookup_insert_ne; [done|congruence].
Qed.

Lemma kfree_spec h F own L a n :
  heap_abs h F own L -> L !! a = Some n ->
  returns (kfree a h) (fun h' => exists F' own',
    heap_abs h' F' own' (delete a L) /\ hdone h h' /\ unchanged (delete a L) (h_mem h) (h_mem h')).
Proof.
  intros Ha HL. pose proof (ha_ok _ _ _ _ Ha) as Hok. pose proof HL as Hlive%(ha_live _ _ _ _ Ha).
  inversion Hlive as [s ci fl b Hs Hoa Hna Heq1 Heq2|s k Hs Heq1 Heq2]; subst.
  - eapply returns_mono; [exact (kfree_object_spec h F own s ci fl a Hok Hs Hoa Hna)|].
    intros h' (F' & own' & Hok' & Hd & Hg & Hm). exists F', own'.
    split; [eapply abs_given; try done; apply Hd|]. split; [done|].
    intros b k x [Hne Hb]%lookup_delete_Some Hx. apply Hm. apply (ha_live _ _ _ _ Ha) in Hb.
    destruct (live_apart _ _ _ _ _ _ _ _ (ho_rep _ _ _ Hok) Hlive Hb) as [[? _]|[?|?]]; [done|lia|lia].
  - eapply returns_mono; [exact (kfree_big_spec h F own s k Hok Hs)|].
    intros h' (Hok' & Hd & Hm). do 2 eexists. split; [|split; [done|]].
    + eapply abs_delete; [exact Ha|exact Hok'|apply Hd|]. intros b n.
      rewrite (live_split _ own s (OBig k) b n Hs). simpl. split.
      * intros Hb. split; [by right|]. intros ->.
        by eapply (holds_apart h F own _ s (OBig k) _ _ _ n (ho_rep _ _ _ Hok) Hs).
      * intros [[[-> _]|?] ?]; done.
    + intros b m x _ _. by rewrite Hm.
Qed.

(** Different blocks are apart. *)
Lemma abs_apart h F own L a n b k :
  heap_abs h F own L -> L !! a = Some n -> L !! b = Some k -> a <> b -> disjoint a n b k.
Proof.
  intros [[Hr _] Hl] Ha%Hl Hb%Hl Hne. destruct (live_apart _ _ _ _ _ _ _ _ Hr Ha Hb) as [[? _]|?]; done.
Qed.

(** ** Out of memory *)

Lemma pa_alloc_none st F k :
  pa_ok st F -> 0 <= k -> ~ can_serve F k \/ BUDDY_HIGH_ORDER < k -> exists st', pa_alloc k st = Ret (NULL, st').
Proof.
  intros Hpa Hk Hno. destruct (decide (k <= BUDDY_HIGH_ORDER)) as [Hle|Hgt].
  - destruct (returns_inv _ _ (pa_alloc_ok st F k Hpa ltac:(lia))) as ([w st'] & Heq & _ & _ & Hc).
    destruct Hc as [(-> & _)|(a & _ & Hbk & Hsub & _)]; [by exists st'|].
    destruct Hno as [Hno|?]; [|lia]. destruct Hno. exists a. split; [by destruct Hbk|done].
  - exists st. eapply pa_high; [done|lia].
Qed.

Lemma new_slab_none h F own loc ci :
  heap_rep h F own loc -> cache_ix ci -> ~ can_serve F (sord ci) ->
  exists msg, new_slab (Ref ci) (2 ^ sord ci) h = Fault msg.
Proof.
  intros Hr Hci Hno. destruct (cache_facts ci Hci) as ([Hk Hk'] & _).
  assert (2 ^ sord ci <= 2 ^ 10) by (apply Z.pow_le_mono_r; unfold max_order in *; lia).
  pose proof (pow2_pos (sord ci) Hk). unfold new_slab. rewrite size2order_log2, Z.log2_pow2 by lia.
  destruct (pa_alloc_none (h_mm h) F (sord ci) (hr_pa _ _ _ _ Hr) Hk (or_introl Hno)) as (st & ->). simpl.
  destruct (hr_caches _ _ _ _ Hr ci Hci) as (c & -> & _). simpl. by eexists.
Qed.

Lemma kmalloc_none h F own size :
  heap_ok h F own -> 0 < size < 2 ^ 64 -> ~ serves F own size -> exists msg, kmalloc size h = Fault msg.
Proof.
  intros [Hr Hu] Hsize. unfold serves. destruct (Z.leb_spec size KMALLOC_MAX_CACHE_SIZE) as [Hle|Hgt]; intros Hno.
  - destruct (size2block_spec size) as (_ & Hci & _); [lia|].
    rewrite kmalloc_small; [|lia|apply (hr_init _ _ _ _ Hr)].
    set (ci := class_of size) in *.
    unfold cache_alloc, preempt_fetch_disable, preempt_disable. cbv beta iota zeta.
    destruct (returns_inv _ _ (cache_lock_enter h F own _ ci Hr Hu Hci)) as (h1 & Hlk & Hr1 & _). rewrite Hlk. simpl.
    destruct (cache_get_ok _ _ _ _ ci Hr1 Hci) as (c & Hc & Hget & Hok). simpl in Hget. rewrite Hget. simpl.
    destruct (list_head _ _ _ _ _ Partial Hr1 Hc Hok) as [[Hn _]|(s & fl & _ & Hs & Hk & _)];
      [|destruct Hno; left; exists s, fl; split; [done|by intros ->]].
    simpl in Hn. rewrite Hn. simpl.
    destruct (list_head _ _ _ _ _ Full Hr1 Hc Hok) as [[Hn' _]|(s & fl & _ & Hs & Hk & _)];
      [|destruct Hno; left; exists s, fl; split; [done|by intros ->]].
    simpl in Hn'. rewrite Hn'. simpl. rewrite (cst_pps _ _ (co_static _ _ _ _ Hok)).
    destruct (new_slab_none h1 F own _ ci Hr1 Hci) as (msg & ->); [|by eexists].
    intros Hcan. apply Hno. by right.
  - unfold kmalloc. destruct (Z.gtb_spec size KMALLOC_MAX_CACHE_SIZE); [|lia].
    destruct (psize2order_bounds size) as [Hk0 _]; [lia|].
    destruct (pa_alloc_none (h_mm h) F (psize2order size) (hr_pa _ _ _ _ Hr) Hk0) as (st & ->); [|by eexists].
    destruct (decide (psize2order size <= BUDDY_HIGH_ORDER)); [left; tauto|right; lia].
Qed.

(** Whether a request can be served is decidable. *)
Lemma can_serve_exists F k :
  0 <= k -> can_serve F k <-> set_Exists (fun i => (2 ^ k | i) /\ block i k ⊆ F) F.
Proof.
  intros Hk. split; [|intros (i & _ & ?); by exists i].
  intros (i & Hd & Hi). exists i. split; [by apply Hi, block_nonempty|done].
Qed.

#[local] Instance divide_dec a b : Decision (a | b) := Znumtheory.Zdivide_dec a b.

#[local] Instance spare_dec ci (o : owner) :
  Decision (match o with OSlab ci' (_ :: _) => ci' = ci | _ => False end).
Proof. destruct o as [? [|? ?]|?]; apply _. Defined.

Lemma serves_dec F own size : 0 < size < 2 ^ 64 -> serves F own size \/ ~ serves F own size.
Proof.
  intros Hs. assert (forall k, 0 <= k -> can_serve F k \/ ~ can_serve F k) as Hcan.
  { intros k Hk. rewrite (can_serve_exists F k Hk).
    destruct (decide (set_Exists (fun i => (2 ^ k | i) /\ block i k ⊆ F) F)); auto. }
  unfold serves, room. destruct (Z.leb_spec size KMALLOC_MAX_CACHE_SIZE) as [Hle|Hgt].
  - destruct (size2block_spec size) as (_ & Hci & _); [lia|]. destruct (cache_facts _ Hci) as ([Hk _] & _).
    destruct (Hcan _ Hk) as [?|Hno]; [by left; right|].
    destruct (decide (map_Exists (fun _ o => match o with OSlab ci (_ :: _) => ci = class_of size | _ => False end) own)) as [He|He].
    + left. left. destruct He as (s & [ci [|x fl]|k] & Hs' & ?); try done. subst. by exists s, (x :: fl).
    + right. intros [(s & fl & Hs' & Hfl)|?]; [|done]. apply He. exists s, (OSlab (class_of size) fl).
      split; [done|]. by destruct fl.
  - destruct (psize2order_bounds size) as [Hk0 _]; [lia|].
    destruct (decide (psize2order size <= BUDDY_HIGH_ORDER)) as [|?]; [|right; tauto].
    destruct (Hcan _ Hk0); [by left|right; tauto].
Qed.

End Spec.
End HeapSpec.
