(* ===== verification/HeapFrame.v ===== *)
(** * The heap for clients that allocate several objects

    [statics]: memory outside the frames of the heap, where the kernel's image
    is, is never written.  [spare F n]: the free frames [F] hold [n] aligned
    runs of 16 frames, enough for a new slab of any cache each; an allocation
    of an object uses up at most one of them, so a client that starts with
    [n] of them can make [n] allocations. *)

From stdpp Require Import gmap sets.
From S2P Require Import Prelude Macros Locking Dll Mem FrameHdr Blocks FrameAlloc BuddyRep BuddyProof PageIface Slab SlabRep SlabOps SlabProof HeapSpec.

Module HeapFrame.
Import Macros Locking Mem FrameHdr Blocks FrameAlloc BuddyRep BuddyProof PageIface Slab SlabRep SlabOps SlabProof HeapSpec.

Definition static (h : heap) (x : Z) : Prop :=
  x < h_offset h \/ h_offset h + mm_pages_count (h_mm h) * PAGE_SIZE <= x.
Definition statics (h h' : heap) : Prop := forall x, static h x -> rd (h_mem h') x = rd (h_mem h) x.

Definition spare (F : gset Z) (n : nat) : Prop :=
  exists l, NoDup l /\ length l = n /\ forall i, i ∈ l -> (2 ^ 4 | i) /\ block i 4 ⊆ F.

Lemma sord_small ci : cache_ix ci -> 0 <= sord ci <= 4.
Proof. intros Hc. each_cache Hc; vm_compute; split; discriminate. Qed.

Lemma spare_run F a n : (forall x, 16 * a <= x < 16 * (a + Z.of_nat n) -> x ∈ F) -> spare F n.
Proof.
  intros HF. exists ((fun i => 16 * i) <$> seqZ a (Z.of_nat n)). split_and!.
  - apply NoDup_fmap_2; [intros x y; lia|apply NoDup_seqZ].
  - rewrite length_fmap, length_seqZ. lia.
  - intros i (j & -> & Hj%elem_of_seqZ)%list_elem_of_fmap. split; [exists j; lia|]. intros x Hx%elem_block. apply HF. lia.
Qed.

Lemma spare_take F n s k : 0 <= k <= 4 -> (2 ^ k | s) -> spare F (S n) -> spare (F ∖ block s k) n.
Proof.
  intros Hk Hs (l & Hnd & Hlen & Hl). set (j := 16 * (s / 16)).
  assert (exists l', NoDup l' /\ length l' = n /\ forall i, i ∈ l' -> i ∈ l /\ i <> j) as (l' & Hnd' & Hlen' & Hl').
  { destruct (decide (j ∈ l)) as [Hj|Hj].
    - apply list_elem_of_split in Hj as (l1 & l2 & ->). exists (l1 ++ l2).
      apply NoDup_app in Hnd as (H1 & H2 & [H3 H4]%NoDup_cons). rewrite length_app in *. simpl in Hlen.
      split_and!; [apply NoDup_app; split_and!; [done| |done]|lia|].
      + intros x Hx Hx'. apply (H2 x Hx). by right.
      + intros i Hi. rewrite elem_of_app, elem_of_cons. apply elem_of_app in Hi as [Hi|Hi].
        * split; [by left|]. intros ->. apply (H2 j Hi). left.
        * split; [by right; right|]. by intros ->.
    - destruct l as [|x l]; [done|]. apply NoDup_cons in Hnd as [? ?]. exists l. simpl in Hlen.
      split_and!; [done|lia|]. intros i Hi. split; [by right|]. intros ->. apply Hj. by right. }
  exists l'. split_and!; [done|done|]. intros i Hi. destruct (Hl' i Hi) as [Hin Hne]. destruct (Hl i Hin) as [Hd Hsub].
  split; [done|]. intros x Hx. apply elem_of_difference. split; [by apply Hsub|]. rewrite elem_block in Hx |- *. intros Hxs.
  assert ((2 ^ 4 | j)) as Hj by (exists (s / 16); unfold j; lia).
  assert (s + 2 ^ k <= j + 2 ^ 4).
  { destruct Hs as [q ->]. unfold j. assert (16 = 2 ^ k * 2 ^ (4 - k)) as H16 by (rewrite <- Z.pow_add_r by lia; by replace (k + (4 - k)) with 4 by lia).
    pose proof (pow2_pos k ltac:(lia)). pose proof (pow2_pos (4 - k) ltac:(lia)).
    replace (q * 2 ^ k / 16) with (q / 2 ^ (4 - k)) by (rewrite H16, (Z.mul_comm q), Z.div_mul_cancel_l by lia; done).
    pose proof (Z.mod_pos_bound q (2 ^ (4 - k)) ltac:(lia)). pose proof (Z.div_mod q (2 ^ (4 - k)) ltac:(lia)) as Hq.
    change (2 ^ 4) with 16. rewrite H16. set (t := 2 ^ k) in *. set (r := 2 ^ (4 - k)) in *.
    assert ((q mod r + 1) * t <= r * t) by (apply Z.mul_le_mono_nonneg_r; lia). rewrite Hq at 1. lia. }
  assert (j <= s) by (unfold j; pose proof (Z.mul_div_le s 16); lia).
  destruct Hd as [a ->], Hj as [b Hb]. apply Hne. rewrite Hb. f_equal. lia.
Qed.

Lemma spare_less F n : spare F (S n) -> spare F n.
Proof.
  intros (l & Hnd & Hlen & Hl). destruct l as [|i l]; [done|]. exists l. apply NoDup_cons in Hnd as [_ ?].
  simpl in Hlen. split_and!; [done|lia|]. intros j Hj. apply Hl. by right.
Qed.

Lemma spare_serves F own n size : spare F (S n) -> 0 < size <= KMALLOC_MAX_CACHE_SIZE -> serves F own size.
Proof.
  intros (l & _ & Hlen & Hl) Hs. unfold serves. destruct (Z.leb_spec size KMALLOC_MAX_CACHE_SIZE); [|lia].
  destruct (size2block_spec size) as (_ & Hci & _); [lia|]. destruct l as [|i l]; [done|].
  destruct (Hl i) as [Hd Hsub]; [left|]. pose proof (sord_small _ Hci). right. exists i. split.
  - etrans; [|exact Hd]. apply pow2_divide; lia.
  - intros x Hx. apply Hsub. rewrite elem_block in Hx |- *.
    pose proof (Z.pow_le_mono_r 2 (sord (class_of size)) 4 ltac:(lia) ltac:(lia)). lia.
Qed.

(** ** Growing heaps *)

(** [h'] is [h] after some allocations: nothing live was moved or written. *)
Record later (h h' : heap) (L L' : gmap Z Z) : Prop := {
  la_done : hdone h h';
  la_sub : L ⊆ L';
  la_mem : unchanged L (h_mem h) (h_mem h');
  la_static : statics h h'
}.

Lemma later_refl h L : later h h L L.
Proof. by split. Qed.

Lemma static_done h h' x : hdone h h' -> static h' x <-> static h x.
Proof. intros Hd. unfold static. by rewrite (hd_off _ _ Hd), (hd_count _ _ Hd). Qed.

Lemma later_trans h1 h2 h3 L1 L2 L3 : later h1 h2 L1 L2 -> later h2 h3 L2 L3 -> later h1 h3 L1 L3.
Proof.
  intros [Hd Hs Hm Hst] [Hd' Hs' Hm' Hst']. split; [by etrans|by etrans|..].
  - intros b k x Hb Hx. rewrite (Hm' b k x) by (try done; by eapply lookup_weaken). by eapply Hm.
  - intros x Hx. rewrite Hst' by (by rewrite static_done). by apply Hst.
Qed.

(** The second half only fills the block the first one took. *)
Lemma later_mid h1 h2 h3 L L' : later h1 h2 L L' -> later h2 h3 L L' -> later h1 h3 L L'.
Proof.
  intros [Hd Hs Hm Hst] [Hd' _ Hm' Hst']. split; [by etrans|done|..].
  - intros b k x Hb Hx. rewrite (Hm' b k x) by done. by eapply Hm.
  - intros x Hx. rewrite Hst' by (by rewrite static_done). by apply Hst.
Qed.

(** Memory a caller may pass: in the kernel's image, or in live blocks. *)
Definition readable (h : heap) (L : gmap Z Z) (q n : Z) : Prop :=
  forall x, q <= x < q + n -> static h x \/ exists b k, L !! b = Some k /\ b <= x < b + k.

Lemma readable_later h h' L L' q n : later h h' L L' -> readable h L q n -> readable h' L' q n.
Proof.
  intros [Hd Hs _ _] Hr x Hx. destruct (Hr x Hx) as [?|(b & k & Hb & ?)]; [left; by rewrite static_done|right].
  exists b, k. split; [by eapply lookup_weaken|done].
Qed.

Lemma readable_done h h' L q n : hdone h h' -> readable h L q n -> readable h' L q n.
Proof. intros Hd Hr x Hx. destruct (Hr x Hx) as [?|?]; [left; by rewrite static_done|by right]. Qed.

Lemma readable_live h L q n k : L !! q = Some k -> n <= k -> readable h L q n.
Proof. intros Hq Hn x Hx. right. exists q, k. split; [done|lia]. Qed.

Lemma later_rd h h' L L' q n x : later h h' L L' -> readable h L q n -> q <= x < q + n -> rd (h_mem h') x = rd (h_mem h) x.
Proof.
  intros [_ _ Hm Hst] Hr Hx. destruct (Hr x Hx) as [?|(b & k & Hb & ?)]; [by apply Hst|by eapply Hm].
Qed.

Section Frame.
Context {PA : PageAllocator}.

(** An object of at most two pages, from a heap with frames to spare. *)
Lemma kmalloc_object_spec h F own L n size :
  heap_abs h F own L -> 0 < size <= KMALLOC_MAX_CACHE_SIZE -> spare F (S n) ->
  returns (kmalloc size h) (fun '(ret, h') => exists F' own',
    heap_abs h' F' own' (<[ret := capacity size]> L) /\ L !! ret = None /\ hdone h h' /\
    unchanged L (h_mem h) (h_mem h') /\ statics h h' /\ spare F' n).
Proof.
  intros Ha Hs Hsp. pose proof (spare_serves F own n size Hsp Hs) as Hsv. pose proof (ha_ok _ _ _ _ Ha) as Hok.
  assert (size < 2 ^ 64) as Hlt by (unfold KMALLOC_MAX_CACHE_SIZE, PAGE_SIZE in Hs; lia).
  destruct (returns_inv _ _ (kmalloc_spec h F own L size Ha ltac:(lia) Hsv)) as ([ret h'] & Heq & F' & own' & Ha' & Hn & Hd & Hu & _).
  rewrite Heq. unfold serves in Hsv. destruct (Z.leb_spec size KMALLOC_MAX_CACHE_SIZE); [|lia].
  destruct (size2block_spec size) as (_ & Hci & _); [lia|].
  rewrite kmalloc_small in Heq; [|lia|apply (hr_init _ _ _ _ (ho_rep _ _ _ Hok))].
  pose proof (cache_alloc_spec h F own _ Hok Hci Hsv) as Hc. rewrite Heq in Hc. destruct Hc as (F2 & own2 & Hok2 & Hd2 & Ht).
  destruct (abs_taken h F own L h' F2 own2 (class_of size) ret) as [[Ha2 _] _]; try done; [apply Hd2|].
  pose proof (sord_small _ Hci) as Hk. apply returns_ret. exists F2, own2.
  assert (capacity size = osz (class_of size)) as Hcap. { unfold capacity. destruct (Z.leb_spec size KMALLOC_MAX_CACHE_SIZE); [done|lia]. }
  rewrite Hcap. split_and!; try done; destruct Ht as [s fl Hos Hm|s fl Hos Hsub Hfl Hm].
  - intros x _. by rewrite Hm.
  - intros x Hx. apply Hm. destruct (pa_count _ _ (hr_pa _ _ _ _ (ho_rep _ _ _ Hok))) as (_ & _ & HF).
    pose proof (pow2_pos (sord (class_of size)) ltac:(lia)).
    set (k := sord (class_of size)) in *. assert (s ∈ block s k) as H1 by (apply elem_block; lia).
    assert (s + 2 ^ k - 1 ∈ block s k) as H2 by (apply elem_block; lia).
    pose proof (HF _ (Hsub _ H1)). pose proof (HF _ (Hsub _ H2)).
    unfold outside, static, PAGE_SIZE in *. lia.
  - by apply spare_less.
  - apply spare_take; [done| |done]. destruct (hr_blocks _ _ _ _ (ho_rep _ _ _ Hok2) s _ (lookup_insert_eq _ _ _)) as [[_ _ _ Hal] _].
    exact Hal.
Qed.

(** The client fills the block it got. *)
Lemma object_write h F own L ret cap m :
  heap_abs h F own (<[ret := cap]> L) -> L !! ret = None ->
  (forall x, ~ (ret <= x < ret + cap) -> rd m x = rd (h_mem h) x) ->
  heap_abs (set_mem m h) F own (<[ret := cap]> L) /\ unchanged L (h_mem h) m.
Proof.
  intros Ha Hn Hm. split; [by eapply client_write; [|apply lookup_insert_eq|]|].
  intros b k x Hb Hx. apply Hm. assert (b <> ret) by congruence.
  destruct (abs_apart h F own _ ret cap b k Ha); [apply lookup_insert_eq|by rewrite lookup_insert_ne|done|lia..].
Qed.

(** The same, for clients that keep track of [later] only. *)
Lemma kmalloc_later h F own L n size :
  heap_abs h F own L -> 0 < size <= KMALLOC_MAX_CACHE_SIZE -> spare F (S n) ->
  returns (kmalloc size h) (fun '(ret, h') => exists F' own' L', L' = <[ret := capacity size]> L /\
    heap_abs h' F' own' L' /\ L !! ret = None /\ size <= capacity size /\ later h h' L L' /\ spare F' n).
Proof.
  intros Ha Hs Hsp. eapply returns_mono; [by eapply kmalloc_object_spec|].
  intros [ret h'] (F' & own' & Ha' & Hn & Hd & Hu & Hst & Hsp'). exists F', own', (<[ret := capacity size]> L).
  split_and!; try done.
  - unfold capacity. destruct (Z.leb_spec size KMALLOC_MAX_CACHE_SIZE); [|lia].
    destruct (size2block_spec size) as (_ & _ & ? & _); lia.
  - split; [done|by apply insert_subseteq|done|done].
Qed.

(** A live block lies in the frames, not in the kernel's image. *)
Lemma live_not_static h F own L b k x : heap_abs h F own L -> L !! b = Some k -> b <= x < b + k -> ~ static h x.
Proof.
  intros [[Hr _] Hl] Hb%Hl Hx. destruct (live_range _ _ _ _ _ _ Hr Hb) as (p & o & Ho & _ & Hlo & Hhi).
  destruct (hr_blocks _ _ _ _ Hr _ _ Ho) as [[_ ? ? _] _]. unfold static, PAGE_SIZE in *. nia.
Qed.

Lemma live_pos h F own L b k : heap_abs h F own L -> L !! b = Some k -> 0 < b.
Proof.
  intros [[Hr _] Hl] Hb%Hl. destruct (live_range _ _ _ _ _ _ Hr Hb) as (p & o & Ho & _ & Hlo & _).
  destruct (hr_blocks _ _ _ _ Hr _ _ Ho) as [[_ ? ? _] _]. pose proof (hr_off _ _ _ _ Hr). unfold PAGE_SIZE in *. lia.
Qed.

Lemma write_later h F own L ret cap m :
  heap_abs h F own (<[ret := cap]> L) -> L !! ret = None ->
  (forall x, ~ (ret <= x < ret + cap) -> rd m x = rd (h_mem h) x) ->
  heap_abs (set_mem m h) F own (<[ret := cap]> L) /\ later h (set_mem m h) L (<[ret := cap]> L).
Proof.
  intros Ha Hn Hm. destruct (object_write _ _ _ _ _ _ _ Ha Hn Hm) as [Ha' Hu]. split; [done|].
  split; [by split|by apply insert_subseteq|done|]. intros x Hx. apply Hm. intros Hin.
  by apply (live_not_static _ _ _ _ _ _ _ Ha (lookup_insert_eq _ _ _) Hin).
Qed.

Lemma kcalloc_later h F own L n size :
  heap_abs h F own L -> 0 < size <= KMALLOC_MAX_CACHE_SIZE -> spare F (S n) ->
  returns (kcalloc 1 size h) (fun '(a, h') => exists F' own' L', L' = <[a := capacity size]> L /\
    heap_abs h' F' own' L' /\ L !! a = None /\ size <= capacity size /\ later h h' L L' /\ spare F' n /\
    forall x, a <= x < a + size -> rd (h_mem h') x = 0).
Proof.
  intros Ha Hs Hsp. unfold kcalloc. rewrite Z.mul_1_l, u64_small by (unfold KMALLOC_MAX_CACHE_SIZE, PAGE_SIZE in Hs; lia).
  mcall (kmalloc_later _ _ _ _ n size Ha Hs Hsp). intros [a h1] (F' & own' & L' & -> & Ha' & Hn & Hc & Hla & Hsp').
  set (m := memset a 0 size (h_mem h1)). assert (forall x, rd m x = if decide (a <= x < a + size) then 0 else rd (h_mem h1) x) as Hm.
  { intros x. unfold m. rewrite memset_spec by lia. done. }
  destruct (write_later h1 F' own' L a (capacity size) m Ha' Hn) as [Ha2 Hla2]; [intros x Hx; rewrite Hm, decide_False by lia; done|].
  apply returns_ret. exists F', own', (<[a := capacity size]> L). split_and!; try done; [by eapply later_mid|].
  intros x Hx. cbn [set_mem h_mem]. by rewrite Hm, decide_True.
Qed.

(** What a caller may pass is no part of a block that was free. *)
Lemma readable_outside h F own L ret cap q n x :
  heap_abs h F own (<[ret := cap]> L) -> L !! ret = None -> readable h L q n -> q <= x < q + n -> ~ (ret <= x < ret + cap).
Proof.
  intros Ha Hn Hr Hx Hx'. destruct (Hr x Hx) as [Hst|(b & k & Hb & Hbx)].
  - by apply (live_not_static _ _ _ _ _ _ _ Ha (lookup_insert_eq _ _ _) Hx').
  - assert (b <> ret) by congruence.
    destruct (abs_apart h F own _ ret cap b k Ha); [apply lookup_insert_eq|by rewrite lookup_insert_ne|done|lia..].
Qed.

Lemma readable_apart h F own L ret cap q n a len :
  heap_abs h F own (<[ret := cap]> L) -> L !! ret = None -> readable h L q n -> ret <= a -> 0 <= len -> a + len <= ret + cap -> len <= n ->
  a + len <= q \/ q + len <= a.
Proof.
  intros Ha Hn Hr Hlo Hl Hhi Hln. destruct (decide (a + len <= q \/ q + len <= a)) as [?|Hno]; [done|]. exfalso.
  apply (readable_outside h F own L ret cap q n (Z.max a q) Ha Hn Hr); lia.
Qed.

(** Giving a block back. *)
Lemma kfree_later h F own L a k n :
  heap_abs h F own L -> L !! a = Some k -> spare F n ->
  returns (kfree a h) (fun h' => exists F' own',
    heap_abs h' F' own' (delete a L) /\ hdone h h' /\ spare F' n /\
    forall x, ~ (a <= x < a + k) -> rd (h_mem h') x = rd (h_mem h) x).
Proof.
  intros Ha HL (l & Hnd & Hlen & Hl). pose proof (ha_ok _ _ _ _ Ha) as Hok. pose proof HL as Hlive%(ha_live _ _ _ _ Ha).
  assert (forall X, spare (F ∪ X) n) as Hsp.
  { intros X. exists l. split_and!; try done. intros i Hi. destruct (Hl i Hi). split; [done|set_solver]. }
  pose proof (returns_inv _ _ (kfree_spec h F own L a k Ha HL)) as (h' & Heq & Fs & os & Hs & _). rewrite Heq. apply returns_ret.
  inversion Hlive as [s ci fl b Hos Hoa Hna Heq1 Heq2|s k' Hos Heq1 Heq2]; subst.
  - pose proof (kfree_object_spec h F own s ci fl a Hok Hos Hoa Hna) as Hr. rewrite Heq in Hr.
    destruct Hr as (F' & own' & Hok' & Hd & Hg & Hm). exists F', own'.
    split; [eapply abs_given; try done; apply Hd|]. split_and!; [done| |done].
    destruct Hg; [|apply Hsp]. exists l. by split_and!.
  - pose proof (kfree_big_spec h F own s k' Hok Hos) as Hr. rewrite Heq in Hr. destruct Hr as (Hok' & Hd & Hm).
    do 2 eexists. split_and!; [|done|apply (Hsp (block s k'))|intros; by rewrite Hm].
    eapply abs_delete; [exact Ha|exact Hok'|apply Hd|]. intros b n0.
    rewrite (live_split _ own s (OBig k') b n0 Hos). simpl. split.
    + intros Hb. split; [by right|]. intros ->.
      by eapply (holds_apart h F own _ s (OBig k') _ _ _ n0 (ho_rep _ _ _ Hok) Hos).
    + intros [[[-> _]|?] ?]; done.
Qed.

(** Clients whose blocks come and go: all but the blocks [P] are kept. *)
Record hkeep (P : Z -> Prop) (h h' : heap) (L L' : gmap Z Z) : Prop := {
  hk_done : hdone h h';
  hk_live : forall b k, L !! b = Some k -> ~ P b -> L' !! b = Some k /\ forall x, b <= x < b + k -> rd (h_mem h') x = rd (h_mem h) x;
  hk_static : statics h h'
}.

Lemma hkeep_refl P h L : hkeep P h h L L.
Proof. by split. Qed.

Lemma hkeep_later P h h' L L' : later h h' L L' -> hkeep P h h' L L'.
Proof. intros [Hd Hs Hm Hst]. split; [done| |done]. intros b k Hb _. split; [by eapply lookup_weaken|]. intros x Hx. by eapply Hm. Qed.

Lemma hkeep_trans (P Q : Z -> Prop) h1 h2 h3 L1 L2 L3 :
  hkeep P h1 h2 L1 L2 -> hkeep Q h2 h3 L2 L3 -> (forall b, is_Some (L1 !! b) -> Q b -> P b) -> hkeep P h1 h3 L1 L3.
Proof.
  intros [Hd Hl Hst] [Hd' Hl' Hst'] HQ. split; [by etrans| |].
  - intros b k Hb Hp. destruct (Hl b k Hb Hp) as [Hb2 Hm]. destruct (Hl' b k Hb2) as [Hb3 Hm']; [intros Hq; apply Hp; eauto|].
    split; [done|]. intros x Hx. by rewrite Hm', Hm.
  - intros x Hx. rewrite Hst' by (by rewrite static_done). by apply Hst.
Qed.

(** Writing a block, giving one back. *)
Lemma hkeep_write (P : Z -> Prop) h F own L a k m :
  heap_abs h F own L -> L !! a = Some k -> P a -> (forall x, ~ (a <= x < a + k) -> rd m x = rd (h_mem h) x) ->
  heap_abs (set_mem m h) F own L /\ hkeep P h (set_mem m h) L L.
Proof.
  intros Ha HL Hp Hm. split; [by eapply client_write|]. split; [by split| |].
  - intros b k' Hb Hnp. split; [done|]. intros x Hx. apply Hm. assert (a <> b) by congruence.
    destruct (abs_apart h F own L a k b k' Ha HL Hb); [done|lia..].
  - intros x Hx. apply Hm. intros Hin. by apply (live_not_static _ _ _ _ _ _ _ Ha HL Hin).
Qed.

Lemma hkeep_free (P : Z -> Prop) h h' F own L a k :
  heap_abs h F own L -> L !! a = Some k -> P a -> hdone h h' -> (forall x, ~ (a <= x < a + k) -> rd (h_mem h') x = rd (h_mem h) x) ->
  hkeep P h h' L (delete a L).
Proof.
  intros Ha HL Hp Hd Hm. split; [done| |].
  - intros b k' Hb Hnp. assert (a <> b) by congruence. rewrite lookup_delete_ne by done. split; [done|]. intros x Hx. apply Hm.
    destruct (abs_apart h F own L a k b k' Ha HL Hb); [done|lia..].
  - intros x Hx. apply Hm. intros Hin. by apply (live_not_static _ _ _ _ _ _ _ Ha HL Hin).
Qed.

End Frame.
End HeapFrame.
