(* ===== verification/HeapTheorems.v ===== *)
(** * Theorems about the kernel heap

    What [kmalloc], [kfree], [krealloc], [kcalloc] and [slab_init]
    (kernel/src/mm/slab.c) promise to the rest of the kernel, for one call and
    for every sequence of calls and stores of disciplined clients. *)

From stdpp Require Import gmap sets.
From S2P Require Import Prelude Macros Locking Dll Mem FrameHdr EarlyMem Blocks FrameAlloc BuddyRep BuddyProof BuddyInit BuddyTheorems PageIface Slab SlabRep SlabOps SlabProof HeapSpec.

Module HeapTheorems.
Import Macros Locking Mem FrameHdr Blocks FrameAlloc BuddyRep BuddyProof PageIface Slab SlabRep SlabOps SlabProof HeapSpec.

Section Theorems.
Context {PA : PageAllocator}.

(** ** Start *)

(** The frame allocator is ready, no page of it has flags, and the higher half
    leaves room for all of physical memory. *)
Record startable (st : mm) (F : gset Z) (off : Z) : Prop := {
  sa_pa : pa_ok st F;
  sa_zero : forall p, p ∈ F -> exists pg, mm_pages st !! p = Some pg /\ p_flags pg = 0;
  sa_off : 0 < off /\ off + mm_pages_count st * PAGE_SIZE < 2 ^ 64
}.

(** What [slab_init] makes of the ten caches. *)
Lemma slab_init_caches st m off : exists cs,
  slab_init (bss_heap st m off) = Ret (mk_heap st m cs 1 off) /\
  forall ci, cache_ix ci -> exists c, cs !! ci = Some c /\ cache_static ci c /\ unlocked (sc_lock c) /\
    forall l, head_get l c = NULL /\ count_get l c = 0.
Proof.
  eexists. split; [vm_compute; reflexivity|]. intros ci Hci.
  each_cache Hci; (eexists; split; [vm_compute; reflexivity|]);
    (split; [by split|]); (split; [done|]); by intros [].
Qed.

Lemma slab_init_spec st F m off :
  startable st F off ->
  returns (slab_init (bss_heap st m off)) (fun h => heap_abs h F ∅ ∅ /\ h_mm h = st /\ h_mem h = m /\ h_offset h = off).
Proof.
  intros [Hpa Hz Hoff]. destruct (slab_init_caches st m off) as (cs & -> & Hcs). simpl.
  split; [|done]. split; [split|].
  - split; simpl; try done.
    intros ci Hci. destruct (Hcs ci Hci) as (c & Hc & Hst & _ & Hl). exists c. split; [done|]. split; [done|].
    intros l. destruct (Hl l) as [-> ->]. exists []. split; [|split; [|done]].
    + split; [done|constructor].
    + intros s. unfold loc_of. rewrite omap_empty, lookup_empty, elem_of_nil. done.
  - intros ci Hci. destruct (Hcs ci Hci) as (c & Hc & _ & Hu & _). exists (sc_lock c). unfold locks. simpl. by rewrite Hc.
  - intros a n. rewrite lookup_empty. split; [done|]. intros (s & o & Hs & _)%live_holds. by rewrite lookup_empty in Hs.
Qed.

Lemma serves_capacity F own size :
  0 < size < 2 ^ 64 -> serves F own size -> size <= KMALLOC_MAX_CACHE_SIZE \/ (PAGE_SIZE | size) -> size <= capacity size.
Proof.
  intros Hs Hsv Hfit. unfold serves in Hsv. destruct (Z.leb_spec size KMALLOC_MAX_CACHE_SIZE) as [Hle|Hgt].
  - unfold capacity. destruct (Z.leb_spec size KMALLOC_MAX_CACHE_SIZE); [|lia].
    destruct (size2block_spec size) as (_ & _ & ? & _); lia.
  - apply capacity_enough; [done|done|apply Hsv].
Qed.

(** ** One call *)

(** C9: [kmalloc] under memory: it returns a block of the capacity its size
    class or page order gives, aligned to that capacity within the higher
    half, apart from every live block; the bytes of all live blocks and the
    interrupt flag are as before, and small or page-multiple requests fit. *)
Theorem kmalloc_correct h F own L size :
  heap_abs h F own L -> 0 < size < 2 ^ 64 -> serves F own size ->
  returns (kmalloc size h) (fun '(ret, h') => exists F' own',
    heap_abs h' F' own' (<[ret := capacity size]> L) /\
    (forall b k, L !! b = Some k -> disjoint ret (capacity size) b k) /\
    unchanged L (h_mem h) (h_mem h') /\ hdone h h' /\
    h_offset h <= ret /\ (capacity size | ret - h_offset h) /\
    (size <= KMALLOC_MAX_CACHE_SIZE \/ (PAGE_SIZE | size) -> size <= capacity size)).
Proof.
  intros Ha Hsize Hs. eapply returns_mono; [exact (kmalloc_spec h F own L size Ha Hsize Hs)|].
  intros [ret h'] (F' & own' & Ha' & Hn & Hd & Hm & _). exists F', own'. split; [done|].
  assert (live (h_offset h) own' ret (capacity size)) as Hlive.
  { rewrite <- (hd_off _ _ Hd). apply (ha_live _ _ _ _ Ha'). apply lookup_insert_eq. }
  pose proof (ho_rep _ _ _ (ha_ok _ _ _ _ Ha')) as Hr'. rewrite <- (hd_off _ _ Hd) in *.
  split; [|split; [done|split; [done|split; [|split]]]].
  - intros b k Hb. assert (b <> ret) by congruence.
    eapply (abs_apart h' F' own'); [done|apply lookup_insert_eq|by rewrite lookup_insert_ne|done].
  - destruct (live_range _ _ _ _ _ _ Hr' Hlive) as (s & o & Hs' & _ & Hlo & _).
    destruct (hr_blocks _ _ _ _ Hr' _ _ Hs') as [[_ ? _ _] _]. unfold PAGE_SIZE in *. lia.
  - by eapply live_aligned.
  - by eapply serves_capacity.
Qed.

(** C10: [kfree] of a live block returns; the block is gone, the bytes of all
    others are as before, and so is the interrupt flag. *)
Theorem kfree_correct h F own L a n :
  heap_abs h F own L -> L !! a = Some n ->
  returns (kfree a h) (fun h' => exists F' own',
    heap_abs h' F' own' (delete a L) /\ unchanged (delete a L) (h_mem h) (h_mem h') /\ hdone h h').
Proof.
  intros Ha HL. eapply returns_mono; [exact (kfree_spec h F own L a n Ha HL)|].
  intros h' (F' & own' & Ha' & Hd & Hm). by exists F', own'.
Qed.

(** [slab_init] on the zeroed caches makes an empty heap over the free
    frames of the frame allocator, ready for requests. *)
Theorem slab_init_correct st F m off :
  startable st F off ->
  returns (slab_init (bss_heap st m off)) (fun h =>
    heap_abs h F ∅ ∅ /\ h_mm h = st /\ h_mem h = m /\
    forall size, 0 < size <= KMALLOC_MAX_CACHE_SIZE -> can_serve F (sord (class_of size)) -> serves F ∅ size).
Proof.
  intros Hs. eapply returns_mono; [exact (slab_init_spec st F m off Hs)|]. intros h (? & ? & ? & _).
  split_and!; try done. intros size Hsz Hc. unfold serves. destruct (Z.leb_spec size KMALLOC_MAX_CACHE_SIZE); [|lia].
  by right.
Qed.

(** without memory for a request [kmalloc] neither returns null nor
    panics: it writes through the null page pointer of the frame allocator. *)
Theorem kmalloc_exhausted_faults h F own L size :
  heap_abs h F own L -> 0 < size < 2 ^ 64 -> ~ serves F own size -> exists msg, kmalloc size h = Fault msg.
Proof. intros Ha. apply kmalloc_none. apply (ha_ok _ _ _ _ Ha). Qed.

(** ** Any sequence of calls *)

(** What clients do from the heap [h0] on: they allocate (up to the largest
    cache size, or whole pages), free what they hold, and store into the bytes
    they asked for.  [R] maps the addresses they hold to the sizes requested. *)
Inductive reach (h0 : heap) : heap -> gmap Z Z -> Prop :=
  | reach_start : reach h0 h0 ∅
  | reach_malloc h R size ret h' :
      reach h0 h R -> 0 < size < 2 ^ 64 -> size <= KMALLOC_MAX_CACHE_SIZE \/ (PAGE_SIZE | size) ->
      kmalloc size h = Ret (ret, h') -> reach h0 h' (<[ret := size]> R)
  | reach_free h R a h' :
      reach h0 h R -> is_Some (R !! a) -> kfree a h = Ret h' -> reach h0 h' (delete a R)
  | reach_store h R a r x v :
      reach h0 h R -> R !! a = Some r -> a <= x < a + r -> reach h0 (set_mem (wr (h_mem h) x v) h) R.

(** The requested sizes fit in the live blocks. *)
Definition within (R L : gmap Z Z) : Prop := map_relation (fun _ r n => 0 < r <= n) (fun _ _ => False) (fun _ _ => False) R L.

Lemma within_lookup R L a r : within R L -> R !! a = Some r -> exists n, L !! a = Some n /\ 0 < r <= n.
Proof. intros Hw Ha. specialize (Hw a). rewrite Ha in Hw. destruct (L !! a) as [n|]; [by exists n|done]. Qed.

Lemma within_insert R L a r n : within R L -> 0 < r <= n -> within (<[a := r]> R) (<[a := n]> L).
Proof.
  intros Hw Hr b. destruct (decide (b = a)) as [->|]; [by rewrite !lookup_insert_eq|].
  rewrite !lookup_insert_ne by done. apply Hw.
Qed.

Lemma within_delete R L a : within R L -> within (delete a R) (delete a L).
Proof.
  intros Hw b. destruct (decide (b = a)) as [->|]; [by rewrite !lookup_delete_eq|].
  rewrite !lookup_delete_ne by done. apply Hw.
Qed.

Lemma within_unchanged R L m m' : within R L -> unchanged L m m' -> unchanged R m m'.
Proof. intros Hw Hu b r x Hb Hx. destruct (within_lookup _ _ _ _ Hw Hb) as (n & Hn & ?). apply (Hu b n); [done|lia]. Qed.

Lemma reach_inv h0 h R F0 :
  heap_abs h0 F0 ∅ ∅ -> reach h0 h R -> exists F own L, heap_abs h F own L /\ within R L /\ hdone h0 h.
Proof.
  intros H0. induction 1 as [|h R size ret h' _ (F & own & L & Ha & Hw & Hd) Hs Hfit Hret
                            |h R a h' _ (F & own & L & Ha & Hw & Hd) [r Hr] Hret
                            |h R a r x v _ (F & own & L & Ha & Hw & Hd) Hr Hx].
  - exists F0, ∅, ∅. split; [done|]. split; [|done]. intros a. by rewrite !lookup_empty.
  - destruct (serves_dec F own size Hs) as [Hsv|Hno].
    + pose proof (kmalloc_spec h F own L size Ha Hs Hsv) as Hk. rewrite Hret in Hk.
      destruct Hk as (F' & own' & Ha' & _ & Hd' & _). exists F', own', (<[ret := capacity size]> L).
      split; [done|]. split; [|by etrans]. apply within_insert; [done|]. split; [lia|by eapply serves_capacity].
    + destruct (kmalloc_none h F own size (ha_ok _ _ _ _ Ha) Hs Hno) as (msg & Hf). congruence.
  - destruct (within_lookup _ _ _ _ Hw Hr) as (n & Hn & _).
    pose proof (kfree_spec h F own L a n Ha Hn) as Hk. rewrite Hret in Hk.
    destruct Hk as (F' & own' & Ha' & Hd' & _). exists F', own', (delete a L).
    split; [done|]. split; [by apply within_delete|by etrans].
  - destruct (within_lookup _ _ _ _ Hw Hr) as (n & Hn & Hrn). exists F, own, L.
    split; [|split; [done|by etrans; [|split]]]. eapply client_write; [done|done|].
    intros y Hy. unfold rd, wr. rewrite lookup_insert_ne; [done|lia].
Qed.

(** C8: whatever disciplined clients do after [slab_init], the heap is in
    order for some free frames [F'] and owned blocks [own]: the ranges the
    clients hold never overlap; freeing any of them returns and leaves every
    byte of the others alone; an allocation returns a range apart from all
    others with their bytes unchanged if there is a free object of its size
    class or an aligned run of frames for it, faults if there is neither, and
    never panics; interrupts are on or off as at the start. *)
Theorem heap_clients_safe st F m off h0 h R :
  startable st F off -> slab_init (bss_heap st m off) = Ret h0 -> reach h0 h R -> exists F' own L,
  heap_abs h F' own L /\ within R L /\
  (forall a r b t, R !! a = Some r -> R !! b = Some t -> a <> b -> disjoint a r b t) /\
  (forall a, is_Some (R !! a) -> returns (kfree a h) (fun h' => unchanged (delete a R) (h_mem h) (h_mem h'))) /\
  (forall size, 0 < size < 2 ^ 64 -> size <= KMALLOC_MAX_CACHE_SIZE \/ (PAGE_SIZE | size) ->
     (serves F' own size /\ exists ret h', kmalloc size h = Ret (ret, h') /\ unchanged R (h_mem h) (h_mem h') /\
        forall b t, R !! b = Some t -> disjoint ret size b t) \/
     (~ serves F' own size /\ exists msg, kmalloc size h = Fault msg)) /\
  mm_IF (h_mm h) = mm_IF st.
Proof.
  intros Hst Hinit Hreach. pose proof (slab_init_spec st F m off Hst) as Hi. rewrite Hinit in Hi. destruct Hi as (H0 & Hmm & _).
  destruct (reach_inv h0 h R F H0 Hreach) as (F' & own & L & Ha & Hw & Hd).
  exists F', own, L. split; [done|]. split; [done|]. split; [|split; [|split]].
  - intros a r b t Hr Ht Hne. destruct (within_lookup _ _ _ _ Hw Hr) as (n & Hn & ?).
    destruct (within_lookup _ _ _ _ Hw Ht) as (k & Hk & ?).
    destruct (abs_apart _ _ _ _ _ _ _ _ Ha Hn Hk Hne); unfold disjoint; lia.
  - intros a [r Hr]. destruct (within_lookup _ _ _ _ Hw Hr) as (n & Hn & ?).
    eapply returns_mono; [exact (kfree_spec h F' own L a n Ha Hn)|]. intros h' (_ & _ & _ & _ & Hu).
    eapply within_unchanged; [by apply within_delete|done].
  - intros size Hs Hfit. destruct (serves_dec F' own size Hs) as [Hsv|Hno];
      [left; split; [done|]|right; split; [done|]; by apply (kmalloc_none h F' own size (ha_ok _ _ _ _ Ha))].
    destruct (returns_inv _ _ (kmalloc_spec h F' own L size Ha Hs Hsv)) as ([ret h'] & -> & F2 & own2 & Ha2 & Hn & _ & Hu & _).
    exists ret, h'. split; [done|]. split; [by eapply within_unchanged|]. intros b t Hb.
    destruct (within_lookup _ _ _ _ Hw Hb) as (k & Hk & ?). assert (b <> ret) by congruence.
    pose proof (serves_capacity F' own size Hs Hsv Hfit).
    destruct (abs_apart h' F2 own2 (<[ret := capacity size]> L) ret (capacity size) b k Ha2);
      [apply lookup_insert_eq|by rewrite lookup_insert_ne|done|unfold disjoint; lia..].
  - rewrite (hd_IF _ _ Hd), Hmm. done.
Qed.

(** ** The derived operations *)

(** [kcalloc] for a product that does not wrap returns a fresh zeroed
    block and leaves the bytes of all live blocks alone. *)
Theorem kcalloc_zeroed h F own L entries size :
  heap_abs h F own L -> 0 < entries * size < 2 ^ 64 -> serves F own (entries * size) ->
  entries * size <= KMALLOC_MAX_CACHE_SIZE \/ (PAGE_SIZE | entries * size) ->
  returns (kcalloc entries size h) (fun '(ret, h') => exists F' own',
    heap_abs h' F' own' (<[ret := capacity (entries * size)]> L) /\ L !! ret = None /\
    (forall x, ret <= x < ret + entries * size -> rd (h_mem h') x = 0) /\
    unchanged L (h_mem h) (h_mem h')).
Proof.
  intros Ha Hs Hsv Hfit. pose proof (serves_capacity F own _ Hs Hsv Hfit) as Hcap.
  unfold kcalloc. rewrite u64_small by lia.
  mcall (kmalloc_spec h F own L _ Ha Hs Hsv). intros [ret h1] (F1 & own1 & Ha1 & Hn & _ & Hu & _). simpl.
  exists F1, own1. split; [|split; [done|split]].
  - eapply client_write; [exact Ha1|apply lookup_insert_eq|]. intros x Hx. rewrite memset_spec by lia.
    by rewrite decide_False by lia.
  - intros x Hx. rewrite memset_spec by lia. by rewrite decide_True by lia.
  - intros b k x Hb Hx. assert (b <> ret) by congruence. rewrite memset_spec by lia.
    rewrite decide_False; [by eapply Hu|].
    destruct (abs_apart h1 F1 own1 _ ret (capacity (entries * size)) b k Ha1);
      [apply lookup_insert_eq|by rewrite lookup_insert_ne|done|lia..].
Qed.

(** C11: [krealloc] of a heap object: the block it returns starts with the
    bytes of the old one, as far as both sizes reach; the old one is free, all
    other live blocks have the bytes they had. *)
Theorem krealloc_object_correct h F own L s ci fl a size :
  heap_abs h F own L -> own !! s = Some (OSlab ci fl) -> is_obj (h_offset h) s ci a -> a ∉ fl ->
  0 < size < 2 ^ 64 -> serves F own size -> size <= KMALLOC_MAX_CACHE_SIZE \/ (PAGE_SIZE | size) ->
  (forall x, a <= x < a + osz ci -> 0 <= rd (h_mem h) x < 2 ^ 8) ->
  returns (krealloc a size h) (fun '(ret, h') => exists F' own',
    heap_abs h' F' own' (delete a (<[ret := capacity size]> L)) /\ ret <> a /\
    (forall i, 0 <= i < Z.min (osz ci) size -> rd (h_mem h') (ret + i) = rd (h_mem h) (a + i)) /\
    unchanged (delete a L) (h_mem h) (h_mem h')).
Proof.
  intros Ha Hs Hoa Hna Hsz Hsv Hfit Hby. pose proof (serves_capacity F own _ Hsz Hsv Hfit) as Hcap.
  assert (L !! a = Some (osz ci)) as HL by (apply (ha_live _ _ _ _ Ha); by eapply live_obj).
  destruct (obj_bounds h F own _ s ci fl a (ho_rep _ _ _ (ha_ok _ _ _ _ Ha)) Hs Hoa) as [Ha0 _].
  unfold krealloc. mcall (kmalloc_spec h F own L size Ha Hsz Hsv). intros [ret h1] (F1 & own1 & Ha1 & Hn & Hd & Hu & Hst).
  cbv beta iota. destruct (Z.eqb_spec a 0); [lia|]. destruct (Hst s ci fl Hs) as (fl1 & Hs1).
  pose proof (ho_rep _ _ _ (ha_ok _ _ _ _ Ha1)) as Hr1. assert (a <> ret) as Hne by congruence.
  assert (<[ret := capacity size]> L !! a = Some (osz ci)) as HL1 by (by rewrite lookup_insert_ne).
  rewrite <- (hd_off _ _ Hd) in Hoa.
  destruct (hr_own _ _ _ _ Hr1 _ _ Hs1) as (Hci & (pg & Hpg & Hhd) & _). destruct (cache_facts ci Hci) as (_ & Ho & _ & _).
  destruct (obj_phys _ _ _ _ _ _ _ _ Hr1 Hs1 Hoa) as (p & pg' & Hp & _ & Hpg' & Hnb).
  cbv zeta. rewrite Hp. mpure (pg_get_some _ _ _ Hpg'). rewrite Hnb. mstep.
  rewrite (find_slab_spec _ _ _ _ _ _ _ _ Hr1 Hs1 Hoa). cbn [mbind outcome_bind].
  rewrite (pg_get_some _ _ _ Hpg). cbn [mbind outcome_bind]. rewrite (sh_cache _ _ _ Hhd).
  destruct (cache_get_ok _ _ _ _ ci Hr1 Hci) as (c & _ & -> & Hok). cbn [mbind outcome_bind returns].
  rewrite (cst_size _ _ (co_static _ _ _ _ Hok)), MIN_min. set (k := Z.min (osz ci) size).
  assert (disjoint ret (capacity size) a (osz ci)) as Hap by (eapply abs_apart; [exact Ha1|apply lookup_insert_eq|done|done]).
  unfold disjoint in Hap.
  assert (forall x, rd (memcpy ret a k (h_mem h1)) x =
    if decide (ret <= x < ret + k) then u8 (rd (h_mem h1) (a + (x - ret))) else rd (h_mem h1) x) as Hcp
    by (intros x; apply memcpy_apart; lia).
  set (h2 := set_mem _ h1). assert (heap_abs h2 F1 own1 (<[ret := capacity size]> L)) as Ha2.
  { eapply client_write; [exact Ha1|apply lookup_insert_eq|]. intros x Hx. rewrite Hcp. by rewrite decide_False by lia. }
  mcall (kfree_spec h2 F1 own1 _ a (osz ci) Ha2 HL1). intros h3 (F3 & own3 & Ha3 & _ & Hu3). simpl.
  exists F3, own3. split; [done|]. split; [done|]. split.
  - intros i Hi. rewrite (Hu3 ret (capacity size)); [|by rewrite lookup_delete_ne, lookup_insert_eq|lia].
    simpl. rewrite Hcp, decide_True by lia. replace (ret + i - ret) with i by lia.
    rewrite (Hu a (osz ci)) by (done || lia). apply u8_small, Hby. lia.
  - intros b m x [Hba Hb]%lookup_delete_Some Hx. assert (b <> ret) by congruence.
    rewrite (Hu3 b m); [|by rewrite lookup_delete_ne, lookup_insert_ne|done]. simpl. rewrite Hcp, decide_False.
    + by apply (Hu b m).
    + destruct (abs_apart h1 F1 own1 _ ret (capacity size) b m Ha1);
        [apply lookup_insert_eq|by rewrite lookup_insert_ne|done|lia..].
Qed.

End Theorems.

(** ** A machine with 252 free frames

    The frame allocator of [BuddyTheorems.Sample], with the higher half where
    the boot protocol puts it. *)
Module Sample.
Import BuddyTheorems.BuddyTheorems.Sample.

Definition hhdm_offset : Z := 0xffff800000000000.
Definition heap0 : heap :=
  match slab_init (bss_heap st0 ∅ hhdm_offset) with Ret h => h | _ => bss_heap st0 ∅ hhdm_offset end.

Lemma st0_flags : map_Forall (fun _ pg => p_flags pg = 0) (mm_pages st0).
Proof. refine (bool_decide_unpack _ _). vm_compute. exact I. Qed.

Lemma st0_startable : exists F, startable st0 F hhdm_offset /\ forall x, x ∈ F <-> 5 <= x < 257.
Proof.
  destruct st0_ready as (B & Hinv & Hco & Hn & HF). exists (freepages B). split; [|exact HF]. split.
  - exists B. split; [exact Hinv|]. split; [exact Hco|reflexivity].
  - intros p Hp. assert (is_Some (mm_pages st0 !! p)) as [pg Hpg].
    { destruct Hinv as [_ [[_ Hd _ _] _ _]]. apply Hd. rewrite Hn. apply HF in Hp. lia. }
    exists pg. split; [exact Hpg|]. exact (st0_flags p pg Hpg).
  - rewrite Hn. unfold hhdm_offset, PAGE_SIZE. lia.
Qed.

Lemma heap0_init : slab_init (bss_heap st0 ∅ hhdm_offset) = Ret heap0.
Proof.
  unfold heap0. destruct (slab_init_caches st0 ∅ hhdm_offset) as (cs & -> & _). reflexivity.
Qed.

Lemma heap0_abs : exists F, heap_abs heap0 F ∅ ∅ /\ forall x, x ∈ F <-> 5 <= x < 257.
Proof.
  destruct st0_startable as (F & Hst & HF). exists F. split; [|exact HF].
  pose proof (slab_init_spec st0 F ∅ hhdm_offset Hst) as Hi. rewrite heap0_init in Hi. apply Hi.
Qed.

Lemma heap0_serves F size :
  (forall x, x ∈ F <-> 5 <= x < 257) -> 0 < size <= 1024 -> serves F ∅ size.
Proof.
  intros HF Hs. unfold serves. destruct (Z.leb_spec size KMALLOC_MAX_CACHE_SIZE) as [_|Hgt];
    [|unfold KMALLOC_MAX_CACHE_SIZE, PAGE_SIZE in Hgt; lia].
  right. exists 32. split.
  - exists (32 / 2 ^ sord (class_of size)). destruct (size2block_spec size) as (_ & Hci & _);
      [unfold KMALLOC_MAX_CACHE_SIZE, PAGE_SIZE; lia|]. clear -Hci. revert Hci. generalize (class_of size). intros ci Hci.
    each_cache Hci; reflexivity.
  - intros x Hx%elem_block. apply HF. destruct (size2block_spec size) as (_ & Hci & _);
      [unfold KMALLOC_MAX_CACHE_SIZE, PAGE_SIZE; lia|]. clear -Hci Hx. revert Hci Hx. generalize (class_of size).
    intros ci Hci Hx. assert (2 ^ sord ci <= 16) by (clear Hx; each_cache Hci; vm_compute; discriminate). lia.
Qed.

(** Theorem by theorem, at this machine. *)

Lemma slab_init_correct_witness : exists F, startable st0 F hhdm_offset /\
  returns (slab_init (bss_heap st0 ∅ hhdm_offset)) (fun h =>
    heap_abs h F ∅ ∅ /\ h_mm h = st0 /\ h_mem h = ∅ /\
    forall size, 0 < size <= KMALLOC_MAX_CACHE_SIZE -> can_serve F (sord (class_of size)) -> serves F ∅ size).
Proof.
  destruct st0_startable as (F & Hst & _). exists F. split; [exact Hst|].
  exact (slab_init_correct st0 F ∅ hhdm_offset Hst).
Defined.

Lemma kmalloc_correct_witness : exists F, heap_abs heap0 F ∅ ∅ /\
  returns (kmalloc 100 heap0) (fun '(ret, h') => exists F' own',
    heap_abs h' F' own' (<[ret := capacity 100]> ∅) /\
    (forall b k, (∅ : gmap Z Z) !! b = Some k -> disjoint ret (capacity 100) b k) /\
    unchanged ∅ (h_mem heap0) (h_mem h') /\ hdone heap0 h' /\
    h_offset heap0 <= ret /\ (capacity 100 | ret - h_offset heap0) /\
    (100 <= KMALLOC_MAX_CACHE_SIZE \/ (PAGE_SIZE | 100) -> 100 <= capacity 100)).
Proof.
  destruct heap0_abs as (F & Ha & HF). exists F. split; [exact Ha|].
  apply (kmalloc_correct heap0 F ∅ ∅ 100 Ha); [lia|]. apply (heap0_serves F 100 HF). lia.
Defined.

(** The heap with one object of 100 bytes. *)
Definition call1 : outcome (Z * heap) := kmalloc 100 heap0.
Definition ret1 : Z := match call1 with Ret (a, _) => a | _ => 0 end.
Definition heap1 : heap := match call1 with Ret (_, h) => h | _ => heap0 end.

Lemma heap1_eq : kmalloc 100 heap0 = Ret (ret1, heap1).
Proof.
  destruct heap0_abs as (F & Ha & HF). unfold ret1, heap1.
  assert (serves F ∅ 100) as Hsv by (apply (heap0_serves F 100 HF); lia).
  destruct (returns_inv _ _ (kmalloc_spec heap0 F ∅ ∅ 100 Ha ltac:(lia) Hsv)) as ([a h] & Heq & _).
  unfold call1. rewrite Heq. reflexivity.
Qed.

Lemma heap1_abs : exists F own, heap_abs heap1 F own (<[ret1 := 128]> ∅).
Proof.
  destruct heap0_abs as (F & Ha & HF).
  assert (serves F ∅ 100) as Hsv by (apply (heap0_serves F 100 HF); lia).
  pose proof (kmalloc_spec heap0 F ∅ ∅ 100 Ha ltac:(lia) Hsv) as Hk. rewrite heap1_eq in Hk.
  destruct Hk as (F' & own' & Ha' & _). exists F', own'. exact Ha'.
Qed.

Lemma kfree_correct_witness : exists F own, heap_abs heap1 F own (<[ret1 := 128]> ∅) /\
  returns (kfree ret1 heap1) (fun h' => exists F' own',
    heap_abs h' F' own' (delete ret1 (<[ret1 := 128]> ∅)) /\
    unchanged (delete ret1 (<[ret1 := 128]> ∅)) (h_mem heap1) (h_mem h') /\ hdone heap1 h').
Proof.
  destruct heap1_abs as (F & own & Ha). exists F, own. split; [exact Ha|].
  apply (kfree_correct heap1 F own _ ret1 128 Ha). apply lookup_insert_eq.
Defined.

Lemma kmalloc_exhausted_faults_witness : exists F, heap_abs heap0 F ∅ ∅ /\ exists msg, kmalloc (2 ^ 23) heap0 = Fault msg.
Proof.
  destruct heap0_abs as (F & Ha & HF). exists F. split; [exact Ha|].
  apply (kmalloc_exhausted_faults heap0 F ∅ ∅ (2 ^ 23) Ha); [lia|]. intros [Hk _]. vm_compute in Hk. by apply Hk.
Defined.

Lemma heap_clients_safe_witness : exists F, startable st0 F hhdm_offset /\ exists F' own L,
  heap_abs heap1 F' own L /\ within (<[ret1 := 100]> ∅) L /\
  (forall a r b t, <[ret1 := 100]> (∅ : gmap Z Z) !! a = Some r -> <[ret1 := 100]> (∅ : gmap Z Z) !! b = Some t ->
     a <> b -> disjoint a r b t) /\
  (forall a, is_Some (<[ret1 := 100]> (∅ : gmap Z Z) !! a) ->
     returns (kfree a heap1) (fun h' => unchanged (delete a (<[ret1 := 100]> ∅)) (h_mem heap1) (h_mem h'))) /\
  (forall size, 0 < size < 2 ^ 64 -> size <= KMALLOC_MAX_CACHE_SIZE \/ (PAGE_SIZE | size) ->
     (serves F' own size /\ exists ret h', kmalloc size heap1 = Ret (ret, h') /\ unchanged (<[ret1 := 100]> ∅) (h_mem heap1) (h_mem h') /\
        forall b t, <[ret1 := 100]> (∅ : gmap Z Z) !! b = Some t -> disjoint ret size b t) \/
     (~ serves F' own size /\ exists msg, kmalloc size heap1 = Fault msg)) /\
  mm_IF (h_mm heap1) = mm_IF st0.
Proof.
  destruct st0_startable as (F & Hst & _). exists F. split; [exact Hst|].
  apply (heap_clients_safe st0 F ∅ hhdm_offset heap0 heap1 _ Hst heap0_init).
  apply (reach_malloc heap0 heap0 ∅ 100 ret1 heap1); [apply reach_start|lia| |exact heap1_eq].
  left. unfold KMALLOC_MAX_CACHE_SIZE, PAGE_SIZE. lia.
Defined.

Lemma kcalloc_zeroed_witness : exists F, heap_abs heap0 F ∅ ∅ /\
  returns (kcalloc 10 10 heap0) (fun '(ret, h') => exists F' own',
    heap_abs h' F' own' (<[ret := capacity (10 * 10)]> ∅) /\ (∅ : gmap Z Z) !! ret = None /\
    (forall x, ret <= x < ret + 10 * 10 -> rd (h_mem h') x = 0) /\
    unchanged ∅ (h_mem heap0) (h_mem h')).
Proof.
  destruct heap0_abs as (F & Ha & HF). exists F. split; [exact Ha|].
  apply (kcalloc_zeroed heap0 F ∅ ∅ 10 10 Ha); [lia| |].
  - apply (heap0_serves F (10 * 10) HF). lia.
  - left. unfold KMALLOC_MAX_CACHE_SIZE, PAGE_SIZE. lia.
Defined.

(** Its slab has further free objects. *)
Lemma heap1_slab : exists F s fl, heap_abs heap1 F (<[s := OSlab 3 fl]> ∅) (<[ret1 := 128]> ∅) /\
  is_obj (h_offset heap1) s 3 ret1 /\ ret1 ∉ fl /\ fl <> [].
Proof.
  destruct heap0_abs as (F & Ha & HF). pose proof (ha_ok _ _ _ _ Ha) as Hok.
  assert (cache_ix 3) as Hci by (unfold cache_ix, KMALLOC_ALLOC_SIZES; lia).
  assert (0 < 100 <= KMALLOC_MAX_CACHE_SIZE) as H100 by (unfold KMALLOC_MAX_CACHE_SIZE, PAGE_SIZE; lia).
  pose proof (kmalloc_small heap0 100 H100 (hr_init _ _ _ _ (ho_rep _ _ _ Hok))) as Hk.
  change (class_of 100) with 3 in Hk.
  pose proof (cache_alloc_spec heap0 F ∅ 3 Hok Hci) as Hs. rewrite <- Hk, heap1_eq in Hs.
  destruct Hs as (F' & own' & Hok' & Hd & Ht).
  { pose proof (heap0_serves F 100 HF ltac:(lia)) as Hsv. exact Hsv. }
  destruct (abs_taken heap0 F ∅ ∅ heap1 F' own' 3 ret1 Ha Hok' (hd_off _ _ Hd) Hci Ht) as [[Ha' _] _].
  rewrite (hd_off _ _ Hd).
  destruct Ht as [s fl Hs _|s fl Hs _ Hfl _]; [rewrite lookup_empty in Hs; discriminate|]. exists (F ∖ block s (sord 3)), s, fl.
  destruct (all_objs_facts (h_offset heap0) s 3 Hci) as (Hnd & Hlen & Hall & _). rewrite <- Hfl in Hnd, Hlen, Hall.
  apply NoDup_cons in Hnd as [Hn _]. split; [exact Ha'|]. split; [apply Hall; left|]. split; [exact Hn|].
  intros ->. cbn [length] in Hlen. change (nobj 3) with 32 in Hlen. lia.
Qed.

Lemma heap1_bytes : map_Forall (fun _ v => 0 <= v < 2 ^ 8) (h_mem heap1).
Proof. refine (bool_decide_unpack _ _). vm_compute. exact I. Qed.

Lemma krealloc_object_correct_witness : exists F own s fl,
  heap_abs heap1 F own (<[ret1 := 128]> ∅) /\ own !! s = Some (OSlab 3 fl) /\
  returns (krealloc ret1 120 heap1) (fun '(ret, h') => exists F' own',
    heap_abs h' F' own' (delete ret1 (<[ret := capacity 120]> (<[ret1 := 128]> ∅))) /\ ret <> ret1 /\
    (forall i, 0 <= i < Z.min (osz 3) 120 -> rd (h_mem h') (ret + i) = rd (h_mem heap1) (ret1 + i)) /\
    unchanged (delete ret1 (<[ret1 := 128]> ∅)) (h_mem heap1) (h_mem h')).
Proof.
  destruct heap1_slab as (F & s & fl & Ha & Ho & Hn & Hne). exists F, (<[s := OSlab 3 fl]> ∅), s, fl.
  split; [exact Ha|]. split; [apply lookup_insert_eq|].
  apply (krealloc_object_correct heap1 F (<[s := OSlab 3 fl]> ∅) _ s 3 fl ret1 120 Ha); [apply lookup_insert_eq|exact Ho|exact Hn|lia| | |].
  - left. exists s, fl. split; [apply lookup_insert_eq|exact Hne].
  - left. unfold KMALLOC_MAX_CACHE_SIZE, PAGE_SIZE. lia.
  - intros x _. unfold rd. destruct (h_mem heap1 !! x) as [v|] eqn:Hx; [exact (heap1_bytes x v Hx)|simpl; lia].
Defined.

(** ** Two deviations *)

Definition two_large : outcome (Z * Z) :=
  '(a, h) ← kmalloc 8193 heap0; '(b, _) ← kmalloc 8193 h; Ret (a, b).

(** requests just above a power-of-two number of pages get too little:
    two successive requests of 8193 bytes return ranges that overlap. *)
Theorem kmalloc_large_overlap : returns two_large (fun '(a, b) => ~ disjoint a 8193 b 8193).
Proof. unfold disjoint. vm_compute. intros [H|H]; by apply H. Qed.

Definition grow_large : outcome (Z * Z) :=
  '(a, h) ← kmalloc 12288 heap0;
  let h := set_mem (wr (h_mem h) (a + 100) 7) h in
  '(b, h') ← krealloc a 16384 h;
  Ret (rd (h_mem h) (a + 100), rd (h_mem h') (b + 100)).

(** [krealloc] of a block from the frame allocator copies as many bytes as
    the order of the block, not its size: byte 100 of a block of three pages
    is lost when it grows to four. *)
Theorem krealloc_large_loses_data : grow_large = Ret (7, 0).
Proof. vm_compute. reflexivity. Qed.

End Sample.
End HeapTheorems.
