(* ===== verification/Mmu.v ===== *)
(** * Page tables (kernel/src/arch/x86-64/mmu.c, kernel/include/mmu.h)

    The four-level page tables of the kernel: walking them with and without
    allocating missing tables, mapping single pages of the three sizes and
    linear ranges, and building the kernel's own address space.  Tables live
    in memory at their higher-half addresses; new ones come zeroed from the
    frame allocator.  The translation caches of the processor are not part of
    the state; reloading CR3 ([tlb_flush]) is the identity on it. *)

From stdpp Require Import gmap sets.
From S2P Require Import Prelude Macros Locking Dll Mem FrameHdr EarlyMem FrameAlloc.

Module Mmu.
Import Macros Locking Mem FrameHdr EarlyMem.EarlyMem FrameAlloc.

(** ** Entry format *)

Definition PM_COMMON_PRESENT : Z := Z.shiftl 1 0.
Definition PM_COMMON_WRITE : Z := Z.shiftl 1 1.
Definition PM_COMMON_USER : Z := Z.shiftl 1 2.
Definition PM_COMMON_PWT : Z := Z.shiftl 1 3.
Definition PM_COMMON_PCD : Z := Z.shiftl 1 4.
Definition PM_COMMON_NX : Z := Z.shiftl 1 63.
Definition PDXX_COMMON_PS : Z := Z.shiftl 1 7.
Definition PDXX_COMMON_PAT : Z := Z.shiftl 1 12.
Definition PT_PAT : Z := Z.shiftl 1 7.
Definition PML_LOWER_MASK : Z := 0x000ffffffffff000.

Definition MAF_WRITE : Z := PM_COMMON_WRITE.
Definition MAF_USER : Z := PM_COMMON_USER.
Definition MAF_NX : Z := PM_COMMON_NX.

Inductive memory_cache_type :=
  | MCT_UNCACHEABLE | MCT_WRITE_COMBINING | MCT_WRITE_THROUGH | MCT_WRITE_BACK | MCT_WRITE_PROTECTED.

(** ** State *)

Record vmm := mk_vmm {
  v_mm : mm;                       (* frame allocator *)
  v_mem : mem;                     (* memory, by higher-half address *)
  v_lock : k_spinlock_t;           (* map_page_lock *)
  v_offset : Z;                    (* hhdm->offset *)
  v_kernel_pml4 : Z;               (* kernel_pmc.pml4_address *)
  v_phys_addr_width : Z;
  v_lin_addr_width : Z;
  v_lapic_address : Z;
  v_cr3 : Z
}.

Definition set_v_mm (x : mm) (st : vmm) : vmm :=
  mk_vmm x (v_mem st) (v_lock st) (v_offset st) (v_kernel_pml4 st) (v_phys_addr_width st) (v_lin_addr_width st)
    (v_lapic_address st) (v_cr3 st).
Definition set_v_mem (x : mem) (st : vmm) : vmm :=
  mk_vmm (v_mm st) x (v_lock st) (v_offset st) (v_kernel_pml4 st) (v_phys_addr_width st) (v_lin_addr_width st)
    (v_lapic_address st) (v_cr3 st).
Definition set_v_lock (IF : bool) (l : k_spinlock_t) (st : vmm) : vmm :=
  mk_vmm (set_lock IF (mm_lock (v_mm st)) (v_mm st)) (v_mem st) l (v_offset st) (v_kernel_pml4 st)
    (v_phys_addr_width st) (v_lin_addr_width st) (v_lapic_address st) (v_cr3 st).
Definition set_v_pml4 (x : Z) (st : vmm) : vmm :=
  mk_vmm (v_mm st) (v_mem st) (v_lock st) (v_offset st) x (v_phys_addr_width st) (v_lin_addr_width st)
    (v_lapic_address st) (v_cr3 st).
Definition set_v_widths (p l : Z) (st : vmm) : vmm :=
  mk_vmm (v_mm st) (v_mem st) (v_lock st) (v_offset st) (v_kernel_pml4 st) p l (v_lapic_address st) (v_cr3 st).
Definition set_v_lapic (x : Z) (st : vmm) : vmm :=
  mk_vmm (v_mm st) (v_mem st) (v_lock st) (v_offset st) (v_kernel_pml4 st) (v_phys_addr_width st)
    (v_lin_addr_width st) x (v_cr3 st).
Definition set_v_cr3 (x : Z) (st : vmm) : vmm :=
  mk_vmm (v_mm st) (v_mem st) (v_lock st) (v_offset st) (v_kernel_pml4 st) (v_phys_addr_width st)
    (v_lin_addr_width st) (v_lapic_address st) x.

Definition map_lock (st : vmm) : outcome vmm :=
  '(IF, l) ← Seq.spin_lock_global (mm_IF (v_mm st)) (v_lock st); Ret (set_v_lock IF l st).
Definition map_unlock (st : vmm) : vmm :=
  let '(IF, l) := Seq.spin_unlock_global (mm_IF (v_mm st)) (v_lock st) in set_v_lock IF l st.

Definition tlb_flush (st : vmm) : vmm := set_v_cr3 (v_cr3 st) st.

(** [pml_pointer[index]] *)
Definition pml_get (pml index : Z) (st : vmm) : Z := read64 (pml + index * 8) (v_mem st).
Definition pml_set (pml index e : Z) (st : vmm) : vmm := set_v_mem (write64 (pml + index * 8) e (v_mem st)) st.

(** ** Walking *)

(** 0 is the null pointer. *)
Definition attempt_walk_pagemap_single_lvl (pml index : Z) (st : vmm) : Z :=
  if tst (pml_get pml index st) PM_COMMON_PRESENT then
    Z.land (pml_get pml index st) PML_LOWER_MASK +! v_offset st
  else 0.

Definition force_walk_pagemap_single_lvl (pml index flags : Z) (st : vmm) : outcome (Z * vmm) :=
  if tst (pml_get pml index st) PM_COMMON_PRESENT then
    Ret (Z.land (pml_get pml index st) PML_LOWER_MASK +! v_offset st, st)
  else
    '(pg, (st', m)) ← page_calloc (fun phys len m => memset (phys +! v_offset st) 0 len m) 0 (v_mm st) (v_mem st);
    below_pml ← page2phys (mm_pages_count st') pg;
    let st := set_v_mem m (set_v_mm st' st) in
    let st := pml_set pml index (Z.lor below_pml flags) st in
    Ret (below_pml +! v_offset st, st).

Definition pml4_index (va : Z) : Z := Z.shiftr (Z.land va (Z.shiftl 0x1ff 39)) 39.
Definition pdpt_index (va : Z) : Z := Z.shiftr (Z.land va (Z.shiftl 0x1ff 30)) 30.
Definition pd_index (va : Z) : Z := Z.shiftr (Z.land va (Z.shiftl 0x1ff 21)) 21.
Definition pt_index (va : Z) : Z := Z.shiftr (Z.land va (Z.shiftl 0x1ff 12)) 12.

Definition table_flags : Z := Z.lor PM_COMMON_PRESENT PM_COMMON_WRITE.

(** ** Mapping one page *)

(** A [page_map_ctx_t] is the higher-half address of its PML4. *)
Definition mmu_map_single_page_4k (pmc va pa flags : Z) (st : vmm) : outcome vmm :=
  if tst pa 0xfff || tst va 0xfff then Panic "bad alignment (map 4kib)"
  else
    st ← map_lock st;
    '(pmlx, st) ← force_walk_pagemap_single_lvl pmc (pml4_index va) table_flags st;
    '(pmlx, st) ← force_walk_pagemap_single_lvl pmlx (pdpt_index va) table_flags st;
    '(pmlx, st) ← force_walk_pagemap_single_lvl pmlx (pd_index va) table_flags st;
    let st := pml_set pmlx (pt_index va) (Z.lor pa flags) st in
    Ret (map_unlock (tlb_flush st)).

Definition mmu_map_single_page_2m (pmc va pa flags : Z) (st : vmm) : outcome vmm :=
  if tst pa 0x1fffff || tst va 0x1fffff then Panic "bad alignment (map 2mib)"
  else
    st ← map_lock st;
    '(pmlx, st) ← force_walk_pagemap_single_lvl pmc (pml4_index va) table_flags st;
    '(pmlx, st) ← force_walk_pagemap_single_lvl pmlx (pdpt_index va) table_flags st;
    let st := pml_set pmlx (pd_index va) (Z.lor (Z.lor pa flags) PDXX_COMMON_PS) st in
    Ret (map_unlock (tlb_flush st)).

Definition mmu_map_single_page_1g (pmc va pa flags : Z) (st : vmm) : outcome vmm :=
  if tst pa 0x3fffffff || tst va 0x3fffffff then Panic "bad alignment (map 1gib)"
  else
    st ← map_lock st;
    '(pmlx, st) ← force_walk_pagemap_single_lvl pmc (pml4_index va) table_flags st;
    let st := pml_set pmlx (pdpt_index va) (Z.lor (Z.lor pa flags) PDXX_COMMON_PS) st in
    Ret (map_unlock (tlb_flush st)).

(** ** Mapping a range *)

(** [for (; lo < end; lo += step) map(lo)], at most [fuel] rounds. *)
Fixpoint map_loop (fuel : nat) (map : Z -> vmm -> outcome vmm) (step stop lo : Z) (st : vmm) : outcome (Z * vmm) :=
  if lo <? stop then
    match fuel with
    | O => Fault "more rounds than the range has pages"
    | S fuel =>
        st ← map lo st;
        map_loop fuel map step stop (lo +! step) st
    end
  else Ret (lo, st).

Definition rounds (step stop lo : Z) : nat := Z.to_nat ((stop - lo) / step + 1).

(** Flags of a page table entry and of a large page's entry. *)
Definition cache_flags (access_flags : Z) (cache_type : memory_cache_type) : Z * Z :=
  let flags := Z.lor access_flags PM_COMMON_PRESENT in
  match cache_type with
  | MCT_UNCACHEABLE =>
      (Z.lor flags (Z.lor PM_COMMON_PWT PT_PAT), Z.lor flags (Z.lor PM_COMMON_PWT PDXX_COMMON_PAT))
  | MCT_WRITE_BACK => (flags, flags)
  | MCT_WRITE_COMBINING =>
      (Z.lor flags (Z.lor PM_COMMON_PCD PT_PAT), Z.lor flags (Z.lor PM_COMMON_PCD PDXX_COMMON_PAT))
  | MCT_WRITE_PROTECTED => (Z.lor flags PM_COMMON_PCD, flags)
  | MCT_WRITE_THROUGH => (Z.lor flags PT_PAT, Z.lor flags PDXX_COMMON_PAT)
  end.

Definition mmu_map_range_linear (ctx vbase pbase len access_flags : Z) (cache_type : memory_cache_type) (st : vmm)
    : outcome vmm :=
  if tst pbase 0xfff || tst vbase 0xfff || tst len 0xfff then Panic "bad alignment (map 1gib)"
  else
    let off := DIFF vbase pbase in
    let limit := pbase +! len in
    let '(flags_pt, flags_pdxx) := cache_flags access_flags cache_type in
    let map4k lo := mmu_map_single_page_4k ctx (lo +! off) lo flags_pt in
    let map2m lo := mmu_map_single_page_2m ctx (lo +! off) lo flags_pdxx in
    let map1g lo := mmu_map_single_page_1g ctx (lo +! off) lo flags_pdxx in
    let lo := pbase in
    let stop := MIN (ALIGN_UP lo 0x200000) (ALIGN_DOWN limit 0x1000) in
    '(lo, st) ← map_loop (rounds 0x1000 stop lo) map4k 0x1000 stop lo st;
    let stop := MIN (ALIGN_UP lo 0x40000000) (ALIGN_DOWN limit 0x200000) in
    '(lo, st) ← map_loop (rounds 0x200000 stop lo) map2m 0x200000 stop lo st;
    let stop := ALIGN_DOWN limit 0x40000000 in
    '(lo, st) ← map_loop (rounds 0x40000000 stop lo) map1g 0x40000000 stop lo st;
    let stop := ALIGN_DOWN limit 0x200000 in
    '(lo, st) ← map_loop (rounds 0x200000 stop lo) map2m 0x200000 stop lo st;
    let stop := ALIGN_DOWN limit 0x1000 in
    '(_, st) ← map_loop (rounds 0x1000 stop lo) map4k 0x1000 stop lo st;
    Ret st.

(** ** Looking up *)

(** The table that maps [va] (0 if none), [*depth] and [*idx]. *)
Definition mmu_walk_table (pmc va idx0 : Z) (st : vmm) : outcome ((Z * Z * Z) * vmm) :=
  st ← map_lock st;
  let pdpt := attempt_walk_pagemap_single_lvl pmc (pml4_index va) st in
  if pdpt =? 0 then Ret ((0, 0, idx0), map_unlock st)
  else if tst (pml_get pdpt (pdpt_index va) st) PDXX_COMMON_PS then Ret ((pdpt, 1, pdpt_index va), map_unlock st)
  else
    let pd := attempt_walk_pagemap_single_lvl pdpt (pdpt_index va) st in
    if pd =? 0 then Ret ((0, 1, pdpt_index va), map_unlock st)
    else if tst (pml_get pd (pd_index va) st) PDXX_COMMON_PS then Ret ((pd, 2, pd_index va), map_unlock st)
    else
      let pt := attempt_walk_pagemap_single_lvl pd (pd_index va) st in
      if pt =? 0 then Ret ((0, 2, pd_index va), map_unlock st)
      else if tst (pml_get pt (pt_index va) st) PM_COMMON_PRESENT then Ret ((pt, 3, pt_index va), map_unlock st)
      else Ret ((0, 3, pt_index va), map_unlock (tlb_flush st)).

(** [((1ull << phys_addr_width) - 1) & ~low] *)
Definition phys_mask (st : vmm) (low : Z) : Z :=
  Z.land (u64 (u64 (Z.shiftl 1 (v_phys_addr_width st)) - 1)) (u64 (Z.lnot low)).

Definition virt2phys (virt : Z) (st : vmm) : outcome (Z * vmm) :=
  '((pmlx, depth, index), st) ← mmu_walk_table (v_kernel_pml4 st) virt 0 st;
  if pmlx =? 0 then Ret (0, st)
  else if depth =? 1 then
    Ret (Z.lor (Z.land (pml_get pmlx index st) (phys_mask st 0x3fffffff)) (Z.land virt 0x3fffffff), st)
  else if depth =? 2 then
    Ret (Z.lor (Z.land (pml_get pmlx index st) (phys_mask st 0x1fffff)) (Z.land virt 0x1fffff), st)
  else if depth =? 3 then
    Ret (Z.lor (Z.land (pml_get pmlx index st) (phys_mask st 0xfff)) (Z.land virt 0xfff), st)
  else Panic "unreachable".

Definition pml4_to_pt (pml4 va : Z) (st : vmm) : outcome (Z * vmm) :=
  '(pmlx, st) ← force_walk_pagemap_single_lvl pml4 (pml4_index va) table_flags st;
  '(pmlx, st) ← force_walk_pagemap_single_lvl pmlx (pdpt_index va) table_flags st;
  force_walk_pagemap_single_lvl pmlx (pd_index va) table_flags st.

(** The body is commented out in the source. *)
Definition mmu_unmap_single_page (pmc va : Z) (free_pa : bool) (st : vmm) : bool * vmm := (true, st).

Definition mmu_set_ctx (pmc : Z) (st : vmm) : vmm := set_v_cr3 (pmc -! v_offset st) st.

(** ** The kernel's address space *)

(** The boot loader's answer and the linker's symbols. *)
Record kernel_address := mk_kernel_address { ka_physical_base : Z; ka_virtual_base : Z }.
Record sections := mk_sections {
  text_start : Z; text_end : Z; rodata_start : Z; rodata_end : Z; data_start : Z; data_end : Z
}.

(** One early allocation, page by page. *)
Definition map_early_mapping (mapping : early_mem_alloc_mapping) (st : vmm) : outcome vmm :=
  let stop := ALIGN_UP (map_start mapping +! map_length mapping) PAGE_SIZE in
  let lo := ALIGN_DOWN (map_start mapping) PAGE_SIZE in
  '(_, st) ← map_loop (rounds PAGE_SIZE stop lo)
      (fun off st => mmu_map_single_page_4k (v_kernel_pml4 st) (off +! v_offset st) off table_flags st)
      PAGE_SIZE stop lo st;
  Ret st.

Fixpoint map_early_mappings (ms : list early_mem_alloc_mapping) (st : vmm) : outcome vmm :=
  match ms with
  | [] => Ret st
  | mapping :: ms => st ← map_early_mapping mapping st; map_early_mappings ms st
  end.

Section Kernel.
Context `{Limine}.

Definition map_memmap_entry (entry : memmap_entry) (st : vmm) : outcome vmm :=
  if ent_type entry =? LIMINE_MEMMAP_USABLE then
    mmu_map_range_linear (v_kernel_pml4 st) (ent_start entry +! v_offset st) (ent_start entry) (ent_length entry)
      MAF_WRITE MCT_WRITE_BACK st
  else if ent_type entry =? LIMINE_MEMMAP_FRAMEBUFFER then
    mmu_map_range_linear (v_kernel_pml4 st) (ALIGN_DOWN (ent_start entry +! v_offset st) PAGE_SIZE)
      (ALIGN_DOWN (ent_start entry) PAGE_SIZE) (ALIGN_UP (ent_length entry) PAGE_SIZE)
      (Z.lor MAF_NX MAF_WRITE) MCT_WRITE_COMBINING st
  else if ent_type entry =? LIMINE_MEMMAP_BOOTLOADER_RECLAIMABLE then
    mmu_map_range_linear (v_kernel_pml4 st) (ent_start entry +! v_offset st) (ent_start entry) (ent_length entry)
      MAF_WRITE MCT_WRITE_BACK st
  else Ret st.

Fixpoint map_memmap (es : list memmap_entry) (st : vmm) : outcome vmm :=
  match es with
  | [] => Ret st
  | entry :: es => st ← map_memmap_entry entry st; map_memmap es st
  end.

Definition map_section (ka : kernel_address) (start stop access_flags : Z) (st : vmm) : outcome vmm :=
  mmu_map_range_linear (v_kernel_pml4 st) start ((start -! ka_virtual_base ka) +! ka_physical_base ka)
    (stop -! start) access_flags MCT_WRITE_BACK st.

Definition init_kpm (response : option kernel_address) (secs : sections) (e : em) (st : vmm) : outcome vmm :=
  match response with
  | None => Panic "limine kernel address request not answered"
  | Some ka =>
      '(pml4, mm') ← page_alloc_temp (psize2order (1 * PAGE_SIZE)) (v_mm st);
      let st := set_v_mm mm' st in
      if pml4 =? 0 then Panic "pmm_claim_contiguous_pages returned NULL"
      else
        let st := set_v_pml4 (pml4 +! v_offset st) st in
        let st := set_v_mem (memset (v_kernel_pml4 st) 0 PAGE_SIZE (v_mem st)) st in
        st ← mmu_map_single_page_4k (v_kernel_pml4 st) (ALIGN_DOWN (v_lapic_address st +! v_offset st) PAGE_SIZE)
               (ALIGN_DOWN (v_lapic_address st) PAGE_SIZE) table_flags st;
        let st := set_v_lapic (v_lapic_address st +! v_offset st) st in
        st ← map_early_mappings (take (Z.to_nat (em_allocations e)) (em_mappings e)) st;
        st ← map_memmap (em_memmap e) st;
        st ← map_section ka (text_start secs) (text_end secs) 0 st;
        st ← map_section ka (rodata_start secs) (rodata_end secs) MAF_NX st;
        st ← map_section ka (data_start secs) (data_end secs) (Z.lor MAF_WRITE MAF_NX) st;
        Ret (tlb_flush (mmu_set_ctx (v_kernel_pml4 st) st))
  end.

(** [cpuid] leaf 0x80000008 gives the address widths in EAX. *)
Definition init_vmm (eax : Z) (response : option kernel_address) (secs : sections) (e : em) (st : vmm) : outcome vmm :=
  init_kpm response secs e (set_v_widths (Z.land eax 0xFF) (Z.land (Z.shiftr eax 8) 0xFF) st).

End Kernel.
End Mmu.
