(* ===== verification/MmuRep.v ===== *)
(** * What the page tables represent

    [hw_walk]: the processor's walk over the tables in memory, the reference
    the mapping functions of kernel/src/arch/x86-64/mmu.c are measured by.
    [tables_ok st root F T]: the tables form a tree, [T] gives for each path
    of indices the frame of its table, [F] are the free frames. *)

From stdpp Require Import gmap sets.
From S2P Require Import Prelude Macros Locking Dll Mem FrameHdr Blocks FrameAlloc BuddyRep BuddyProof PageIface Mmu.

Module MmuRep.
Import Macros Locking Mem FrameHdr Blocks FrameAlloc BuddyRep BuddyProof PageIface Mmu.

(** ** The processor's walk *)

Definition present (e : Z) : bool := tst e PM_COMMON_PRESENT.
Definition large (e : Z) : bool := tst e PDXX_COMMON_PS.
Definition next_table (st : vmm) (e : Z) : Z := Z.land e PML_LOWER_MASK +! v_offset st.

(** Level and entry that map the address with the table indices [ixs]. *)
Fixpoint hw_walk (st : vmm) (level : nat) (tbl : Z) (ixs : list Z) : option (nat * Z) :=
  match ixs with
  | [] => None
  | i :: ixs =>
      let e := pml_get tbl i st in
      if negb (present e) then None
      else match ixs with
           | [] => Some (level, e)
           | _ => if large e && (0 <? Z.of_nat level) then Some (level, e)
                  else hw_walk st (S level) (next_table st e) ixs
           end
  end.

Definition path (va : Z) : list Z := [pml4_index va; pdpt_index va; pd_index va; pt_index va].
Definition translation (st : vmm) (root va : Z) : option (nat * Z) := hw_walk st 0 root (path va).

(** ** The tree of tables *)

Definition taddr (st : vmm) (f : Z) : Z := v_offset st + f * PAGE_SIZE.
Definition ent (st : vmm) (f i : Z) : Z := pml_get (taddr st f) i st.
Definition ix (i : Z) : Prop := 0 <= i < 512.

Definition entry_ok (T : gmap (list Z) Z) (p : list Z) (i e : Z) : Prop :=
  match T !! (p ++ [i]) with
  | Some f => present e = true /\ large e = false /\ Z.land e PML_LOWER_MASK = f * PAGE_SIZE
  | None => e = 0 \/ (p <> [] /\ present e = true /\ large e = true)
  end.

Record tables_ok (st : vmm) (root : Z) (F : gset Z) (T : gmap (list Z) Z) : Prop := {
  to_pa : pa_ok (v_mm st) F;
  to_off : 0 < v_offset st /\ v_offset st + mm_pages_count (v_mm st) * PAGE_SIZE < 2 ^ 64;
  to_root : exists f, T !! [] = Some f /\ root = taddr st f;
  to_frame : forall p f, T !! p = Some f -> 0 <= f < mm_pages_count (v_mm st) /\ f ∉ F /\ (length p <= 3)%nat;
  to_inj : forall p q f, T !! p = Some f -> T !! q = Some f -> p = q;
  to_entry : forall p f i, T !! p = Some f -> (length p < 3)%nat -> ix i -> entry_ok T p i (ent st f i);
  to_prefix : forall p i f, T !! (p ++ [i]) = Some f -> ix i /\ is_Some (T !! p)
}.

(** What mapping leaves alone. *)
Record vkeep (st st' : vmm) : Prop := {
  vk_count : mm_pages_count (v_mm st') = mm_pages_count (v_mm st);
  vk_IF : mm_IF (v_mm st') = mm_IF (v_mm st);
  vk_lock : v_lock st' = v_lock st;
  vk_off : v_offset st' = v_offset st;
  vk_pml4 : v_kernel_pml4 st' = v_kernel_pml4 st;
  vk_paw : v_phys_addr_width st' = v_phys_addr_width st
}.

#[global] Instance vkeep_preorder : PreOrder vkeep.
Proof.
  split.
  - intros st. by split.
  - intros a b c [] []. split; congruence.
Qed.

(** ** Entries in memory *)

Lemma ent_write_same st f i e : 0 <= e < 2 ^ 64 -> ent (pml_set (taddr st f) i e st) f i = e.
Proof. intros He. unfold ent, pml_get, pml_set. simpl. by apply read64_write64. Qed.

Lemma ent_write_other st f i e g j :
  ix i -> ix j -> (g, j) <> (f, i) -> ent (pml_set (taddr st f) i e st) g j = ent st g j.
Proof.
  intros Hi Hj Hne. unfold ent, pml_get, pml_set, taddr, ix in *. simpl. apply read64_write64_other.
  destruct (decide (g = f)) as [->|]; [assert (i <> j) by congruence; lia|]. unfold PAGE_SIZE. lia.
Qed.

Lemma read64_zero a m : (forall x, a <= x < a + 8 -> rd m x = 0) -> read64 a m = 0.
Proof.
  intros Hz. unfold read64. simpl. rewrite !Hz by lia. done.
Qed.

(** A present entry of the tree leads to the table below. *)
Lemma next_table_child st root F T p i f g e :
  tables_ok st root F T -> T !! p = Some f -> T !! (p ++ [i]) = Some g -> entry_ok T p i e -> next_table st e = taddr st g.
Proof.
  intros Ht Hp Hg He. unfold entry_ok in He. rewrite Hg in He. destruct He as (_ & _ & He).
  destruct (to_frame _ _ _ _ Ht _ _ Hg) as (Hb & _). destruct (to_off _ _ _ _ Ht).
  unfold next_table, taddr. rewrite He, u64_small by (unfold PAGE_SIZE in *; lia). lia.
Qed.

Lemma zero_entry : present 0 = false /\ large 0 = false.
Proof. done. Qed.

(** ** Walks along the tree *)

(** The walk at a table of the tree. *)
Lemma walk_step st root F T p f i ixs :
  tables_ok st root F T -> T !! p = Some f -> ix i -> ixs <> [] -> (length p < 3)%nat ->
  hw_walk st (length p) (taddr st f) (i :: ixs) =
    match T !! (p ++ [i]) with
    | Some g => hw_walk st (S (length p)) (taddr st g) ixs
    | None => if decide (ent st f i = 0) then None else Some (length p, ent st f i)
    end.
Proof.
  intros Ht Hp Hi Hne Hlen. pose proof (to_entry _ _ _ _ Ht p f i Hp Hlen Hi) as He.
  cbn [hw_walk]. change (pml_get (taddr st f) i st) with (ent st f i).
  destruct ixs as [|j ixs]; [done|]. destruct (T !! (p ++ [i])) as [g|] eqn:Hg.
  - rewrite (next_table_child _ _ _ _ _ _ _ _ _ Ht Hp Hg He). unfold entry_ok in He. rewrite Hg in He.
    destruct He as (-> & -> & _). done.
  - unfold entry_ok in He. rewrite Hg in He. destruct He as [He|(Hpn & Hpr & Hla)].
    + rewrite He. rewrite decide_True by done. done.
    + rewrite Hpr, Hla. simpl. destruct p as [|? ?]; [done|]. simpl.
      rewrite decide_False; [done|]. intros Hz. rewrite Hz in Hpr. done.
Qed.

(** Two states whose tables agree except for the entry [i] of [p]. *)
Lemma walk_agree st st' root F T F' T' (p0 : list Z) i0 :
  tables_ok st root F T -> tables_ok st' root F' T' -> v_offset st' = v_offset st ->
  (forall q g j, T !! q = Some g -> ix j -> (q, j) <> (p0, i0) -> ~ (p0 ++ [i0]) `prefix_of` q -> ent st' g j = ent st g j) ->
  (forall q, ~ (p0 ++ [i0]) `prefix_of` q -> T' !! q = T !! q) ->
  forall ixs q g, T !! q = Some g -> (length q + length ixs = 4)%nat -> Forall ix ixs ->
    ~ (p0 ++ [i0]) `prefix_of` (q ++ ixs) ->
    hw_walk st' (length q) (taddr st' g) ixs = hw_walk st (length q) (taddr st g) ixs.
Proof.
  intros Ht Ht' Hoff Hent HT. induction ixs as [|i ixs IH]; intros q g Hq Hlen Hix Hnp; [done|].
  apply Forall_cons in Hix as [Hi Hix].
  assert (~ (p0 ++ [i0]) `prefix_of` q) as Hnq by (intros Hx; apply Hnp; by apply prefix_app_r).
  assert (T' !! q = Some g) as Hq' by (by rewrite HT).
  assert (ent st' g i = ent st g i) as He.
  { apply (Hent q); try done. intros [= -> ->]. apply Hnp. exists ixs. by rewrite <- app_assoc. }
  destruct ixs as [|j ixs].
  - cbn [hw_walk]. change (pml_get (taddr st' g) i st') with (ent st' g i).
    change (pml_get (taddr st g) i st) with (ent st g i). by rewrite He.
  - assert (~ (p0 ++ [i0]) `prefix_of` (q ++ [i])) as Hnqi.
    { intros [k Hk]. apply Hnp. exists (k ++ j :: ixs). rewrite app_assoc, <- Hk. by rewrite <- app_assoc. }
    assert (length q < 3)%nat by (simpl in Hlen; lia).
    rewrite (walk_step st' root F' T') by done. rewrite (walk_step st root F T) by done.
    rewrite HT by done. destruct (T !! (q ++ [i])) as [g'|] eqn:Hg'; [|by rewrite He].
    replace (S (length q)) with (length (q ++ [i])) by (rewrite length_app; simpl; lia).
    apply IH; [done|rewrite length_app; simpl in *; lia|done|]. by rewrite <- app_assoc.
Qed.

(** ** Table entries *)

Lemma PML_LOWER_MASK_field : PML_LOWER_MASK = field 12 52.
Proof. reflexivity. Qed.

Lemma table_flags_bits n : 2 <= n -> Z.testbit table_flags n = false.
Proof. intros Hn. apply (small_bits _ 2); [lia|]. vm_compute. done. Qed.

Lemma table_entry f :
  0 <= f < 2 ^ 40 ->
  let e := Z.lor (f * PAGE_SIZE) table_flags in
  present e = true /\ large e = false /\ Z.land e PML_LOWER_MASK = f * PAGE_SIZE /\ 0 <= e < 2 ^ 64.
Proof.
  intros Hf e. assert (2 ^ 12 | f * PAGE_SIZE) as Hd by apply Z.divide_factor_r.
  assert (0 <= f * PAGE_SIZE < 2 ^ 52) as Hr by (unfold PAGE_SIZE; lia).
  split; [|split; [|split]].
  - unfold present, PM_COMMON_PRESENT. rewrite tst_bit by lia. unfold e. rewrite Z.lor_spec.
    change (Z.testbit table_flags 0) with true. apply orb_true_r.
  - unfold large, PDXX_COMMON_PS. rewrite tst_bit by lia. unfold e.
    rewrite Z.lor_spec, (multiple_bits _ 12), table_flags_bits by (done || lia). done.
  - rewrite PML_LOWER_MASK_field. apply field_lor; [lia|done|done|]. intros n Hn. apply table_flags_bits. lia.
  - apply lor_range; [lia|lia|by vm_compute].
Qed.

(** ** Making sure a table is there *)

(** The entry [i] of the table at [p] is not a large page. *)
Definition not_leaf (st : vmm) (T : gmap (list Z) Z) (p : list Z) (i : Z) : Prop :=
  forall f, (length p < 3)%nat -> ix i -> T !! p = Some f -> T !! (p ++ [i]) = None -> ent st f i = 0.

Lemma block_one a x : x ∈ block a 0 <-> x = a.
Proof. rewrite elem_block. change (2 ^ 0) with 1. lia. Qed.

(** Taking a zeroed frame. *)
Lemma take_zeroed st root F T :
  tables_ok st root F T -> F <> ∅ ->
  returns (page_calloc (fun phys len m => memset (phys +! v_offset st) 0 len m) 0 (v_mm st) (v_mem st))
    (fun '(pg, (st', m)) => exists f, pg = Ref f /\ f ∈ F /\ 0 <= f < mm_pages_count (v_mm st) /\
       kept (v_mm st) st' /\ pa_ok st' (F ∖ {[f]}) /\
       (forall x, ~ (taddr st f <= x < taddr st f + PAGE_SIZE) -> rd m x = rd (v_mem st) x) /\
       (forall x, taddr st f <= x < taddr st f + PAGE_SIZE -> rd m x = 0)).
Proof.
  intros Ht Hne. unfold page_calloc.
  mcall (pa_alloc_ok (v_mm st) F 0 (to_pa _ _ _ _ Ht)); [unfold BUDDY_HIGH_ORDER; lia|].
  intros [w st'] (Hk & _ & [(-> & _ & Hno)|(f & -> & Hbk & Hsub & Hpa)]).
  { destruct Hno. apply set_choose_L in Hne as [x Hx]. exists x. split; [apply Z.divide_1_l|].
    intros y ->%block_one. done. }
  cbn beta. destruct Hbk as [_ Hf0 Hfn _]. change (2 ^ 0) with 1 in Hfn.
  destruct (pa_count _ _ (to_pa _ _ _ _ Ht)) as (Hn & _). destruct (to_off _ _ _ _ Ht) as [Ho1 Ho2].
  assert (mm_pages_count st' = mm_pages_count (v_mm st)) as Hn' by apply Hk.
  mstep. eapply returns_eq.
  { unfold page2phys. rewrite page2idx_ret by lia. simpl. reflexivity. }
  rewrite Z.shiftl_mul_pow2 by (unfold PAGE_SHIFT; lia). change (2 ^ PAGE_SHIFT) with PAGE_SIZE.
  rewrite (u64_small (f * PAGE_SIZE)) by (unfold PAGE_SIZE in *; lia).
  rewrite u64_small by (unfold PAGE_SIZE in *; lia). change (u64 (Z.shiftl (order2size 0) PAGE_SHIFT)) with PAGE_SIZE.
  exists f. split; [done|]. split; [apply Hsub; by apply block_one|]. split; [lia|]. split; [done|].
  split. { replace (F ∖ {[f]}) with (F ∖ block f 0); [done|]. apply set_eq. intros x.
    rewrite !elem_of_difference, elem_of_singleton, block_one. done. }
  unfold taddr. rewrite (Z.add_comm (v_offset st)). split; intros x Hx; rewrite memset_spec by (unfold PAGE_SIZE; lia).
  - by rewrite decide_False.
  - by rewrite decide_True.
Qed.

Lemma taddr_keep st st' f : v_offset st' = v_offset st -> taddr st' f = taddr st f.
Proof. unfold taddr. by intros ->. Qed.

(** Memory outside the frame [f] is as before: so are the entries of the others. *)
Lemma ent_other_frame st m f g j :
  ix j -> g <> f -> (forall x, ~ (taddr st f <= x < taddr st f + PAGE_SIZE) -> rd m x = rd (v_mem st) x) ->
  read64 (taddr st g + j * 8) m = ent st g j.
Proof.
  intros Hj Hne Hm. apply read64_ext. intros x Hx. apply Hm. unfold taddr, ix, PAGE_SIZE in *. lia.
Qed.

Lemma new_table_ok st root F T p f i f' st' m :
  tables_ok st root F T -> T !! p = Some f -> (length p < 3)%nat -> ix i -> T !! (p ++ [i]) = None ->
  f' ∈ F -> 0 <= f' < mm_pages_count (v_mm st) -> kept (v_mm st) st' -> pa_ok st' (F ∖ {[f']}) ->
  (forall x, ~ (taddr st f' <= x < taddr st f' + PAGE_SIZE) -> rd m x = rd (v_mem st) x) ->
  (forall x, taddr st f' <= x < taddr st f' + PAGE_SIZE -> rd m x = 0) ->
  let st2 := pml_set (taddr st f) i (Z.lor (f' * PAGE_SIZE) table_flags) (set_v_mem m (set_v_mm st' st)) in
  tables_ok st2 root (F ∖ {[f']}) (<[p ++ [i] := f']> T) /\
  (forall q g j, T !! q = Some g -> ix j -> (q, j) <> (p, i) -> ent st2 g j = ent st g j) /\
  (forall j, ix j -> ent st2 f' j = 0).
Proof.
  intros Ht Hp Hlen Hi Hnone HfF Hfn Hk Hpa Hm Hz st2. pose proof Ht as [Hpa0 Hoff Hroot Hfr Hinj Hent Hpre].
  assert (forall g, taddr st2 g = taddr st g) as Hta by done.
  assert (forall q g, T !! q = Some g -> g <> f') as Hgf.
  { intros q g Hq ->. by destruct (Hfr _ _ Hq) as (_ & ? & _). }
  destruct (pa_count _ _ Hpa0) as (Hn & _). destruct (table_entry f') as (He1 & He2 & He3 & He4); [lia|].
  assert (forall q g j, T !! q = Some g -> ix j -> (q, j) <> (p, i) -> ent st2 g j = ent st g j) as Hsame.
  { intros q g j Hq Hj Hne. rewrite <- (ent_other_frame st m f' g j Hj (Hgf _ _ Hq) Hm).
    unfold st2. change (taddr st f) with (taddr (set_v_mem m (set_v_mm st' st)) f). rewrite ent_write_other; [done|done|done|].
    intros [= -> ->]. apply Hne. f_equal. by eapply Hinj. }
  assert (forall j, ix j -> ent st2 f' j = 0) as Hzero.
  { intros j Hj. unfold st2. change (taddr st f) with (taddr (set_v_mem m (set_v_mm st' st)) f).
    rewrite ent_write_other; [|done|done|intros [= Heq _]; by apply (Hgf p f Hp)].
    apply read64_zero. intros x Hx. apply Hz. unfold ix, PAGE_SIZE in *. unfold taddr in *. simpl in Hx. lia. }
  assert (mm_pages_count st' = mm_pages_count (v_mm st)) as Hn' by apply Hk.
  split; [|done]. split; simpl; try done.
  - by rewrite Hn'.
  - destruct Hroot as (f0 & Hf0 & ->). exists f0. split; [|done]. rewrite lookup_insert_ne; [done|]. by destruct p.
  - intros q g. destruct (decide (q = p ++ [i])) as [->|Hne].
    + rewrite lookup_insert_eq. intros [= <-]. rewrite length_app. simpl. split; [lia|]. split; [set_solver|lia].
    + rewrite lookup_insert_ne by done. intros Hq. destruct (Hfr _ _ Hq) as (? & ? & ?).
      split; [lia|]. split; [set_solver|done].
  - intros q1 q2 g. destruct (decide (q1 = p ++ [i])) as [->|H1], (decide (q2 = p ++ [i])) as [->|H2];
      rewrite ?lookup_insert_eq; rewrite ?lookup_insert_ne by done; [done| | |by apply Hinj].
    + intros [= <-] Hq. by destruct (Hgf _ _ Hq).
    + intros Hq [= <-]. by destruct (Hgf _ _ Hq).
  - intros q g j Hq Hl Hj. unfold entry_ok. destruct (decide (q = p ++ [i])) as [->|Hne].
    + rewrite lookup_insert_eq in Hq. injection Hq as <-. rewrite Hzero by done.
      rewrite lookup_insert_ne by (intros Heq; apply (f_equal length) in Heq; rewrite !length_app in Heq; simpl in Heq; lia).
      destruct (T !! ((p ++ [i]) ++ [j])) eqn:Hx; [|by left]. apply Hpre in Hx as [_ [? ?]]. congruence.
    + rewrite lookup_insert_ne in Hq by done. destruct (decide (q ++ [j] = p ++ [i])) as [Heq|Hne2].
      * apply app_inj_tail in Heq as [-> ->]. rewrite lookup_insert_eq. assert (g = f) as -> by congruence.
        unfold st2. change (taddr st f) with (taddr (set_v_mem m (set_v_mm st' st)) f). by rewrite ent_write_same.
      * rewrite lookup_insert_ne by done. rewrite (Hsame q) by (done || intros [= -> ->]; done).
        by apply Hent.
  - intros q j g. destruct (decide (q ++ [j] = p ++ [i])) as [Heq|Hne].
    + apply app_inj_tail in Heq as [-> ->]. intros _. split; [done|].
      rewrite lookup_insert_ne by (intros Heq; apply (f_equal length) in Heq; rewrite length_app in Heq; simpl in Heq; lia).
      by exists f.
    + rewrite lookup_insert_ne by done. intros [Hj [g' Hg']]%Hpre. split; [done|].
      destruct (decide (q = p ++ [i])) as [->|]; [congruence|]. rewrite lookup_insert_ne by done. by exists g'.
Qed.

(** ** Descending *)

Lemma prefix_exists st root F T p q f : tables_ok st root F T -> T !! (p ++ q) = Some f -> is_Some (T !! p).
Proof.
  intros Ht. revert f. induction q as [|i q IH] using rev_ind; intros f; [rewrite app_nil_r; eauto|].
  rewrite app_assoc. intros [_ [g Hg]]%(to_prefix _ _ _ _ Ht). eauto.
Qed.

Lemma path_ix st root F T p f : tables_ok st root F T -> T !! p = Some f -> Forall ix p.
Proof.
  intros Ht. revert f. induction p as [|i p IH] using rev_ind; intros f Hf; [constructor|].
  apply (to_prefix _ _ _ _ Ht) in Hf as [Hi [g Hg]]. apply Forall_app. split; [eauto|]. by constructor.
Qed.

(** Down to a table of the tree. *)
Lemma walk_down st root F T q p g f r :
  tables_ok st root F T -> T !! q = Some g -> T !! (q ++ p) = Some f -> r <> [] ->
  hw_walk st (length q) (taddr st g) (p ++ r) = hw_walk st (length (q ++ p)) (taddr st f) r.
Proof.
  intros Ht. revert q g. induction p as [|i p IH]; intros q g Hq Hf Hr.
  { rewrite app_nil_r in *. by assert (f = g) as -> by congruence. }
  rewrite (cons_middle i), app_assoc in Hf. destruct (prefix_exists _ _ _ _ _ _ _ Ht Hf) as [g' Hg'].
  destruct (to_prefix _ _ _ _ Ht _ _ _ Hg') as [Hi _].
  destruct (to_frame _ _ _ _ Ht _ _ Hg') as (_ & _ & Hlen). rewrite length_app in Hlen. simpl in Hlen.
  simpl app. rewrite (walk_step st root F T) by (done || (by destruct p) || lia). rewrite Hg'.
  replace (S (length q)) with (length (q ++ [i])) by (rewrite length_app; simpl; lia).
  rewrite (IH _ g') by done. by rewrite <- app_assoc.
Qed.

(** The translation of an address with indices [p ++ r], from the table at [p]. *)
Lemma walk_root st root F T p f r :
  tables_ok st root F T -> T !! p = Some f -> r <> [] ->
  hw_walk st 0 root (p ++ r) = hw_walk st (length p) (taddr st f) r.
Proof.
  intros Ht Hp Hr. destruct (to_root _ _ _ _ Ht) as (f0 & Hf0 & ->). exact (walk_down st _ F T [] p f0 f r Ht Hf0 Hp Hr).
Qed.

(** Walks through an empty table find nothing. *)
Lemma walk_empty st l f r : (forall j, ix j -> ent st f j = 0) -> Forall ix r -> hw_walk st l (taddr st f) r = None.
Proof.
  intros Hz Hr. destruct r as [|i r]; [done|]. apply Forall_cons in Hr as [Hi _].
  cbn [hw_walk]. change (pml_get (taddr st f) i st) with (ent st f i). by rewrite Hz.
Qed.

Lemma walk_new_table st st2 root F F2 T p f i f' :
  tables_ok st root F T -> tables_ok st2 root F2 (<[p ++ [i] := f']> T) -> v_offset st2 = v_offset st ->
  T !! p = Some f -> (length p < 3)%nat -> ix i -> T !! (p ++ [i]) = None -> ent st f i = 0 ->
  (forall q g j, T !! q = Some g -> ix j -> (q, j) <> (p, i) -> ent st2 g j = ent st g j) ->
  (forall j, ix j -> ent st2 f' j = 0) ->
  forall r, length r = 4%nat -> Forall ix r -> hw_walk st2 0 root r = hw_walk st 0 root r.
Proof.
  intros Ht Ht2 Hoff Hp Hlen Hi Hnone He Hsame Hz r Hr Hix.
  destruct (decide ((p ++ [i]) `prefix_of` r)) as [[k ->]|Hnp].
  - rewrite !length_app in Hr. simpl in Hr. apply Forall_app in Hix as [_ Hixk].
    assert (k <> []) by (intros ->; simpl in Hr; lia).
    rewrite (walk_root st2 root F2 _ (p ++ [i]) f') by (done || apply lookup_insert_eq).
    rewrite walk_empty by done. rewrite <- app_assoc. rewrite (walk_root st root F T p f) by done.
    simpl app. rewrite (walk_step st root F T) by done. by rewrite Hnone, decide_True.
  - destruct (to_root _ _ _ _ Ht) as (f0 & Hf0 & Hroot). rewrite Hroot. rewrite <- (taddr_keep st st2) at 1 by done.
    refine (walk_agree st st2 root F T F2 _ p i Ht Ht2 Hoff _ _ r [] f0 Hf0 Hr Hix Hnp); [intros; by eapply Hsame|].
    intros q Hq. apply lookup_insert_ne. intros <-. by apply Hq.
Qed.

End MmuRep.
