(* ===== verification/MmuProof.v ===== *)
(** * Mapping pages

    Specifications of the walks and of the mapping functions of
    kernel/src/arch/x86-64/mmu.c on the tree of page tables: which addresses
    change their translation and which do not. *)

From stdpp Require Import gmap sets.
From S2P Require Import Prelude Macros Locking Dll Mem FrameHdr Blocks FrameAlloc BuddyRep BuddyProof PageIface Mmu MmuRep.

Module MmuProof.
Import Macros Locking Mem FrameHdr Blocks FrameAlloc BuddyRep BuddyProof PageIface Mmu MmuRep.

(** ** One level down *)

Lemma force_walk_spec st root F T p f i :
  tables_ok st root F T -> T !! p = Some f -> (length p < 3)%nat -> ix i -> not_leaf st T p i -> F <> ∅ ->
  returns (force_walk_pagemap_single_lvl (taddr st f) i table_flags st) (fun '(ptr, st') => exists F' T' f',
    tables_ok st' root F' T' /\ T' !! (p ++ [i]) = Some f' /\ ptr = taddr st' f' /\
    vkeep st st' /\ Z.of_nat (size F) <= Z.of_nat (size F') + 1 /\
    (forall r, length r = 4%nat -> Forall ix r -> hw_walk st' 0 root r = hw_walk st 0 root r) /\
    (forall q j, not_leaf st T q j -> not_leaf st' T' q j)).
Proof.
  intros Ht Hp Hlen Hi Hnl Hne. pose proof (to_entry _ _ _ _ Ht p f i Hp Hlen Hi) as He.
  unfold force_walk_pagemap_single_lvl. change (pml_get (taddr st f) i st) with (ent st f i).
  change (tst (ent st f i) PM_COMMON_PRESENT) with (present (ent st f i)).
  destruct (T !! (p ++ [i])) as [g|] eqn:Hg.
  - change (Z.land (ent st f i) PML_LOWER_MASK +! v_offset st) with (next_table st (ent st f i)).
    rewrite (next_table_child _ _ _ _ _ _ _ _ _ Ht Hp Hg He).
    unfold entry_ok in He. rewrite Hg in He. destruct He as (-> & _).
    exists F, T, g. split_and!; try done. lia.
  - rewrite (Hnl f Hlen Hi Hp Hg). simpl present. cbv iota.
    mcall (take_zeroed st root F T Ht Hne). intros [pg [st' m]] (f' & -> & HfF & Hfn & Hk & Hpa & Hm & Hz).
    assert (mm_pages_count st' = mm_pages_count (v_mm st)) as Hn' by apply Hk.
    destruct (pa_count _ _ (to_pa _ _ _ _ Ht)) as (Hn & _). destruct (to_off _ _ _ _ Ht) as [Ho1 Ho2].
    cbv beta iota. mstep. eapply returns_eq.
    { unfold page2phys. rewrite page2idx_ret by lia. simpl. reflexivity. }
    rewrite Z.shiftl_mul_pow2 by (unfold PAGE_SHIFT; lia). change (2 ^ PAGE_SHIFT) with PAGE_SIZE.
    rewrite (u64_small (f' * PAGE_SIZE)) by (unfold PAGE_SIZE in *; lia). cbv zeta.
    destruct (new_table_ok st root F T p f i f' st' m Ht Hp Hlen Hi Hg HfF Hfn Hk Hpa Hm Hz) as (Ht2 & Hs2 & Hz2).
    set (st2 := pml_set _ _ _ _) in *. exists (F ∖ {[f']}), (<[p ++ [i] := f']> T), f'. split; [done|].
    split; [apply lookup_insert_eq|]. split; [|split; [|split; [|split]]].
    + unfold taddr. simpl. rewrite u64_small by (unfold PAGE_SIZE in *; lia). lia.
    + destruct Hk as (? & _ & _ & ? & _). by split.
    + assert (F = {[f']} ∪ F ∖ {[f']}) as HF by (apply union_difference_singleton_L; done).
      rewrite HF at 1. rewrite size_union, size_singleton by set_solver. lia.
    + intros r Hr Hix. eapply (walk_new_table st st2 root F _ T p f i f'); try done. by apply Hnl.
    + intros q j Hq g Hlq Hj Hg1 Hg2. destruct (decide (q = p ++ [i])) as [->|Hneq].
      * rewrite lookup_insert_eq in Hg1. injection Hg1 as <-. by apply Hz2.
      * rewrite lookup_insert_ne in Hg1 by done. destruct (decide (q ++ [j] = p ++ [i])) as [Heq|Hneq2];
          [rewrite Heq, lookup_insert_eq in Hg2; done|]. rewrite lookup_insert_ne in Hg2 by done.
        rewrite (Hs2 q) by (done || intros [= -> ->]; done). by apply Hq.
Qed.

(** ** Writing a leaf *)

Lemma snoc_prefix (p q : list Z) i j :
  (p ++ [i]) `prefix_of` (q ++ [j]) -> (q = p /\ j = i) \/ (p ++ [i]) `prefix_of` q.
Proof.
  intros [k Hk]. destruct k as [|x k _] using rev_ind.
  - rewrite app_nil_r in Hk. apply app_inj_tail in Hk. by left.
  - right. rewrite app_assoc in Hk. apply app_inj_tail in Hk as [-> _]. by exists k.
Qed.

Lemma leaf_write st root F T p f i e :
  tables_ok st root F T -> T !! p = Some f -> ix i -> 0 <= e < 2 ^ 64 -> present e = true ->
  p <> [] -> large e = true \/ length p = 3%nat ->
  let st' := pml_set (taddr st f) i e st in
  let T' := filter (fun x => ~ (p ++ [i]) `prefix_of` x.1) T in
  tables_ok st' root F T' /\
  (forall r, length r = 4%nat -> Forall ix r ->
     hw_walk st' 0 root r = if decide ((p ++ [i]) `prefix_of` r) then Some (length p, e) else hw_walk st 0 root r) /\
  (forall q j, (q, j) <> (p, i) -> not_leaf st T q j -> not_leaf st' T' q j).
Proof.
  intros Ht Hp Hi He Hpr Hpn Hlf st' T'. pose proof Ht as [Hpa Hoff Hroot Hfr Hinj Hent Hpre].
  assert (forall q, ~ (p ++ [i]) `prefix_of` q -> T' !! q = T !! q) as HTk.
  { intros q Hq. unfold T'. destruct (T !! q) as [g|] eqn:Hg.
    - by apply map_lookup_filter_Some.
    - apply map_lookup_filter_None. by left. }
  assert (forall q g, T' !! q = Some g -> T !! q = Some g /\ ~ (p ++ [i]) `prefix_of` q) as HTs.
  { intros q g. unfold T'. by rewrite map_lookup_filter_Some. }
  assert (~ (p ++ [i]) `prefix_of` p) as Hnp.
  { intros [k Hk]. apply (f_equal length) in Hk. rewrite !length_app in Hk. simpl in Hk. lia. }
  assert (forall q g j, T !! q = Some g -> ix j -> (q, j) <> (p, i) -> ent st' g j = ent st g j) as Hsame.
  { intros q g j Hq Hj Hne. apply ent_write_other; [done|done|]. intros [= -> ->]. apply Hne. f_equal. by eapply Hinj. }
  assert (tables_ok st' root F T') as Ht'.
  { split; try done.
    - destruct Hroot as (f0 & Hf0 & ->). exists f0. split; [|done]. rewrite HTk; [done|].
      intros [k Hk]. by destruct p.
    - intros q g [Hq _]%HTs. by apply Hfr in Hq.
    - intros q1 q2 g [H1 _]%HTs [H2 _]%HTs. by eapply Hinj.
    - intros q g j [Hq Hnq]%HTs Hl Hj. unfold entry_ok. destruct (decide ((p ++ [i]) `prefix_of` (q ++ [j]))) as [Hx|Hx].
      + pose proof Hx as [[-> ->]|?]%snoc_prefix; [|done]. assert (g = f) as -> by congruence.
        unfold st'. rewrite ent_write_same by done. destruct (T' !! (p ++ [i])) as [g'|] eqn:Hg'.
        * apply HTs in Hg' as [_ []]. done.
        * right. destruct Hlf; [done|lia].
      + rewrite HTk by done. rewrite (Hsame q) by (done || intros [= -> ->]; done). by apply Hent.
    - intros q j g [[Hj Hs]%Hpre Hnq]%HTs. split; [done|]. rewrite HTk; [done|].
      intros Hx. apply Hnq. by apply prefix_app_r. }
  split; [done|]. split.
  - intros r Hr Hix. destruct (decide ((p ++ [i]) `prefix_of` r)) as [[k ->]|Hx].
    + rewrite <- app_assoc. rewrite (walk_root st' root F T' p f) by (done || by rewrite HTk).
      cbn [hw_walk app]. change (pml_get (taddr st' f) i st') with (ent st' f i).
      unfold st' at 1 2 3 4. rewrite ent_write_same by done. rewrite Hpr. simpl negb. cbv iota.
      destruct k as [|? ?]; [done|]. destruct Hlf as [->|Hl]; [by destruct p|].
      rewrite !length_app in Hr. simpl in Hr. lia.
    + destruct Hroot as (f0 & Hf0 & Hroot). rewrite Hroot. rewrite <- (taddr_keep st st') at 1 by done.
      refine (walk_agree st st' root F T F T' p i Ht Ht' eq_refl _ HTk r [] f0 Hf0 Hr Hix Hx).
      intros. by eapply Hsame.
  - intros q j Hne Hq g Hlq Hj Hg1 Hg2. apply HTs in Hg1 as [Hg1 Hnq]. rewrite (Hsame q) by done. apply Hq; try done.
    rewrite <- HTk; [done|]. intros [[-> ->]|?]%snoc_prefix; done.
Qed.

(** ** The lock *)

Lemma hw_walk_ext st st' l tbl r :
  v_mem st' = v_mem st -> v_offset st' = v_offset st -> hw_walk st' l tbl r = hw_walk st l tbl r.
Proof.
  intros Hm Ho. revert l tbl. induction r as [|i r IH]; intros l tbl; [done|]. cbn [hw_walk].
  unfold pml_get, next_table. rewrite Hm, Ho. by destruct r; [|rewrite IH].
Qed.

Lemma ent_ext st st' f i : v_mem st' = v_mem st -> v_offset st' = v_offset st -> ent st' f i = ent st f i.
Proof. intros Hm Ho. unfold ent, pml_get, taddr. by rewrite Hm, Ho. Qed.

Lemma not_leaf_ext st st' T q j :
  v_mem st' = v_mem st -> v_offset st' = v_offset st -> not_leaf st T q j -> not_leaf st' T q j.
Proof. intros Hm Ho Hq f Hl Hj Hf Hn. rewrite (ent_ext st st') by done. by apply Hq. Qed.

Lemma tables_ok_flush st root F T : tables_ok st root F T -> tables_ok (tlb_flush st) root F T.
Proof. intros []. by split. Qed.

Lemma tables_ok_lock st root F T b l : tables_ok st root F T -> tables_ok (set_v_lock b l st) root F T.
Proof. intros []. split; try done. by apply pa_irq. Qed.

Lemma tables_ok_unlock st root F T b l : tables_ok (set_v_lock b l st) root F T -> tables_ok st root F T.
Proof.
  intros Ht. apply (tables_ok_lock _ _ _ _ (mm_IF (v_mm st)) (v_lock st)) in Ht. by destruct st as [[] ? ? ? ? ? ? ? ?].
Qed.

Lemma map_lock_ret st :
  unlocked (v_lock st) -> map_lock st = Ret (set_v_lock false (mk_spinlock 1 (mm_IF (v_mm st))) st).
Proof. intros Hu. unfold map_lock. by rewrite (Seq.spin_lock_global_ret _ _ Hu). Qed.

(** After [map_lock], some work and [map_unlock] lock and interrupt flag are as before. *)
Lemma map_unlock_ret st st1 :
  vkeep (set_v_lock false (mk_spinlock 1 (mm_IF (v_mm st))) st) st1 ->
  map_unlock st1 = set_v_lock (mm_IF (v_mm st)) (mk_spinlock 0 (mm_IF (v_mm st))) st1.
Proof.
  intros [Hc HIF Hl Ho _]. unfold map_unlock. rewrite Hl, HIF. simpl. by destruct (mm_IF (v_mm st)).
Qed.

Record vdone (st st' : vmm) : Prop := {
  vd_count : mm_pages_count (v_mm st') = mm_pages_count (v_mm st);
  vd_IF : mm_IF (v_mm st') = mm_IF (v_mm st);
  vd_lock : unlocked (v_lock st');
  vd_off : v_offset st' = v_offset st;
  vd_pml4 : v_kernel_pml4 st' = v_kernel_pml4 st;
  vd_paw : v_phys_addr_width st' = v_phys_addr_width st
}.

Lemma vdone_trans st1 st2 st3 : vdone st1 st2 -> vdone st2 st3 -> vdone st1 st3.
Proof. intros [] []. split; congruence. Qed.

Lemma vdone_unlock st st1 :
  vkeep (set_v_lock false (mk_spinlock 1 (mm_IF (v_mm st))) st) st1 -> vdone st (map_unlock st1).
Proof. intros Hv. rewrite (map_unlock_ret st st1 Hv). destruct Hv. by split. Qed.

(** ** Addresses and paths *)

Lemma index_ix va : Forall ix (path va).
Proof.
  assert (forall k, 0 <= k -> ix (Z.shiftr (Z.land va (Z.shiftl 0x1ff k)) k)) as Hi.
  { intros k Hk. rewrite Z.shiftr_land, Z.shiftr_shiftl_l, Z.sub_diag, Z.shiftl_0_r by lia.
    change 0x1ff with (Z.ones 9). rewrite Z.land_ones by lia. apply Z.mod_pos_bound. lia. }
  repeat constructor; apply Hi; lia.
Qed.

Lemma path_length va : length (path va) = 4%nat.
Proof. done. Qed.

(** No large page on the way to [va], above the given level. *)
Definition clean (st : vmm) (T : gmap (list Z) Z) (va : Z) : Prop :=
  not_leaf st T [pml4_index va] (pdpt_index va) /\
  not_leaf st T [pml4_index va; pdpt_index va] (pd_index va).

Lemma root_not_leaf st root F T i : tables_ok st root F T -> not_leaf st T [] i.
Proof.
  intros Ht f Hl Hi Hf Hn. pose proof (to_entry _ _ _ _ Ht [] f i Hf Hl Hi) as He. unfold entry_ok in He.
  rewrite Hn in He. by destruct He as [?|[? _]].
Qed.

(** What a mapping function does to the translation: addresses whose path
    starts with [pre] now have the entry [e] of level [l]. *)
Definition remapped (root : Z) (pre : list Z) (l : nat) (e : Z) (st st' : vmm) : Prop :=
  forall va, translation st' root va =
    if decide (pre `prefix_of` path va) then Some (l, e) else translation st root va.

Definition needs (n : Z) (F : gset Z) : Prop := n <= Z.of_nat (size F).

Lemma needs_nonempty n F : 0 < n -> needs n F -> F <> ∅.
Proof. unfold needs. intros Hn HF ->. rewrite size_empty in HF. lia. Qed.

(** ** Down to the table of an address *)

(** From [st0] a walk came to the table at [p] and took at most [n] frames. *)
Definition at_table (st0 : vmm) (root : Z) (F0 : gset Z) (T0 : gmap (list Z) Z) (p : list Z) (n : Z) (x : Z * vmm) : Prop :=
  exists F T f, tables_ok x.2 root F T /\ T !! p = Some f /\ x.1 = taddr x.2 f /\ vkeep st0 x.2 /\
    Z.of_nat (size F0) <= Z.of_nat (size F) + n /\
    (forall r, length r = 4%nat -> Forall ix r -> hw_walk x.2 0 root r = hw_walk st0 0 root r) /\
    (forall q j, not_leaf st0 T0 q j -> not_leaf x.2 T q j).

Lemma at_root st root F T : tables_ok st root F T -> at_table st root F T [] 0 (root, st).
Proof.
  intros Ht. destruct (to_root _ _ _ _ Ht) as (f & Hf & ->). exists F, T, f. split_and!; try done. lia.
Qed.

Lemma at_next st0 root F0 T0 p n ptr st i :
  at_table st0 root F0 T0 p n (ptr, st) -> (length p < 3)%nat -> ix i -> not_leaf st0 T0 p i -> 0 <= n -> needs (n + 1) F0 ->
  returns (force_walk_pagemap_single_lvl ptr i table_flags st) (at_table st0 root F0 T0 (p ++ [i]) (n + 1)).
Proof.
  intros (F & T & f & Ht & Hf & Hptr & Hv & Hsz & Hw & Hnl) Hl Hi Hni Hn Hneed. simpl in *. subst ptr.
  eapply returns_mono; [apply (force_walk_spec st root F T p f i Ht Hf Hl Hi); [by apply Hnl|]|].
  - apply (needs_nonempty 1); unfold needs in *; lia.
  - intros [ptr st'] (F' & T' & f' & Ht' & Hf' & -> & Hv' & Hsz' & Hw' & Hnl'). exists F', T', f'. simpl.
    split_and!; try done; [by etrans|lia| |by auto]. intros r Hr Hix. rewrite Hw' by done. auto.
Qed.

(** The last step: write the entry, release the lock. *)
Lemma at_leaf st root F T p n ptr st1 i e :
  at_table (set_v_lock false (mk_spinlock 1 (mm_IF (v_mm st))) st) root F T p n (ptr, st1) ->
  ix i -> 0 <= e < 2 ^ 64 -> present e = true -> p <> [] -> large e = true \/ length p = 3%nat ->
  let st' := map_unlock (tlb_flush (pml_set ptr i e st1)) in
  exists F' T', tables_ok st' root F' T' /\ vdone st st' /\ Z.of_nat (size F) <= Z.of_nat (size F') + n /\
    remapped root (p ++ [i]) (length p) e st st' /\
    (forall q j, (q, j) <> (p, i) -> not_leaf st T q j -> not_leaf st' T' q j).
Proof.
  intros (F1 & T1 & f & Ht & Hf & Hptr & Hv & Hsz & Hw & Hnl) Hi He Hpr Hpn Hlf st'. simpl in *. subst ptr.
  destruct (leaf_write st1 root F1 T1 p f i e Ht Hf Hi He Hpr Hpn Hlf) as (Ht2 & Hw2 & Hnl2).
  set (st2 := pml_set _ _ _ _) in *.
  assert (vkeep (set_v_lock false (mk_spinlock 1 (mm_IF (v_mm st))) st) (tlb_flush st2)) as Hv2 by (destruct Hv; by split).
  exists F1, (filter (fun x => ~ (p ++ [i]) `prefix_of` x.1) T1).
  assert (st' = set_v_lock (mm_IF (v_mm st)) (mk_spinlock 0 (mm_IF (v_mm st))) (tlb_flush st2)) as Hst' by (by apply map_unlock_ret).
  split; [rewrite Hst'; by apply tables_ok_lock, tables_ok_flush|].
  split; [by apply vdone_unlock|]. split; [done|]. split.
  - intros va. unfold translation. rewrite (hw_walk_ext st2 st') by (by rewrite Hst').
    rewrite Hw2 by (done || apply index_ix). destruct (decide _); [done|]. rewrite Hw by (done || apply index_ix). by apply hw_walk_ext.
  - intros q j Hne Hq. apply (not_leaf_ext st2); [by rewrite Hst'..|].
    apply (Hnl2 q j Hne), Hnl. by apply (not_leaf_ext st).
Qed.

(** ** Single pages *)

Lemma present_lor e fl : present fl = true -> present (Z.lor e fl) = true.
Proof.
  unfold present, PM_COMMON_PRESENT. rewrite !tst_bit, Z.lor_spec by lia. intros ->. apply orb_true_r.
Qed.

Lemma large_lor e : large (Z.lor e PDXX_COMMON_PS) = true.
Proof. unfold large, PDXX_COMMON_PS. rewrite tst_bit, Z.lor_spec by lia. apply orb_true_r. Qed.

Lemma present_lor_l e fl : present e = true -> present (Z.lor e fl) = true.
Proof. rewrite Z.lor_comm. apply present_lor. Qed.

(** The state after a mapping function, in all the ways the others need. *)
Record mapped (root : Z) (F : gset Z) (T : gmap (list Z) Z) (p : list Z) (i e : Z) (st st' : vmm)
    (F' : gset Z) (T' : gmap (list Z) Z) : Prop := {
  md_ok : tables_ok st' root F' T';
  md_done : vdone st st';
  md_used : Z.of_nat (size F) <= Z.of_nat (size F') + Z.of_nat (length p);
  md_walk : remapped root (p ++ [i]) (length p) e st st';
  md_clean : forall q j, (q, j) <> (p, i) -> not_leaf st T q j -> not_leaf st' T' q j
}.

Section Single.
Context (st : vmm) (root : Z) (F : gset Z) (T : gmap (list Z) Z) (va pa flags : Z).
Hypothesis (Ht : tables_ok st root F T) (Hu : unlocked (v_lock st)).
Hypothesis (Hpa : 0 <= pa < 2 ^ 64) (Hfl : 0 <= flags < 2 ^ 64) (Hpr : present flags = true).

Let st1 := set_v_lock false (mk_spinlock 1 (mm_IF (v_mm st))) st.

Lemma start_walk : at_table st1 root F T [] 0 (root, st1).
Proof. by apply at_root, tables_ok_lock. Qed.

Lemma leaf_range : 0 <= Z.lor pa flags < 2 ^ 64 /\ 0 <= Z.lor (Z.lor pa flags) PDXX_COMMON_PS < 2 ^ 64.
Proof.
  assert (0 <= Z.lor pa flags < 2 ^ 64) by (apply lor_range; lia). split; [done|].
  apply lor_range; [lia|done|by vm_compute].
Qed.

Lemma nl st2 p i : not_leaf st T p i -> st2 = st1 -> not_leaf st2 T p i.
Proof. intros Hn ->. by apply (not_leaf_ext st). Qed.

Lemma map_1g_spec :
  (2 ^ 30 | pa) -> (2 ^ 30 | va) -> needs 1 F ->
  returns (mmu_map_single_page_1g root va pa flags st) (fun st' => exists F' T',
    mapped root F T [pml4_index va] (pdpt_index va) (Z.lor (Z.lor pa flags) PDXX_COMMON_PS) st st' F' T').
Proof.
  intros Hpd Hvd Hn. unfold mmu_map_single_page_1g.
  change 0x3fffffff with (2 ^ 30 - 1). rewrite !tst_aligned by (done || lia). simpl orb. cbv iota.
  mpure (map_lock_ret st Hu). fold st1. pose proof (index_ix va) as Hix. unfold path in Hix. rewrite !Forall_cons in Hix.
  destruct Hix as (H0 & H1 & H2 & H3 & _).
  mcall (at_next st1 root F T [] 0 root st1 (pml4_index va) start_walk); [simpl; lia|done| |lia|done|].
  { eapply root_not_leaf. by apply tables_ok_lock. }
  intros [ptr st2] Hat. cbv beta iota zeta. destruct leaf_range as [_ Hr].
  destruct (at_leaf st root F T _ _ ptr st2 (pdpt_index va) _ Hat H1 Hr) as (F' & T' & ? & ? & ? & ? & ?);
    [by apply present_lor_l, present_lor|done|left; apply large_lor|].
  exists F', T'. by split.
Qed.

Lemma map_2m_spec :
  (2 ^ 21 | pa) -> (2 ^ 21 | va) -> needs 2 F -> not_leaf st T [pml4_index va] (pdpt_index va) ->
  returns (mmu_map_single_page_2m root va pa flags st) (fun st' => exists F' T',
    mapped root F T [pml4_index va; pdpt_index va] (pd_index va) (Z.lor (Z.lor pa flags) PDXX_COMMON_PS) st st' F' T').
Proof.
  intros Hpd Hvd Hn Hc1. unfold mmu_map_single_page_2m.
  change 0x1fffff with (2 ^ 21 - 1). rewrite !tst_aligned by (done || lia). simpl orb. cbv iota.
  mpure (map_lock_ret st Hu). fold st1. pose proof (index_ix va) as Hix. unfold path in Hix. rewrite !Forall_cons in Hix.
  destruct Hix as (H0 & H1 & H2 & H3 & _). unfold needs in *.
  mcall (at_next st1 root F T [] 0 root st1 (pml4_index va) start_walk); [simpl; lia|done| |lia|unfold needs; lia|].
  { eapply root_not_leaf. by apply tables_ok_lock. }
  intros [ptr st2] Hat. cbv beta iota zeta.
  mcall (at_next st1 root F T _ _ ptr st2 (pdpt_index va) Hat); [simpl; lia|done|by apply nl|lia|unfold needs; lia|].
  intros [ptr3 st3] Hat3. cbv beta iota zeta. destruct leaf_range as [_ Hr].
  destruct (at_leaf st root F T _ _ ptr3 st3 (pd_index va) _ Hat3 H2 Hr) as (F' & T' & ? & ? & ? & ? & ?);
    [by apply present_lor_l, present_lor|done|left; apply large_lor|].
  exists F', T'. by split.
Qed.

Lemma map_4k_spec :
  (2 ^ 12 | pa) -> (2 ^ 12 | va) -> needs 3 F -> clean st T va ->
  returns (mmu_map_single_page_4k root va pa flags st) (fun st' => exists F' T',
    mapped root F T [pml4_index va; pdpt_index va; pd_index va] (pt_index va) (Z.lor pa flags) st st' F' T').
Proof.
  intros Hpd Hvd Hn [Hc1 Hc2]. unfold mmu_map_single_page_4k.
  change 0xfff with (2 ^ 12 - 1). rewrite !tst_aligned by (done || lia). simpl orb. cbv iota.
  mpure (map_lock_ret st Hu). fold st1. pose proof (index_ix va) as Hix. unfold path in Hix. rewrite !Forall_cons in Hix.
  destruct Hix as (H0 & H1 & H2 & H3 & _). unfold needs in *.
  mcall (at_next st1 root F T [] 0 root st1 (pml4_index va) start_walk); [simpl; lia|done| |lia|unfold needs; lia|].
  { eapply root_not_leaf. by apply tables_ok_lock. }
  intros [ptr st2] Hat. cbv beta iota zeta.
  mcall (at_next st1 root F T _ _ ptr st2 (pdpt_index va) Hat); [simpl; lia|done|by apply nl|lia|unfold needs; lia|].
  intros [ptr3 st3] Hat3. cbv beta iota zeta.
  mcall (at_next st1 root F T _ _ ptr3 st3 (pd_index va) Hat3); [simpl; lia|done|by apply nl|lia|unfold needs; lia|].
  intros [ptr4 st4] Hat4. cbv beta iota zeta. destruct leaf_range as [Hr _].
  destruct (at_leaf st root F T _ _ ptr4 st4 (pt_index va) _ Hat4 H3 Hr) as (F' & T' & ? & ? & ? & ? & ?);
    [by apply present_lor|done|by right|].
  exists F', T'. by split.
Qed.

End Single.

End MmuProof.
