(* ===== verification/MmuRange.v ===== *)
(** * Ranges of addresses

    From paths of table indices to addresses, and what
    [mmu_map_range_linear] (kernel/src/arch/x86-64/mmu.c) makes of the
    translation. *)

From stdpp Require Import gmap sets.
From S2P Require Import Prelude Macros Locking Dll Mem FrameHdr Blocks FrameAlloc BuddyRep BuddyProof PageIface Mmu MmuRep MmuProof.

Module MmuRange.
Import Macros Locking Mem FrameHdr Blocks FrameAlloc BuddyRep BuddyProof PageIface Mmu MmuRep MmuProof.

(** ** Pages of an address *)

(** The page of size [2^k] an address lies in; the tables see 48 bits. *)
Definition page_no (k va : Z) : Z := (va / 2 ^ k) mod 2 ^ (48 - k).

Definition psize (l : nat) : Z := match l with 1%nat => 30 | 2%nat => 21 | _ => 12 end.

Lemma index_div va k : 0 <= k -> Z.shiftr (Z.land va (Z.shiftl 0x1ff k)) k = (va / 2 ^ k) mod 512.
Proof.
  intros Hk. rewrite Z.shiftr_land, Z.shiftr_shiftl_l, Z.sub_diag, Z.shiftl_0_r by lia.
  change 0x1ff with (Z.ones 9). rewrite Z.land_ones, Z.shiftr_div_pow2 by lia. done.
Qed.

(** One more table index is nine more bits. *)
Lemma page_no_step k va : 12 <= k <= 30 -> page_no k va = (va / 2 ^ k) mod 512 + 512 * page_no (k + 9) va.
Proof.
  intros Hk. unfold page_no. replace (48 - k) with (9 + (48 - (k + 9))) by lia. rewrite Z.pow_add_r by lia.
  change (2 ^ 9) with 512. rewrite Z.rem_mul_r by (try apply Z.pow_pos_nonneg; lia). f_equal. f_equal. f_equal.
  rewrite Z.div_div by (try apply Z.pow_pos_nonneg; lia). f_equal. change 512 with (2 ^ 9). by rewrite <- Z.pow_add_r by lia.
Qed.

Lemma page_no_eq k va va' : 12 <= k <= 30 ->
  page_no k va = page_no k va' <-> (va / 2 ^ k) mod 512 = (va' / 2 ^ k) mod 512 /\ page_no (k + 9) va = page_no (k + 9) va'.
Proof.
  intros Hk. rewrite !(page_no_step k) by done. pose proof (Z.mod_pos_bound (va / 2 ^ k) 512).
  pose proof (Z.mod_pos_bound (va' / 2 ^ k) 512). lia.
Qed.

Lemma page_no_top va : page_no 39 va = pml4_index va.
Proof. unfold page_no, pml4_index. by rewrite index_div by lia. Qed.

Lemma prefix_1g va va' : [pml4_index va; pdpt_index va] `prefix_of` path va' <-> page_no 30 va' = page_no 30 va.
Proof.
  rewrite page_no_eq by lia. change (30 + 9) with 39. rewrite !page_no_top. rewrite <- !index_div by lia.
  unfold path, pdpt_index. split.
  - intros [k [= -> -> _]]. done.
  - intros [-> ->]. by eexists.
Qed.

Lemma prefix_2m va va' : [pml4_index va; pdpt_index va; pd_index va] `prefix_of` path va' <-> page_no 21 va' = page_no 21 va.
Proof.
  rewrite page_no_eq by lia. change (21 + 9) with 30. rewrite <- prefix_1g, <- !index_div by lia. unfold path, pd_index. split.
  - intros [k [= -> -> -> _]]. split; [done|]. by eexists.
  - intros [-> [k [= -> ->]]]. by eexists.
Qed.

Lemma prefix_4k va va' :
  [pml4_index va; pdpt_index va; pd_index va; pt_index va] `prefix_of` path va' <-> page_no 12 va' = page_no 12 va.
Proof.
  rewrite page_no_eq by lia. change (12 + 9) with 21. rewrite <- prefix_2m, <- !index_div by lia. unfold path, pt_index. split.
  - intros [k [= -> -> -> ->]]. split; [done|]. by eexists.
  - intros [-> [k [= -> -> ->]]]. by eexists.
Qed.

(** Addresses of one aligned page. *)
Lemma page_no_aligned k va x :
  12 <= k <= 30 -> (2 ^ k | va) -> 0 <= x - va < 2 ^ k -> page_no k x = page_no k va.
Proof.
  intros Hk [q ->] Hx. unfold page_no. f_equal. pose proof (pow2_pos k ltac:(lia)).
  rewrite Z.div_mul by lia. symmetry. apply (Z.div_unique_pos _ _ _ (x - q * 2 ^ k)); lia.
Qed.

(** Addresses less than 2^48 apart share a page only if they do literally. *)
Lemma page_no_near k a b : 12 <= k <= 30 -> page_no k a = page_no k b -> - 2 ^ 48 < a / 2 ^ k * 2 ^ k - b / 2 ^ k * 2 ^ k < 2 ^ 48 ->
  a / 2 ^ k = b / 2 ^ k.
Proof.
  intros Hk He Hd. unfold page_no in He. assert ((a / 2 ^ k - b / 2 ^ k) mod 2 ^ (48 - k) = 0) as Hm.
  { rewrite Zminus_mod, He, Z.sub_diag. apply Z.mod_0_l. pose proof (pow2_pos (48 - k)). lia. }
  apply Z.mod_divide in Hm as [c Hc]; [|pose proof (pow2_pos (48 - k)); lia].
  assert ((a / 2 ^ k - b / 2 ^ k) * 2 ^ k = c * 2 ^ 48) as Hc'.
  { rewrite Hc, <- Z.mul_assoc, <- Z.pow_add_r by lia. do 2 f_equal. lia. }
  assert (c = 0) by nia. subst c. lia.
Qed.

Lemma page_no_shift k a c : 12 <= k <= 30 -> page_no k (a + c * 2 ^ 48) = page_no k a.
Proof.
  intros Hk. unfold page_no. replace (c * 2 ^ 48) with (c * 2 ^ (48 - k) * 2 ^ k) by (rewrite <- Z.mul_assoc, <- Z.pow_add_r by lia; do 2 f_equal; lia).
  rewrite Z.div_add by (pose proof (pow2_pos k); lia). apply Z.mod_add. pose proof (pow2_pos (48 - k)). lia.
Qed.

(** An address in a large page is in the small page at its offset there. *)
Lemma page_no_inner k a va :
  12 <= k <= 30 -> (2 ^ k | a) -> page_no k va = page_no k a -> page_no 12 va = page_no 12 (a + va mod 2 ^ k).
Proof.
  intros Hk [q ->] He. unfold page_no in He. pose proof (pow2_pos k ltac:(lia)).
  rewrite Z.div_mul in He by lia. assert ((va / 2 ^ k - q) mod 2 ^ (48 - k) = 0) as Hm.
  { rewrite Zminus_mod, He, Z.sub_diag. apply Z.mod_0_l. pose proof (pow2_pos (48 - k)). lia. }
  apply Z.mod_divide in Hm as [c Hc]; [|pose proof (pow2_pos (48 - k)); lia].
  rewrite <- (page_no_shift 12 (q * 2 ^ k + va mod 2 ^ k) c) by lia. f_equal.
  assert (c * 2 ^ 48 = c * 2 ^ (48 - k) * 2 ^ k) as -> by (rewrite <- Z.mul_assoc, <- Z.pow_add_r by lia; do 2 f_equal; lia).
  rewrite <- Hc. pose proof (Z.div_mod va (2 ^ k)). lia.
Qed.

(** ** Physical addresses *)

(** The address the processor makes of an entry. *)
Definition hw_phys (l : nat) (e va : Z) : Z := Z.land e (field (psize l) 52) + va mod 2 ^ psize l.
Definition phys_of (st : vmm) (root va : Z) : option Z := (fun x => hw_phys x.1 x.2 va) <$> translation st root va.

(** Other pages stay clean. *)
Lemma clean_mapped root F T p i e st st' F' T' va :
  mapped root F T p i e st st' F' T' -> clean st T va -> ~ (p ++ [i]) `prefix_of` path va -> clean st' T' va.
Proof.
  intros Hm [H1 H2] Hn. split; apply (md_clean _ _ _ _ _ _ _ _ _ _ Hm); try done; intros [= <- <-]; apply Hn; by eexists.
Qed.

Section Range.
Context (st0 : vmm) (root : Z) (F0 : gset Z) (off pbase limit : Z).
Hypothesis (Hp0 : 0 <= pbase) (Hlim : limit <= 2 ^ 52) (Hlen : limit - pbase <= 2 ^ 47) (Hoff : 0 <= off).
Hypothesis (Htop : off + limit <= 2 ^ 64) (Hoal : (2 ^ 30 | off)).

(** After mapping [pbase .. lo) with [c] pages. *)
Definition range_inv (lo c : Z) (st : vmm) : Prop := exists F T,
  tables_ok st root F T /\ vdone st0 st /\ Z.of_nat (size F0) <= Z.of_nat (size F) + 3 * c /\
  (forall x, pbase <= x < lo -> phys_of st root (off + x) = Some x) /\
  (forall va, (forall x, pbase <= x < lo -> page_no 12 va <> page_no 12 (off + x)) ->
     translation st root va = translation st0 root va) /\
  (forall x, lo <= x < limit -> clean st T (off + x)).

(** Mapped addresses of the range are in different pages. *)
Lemma range_apart k lo x y :
  12 <= k <= 30 -> (2 ^ k | lo) -> pbase <= lo -> lo <= x < limit -> x < lo + 2 ^ k ->
  pbase <= y < lo \/ lo + 2 ^ k <= y < limit -> page_no k (off + y) <> page_no k (off + x).
Proof.
  intros Hk Hd Hlo Hx Hx' Hy He. assert (2 ^ k | off) as Ho by (apply (Z.divide_trans _ (2 ^ 30)); [apply pow2_divide; lia|exact Hoal]).
  pose proof (pow2_pos k ltac:(lia)). apply page_no_near in He; [|lia|].
  - destruct Hd as [q ->], Ho as [o ->]. rewrite !(Z.add_comm (o * 2 ^ k)), !Z.div_add in He by lia.
    assert (x / 2 ^ k = q) as Hxq by (symmetry; apply (Z.div_unique_pos _ _ _ (x - q * 2 ^ k)); lia).
    assert (y / 2 ^ k = q) as Hyq by lia. pose proof (Z.div_mod y (2 ^ k)) as Hm. rewrite Hyq in Hm.
    pose proof (Z.mod_pos_bound y (2 ^ k)). lia.
  - pose proof (Z.div_mod (off + x) (2 ^ k)). pose proof (Z.mod_pos_bound (off + x) (2 ^ k)).
    pose proof (Z.div_mod (off + y) (2 ^ k)). pose proof (Z.mod_pos_bound (off + y) (2 ^ k)).
    assert (2 ^ k <= 2 ^ 30) by (apply Z.pow_le_mono_r; lia). lia.
Qed.

(** One more page. *)
Lemma range_step lo c st F T l k p i e st' F' T' :
  pbase <= lo -> lo + 2 ^ k <= limit -> (2 ^ k | lo) -> 12 <= k <= 30 -> psize l = k -> length p = l -> (l <= 3)%nat ->
  (forall va, (p ++ [i]) `prefix_of` path va <-> page_no k va = page_no k (off + lo)) ->
  Z.land e (field k 52) = lo ->
  tables_ok st root F T -> vdone st0 st -> Z.of_nat (size F0) <= Z.of_nat (size F) + 3 * c ->
  (forall x, pbase <= x < lo -> phys_of st root (off + x) = Some x) ->
  (forall va, (forall x, pbase <= x < lo -> page_no 12 va <> page_no 12 (off + x)) ->
     translation st root va = translation st0 root va) ->
  (forall x, lo <= x < limit -> clean st T (off + x)) ->
  mapped root F T p i e st st' F' T' -> range_inv (lo + 2 ^ k) (c + 1) st'.
Proof.
  intros Hlo Hle Hd Hk Hl Hlp Hl3 Hpre He Ht Hvd Hsz Hph Htr Hcl Hm. pose proof Hm as [Ht' Hvd' Hsz' Hw _].
  pose proof (pow2_pos k ltac:(lia)) as H2k.
  assert (2 ^ k | off) as Ho by (apply (Z.divide_trans _ (2 ^ 30)); [apply pow2_divide; lia|exact Hoal]).
  assert (2 ^ k | off + lo) as Hol by (by apply Z.divide_add_r).
  exists F', T'. split; [done|]. split; [by eapply vdone_trans|]. split; [lia|]. split; [|split].
  - intros x Hx. unfold phys_of. rewrite Hw. destruct (decide (x < lo)) as [Hx'|Hx'].
    + rewrite decide_False; [apply Hph; lia|]. rewrite Hpre. apply (range_apart k lo); try done; lia.
    + rewrite decide_True; [|apply Hpre; apply page_no_aligned; lia || done]. simpl. f_equal. unfold hw_phys.
      rewrite Hlp, Hl, He. destruct Hol as [q Hq]. replace (off + x) with (x - lo + q * 2 ^ k) by lia.
      rewrite Z.mod_add, Z.mod_small by lia. lia.
  - intros va Hva. rewrite Hw. rewrite decide_False; [apply Htr; intros x Hx; apply Hva; lia|]. rewrite Hpre. intros Heq.
    apply (Hva (lo + va mod 2 ^ k)); [pose proof (Z.mod_pos_bound va (2 ^ k)); lia|].
    rewrite (page_no_inner k (off + lo)) by done. f_equal. lia.
  - intros x Hx. apply (clean_mapped _ _ _ _ _ _ _ _ _ _ _ Hm); [apply Hcl; lia|]. rewrite Hpre.
    apply (range_apart k lo); try done; lia.
Qed.

(** The mapping calls of the loops. *)
Context (N : Z).
Hypothesis (Hn : needs (3 * N) F0) (Hu0 : unlocked (v_lock st0)).

Definition steps (k : Z) (f : Z -> vmm -> outcome vmm) : Prop := forall lo c st,
  pbase <= lo -> lo + 2 ^ k <= limit -> (2 ^ k | lo) -> c + 1 <= N -> range_inv lo c st ->
  returns (f lo st) (range_inv (lo + 2 ^ k) (c + 1)).

Definition plain (k fl : Z) : Prop :=
  0 <= fl < 2 ^ 64 /\ present fl = true /\ forall n, k <= n < 52 -> Z.testbit fl n = false.

Lemma at_lo k lo : 12 <= k <= 30 -> pbase <= lo -> lo + 2 ^ k <= limit -> (2 ^ k | lo) ->
  lo +! off = off + lo /\ (2 ^ k | off + lo) /\ 0 <= lo < 2 ^ 52.
Proof.
  intros Hk Hlo Hle Hd. pose proof (pow2_pos k ltac:(lia)). split; [rewrite u64_small by lia; lia|]. split; [|lia].
  apply Z.divide_add_r; [|done]. apply (Z.divide_trans _ (2 ^ 30)); [apply pow2_divide; lia|exact Hoal].
Qed.

Lemma steps_4k fl : plain 12 fl -> steps 12 (fun lo => mmu_map_single_page_4k root (lo +! off) lo fl).
Proof.
  intros (Hfl & Hpr & Hbits) lo c st Hlo Hle Hd Hc (F & T & Ht & Hvd & Hsz & Hph & Htr & Hcl).
  destruct (at_lo 12 lo) as (-> & Hod & Hr); [lia|done..|]. unfold needs in Hn.
  eapply returns_mono.
  { apply (map_4k_spec st root F T (off + lo) lo fl Ht); try done; [by apply (vd_lock _ _ Hvd)|lia|unfold needs; lia|apply Hcl; lia]. }
  intros st' (F' & T' & Hm). refine (range_step lo c st F T 3 12 _ _ _ st' F' T' _ _ _ _ _ _ _ _ _ Ht Hvd Hsz Hph Htr Hcl Hm); try done; try lia.
  - intros va. apply prefix_4k.
  - apply field_lor; [lia|done|lia|done].
Qed.

Lemma steps_2m fl : plain 21 fl -> steps 21 (fun lo => mmu_map_single_page_2m root (lo +! off) lo fl).
Proof.
  intros (Hfl & Hpr & Hbits) lo c st Hlo Hle Hd Hc (F & T & Ht & Hvd & Hsz & Hph & Htr & Hcl).
  destruct (at_lo 21 lo) as (-> & Hod & Hr); [lia|done..|]. unfold needs in Hn.
  eapply returns_mono.
  { apply (map_2m_spec st root F T (off + lo) lo fl Ht); try done; [by apply (vd_lock _ _ Hvd)|lia|unfold needs; lia|apply Hcl; lia]. }
  intros st' (F' & T' & Hm). refine (range_step lo c st F T 2 21 _ _ _ st' F' T' _ _ _ _ _ _ _ _ _ Ht Hvd Hsz Hph Htr Hcl Hm); try done; try lia.
  - intros va. apply prefix_2m.
  - rewrite <- Z.lor_assoc. apply field_lor; [lia|done|lia|]. intros n Hnb. rewrite Z.lor_spec, Hbits by done.
    change PDXX_COMMON_PS with (2 ^ 7). rewrite Z.pow2_bits_false by lia. done.
Qed.

Lemma steps_1g fl : plain 21 fl -> steps 30 (fun lo => mmu_map_single_page_1g root (lo +! off) lo fl).
Proof.
  intros (Hfl & Hpr & Hbits) lo c st Hlo Hle Hd Hc (F & T & Ht & Hvd & Hsz & Hph & Htr & Hcl).
  destruct (at_lo 30 lo) as (-> & Hod & Hr); [lia|done..|]. unfold needs in Hn.
  eapply returns_mono.
  { apply (map_1g_spec st root F T (off + lo) lo fl Ht); try done; [by apply (vd_lock _ _ Hvd)|lia|unfold needs; lia]. }
  intros st' (F' & T' & Hm). refine (range_step lo c st F T 1 30 _ _ _ st' F' T' _ _ _ _ _ _ _ _ _ Ht Hvd Hsz Hph Htr Hcl Hm); try done; try lia.
  - intros va. apply prefix_1g.
  - rewrite <- Z.lor_assoc. apply field_lor; [lia|done|lia|]. intros n Hnb. rewrite Z.lor_spec, Hbits by lia.
    change PDXX_COMMON_PS with (2 ^ 7). rewrite Z.pow2_bits_false by lia. done.
Qed.

(** A loop maps up to [stop], if that is ahead. *)
Lemma map_loop_spec k f stop : 12 <= k <= 30 -> steps k f -> (2 ^ k | stop) -> stop <= limit -> forall fuel lo c st,
  pbase <= lo <= limit -> (lo < stop -> (2 ^ k | lo)) -> stop - lo <= Z.of_nat fuel * 2 ^ k ->
  c + (Z.max lo stop - lo) / 2 ^ k <= N -> range_inv lo c st ->
  returns (map_loop fuel f (2 ^ k) stop lo st) (fun '(lo', st') =>
    lo' = Z.max lo stop /\ range_inv lo' (c + (lo' - lo) / 2 ^ k) st').
Proof.
  intros Hk Hf Hds Hsl. pose proof (pow2_pos k ltac:(lia)) as H2.
  assert (forall lo c st, stop <= lo -> range_inv lo c st -> lo = Z.max lo stop /\ range_inv lo (c + (lo - lo) / 2 ^ k) st) as Hend.
  { intros lo c st Hge Hi. split; [lia|]. rewrite Z.sub_diag, Z.div_0_l, Z.add_0_r by lia. done. }
  induction fuel as [|fuel IH]; intros lo c st Hlo Hdl Hfu Hc Hi; simpl; (destruct (Z.ltb_spec lo stop) as [Hlt|Hge]; [|by apply Hend]).
  - lia.
  - specialize (Hdl Hlt). assert (lo + 2 ^ k <= stop) as Hfit.
    { clear -Hdl Hds Hlt H2. destruct Hdl as [a ->], Hds as [b ->]. assert (a < b) by nia. nia. }
    assert ((Z.max lo stop - lo) / 2 ^ k = 1 + (Z.max (lo + 2 ^ k) stop - (lo + 2 ^ k)) / 2 ^ k) as Hq.
    { rewrite !Z.max_r by lia. rewrite <- (Z.div_add_l 1) by lia. f_equal. lia. }
    pose proof (Z.div_pos (Z.max (lo + 2 ^ k) stop - (lo + 2 ^ k)) (2 ^ k) ltac:(lia) H2).
    mcall (Hf lo c st); [lia|lia|done|lia|done|]. intros st' Hi'. rewrite u64_small by lia.
    eapply returns_mono; [apply (IH (lo + 2 ^ k) (c + 1)); [lia| |lia|lia|done]|].
    + intros _. apply Z.divide_add_r; [done|]. exists 1. lia.
    + intros [lo' st2] [-> Hi2]. split; [lia|]. rewrite Hq in *.
      replace (c + (Z.max (lo + 2 ^ k) stop - lo) / 2 ^ k) with (c + 1 + (Z.max (lo + 2 ^ k) stop - (lo + 2 ^ k)) / 2 ^ k); [done|].
      rewrite <- Z.add_assoc. f_equal. rewrite <- (Z.div_add_l 1) by lia. f_equal. lia.
Qed.

(** With the rounds the code needs. *)
Lemma round_spec k f stop lo c st : 12 <= k <= 30 -> steps k f -> (2 ^ k | stop) -> stop <= limit ->
  pbase <= lo <= limit -> (lo < stop -> (2 ^ k | lo)) ->
  c + (Z.max lo stop - lo) / 2 ^ k <= N -> range_inv lo c st ->
  returns (map_loop (rounds (2 ^ k) stop lo) f (2 ^ k) stop lo st) (fun '(lo', st') =>
    lo' = Z.max lo stop /\ range_inv lo' (c + (lo' - lo) / 2 ^ k) st').
Proof.
  intros. apply map_loop_spec; try done. clear Htop Hoff Hlen Hoal. unfold rounds. pose proof (pow2_pos k ltac:(lia)).
  pose proof (Z.div_mod (stop - lo) (2 ^ k)). pose proof (Z.mod_pos_bound (stop - lo) (2 ^ k)). nia.
Qed.

Lemma range_inv_mono lo c c' st : c <= c' -> range_inv lo c st -> range_inv lo c' st.
Proof. intros Hc (F & T & ? & ? & ? & ?). exists F, T. do 2 (split; [done|]). split; [lia|done]. Qed.

End Range.
(** ** The whole range *)

Definition range_pages (len : Z) : Z := Z.min (len / 2 ^ 12) (4 * 511 + len / 2 ^ 30).

(** Bits the cache types set are flags. *)
Lemma cache_flags_plain access_flags ct :
  0 <= access_flags < 2 ^ 64 -> (forall n, 12 <= n < 52 -> Z.testbit access_flags n = false) ->
  plain 12 (cache_flags access_flags ct).1 /\ plain 21 (cache_flags access_flags ct).2.
Proof.
  intros Hr Hb.
  assert (forall k fl x, k = 12 \/ k = 21 -> fl = Z.lor access_flags (Z.lor PM_COMMON_PRESENT x) -> 0 <= x < 2 ^ k -> plain k fl) as Hp.
  { intros k fl x Hk -> Hx. assert (2 ^ k <= 2 ^ 21) by (apply Z.pow_le_mono_r; lia).
    split; [apply lor_range; [lia|done|apply lor_range; [lia|done|lia]]|]. split.
    - unfold present. change PM_COMMON_PRESENT with (Z.shiftl 1 0). by rewrite tst_bit, !Z.lor_spec, orb_true_r by lia.
    - intros n Hn. rewrite !Z.lor_spec, Hb, (small_bits x k n) by lia. change PM_COMMON_PRESENT with (2 ^ 0).
      by rewrite Z.pow2_bits_false by lia. }
  destruct ct; simpl; split;
    match goal with |- plain ?k (Z.lor _ ?x) =>
      first [by eapply (Hp k _ 0); [auto|rewrite Z.lor_0_r|] | by eapply (Hp k _ x); [auto|rewrite <- Z.lor_assoc|]] end.
Qed.

(** Linear arithmetic with the page sizes as divisors. *)
Ltac plia :=
  change (2 ^ 12) with 4096 in *; change (2 ^ 21) with 2097152 in *; change (2 ^ 30) with 1073741824 in *;
  Z.to_euclidean_division_equations; lia.

Section MapRange.
Context (st : vmm) (root : Z) (F : gset Z) (T : gmap (list Z) Z) (vbase pbase len access_flags : Z) (ct : memory_cache_type).
Hypothesis (Ht : tables_ok st root F T) (Hu : unlocked (v_lock st)).
Hypothesis (Hpd : (2 ^ 12 | pbase)) (Hvd : (2 ^ 12 | vbase)) (Hld : (2 ^ 12 | len)).
Hypothesis (Hpb : 0 <= pbase <= vbase) (Hoal : (2 ^ 30 | vbase - pbase)).
Hypothesis (Hlen : 0 <= len <= 2 ^ 47) (Hlim : pbase + len <= 2 ^ 52) (Hvb : vbase < 2 ^ 64) (Htop : vbase + len <= 2 ^ 64).
Hypothesis (Hfl : 0 <= access_flags < 2 ^ 64) (Hbits : forall n, 12 <= n < 52 -> Z.testbit access_flags n = false).
Hypothesis (Hn : needs (3 * range_pages len) F) (Hcl : forall i, 0 <= i < len -> clean st T (vbase + i)).

Lemma map_range_spec :
  returns (mmu_map_range_linear root vbase pbase len access_flags ct st)
    (range_inv st root F (vbase - pbase) pbase (pbase + len) (pbase + len) (range_pages len)).
Proof.
  unfold mmu_map_range_linear. change 0xfff with (2 ^ 12 - 1). rewrite !tst_aligned by (done || lia). simpl orb. cbv iota.
  assert (DIFF vbase pbase = vbase - pbase) as -> by (unfold DIFF, MAX, MIN; destruct (Z.gtb_spec vbase pbase), (Z.ltb_spec vbase pbase); rewrite u64_small; lia).
  rewrite (u64_small (pbase + len)) by lia.
  destruct (cache_flags_plain access_flags ct Hfl Hbits) as [Hf1 Hf2].
  destruct (cache_flags access_flags ct) as [fpt fpd]. simpl in Hf1, Hf2.
  set (off := vbase - pbase) in *. set (limit := pbase + len) in *. cbv zeta.
  change 0x1000 with (2 ^ 12). change 0x200000 with (2 ^ 21). change 0x40000000 with (2 ^ 30).
  pose proof (fun x k => ALIGN_UP_bounds x k) as Hup. pose proof (fun x k => ALIGN_DOWN_bounds x k) as Hdn.
  destruct (Hdn limit 12 ltac:(lia) ltac:(lia)) as [Hd12 Hd12'], (Hdn limit 21 ltac:(lia) ltac:(lia)) as [Hd21 Hd21'],
    (Hdn limit 30 ltac:(lia) ltac:(lia)) as [Hd30 Hd30'].
  set (d12 := ALIGN_DOWN limit (2 ^ 12)) in *. set (d21 := ALIGN_DOWN limit (2 ^ 21)) in *. set (d30 := ALIGN_DOWN limit (2 ^ 30)) in *.
  destruct (Hup pbase 21 ltac:(lia) ltac:(lia) ltac:(lia)) as [Hu21 Hu21']. set (u21 := ALIGN_UP pbase (2 ^ 21)) in *.
  assert (d12 = limit) as -> by (destruct Hd12' as [a Ha], Hpd as [b Hb], Hld as [c Hc]; lia).
  assert (range_inv st root F off pbase limit pbase 0 st) as Hi.
  { exists F, T. split; [done|]. split; [by split|]. split; [lia|]. split; [intros x Hx; lia|]. split; [done|].
    intros x Hx. replace (off + x) with (vbase + (x - pbase)) by lia. apply Hcl. lia. }
  assert (forall x y, MIN x y = Z.min x y) as HMIN by (intros; unfold MIN; destruct (Z.ltb_spec x y); lia). rewrite !HMIN.
  pose proof (steps_4k st root F off pbase limit ltac:(lia) ltac:(lia) ltac:(lia) ltac:(lia) ltac:(lia) Hoal _ Hn _ Hf1) as S12.
  pose proof (steps_2m st root F off pbase limit ltac:(lia) ltac:(lia) ltac:(lia) ltac:(lia) ltac:(lia) Hoal _ Hn _ Hf2) as S21.
  pose proof (steps_1g st root F off pbase limit ltac:(lia) ltac:(lia) ltac:(lia) ltac:(lia) ltac:(lia) Hoal _ Hn _ Hf2) as S30.
  unfold range_pages in *. clear Hup Hdn. assert (limit = pbase + len) as Hleq by done. clearbody limit d21 d30 u21.
  destruct Hd21' as [a21 Ha21], Hd30' as [a30 Ha30], Hu21' as [b21 Hb21], Hpd as [ap Hap], Hld as [al Hal].
  mcall (round_spec st root F off pbase limit ltac:(lia) ltac:(lia) _ 12 _ (Z.min u21 limit) pbase 0 st ltac:(lia) S12); [exists (Z.min (b21 * 512) (ap + al)); lia|lia|lia|by eexists|plia|exact Hi|].
  intros [lo1 st1] [Hlo1 Hi1]. rewrite Z.max_r in Hlo1 by lia. cbv beta iota. rewrite ?HMIN.
  destruct (ALIGN_UP_bounds lo1 30 ltac:(lia) ltac:(lia) ltac:(lia)) as [Hu30 [b30 Hb30]].
  set (u30 := ALIGN_UP lo1 (2 ^ 30)) in *. clearbody u30. set (c1 := 0 + _) in Hi1.
  assert (c1 <= 511 /\ c1 * 2 ^ 12 <= lo1 - pbase) as [Hc1 Hm1] by (unfold c1; plia). clearbody c1.
  mcall (round_spec st root F off pbase limit ltac:(lia) ltac:(lia) _ 21 _ (Z.min u30 d21) lo1 c1 st1 ltac:(lia) S21); [exists (Z.min (b30 * 512) a21); lia|lia|lia|exists b21; lia|plia|exact Hi1|].
  intros [lo2 st2] [Hlo2 Hi2]. cbv beta iota. set (c2 := c1 + _) in Hi2.
  assert (c2 <= 2 * 511 /\ c2 * 2 ^ 12 <= lo2 - pbase) as [Hc2 Hm2] by (unfold c2; plia). clearbody c2.
  mcall (round_spec st root F off pbase limit ltac:(lia) ltac:(lia) _ 30 _ d30 lo2 c2 st2 ltac:(lia) S30); [by exists a30|lia|lia|exists b30; lia|plia|exact Hi2|].
  intros [lo3 st3] [Hlo3 Hi3]. cbv beta iota. set (c3 := c2 + _) in Hi3.
  assert (c3 <= 2 * 511 + len / 2 ^ 30 /\ c3 * 2 ^ 12 <= lo3 - pbase) as [Hc3 Hm3] by (unfold c3; plia). clearbody c3.
  mcall (round_spec st root F off pbase limit ltac:(lia) ltac:(lia) _ 21 _ d21 lo3 c3 st3 ltac:(lia) S21); [by exists a21|lia|lia| |plia|exact Hi3|].
  { intros Hlt. exists (Z.max (Z.max (Z.min b21 (lo1 / 2 ^ 21)) (Z.min (b30 * 512) a21)) (a30 * 512)). plia. }
  intros [lo4 st4] [Hlo4 Hi4]. cbv beta iota. set (c4 := c3 + _) in Hi4.
  assert (c4 <= 3 * 511 + len / 2 ^ 30 /\ c4 * 2 ^ 12 <= lo4 - pbase) as [Hc4 Hm4] by (unfold c4; plia). clearbody c4.
  mcall (round_spec st root F off pbase limit ltac:(lia) ltac:(lia) _ 12 _ limit lo4 c4 st4 ltac:(lia) S12); [done|lia|lia| |plia|exact Hi4|].
  { intros Hlt. exists (lo4 / 2 ^ 12). plia. }
  intros [lo5 st5] [Hlo5 Hi5]. cbv beta iota. assert (lo5 = limit) as -> by lia. eapply range_inv_mono, Hi5. plia.
Qed.

End MapRange.
End MmuRange.
