(* ===== verification/MmuTheorems.v ===== *)
(** * The page tables: theorems

    Mapping a range, looking an address up, and what the two mean to each
    other, for kernel/src/arch/x86-64/mmu.c. *)

From stdpp Require Import gmap sets.
From S2P Require Import Prelude Macros Locking Dll Mem FrameHdr Blocks FrameAlloc BuddyRep BuddyProof BuddyTheorems PageIface Mmu MmuRep MmuProof MmuRange.

Module MmuTheorems.
Import Macros Locking Mem FrameHdr Blocks FrameAlloc BuddyRep BuddyProof PageIface Mmu MmuRep MmuProof MmuRange.

(** ** The software walk *)

Lemma taddr_nonzero st root F T p f : tables_ok st root F T -> T !! p = Some f -> taddr st f <> 0.
Proof. intros Ht Hp. destruct (to_off _ _ _ _ Ht), (to_frame _ _ _ _ Ht _ _ Hp). unfold taddr, PAGE_SIZE. lia. Qed.

Lemma attempt_child st root F T p f i g :
  tables_ok st root F T -> T !! p = Some f -> (length p < 3)%nat -> ix i -> T !! (p ++ [i]) = Some g ->
  attempt_walk_pagemap_single_lvl (taddr st f) i st = taddr st g /\ taddr st g <> 0 /\
  tst (ent st f i) PDXX_COMMON_PS = false.
Proof.
  intros Ht Hp Hl Hi Hg. pose proof (to_entry _ _ _ _ Ht p f i Hp Hl Hi) as He.
  pose proof (next_table_child _ _ _ _ _ _ _ _ _ Ht Hp Hg He) as Hn. unfold entry_ok in He. rewrite Hg in He.
  destruct He as (Hpr & Hla & _). unfold attempt_walk_pagemap_single_lvl. fold (ent st f i). unfold present in Hpr. rewrite Hpr.
  split; [done|]. split; [|done]. by eapply taddr_nonzero.
Qed.

Lemma attempt_none st root F T p f i :
  tables_ok st root F T -> T !! p = Some f -> (length p < 3)%nat -> ix i -> T !! (p ++ [i]) = None ->
  (ent st f i = 0 /\ attempt_walk_pagemap_single_lvl (taddr st f) i st = 0) \/
  (p <> [] /\ ent st f i <> 0 /\ tst (ent st f i) PDXX_COMMON_PS = true).
Proof.
  intros Ht Hp Hl Hi Hg. pose proof (to_entry _ _ _ _ Ht p f i Hp Hl Hi) as He. unfold entry_ok in He. rewrite Hg in He.
  destruct He as [He|(Hn & Hpr & Hla)].
  - left. split; [done|]. unfold attempt_walk_pagemap_single_lvl. fold (ent st f i). by rewrite He.
  - right. split; [done|]. split; [|done]. intros Hz. by rewrite Hz in Hpr.
Qed.

(** What the walk returns for a translation. *)
Definition found (st : vmm) (t : option (nat * Z)) (r : Z * Z * Z) : Prop :=
  match t with
  | Some (l, e) => exists tbl i, r = (tbl, Z.of_nat l, i) /\ tbl <> 0 /\ pml_get tbl i st = e /\ (1 <= l <= 3)%nat
  | None => r.1.1 = 0
  end.

Section Walk.
Context (st : vmm) (root : Z) (F : gset Z) (T : gmap (list Z) Z) (va idx0 : Z).
Hypothesis (Ht : tables_ok st root F T) (Hu : unlocked (v_lock st)).

Let st1 := set_v_lock false (mk_spinlock 1 (mm_IF (v_mm st))) st.

(** Cases of one level: a table below, a large page, nothing. *)
Lemma level p f i ixs (Hp : T !! p = Some f) (Hl : (length p < 3)%nat) (Hi : ix i) (Hne : ixs <> []) :
  let t := hw_walk st1 (length p) (taddr st1 f) (i :: ixs) in
  let nxt := attempt_walk_pagemap_single_lvl (taddr st1 f) i st1 in
  (exists g, T !! (p ++ [i]) = Some g /\ nxt = taddr st1 g /\ (nxt =? 0) = false /\ tst (pml_get (taddr st1 f) i st1) PDXX_COMMON_PS = false /\
     t = hw_walk st1 (S (length p)) (taddr st1 g) ixs) \/
  (p <> [] /\ tst (pml_get (taddr st1 f) i st1) PDXX_COMMON_PS = true /\ t = Some (length p, pml_get (taddr st1 f) i st1)) \/
  (nxt = 0 /\ tst (pml_get (taddr st1 f) i st1) PDXX_COMMON_PS = false /\ t = None).
Proof.
  intros t nxt. assert (tables_ok st1 root F T) as Ht1 by (by apply tables_ok_lock).
  unfold t. rewrite (walk_step st1 root F T) by done. destruct (T !! (p ++ [i])) as [g|] eqn:Hg.
  - left. exists g. destruct (attempt_child st1 root F T p f i g) as (Ha & Hnz & Hps); try done.
    split; [done|]. split; [done|]. unfold nxt. rewrite Ha. split; [by apply Z.eqb_neq|]. done.
  - right. destruct (attempt_none st1 root F T p f i) as [[He Ha]|(Hn & He & Hps)]; try done.
    + right. split; [done|]. rewrite decide_True by done. split; [|done]. fold (ent st1 f i). by rewrite He.
    + left. rewrite decide_False by done. done.
Qed.

Lemma walk_table_spec :
  exists r st', mmu_walk_table root va idx0 st = Ret (r, st') /\ vdone st st' /\ v_mem st' = v_mem st /\
    found st (translation st root va) r.
Proof.
  assert (tables_ok st1 root F T) as Ht1 by (by apply tables_ok_lock).
  pose proof (index_ix va) as Hix. unfold path in Hix. rewrite !Forall_cons in Hix. destruct Hix as (H0 & H1 & H2 & H3 & _).
  destruct (to_root _ _ _ _ Ht1) as (f0 & Hf0 & Hroot).
  assert (vkeep st1 (tlb_flush st1)) as Hfl by done.
  assert (forall r st2, vkeep st1 st2 -> v_mem st2 = v_mem st -> found st (hw_walk st1 0 root (path va)) r ->
    exists r' st', Ret (r, map_unlock st2) = Ret (r', st') /\ vdone st st' /\ v_mem st' = v_mem st /\ found st (translation st root va) r') as Hend.
  { intros r st2 Hk Hm Hf. exists r, (map_unlock st2). split; [done|]. split; [by apply vdone_unlock|].
    split; [by rewrite (map_unlock_ret st)|]. unfold translation. by rewrite <- (hw_walk_ext st st1). }
  unfold mmu_walk_table. rewrite (map_lock_ret st Hu). fold st1. cbn [mbind outcome_bind]. unfold path in Hend.
  rewrite Hroot in Hend |- *. destruct (level [] f0 _ [pdpt_index va; pd_index va; pt_index va] Hf0 ltac:(simpl; lia) H0 ltac:(done))
    as [(g & Hg & -> & -> & _ & Hw)|[(? & _)|(-> & _ & Hw)]]; [|done|]; cbn [length] in Hw; rewrite Hw in Hend; [|by apply Hend].
  destruct (level [pml4_index va] g _ [pd_index va; pt_index va] Hg ltac:(simpl; lia) H1 ltac:(done))
    as [(g2 & Hg2 & -> & -> & -> & Hw2)|[(_ & -> & Hw2)|(-> & -> & Hw2)]]; cbn [length] in Hw2; rewrite Hw2 in Hend; [| |by apply Hend].
  2:{ apply Hend; [done|done|]. exists (taddr st1 g), (pdpt_index va).
      split; [done|]. split; [by eapply taddr_nonzero|]. split; [done|lia]. }
  destruct (level [pml4_index va; pdpt_index va] g2 _ [pt_index va] Hg2 ltac:(simpl; lia) H2 ltac:(done))
    as [(g3 & Hg3 & -> & -> & -> & Hw3)|[(_ & -> & Hw3)|(-> & -> & Hw3)]]; cbn [length] in Hw3; rewrite Hw3 in Hend; [| |by apply Hend].
  2:{ apply Hend; [done|done|]. exists (taddr st1 g2), (pd_index va).
      split; [done|]. split; [by eapply taddr_nonzero|]. split; [done|lia]. }
  cbn [hw_walk] in Hend. unfold present in Hend.
  destruct (tst (pml_get (taddr st1 g3) (pt_index va) st1) PM_COMMON_PRESENT) eqn:Hpr; apply Hend; try done.
  exists (taddr st1 g3), (pt_index va). split; [done|]. split; [by eapply taddr_nonzero|]. split; [done|lia].
Qed.

End Walk.
(** ** Physical addresses from the software walk *)

Lemma phys_mask_field st k :
  0 <= k <= v_phys_addr_width st -> v_phys_addr_width st <= 52 ->
  phys_mask st (2 ^ k - 1) = field k (v_phys_addr_width st).
Proof.
  intros Hk Hw. unfold phys_mask. set (w := v_phys_addr_width st) in *. pose proof (pow2_pos w ltac:(lia)).
  assert (2 ^ w <= 2 ^ 52) by (apply Z.pow_le_mono_r; lia). rewrite Z.shiftl_mul_pow2, Z.mul_1_l by lia.
  rewrite (u64_small (2 ^ w)), (u64_small (2 ^ w - 1)), lnot_mask, land_high_mask by lia.
  unfold field. rewrite Z.shiftl_mul_pow2, Z.mul_comm by lia. f_equal. rewrite Z.ones_equiv, (pow2_split k w) by lia.
  pose proof (pow2_pos k ltac:(lia)). symmetry. apply (Z.div_unique_pos _ _ _ (2 ^ k - 1)); lia.
Qed.

(** The entries' addresses are within the processor's width. *)
Lemma entry_phys st k e va :
  0 <= k <= v_phys_addr_width st -> v_phys_addr_width st <= 52 -> 0 <= Z.land e (field k 52) < 2 ^ v_phys_addr_width st ->
  Z.lor (Z.land e (phys_mask st (2 ^ k - 1))) (Z.land va (2 ^ k - 1)) = Z.land e (field k 52) + va mod 2 ^ k.
Proof.
  intros Hk Hw He. rewrite phys_mask_field by done.
  assert (Z.land e (field k (v_phys_addr_width st)) = Z.land e (field k 52)) as ->.
  { apply Z.bits_inj'. intros n Hn. rewrite !Z.land_spec, !field_bit by lia.
    destruct (Z.ltb_spec n (v_phys_addr_width st)); [by destruct (Z.ltb_spec n 52); [|lia]|].
    pose proof (small_bits _ (v_phys_addr_width st) n ltac:(lia) He) as Hb. rewrite Z.land_spec, field_bit in Hb by lia.
    rewrite Hb. by rewrite !andb_false_r. }
  replace (2 ^ k - 1) with (Z.ones k) by (rewrite Z.ones_equiv; lia). rewrite Z.land_ones by lia.
  assert (Z.land (Z.land e (field k 52)) (va mod 2 ^ k) = 0) as Hd.
  { apply Z.bits_inj'. intros n Hn. rewrite !Z.land_spec, field_bit, Z.bits_0 by lia. destruct (Z.leb_spec k n).
    - rewrite Z.mod_pow2_bits_high by lia. apply andb_false_r.
    - by rewrite andb_false_r. }
  by rewrite <- Z.lxor_lor, <- Z.add_nocarry_lxor by done.
Qed.

(** ** Theorems *)

(** The physical address of [t] fits the width the processor reports. *)
Definition phys_fits (st : vmm) (t : option (nat * Z)) : Prop :=
  match t with Some (l, e) => 0 <= Z.land e (field (psize l) 52) < 2 ^ v_phys_addr_width st | None => True end.

Lemma virt2phys_spec st F T va :
  tables_ok st (v_kernel_pml4 st) F T -> unlocked (v_lock st) -> 30 <= v_phys_addr_width st <= 52 ->
  phys_fits st (translation st (v_kernel_pml4 st) va) ->
  exists st', virt2phys va st = Ret (default 0 (phys_of st (v_kernel_pml4 st) va), st') /\ vdone st st' /\ v_mem st' = v_mem st.
Proof.
  intros Ht Hu Hw Hfit. destruct (walk_table_spec st _ F T va 0 Ht Hu) as ([[tbl d] i] & st' & Hwt & Hd & Hm & Hf).
  exists st'. split; [|done]. unfold virt2phys. rewrite Hwt. cbn [mbind outcome_bind]. unfold phys_of.
  pose proof (vd_paw _ _ Hd) as Hpw. destruct (translation st (v_kernel_pml4 st) va) as [[l e]|]; simpl in *; [|by rewrite Hf].
  destruct Hf as (tbl' & i' & [= -> -> ->] & Hnz & He & Hl). apply Z.eqb_neq in Hnz as ->.
  assert (pml_get tbl' i' st' = e) as -> by (unfold pml_get in *; by rewrite Hm). unfold hw_phys.
  destruct l as [|[|[|[|]]]]; [lia| | | |lia]; simpl; do 2 f_equal.
  - by apply (entry_phys st' 30); rewrite Hpw; [lia..|].
  - by apply (entry_phys st' 21); rewrite Hpw; [lia..|].
  - by apply (entry_phys st' 12); rewrite Hpw; [lia..|].
Qed.

(** C14: [virt2phys] computes what the processor computes: for well-formed
    tables it takes and releases the lock, changes no memory, and returns the
    physical address of the hardware walk of the kernel's tables, with 4 KiB,
    2 MiB and 1 GiB pages alike, and 0 exactly where nothing is mapped. *)
Theorem virt2phys_correct st F T va :
  tables_ok st (v_kernel_pml4 st) F T -> unlocked (v_lock st) -> 30 <= v_phys_addr_width st <= 52 ->
  phys_fits st (translation st (v_kernel_pml4 st) va) ->
  exists st', virt2phys va st = Ret (default 0 (phys_of st (v_kernel_pml4 st) va), st') /\ vdone st st' /\ v_mem st' = v_mem st.
Proof. apply virt2phys_spec. Qed.

(** What a caller of [mmu_map_range_linear] must see to. *)
Record mappable (st : vmm) (root : Z) (F : gset Z) (T : gmap (list Z) Z) (vbase pbase len access_flags : Z) : Prop := {
  mp_tables : tables_ok st root F T;
  mp_unlocked : unlocked (v_lock st);
  mp_pbase : (2 ^ 12 | pbase);
  mp_vbase : (2 ^ 12 | vbase);
  mp_len : (2 ^ 12 | len);
  mp_offset : 0 <= pbase <= vbase /\ (2 ^ 30 | vbase - pbase);
  mp_size : 0 <= len <= 2 ^ 47 /\ pbase + len <= 2 ^ 52;
  mp_top : vbase < 2 ^ 64 /\ vbase + len <= 2 ^ 64;
  mp_flags : 0 <= access_flags < 2 ^ 64 /\ forall n, 12 <= n < 52 -> Z.testbit access_flags n = false;
  mp_frames : needs (3 * range_pages len) F;
  mp_clean : forall i, 0 <= i < len -> clean st T (vbase + i)
}.

Lemma map_range_ok st root F T vbase pbase len fl ct :
  mappable st root F T vbase pbase len fl ->
  returns (mmu_map_range_linear root vbase pbase len fl ct st) (fun st' =>
    (forall i, 0 <= i < len -> phys_of st' root (vbase + i) = Some (pbase + i)) /\
    (forall va, (forall i, 0 <= i < len -> page_no 12 va <> page_no 12 (vbase + i)) ->
       translation st' root va = translation st root va) /\
    (exists F' T', tables_ok st' root F' T') /\ vdone st st').
Proof.
  intros [Ht Hu Hpd Hvd Hld [Hpv Hod] [Hl Hpl] [Hvt Hvl] [Hf1 Hf2] Hn Hcl].
  eapply returns_mono; [by apply (map_range_spec st root F T vbase pbase len fl ct)|].
  intros st' (F' & T' & Ht' & Hvd' & _ & Hph & Htr & _). split; [|split; [|split; [by exists F', T'|done]]].
  - intros i Hi. rewrite <- (Hph (pbase + i)) by lia. f_equal. lia.
  - intros va Hva. apply Htr. intros x Hx. replace (vbase - pbase + x) with (vbase + (x - pbase)) by lia. apply Hva. lia.
Qed.

(** Why large pages are excluded below: the walk that makes missing tables does
    not look at the page size bit of an entry, and takes the frame of a large
    page for a table. *)
Lemma force_walk_large_page pml index fl st :
  tst (pml_get pml index st) PM_COMMON_PRESENT = true -> tst (pml_get pml index st) PDXX_COMMON_PS = true ->
  force_walk_pagemap_single_lvl pml index fl st = Ret (Z.land (pml_get pml index st) PML_LOWER_MASK +! v_offset st, st).
Proof. intros Hp _. unfold force_walk_pagemap_single_lvl. by rewrite Hp. Qed.

(** C13: [mmu_map_range_linear], for a page-aligned range of at most [2^47]
    bytes whose virtual base lies a multiple of 1 GiB above its physical base,
    in which no 2 MiB or 1 GiB page is mapped yet (see [force_walk_large_page]),
    with access flags that leave the address bits alone and frames enough for
    the tables; whatever mix of 4 KiB, 2 MiB and 1 GiB pages it chooses: every
    byte of the range is translated
    to the physical address at the same offset, every address outside keeps
    its translation, the tables stay well-formed, and lock and interrupt flag
    are as they were. *)
Theorem mmu_map_range_linear_correct st root F T vbase pbase len fl ct :
  mappable st root F T vbase pbase len fl ->
  returns (mmu_map_range_linear root vbase pbase len fl ct st) (fun st' =>
    (forall i, 0 <= i < len -> phys_of st' root (vbase + i) = Some (pbase + i)) /\
    (forall va, (forall i, 0 <= i < len -> page_no 12 va <> page_no 12 (vbase + i)) ->
       translation st' root va = translation st root va) /\
    (exists F' T', tables_ok st' root F' T') /\ vdone st st').
Proof. apply map_range_ok. Qed.

(** The distance [DIFF(vbase, pbase)] forgets the direction: below the
    physical base the range is mapped mirrored, at [2 * pbase - vbase]. *)
Theorem mmu_map_range_linear_mirrored ctx vbase pbase len fl ct st :
  0 <= vbase <= pbase -> 2 * pbase - vbase < 2 ^ 64 -> (2 ^ 12 | pbase) -> (2 ^ 12 | vbase) ->
  mmu_map_range_linear ctx vbase pbase len fl ct st = mmu_map_range_linear ctx (2 * pbase - vbase) pbase len fl ct st.
Proof.
  intros Hv Hb Hp Hvd. unfold mmu_map_range_linear.
  assert (2 ^ 12 | 2 * pbase - vbase) by (apply Z.divide_sub_r; [by apply Z.divide_mul_r|done]).
  change 0xfff with (2 ^ 12 - 1). rewrite !(tst_aligned (2 * pbase - vbase)), !(tst_aligned vbase) by (done || lia).
  replace (DIFF (2 * pbase - vbase) pbase) with (DIFF vbase pbase); [done|]. unfold DIFF, MAX, MIN.
  destruct (Z.gtb_spec vbase pbase), (Z.ltb_spec vbase pbase), (Z.gtb_spec (2 * pbase - vbase) pbase),
    (Z.ltb_spec (2 * pbase - vbase) pbase); f_equal; lia.
Qed.

(** ** An empty address space *)

Definition root_only (f : Z) : gmap (list Z) Z := {[ [] := f ]}.

Lemma empty_tables st F f :
  pa_ok (v_mm st) F -> 0 < v_offset st -> v_offset st + mm_pages_count (v_mm st) * PAGE_SIZE < 2 ^ 64 ->
  v_mem st = ∅ -> 0 <= f < mm_pages_count (v_mm st) -> f ∉ F ->
  tables_ok st (taddr st f) F (root_only f) /\ forall va, clean st (root_only f) va.
Proof.
  intros Hpa Ho Hc Hm Hf HfF. unfold root_only.
  assert (forall g i, ent st g i = 0) as Hz.
  { intros g i. apply read64_zero. intros x _. by rewrite Hm. }
  split; [split|]; try done.
  - exists f. by rewrite lookup_singleton_eq.
  - intros p g [<- <-]%lookup_singleton_Some. simpl. split; [done|]. split; [done|lia].
  - intros p q g [<- _]%lookup_singleton_Some [<- _]%lookup_singleton_Some. done.
  - intros p g i [<- <-]%lookup_singleton_Some _ _. unfold entry_ok. rewrite lookup_singleton_ne by done. left. apply Hz.
  - intros p i g [Hx _]%lookup_singleton_Some. by destruct p.
  - intros va. by split; intros g _ _ [Hx _]%lookup_singleton_Some.
Qed.

Module Sample.
Import BuddyTheorems.BuddyTheorems.Sample.

Definition hhdm : Z := 0xffff800000000000.

(** A machine with an empty root table in frame 1. *)
Definition vm (m : mm) : vmm := mk_vmm m ∅ (mk_spinlock 0 false) hhdm (hhdm + 0x1000) 39 48 0xfee00000 0.

Lemma vm_mappable m F : buddy_ok m F -> mm_pages_count m = 257 -> (forall x, x ∈ F <-> 5 <= x < 257) ->
  mappable (vm m) (hhdm + 0x1000) F (root_only 1) hhdm 0 0x3000 MAF_WRITE.
Proof.
  intros Hb Hn HF. destruct (empty_tables (vm m) F 1) as [Ht Hc]; [done|done|simpl; by rewrite Hn|done|simpl; lia|rewrite HF; lia|].
  split; try done.
  - by exists 0.
  - by exists (hhdm / 2 ^ 12).
  - by exists 3.
  - split; [done|]. by exists (hhdm / 2 ^ 30).
  - split; [done|]. intros n Hn'. apply (small_bits _ 12); [lia|done].
  - unfold needs. change (3 * range_pages 0x3000) with (Z.of_nat (size (list_to_set (seqZ 5 9) : gset Z))).
    apply inj_le, subseteq_size. intros x Hx%elem_of_list_to_set%elem_of_seqZ. apply HF. lia.
Qed.

(** The machine of [BuddyTheorems.Sample]. *)
Definition v0 : vmm := vm st0.

Lemma v0_mappable : exists F, mappable v0 (hhdm + 0x1000) F (root_only 1) hhdm 0 0x3000 MAF_WRITE.
Proof.
  destruct st0_ready as (B & Hinv & Hco & Hn & HF). exists (freepages B). apply vm_mappable; [|exact Hn|exact HF].
  exists B. split; [exact Hinv|]. split; [exact Hco|reflexivity].
Qed.

Lemma mmu_map_range_linear_correct_witness :
  (exists F, mappable v0 (hhdm + 0x1000) F (root_only 1) hhdm 0 0x3000 MAF_WRITE) /\
  returns (mmu_map_range_linear (hhdm + 0x1000) hhdm 0 0x3000 MAF_WRITE MCT_WRITE_BACK v0) (fun st' =>
    phys_of st' (hhdm + 0x1000) (hhdm + 0x1234) = Some 0x1234).
Proof.
  split; [exact v0_mappable|]. destruct v0_mappable as [F HF].
  eapply returns_mono; [exact (mmu_map_range_linear_correct _ _ _ _ _ _ _ _ MCT_WRITE_BACK HF)|].
  intros st' [Hph _]. apply (Hph 0x1234). lia.
Defined.

(** The state after mapping, and its lookup. *)
Lemma virt2phys_correct_witness :
  returns (mmu_map_range_linear (hhdm + 0x1000) hhdm 0 0x3000 MAF_WRITE MCT_WRITE_BACK v0) (fun st' =>
    exists st'', virt2phys (hhdm + 0x1234) st' = Ret (0x1234, st'')).
Proof.
  destruct v0_mappable as [F HF]. eapply returns_mono; [exact (map_range_ok _ _ _ _ _ _ _ _ MCT_WRITE_BACK HF)|].
  intros st' (Hph & _ & (F' & T' & Ht) & Hd). specialize (Hph 0x1234 ltac:(lia)).
  assert (v_kernel_pml4 st' = hhdm + 0x1000) as Hpm by exact (vd_pml4 _ _ Hd). rewrite <- Hpm in Hph, Ht. unfold phys_of in Hph.
  destruct (translation st' (v_kernel_pml4 st') (hhdm + 0x1234)) as [[l e]|] eqn:Htr; [|done].
  assert (v_phys_addr_width st' = 39) as Hw by exact (vd_paw _ _ Hd).
  destruct (virt2phys_correct st' F' T' (hhdm + 0x1234) Ht (vd_lock _ _ Hd)) as (st'' & Hv & _).
  - rewrite Hw. lia.
  - rewrite Htr. simpl in Hph |- *. rewrite Hw. injection Hph as Hph. unfold hw_phys in Hph.
    pose proof (Z.mod_pos_bound (hhdm + 0x1234) (2 ^ psize l) ltac:(destruct l as [|[|[|]]]; done)).
    assert (0 <= Z.land e (field (psize l) 52)) by (apply Z.land_nonneg; right; by destruct l as [|[|[|]]]). lia.
  - exists st''. rewrite Hv. unfold phys_of. rewrite Htr. simpl in Hph |- *. injection Hph as ->. done.
Defined.

(** A page asked for at 0x1000 for the frame at 0x4000 goes to 0x7000. *)
Lemma mmu_map_range_linear_mirrored_witness :
  mmu_map_range_linear (hhdm + 0x1000) 0x1000 0x4000 0x1000 MAF_WRITE MCT_WRITE_BACK v0 =
  mmu_map_range_linear (hhdm + 0x1000) 0x7000 0x4000 0x1000 MAF_WRITE MCT_WRITE_BACK v0.
Proof.
  apply (mmu_map_range_linear_mirrored _ 0x1000 0x4000); [lia|lia|by exists 4|by exists 1].
Defined.

End Sample.
End MmuTheorems.
