(* ===== verification/Kprintf.v ===== *)
(** * Formatted output (kernel/src/std/kprintf.c)

    The formatter as the kernel builds it: without floating point, with long
    long and ptrdiff_t.  An output function receives a character, a buffer
    and an index; what it changes is [outp]: memory and the characters sent
    to the console or to a callback.  A [va_list] is the list of argument
    slots still to be read, each taken at the type the source asks for.  The
    conversion buffer is the list of its [len] characters so far; writing
    past its 32 bytes is a fault.  Loops over strings in memory take a bound
    on their rounds. *)

From stdpp Require Import list.
From Stdlib Require Import Ascii.
From S2P Require Import Prelude Macros Locking Mem.

Module Kprintf.
Import Macros Locking Mem.

(** A character constant of the source. *)
Definition ch (s : string) : Z :=
  match s with String a _ => Z.of_N (N_of_ascii a) | EmptyString => 0 end.
Arguments ch : simpl never.

Definition PRINTF_NTOA_BUFFER_SIZE : Z := 32.

Definition FLAGS_ZEROPAD : Z := Z.shiftl 1 0.
Definition FLAGS_LEFT : Z := Z.shiftl 1 1.
Definition FLAGS_PLUS : Z := Z.shiftl 1 2.
Definition FLAGS_SPACE : Z := Z.shiftl 1 3.
Definition FLAGS_HASH : Z := Z.shiftl 1 4.
Definition FLAGS_UPPERCASE : Z := Z.shiftl 1 5.
Definition FLAGS_CHAR : Z := Z.shiftl 1 6.
Definition FLAGS_SHORT : Z := Z.shiftl 1 7.
Definition FLAGS_LONG : Z := Z.shiftl 1 8.
Definition FLAGS_LONG_LONG : Z := Z.shiftl 1 9.
Definition FLAGS_PRECISION : Z := Z.shiftl 1 10.

(** [flags &= ~mask] *)
Definition clear_flags (flags mask : Z) : Z := Z.land flags (u32 (Z.lnot mask)).

(** ** Output functions *)

Record outp := mk_outp {
  o_mem : mem;
  o_dev : list Z       (* characters given to the console or the callback *)
}.

(** [out(character, buffer, idx, maxlen)] *)
Definition out_fct_type : Type := Z -> Z -> Z -> Z -> outp -> outp.

Definition _out_buffer : out_fct_type := fun character buffer idx maxlen s =>
  if idx <? maxlen then mk_outp (wr (o_mem s) (buffer + idx) character) (o_dev s) else s.

Definition _out_null : out_fct_type := fun _ _ _ _ s => s.

Definition _putchar (c : Z) (s : outp) : outp := mk_outp (o_mem s) (o_dev s ++ [c]).

Definition _out_char : out_fct_type := fun character _ _ _ s =>
  if character =? 0 then s else _putchar character s.

(** The callback only sees the character. *)
Definition _out_fct : out_fct_type := fun character _ _ _ s =>
  if character =? 0 then s else mk_outp (o_mem s) (o_dev s ++ [character]).

(** ** Helpers *)

Fixpoint strnlen_loop (fuel : nat) (s maxsize : Z) (m : mem) : outcome Z :=
  if negb (rd m s =? 0) && negb (maxsize =? 0) then
    match fuel with
    | O => Fault "string without end"
    | S fuel => strnlen_loop fuel (s + 1) (maxsize -! 1) m
    end
  else Ret s.

Definition _strnlen_s (fuel : nat) (str maxsize : Z) (m : mem) : outcome Z :=
  s ← strnlen_loop fuel str maxsize m;
  Ret (u32 (s - str)).

Definition _is_digit (c : Z) : bool := (ch "0" <=? c) && (c <=? ch "9").

Fixpoint _atoi (fuel : nat) (str i : Z) (m : mem) : outcome (Z * Z) :=
  if _is_digit (rd m str) then
    match fuel with
    | O => Fault "string without end"
    | S fuel => _atoi fuel (str + 1) (u32 (i * 10 + (rd m str - ch "0"))) m
    end
  else Ret (str, i).

(** [va_arg]: the next argument slot. *)
Definition va_list : Type := list Z.
Definition va_arg (va : va_list) : outcome (Z * va_list) :=
  match va with [] => Fault "no argument left" | a :: va => Ret (a, va) end.

Definition s16 (x : Z) : Z := (x + 2 ^ 15) mod 2 ^ 16 - 2 ^ 15.
Definition s64 (x : Z) : Z := (x + 2 ^ 63) mod 2 ^ 64 - 2 ^ 63.

Section Out.
Context (out : out_fct_type) (buffer maxlen : Z).

(** [idx] and what has been written. *)
Abbreviation ost := (Z * outp)%type.

(** [out(c, buffer, idx++, maxlen)] *)
Definition put (c : Z) (os : ost) : ost := (os.1 +! 1, out c buffer os.1 maxlen os.2).

(** The padding loops, [n] rounds. *)
Fixpoint pad (n : nat) (os : ost) : ost :=
  match n with
  | O => os
  | S n => pad n (put (ch " ") os)
  end.

(** [while (len) out(buf[--len], ...)] *)
Fixpoint rev_out (len : nat) (buf : list Z) (os : ost) : ost :=
  match len with
  | O => os
  | S len => rev_out len buf (put (buf !!! len) os)
  end.

Definition _out_rev (buf : list Z) (width flags : Z) (os : ost) : ost :=
  let start_idx := os.1 in
  let len := length buf in
  let os := if negb (tst flags FLAGS_LEFT) && negb (tst flags FLAGS_ZEROPAD)
            then pad (Z.to_nat (width - Z.of_nat len)) os else os in
  let os := rev_out len buf os in
  if tst flags FLAGS_LEFT then pad (Z.to_nat (width - (os.1 -! start_idx))) os else os.

(** ** Integers *)

Definition room (buf : list Z) : bool := Z.of_nat (length buf) <? PRINTF_NTOA_BUFFER_SIZE.

(** [buf[len++] = c] *)
Definition push (c : Z) (buf : list Z) : outcome (list Z) :=
  if room buf then Ret (buf ++ [c]) else Fault "write past the conversion buffer".

(** [while (len < bound && len < PRINTF_NTOA_BUFFER_SIZE) buf[len++] = '0'] *)
Fixpoint pad_zeros (fuel : nat) (bound : Z) (buf : list Z) : outcome (list Z) :=
  if (Z.of_nat (length buf) <? bound) && room buf then
    match fuel with
    | O => Fault "more rounds than the buffer has bytes"
    | S fuel => buf ← push (ch "0") buf; pad_zeros fuel bound buf
    end
  else Ret buf.

Definition ntoa_hash (base prec width flags : Z) (buf : list Z) : outcome (list Z) :=
  let len := Z.of_nat (length buf) in
  let buf :=
    if negb (tst flags FLAGS_PRECISION) && negb (len =? 0) && ((len =? prec) || (len =? width)) then
      let buf := removelast buf in
      if negb (Z.of_nat (length buf) =? 0) && (base =? 16) then removelast buf else buf
    else buf in
  buf ← (if (base =? 16) && negb (tst flags FLAGS_UPPERCASE) && room buf then push (ch "x") buf
         else if (base =? 16) && tst flags FLAGS_UPPERCASE && room buf then push (ch "X") buf
         else if (base =? 2) && room buf then push (ch "b") buf
         else Ret buf);
  if room buf then push (ch "0") buf else Ret buf.

Definition ntoa_sign (negative : bool) (flags : Z) (buf : list Z) : outcome (list Z) :=
  if room buf then
    if negative then push (ch "-") buf
    else if tst flags FLAGS_PLUS then push (ch "+") buf
    else if tst flags FLAGS_SPACE then push (ch " ") buf
    else Ret buf
  else Ret buf.

Definition ntoa_lead (negative : bool) (prec width flags : Z) (buf : list Z) : outcome (list Z * Z) :=
  if negb (tst flags FLAGS_LEFT) then
    let width :=
      if negb (width =? 0) && tst flags FLAGS_ZEROPAD && (negative || tst flags (Z.lor FLAGS_PLUS FLAGS_SPACE))
      then u32 (width - 1) else width in
    buf ← pad_zeros 32 prec buf;
    buf ← (if tst flags FLAGS_ZEROPAD then pad_zeros 32 width buf else Ret buf);
    Ret (buf, width)
  else Ret (buf, width).

Definition _ntoa_format (buf : list Z) (negative : bool) (base prec width flags : Z) (os : ost) : outcome ost :=
  '(buf, width) ← ntoa_lead negative prec width flags buf;
  buf ← (if tst flags FLAGS_HASH then ntoa_hash base prec width flags buf else Ret buf);
  buf ← ntoa_sign negative flags buf;
  Ret (_out_rev buf width flags os).

Definition digit_char (flags digit : Z) : Z :=
  if digit <? 10 then ch "0" + digit else (if tst flags FLAGS_UPPERCASE then ch "A" else ch "a") + digit - 10.

(** The [do ... while] loop. *)
Fixpoint ntoa_digits (fuel : nat) (value base flags : Z) (buf : list Z) : outcome (list Z) :=
  buf ← push (digit_char flags (value mod base)) buf;
  let value := value / base in
  if negb (value =? 0) && room buf then
    match fuel with
    | O => Fault "more rounds than the buffer has bytes"
    | S fuel => ntoa_digits fuel value base flags buf
    end
  else Ret buf.

Definition _ntoa_long (value : Z) (negative : bool) (base prec width flags : Z) (os : ost) : outcome ost :=
  let flags := if value =? 0 then clear_flags flags FLAGS_HASH else flags in
  buf ← (if negb (tst flags FLAGS_PRECISION) || negb (value =? 0) then ntoa_digits 32 value base flags [] else Ret []);
  _ntoa_format buf negative base prec width flags os.

(** The same body at a type of the same width. *)
Definition _ntoa_long_long (value : Z) (negative : bool) (base prec width flags : Z) (os : ost) : outcome ost :=
  let flags := if value =? 0 then clear_flags flags FLAGS_HASH else flags in
  buf ← (if negb (tst flags FLAGS_PRECISION) || negb (value =? 0) then ntoa_digits 32 value base flags [] else Ret []);
  _ntoa_format buf negative base prec width flags os.

(** ** The format string *)

Definition flag_of (c : Z) : option Z :=
  if c =? ch "0" then Some FLAGS_ZEROPAD
  else if c =? ch "-" then Some FLAGS_LEFT
  else if c =? ch "+" then Some FLAGS_PLUS
  else if c =? ch " " then Some FLAGS_SPACE
  else if c =? ch "#" then Some FLAGS_HASH
  else None.

Fixpoint parse_flags (fuel : nat) (format flags : Z) (m : mem) : outcome (Z * Z) :=
  match flag_of (rd m format) with
  | Some b =>
      match fuel with
      | O => Fault "string without end"
      | S fuel => parse_flags fuel (format + 1) (Z.lor flags b) m
      end
  | None => Ret (format, flags)
  end.

(** Format, flags, width and arguments after the width field. *)
Definition parse_width (fuel : nat) (format flags : Z) (va : va_list) (m : mem) : outcome (Z * Z * Z * va_list) :=
  if _is_digit (rd m format) then
    '(format, width) ← _atoi fuel format 0 m;
    Ret (format, flags, width, va)
  else if rd m format =? ch "*" then
    '(a, va) ← va_arg va;
    let w := s32 a in
    if w <? 0 then Ret (format + 1, Z.lor flags FLAGS_LEFT, u32 (- w), va)
    else Ret (format + 1, flags, u32 w, va)
  else Ret (format, flags, 0, va).

Definition parse_precision (fuel : nat) (format flags : Z) (va : va_list) (m : mem) : outcome (Z * Z * Z * va_list) :=
  if rd m format =? ch "." then
    let flags := Z.lor flags FLAGS_PRECISION in
    let format := format + 1 in
    if _is_digit (rd m format) then
      '(format, precision) ← _atoi fuel format 0 m;
      Ret (format, flags, precision, va)
    else if rd m format =? ch "*" then
      '(a, va) ← va_arg va;
      let prec := s32 a in
      Ret (format + 1, flags, (if prec >? 0 then prec else 0), va)
    else Ret (format, flags, 0, va)
  else Ret (format, flags, 0, va).

(** [long], [ptrdiff_t], [intmax_t] and [size_t] have the same size. *)
Definition parse_length (format flags : Z) (m : mem) : Z * Z :=
  let c := rd m format in
  if c =? ch "l" then
    if rd m (format + 1) =? ch "l" then (format + 2, Z.lor (Z.lor flags FLAGS_LONG) FLAGS_LONG_LONG)
    else (format + 1, Z.lor flags FLAGS_LONG)
  else if c =? ch "h" then
    if rd m (format + 1) =? ch "h" then (format + 2, Z.lor (Z.lor flags FLAGS_SHORT) FLAGS_CHAR)
    else (format + 1, Z.lor flags FLAGS_SHORT)
  else if (c =? ch "t") || (c =? ch "j") || (c =? ch "z") then (format + 1, Z.lor flags FLAGS_LONG)
  else (format, flags).

(** ** Conversions *)

Definition base_of (c : Z) : Z :=
  if (c =? ch "x") || (c =? ch "X") then 16 else if c =? ch "o" then 8 else if c =? ch "b" then 2 else 10.

Definition is_signed (c : Z) : bool := (c =? ch "i") || (c =? ch "d").

Definition int_flags (c flags : Z) : Z :=
  let flags := if base_of c =? 10 then clear_flags flags FLAGS_HASH else flags in
  let flags := if c =? ch "X" then Z.lor flags FLAGS_UPPERCASE else flags in
  let flags := if negb (is_signed c) then clear_flags flags (Z.lor FLAGS_PLUS FLAGS_SPACE) else flags in
  if tst flags FLAGS_PRECISION then clear_flags flags FLAGS_ZEROPAD else flags.

(** [value > 0 ? value : 0 - value] *)
Definition magnitude (value : Z) : Z := if value >? 0 then value else 0 - value.

Definition conv_int (c width precision flags : Z) (va : va_list) (os : ost) : outcome (va_list * ost) :=
  let base := base_of c in
  let flags := int_flags c flags in
  '(a, va) ← va_arg va;
  os ← (if is_signed c then
          if tst flags FLAGS_LONG_LONG then
            _ntoa_long_long (u64 (magnitude (s64 a))) (s64 a <? 0) base precision width flags os
          else if tst flags FLAGS_LONG then
            _ntoa_long (u64 (magnitude (s64 a))) (s64 a <? 0) base precision width flags os
          else
            let value := if tst flags FLAGS_CHAR then s8 a else if tst flags FLAGS_SHORT then s16 a else s32 a in
            _ntoa_long (u32 (magnitude value)) (value <? 0) base precision width flags os
        else
          if tst flags FLAGS_LONG_LONG then _ntoa_long_long (u64 a) false base precision width flags os
          else if tst flags FLAGS_LONG then _ntoa_long (u64 a) false base precision width flags os
          else
            let value := if tst flags FLAGS_CHAR then u8 a else if tst flags FLAGS_SHORT then u16 a else u32 a in
            _ntoa_long value false base precision width flags os);
  Ret (va, os).

Definition conv_char (width flags : Z) (va : va_list) (os : ost) : outcome (va_list * ost) :=
  let n := Z.to_nat (width - 1) in
  let os := if negb (tst flags FLAGS_LEFT) then pad n os else os in
  '(a, va) ← va_arg va;
  let os := put (u8 a) os in
  let os := if tst flags FLAGS_LEFT then pad n os else os in
  Ret (va, os).

(** [while ( *p != 0 && (!(flags & FLAGS_PRECISION) || precision--)) out( *(p++), ...)] *)
Fixpoint str_out (fuel : nat) (p precision flags : Z) (os : ost) : outcome ost :=
  let c := rd (o_mem os.2) p in
  if negb (c =? 0) && (negb (tst flags FLAGS_PRECISION) || negb (precision =? 0)) then
    match fuel with
    | O => Fault "string without end"
    | S fuel =>
        str_out fuel (p + 1) (if tst flags FLAGS_PRECISION then u32 (precision - 1) else precision) flags (put c os)
    end
  else Ret os.

Definition conv_str (fuel : nat) (width precision flags : Z) (va : va_list) (os : ost) : outcome (va_list * ost) :=
  '(p, va) ← va_arg va;
  l ← _strnlen_s fuel p (if negb (precision =? 0) then precision else 2 ^ 64 - 1) (o_mem os.2);
  let l := if tst flags FLAGS_PRECISION then (if l <? precision then l else precision) else l in
  let n := Z.to_nat (width - l) in
  let os := if negb (tst flags FLAGS_LEFT) then pad n os else os in
  os ← str_out fuel p precision flags os;
  let os := if tst flags FLAGS_LEFT then pad n os else os in
  Ret (va, os).

Definition conv_ptr (precision flags : Z) (va : va_list) (os : ost) : outcome (va_list * ost) :=
  let width := 8 * 2 in
  let flags := Z.lor flags (Z.lor FLAGS_ZEROPAD FLAGS_UPPERCASE) in
  '(a, va) ← va_arg va;
  os ← _ntoa_long_long (u64 a) false 16 precision width flags os;
  Ret (va, os).

Definition is_int (c : Z) : bool :=
  (c =? ch "d") || (c =? ch "i") || (c =? ch "u") || (c =? ch "x") || (c =? ch "X") || (c =? ch "o") || (c =? ch "b").

(** The switch over the specifier. *)
Definition convert (fuel : nat) (c width precision flags : Z) (va : va_list) (os : ost) : outcome (va_list * ost) :=
  if is_int c then conv_int c width precision flags va os
  else if c =? ch "c" then conv_char width flags va os
  else if c =? ch "s" then conv_str fuel width precision flags va os
  else if c =? ch "p" then conv_ptr precision flags va os
  else if c =? ch "%" then Ret (va, put (ch "%") os)
  else Ret (va, put c os).

(** One specification, after its [%]. *)
Definition format_spec (fuel : nat) (format : Z) (va : va_list) (os : ost) : outcome (Z * va_list * ost) :=
  let m := o_mem os.2 in
  '(format, flags) ← parse_flags fuel format 0 m;
  '(format, flags, width, va) ← parse_width fuel format flags va m;
  '(format, flags, precision, va) ← parse_precision fuel format flags va m;
  let '(format, flags) := parse_length format flags m in
  '(va, os) ← convert fuel (rd m format) width precision flags va os;
  Ret (format + 1, va, os).

(** [while ( *format)]; [fuel] bounds the rounds, [bound] those of inner loops. *)
Fixpoint format_loop (fuel : nat) (bound : nat) (format : Z) (va : va_list) (os : ost) : outcome ost :=
  let c := rd (o_mem os.2) format in
  if c =? 0 then Ret os
  else match fuel with
       | O => Fault "string without end"
       | S fuel =>
           if negb (c =? ch "%") then format_loop fuel bound (format + 1) va (put c os)
           else
             '(format, va, os) ← format_spec bound (format + 1) va os;
             format_loop fuel bound format va os
       end.

End Out.

(** ** The interface *)

Record pf := mk_pf {
  pf_out : outp;
  pf_lock : k_spinlock_t;      (* kprintf_lock *)
  pf_IF : bool
}.

Definition _vsnprintf (fuel : nat) (out : out_fct_type) (buffer maxlen format : Z) (va : va_list) (st : pf)
    : outcome (Z * pf) :=
  '(IF, l) ← Seq.spin_lock_global (pf_IF st) (pf_lock st);
  let out := if buffer =? 0 then _out_null else out in
  '(idx, s) ← format_loop out buffer maxlen fuel fuel format va (0, pf_out st);
  let s := out 0 buffer (if idx <? maxlen then idx else maxlen -! 1) maxlen s in
  let '(IF, l) := Seq.spin_unlock_global IF l in
  Ret (s32 idx, mk_pf s l IF).

(** [buf] is the address of the caller's one-byte local. *)
Definition printf_ (fuel : nat) (buf format : Z) (va : va_list) (st : pf) : outcome (Z * pf) :=
  _vsnprintf fuel _out_char buf (2 ^ 64 - 1) format va st.
Definition sprintf_ (fuel : nat) (buffer format : Z) (va : va_list) (st : pf) : outcome (Z * pf) :=
  _vsnprintf fuel _out_buffer buffer (2 ^ 64 - 1) format va st.
Definition snprintf_ (fuel : nat) (buffer count format : Z) (va : va_list) (st : pf) : outcome (Z * pf) :=
  _vsnprintf fuel _out_buffer buffer count format va st.
Definition vprintf_ (fuel : nat) (buf format : Z) (va : va_list) (st : pf) : outcome (Z * pf) :=
  _vsnprintf fuel _out_char buf (2 ^ 64 - 1) format va st.
Definition vsnprintf_ (fuel : nat) (buffer count format : Z) (va : va_list) (st : pf) : outcome (Z * pf) :=
  _vsnprintf fuel _out_buffer buffer count format va st.
Definition fctprintf (fuel : nat) (wrap format : Z) (va : va_list) (st : pf) : outcome (Z * pf) :=
  _vsnprintf fuel _out_fct wrap (2 ^ 64 - 1) format va st.

(** Without MUNKOS_VERBOSE_BUILD. *)
Definition kprintf_verbose (verbose : bool) (fuel : nat) (buf format : Z) (va : va_list) (st : pf) : outcome (Z * pf) :=
  if verbose then vprintf_ fuel buf format va st else Ret (0, st).

End Kprintf.
