(* ===== verification/KprintfSpec.v ===== *)
(** * What the formatter prints

    The text of each conversion as a list of characters, and the lemmas that
    the functions of kernel/src/std/kprintf.c hand exactly this list to their
    output function. *)

From stdpp Require Import list.
From S2P Require Import Prelude Macros Locking Mem CString Kprintf.

Module KprintfSpec.
Import Macros Locking Mem CString Kprintf.

(** ** The text of a number *)

(** The digits of a numeral, least significant first, at most [n]. *)
Fixpoint digits (n : nat) (value base : Z) : list Z :=
  match n with
  | O => []
  | S n => value mod base :: (if value / base =? 0 then [] else digits n (value / base) base)
  end.

(** Append while there is room. *)
Definition add (c : Z) (buf : list Z) : list Z := if room buf then buf ++ [c] else buf.
Definition add_zeros (bound : Z) (buf : list Z) : list Z :=
  buf ++ replicate (Z.to_nat (Z.min bound 32) - length buf) (ch "0").

Definition lead_width (negative : bool) (width flags : Z) : Z :=
  if negb (tst flags FLAGS_LEFT) && (negb (width =? 0) && tst flags FLAGS_ZEROPAD && (negative || tst flags (Z.lor FLAGS_PLUS FLAGS_SPACE)))
  then u32 (width - 1) else width.

Definition lead (negative : bool) (prec width flags : Z) (buf : list Z) : list Z :=
  if negb (tst flags FLAGS_LEFT) then
    let buf := add_zeros prec buf in
    if tst flags FLAGS_ZEROPAD then add_zeros (lead_width negative width flags) buf else buf
  else buf.

Definition hash_prefix (base prec width flags : Z) (buf : list Z) : list Z :=
  let len := Z.of_nat (length buf) in
  let buf :=
    if negb (tst flags FLAGS_PRECISION) && negb (len =? 0) && ((len =? prec) || (len =? width)) then
      let buf := removelast buf in
      if negb (Z.of_nat (length buf) =? 0) && (base =? 16) then removelast buf else buf
    else buf in
  let buf := if base =? 16 then add (if tst flags FLAGS_UPPERCASE then ch "X" else ch "x") buf
             else if base =? 2 then add (ch "b") buf else buf in
  add (ch "0") buf.

Definition sign_chars (negative : bool) (flags : Z) : list Z :=
  if negative then [ch "-"] else if tst flags FLAGS_PLUS then [ch "+"] else if tst flags FLAGS_SPACE then [ch " "] else [].

Definition add_sign (negative : bool) (flags : Z) (buf : list Z) : list Z :=
  if room buf then buf ++ sign_chars negative flags else buf.

(** Padding around a reversed buffer. *)
Definition rev_text (buf : list Z) (width flags : Z) : list Z :=
  (if negb (tst flags FLAGS_LEFT) && negb (tst flags FLAGS_ZEROPAD) then replicate (Z.to_nat width - length buf) (ch " ") else []) ++
  reverse buf ++
  (if tst flags FLAGS_LEFT then replicate (Z.to_nat width - length buf) (ch " ") else []).

Definition num_flags (value flags : Z) : Z := if value =? 0 then clear_flags flags FLAGS_HASH else flags.
Definition num_digits (value base flags : Z) : list Z :=
  if negb (tst flags FLAGS_PRECISION) || negb (value =? 0) then digit_char flags <$> digits 32 value base else [].

Definition num_text (value : Z) (negative : bool) (base prec width flags : Z) : list Z :=
  let flags := num_flags value flags in
  let buf := lead negative prec width flags (num_digits value base flags) in
  let width := lead_width negative width flags in
  let buf := if tst flags FLAGS_HASH then hash_prefix base prec width flags buf else buf in
  rev_text (add_sign negative flags buf) width flags.

(** ** The text of a conversion *)

(** The argument at the type the flags ask for. *)
Definition arg_value (c flags a : Z) : Z :=
  if is_signed c then
    if tst flags FLAGS_LONG_LONG || tst flags FLAGS_LONG then s64 a
    else if tst flags FLAGS_CHAR then s8 a else if tst flags FLAGS_SHORT then s16 a else s32 a
  else
    if tst flags FLAGS_LONG_LONG || tst flags FLAGS_LONG then u64 a
    else if tst flags FLAGS_CHAR then u8 a else if tst flags FLAGS_SHORT then u16 a else u32 a.

Definition int_text (c width prec flags a : Z) : list Z :=
  let flags := int_flags c flags in
  let v := arg_value c flags a in
  num_text (Z.abs v) (v <? 0) (base_of c) prec width flags.

Definition pad_to (width : Z) (left : bool) (t : list Z) : list Z :=
  let sp := replicate (Z.to_nat width - length t) (ch " ") in
  if left then t ++ sp else sp ++ t.

Definition char_text (width flags a : Z) : list Z := pad_to width (tst flags FLAGS_LEFT) [u8 a].

Definition str_text (s : list Z) (width prec flags : Z) : list Z :=
  pad_to width (tst flags FLAGS_LEFT) (if tst flags FLAGS_PRECISION then take (Z.to_nat prec) s else s).

Definition ptr_text (prec flags a : Z) : list Z :=
  num_text (u64 a) false 16 prec 16 (Z.lor flags (Z.lor FLAGS_ZEROPAD FLAGS_UPPERCASE)).

(** [conv_text m safe bound c width prec flags va t va']: the conversion [c]
    prints [t] and leaves the arguments [va']; strings are read at [safe]
    addresses and are no longer than [bound]. *)
Inductive conv_text (m : mem) (safe : Z -> Prop) (bound : nat) (c width prec flags : Z) : va_list -> list Z -> va_list -> Prop :=
  | text_int a va : is_int c = true -> conv_text m safe bound c width prec flags (a :: va) (int_text c width prec flags a) va
  | text_char a va : c = ch "c" -> conv_text m safe bound c width prec flags (a :: va) (char_text width flags a) va
  | text_str p s va : c = ch "s" -> cstr m p s -> Z.of_nat (length s) < 2 ^ 32 -> (length s <= bound)%nat ->
      (forall x, p <= x <= p + Z.of_nat (length s) -> safe x) ->
      conv_text m safe bound c width prec flags (p :: va) (str_text s width prec flags) va
  | text_ptr a va : c = ch "p" -> conv_text m safe bound c width prec flags (a :: va) (ptr_text prec flags a) va
  | text_other va : is_int c = false -> c <> ch "c" -> c <> ch "s" -> c <> ch "p" ->
      conv_text m safe bound c width prec flags va [c] va.

(** ** Format strings *)

Inductive width_spec := WNone | WNum (ds : list Z) | WStar.
Inductive prec_spec := PNone | PNum (ds : list Z) | PStar.
Inductive len_spec := LNone | Ll | Lll | Lh | Lhh | Lt | Lj | Lz.

Record spec := mk_spec {
  sp_flags : list Z;
  sp_width : width_spec;
  sp_prec : prec_spec;
  sp_len : len_spec;
  sp_conv : Z
}.

Inductive item := Lit (c : Z) | Conv (sp : spec).

(** The source text. *)
Definition enc_width (w : width_spec) : list Z :=
  match w with WNone => [] | WNum ds => Z.add (ch "0") <$> ds | WStar => [ch "*"] end.
Definition enc_prec (p : prec_spec) : list Z :=
  match p with PNone => [] | PNum ds => ch "." :: (Z.add (ch "0") <$> ds) | PStar => [ch "."; ch "*"] end.
Definition enc_len (l : len_spec) : list Z :=
  match l with
  | LNone => [] | Ll => [ch "l"] | Lll => [ch "l"; ch "l"] | Lh => [ch "h"] | Lhh => [ch "h"; ch "h"]
  | Lt => [ch "t"] | Lj => [ch "j"] | Lz => [ch "z"]
  end.
Definition enc_item (i : item) : list Z :=
  match i with
  | Lit c => [c]
  | Conv sp => ch "%" :: sp_flags sp ++ enc_width (sp_width sp) ++ enc_prec (sp_prec sp) ++ enc_len (sp_len sp) ++ [sp_conv sp]
  end.
Definition encode (its : list item) : list Z := concat (enc_item <$> its).

(** A conversion character is none of those that come before it. *)
Definition conv_ok (c : Z) : bool :=
  match flag_of c with
  | Some _ => false
  | None => negb (_is_digit c) && negb (c =? ch "*") && negb (c =? ch ".") && negb (c =? ch "l") && negb (c =? ch "h") &&
            negb (c =? ch "t") && negb (c =? ch "j") && negb (c =? ch "z")
  end.

Definition digit (d : Z) : Prop := 0 <= d <= 9.

Record spec_ok (sp : spec) : Prop := {
  so_flags : Forall (fun c => is_Some (flag_of c)) (sp_flags sp);
  so_width : match sp_width sp with WNum ds => Forall digit ds /\ exists d ds', ds = d :: ds' /\ d <> 0 | _ => True end;
  so_prec : match sp_prec sp with PNum ds => Forall digit ds | _ => True end;
  so_conv : conv_ok (sp_conv sp) = true
}.

Definition item_ok (i : item) : Prop := match i with Lit c => c <> ch "%" | Conv sp => spec_ok sp end.

(** What the fields mean. *)
Definition flag_bits (fs : list Z) (fl : Z) : Z := fold_left (fun fl c => Z.lor fl (default 0 (flag_of c))) fs fl.
Definition number (ds : list Z) : Z := fold_left (fun i d => u32 (i * 10 + d)) ds 0.
Definition len_bits (l : len_spec) (fl : Z) : Z :=
  match l with
  | LNone => fl
  | Ll | Lt | Lj | Lz => Z.lor fl FLAGS_LONG
  | Lll => Z.lor (Z.lor fl FLAGS_LONG) FLAGS_LONG_LONG
  | Lh => Z.lor fl FLAGS_SHORT
  | Lhh => Z.lor (Z.lor fl FLAGS_SHORT) FLAGS_CHAR
  end.

Inductive width_val (fl : Z) : width_spec -> va_list -> Z * Z -> va_list -> Prop :=
  | width_none va : width_val fl WNone va (fl, 0) va
  | width_num ds va : width_val fl (WNum ds) va (fl, number ds) va
  | width_star a va : width_val fl WStar (a :: va) (if s32 a <? 0 then Z.lor fl FLAGS_LEFT else fl, Z.abs (s32 a)) va.

Inductive prec_val (fl : Z) : prec_spec -> va_list -> Z * Z -> va_list -> Prop :=
  | prec_none va : prec_val fl PNone va (fl, 0) va
  | prec_num ds va : prec_val fl (PNum ds) va (Z.lor fl FLAGS_PRECISION, number ds) va
  | prec_star a va : prec_val fl PStar (a :: va) (Z.lor fl FLAGS_PRECISION, Z.max 0 (s32 a)) va.

(** [renders m safe bound items va t]: the text of a format. *)
Inductive renders (m : mem) (safe : Z -> Prop) (bound : nat) : list item -> va_list -> list Z -> Prop :=
  | renders_nil va : renders m safe bound [] va []
  | renders_lit c its va t : renders m safe bound its va t -> renders m safe bound (Lit c :: its) va (c :: t)
  | renders_conv sp its va va1 va2 va3 fl1 w fl2 p t1 t2 :
      width_val (flag_bits (sp_flags sp) 0) (sp_width sp) va (fl1, w) va1 ->
      prec_val fl1 (sp_prec sp) va1 (fl2, p) va2 ->
      conv_text m safe bound (sp_conv sp) w p (len_bits (sp_len sp) fl2) va2 t1 va3 ->
      renders m safe bound its va3 t2 -> renders m safe bound (Conv sp :: its) va (t1 ++ t2).

(** ** Characters *)

Lemma cstr_hd m p s : cstr m p s -> rd m p = hd 0 s.
Proof. destruct s as [|c s]; simpl; [done|]. by intros (_ & ? & _). Qed.

Lemma is_digit_char d : digit d -> _is_digit (ch "0" + d) = true.
Proof. intros Hd. unfold digit, _is_digit in *. change (ch "0") with 48. change (ch "9") with 57. lia. Qed.

Definition width_free (c : Z) : Prop := _is_digit c = false /\ c <> ch "*".

Lemma conv_ok_spec c : conv_ok c = true ->
  flag_of c = None /\ width_free c /\ c <> ch "." /\ (c =? ch "l") = false /\ (c =? ch "h") = false /\
  (c =? ch "t") = false /\ (c =? ch "j") = false /\ (c =? ch "z") = false.
Proof.
  unfold conv_ok, width_free. destruct (flag_of c); [done|]. intros H. repeat (apply andb_prop in H as [H ?]).
  repeat match goal with H : negb ?b = true |- _ => apply negb_true_iff in H end.
  repeat match goal with H : (c =? ch "*") = false |- _ => apply Z.eqb_neq in H | H : (c =? ch ".") = false |- _ => apply Z.eqb_neq in H end. done.
Qed.

Lemma cstr_app_r m p s t : cstr m p (s ++ t) -> cstr m (p + Z.of_nat (length s)) t.
Proof. intros Hs. rewrite <- (drop_app_length s t) at 1. apply cstr_drop; [done|]. rewrite length_app. lia. Qed.

(** ** Emitting *)

Section Emit.
Context (out : out_fct_type) (buffer maxlen : Z).

Fixpoint emits (cs : list Z) (os : Z * outp) : Z * outp :=
  match cs with
  | [] => os
  | c :: cs => emits cs (put out buffer maxlen c os)
  end.

Lemma emits_app cs ds os : emits (cs ++ ds) os = emits ds (emits cs os).
Proof. revert os. induction cs as [|c cs IH]; intros os; simpl; [done|]. apply IH. Qed.

Lemma emits_idx cs os : (emits cs os).1 = if decide (cs = []) then os.1 else u64 (os.1 + Z.of_nat (length cs)).
Proof.
  revert os. induction cs as [|c cs IH]; intros os; [done|]. simpl. rewrite IH. simpl. destruct cs as [|d cs]; [done|].
  rewrite decide_False by done. unfold u64. rewrite Zplus_mod_idemp_l. f_equal. simpl. lia.
Qed.

Lemma pad_emits n os : pad out buffer maxlen n os = emits (replicate n (ch " ")) os.
Proof. revert os. induction n as [|n IH]; intros os; simpl; [done|]. apply IH. Qed.

Lemma rev_out_emits len buf os :
  (len <= length buf)%nat -> rev_out out buffer maxlen len buf os = emits (reverse (take len buf)) os.
Proof.
  revert os. induction len as [|len IH]; intros os Hl; simpl; [done|].
  rewrite (take_S_r _ _ (buf !!! len)) by (apply list_lookup_lookup_total_lt; lia). rewrite reverse_snoc. simpl.
  apply IH. lia.
Qed.

Lemma out_rev_emits buf width flags os :
  (length buf <= 32)%nat -> 0 <= width -> _out_rev out buffer maxlen buf width flags os = emits (rev_text buf width flags) os.
Proof.
  intros Hl Hw. unfold _out_rev, rev_text. rewrite !emits_app.
  replace (Z.to_nat (width - Z.of_nat (length buf))) with (Z.to_nat width - length buf)%nat by lia.
  assert (forall o, rev_out out buffer maxlen (length buf) buf o = emits (reverse buf) o) as Hr.
  { intros o. rewrite rev_out_emits by done. by rewrite firstn_all. }
  destruct (tst flags FLAGS_LEFT); simpl.
  - rewrite Hr, pad_emits, emits_idx. f_equal. f_equal. destruct (decide (reverse buf = [])) as [He|He].
    + apply (f_equal length) in He. rewrite length_reverse in He. simpl in He. rewrite He, Z.sub_diag. change (u64 0) with 0. lia.
    + rewrite length_reverse. unfold u64. rewrite Zminus_mod_idemp_l.
      replace (os.1 + Z.of_nat (length buf) - os.1) with (Z.of_nat (length buf)) by lia. rewrite Z.mod_small by lia. lia.
  - destruct (tst flags FLAGS_ZEROPAD); simpl; rewrite ?pad_emits; by rewrite Hr.
Qed.

(** ** Numbers *)

Lemma room_spec buf : room buf = bool_decide (length buf < 32)%nat.
Proof. unfold room, PRINTF_NTOA_BUFFER_SIZE. case_bool_decide; destruct (Z.ltb_spec (Z.of_nat (length buf)) 32); done || lia. Qed.

Lemma push_add c buf : room buf = true -> push c buf = Ret (add c buf).
Proof. unfold push, add. by intros ->. Qed.

Lemma add_length c buf : (length buf <= 32)%nat -> (length (add c buf) <= 32)%nat.
Proof. intros Hl. unfold add. rewrite room_spec. case_bool_decide; [|done]. rewrite length_app. simpl. lia. Qed.

Lemma pad_zeros_spec fuel bound buf :
  (length buf <= 32)%nat -> (32 - length buf <= fuel)%nat -> pad_zeros fuel bound buf = Ret (add_zeros bound buf).
Proof.
  revert buf. induction fuel as [|fuel IH]; intros buf Hl Hf; simpl; rewrite room_spec; unfold add_zeros;
    destruct (Z.ltb_spec (Z.of_nat (length buf)) bound); case_bool_decide; simpl; try lia.
  all: try (replace (_ - length buf)%nat with 0%nat by lia; by rewrite app_nil_r).
  unfold push. rewrite room_spec, bool_decide_true by done. simpl. rewrite IH by (rewrite length_app; simpl; lia).
  unfold add_zeros. rewrite length_app. simpl.
  replace (Z.to_nat (Z.min bound 32) - length buf)%nat with (S (Z.to_nat (Z.min bound 32) - (length buf + 1))) by lia.
  simpl. by rewrite <- app_assoc.
Qed.

Lemma add_zeros_length bound buf : (length buf <= 32)%nat -> (length (add_zeros bound buf) <= 32)%nat.
Proof. intros Hl. unfold add_zeros. rewrite length_app, length_replicate. lia. Qed.

Lemma digits_length n value base : (length (digits n value base) <= n)%nat.
Proof. revert value. induction n as [|n IH]; intros value; simpl; [lia|]. specialize (IH (value / base)). destruct (_ =? 0); simpl; lia. Qed.

Lemma ntoa_digits_spec fuel value base flags buf :
  (length buf < 32)%nat -> (31 - length buf <= fuel)%nat ->
  ntoa_digits fuel value base flags buf = Ret (buf ++ (digit_char flags <$> digits (32 - length buf) value base)).
Proof.
  revert value buf. induction fuel as [|fuel IH]; intros value buf Hl Hf;
    destruct (32 - length buf)%nat as [|n] eqn:Hn; try lia; simpl; unfold push; rewrite room_spec, bool_decide_true by done; simpl;
    rewrite room_spec, length_app; simpl; destruct (Z.eqb_spec (value / base) 0); simpl; try done; case_bool_decide; simpl; try lia.
  - assert (n = 0%nat) as -> by lia. done.
  - rewrite IH by (rewrite length_app; simpl; lia). rewrite length_app. simpl.
    replace (32 - (length buf + 1))%nat with n by lia. by rewrite <- app_assoc.
  - assert (n = 0%nat) as -> by lia. done.
Qed.

Lemma num_digits_length value base flags : (length (num_digits value base flags) <= 32)%nat.
Proof. unfold num_digits. destruct (_ || _); [rewrite length_fmap; apply digits_length|simpl; lia]. Qed.

Lemma lead_length negative prec width flags buf :
  (length buf <= 32)%nat -> (length (lead negative prec width flags buf) <= 32)%nat.
Proof.
  intros Hl. unfold lead. destruct (negb _); [|done]. destruct (tst _ _); repeat apply add_zeros_length; done.
Qed.

Lemma ntoa_lead_spec negative prec width flags buf :
  (length buf <= 32)%nat ->
  ntoa_lead negative prec width flags buf = Ret (lead negative prec width flags buf, lead_width negative width flags).
Proof.
  intros Hl. unfold ntoa_lead, lead, lead_width. destruct (tst flags FLAGS_LEFT); cbn [negb andb]; [done|].
  rewrite pad_zeros_spec by lia. cbn [mbind outcome_bind].
  destruct (tst flags FLAGS_ZEROPAD); cbn [negb andb]; [|rewrite andb_false_r; done]. rewrite andb_true_r.
  pose proof (add_zeros_length prec buf Hl). by rewrite pad_zeros_spec by lia.
Qed.

Lemma removelast_length (buf : list Z) : (length (removelast buf) <= length buf)%nat.
Proof. induction buf as [|a [|b buf] IH]; simpl in *; lia. Qed.

Lemma ntoa_hash_spec base prec width flags buf :
  (length buf <= 32)%nat -> ntoa_hash base prec width flags buf = Ret (hash_prefix base prec width flags buf) /\
  (length (hash_prefix base prec width flags buf) <= 32)%nat.
Proof.
  intros Hl. unfold ntoa_hash, hash_prefix.
  set (b1 := if negb (tst flags FLAGS_PRECISION) && _ && _ then _ else buf).
  assert (length b1 <= 32)%nat as H1.
  { unfold b1. destruct (_ && _); [|done]. pose proof (removelast_length buf). pose proof (removelast_length (removelast buf)).
    destruct (_ && _); lia. }
  assert (forall b c, (if room b then push c b else Ret b) = Ret (add c b)) as Hp.
  { intros b c. destruct (room b) eqn:Hr; [by apply push_add|]. unfold add. by rewrite Hr. }
  set (b2 := if base =? 16 then _ else _).
  assert (forall o, o = Ret b2 -> (o ≫= fun b => if room b then push (ch "0") b else Ret b) = Ret (add (ch "0") b2)) as Hb.
  { intros o ->. apply Hp. }
  split; [apply Hb|].
  - unfold b2. specialize (Hp b1). destruct (base =? 16), (tst flags FLAGS_UPPERCASE), (base =? 2), (room b1); simpl in *; try done;
      rewrite <- Hp; done.
  - apply add_length. unfold b2. destruct (base =? 16); [by apply add_length|]. destruct (base =? 2); [by apply add_length|done].
Qed.

Lemma ntoa_sign_spec negative flags buf : ntoa_sign negative flags buf = Ret (add_sign negative flags buf).
Proof.
  unfold ntoa_sign, add_sign, sign_chars, push. destruct (room buf) eqn:Hr; [|done].
  destruct negative; [done|]. destruct (tst flags FLAGS_PLUS); [done|]. destruct (tst flags FLAGS_SPACE); [done|]. by rewrite app_nil_r.
Qed.

Lemma add_sign_length negative flags buf : (length buf <= 32)%nat -> (length (add_sign negative flags buf) <= 32)%nat.
Proof.
  intros Hl. unfold add_sign, sign_chars. rewrite room_spec. case_bool_decide; [|done]. rewrite length_app.
  destruct negative, (tst flags FLAGS_PLUS), (tst flags FLAGS_SPACE); simpl; lia.
Qed.

Lemma lead_width_nonneg negative width flags : 0 <= width -> 0 <= lead_width negative width flags.
Proof. intros Hw. unfold lead_width. destruct (_ && _); [|done]. apply Z.mod_pos_bound. lia. Qed.

Lemma ntoa_long_spec value negative base prec width flags os :
  0 <= width -> _ntoa_long out buffer maxlen value negative base prec width flags os =
    Ret (emits (num_text value negative base prec width flags) os).
Proof.
  intros Hw. unfold _ntoa_long, num_text. fold (num_flags value flags). set (fl := num_flags value flags).
  assert (forall k : list Z -> outcome (Z * outp),
    ((if negb (tst fl FLAGS_PRECISION) || negb (value =? 0) then ntoa_digits 32 value base fl [] else Ret []) ≫= k) = k (num_digits value base fl)) as Hd.
  { intros k. unfold num_digits. destruct (_ || _); [|done]. rewrite (ntoa_digits_spec 32 value base fl []) by (simpl; lia). done. }
  rewrite Hd. unfold _ntoa_format. pose proof (num_digits_length value base fl) as Hl.
  rewrite ntoa_lead_spec by done. cbn [mbind outcome_bind]. pose proof (lead_length negative prec width fl _ Hl) as Hl2.
  set (buf := lead _ _ _ _ _) in *. set (w := lead_width _ _ _).
  assert (0 <= w) as Hw' by (by apply lead_width_nonneg). destruct (ntoa_hash_spec base prec w fl buf Hl2) as [Hh Hhl].
  destruct (tst fl FLAGS_HASH).
  - rewrite Hh. cbn [mbind outcome_bind]. rewrite ntoa_sign_spec. cbn [mbind outcome_bind]. rewrite out_rev_emits; [done|by apply add_sign_length|done].
  - cbn [mbind outcome_bind]. rewrite ntoa_sign_spec. cbn [mbind outcome_bind]. rewrite out_rev_emits; [done|by apply add_sign_length|done].
Qed.

(** ** Conversions *)

Context (safe : Z -> Prop) (m : mem).
Hypothesis (Hsafe : forall c idx s x, 0 <= idx -> safe x -> rd (o_mem (out c buffer idx maxlen s)) x = rd (o_mem s) x).

(** Memory at safe addresses is as at the start. *)
Definition agree (os : Z * outp) : Prop := 0 <= os.1 /\ forall x, safe x -> rd (o_mem os.2) x = rd m x.

Lemma agree_emits cs os : agree os -> agree (emits cs os).
Proof.
  revert os. induction cs as [|c cs IH]; intros os [Hi Ha]; [done|]. apply IH. split; [apply u64_range|].
  intros x Hx. simpl. rewrite Hsafe by done. by apply Ha.
Qed.

Lemma ntoa_long_long_same value negative base prec width flags os :
  _ntoa_long_long out buffer maxlen value negative base prec width flags os = _ntoa_long out buffer maxlen value negative base prec width flags os.
Proof. reflexivity. Qed.

Lemma magnitude_abs v : magnitude v = Z.abs v.
Proof. unfold magnitude. destruct (Z.gtb_spec v 0); lia. Qed.

Lemma unsigned_text v base prec width flags : 0 <= v ->
  num_text (Z.abs v) (v <? 0) base prec width flags = num_text v false base prec width flags.
Proof. intros Hv. rewrite Z.abs_eq by done. by destruct (Z.ltb_spec v 0); [lia|]. Qed.

Lemma signed_range x w : 0 < w -> - 2 ^ (w - 1) <= (x + 2 ^ (w - 1)) mod 2 ^ w - 2 ^ (w - 1) < 2 ^ (w - 1).
Proof.
  intros Hw. pose proof (Z.mod_pos_bound (x + 2 ^ (w - 1)) (2 ^ w) ltac:(by apply pow2_pos; lia)).
  rewrite (pow2_split (w - 1) w) in * by lia. replace (w - (w - 1)) with 1 in * by lia. lia.
Qed.

Lemma conv_int_spec c width prec flags a va os :
  0 <= width -> conv_int out buffer maxlen c width prec flags (a :: va) os = Ret (va, emits (int_text c width prec flags a) os).
Proof.
  intros Hw. unfold conv_int, int_text, arg_value. cbn [va_arg mbind outcome_bind].
  set (fl := int_flags c flags). rewrite !ntoa_long_long_same, !magnitude_abs.
  assert (- 2 ^ 63 <= s64 a < 2 ^ 63) by (apply (signed_range a 64); lia).
  assert (- 2 ^ 31 <= s32 a < 2 ^ 31) by (apply (signed_range a 32); lia).
  assert (- 2 ^ 15 <= s16 a < 2 ^ 15) by (apply (signed_range a 16); lia).
  assert (- 2 ^ 7 <= s8 a < 2 ^ 7) by (apply (signed_range a 8); lia).
  pose proof (Z.mod_pos_bound a (2 ^ 64) ltac:(lia)) as H64.
  pose proof (Z.mod_pos_bound a (2 ^ 32) ltac:(lia)) as H32. pose proof (Z.mod_pos_bound a (2 ^ 16) ltac:(lia)) as H16.
  pose proof (Z.mod_pos_bound a (2 ^ 8) ltac:(lia)) as H8. fold (u64 a) (u32 a) (u16 a) (u8 a) in *.
  destruct (is_signed c), (tst fl FLAGS_LONG_LONG), (tst fl FLAGS_LONG), (tst fl FLAGS_CHAR), (tst fl FLAGS_SHORT); simpl orb; cbv iota;
    rewrite ?(u64_small (Z.abs _)), ?(u32_small (Z.abs _)) by lia; rewrite ntoa_long_spec by done; cbn [mbind outcome_bind];
    rewrite ?unsigned_text by lia; done.
Qed.

Lemma conv_char_spec width flags a va os :
  conv_char out buffer maxlen width flags (a :: va) os = Ret (va, emits (char_text width flags a) os).
Proof.
  unfold conv_char, char_text, pad_to. cbn [va_arg mbind outcome_bind length].
  replace (Z.to_nat (width - 1)) with (Z.to_nat width - 1)%nat by lia.
  destruct (tst flags FLAGS_LEFT); simpl negb; cbv iota; rewrite pad_emits, ?emits_app; done.
Qed.

Lemma strnlen_loop_spec fuel p maxsize s m0 :
  cstr m0 p s -> (length s <= fuel)%nat -> 0 <= maxsize < 2 ^ 64 ->
  strnlen_loop fuel p maxsize m0 = Ret (p + Z.min (Z.of_nat (length s)) maxsize).
Proof.
  revert fuel p maxsize. induction s as [|c s IH]; intros fuel p maxsize Hs Hf Hm; simpl in Hs.
  - destruct fuel; simpl; rewrite Hs; simpl; f_equal; lia.
  - destruct Hs as (Hc & Hr & Hs). simpl in Hf. destruct fuel as [|fuel]; [lia|]. simpl. rewrite Hr.
    destruct (Z.eqb_spec c 0); [lia|]. destruct (Z.eqb_spec maxsize 0); simpl; [f_equal; lia|].
    rewrite IH by (done || rewrite ?u64_small; lia). rewrite u64_small by lia. f_equal. lia.
Qed.

Lemma str_out_spec fuel p s prec flags os :
  cstr m p s -> (length s <= fuel)%nat -> 0 <= prec < 2 ^ 32 -> (forall x, p <= x <= p + Z.of_nat (length s) -> safe x) -> agree os ->
  str_out out buffer maxlen fuel p prec flags os =
    Ret (emits (if tst flags FLAGS_PRECISION then take (Z.to_nat prec) s else s) os).
Proof.
  revert fuel p prec os. induction s as [|c s IH]; intros fuel p prec os Hs Hf Hp Hx Ha; simpl in Hs.
  - rewrite take_nil. destruct fuel; cbn [str_out]; rewrite (proj2 Ha p), Hs by (apply Hx; simpl; lia); simpl; by destruct (tst _ _).
  - destruct Hs as (Hc & Hr & Hs). simpl in Hf, Hx. destruct fuel as [|fuel]; [lia|]. cbn [str_out].
    rewrite (proj2 Ha p), Hr by (apply Hx; lia). destruct (Z.eqb_spec c 0); [lia|]. simpl negb.
    assert (agree (put out buffer maxlen c os)) as Ha' by (by apply (agree_emits [c])).
    destruct (tst flags FLAGS_PRECISION) eqn:Hfl; simpl orb.
    + destruct (Z.eqb_spec prec 0) as [->|Hp0]; simpl; [done|]. rewrite IH; [|done|lia|apply Z.mod_pos_bound; lia| |done].
      * rewrite u32_small by lia. replace (Z.to_nat prec) with (S (Z.to_nat (prec - 1))) by lia. done.
      * intros x Hx'. apply Hx. lia.
    + simpl. rewrite IH; [done|done|lia|done| |done]. intros x Hx'. apply Hx. lia.
Qed.

Lemma conv_str_spec fuel p s width prec flags va os :
  cstr m p s -> Z.of_nat (length s) < 2 ^ 32 -> (length s <= fuel)%nat -> 0 <= prec < 2 ^ 32 ->
  (tst flags FLAGS_PRECISION = false -> prec = 0) ->
  (forall x, p <= x <= p + Z.of_nat (length s) -> safe x) -> agree os ->
  conv_str out buffer maxlen fuel width prec flags (p :: va) os = Ret (va, emits (str_text s width prec flags) os).
Proof.
  intros Hs Hl Hf Hp Hp0 Hx Ha. unfold conv_str, str_text, pad_to, _strnlen_s. cbn [va_arg mbind outcome_bind].
  assert (cstr (o_mem os.2) p s) as Hs' by (eapply cstr_ext; [|done]; intros x ?; by apply Ha, Hx).
  rewrite (strnlen_loop_spec fuel p _ s) by (done || destruct (Z.eqb_spec prec 0); simpl; lia). cbn [mbind outcome_bind].
  set (t := if tst flags FLAGS_PRECISION then take _ s else s). set (l := if tst flags FLAGS_PRECISION then _ else _).
  assert (l = Z.of_nat (length t)) as ->.
  { unfold l, t. destruct (tst flags FLAGS_PRECISION) eqn:Hfl.
    - rewrite length_take. destruct (Z.eqb_spec prec 0) as [->|]; simpl negb; cbv iota; rewrite !u32_small by lia;
        destruct (Z.ltb_spec (Z.min (Z.of_nat (length s)) prec) prec) || idtac; try lia;
        repeat match goal with |- context [?a <? ?b] => destruct (Z.ltb_spec a b) end; lia.
    - rewrite Hp0 by done. simpl. rewrite u32_small by lia. lia. }
  replace (Z.to_nat (width - Z.of_nat (length t))) with (Z.to_nat width - length t)%nat by lia.
  destruct (tst flags FLAGS_LEFT); simpl negb; cbv iota; rewrite ?pad_emits.
  - rewrite (str_out_spec fuel p s) by done. cbn [mbind outcome_bind]. fold t. by rewrite pad_emits, emits_app.
  - rewrite (str_out_spec fuel p s); try done; [|by apply agree_emits]. cbn [mbind outcome_bind]. fold t. by rewrite emits_app.
Qed.

Lemma convert_spec fuel c width prec flags va t va' os :
  conv_text m safe fuel c width prec flags va t va' -> 0 <= width -> 0 <= prec < 2 ^ 32 ->
  (tst flags FLAGS_PRECISION = false -> prec = 0) -> agree os ->
  convert out buffer maxlen fuel c width prec flags va os = Ret (va', emits t os).
Proof.
  intros Ht Hw Hp Hp0 Ha. unfold convert. destruct Ht as [a va Hi|a va ->|p s va -> Hs Hl Hf Hx|a va ->|va Hi Hc Hs Hp'].
  - rewrite Hi. by apply conv_int_spec.
  - simpl. apply conv_char_spec.
  - simpl. by apply conv_str_spec.
  - simpl. unfold conv_ptr. cbn [va_arg mbind outcome_bind]. rewrite ntoa_long_long_same, ntoa_long_spec by lia. done.
  - rewrite Hi. apply Z.eqb_neq in Hc, Hs, Hp'. rewrite Hc, Hs, Hp'. destruct (Z.eqb_spec c (ch "%")) as [->|]; done.
Qed.

(** ** The parser *)

Lemma parse_flags_spec fuel p fs s fl m0 :
  cstr m0 p (fs ++ s) -> Forall (fun c => is_Some (flag_of c)) fs -> flag_of (hd 0 s) = None -> (length fs <= fuel)%nat ->
  parse_flags fuel p fl m0 = Ret (p + Z.of_nat (length fs), flag_bits fs fl).
Proof.
  revert fuel p fl. induction fs as [|c fs IH]; intros fuel p fl Hs Hf Hn Hl; simpl in Hs.
  - destruct fuel; simpl; rewrite (cstr_hd _ _ _ Hs), Hn; simpl; do 2 f_equal; lia.
  - destruct Hs as (_ & Hr & Hs). apply Forall_cons in Hf as [[b Hb] Hf]. simpl in Hl. destruct fuel as [|fuel]; [lia|].
    simpl. rewrite Hr, Hb. rewrite (IH fuel) by (done || lia). do 2 f_equal. lia.
Qed.

Lemma atoi_spec fuel p ds s i m0 :
  cstr m0 p ((Z.add (ch "0") <$> ds) ++ s) -> Forall digit ds -> _is_digit (hd 0 s) = false -> (length ds <= fuel)%nat ->
  _atoi fuel p i m0 = Ret (p + Z.of_nat (length ds), fold_left (fun i d => u32 (i * 10 + d)) ds i).
Proof.
  revert fuel p i. induction ds as [|d ds IH]; intros fuel p i Hs Hf Hn Hl; simpl in Hs.
  - destruct fuel; simpl; rewrite (cstr_hd _ _ _ Hs), Hn; do 2 f_equal; lia.
  - destruct Hs as (_ & Hr & Hs). apply Forall_cons in Hf as [Hd Hf]. simpl in Hl. destruct fuel as [|fuel]; [lia|].
    cbn [_atoi]. rewrite Hr, is_digit_char by done. rewrite (IH fuel) by (done || lia). simpl fold_left.
    replace (ch "0" + d - ch "0") with d by lia. do 2 f_equal. simpl. lia.
Qed.

Lemma parse_width_spec fuel p w s fl fl' v va va' m0 :
  width_val fl w va (fl', v) va' -> cstr m0 p (enc_width w ++ s) -> width_free (hd 0 s) ->
  match w with WNum ds => Forall digit ds /\ exists d ds', ds = d :: ds' /\ d <> 0 | _ => True end ->
  (length (enc_width w) <= fuel)%nat ->
  parse_width fuel p fl va m0 = Ret (p + Z.of_nat (length (enc_width w)), fl', v, va').
Proof.
  intros Hw Hs [Hn1 Hn2] Hok Hl. unfold parse_width. rewrite (cstr_hd _ _ _ Hs). inversion Hw; subst; simpl in Hs, Hl |- *.
  - rewrite Hn1. apply Z.eqb_neq in Hn2 as ->. do 4 f_equal. lia.
  - destruct Hok as [Hf (d & ds' & -> & Hd)]. pose proof Hf as [Hd' _]%Forall_cons. simpl hd. rewrite is_digit_char by done.
    rewrite length_fmap in Hl |- *. rewrite (atoi_spec fuel p (d :: ds') s) by done. done.
  - pose proof (signed_range a 32 ltac:(lia)) as Hr. change (2 ^ (32 - 1)) with (2 ^ 31) in Hr. fold (s32 a) in Hr.
    destruct (Z.ltb_spec (s32 a) 0); rewrite u32_small by lia; repeat f_equal; lia.
Qed.

Lemma parse_precision_spec fuel p pr s fl fl' v va va' m0 :
  prec_val fl pr va (fl', v) va' -> cstr m0 p (enc_prec pr ++ s) -> width_free (hd 0 s) -> hd 0 s <> ch "." ->
  match pr with PNum ds => Forall digit ds | _ => True end -> (length (enc_prec pr) <= fuel)%nat ->
  parse_precision fuel p fl va m0 = Ret (p + Z.of_nat (length (enc_prec pr)), fl', v, va').
Proof.
  intros Hp Hs [Hn1 Hn2] Hn3 Hok Hl. unfold parse_precision. rewrite (cstr_hd _ _ _ Hs). inversion Hp; subst; simpl in Hs, Hl |- *.
  - apply Z.eqb_neq in Hn3 as ->. do 4 f_equal. lia.
  - destruct Hs as (_ & _ & Hs). rewrite length_fmap in *. rewrite (cstr_hd _ _ _ Hs). destruct ds as [|d ds]; simpl.
    + rewrite Hn1. apply Z.eqb_neq in Hn2 as ->. done.
    + pose proof Hok as [Hd _]%Forall_cons. rewrite is_digit_char by done. rewrite (atoi_spec fuel _ (d :: ds) s) by (done || simpl in *; lia).
      cbn [mbind outcome_bind length]. do 4 f_equal. lia.
  - destruct Hs as (_ & _ & _ & -> & _). simpl. destruct (Z.gtb_spec (s32 a) 0); do 4 f_equal; lia.
Qed.

Lemma parse_length_spec p l s fl m0 :
  cstr m0 p (enc_len l ++ s) -> conv_ok (hd 0 s) = true -> parse_length p fl m0 = (p + Z.of_nat (length (enc_len l)), len_bits l fl).
Proof.
  intros Hs Hc. apply conv_ok_spec in Hc as (_ & _ & _ & Hl & Hh & Ht & Hj & Hz). unfold parse_length.
  rewrite (cstr_hd _ _ _ Hs). destruct l; simpl in Hs |- *;
    repeat match goal with H : _ /\ _ |- _ => destruct H end;
    repeat match goal with H : cstr _ _ _ |- _ => apply cstr_hd in H end.
  - rewrite Hl, Hh, Ht, Hj, Hz. simpl. f_equal. lia.
  - match goal with H : rd _ _ = hd 0 s |- _ => by rewrite H, Hl end.
  - match goal with H : rd _ _ = ch "l" |- _ => idtac end. by repeat match goal with H : rd _ _ = _ |- _ => rewrite H; clear H end.
  - match goal with H : rd _ _ = hd 0 s |- _ => by rewrite H, Hh end.
  - by repeat match goal with H : rd _ _ = _ |- _ => rewrite H; clear H end.
  - done.
  - done.
  - done.
Qed.

(** Heads of the fields. *)
Lemma len_hd l c r : conv_ok c = true ->
  let h := hd 0 (enc_len l ++ c :: r) in width_free h /\ h <> ch "." /\ flag_of h = None.
Proof. intros (? & ? & ? & _)%conv_ok_spec. destruct l; simpl; done. Qed.

Lemma prec_hd pr l c r : conv_ok c = true ->
  let h := hd 0 (enc_prec pr ++ enc_len l ++ c :: r) in width_free h /\ flag_of h = None.
Proof. intros Hc. destruct (len_hd l c r Hc) as (? & _ & ?). destruct pr; simpl; done. Qed.

Lemma width_hd w pr l c r : conv_ok c = true ->
  match w with WNum ds => Forall digit ds /\ exists d ds', ds = d :: ds' /\ d <> 0 | _ => True end ->
  flag_of (hd 0 (enc_width w ++ enc_prec pr ++ enc_len l ++ c :: r)) = None.
Proof.
  intros Hc Hw. destruct (prec_hd pr l c r Hc) as (_ & ?). destruct w; [done| |done].
  destruct Hw as [Hf (d & ds' & -> & Hn)]. apply Forall_cons in Hf as [Hd _]. unfold digit in Hd. simpl. unfold flag_of.
  change (ch "0") with 48. change (ch "-") with 45. change (ch "+") with 43. change (ch " ") with 32. change (ch "#") with 35.
  repeat match goal with |- context [?a =? ?b] => destruct (Z.eqb_spec a b); [lia|] end. done.
Qed.

Lemma number_range ds : 0 <= number ds < 2 ^ 32.
Proof.
  unfold number. assert (forall i, 0 <= i < 2 ^ 32 -> 0 <= fold_left (fun i d => u32 (i * 10 + d)) ds i < 2 ^ 32) as H; [|by apply H].
  induction ds as [|d ds IH]; intros i Hi; simpl; [done|]. apply IH. apply Z.mod_pos_bound. lia.
Qed.

Lemma width_val_range fl w va fl' v va' : width_val fl w va (fl', v) va' -> 0 <= v.
Proof. inversion 1; subst; [lia|apply number_range|lia]. Qed.

Lemma prec_val_range fl p va fl' v va' l : prec_val fl p va (fl', v) va' ->
  0 <= v < 2 ^ 32 /\ (tst (len_bits l fl') FLAGS_PRECISION = false -> v = 0).
Proof.
  assert (forall x, tst (len_bits l (Z.lor x FLAGS_PRECISION)) FLAGS_PRECISION = true) as Ht.
  { intros x. unfold FLAGS_PRECISION. rewrite tst_bit by lia. destruct l; simpl len_bits; rewrite !Z.lor_spec;
      change (Z.testbit (Z.shiftl 1 10) 10) with true; rewrite ?orb_true_r; done. }
  inversion 1; subst; [split; [lia|done]| |]; (split; [|by rewrite Ht]).
  - apply number_range.
  - pose proof (signed_range a 32 ltac:(lia)) as Hr. change (2 ^ (32 - 1)) with (2 ^ 31) in Hr. fold (s32 a) in Hr. lia.
Qed.

(** One specification. *)
Lemma format_spec_spec bound p sp r va va1 va2 va3 fl1 w fl2 pr t os :
  spec_ok sp -> cstr (o_mem os.2) p (sp_flags sp ++ enc_width (sp_width sp) ++ enc_prec (sp_prec sp) ++ enc_len (sp_len sp) ++ sp_conv sp :: r) ->
  (length (enc_item (Conv sp)) <= bound)%nat ->
  width_val (flag_bits (sp_flags sp) 0) (sp_width sp) va (fl1, w) va1 ->
  prec_val fl1 (sp_prec sp) va1 (fl2, pr) va2 ->
  conv_text m safe bound (sp_conv sp) w pr (len_bits (sp_len sp) fl2) va2 t va3 -> agree os ->
  format_spec out buffer maxlen bound p va os = Ret (p + Z.of_nat (length (enc_item (Conv sp))) - 1, va3, emits t os).
Proof.
  intros [Hf Hw Hp Hc] Hs Hb Hwv Hpv Ht Ha. unfold format_spec. simpl in Hb. rewrite !length_app in Hb. simpl in Hb.
  pose proof (cstr_app_r _ _ _ _ Hs) as Hs1. pose proof (cstr_app_r _ _ _ _ Hs1) as Hs2.
  pose proof (cstr_app_r _ _ _ _ Hs2) as Hs3. pose proof (cstr_app_r _ _ _ _ Hs3) as Hs4.
  destruct (len_hd (sp_len sp) _ r Hc) as (Hh1 & Hh2 & _). destruct (prec_hd (sp_prec sp) (sp_len sp) _ r Hc) as (Hh3 & _).
  rewrite (parse_flags_spec bound p _ _ 0 _ Hs Hf) by (by apply width_hd || lia). cbn [mbind outcome_bind].
  rewrite (parse_width_spec bound _ _ _ _ _ _ _ _ _ Hwv Hs1) by (done || lia). cbn [mbind outcome_bind].
  rewrite (parse_precision_spec bound _ _ _ _ _ _ _ _ _ Hpv Hs2) by (done || lia). cbn [mbind outcome_bind].
  rewrite (parse_length_spec _ _ _ _ _ Hs3) by done. rewrite (cstr_hd _ _ _ Hs4). simpl hd.
  destruct (prec_val_range _ _ _ _ _ _ (sp_len sp) Hpv) as [Hpr Hpr0].
  rewrite (convert_spec bound _ _ _ _ _ t va3) by (done || by eapply width_val_range). cbn [mbind outcome_bind].
  do 3 f_equal. simpl. rewrite !length_app. simpl. lia.
Qed.

(** The whole format. *)
Lemma format_loop_spec bound its va t : renders m safe bound its va t -> forall fuel p os,
  cstr m p (encode its) -> Forall item_ok its -> (length (encode its) <= bound)%nat -> (length its <= fuel)%nat ->
  (forall x, p <= x <= p + Z.of_nat (length (encode its)) -> safe x) -> agree os ->
  format_loop out buffer maxlen fuel bound p va os = Ret (emits t os).
Proof.
  assert (forall p s os, cstr m p s -> (forall x, p <= x <= p + Z.of_nat (length s) -> safe x) -> agree os -> cstr (o_mem os.2) p s) as Hmem.
  { intros p s os Hs Hx Ha. eapply cstr_ext; [|done]. intros x ?. by apply Ha, Hx. }
  induction 1 as [va|c its va t Hr IH|sp its va va1 va2 va3 fl1 w fl2 pr t1 t2 Hwv Hpv Ht Hr IH]; intros fuel p os Hs Hok Hb Hf Hx Ha;
    specialize (Hmem _ _ _ Hs Hx Ha).
  - destruct fuel; simpl; by rewrite (cstr_hd _ _ _ Hmem).
  - apply Forall_cons in Hok as [Hc Hok]. simpl in Hf, Hc. destruct fuel as [|fuel]; [lia|]. cbn [format_loop]. rewrite (cstr_hd _ _ _ Hmem).
    change (encode (Lit c :: its)) with (c :: encode its) in *. simpl in Hs, Hx, Hb. destruct Hs as (Hc1 & _ & Hs). simpl hd.
    destruct (Z.eqb_spec c 0); [lia|]. apply Z.eqb_neq in Hc as ->. simpl negb. cbv iota.
    rewrite IH; try done; [lia|lia|intros x ?; apply Hx; lia|by apply (agree_emits [c])].
  - apply Forall_cons in Hok as [Hc Hok]. simpl in Hf, Hc. destruct fuel as [|fuel]; [lia|]. cbn [format_loop]. rewrite (cstr_hd _ _ _ Hmem).
    set (e := enc_item (Conv sp)) in *. change (encode (Conv sp :: its)) with (e ++ encode its) in *. rewrite length_app in Hb, Hx.
    assert (rd (o_mem os.2) p = ch "%" /\ cstr (o_mem os.2) (p + 1) (sp_flags sp ++ enc_width (sp_width sp) ++ enc_prec (sp_prec sp) ++ enc_len (sp_len sp) ++ sp_conv sp :: encode its)) as [_ Hm].
    { unfold e in Hmem. simpl in Hmem. rewrite <- !app_assoc in Hmem. simpl in Hmem. by destruct Hmem as (_ & ? & ?). }
    change (hd 0 (e ++ encode its)) with (ch "%"). change (ch "%" =? 0) with false. change (ch "%" =? ch "%") with true. simpl negb. cbv iota.
    rewrite (format_spec_spec bound (p + 1) sp (encode its) va va1 va2 va3 fl1 w fl2 pr t1 os Hc Hm) by (done || fold e; lia).
    cbn [mbind outcome_bind]. fold e. replace (p + 1 + Z.of_nat (length e) - 1) with (p + Z.of_nat (length e)) by lia.
    rewrite IH; try done; [by rewrite emits_app|by apply cstr_app_r|lia|lia|intros x ?; apply Hx; lia|by apply agree_emits].
Qed.

End Emit.
End KprintfSpec.
