(* ===== verification/KprintfTheorems.v ===== *)
(** * Formatted output: theorems

    For kernel/src/std/kprintf.c: what [printf_] sends to the console and
    [snprintf_] stores, the numerals, the conversion buffer's bounds, and two
    inputs the formatter does not handle. *)

From stdpp Require Import list.
From S2P Require Import Prelude Macros Locking Mem CString Kprintf KprintfSpec.

Module KprintfTheorems.
Import Macros Locking Mem CString Kprintf KprintfSpec.

(** ** Output functions *)

Lemma emits_buffer buffer maxlen cs idx s :
  0 <= idx -> idx + Z.of_nat (length cs) < 2 ^ 64 -> 0 <= maxlen ->
  emits _out_buffer buffer maxlen cs (idx, s) =
    (idx + Z.of_nat (length cs), mk_outp (write_bytes (buffer + idx) (take (Z.to_nat (maxlen - idx)) cs) (o_mem s)) (o_dev s)).
Proof.
  revert idx s. induction cs as [|c cs IH]; intros idx [mm dev] Hi Hl Hm; simpl in *.
  - rewrite take_nil. simpl. f_equal. lia.
  - unfold put. simpl. rewrite u64_small by lia. unfold _out_buffer at 2. simpl. destruct (Z.ltb_spec idx maxlen).
    + rewrite IH by lia. simpl. replace (Z.to_nat (maxlen - idx)) with (S (Z.to_nat (maxlen - (idx + 1)))) by lia. simpl.
      replace (buffer + (idx + 1)) with (buffer + idx + 1) by lia. f_equal. lia.
    + rewrite IH by lia. simpl. replace (Z.to_nat (maxlen - idx)) with 0%nat by lia.
      replace (Z.to_nat (maxlen - (idx + 1))) with 0%nat by lia. simpl. f_equal. lia.
Qed.

Definition printable (cs : list Z) : list Z := filter (fun c => c <> 0) cs.

Lemma emits_char buffer maxlen cs idx s :
  0 <= idx -> idx + Z.of_nat (length cs) < 2 ^ 64 ->
  emits _out_char buffer maxlen cs (idx, s) = (idx + Z.of_nat (length cs), mk_outp (o_mem s) (o_dev s ++ printable cs)).
Proof.
  unfold printable. revert idx s. induction cs as [|c cs IH]; intros idx [mm dev] Hi Hl; simpl in *.
  - rewrite app_nil_r. f_equal. lia.
  - unfold put. simpl. rewrite u64_small by lia. rewrite IH by lia. unfold _out_char, _putchar. destruct (Z.eqb_spec c 0) as [->|Hc]; simpl.
    + rewrite filter_cons_False by lia. f_equal. lia.
    + rewrite filter_cons_True by done. rewrite <- app_assoc. f_equal. lia.
Qed.

Lemma safe_buffer buffer maxlen c idx s x :
  0 <= idx -> ~ (buffer <= x < buffer + maxlen) -> rd (o_mem (_out_buffer c buffer idx maxlen s)) x = rd (o_mem s) x.
Proof.
  intros Hi Hx. unfold _out_buffer. destruct (Z.ltb_spec idx maxlen); [|done]. simpl. rewrite rd_wr, decide_False; [done|]. lia.
Qed.

(** ** The whole format *)

Lemma conv_text_mono m (safe safe' : Z -> Prop) bound c w p fl va t va' :
  (forall x, safe x -> safe' x) -> conv_text m safe bound c w p fl va t va' -> conv_text m safe' bound c w p fl va t va'.
Proof. intros Hm []; econstructor; eauto. Qed.

Lemma renders_mono m (safe safe' : Z -> Prop) bound its va t :
  (forall x, safe x -> safe' x) -> renders m safe bound its va t -> renders m safe' bound its va t.
Proof. intros Hm. induction 1; econstructor; eauto. by eapply conv_text_mono. Qed.

Lemma encode_length its : (length its <= length (encode its))%nat.
Proof.
  induction its as [|it its IH]; [done|]. change (encode (it :: its)) with (enc_item it ++ encode its). rewrite length_app.
  destruct it; simpl; lia.
Qed.

(** A format of well-formed items at [format] with the text [t], everything
    read at [safe] addresses. *)
Definition formats (m : mem) (safe : Z -> Prop) (fuel : nat) (format : Z) (va : va_list) (t : list Z) : Prop :=
  exists its, Forall item_ok its /\ cstr m format (encode its) /\ (length (encode its) <= fuel)%nat /\
    (forall x, format <= x <= format + Z.of_nat (length (encode its)) -> safe x) /\
    renders m safe fuel its va t /\ Z.of_nat (length t) < 2 ^ 31.

Lemma formats_mono m (safe safe' : Z -> Prop) fuel format va t :
  (forall x, safe x -> safe' x) -> formats m safe fuel format va t -> formats m safe' fuel format va t.
Proof.
  intros Hm (its & ? & ? & ? & Hx & Hr & ?). exists its. do 3 (split; [done|]). split; [auto|]. split; [|done]. by eapply renders_mono.
Qed.

Lemma format_loop_text out buffer maxlen safe fuel format va t s :
  (forall c idx s x, 0 <= idx -> safe x -> rd (o_mem (out c buffer idx maxlen s)) x = rd (o_mem s) x) ->
  formats (o_mem s) safe fuel format va t ->
  format_loop out buffer maxlen fuel fuel format va (0, s) = Ret (emits out buffer maxlen t (0, s)).
Proof.
  intros Hs (its & Hok & Hc & Hf & Hx & Hr & _). pose proof (encode_length its).
  apply (format_loop_spec out buffer maxlen safe (o_mem s) Hs fuel its); try done. lia.
Qed.

(** The lock is taken and given back. *)
Lemma vsnprintf_text out buffer maxlen safe fuel format va t st :
  buffer <> 0 -> unlocked (pf_lock st) ->
  (forall c idx s x, 0 <= idx -> safe x -> rd (o_mem (out c buffer idx maxlen s)) x = rd (o_mem s) x) ->
  formats (o_mem (pf_out st)) safe fuel format va t ->
  _vsnprintf fuel out buffer maxlen format va st =
    let '(idx, s) := emits out buffer maxlen t (0, pf_out st) in
    Ret (s32 idx, mk_pf (out 0 buffer (if idx <? maxlen then idx else maxlen -! 1) maxlen s) (mk_spinlock 0 (pf_IF st)) (pf_IF st)).
Proof.
  intros Hb Hu Hs Hf. unfold _vsnprintf. rewrite (Seq.spin_lock_global_ret _ _ Hu). cbn [mbind outcome_bind].
  apply Z.eqb_neq in Hb as ->. rewrite (format_loop_text out buffer maxlen safe fuel format va t) by done. cbn [mbind outcome_bind].
  destruct (emits out buffer maxlen t (0, pf_out st)) as [idx s]. simpl. by destruct (pf_IF st).
Qed.

Lemma write_last p (l : list Z) m (i : nat) d :
  (i < length l)%nat -> wr (write_bytes p (take (S i) l) m) (p + Z.of_nat i) d = write_bytes p (take i l ++ [d]) m.
Proof.
  intros Hi. rewrite (take_S_r l i (l !!! i)) by (by apply list_lookup_lookup_total_lt). rewrite !write_bytes_app. simpl.
  rewrite length_take, Nat.min_l by lia. unfold wr. by rewrite insert_insert_eq.
Qed.

Lemma snprintf_spec fuel buffer count format va t st :
  buffer <> 0 -> 0 < count < 2 ^ 64 -> unlocked (pf_lock st) ->
  formats (o_mem (pf_out st)) (fun x => ~ (buffer <= x < buffer + count)) fuel format va t ->
  snprintf_ fuel buffer count format va st =
    Ret (Z.of_nat (length t),
         mk_pf (mk_outp (write_bytes buffer (take (Z.to_nat (count - 1)) t ++ [0]) (o_mem (pf_out st))) (o_dev (pf_out st)))
           (mk_spinlock 0 (pf_IF st)) (pf_IF st)).
Proof.
  intros Hb Hc Hu Hf. assert (Z.of_nat (length t) < 2 ^ 31) as Hl by (by destruct Hf as (? & ? & ? & ? & ? & ? & ?)).
  unfold snprintf_. rewrite (vsnprintf_text _ _ _ (fun x => ~ (buffer <= x < buffer + count)) _ _ _ t);
    [|done|done|intros; by apply safe_buffer|done].
  rewrite emits_buffer by lia. cbv beta iota. rewrite !Z.add_0_l, Z.add_0_r, Z.sub_0_r, s32_small by lia.
  do 3 f_equal. unfold _out_buffer. simpl. destruct (Z.ltb_spec (Z.of_nat (length t)) count) as [Hlt|Hge].
  - destruct (Z.ltb_spec (Z.of_nat (length t)) count); [|lia]. f_equal. rewrite !take_ge by lia. by rewrite write_bytes_app.
  - rewrite u64_small by lia. destruct (Z.ltb_spec (count - 1) count); [|lia]. f_equal.
    replace (Z.to_nat count) with (S (Z.to_nat (count - 1))) by lia. replace (buffer + (count - 1)) with (buffer + Z.of_nat (Z.to_nat (count - 1))) by lia.
    apply (write_last buffer t _ (Z.to_nat (count - 1)) 0). lia.
Qed.

Lemma printf_spec fuel buf format va t st :
  buf <> 0 -> unlocked (pf_lock st) -> formats (o_mem (pf_out st)) (fun _ => True) fuel format va t ->
  printf_ fuel buf format va st =
    Ret (Z.of_nat (length t), mk_pf (mk_outp (o_mem (pf_out st)) (o_dev (pf_out st) ++ printable t)) (mk_spinlock 0 (pf_IF st)) (pf_IF st)).
Proof.
  intros Hb Hu Hf. assert (Z.of_nat (length t) < 2 ^ 31) as Hl by (by destruct Hf as (? & ? & ? & ? & ? & ? & ?)).
  unfold printf_. rewrite (vsnprintf_text _ _ _ (fun _ => True) _ _ _ t);
    [|done|done| |done].
  - rewrite emits_char by lia. cbv beta iota. rewrite Z.add_0_l, s32_small by lia. done.
  - intros c idx s x _ _. unfold _out_char. by destruct (c =? 0).
Qed.

(** ** Numerals *)

Fixpoint undigits (base : Z) (ds : list Z) : Z :=
  match ds with [] => 0 | d :: ds => d + base * undigits base ds end.

(** The value of a digit character and of a numeral, most significant digit first. *)
Definition digit_val (c : Z) : Z :=
  if c <=? ch "9" then c - ch "0" else if c <=? ch "F" then c - ch "A" + 10 else c - ch "a" + 10.
Definition decode (base : Z) (cs : list Z) : Z := fold_left (fun v c => v * base + digit_val c) cs 0.

Lemma digit_val_char flags d : 0 <= d < 16 -> digit_val (digit_char flags d) = d.
Proof.
  intros Hd. unfold digit_val, digit_char. change (ch "9") with 57. change (ch "0") with 48. change (ch "F") with 70.
  change (ch "A") with 65. change (ch "a") with 97.
  destruct (tst flags FLAGS_UPPERCASE), (Z.ltb_spec d 10);
    repeat match goal with |- context [?a <=? ?b] => destruct (Z.leb_spec a b) end; lia.
Qed.

Lemma digits_undigits n value base :
  1 < base -> 0 <= value < base ^ Z.of_nat n -> undigits base (digits n value base) = value.
Proof.
  intros Hb. revert value. induction n as [|n IH]; intros value Hv; [simpl in *; lia|]. cbn [digits undigits].
  rewrite Nat2Z.inj_succ, Z.pow_succ_r in Hv by lia. pose proof (Z.div_mod value base ltac:(lia)) as Hd.
  destruct (Z.eqb_spec (value / base) 0) as [He|He]; simpl; [rewrite He in Hd; lia|]. rewrite IH; [lia|]. split; [apply Z.div_pos; lia|].
  apply Z.div_lt_upper_bound; lia.
Qed.

Lemma digits_range n value base : 1 < base -> Forall (fun d => 0 <= d < base) (digits n value base).
Proof.
  intros Hb. revert value. induction n as [|n IH]; intros value; simpl; [done|]. constructor; [apply Z.mod_pos_bound; lia|].
  destruct (_ =? 0); [done|apply IH].
Qed.

Lemma decode_reverse base cs : decode base (reverse cs) = undigits base (digit_val <$> cs).
Proof.
  unfold decode. induction cs as [|c cs IH]; [done|]. rewrite reverse_cons, fold_left_app, IH, fmap_cons. cbn [fold_left undigits]. lia.
Qed.

Lemma undigits_app base ds es : undigits base (ds ++ es) = undigits base ds + base ^ Z.of_nat (length ds) * undigits base es.
Proof.
  induction ds as [|d ds IH]; [simpl; lia|]. cbn [app undigits length]. rewrite IH, Nat2Z.inj_succ, Z.pow_succ_r by lia. ring.
Qed.

Lemma undigits_zeros base n : undigits base (replicate n 0) = 0.
Proof. induction n as [|n IH]; simpl; [done|]. rewrite IH. lia. Qed.

Lemma decode_digits flags base value z :
  1 < base <= 16 -> 0 <= value < base ^ 32 ->
  decode base (reverse ((digit_char flags <$> digits 32 value base) ++ replicate z (ch "0"))) = value.
Proof.
  intros Hb Hv. rewrite decode_reverse, fmap_app, fmap_replicate, undigits_app. change (digit_val (ch "0")) with 0.
  rewrite undigits_zeros, Z.mul_0_r, Z.add_0_r, <- list_fmap_compose.
  rewrite <- (digits_undigits 32 value base) at 2 by (simpl; lia). f_equal.
  rewrite <- (list_fmap_id (digits 32 value base)) at 2. apply list_fmap_ext. intros j d Hj.
  assert (0 <= d < base) by exact (Forall_lookup_1 _ _ _ _ (digits_range 32 value base ltac:(lia)) Hj).
  exact (digit_val_char flags d ltac:(lia)).
Qed.

Lemma rev_text_length buf width flags : (length (rev_text buf width flags) <= Nat.max (length buf) (Z.to_nat width))%nat.
Proof.
  unfold rev_text. rewrite !length_app, length_reverse. destruct (tst flags FLAGS_LEFT), (tst flags FLAGS_ZEROPAD); simpl; rewrite ?length_replicate; lia.
Qed.

Lemma lead_width_le negative width flags : 0 <= width < 2 ^ 32 -> lead_width negative width flags <= width.
Proof.
  intros Hw. unfold lead_width. destruct (Z.eqb_spec width 0); simpl; [rewrite !andb_false_r; done|].
  destruct (_ && _); [rewrite u32_small; lia|done].
Qed.

Lemma num_flags_id value flags : 0 <= flags < 2 ^ 32 -> tst flags FLAGS_HASH = false -> num_flags value flags = flags.
Proof.
  intros Hf Hh. unfold num_flags. destruct (value =? 0); [|done]. unfold clear_flags, FLAGS_HASH in *. rewrite tst_bit in Hh by lia.
  apply Z.bits_inj'. intros n Hn. rewrite Z.land_spec. destruct (decide (n < 32)); [|by rewrite (small_bits flags 32) by lia].
  unfold u32. rewrite Z.mod_pow2_bits_low, Z.lnot_spec by lia. destruct (decide (n = 4)) as [->|]; [by rewrite Hh|].
  rewrite Z.shiftl_1_l, Z.pow2_bits_false by lia. apply andb_true_r.
Qed.

Lemma tst_lor x a b : tst x (Z.lor a b) = tst x a || tst x b.
Proof.
  unfold tst. rewrite Z.land_lor_distr_r. destruct (Z.eqb_spec (Z.land x a) 0) as [->|Ha]; [by rewrite Z.lor_0_l|].
  simpl. apply negb_true_iff, Z.eqb_neq. intros [? _]%Z.lor_eq_0_iff. done.
Qed.

Lemma digits_short n k value base :
  1 < base -> 0 <= value < base ^ Z.of_nat (S k) -> (length (digits n value base) <= S k)%nat.
Proof.
  intros Hb. revert n value. induction k as [|k IH]; intros [|n] value Hv; simpl; try lia.
  - rewrite Z.div_small by (simpl in Hv; lia). done.
  - destruct (Z.eqb_spec (value / base) 0); simpl; [lia|]. apply le_n_S, IH. split; [apply Z.div_pos; lia|].
    rewrite (Nat2Z.inj_succ (S k)), Z.pow_succ_r in Hv by lia. apply Z.div_lt_upper_bound; lia.
Qed.

Lemma digits_nonempty n value base : (1 <= length (digits (S n) value base))%nat.
Proof. simpl. lia. Qed.

(** Zeros in front leave room for the sign. *)
Lemma lead_shape negative prec width flags ds :
  (1 <= length ds <= 31)%nat -> 0 <= prec <= 31 -> 0 <= width <= 32 ->
  exists z, lead negative prec width flags ds = ds ++ replicate z (ch "0") /\
    (sign_chars negative flags <> [] -> (length ds + z <= 31)%nat) /\
    (tst flags FLAGS_LEFT = false -> tst flags FLAGS_ZEROPAD = true ->
       width <= Z.of_nat (length ds + z + length (sign_chars negative flags))).
Proof.
  intros Hl Hp Hw. unfold lead, add_zeros, lead_width. destruct (tst flags FLAGS_LEFT); simpl.
  { exists 0%nat. rewrite app_nil_r. split; [done|]. split; [lia|done]. }
  destruct (tst flags FLAGS_ZEROPAD); simpl.
  - eexists. rewrite <- app_assoc, <- replicate_add. split; [done|]. rewrite length_app, length_replicate.
    assert ((negative || tst flags (Z.lor FLAGS_PLUS FLAGS_SPACE)) = negb (bool_decide (sign_chars negative flags = []))) as ->.
    { unfold sign_chars. rewrite tst_lor. by destruct negative, (tst flags FLAGS_PLUS), (tst flags FLAGS_SPACE). }
    assert (sign_chars negative flags = [] \/ length (sign_chars negative flags) = 1%nat) as Hs.
    { unfold sign_chars. destruct negative, (tst flags FLAGS_PLUS), (tst flags FLAGS_SPACE); auto. }
    destruct (Z.eqb_spec width 0) as [->|Hw0], Hs as [->|Hs]; simpl.
    all: try (destruct (sign_chars negative flags); [done|]; simpl in *); rewrite ?u32_small by lia; split; intros; lia || done.
  - eexists. split; [done|]. rewrite <- ?length_replicate. split; [|done]. lia.
Qed.

Lemma add_sign_room negative flags buf :
  sign_chars negative flags = [] \/ (length buf <= 31)%nat -> add_sign negative flags buf = buf ++ sign_chars negative flags.
Proof.
  intros [Hs|Hl]; unfold add_sign.
  - rewrite Hs, app_nil_r. by destruct (room buf).
  - rewrite room_spec, bool_decide_true by lia. done.
Qed.

(** ** Theorems *)

(** C17: For every format of well-formed specifications and arguments to match,
    [printf_] sends its text to the console and returns its length, and
    [snprintf_] with the same arguments returns the same number and stores
    the text cut to [count - 1] characters with a terminator behind it, and
    no other byte: whatever mix of flags, widths, precisions, length
    modifiers and conversions the format has, as long as the format and its
    strings do not lie in the buffer. *)
Theorem snprintf_truncates_printf fuel buf buffer count format va t st :
  buf <> 0 -> buffer <> 0 -> 0 < count < 2 ^ 64 -> unlocked (pf_lock st) ->
  formats (o_mem (pf_out st)) (fun x => ~ (buffer <= x < buffer + count)) fuel format va t ->
  printf_ fuel buf format va st =
    Ret (Z.of_nat (length t), mk_pf (mk_outp (o_mem (pf_out st)) (o_dev (pf_out st) ++ printable t)) (mk_spinlock 0 (pf_IF st)) (pf_IF st)) /\
  snprintf_ fuel buffer count format va st =
    Ret (Z.of_nat (length t),
         mk_pf (mk_outp (write_bytes buffer (take (Z.to_nat (count - 1)) t ++ [0]) (o_mem (pf_out st))) (o_dev (pf_out st)))
           (mk_spinlock 0 (pf_IF st)) (pf_IF st)).
Proof.
  intros Hb Hb' Hc Hu Hf. split; [|by apply snprintf_spec]. apply printf_spec; [done|done|]. by eapply formats_mono.
Qed.

(** C18: The 32-byte conversion buffer of [_ntoa_long] is never overrun: for
    every value, base, precision, width and flags the conversion returns, and
    hands on no more characters than the buffer or the width have. *)
Theorem ntoa_long_bounds out buffer maxlen value negative base prec width flags os :
  0 <= width < 2 ^ 32 -> returns (_ntoa_long out buffer maxlen value negative base prec width flags os) (fun os' =>
    exists t, os' = emits out buffer maxlen t os /\ (length t <= Nat.max 32 (Z.to_nat width))%nat).
Proof.
  intros Hw. rewrite ntoa_long_spec by lia. simpl. eexists. split; [done|]. unfold num_text.
  etrans; [apply rev_text_length|]. set (fl := num_flags value flags). pose proof (lead_width_le negative width fl Hw).
  assert (forall b, (length b <= 32)%nat -> (length (add_sign negative fl b) <= 32)%nat) as Hs by (intros; by apply add_sign_length).
  pose proof (lead_length negative prec width fl _ (num_digits_length value base fl)) as Hl.
  etrans; [|apply Nat.max_le_compat_l, Z2Nat.inj_le; [| |done]; [apply lead_width_nonneg; lia|lia]].
  destruct (tst fl FLAGS_HASH); apply Nat.max_le_compat_r, Hs; [|done]. by apply ntoa_hash_spec.
Qed.

(** C19: the numeral of a number with up to 31 digits in a base from 2 to 16,
    for a precision up to 31 and a width up to 32, without the flag [#] and
    not of 0 with an explicit precision: padding, then the sign, then zeros and digits that read back as the
    value, then padding, at least as wide as asked for. *)
Theorem ntoa_long_numeral out buffer maxlen value negative base prec width flags os :
  1 < base <= 16 -> 0 <= value < base ^ 31 -> 0 <= prec <= 31 -> 0 <= width <= 32 -> 0 <= flags < 2 ^ 32 ->
  tst flags FLAGS_HASH = false -> (tst flags FLAGS_PRECISION = false \/ value <> 0) ->
  exists l r num,
    _ntoa_long out buffer maxlen value negative base prec width flags os =
      Ret (emits out buffer maxlen (replicate l (ch " ") ++ sign_chars negative flags ++ num ++ replicate r (ch " ")) os) /\
    num <> [] /\ decode base num = value /\
    width <= Z.of_nat (l + length (sign_chars negative flags) + length num + r) /\ (l = 0%nat \/ r = 0%nat).
Proof.
  intros Hb Hv Hp Hw Hf Hh Hd. rewrite ntoa_long_spec by lia. unfold num_text. rewrite num_flags_id by done. rewrite Hh.
  assert (num_digits value base flags = digit_char flags <$> digits 32 value base) as ->.
  { unfold num_digits. destruct Hd as [->|Hd]; [done|]. apply Z.eqb_neq in Hd as ->. by rewrite orb_true_r. }
  set (ds := digit_char flags <$> digits 32 value base).
  assert (1 <= length ds <= 31)%nat as Hl.
  { unfold ds. rewrite length_fmap. split; [apply (digits_nonempty 31)|apply (digits_short 32 30); [lia|done]]. }
  assert (forall z, decode base (reverse (ds ++ replicate z (ch "0"))) = value) as Hdec.
  { intros z. apply decode_digits; [done|]. split; [lia|]. change 32 with (Z.succ 31). rewrite Z.pow_succ_r by lia.
    assert (0 < base ^ 31) by (apply Z.pow_pos_nonneg; lia). nia. }
  clearbody ds. destruct (lead_shape negative prec width flags ds) as (z & -> & Hz & Hzp); [lia..|]. set (buf := ds ++ replicate z (ch "0")) in *.
  assert (length buf = length ds + z)%nat as Hlb by (unfold buf; by rewrite length_app, length_replicate).
  assert (sign_chars negative flags = [] \/ length (sign_chars negative flags) = 1%nat) as Hs.
  { unfold sign_chars. destruct negative, (tst flags FLAGS_PLUS), (tst flags FLAGS_SPACE); auto. }
  rewrite add_sign_room; [|destruct Hs as [Hs|Hs]; [by left|right; rewrite Hlb; apply Hz; intros He; by rewrite He in Hs]].
  assert (lead_width negative width flags = width \/ tst flags FLAGS_LEFT = false /\ tst flags FLAGS_ZEROPAD = true) as Hlw.
  { unfold lead_width. destruct (tst flags FLAGS_LEFT), (tst flags FLAGS_ZEROPAD); simpl; auto. rewrite andb_false_r. by left. }
  set (w := lead_width negative width flags) in *. unfold rev_text. rewrite reverse_app, length_app, Hlb.
  assert (reverse (sign_chars negative flags) = sign_chars negative flags) as ->.
  { destruct (sign_chars negative flags) as [|? [|]]; [done|done|]. destruct Hs as [?|?]; simpl in *; lia || done. }
  exists (if negb (tst flags FLAGS_LEFT) && negb (tst flags FLAGS_ZEROPAD) then Z.to_nat w - (length ds + z + length (sign_chars negative flags)) else 0)%nat,
    (if tst flags FLAGS_LEFT then Z.to_nat w - (length ds + z + length (sign_chars negative flags)) else 0)%nat, (reverse buf).
  rewrite length_reverse, Hlb. split; [|split; [|split; [apply Hdec|split]]].
  - rewrite <- app_assoc. by destruct (tst flags FLAGS_LEFT), (tst flags FLAGS_ZEROPAD).
  - intros He. apply (f_equal length) in He. rewrite length_reverse in He. simpl in He. lia.
  - destruct (tst flags FLAGS_LEFT) eqn:HL, (tst flags FLAGS_ZEROPAD) eqn:HZ; simpl; destruct Hlw as [->|[? ?]]; try done; try lia.
    all: specialize (Hzp eq_refl eq_refl); lia.
  - destruct (tst flags FLAGS_LEFT); auto.
Qed.

(** Zero padding can push the sign out: a negative number with the [0]
    flag and a width of 34 or more fills the conversion buffer with zeros,
    and 32 digits are printed without a minus sign. *)
Theorem ntoa_long_sign_lost out buffer maxlen value base prec width flags os :
  1 < base <= 16 -> 33 < width < 2 ^ 32 -> tst (num_flags value flags) FLAGS_ZEROPAD = true ->
  tst (num_flags value flags) FLAGS_LEFT = false -> tst (num_flags value flags) FLAGS_HASH = false ->
  exists t, _ntoa_long out buffer maxlen value true base prec width flags os = Ret (emits out buffer maxlen t os) /\
    length t = 32%nat /\ ch "-" ∉ t.
Proof.
  intros Hb Hw HZ HL HH. rewrite ntoa_long_spec by lia. eexists. split; [done|]. unfold num_text. set (fl := num_flags value flags) in *.
  rewrite HH. unfold lead, lead_width. rewrite HL, HZ. simpl negb. cbv iota. destruct (Z.eqb_spec width 0); [lia|]. cbv [negb andb orb].
  rewrite u32_small by lia. set (ds := num_digits value base fl).
  assert (length ds <= 32)%nat as Hl by apply num_digits_length.
  assert (Forall (fun c => ch "0" <= c) ds) as Hf.
  { unfold ds, num_digits. destruct (_ || _); [|done]. apply Forall_fmap. eapply Forall_impl; [apply digits_range; lia|].
    intros d Hd. simpl in Hd |- *. unfold digit_char. change (ch "0") with 48. change (ch "A") with 65. change (ch "a") with 97.
    destruct (Z.ltb_spec d 10), (tst fl FLAGS_UPPERCASE); lia. }
  clearbody ds. pose proof (add_zeros_length prec ds Hl) as Hl1.
  assert (Forall (fun c => ch "0" <= c) (add_zeros (width - 1) (add_zeros prec ds))) as Hf2.
  { unfold add_zeros. rewrite !Forall_app. split; [split; [done|]|]; by apply Forall_replicate. }
  assert (length (add_zeros (width - 1) (add_zeros prec ds)) = 32)%nat as Hl2.
  { unfold add_zeros at 1. rewrite length_app, length_replicate. lia. }
  unfold add_sign. rewrite room_spec, bool_decide_false by lia. unfold rev_text. rewrite HL, HZ. simpl. rewrite app_nil_r, length_reverse.
  split; [done|]. rewrite elem_of_reverse. intros Hin. rewrite Forall_forall in Hf2. specialize (Hf2 _ Hin).
  change (ch "0") with 48 in Hf2. change (ch "-") with 45 in Hf2. lia.
Qed.

(** A format string that ends in [%] is read past its end: the
    terminator is taken for the conversion character, printed, and the loop
    goes on with the byte behind it. *)
Theorem format_trailing_percent out buffer maxlen fuel bound p va os :
  rd (o_mem os.2) p = ch "%" -> rd (o_mem os.2) (p + 1) = 0 ->
  format_loop out buffer maxlen (S fuel) bound p va os =
    format_loop out buffer maxlen fuel bound (p + 2) va (put out buffer maxlen 0 os).
Proof.
  intros Hp Hz. cbn [format_loop]. rewrite Hp. change (ch "%" =? 0) with false. change (ch "%" =? ch "%") with true. simpl negb. cbv iota.
  unfold format_spec. assert (parse_flags bound (p + 1) 0 (o_mem os.2) = Ret (p + 1, 0)) as -> by (by destruct bound; simpl; rewrite Hz).
  assert (parse_width bound (p + 1) 0 va (o_mem os.2) = Ret (p + 1, 0, 0, va)) as Hw by (unfold parse_width; by rewrite Hz).
  assert (parse_precision bound (p + 1) 0 va (o_mem os.2) = Ret (p + 1, 0, 0, va)) as Hpr by (unfold parse_precision; by rewrite Hz).
  assert (parse_length (p + 1) 0 (o_mem os.2) = (p + 1, 0)) as Hl by (unfold parse_length; by rewrite Hz).
  cbn [mbind outcome_bind]. rewrite Hw. cbn [mbind outcome_bind]. rewrite Hpr. cbn [mbind outcome_bind]. rewrite Hl, Hz.
  change (convert out buffer maxlen bound 0 0 0 0 va os) with (Ret (va, put out buffer maxlen 0 os)). cbn [mbind outcome_bind].
  by replace (p + 1 + 1) with (p + 2) by lia.
Qed.

Module Sample.

(** [n=%-4d|] at 1000. *)
Definition its : list item := [Lit (ch "n"); Lit (ch "="); Conv (mk_spec [ch "-"] (WNum [4]) PNone LNone (ch "d")); Lit (ch "|")].
Definition m0 : mem := write_bytes 1000 (encode its ++ [0]) ∅.
Definition st0 : pf := mk_pf (mk_outp m0 []) (mk_spinlock 0 false) true.
Definition text : list Z := [110; 61; 45; 55; 32; 32; 124].

Lemma sample_formats (safe : Z -> Prop) :
  (forall x, 1000 <= x <= 1010 -> safe x) -> formats m0 safe 20 1000 [u64 (-7)] text.
Proof.
  intros Hs. exists its. split; [|split; [|split; [|split; [|split]]]].
  - unfold its. rewrite !Forall_cons. split; [done|]. split; [done|]. split; [|split; done]. split; simpl; [|split|done|done].
    + apply Forall_singleton. by eexists.
    + by apply Forall_singleton.
    + by exists 4, [].
  - by vm_compute.
  - vm_compute. lia.
  - intros x Hx. apply Hs. change (length (encode its)) with 7%nat in Hx. lia.
  - change text with ([ch "n"; ch "="] ++ int_text (ch "d") 4 0 FLAGS_LEFT (u64 (-7)) ++ [ch "|"]). do 2 constructor.
    eapply renders_conv; [apply (width_num _ [4])|constructor| |repeat constructor]. by apply text_int.
  - done.
Qed.

Lemma snprintf_truncates_printf_witness :
  printf_ 20 1 1000 [u64 (-7)] st0 = Ret (7, mk_pf (mk_outp m0 text) (mk_spinlock 0 true) true) /\
  snprintf_ 20 2000 5 1000 [u64 (-7)] st0 =
    Ret (7, mk_pf (mk_outp (write_bytes 2000 [110; 61; 45; 55; 0] m0) []) (mk_spinlock 0 true) true).
Proof.
  apply (snprintf_truncates_printf 20 1 2000 5 1000 [u64 (-7)] text st0); [done|done|done|done|].
  apply sample_formats. intros x Hx. simpl. lia.
Defined.

Lemma ntoa_long_bounds_witness :
  returns (_ntoa_long _out_char 1 10 12345 true 2 40 50 (Z.lor FLAGS_PLUS FLAGS_ZEROPAD) (0, mk_outp ∅ [])) (fun os' =>
    exists t, os' = emits _out_char 1 10 t (0, mk_outp ∅ []) /\ (length t <= 50)%nat).
Proof. apply (ntoa_long_bounds _out_char 1 10 12345 true 2 40 50). lia. Defined.

Lemma ntoa_long_numeral_witness :
  exists l r num, _ntoa_long _out_char 1 10 255 true 16 4 8 0 (0, mk_outp ∅ []) =
    Ret (emits _out_char 1 10 (replicate l (ch " ") ++ [ch "-"] ++ num ++ replicate r (ch " ")) (0, mk_outp ∅ [])) /\ decode 16 num = 255.
Proof.
  destruct (ntoa_long_numeral _out_char 1 10 255 true 16 4 8 0 (0, mk_outp ∅ [])) as (l & r & num & H & _ & Hd & _);
    [lia|lia|lia|lia|lia|done|by left|]. exists l, r, num. split; [exact H|exact Hd].
Defined.

Lemma ntoa_long_sign_lost_witness :
  exists t, _ntoa_long _out_char 1 10 5 true 10 0 40 FLAGS_ZEROPAD (0, mk_outp ∅ []) = Ret (emits _out_char 1 10 t (0, mk_outp ∅ [])) /\
    length t = 32%nat /\ ch "-" ∉ t.
Proof. apply ntoa_long_sign_lost; [lia|lia|done|done|done]. Defined.

Lemma format_trailing_percent_witness :
  let m := write_bytes 1000 [37; 0; 120; 0] ∅ in
  format_loop _out_char 1 10 9 9 1000 [] (0, mk_outp m []) =
    format_loop _out_char 1 10 8 9 1002 [] (put _out_char 1 10 0 (0, mk_outp m [])) /\
  format_loop _out_char 1 10 9 9 1000 [] (0, mk_outp m []) = Ret (2, mk_outp m [120]).
Proof. intros m. split; [apply (format_trailing_percent _out_char 1 10 8 9 1000); by vm_compute|by vm_compute]. Defined.

End Sample.
End KprintfTheorems.
