(* ===== verification/RunQueue.v ===== *)
(** * Tasks and run queues (kernel/include/process.h, kernel/src/proc/scheduler.c)

    A task is a record of the store [gmap Z task], by address; a run queue
    has a head, a tail and a counter, and links tasks through their [rr_next]
    and [rr_prev].  [rq_rep q ts l]: the queue [q] holds the tasks [l] in this
    order.  Each queue operation acts on that list, takes and releases the
    queue's lock, and changes nothing else of any task. *)

From stdpp Require Import gmap.
From S2P Require Import Prelude Locking.

Module RunQueue.
Import Locking.

(** ** Tasks *)

Inductive task_state :=
  | TASK_STATE_UNITIALIZED
  | TASK_STATE_RUNNING
  | TASK_STATE_READY
  | TASK_STATE_SLEEPING
  | TASK_STATE_KILLED.

#[global] Instance task_state_eq_dec : EqDecision task_state.
Proof. solve_decision. Defined.

(** [enum task_priority]: the lower the more urgent. *)
Definition TASK_PRIORITY_CRITICAL : Z := 0.
Definition TASK_PRIORITY_HIGH : Z := 1.
Definition TASK_PRIORITY_NORMAL : Z := 2.
Definition TASK_PRIORITY_LOW : Z := 3.
Definition TASK_PRIORITY_IDLE : Z := 4.
Definition TASK_PRIORITY_MAX_PRIORITIES : Z := 5.

Definition TASK_FLAGS_KERNEL_THREAD : Z := Z.shiftl 1 0.
Definition TASK_FLAGS_KERNEL_IDLE : Z := Z.shiftl 1 1.

Record jmpbuf := mk_jmpbuf {
  rip : Z; rsp : Z; rbp : Z; rbx : Z; r12 : Z; r13 : Z; r14 : Z; r15 : Z
}.

(** [vector_uintptr_t_t]: the elements are in memory at [v_data]. *)
Record vec := mk_vec { v_data : Z; v_size : Z; v_capacity : Z }.

Record task := mk_task {
  t_tid : Z;
  t_gid : Z;
  t_tg_leader : word;
  t_parent : word;
  t_first_child : word;
  t_sibling_prev : word;
  t_sibling_next : word;
  t_stacks : vec;
  t_kernel_stack : Z;
  t_stack : Z;
  t_stack_size : Z;
  t_pmc : Z;
  t_context : jmpbuf;
  t_fs_base : Z;
  t_flags : Z;
  t_state : task_state;
  t_prio : Z;
  t_rr_next : word;
  t_rr_prev : word
}.

Definition set_parent (x : word) (t : task) : task :=
  mk_task (t_tid t) (t_gid t) (t_tg_leader t) x (t_first_child t) (t_sibling_prev t) (t_sibling_next t) (t_stacks t) (t_kernel_stack t) (t_stack t) (t_stack_size t) (t_pmc t) (t_context t) (t_fs_base t) (t_flags t) (t_state t) (t_prio t) (t_rr_next t) (t_rr_prev t).
Definition set_first_child (x : word) (t : task) : task :=
  mk_task (t_tid t) (t_gid t) (t_tg_leader t) (t_parent t) x (t_sibling_prev t) (t_sibling_next t) (t_stacks t) (t_kernel_stack t) (t_stack t) (t_stack_size t) (t_pmc t) (t_context t) (t_fs_base t) (t_flags t) (t_state t) (t_prio t) (t_rr_next t) (t_rr_prev t).
Definition set_sibling_prev (x : word) (t : task) : task :=
  mk_task (t_tid t) (t_gid t) (t_tg_leader t) (t_parent t) (t_first_child t) x (t_sibling_next t) (t_stacks t) (t_kernel_stack t) (t_stack t) (t_stack_size t) (t_pmc t) (t_context t) (t_fs_base t) (t_flags t) (t_state t) (t_prio t) (t_rr_next t) (t_rr_prev t).
Definition set_sibling_next (x : word) (t : task) : task :=
  mk_task (t_tid t) (t_gid t) (t_tg_leader t) (t_parent t) (t_first_child t) (t_sibling_prev t) x (t_stacks t) (t_kernel_stack t) (t_stack t) (t_stack_size t) (t_pmc t) (t_context t) (t_fs_base t) (t_flags t) (t_state t) (t_prio t) (t_rr_next t) (t_rr_prev t).
Definition set_stacks (x : vec) (t : task) : task :=
  mk_task (t_tid t) (t_gid t) (t_tg_leader t) (t_parent t) (t_first_child t) (t_sibling_prev t) (t_sibling_next t) x (t_kernel_stack t) (t_stack t) (t_stack_size t) (t_pmc t) (t_context t) (t_fs_base t) (t_flags t) (t_state t) (t_prio t) (t_rr_next t) (t_rr_prev t).
Definition set_kernel_stack (x : Z) (t : task) : task :=
  mk_task (t_tid t) (t_gid t) (t_tg_leader t) (t_parent t) (t_first_child t) (t_sibling_prev t) (t_sibling_next t) (t_stacks t) x (t_stack t) (t_stack_size t) (t_pmc t) (t_context t) (t_fs_base t) (t_flags t) (t_state t) (t_prio t) (t_rr_next t) (t_rr_prev t).
Definition set_stack (x : Z) (t : task) : task :=
  mk_task (t_tid t) (t_gid t) (t_tg_leader t) (t_parent t) (t_first_child t) (t_sibling_prev t) (t_sibling_next t) (t_stacks t) (t_kernel_stack t) x (t_stack_size t) (t_pmc t) (t_context t) (t_fs_base t) (t_flags t) (t_state t) (t_prio t) (t_rr_next t) (t_rr_prev t).
Definition set_stack_size (x : Z) (t : task) : task :=
  mk_task (t_tid t) (t_gid t) (t_tg_leader t) (t_parent t) (t_first_child t) (t_sibling_prev t) (t_sibling_next t) (t_stacks t) (t_kernel_stack t) (t_stack t) x (t_pmc t) (t_context t) (t_fs_base t) (t_flags t) (t_state t) (t_prio t) (t_rr_next t) (t_rr_prev t).
Definition set_pmc (x : Z) (t : task) : task :=
  mk_task (t_tid t) (t_gid t) (t_tg_leader t) (t_parent t) (t_first_child t) (t_sibling_prev t) (t_sibling_next t) (t_stacks t) (t_kernel_stack t) (t_stack t) (t_stack_size t) x (t_context t) (t_fs_base t) (t_flags t) (t_state t) (t_prio t) (t_rr_next t) (t_rr_prev t).
Definition set_context (x : jmpbuf) (t : task) : task :=
  mk_task (t_tid t) (t_gid t) (t_tg_leader t) (t_parent t) (t_first_child t) (t_sibling_prev t) (t_sibling_next t) (t_stacks t) (t_kernel_stack t) (t_stack t) (t_stack_size t) (t_pmc t) x (t_fs_base t) (t_flags t) (t_state t) (t_prio t) (t_rr_next t) (t_rr_prev t).
Definition set_fs_base (x : Z) (t : task) : task :=
  mk_task (t_tid t) (t_gid t) (t_tg_leader t) (t_parent t) (t_first_child t) (t_sibling_prev t) (t_sibling_next t) (t_stacks t) (t_kernel_stack t) (t_stack t) (t_stack_size t) (t_pmc t) (t_context t) x (t_flags t) (t_state t) (t_prio t) (t_rr_next t) (t_rr_prev t).
Definition set_flags (x : Z) (t : task) : task :=
  mk_task (t_tid t) (t_gid t) (t_tg_leader t) (t_parent t) (t_first_child t) (t_sibling_prev t) (t_sibling_next t) (t_stacks t) (t_kernel_stack t) (t_stack t) (t_stack_size t) (t_pmc t) (t_context t) (t_fs_base t) x (t_state t) (t_prio t) (t_rr_next t) (t_rr_prev t).
Definition set_state (x : task_state) (t : task) : task :=
  mk_task (t_tid t) (t_gid t) (t_tg_leader t) (t_parent t) (t_first_child t) (t_sibling_prev t) (t_sibling_next t) (t_stacks t) (t_kernel_stack t) (t_stack t) (t_stack_size t) (t_pmc t) (t_context t) (t_fs_base t) (t_flags t) x (t_prio t) (t_rr_next t) (t_rr_prev t).
Definition set_prio (x : Z) (t : task) : task :=
  mk_task (t_tid t) (t_gid t) (t_tg_leader t) (t_parent t) (t_first_child t) (t_sibling_prev t) (t_sibling_next t) (t_stacks t) (t_kernel_stack t) (t_stack t) (t_stack_size t) (t_pmc t) (t_context t) (t_fs_base t) (t_flags t) (t_state t) x (t_rr_next t) (t_rr_prev t).
Definition set_rr_next (x : word) (t : task) : task :=
  mk_task (t_tid t) (t_gid t) (t_tg_leader t) (t_parent t) (t_first_child t) (t_sibling_prev t) (t_sibling_next t) (t_stacks t) (t_kernel_stack t) (t_stack t) (t_stack_size t) (t_pmc t) (t_context t) (t_fs_base t) (t_flags t) (t_state t) (t_prio t) x (t_rr_prev t).
Definition set_rr_prev (x : word) (t : task) : task :=
  mk_task (t_tid t) (t_gid t) (t_tg_leader t) (t_parent t) (t_first_child t) (t_sibling_prev t) (t_sibling_next t) (t_stacks t) (t_kernel_stack t) (t_stack t) (t_stack_size t) (t_pmc t) (t_context t) (t_fs_base t) (t_flags t) (t_state t) (t_prio t) (t_rr_next t) x.
Definition set_tid (x : Z) (t : task) : task :=
  mk_task x (t_gid t) (t_tg_leader t) (t_parent t) (t_first_child t) (t_sibling_prev t) (t_sibling_next t) (t_stacks t) (t_kernel_stack t) (t_stack t) (t_stack_size t) (t_pmc t) (t_context t) (t_fs_base t) (t_flags t) (t_state t) (t_prio t) (t_rr_next t) (t_rr_prev t).
Definition set_gid (x : Z) (t : task) : task :=
  mk_task (t_tid t) x (t_tg_leader t) (t_parent t) (t_first_child t) (t_sibling_prev t) (t_sibling_next t) (t_stacks t) (t_kernel_stack t) (t_stack t) (t_stack_size t) (t_pmc t) (t_context t) (t_fs_base t) (t_flags t) (t_state t) (t_prio t) (t_rr_next t) (t_rr_prev t).
Definition set_tg_leader (x : word) (t : task) : task :=
  mk_task (t_tid t) (t_gid t) x (t_parent t) (t_first_child t) (t_sibling_prev t) (t_sibling_next t) (t_stacks t) (t_kernel_stack t) (t_stack t) (t_stack_size t) (t_pmc t) (t_context t) (t_fs_base t) (t_flags t) (t_state t) (t_prio t) (t_rr_next t) (t_rr_prev t).

Abbreviation store := (gmap Z task).

(** [p->field] *)
Definition get_task (p : word) (ts : store) : outcome task :=
  match p with Ref a => of_option "no task there" (ts !! a) | Num _ => Fault "null task" end.

(** [p->field = x] *)
Definition upd_task (p : word) (f : task -> task) (ts : store) : outcome store :=
  match p with
  | Ref a => t ← of_option "no task there" (ts !! a); Ret (<[a := f t]> ts)
  | Num _ => Fault "null task"
  end.

(** ** Run queues *)

Record runqueue := mk_rq {
  rq_num_tasks : Z;
  rq_head : word;
  rq_tail : word;
  rq_lock : k_spinlock_t
}.

(** A queue's critical section: the body gets the queue without its lock. *)
Definition rq_section {A} (IF : bool) (q : runqueue)
    (body : outcome (A * (Z * word * word) * store)) : outcome (A * runqueue * store * bool) :=
  '(IF, l) ← Seq.spin_lock_global IF (rq_lock q);
  '(a, (n, h, tl), ts) ← body;
  let '(IF, l) := Seq.spin_unlock_global IF l in
  Ret (a, mk_rq n h tl l, ts, IF).

Definition runqueue_pop_front (q : runqueue) (ts : store) (IF : bool) : outcome (word * runqueue * store * bool) :=
  rq_section IF q
    (if negb (nonnull (rq_head q)) then Ret (NULL, (rq_num_tasks q, rq_head q, rq_tail q), ts)
     else
       let ret := rq_head q in
       '(h, tl, ts) ←
         (if decide (rq_head q = rq_tail q) then Ret (NULL, NULL, ts)
          else
            t ← get_task (rq_head q) ts;
            let h := t_rr_next t in
            ts ← upd_task h (set_rr_prev NULL) ts;
            Ret (h, rq_tail q, ts));
       ts ← upd_task ret (fun t => set_rr_next NULL (set_rr_prev NULL t)) ts;
       Ret (ret, (s32 (rq_num_tasks q - 1), h, tl), ts)).

Definition runqueue_insert_front (q : runqueue) (task : word) (ts : store) (IF : bool) : outcome (runqueue * store * bool) :=
  if negb (nonnull task) then Panic "task == 0"
  else
    '(_, q, ts, IF) ← rq_section IF q
      ('(h, tl, ts) ←
         (if negb (nonnull (rq_head q)) then
            ts ← upd_task task (set_rr_next NULL) ts;
            ts ← upd_task task (set_rr_prev NULL) ts;
            Ret (task, task, ts)
          else
            ts ← upd_task task (set_rr_prev NULL) ts;
            ts ← upd_task task (set_rr_next (rq_head q)) ts;
            ts ← upd_task (rq_head q) (set_rr_prev task) ts;
            Ret (task, rq_tail q, ts));
       Ret (tt, (s32 (rq_num_tasks q + 1), h, tl), ts));
    Ret (q, ts, IF).

Definition runqueue_insert_back (q : runqueue) (task : word) (ts : store) (IF : bool) : outcome (runqueue * store * bool) :=
  if negb (nonnull task) then Panic "task == 0"
  else
    '(_, q, ts, IF) ← rq_section IF q
      ('(h, tl, ts) ←
         (if negb (nonnull (rq_tail q)) then
            ts ← upd_task task (set_rr_next NULL) ts;
            ts ← upd_task task (set_rr_prev NULL) ts;
            Ret (task, task, ts)
          else
            ts ← upd_task task (set_rr_next NULL) ts;
            ts ← upd_task (rq_tail q) (set_rr_next task) ts;
            ts ← upd_task task (set_rr_prev (rq_tail q)) ts;
            Ret (rq_head q, task, ts));
       Ret (tt, (s32 (rq_num_tasks q + 1), h, tl), ts));
    Ret (q, ts, IF).

Definition runqueue_remove (q : runqueue) (task : word) (ts : store) (IF : bool) : outcome (runqueue * store * bool) :=
  if negb (nonnull task) then Panic "task == 0"
  else
    '(_, q, ts, IF) ← rq_section IF q
      (t ← get_task task ts;
       let '(h, tl) :=
         if decide (task = rq_head q) then
           let h := t_rr_next t in (h, if nonnull h then rq_tail q else NULL)
         else if decide (task = rq_tail q) then
           let tl := t_rr_prev t in (if nonnull tl then rq_head q else NULL, tl)
         else (rq_head q, rq_tail q) in
       ts ← (if nonnull (t_rr_prev t) then upd_task (t_rr_prev t) (set_rr_next (t_rr_next t)) ts else Ret ts);
       ts ← (if nonnull (t_rr_next t) then upd_task (t_rr_next t) (set_rr_prev (t_rr_prev t)) ts else Ret ts);
       ts ← upd_task task (fun t => set_rr_next NULL (set_rr_prev NULL t)) ts;
       Ret (tt, (s32 (rq_num_tasks q - 1), h, tl), ts));
    Ret (q, ts, IF).

End RunQueue.
