(* ===== verification/RunQueueSpec.v ===== *)
(** * Run queues as lists

    [seg ts p l n]: the tasks of [l] are linked in this order, the first one's
    [rr_prev] is [p] and the last one's [rr_next] is [n].  [rq_rep q ts l] and
    what the operations of kernel/src/proc/scheduler.c do to [l]. *)

From stdpp Require Import gmap.
From S2P Require Import Prelude Locking RunQueue.

Module RunQueueSpec.
Import Locking RunQueue.

Definition first (l : list Z) (n : word) : word := match l with [] => n | a :: _ => Ref a end.
Definition final (p : word) (l : list Z) : word := match last l with Some a => Ref a | None => p end.

Fixpoint seg (ts : store) (p : word) (l : list Z) (n : word) : Prop :=
  match l with
  | [] => True
  | a :: l => exists t, ts !! a = Some t /\ t_rr_prev t = p /\ t_rr_next t = first l n /\ seg ts (Ref a) l n
  end.

Record rq_rep (q : runqueue) (ts : store) (l : list Z) : Prop := {
  rr_nodup : NoDup l;
  rr_seg : seg ts NULL l NULL;
  rr_head : rq_head q = first l NULL;
  rr_tail : rq_tail q = final NULL l;
  rr_num : rq_num_tasks q = s32 (Z.of_nat (length l));
  rr_lock : unlocked (rq_lock q)
}.

(** A task without its links. *)
Definition unlinked (t : task) : task := set_rr_next NULL (set_rr_prev NULL t).

(** Only links of tasks in [D] change. *)
Definition relinked (D : list Z) (ts ts' : store) : Prop :=
  (forall b, b ∉ D -> ts' !! b = ts !! b) /\ forall b, unlinked <$> ts' !! b = unlinked <$> ts !! b.

Lemma relinked_refl D ts : relinked D ts ts.
Proof. done. Qed.

Lemma relinked_trans D ts ts' ts'' : relinked D ts ts' -> relinked D ts' ts'' -> relinked D ts ts''.
Proof. intros [H1 H2] [H3 H4]. split; intros b; [intros Hb; rewrite H3, H1; done|by rewrite H4, H2]. Qed.

Lemma relinked_mono D D' ts ts' : D ⊆ D' -> relinked D ts ts' -> relinked D' ts ts'.
Proof. intros Hs [H1 H2]. split; [|done]. intros b Hb. apply H1. intros Hin. by apply Hb, Hs. Qed.

Lemma relinked_hold D ts a t t' : a ∈ D -> ts !! a = Some t -> unlinked t' = unlinked t -> relinked D ts (<[a := t']> ts).
Proof.
  intros Ha Ht Hu. split; intros b.
  - intros Hb. rewrite lookup_insert_ne; [done|]. by intros ->.
  - destruct (decide (b = a)) as [->|]; [by rewrite lookup_insert_eq, Ht; simpl; rewrite Hu|by rewrite lookup_insert_ne].
Qed.

Lemma relinked_step D ts ts' a t t' :
  relinked D ts ts' -> a ∈ D -> ts' !! a = Some t -> unlinked t' = unlinked t -> relinked D ts (<[a := t']> ts').
Proof. intros H Ha Ht Hu. eapply relinked_trans; [done|]. by eapply relinked_hold. Qed.

(** Any other field of a task. *)
Lemma relinked_field {A} (f : task -> A) D ts ts' b t t' :
  (forall t, f (unlinked t) = f t) -> relinked D ts ts' -> ts !! b = Some t -> ts' !! b = Some t' -> f t' = f t.
Proof. intros Hf [_ H] Ht Ht'. specialize (H b). rewrite Ht, Ht' in H. apply (inj Some) in H. by rewrite <- Hf, H, Hf. Qed.

Lemma relinked_some D ts ts' b : relinked D ts ts' -> is_Some (ts' !! b) <-> is_Some (ts !! b).
Proof. intros [_ H]. specialize (H b). destruct (ts' !! b), (ts !! b); simpl in H; naive_solver. Qed.

(** ** Segments *)

Lemma final_snoc p l a : final p (l ++ [a]) = Ref a.
Proof. unfold final. by rewrite last_snoc. Qed.

Lemma final_cons p a l : final p (a :: l) = final (Ref a) l.
Proof. unfold final. rewrite last_cons. by destruct (last l). Qed.

Lemma final_elem p l : l <> [] -> exists a, a ∈ l /\ final p l = Ref a.
Proof.
  destruct l as [|a l _] using rev_ind; [done|]. intros _. exists a. rewrite final_snoc. split; [|done].
  rewrite elem_of_app, list_elem_of_singleton. by right.
Qed.

Lemma first_app l1 l2 n : first (l1 ++ l2) n = first l1 (first l2 n).
Proof. by destruct l1. Qed.

Lemma seg_app ts p l1 l2 n : seg ts p (l1 ++ l2) n <-> seg ts p l1 (first l2 n) /\ seg ts (final p l1) l2 n.
Proof.
  revert p. induction l1 as [|a l1 IH]; intros p; simpl; [naive_solver|]. rewrite final_cons. setoid_rewrite IH. rewrite first_app. naive_solver.
Qed.

Lemma seg_ext ts ts' p l n : (forall a, a ∈ l -> ts' !! a = ts !! a) -> seg ts p l n -> seg ts' p l n.
Proof.
  revert p. induction l as [|a l IH]; intros p H; simpl; [done|]. intros (t & Ht & ? & ? & Hs). exists t.
  rewrite H by left. split; [done|]. split; [done|]. split; [done|]. apply IH; [|done]. intros b Hb. apply H. by right.
Qed.

(** A new predecessor for the first task, a new successor for the last one. *)
Lemma seg_set_prev ts p q a l n t :
  NoDup (a :: l) -> seg ts p (a :: l) n -> ts !! a = Some t -> seg (<[a := set_rr_prev q t]> ts) q (a :: l) n.
Proof.
  intros [Hn _]%NoDup_cons (t' & Ht' & _ & Hnx & Hs) Ht. exists (set_rr_prev q t). rewrite lookup_insert_eq.
  split; [done|]. split; [done|]. split; [simpl; congruence|]. eapply seg_ext; [|done]. intros b Hb.
  rewrite lookup_insert_ne; [done|]. by intros ->.
Qed.

Lemma seg_set_next ts p l a n n' t :
  NoDup (l ++ [a]) -> seg ts p (l ++ [a]) n -> ts !! a = Some t -> seg (<[a := set_rr_next n' t]> ts) p (l ++ [a]) n'.
Proof.
  intros Hn Hs Ht. apply seg_app in Hs as [Hl Ha]. apply seg_app. split.
  - eapply seg_ext; [|done]. intros b Hb. rewrite lookup_insert_ne; [done|]. intros ->.
    apply NoDup_app in Hn as (_ & Hd & _). apply (Hd b Hb). left.
  - destruct Ha as (t' & Ht' & Hp & _ & _). exists (set_rr_next n' t). rewrite lookup_insert_eq. simpl.
    split; [done|]. split; [congruence|done].
Qed.

(** ** The operations *)

Lemma rq_section_ret {A} IF q (body : outcome (A * (Z * word * word) * store)) a n h tl ts :
  unlocked (rq_lock q) -> body = Ret (a, (n, h, tl), ts) ->
  rq_section IF q body = Ret (a, mk_rq n h tl (mk_spinlock 0 IF), ts, IF).
Proof.
  intros Hu ->. unfold rq_section. rewrite (Seq.spin_lock_global_ret _ _ Hu). cbn [mbind outcome_bind].
  by rewrite Seq.spin_unlock_global_ret.
Qed.

Lemma upd_task_ret a f ts t : ts !! a = Some t -> upd_task (Ref a) f ts = Ret (<[a := f t]> ts).
Proof. intros Ht. unfold upd_task. by rewrite Ht. Qed.

Lemma get_task_ret a ts t : ts !! a = Some t -> get_task (Ref a) ts = Ret t.
Proof. intros Ht. unfold get_task. by rewrite Ht. Qed.

Lemma s32_add x y : s32 (s32 x + y) = s32 (x + y).
Proof.
  unfold s32. f_equal. replace ((x + 2 ^ 31) mod 2 ^ 32 - 2 ^ 31 + y + 2 ^ 31) with ((x + 2 ^ 31) mod 2 ^ 32 + y) by lia.
  rewrite Zplus_mod_idemp_l. f_equal. lia.
Qed.

Lemma seg_outside ts p l n a t : a ∉ l -> seg ts p l n -> seg (<[a := t]> ts) p l n.
Proof. intros Ha. apply seg_ext. intros b Hb. rewrite lookup_insert_ne; [done|]. by intros ->. Qed.

Lemma seg_one ts p a l n t : ts !! a = Some t -> t_rr_prev t = p -> t_rr_next t = first l n -> seg ts (Ref a) l n -> seg ts p (a :: l) n.
Proof. intros. by exists t. Qed.

Lemma insert_front_spec q ts l a IF :
  rq_rep q ts l -> a ∉ l -> is_Some (ts !! a) ->
  returns (runqueue_insert_front q (Ref a) ts IF) (fun '(q', ts', IF') =>
    rq_rep q' ts' (a :: l) /\ relinked (a :: l) ts ts' /\ IF' = IF).
Proof.
  intros [Hn Hs Hh Ht Hc Hu] Ha [t Hta]. unfold runqueue_insert_front. simpl nonnull. cbv iota beta. mstep.
  rewrite Hh. destruct l as [|b l]; cbn [first nonnull negb Z.eqb].
  - rewrite (upd_task_ret a _ ts t Hta). cbn [mbind outcome_bind]. rewrite (upd_task_ret a _ _ (set_rr_next NULL t)) by apply lookup_insert_eq.
    rewrite insert_insert_eq. cbn [mbind outcome_bind]. erewrite rq_section_ret by done. cbn [returns].
    split; [|split; [|done]].
    + split; simpl; try done; [apply NoDup_singleton| |by rewrite Hc].
      eexists. rewrite lookup_insert_eq. done.
    + eapply relinked_hold; [left|done|done].
  - apply not_elem_of_cons in Ha as [Hab Hal]. destruct Hs as (tb & Htb & Hpb & Hnb & Hs).
    rewrite (upd_task_ret a _ ts t Hta). cbn [mbind outcome_bind]. rewrite (upd_task_ret a _ _ (set_rr_prev NULL t)) by apply lookup_insert_eq.
    rewrite insert_insert_eq. cbn [mbind outcome_bind].
    rewrite (upd_task_ret b _ _ tb) by (by rewrite lookup_insert_ne). cbn [mbind outcome_bind]. erewrite rq_section_ret by done. cbn [returns].
    set (ta := set_rr_next (Ref b) (set_rr_prev NULL t)).
    split; [|split; [|done]].
    + split; simpl; try done; [by apply NoDup_cons; split; [apply not_elem_of_cons|]| |rewrite Hc, s32_add; f_equal; simpl; lia].
      exists ta. rewrite lookup_insert_ne, lookup_insert_eq by done. do 3 (split; [done|]).
      eapply (seg_set_prev _ NULL); [done| |by rewrite lookup_insert_ne]. apply seg_outside; [by apply not_elem_of_cons|]. by exists tb.
    + eapply relinked_trans; eapply relinked_hold; [left|exact Hta|done|right; left|by rewrite lookup_insert_ne|done].
Qed.

Lemma insert_back_spec q ts l a IF :
  rq_rep q ts l -> a ∉ l -> is_Some (ts !! a) ->
  returns (runqueue_insert_back q (Ref a) ts IF) (fun '(q', ts', IF') =>
    rq_rep q' ts' (l ++ [a]) /\ relinked (a :: l) ts ts' /\ IF' = IF).
Proof.
  intros [Hn Hs Hh Ht Hc Hu] Ha [t Hta]. unfold runqueue_insert_back. simpl nonnull. cbv iota beta. mstep.
  rewrite Ht. destruct l as [|b l _] using rev_ind; [cbn [final last nonnull negb Z.eqb]|rewrite final_snoc; cbn [nonnull negb]].
  - rewrite (upd_task_ret a _ ts t Hta). cbn [mbind outcome_bind]. rewrite (upd_task_ret a _ _ (set_rr_next NULL t)) by apply lookup_insert_eq.
    rewrite insert_insert_eq. cbn [mbind outcome_bind]. erewrite rq_section_ret by done. cbn [returns].
    split; [|split; [|done]].
    + split; simpl; try done; [apply NoDup_singleton| |by rewrite Hc].
      eexists. rewrite lookup_insert_eq. done.
    + eapply relinked_hold; [left|done|done].
  - assert (a <> b /\ a ∉ l) as [Hab Hal] by (rewrite elem_of_app, list_elem_of_singleton in Ha; naive_solver).
    pose proof (proj1 (seg_app _ _ _ _ _) Hs) as [_ (tb & Htb & _)].
    rewrite (upd_task_ret a _ ts t Hta). cbn [mbind outcome_bind].
    rewrite (upd_task_ret b _ _ tb) by (by rewrite lookup_insert_ne). cbn [mbind outcome_bind].
    rewrite (upd_task_ret a _ _ (set_rr_next NULL t)) by (by rewrite lookup_insert_ne, lookup_insert_eq). cbn [mbind outcome_bind].
    erewrite rq_section_ret by done. cbn [returns]. split; [|split; [|done]].
    + split; simpl; try done.
      * apply NoDup_app. split; [done|]. split; [|apply NoDup_singleton]. intros x Hx ->%list_elem_of_singleton. done.
      * apply seg_app. rewrite final_snoc. split.
        -- apply seg_outside; [done|]. eapply (seg_set_next _ _ _ _ NULL); [done| |by rewrite lookup_insert_ne]. by apply seg_outside.
        -- eexists. by rewrite lookup_insert_eq.
      * by rewrite Hh, !first_app.
      * by rewrite final_snoc.
      * rewrite Hc, s32_add, !length_app. f_equal. simpl. lia.
    + assert (b ∈ a :: l ++ [b]) by (right; rewrite elem_of_app, list_elem_of_singleton; by right).
      apply (relinked_step _ _ _ a (set_rr_next NULL t)); [|left|by rewrite lookup_insert_ne, lookup_insert_eq|done].
      apply (relinked_step _ _ _ b tb); [|done|by rewrite lookup_insert_ne|done].
      apply (relinked_hold _ _ a t); [left|done|done].
Qed.

Lemma pop_front_spec q ts l IF :
  rq_rep q ts l ->
  returns (runqueue_pop_front q ts IF) (fun '(p, q', ts', IF') =>
    p = first l NULL /\ rq_rep q' ts' (tail l) /\ relinked l ts ts' /\ IF' = IF /\
    forall a t, l !! 0%nat = Some a -> ts !! a = Some t -> ts' !! a = Some (unlinked t)).
Proof.
  intros [Hn Hs Hh Ht Hc Hu]. unfold runqueue_pop_front. rewrite Hh, Ht. destruct l as [|a [|b l]]; cbn [first nonnull negb Z.eqb].
  - erewrite rq_section_ret by done. cbn [returns]. split; [done|]. split; [by split|]. done.
  - destruct Hs as (t & Hta & _). rewrite decide_True by done. cbn [mbind outcome_bind]. rewrite (upd_task_ret a _ ts t Hta). cbn [mbind outcome_bind].
    erewrite rq_section_ret by done. cbn [returns tail]. split; [done|]. split; [|split; [|split; [done|]]].
    + split; simpl; try done; [constructor|by rewrite Hc].
    + apply (relinked_hold _ _ a t); [left|done|done].
    + intros a' t' [= <-] Ht'. rewrite lookup_insert_eq. by assert (t' = t) as -> by congruence.
  - pose proof Hn as [Hna Hnl]%NoDup_cons. destruct Hs as (t & Hta & Hp & Hnx & Hs). rewrite final_cons in *.
    destruct (final_elem (Ref a) (b :: l)) as (x & Hx & Hf); [done|]. rewrite Hf, decide_False by (intros [= <-]; done).
    rewrite (get_task_ret a ts t Hta). cbn [mbind outcome_bind]. rewrite Hnx. cbn [first]. pose proof Hs as (tb & Htb & _).
    assert (a <> b) as Hab by (intros ->; apply Hna; left).
    rewrite (upd_task_ret b _ ts tb Htb). cbn [mbind outcome_bind]. rewrite (upd_task_ret a _ _ t) by (by rewrite lookup_insert_ne).
    cbn [mbind outcome_bind]. erewrite rq_section_ret by done. cbn [returns tail]. split; [done|]. split; [|split; [|split; [done|]]].
    + split; simpl; try done.
      * apply (seg_outside _ NULL (b :: l)); [done|]. by apply (seg_set_prev _ (Ref a)).
      * rewrite final_cons in Hf. by rewrite final_cons.
      * rewrite Hc. unfold Z.sub. rewrite s32_add. f_equal. simpl. lia.
    + apply (relinked_step _ _ _ a t); [|left|by rewrite lookup_insert_ne|done].
      apply (relinked_hold _ _ b tb); [right; left|done|done].
    + intros a' t' [= <-] Ht'. rewrite lookup_insert_eq. by assert (t' = t) as -> by congruence.
Qed.

(** The two updates of [runqueue_remove]. *)
Lemma relink_prev ts l n n' : NoDup l -> seg ts NULL l n -> exists ts',
  (if nonnull (final NULL l) then upd_task (final NULL l) (set_rr_next n') ts else Ret ts) = Ret ts' /\
  seg ts' NULL l n' /\ relinked l ts ts'.
Proof.
  intros Hn Hs. destruct l as [|b l _] using rev_ind; [by exists ts|]. rewrite final_snoc. cbn [nonnull].
  pose proof (proj1 (seg_app _ _ _ _ _) Hs) as [_ (tb & Htb & _)]. rewrite (upd_task_ret b _ ts tb Htb). eexists.
  split; [done|]. split; [by eapply seg_set_next|]. apply (relinked_hold _ _ b tb); [|done|done].
  rewrite elem_of_app, list_elem_of_singleton. by right.
Qed.

Lemma relink_next ts p q l : NoDup l -> seg ts p l NULL -> exists ts',
  (if nonnull (first l NULL) then upd_task (first l NULL) (set_rr_prev q) ts else Ret ts) = Ret ts' /\
  seg ts' q l NULL /\ relinked l ts ts'.
Proof.
  intros Hn Hs. destruct l as [|b l]; [by exists ts|]. cbn [first nonnull]. pose proof Hs as (tb & Htb & _).
  rewrite (upd_task_ret b _ ts tb Htb). eexists. split; [done|]. split; [by eapply seg_set_prev|].
  apply (relinked_hold _ _ b tb); [left|done|done].
Qed.

Lemma seg_relinked D ts ts' p l n : (forall a, a ∈ l -> a ∉ D) -> relinked D ts ts' -> seg ts p l n -> seg ts' p l n.
Proof. intros Hd [Hk _]. apply seg_ext. intros a Ha. by apply Hk, Hd. Qed.

Lemma remove_spec q ts l1 a l2 IF :
  rq_rep q ts (l1 ++ a :: l2) ->
  returns (runqueue_remove q (Ref a) ts IF) (fun '(q', ts', IF') =>
    rq_rep q' ts' (l1 ++ l2) /\ relinked (l1 ++ a :: l2) ts ts' /\ IF' = IF /\
    forall t, ts !! a = Some t -> ts' !! a = Some (unlinked t)).
Proof.
  intros [Hn Hs Hh Ht Hc Hu]. unfold runqueue_remove. cbn [nonnull negb]. mstep.
  apply seg_app in Hs as [Hs1 (t & Hta & Hp & Hnx & Hs2)]. rewrite (get_task_ret a ts t Hta). cbn [mbind outcome_bind]. rewrite Hp, Hnx.
  apply NoDup_app in Hn as (Hn1 & Hd & [Ha2 Hn2]%NoDup_cons). assert (a ∉ l1) as Ha1 by (intros Hx; apply (Hd a Hx); left).
  assert (forall x, x ∈ l2 -> x ∉ l1) as Hd2 by (intros x Hx Hx1; apply (Hd x Hx1); by right).
  set (ht := if decide (Ref a = rq_head q) then _ else _).
  assert (ht = (first (l1 ++ l2) NULL, final NULL (l1 ++ l2))) as ->.
  { unfold ht. rewrite Hh, Ht. rewrite first_app. destruct l1 as [|c l1]; cbn [first app].
    - rewrite decide_True by done. rewrite final_cons. destruct l2 as [|d l2]; [done|]. cbn [first nonnull]. by rewrite !final_cons.
    - assert (a <> c) by (intros ->; apply Ha1; left). rewrite decide_False by congruence.
      assert (final NULL (c :: l1 ++ a :: l2) = final (Ref a) l2) as -> by (unfold final; rewrite app_comm_cons, last_app, last_cons; by destruct (last l2)).
      destruct l2 as [|d l2].
      + rewrite app_nil_r. rewrite decide_True by done. destruct (final_elem NULL (c :: l1)) as (x & _ & ->); done.
      + destruct (final_elem (Ref a) (d :: l2)) as (x & Hx & Hf); [done|]. rewrite Hf. rewrite decide_False by (intros [= <-]; done).
        f_equal. rewrite <- Hf. unfold final. rewrite app_comm_cons, last_app. destruct (last (d :: l2)) eqn:E; [done|]. by apply last_None in E. }
  destruct (relink_prev ts l1 (Ref a) (first l2 NULL) Hn1 Hs1) as (ts1 & -> & Hs1' & Hr1). cbn [mbind outcome_bind].
  destruct (relink_next ts1 (Ref a) (final NULL l1) l2 Hn2) as (ts2 & -> & Hs2' & Hr2); [by eapply seg_relinked|].
  cbn [mbind outcome_bind]. assert (ts2 !! a = Some t) as Hta2 by (by rewrite (proj1 Hr2), (proj1 Hr1)).
  rewrite (upd_task_ret a _ ts2 t Hta2). cbn [mbind outcome_bind]. erewrite rq_section_ret by done. cbn [returns].
  split; [|split; [|split; [done|]]].
  - split; simpl; try done.
    + apply NoDup_app. split; [done|]. split; [|done]. intros x Hx Hx2. by apply (Hd2 x).
    + apply seg_outside; [by rewrite elem_of_app; intros [?|?]|]. apply seg_app. split; [|done].
      eapply seg_relinked; [|done|done]. intros x Hx Hx2. by apply (Hd2 x).
    + rewrite Hc, !length_app. unfold Z.sub. rewrite s32_add. f_equal. simpl. lia.
  - apply (relinked_step _ _ _ a t); [|rewrite elem_of_app; right; left|done|done].
    eapply relinked_trans; [eapply relinked_mono, Hr1|eapply relinked_mono, Hr2]; intros x Hx; rewrite elem_of_app; [by left|right; by right].
  - intros t' Ht'. rewrite lookup_insert_eq. by assert (t' = t) as -> by congruence.
Qed.

End RunQueueSpec.
