(* ===== verification/Sched.v ===== *)
(** * The scheduler: queues, sleeping, waking, switching
    (kernel/src/proc/scheduler.c, kernel/include/scheduler.h)

    The state is what one core works on: the task store, five run queues by
    priority, the sleep and the reap queue, the core's [cpu_local_t], and the
    kernel heap, which also has the core's interrupt flag.  A function that
    ends in [load_task_context] does not come back to its caller: its result
    is the state in which the target runs.  [save_task_context] stores the
    registers given as [regs] and returns 0; its second return, with 1, is the
    target's resumption and belongs to a later switch. *)

From stdpp Require Import gmap.
From S2P Require Import Prelude Locking Mem FrameHdr FrameAlloc Slab RunQueue.

Module Sched.
Import Locking Mem FrameHdr FrameAlloc Slab RunQueue.

Record cpu_local_t := mk_cpu {
  c_rsp0 : Z;                  (* tss.rsp0 *)
  c_idle_thread : word;
  c_curr_thread : word;
  c_oneshot_us : Z;            (* time slice programmed last *)
  c_eois : Z                   (* end-of-interrupt signals sent *)
}.

Record sched := mk_sched {
  s_tasks : store;
  s_prio : list runqueue;      (* prio_queue *)
  s_sleep : runqueue;
  s_reap : runqueue;
  s_big_lock : k_spinlock_t;   (* scheduler_big_lock *)
  s_kernel_task : word;
  s_tid_counter : Z;           (* scheduler_task_id_counter *)
  s_cpu : cpu_local_t;
  s_cr3 : Z;
  s_heap : heap
}.

Definition set_tasks (x : store) (s : sched) : sched :=
  mk_sched x (s_prio s) (s_sleep s) (s_reap s) (s_big_lock s) (s_kernel_task s) (s_tid_counter s) (s_cpu s) (s_cr3 s) (s_heap s).
Definition set_prio_queues (x : list runqueue) (s : sched) : sched :=
  mk_sched (s_tasks s) x (s_sleep s) (s_reap s) (s_big_lock s) (s_kernel_task s) (s_tid_counter s) (s_cpu s) (s_cr3 s) (s_heap s).
Definition set_sleep (x : runqueue) (s : sched) : sched :=
  mk_sched (s_tasks s) (s_prio s) x (s_reap s) (s_big_lock s) (s_kernel_task s) (s_tid_counter s) (s_cpu s) (s_cr3 s) (s_heap s).
Definition set_reap (x : runqueue) (s : sched) : sched :=
  mk_sched (s_tasks s) (s_prio s) (s_sleep s) x (s_big_lock s) (s_kernel_task s) (s_tid_counter s) (s_cpu s) (s_cr3 s) (s_heap s).
Definition set_big_lock (x : k_spinlock_t) (s : sched) : sched :=
  mk_sched (s_tasks s) (s_prio s) (s_sleep s) (s_reap s) x (s_kernel_task s) (s_tid_counter s) (s_cpu s) (s_cr3 s) (s_heap s).
Definition set_kernel_task (x : word) (s : sched) : sched :=
  mk_sched (s_tasks s) (s_prio s) (s_sleep s) (s_reap s) (s_big_lock s) x (s_tid_counter s) (s_cpu s) (s_cr3 s) (s_heap s).
Definition set_tid_counter (x : Z) (s : sched) : sched :=
  mk_sched (s_tasks s) (s_prio s) (s_sleep s) (s_reap s) (s_big_lock s) (s_kernel_task s) x (s_cpu s) (s_cr3 s) (s_heap s).
Definition set_cpu (x : cpu_local_t) (s : sched) : sched :=
  mk_sched (s_tasks s) (s_prio s) (s_sleep s) (s_reap s) (s_big_lock s) (s_kernel_task s) (s_tid_counter s) x (s_cr3 s) (s_heap s).
Definition set_cr3 (x : Z) (s : sched) : sched :=
  mk_sched (s_tasks s) (s_prio s) (s_sleep s) (s_reap s) (s_big_lock s) (s_kernel_task s) (s_tid_counter s) (s_cpu s) x (s_heap s).
Definition set_heap (x : heap) (s : sched) : sched :=
  mk_sched (s_tasks s) (s_prio s) (s_sleep s) (s_reap s) (s_big_lock s) (s_kernel_task s) (s_tid_counter s) (s_cpu s) (s_cr3 s) x.

(** The interrupt flag. *)
Definition s_IF (s : sched) : bool := mm_IF (h_mm (s_heap s)).
Definition set_s_IF (b : bool) (s : sched) : sched := set_heap (set_IF b (s_heap s)) s.

Definition curr_thread (s : sched) : word := c_curr_thread (s_cpu s).
Definition set_curr (p : word) (s : sched) : sched :=
  let c := s_cpu s in set_cpu (mk_cpu (c_rsp0 c) (c_idle_thread c) p (c_oneshot_us c) (c_eois c)) s.

(** [task->field = x] *)
Definition task_upd (p : word) (f : task -> task) (s : sched) : outcome sched :=
  ts ← upd_task p f (s_tasks s); Ret (set_tasks ts s).

(** ** The queues *)

Inductive qname := QPrio (i : Z) | QSleep | QReap.

#[global] Instance qname_eq_dec : EqDecision qname.
Proof. solve_decision. Defined.

(** [&prio_queue[i]], [&sleep_queue], [&reap_queue] *)
Definition get_q (n : qname) (s : sched) : outcome runqueue :=
  match n with
  | QPrio i => if i <? 0 then Fault "priority out of range" else of_option "priority out of range" (s_prio s !! Z.to_nat i)
  | QSleep => Ret (s_sleep s)
  | QReap => Ret (s_reap s)
  end.
Definition put_q (n : qname) (q : runqueue) (s : sched) : sched :=
  match n with
  | QPrio i => set_prio_queues (<[Z.to_nat i := q]> (s_prio s)) s
  | QSleep => set_sleep q s
  | QReap => set_reap q s
  end.

(** The queue operations on the state. *)
Definition q_pop_front (n : qname) (s : sched) : outcome (word * sched) :=
  q ← get_q n s;
  '(p, q, ts, IF) ← runqueue_pop_front q (s_tasks s) (s_IF s);
  Ret (p, set_s_IF IF (put_q n q (set_tasks ts s))).
Definition q_insert_front (n : qname) (p : word) (s : sched) : outcome sched :=
  q ← get_q n s;
  '(q, ts, IF) ← runqueue_insert_front q p (s_tasks s) (s_IF s);
  Ret (set_s_IF IF (put_q n q (set_tasks ts s))).
Definition q_insert_back (n : qname) (p : word) (s : sched) : outcome sched :=
  q ← get_q n s;
  '(q, ts, IF) ← runqueue_insert_back q p (s_tasks s) (s_IF s);
  Ret (set_s_IF IF (put_q n q (set_tasks ts s))).
Definition q_remove (n : qname) (p : word) (s : sched) : outcome sched :=
  q ← get_q n s;
  '(q, ts, IF) ← runqueue_remove q p (s_tasks s) (s_IF s);
  Ret (set_s_IF IF (put_q n q (set_tasks ts s))).

(** [spin_lock_global(&scheduler_big_lock)] and back. *)
Definition big_lock (s : sched) : outcome sched :=
  '(IF, l) ← Seq.spin_lock_global (s_IF s) (s_big_lock s); Ret (set_s_IF IF (set_big_lock l s)).
Definition big_unlock (s : sched) : sched :=
  let '(IF, l) := Seq.spin_unlock_global (s_IF s) (s_big_lock s) in set_s_IF IF (set_big_lock l s).

(** ** scheduler.h *)

Definition SPAWN_TASK_THREAD_GROUP : Z := Z.shiftl 1 0.
Definition SPAWN_TASK_NO_KERNEL_STACK : Z := Z.shiftl 1 1.
Definition KERNEL_STACK_SIZE : Z := 0x8000.

Definition get_this_cpu (s : sched) : outcome cpu_local_t :=
  if preempt_fetch (s_IF s) then Panic "Can't get_this_cpu() while IF set" else Ret (s_cpu s).
Definition scheduler_curr_task (s : sched) : outcome word :=
  if preempt_fetch (s_IF s) then Panic "Can't scheduler_curr_task() while IF set"
  else c ← get_this_cpu s; Ret (c_curr_thread c).

(** ** Sleeping and waking *)

Definition scheduler_put_task2sleep (task : word) (s : sched) : outcome sched :=
  if negb (nonnull task) || preempt_fetch (s_IF s) then Panic "task == 0"
  else
    t ← get_task task (s_tasks s);
    if decide (t_state t = TASK_STATE_SLEEPING) then Panic "Trying to put sleeping task to sleep"
    else
      c ← get_this_cpu s;
      s ← (if decide (task = c_curr_thread c) then Ret s else q_remove (QPrio (t_prio t)) task s);
      s ← task_upd task (set_state TASK_STATE_SLEEPING) s;
      q_insert_back QSleep task s.

Definition scheduler_attempt_wake (task : word) (s : sched) : outcome sched :=
  t ← get_task task (s_tasks s);
  if decide (t_state t = TASK_STATE_SLEEPING) then
    s ← q_remove QSleep task s;
    s ← task_upd task (set_state TASK_STATE_READY) s;
    t ← get_task task (s_tasks s);
    q_insert_front (QPrio (t_prio t)) task s
  else Ret s.

(** ** Switching *)

(** [mmu_set_ctx]: a context is its top-level table. *)
Definition mmu_set_ctx (pmc : Z) (s : sched) : sched := set_cr3 (pmc -! h_offset (s_heap s)) s.

Definition switch2task (target : word) (s : sched) : outcome sched :=
  t ← get_task target (s_tasks s);
  if negb (bool_decide (t_state t = TASK_STATE_READY)) || preempt_fetch (s_IF s) then Panic "cannot switch to non-ready task"
  else
    let s := mmu_set_ctx (t_pmc t) s in
    c ← get_this_cpu s;
    let s := set_cpu (mk_cpu (t_kernel_stack t) (c_idle_thread c) (c_curr_thread c) (c_oneshot_us c) (c_eois c)) s in
    s ← task_upd target (set_state TASK_STATE_RUNNING) s;
    let s := set_curr target s in
    let c := s_cpu s in
    let s := set_cpu (mk_cpu (c_rsp0 c) (c_idle_thread c) (c_curr_thread c) (20 * 1000) (c_eois c + 1)) s in
    Ret s.

(** [for (int i = 0; i < TASK_PRIORITY_MAX_PRIORITIES; i++)], [k] queues left. *)
Fixpoint find_loop (k : nat) (i : Z) (s : sched) : outcome (word * sched) :=
  match k with
  | O => Ret (NULL, s)
  | S k =>
      '(found, s) ← q_pop_front (QPrio i) s;
      if negb (nonnull found) then find_loop k (i + 1) s
      else
        t ← get_task found (s_tasks s);
        if decide (t_state t = TASK_STATE_READY) then Ret (found, s)
        else Panic "current implementation disallows non ready tasks in a rq"
  end.
Definition find_task_to_run (s : sched) : outcome (word * sched) :=
  find_loop (Z.to_nat TASK_PRIORITY_MAX_PRIORITIES) 0 s.

Definition switch_to_next_task (s : sched) : outcome sched :=
  if preempt_fetch (s_IF s) then Panic "interrupts should be off"
  else
    this_cpu ← get_this_cpu s;
    '(next_task, s) ← find_task_to_run s;
    let next_task := if negb (nonnull next_task) then c_idle_thread this_cpu else next_task in
    switch2task next_task s.

Definition scheduler_yield (regs : jmpbuf) (s : sched) : outcome sched :=
  let s := set_s_IF (preempt_disable (s_IF s)) s in
  curr ← scheduler_curr_task s;
  s ← task_upd curr (set_context regs) s;
  t ← get_task curr (s_tasks s);
  s ← (if decide (t_state t = TASK_STATE_SLEEPING) then Ret s
       else if nonnull (t_rr_next t) || nonnull (t_rr_prev t) then Panic "task shouldn't be enqueued"
       else q_insert_back (QPrio (t_prio t)) curr s);
  switch_to_next_task s.

End Sched.
