(* ===== verification/SchedSpec.v ===== *)
(** * The scheduler's invariant

    [queues s Q]: the queue [n] of the state [s] holds the tasks [Q n], no
    task is in two queues.  [sched_ok s Q] adds what a task in a queue is: in
    a run queue it is ready and has that queue's priority, in the sleep queue
    it sleeps or is not initialised yet, in the reap queue it is dead; and the
    core's idle thread is in no queue.  Each operation is a function on [Q]. *)

From stdpp Require Import gmap functions.
From S2P Require Import Prelude Locking Mem FrameHdr FrameAlloc Slab RunQueue RunQueueSpec Sched.

Module SchedSpec.
Import Locking Mem FrameHdr FrameAlloc Slab RunQueue RunQueueSpec Sched.

Definition valid (n : qname) : Prop := match n with QPrio i => 0 <= i < TASK_PRIORITY_MAX_PRIORITIES | _ => True end.

Record queues (s : sched) (Q : qname -> list Z) : Prop := {
  qs_rep : forall n, valid n -> exists q, get_q n s = Ret q /\ rq_rep q (s_tasks s) (Q n);
  qs_disj : forall n n' x, valid n -> valid n' -> x ∈ Q n -> x ∈ Q n' -> n = n'
}.

(** The task [a] is in no queue. *)
Definition loose (Q : qname -> list Z) (a : Z) : Prop := forall n, valid n -> a ∉ Q n.

(** The tasks without their links, and the state without tasks and queues. *)
Definition info (s : sched) : store := unlinked <$> s_tasks s.
Definition rest (s : sched) := (s_big_lock s, s_kernel_task s, s_tid_counter s, s_cpu s, s_cr3 s, s_heap s).

(** Queue operations change links and queues only. *)
Definition qframe (s s' : sched) : Prop := info s' = info s /\ rest s' = rest s.

Lemma rest_cpu s s' : rest s' = rest s -> s_cpu s' = s_cpu s.
Proof. unfold rest. congruence. Qed.
Lemma rest_heap s s' : rest s' = rest s -> s_heap s' = s_heap s.
Proof. unfold rest. congruence. Qed.
Lemma rest_big s s' : rest s' = rest s -> s_big_lock s' = s_big_lock s.
Proof. unfold rest. congruence. Qed.
Lemma rest_IF s s' : rest s' = rest s -> s_IF s' = s_IF s.
Proof. intros H. unfold s_IF. by rewrite (rest_heap _ _ H). Qed.

Lemma info_Some s b t : info s !! b = Some t <-> exists t', s_tasks s !! b = Some t' /\ t = unlinked t'.
Proof. unfold info. rewrite lookup_fmap_Some. naive_solver. Qed.

Lemma info_task s b t : s_tasks s !! b = Some t -> info s !! b = Some (unlinked t).
Proof. intros H. apply info_Some. by exists t. Qed.

(** ** One queue replaced *)

Lemma get_put_eq n q s q0 : valid n -> get_q n s = Ret q0 -> get_q n (put_q n q s) = Ret q.
Proof.
  destruct n as [i| |]; simpl; [|done|done]. intros _ H. destruct (Z.ltb_spec i 0); [done|].
  destruct (s_prio s !! Z.to_nat i) eqn:E; [|done]. rewrite list_lookup_insert_eq; [done|]. by eapply lookup_lt_Some.
Qed.

Lemma get_put_ne n m q s : valid n -> valid m -> m <> n -> get_q m (put_q n q s) = get_q m s.
Proof.
  destruct n as [i| |], m as [j| |]; try done. simpl. intros Hi Hj Hne. rewrite list_lookup_insert_ne; [done|].
  intros Heq. apply Hne. f_equal. lia.
Qed.

Lemma get_q_tasks n ts s : get_q n (set_tasks ts s) = get_q n s.
Proof. by destruct n. Qed.

Lemma put_q_tasks n q s : s_tasks (put_q n q s) = s_tasks s.
Proof. by destruct n. Qed.

Lemma put_q_keep n q ts s : set_s_IF (s_IF s) (put_q n q (set_tasks ts s)) = put_q n q (set_tasks ts s).
Proof. by destruct s as [? ? ? ? ? ? ? ? ? [[]]], n. Qed.

Lemma put_qframe n q ts D s :
  relinked D (s_tasks s) ts -> qframe s (put_q n q (set_tasks ts s)).
Proof.
  intros [_ H]. split; [|by destruct n]. unfold info. rewrite put_q_tasks. apply map_eq. intros b.
  rewrite !lookup_fmap. apply H.
Qed.

Lemma rq_rep_relinked D q ts ts' l : (forall a, a ∈ l -> a ∉ D) -> relinked D ts ts' -> rq_rep q ts l -> rq_rep q ts' l.
Proof. intros Hd Hr []. split; try done. by eapply seg_relinked. Qed.

Lemma queues_put n q ts l D s Q :
  queues s Q -> valid n -> rq_rep q ts l -> relinked D (s_tasks s) ts ->
  (forall m x, valid m -> m <> n -> x ∈ Q m -> x ∉ D /\ x ∉ l) ->
  queues (put_q n q (set_tasks ts s)) (<[n := l]> Q).
Proof.
  intros [Hrep Hdisj] Hn Hq Hrel Hout. split.
  - intros m Hm. rewrite put_q_tasks. simpl. destruct (decide (m = n)) as [->|Hne].
    + destruct (Hrep n Hn) as (q0 & Hq0 & _). rewrite fn_lookup_insert. exists q. split; [|done].
      apply (get_put_eq n q _ q0 Hn). by rewrite get_q_tasks.
    + destruct (Hrep m Hm) as (q0 & Hq0 & Hr0). rewrite fn_lookup_insert_ne by done. exists q0.
      rewrite get_put_ne, get_q_tasks by done. split; [done|]. eapply rq_rep_relinked; [|done|done].
      intros a Ha. by eapply Hout.
  - intros m m' x Hm Hm'. destruct (decide (m = n)) as [->|Hne], (decide (m' = n)) as [->|Hne']; try done;
      rewrite ?fn_lookup_insert, ?fn_lookup_insert_ne by done.
    + intros Hx Hx'. by destruct (Hout m' x Hm' Hne' Hx').
    + intros Hx Hx'. by destruct (Hout m x Hm Hne Hx).
    + by apply Hdisj.
Qed.

(** ** The queue operations *)

Section Ops.
Context (s : sched) (Q : qname -> list Z) (n : qname) (Hq : queues s Q) (Hn : valid n).

Lemma q_insert_front_spec a :
  loose Q a -> is_Some (s_tasks s !! a) ->
  returns (q_insert_front n (Ref a) s) (fun s' => queues s' (<[n := a :: Q n]> Q) /\ qframe s s').
Proof.
  intros Ha Hs. destruct (qs_rep _ _ Hq n Hn) as (q & Hget & Hr). unfold q_insert_front. rewrite Hget. cbn [mbind outcome_bind].
  mcall (insert_front_spec q (s_tasks s) (Q n) a (s_IF s) Hr (Ha n Hn) Hs). intros [[q' ts'] IF'] (Hr' & Hrel & ->).
  cbn [returns]. rewrite put_q_keep.
  split; [|by eapply put_qframe]. eapply queues_put; try done. intros m x Hm Hne Hx.
  assert (x ∉ a :: Q n); [|done]. intros [->|Hin]%elem_of_cons; [by eapply Ha|]. by apply Hne, (qs_disj _ _ Hq _ _ x).
Qed.

Lemma q_insert_back_spec a :
  loose Q a -> is_Some (s_tasks s !! a) ->
  returns (q_insert_back n (Ref a) s) (fun s' => queues s' (<[n := Q n ++ [a]]> Q) /\ qframe s s').
Proof.
  intros Ha Hs. destruct (qs_rep _ _ Hq n Hn) as (q & Hget & Hr). unfold q_insert_back. rewrite Hget. cbn [mbind outcome_bind].
  mcall (insert_back_spec q (s_tasks s) (Q n) a (s_IF s) Hr (Ha n Hn) Hs). intros [[q' ts'] IF'] (Hr' & Hrel & ->).
  cbn [returns]. rewrite put_q_keep.
  split; [|by eapply put_qframe]. eapply queues_put; try done. intros m x Hm Hne Hx.
  assert (x <> a) by (intros ->; by eapply Ha). assert (x ∉ Q n) by (intros Hin; by apply Hne, (qs_disj _ _ Hq _ _ x)).
  rewrite elem_of_cons, elem_of_app, list_elem_of_singleton. naive_solver.
Qed.

Lemma q_pop_front_spec :
  returns (q_pop_front n s) (fun '(p, s') => p = first (Q n) NULL /\ queues s' (<[n := tail (Q n)]> Q) /\ qframe s s' /\
    forall a t, Q n !! 0%nat = Some a -> s_tasks s !! a = Some t -> s_tasks s' !! a = Some (unlinked t)).
Proof.
  destruct (qs_rep _ _ Hq n Hn) as (q & Hget & Hr). unfold q_pop_front. rewrite Hget. cbn [mbind outcome_bind].
  mcall (pop_front_spec q (s_tasks s) (Q n) (s_IF s) Hr). intros [[[p q'] ts'] IF'] (-> & Hr' & Hrel & -> & Hun).
  cbn [returns]. rewrite put_q_keep. rewrite put_q_tasks.
  split; [done|]. split; [|split; [by eapply put_qframe|done]].
  eapply queues_put; try done. intros m x Hm Hne Hx.
  assert (x ∉ Q n) as Hx' by (intros Hin; by apply Hne, (qs_disj _ _ Hq _ _ x)). split; [done|].
  intros Hin. apply Hx'. destruct (Q n); [done|]. by right.
Qed.

Lemma q_remove_spec l1 a l2 :
  Q n = l1 ++ a :: l2 ->
  returns (q_remove n (Ref a) s) (fun s' => queues s' (<[n := l1 ++ l2]> Q) /\ qframe s s' /\
    forall t, s_tasks s !! a = Some t -> s_tasks s' !! a = Some (unlinked t)).
Proof.
  intros HQ. destruct (qs_rep _ _ Hq n Hn) as (q & Hget & Hr). rewrite HQ in Hr. unfold q_remove. rewrite Hget. cbn [mbind outcome_bind].
  mcall (remove_spec q (s_tasks s) l1 a l2 (s_IF s) Hr). intros [[q' ts'] IF'] (Hr' & Hrel & -> & Hun).
  cbn [returns]. rewrite put_q_keep. rewrite put_q_tasks.
  split; [|split; [by eapply put_qframe|done]].
  eapply queues_put; try done. intros m x Hm Hne Hx.
  assert (x ∉ Q n) as Hx' by (intros Hin; by apply Hne, (qs_disj _ _ Hq _ _ x)). rewrite HQ in Hx'. split; [done|].
  intros Hin. apply Hx'. rewrite elem_of_app, elem_of_cons. rewrite elem_of_app in Hin. naive_solver.
Qed.

End Ops.

(** ** What a queued task is *)

Definition role (n : qname) (t : task) : Prop :=
  match n with
  | QPrio i => t_state t = TASK_STATE_READY /\ t_prio t = i
  | QSleep => t_state t = TASK_STATE_SLEEPING \/ t_state t = TASK_STATE_UNITIALIZED
  | QReap => t_state t = TASK_STATE_KILLED
  end.

Definition roles (I : store) (Q : qname -> list Z) : Prop :=
  forall n x, valid n -> x ∈ Q n -> exists t, I !! x = Some t /\ role n t /\ valid (QPrio (t_prio t)).

Record sched_ok (s : sched) (Q : qname -> list Z) : Prop := {
  so_queues : queues s Q;
  so_roles : roles (info s) Q;
  so_idle : exists a, c_idle_thread (s_cpu s) = Ref a /\ loose Q a /\ is_Some (info s !! a)
}.

Lemma roles_insert I Q n l :
  roles I Q -> (forall x, x ∈ l -> exists t, I !! x = Some t /\ role n t /\ valid (QPrio (t_prio t))) -> roles I (<[n := l]> Q).
Proof.
  intros Hr Hl m x Hm. destruct (decide (m = n)) as [->|Hne]; [rewrite fn_lookup_insert; apply Hl|].
  rewrite fn_lookup_insert_ne by done. by apply Hr.
Qed.

Lemma roles_alter I Q a f : roles I Q -> loose Q a -> roles (alter f a I) Q.
Proof.
  intros Hr Ha n x Hn Hx. rewrite lookup_alter_ne; [by apply Hr|]. intros ->. by eapply Ha.
Qed.

Lemma loose_insert Q a n l : loose Q a -> a ∉ l -> loose (<[n := l]> Q) a.
Proof.
  intros Ha Hl m Hm. destruct (decide (m = n)) as [->|]; [by rewrite fn_lookup_insert|].
  rewrite fn_lookup_insert_ne by done. by apply Ha.
Qed.

(** A store to a task that leaves its links alone. *)
Definition keeps_links (f : task -> task) : Prop :=
  forall t, t_rr_next (f t) = t_rr_next t /\ t_rr_prev (f t) = t_rr_prev t /\ unlinked (f t) = f (unlinked t).

Lemma seg_upd ts p l n a f t : keeps_links f -> ts !! a = Some t -> seg ts p l n -> seg (<[a := f t]> ts) p l n.
Proof.
  intros Hf Ht. revert p. induction l as [|b l IH]; intros p; simpl; [done|]. intros (tb & Htb & ? & ? & Hs).
  destruct (Hf t) as (? & ? & _).
  destruct (decide (b = a)) as [->|Hne].
  - rewrite Ht in Htb. apply (inj Some) in Htb as <-. exists (f t). rewrite lookup_insert_eq.
    split; [done|]. split; [congruence|]. split; [congruence|auto].
  - exists tb. rewrite lookup_insert_ne by done. auto.
Qed.

Lemma task_upd_spec a f s Q t :
  keeps_links f -> queues s Q -> s_tasks s !! a = Some t ->
  returns (task_upd (Ref a) f s) (fun s' => queues s' Q /\ info s' = alter f a (info s) /\ rest s' = rest s /\ s_tasks s' !! a = Some (f t)).
Proof.
  intros Hf Hq Ht. unfold task_upd. rewrite (upd_task_ret a f _ t Ht). cbn [mbind outcome_bind returns].
  destruct (Hf t) as (Hnx & Hpv & Hun). split; [split|split; [|split; [done|]]].
  - intros n Hn. destruct (qs_rep _ _ Hq n Hn) as (q & Hget & []). exists q. rewrite get_q_tasks. split; [done|].
    split; try done. by apply seg_upd.
  - apply Hq.
  - unfold info. simpl. rewrite fmap_insert. rewrite Hun. apply map_eq. intros b. destruct (decide (b = a)) as [->|Hne].
    + by rewrite lookup_insert_eq, lookup_alter_eq, lookup_fmap, Ht.
    + by rewrite lookup_insert_ne, lookup_alter_ne.
  - apply lookup_insert_eq.
Qed.

Lemma set_state_links x : keeps_links (set_state x).
Proof. done. Qed.
Lemma set_context_links x : keeps_links (set_context x).
Proof. done. Qed.
#[local] Hint Resolve set_state_links set_context_links : munk.

(** Only the queues that exist matter. *)
Definition qeq (Q Q' : qname -> list Z) : Prop := forall n, valid n -> Q' n = Q n.

Lemma queues_ext s Q Q' : qeq Q Q' -> queues s Q -> queues s Q'.
Proof.
  intros He [Hrep Hd]. split.
  - intros n Hn. rewrite (He n Hn). by apply Hrep.
  - intros n n' x Hn Hn'. rewrite (He n Hn), (He n' Hn'). by apply Hd.
Qed.

Lemma sched_ok_qframe s s' Q : sched_ok s Q -> queues s' Q -> qframe s s' -> sched_ok s' Q.
Proof. intros [] Hq [Hi Hr]. split; [done|by rewrite Hi|by rewrite Hi, (rest_cpu _ _ Hr)]. Qed.

Lemma sched_ok_ext s Q Q' : qeq Q Q' -> sched_ok s Q -> sched_ok s Q'.
Proof.
  intros He [Hq Hr (a & Ha & Hl & Hi)]. split; [by eapply queues_ext| |].
  - intros n x Hn. rewrite (He n Hn). by apply Hr.
  - exists a. split; [done|]. split; [|done]. intros n Hn. rewrite (He n Hn). by apply Hl.
Qed.

Lemma qeq_same Q n l : l = Q n -> qeq (<[n := l]> Q) Q.
Proof.
  intros -> m Hm. destruct (decide (m = n)) as [->|]; [by rewrite fn_lookup_insert|by rewrite fn_lookup_insert_ne].
Qed.

(** The invariant after queue [n] has become [l] and tasks have changed. *)
Lemma sched_ok_step s s' Q n l f a :
  sched_ok s Q -> queues s' (<[n := l]> Q) -> info s' = alter f a (info s) -> rest s' = rest s ->
  loose Q a -> c_idle_thread (s_cpu s) <> Ref a ->
  (forall x, x ∈ l -> x <> a -> x ∈ Q n) ->
  (forall t, a ∈ l -> info s !! a = Some t -> role n (f t) /\ valid (QPrio (t_prio (f t)))) -> (a ∈ l -> is_Some (info s !! a)) -> valid n ->
  sched_ok s' (<[n := l]> Q).
Proof.
  intros Hok Hq Hi Hrest Ha Hidle Hl Hrole Hsome Hn. split; [done| |].
  - rewrite Hi. apply roles_insert; [by apply roles_alter; [apply Hok|]|]. intros x Hx.
    destruct (decide (x = a)) as [->|Hne].
    + destruct (Hsome Hx) as [t Ht]. exists (f t). rewrite lookup_alter_eq, Ht. auto.
    + rewrite lookup_alter_ne by done. by apply (so_roles _ _ Hok n x Hn), Hl.
  - destruct (so_idle _ _ Hok) as (b & Hb & Hlb & Hsb). exists b. rewrite (rest_cpu _ _ Hrest). split; [done|].
    assert (b <> a) by congruence. split; [|by rewrite Hi, lookup_alter_ne].
    apply loose_insert; [done|]. intros Hin. apply (Hlb n Hn). by apply Hl.
Qed.

(** ** Sleeping and waking *)

Lemma attempt_wake_other s a t : s_tasks s !! a = Some t -> t_state t <> TASK_STATE_SLEEPING -> scheduler_attempt_wake (Ref a) s = Ret s.
Proof.
  intros Ht Hst. unfold scheduler_attempt_wake. rewrite (get_task_ret _ _ _ Ht). cbn [mbind outcome_bind]. by rewrite decide_False.
Qed.

(** Taking a task out of its queue. *)
Lemma sched_ok_remove s s' Q n l1 a l2 :
  sched_ok s Q -> valid n -> Q n = l1 ++ a :: l2 -> queues s' (<[n := l1 ++ l2]> Q) -> qframe s s' ->
  sched_ok s' (<[n := l1 ++ l2]> Q) /\ loose (<[n := l1 ++ l2]> Q) a /\ c_idle_thread (s_cpu s') <> Ref a.
Proof.
  intros Hok Hn HQ Hq [Hi Hrest]. assert (forall x, x ∈ l1 ++ l2 -> x ∈ Q n) as Hsub.
  { intros x. rewrite HQ, !elem_of_app, elem_of_cons. naive_solver. }
  assert (a ∈ Q n) as Ha by (rewrite HQ, elem_of_app, elem_of_cons; auto).
  destruct (so_idle _ _ Hok) as (b & Hb & Hlb & Hsb). split; [split|split].
  - done.
  - rewrite Hi. apply roles_insert; [apply Hok|]. intros x Hx. by apply (so_roles _ _ Hok n x Hn), Hsub.
  - exists b. rewrite (rest_cpu _ _ Hrest), Hi. split; [done|]. split; [|done]. apply loose_insert; [done|].
    intros Hin. by apply (Hlb n Hn), Hsub.
  - intros m Hm. destruct (decide (m = n)) as [->|Hne].
    + rewrite fn_lookup_insert. destruct (qs_rep _ _ (so_queues _ _ Hok) n Hn) as (q & _ & Hr).
      pose proof (rr_nodup _ _ _ Hr) as Hnd. rewrite HQ in Hnd. apply NoDup_app in Hnd as (_ & Hd & [Hx _]%NoDup_cons).
      rewrite elem_of_app. intros [Hin|Hin]; [|done]. apply (Hd a Hin). left.
    + rewrite fn_lookup_insert_ne by done. intros Hin. by apply Hne, (qs_disj _ _ (so_queues _ _ Hok) _ _ a).
  - rewrite (rest_cpu _ _ Hrest), Hb. intros [= ->]. by apply (Hlb n Hn).
Qed.

Lemma attempt_wake_sleeping s Q l1 a l2 t :
  sched_ok s Q -> Q QSleep = l1 ++ a :: l2 -> info s !! a = Some t -> t_state t = TASK_STATE_SLEEPING ->
  returns (scheduler_attempt_wake (Ref a) s) (fun s' =>
    sched_ok s' (<[QPrio (t_prio t) := a :: Q (QPrio (t_prio t))]> (<[QSleep := l1 ++ l2]> Q)) /\
    info s' = alter (set_state TASK_STATE_READY) a (info s) /\ rest s' = rest s).
Proof.
  intros Hok HQ (t0 & Ht0 & ->)%info_Some Hst. change (t_prio (unlinked t0)) with (t_prio t0). unfold scheduler_attempt_wake. rewrite (get_task_ret _ _ _ Ht0). cbn [mbind outcome_bind].
  rewrite decide_True by done. mcall (q_remove_spec s Q QSleep (so_queues _ _ Hok) I l1 a l2 HQ). intros s1 (Hq1 & Hf1 & Hun).
  destruct (sched_ok_remove s s1 Q QSleep l1 a l2 Hok I HQ Hq1 Hf1) as (Hok1 & Hl1 & Hid1). specialize (Hun _ Ht0).
  destruct (so_roles _ _ Hok QSleep a I) as (t' & Ht' & _ & Hp); [rewrite HQ, elem_of_app, elem_of_cons; auto|].
  rewrite (info_task _ _ _ Ht0) in Ht'. apply (inj Some) in Ht' as <-.
  mcall (task_upd_spec a (set_state TASK_STATE_READY) s1 _ _ (set_state_links _) Hq1 Hun). intros s2 (Hq2 & Hi2 & Hr2 & Ht2).
  rewrite (get_task_ret _ _ _ Ht2). cbn [mbind outcome_bind t_prio unlinked set_state].
  set (Q1 := <[QSleep := l1 ++ l2]> Q) in *. assert (Q (QPrio (t_prio t0)) = Q1 (QPrio (t_prio t0))) as ->.
  { unfold Q1. by rewrite fn_lookup_insert_ne. }
  eapply returns_mono; [apply (q_insert_front_spec s2 Q1 (QPrio (t_prio t0)) Hq2 Hp a Hl1); by eexists|].
  intros s3 (Hq3 & Hi3 & Hr3). destruct Hf1 as [Hi1 Hr1]. rewrite Hi2 in Hi3. rewrite Hr2 in Hr3.
  split; [|rewrite Hi3, Hi1, Hr3; done].
  eapply (sched_ok_step s1); try done.
  - intros x. rewrite elem_of_cons. by intros [->|?].
  - intros t' _. rewrite Hi1, (info_task _ _ _ Ht0). intros [= <-]. done.
  - intros _. rewrite Hi1, (info_task _ _ _ Ht0). done.
Qed.

Lemma put_task2sleep_current s Q a t :
  sched_ok s Q -> curr_thread s = Ref a -> loose Q a -> c_idle_thread (s_cpu s) <> Ref a -> s_IF s = false ->
  info s !! a = Some t -> t_state t <> TASK_STATE_SLEEPING -> valid (QPrio (t_prio t)) ->
  returns (scheduler_put_task2sleep (Ref a) s) (fun s' =>
    sched_ok s' (<[QSleep := Q QSleep ++ [a]]> Q) /\ info s' = alter (set_state TASK_STATE_SLEEPING) a (info s) /\ rest s' = rest s).
Proof.
  intros Hok Hc Hl Hid HIF Ht Hst Hp. pose proof Ht as (t0 & Ht0 & ->)%info_Some. unfold scheduler_put_task2sleep, get_this_cpu.
  rewrite HIF. cbn [nonnull negb orb preempt_fetch]. rewrite (get_task_ret _ _ _ Ht0). cbn [mbind outcome_bind].
  rewrite decide_False by done. rewrite decide_True by done. cbn [mbind outcome_bind].
  mcall (task_upd_spec a (set_state TASK_STATE_SLEEPING) s Q _ (set_state_links _) (so_queues _ _ Hok) Ht0). intros s2 (Hq2 & Hi2 & Hr2 & Ht2).
  eapply returns_mono; [apply (q_insert_back_spec s2 Q QSleep Hq2 I a Hl); by eexists|]. intros s3 (Hq3 & Hi3 & Hr3).
  rewrite Hi2 in Hi3. rewrite Hr2 in Hr3. split; [|done]. eapply (sched_ok_step s); try done.
  - intros x. rewrite elem_of_app, list_elem_of_singleton. by intros [ ? | -> ].
  - intros t' _. rewrite Ht. intros [= <-]. split; [by left|done].
Qed.

Lemma put_task2sleep_ready s Q i l1 a l2 t :
  sched_ok s Q -> valid (QPrio i) -> curr_thread s <> Ref a -> Q (QPrio i) = l1 ++ a :: l2 -> s_IF s = false -> info s !! a = Some t ->
  returns (scheduler_put_task2sleep (Ref a) s) (fun s' =>
    sched_ok s' (<[QSleep := Q QSleep ++ [a]]> (<[QPrio i := l1 ++ l2]> Q)) /\ info s' = alter (set_state TASK_STATE_SLEEPING) a (info s) /\ rest s' = rest s).
Proof.
  intros Hok Hi Hc HQ HIF Ht. pose proof Ht as (t0 & Ht0 & ->)%info_Some. unfold scheduler_put_task2sleep, get_this_cpu.
  rewrite HIF. cbn [nonnull negb orb preempt_fetch]. rewrite (get_task_ret _ _ _ Ht0). cbn [mbind outcome_bind].
  destruct (so_roles _ _ Hok (QPrio i) a Hi) as (t' & Ht' & [Hst Hpr] & Hp); [rewrite HQ, elem_of_app, elem_of_cons; auto|].
  rewrite Ht in Ht'. apply (inj Some) in Ht' as <-. simpl in Hst, Hpr. subst i.
  rewrite decide_False by congruence. rewrite decide_False by (intros Heq; by apply Hc).
  mcall (q_remove_spec s Q (QPrio (t_prio t0)) (so_queues _ _ Hok) Hi l1 a l2 HQ). intros s1 (Hq1 & Hf1 & Hun).
  destruct (sched_ok_remove s s1 Q _ l1 a l2 Hok Hi HQ Hq1 Hf1) as (Hok1 & Hl1 & Hid1). specialize (Hun _ Ht0).
  mcall (task_upd_spec a (set_state TASK_STATE_SLEEPING) s1 _ _ (set_state_links _) Hq1 Hun). intros s2 (Hq2 & Hi2 & Hr2 & Ht2).
  set (Q1 := <[QPrio (t_prio t0) := l1 ++ l2]> Q) in *. assert (Q QSleep = Q1 QSleep) as -> by (unfold Q1; by rewrite fn_lookup_insert_ne).
  eapply returns_mono; [apply (q_insert_back_spec s2 Q1 QSleep Hq2 I a Hl1); by eexists|]. intros s3 (Hq3 & Hi3 & Hr3).
  destruct Hf1 as [Hi1 Hr1]. rewrite Hi2 in Hi3. rewrite Hr2 in Hr3. split; [|rewrite Hi3, Hi1, Hr3; done].
  eapply (sched_ok_step s1); try done.
  - intros x. rewrite elem_of_app, list_elem_of_singleton. by intros [ ? | -> ].
  - intros t' _. rewrite Hi1, Ht. intros [= <-]. split; [by left|done].
  - intros _. by rewrite Hi1, Ht.
Qed.

(** ** Picking the next task *)

(** The first of the first of [k] run queues from [i] on that has a task. *)
Fixpoint pick_from (k : nat) (i : Z) (Q : qname -> list Z) : option (Z * Z) :=
  match k with
  | O => None
  | S k => match Q (QPrio i) with a :: _ => Some (i, a) | [] => pick_from k (i + 1) Q end
  end.
Definition pick (Q : qname -> list Z) : option (Z * Z) := pick_from (Z.to_nat TASK_PRIORITY_MAX_PRIORITIES) 0 Q.

Definition drop_first (i : Z) (Q : qname -> list Z) : qname -> list Z := <[QPrio i := tail (Q (QPrio i))]> Q.

Lemma pick_from_Some k i Q j a :
  pick_from k i Q = Some (j, a) ->
  i <= j < i + Z.of_nat k /\ Q (QPrio j) = a :: tail (Q (QPrio j)) /\ forall m, i <= m < j -> Q (QPrio m) = [].
Proof.
  revert i. induction k as [|k IH]; intros i; simpl; [done|]. destruct (Q (QPrio i)) as [|b l] eqn:E.
  - intros (? & ? & Hlt)%IH. split; [lia|]. split; [done|]. intros m Hm. destruct (decide (m = i)) as [->|]; [done|]. apply Hlt. lia.
  - intros [= -> ->]. rewrite E. split; [lia|]. split; [done|]. lia.
Qed.

Lemma pick_from_None k i Q m : pick_from k i Q = None -> i <= m < i + Z.of_nat k -> Q (QPrio m) = [].
Proof.
  revert i. induction k as [|k IH]; intros i; simpl; [lia|]. destruct (Q (QPrio i)) as [|b l] eqn:E; [|done].
  intros Hn Hm. destruct (decide (m = i)) as [->|]; [done|]. apply (IH _ Hn). lia.
Qed.

Lemma pick_valid Q j a : pick Q = Some (j, a) -> valid (QPrio j) /\ Q (QPrio j) = a :: tail (Q (QPrio j)).
Proof. intros (? & ? & _)%pick_from_Some. split; [|done]. unfold valid, TASK_PRIORITY_MAX_PRIORITIES in *. lia. Qed.

Lemma pick_from_ext k i Q Q' : (forall m, i <= m < i + Z.of_nat k -> Q' (QPrio m) = Q (QPrio m)) -> pick_from k i Q' = pick_from k i Q.
Proof.
  revert i. induction k as [|k IH]; intros i He; simpl; [done|]. rewrite He by lia. destruct (Q (QPrio i)); [|done].
  apply IH. intros m Hm. apply He. lia.
Qed.

Lemma drop_first_ok s s' Q i a l :
  sched_ok s Q -> valid (QPrio i) -> Q (QPrio i) = a :: l -> queues s' (drop_first i Q) -> qframe s s' ->
  sched_ok s' (drop_first i Q) /\ loose (drop_first i Q) a /\ c_idle_thread (s_cpu s') <> Ref a.
Proof.
  intros Hok Hi HQ Hq Hf. unfold drop_first in *. rewrite HQ in *. simpl tail in *. exact (sched_ok_remove s s' Q (QPrio i) [] a l Hok Hi HQ Hq Hf).
Qed.

Lemma find_loop_spec k : forall i s Q,
  sched_ok s Q -> 0 <= i -> i + Z.of_nat k = TASK_PRIORITY_MAX_PRIORITIES ->
  returns (find_loop k i s) (fun '(p, s') => qframe s s' /\
    match pick_from k i Q with
    | None => p = NULL /\ sched_ok s' Q
    | Some (j, a) => p = Ref a /\ sched_ok s' (drop_first j Q) /\ loose (drop_first j Q) a /\ c_idle_thread (s_cpu s') <> Ref a
    end).
Proof.
  induction k as [|k IH]; intros i s Q Hok Hi Hk; [done|]. cbn [find_loop pick_from].
  assert (valid (QPrio i)) as Hv by (simpl; lia).
  mcall (q_pop_front_spec s Q (QPrio i) (so_queues _ _ Hok) Hv). intros [p s1] (-> & Hq1 & Hf1 & _).
  destruct (Q (QPrio i)) as [|a l] eqn:E.
  - cbn [first nonnull negb Z.eqb]. assert (qeq (<[QPrio i := tail []]> Q) Q) as He by (by apply qeq_same).
    assert (sched_ok s1 Q) as Hok1.
    { eapply sched_ok_qframe; [exact Hok| |done]. by eapply queues_ext. }
    eapply returns_mono; [apply (IH (i + 1) s1 Q Hok1); lia|]. intros [p s'] ([Hi2 Hr2] & Hres). destruct Hf1 as [Hi1 Hr1].
    split; [split; congruence|done].
  - cbn [first nonnull negb]. assert (a ∈ Q (QPrio i)) as Ha by (rewrite E; left).
    destruct (so_roles _ _ Hok (QPrio i) a Hv Ha) as (t & Ht & [Hst _] & _). pose proof Hf1 as [Hi1 Hr1].
    rewrite <- Hi1 in Ht. apply info_Some in Ht as (t1 & Ht1 & ->). rewrite (get_task_ret _ _ _ Ht1). cbn [mbind outcome_bind].
    rewrite decide_True by done. cbn [returns]. split; [done|]. split; [done|].
    eapply drop_first_ok; try done. unfold drop_first. by rewrite E.
Qed.

Lemma find_task_spec s Q :
  sched_ok s Q ->
  returns (find_task_to_run s) (fun '(p, s') => qframe s s' /\
    match pick Q with
    | None => p = NULL /\ sched_ok s' Q
    | Some (j, a) => p = Ref a /\ sched_ok s' (drop_first j Q) /\ loose (drop_first j Q) a /\ c_idle_thread (s_cpu s') <> Ref a
    end).
Proof. intros Hok. by apply find_loop_spec. Qed.

(** ** Switching *)

(** What the core is set to when [t] at [a] starts to run. *)
Definition cpu_for (a : Z) (t : task) (c : cpu_local_t) : cpu_local_t :=
  mk_cpu (t_kernel_stack t) (c_idle_thread c) (Ref a) (20 * 1000) (c_eois c + 1).

(** [ran a t s s']: from [s] the core has come to run [a]. *)
Record ran (a : Z) (t : task) (s s' : sched) : Prop := {
  ran_info : info s' = alter (set_state TASK_STATE_RUNNING) a (info s);
  ran_cpu : s_cpu s' = cpu_for a t (s_cpu s);
  ran_cr3 : s_cr3 s' = t_pmc t -! h_offset (s_heap s);
  ran_big : s_big_lock s' = s_big_lock s;
  ran_heap : s_heap s' = s_heap s;
  ran_kernel : s_kernel_task s' = s_kernel_task s;
  ran_tid : s_tid_counter s' = s_tid_counter s
}.

Lemma queues_cpu s Q c : queues s Q -> queues (set_cpu c s) Q.
Proof. intros [Hr Hd]. split; [|done]. intros n Hn. destruct (Hr n Hn) as (q & Hg & ?). exists q. split; [by destruct n|done]. Qed.
Lemma queues_cr3 s Q x : queues s Q -> queues (set_cr3 x s) Q.
Proof. intros [Hr Hd]. split; [|done]. intros n Hn. destruct (Hr n Hn) as (q & Hg & ?). exists q. split; [by destruct n|done]. Qed.

Lemma switch2task_spec s Q a t :
  sched_ok s Q -> loose Q a -> s_IF s = false -> info s !! a = Some t -> t_state t = TASK_STATE_READY ->
  returns (switch2task (Ref a) s) (fun s' => sched_ok s' Q /\ ran a t s s').
Proof.
  intros Hok Hl HIF Ht Hst. pose proof Ht as (t0 & Ht0 & ->)%info_Some. unfold switch2task, get_this_cpu.
  rewrite (get_task_ret _ _ _ Ht0). cbn [mbind outcome_bind]. rewrite HIF. rewrite bool_decide_true by done.
  change (s_IF (mmu_set_ctx (t_pmc t0) s)) with (s_IF s). rewrite HIF. cbn [negb orb preempt_fetch mbind outcome_bind].
  set (s1 := set_cpu _ _).
  assert (queues s1 Q) as Hq1 by (apply queues_cpu, queues_cr3, Hok).
  mcall (task_upd_spec a (set_state TASK_STATE_RUNNING) s1 Q t0 (set_state_links _) Hq1 Ht0). intros s2 (Hq2 & Hi2 & Hr2 & Ht2). cbn [returns].
  assert (info s2 = alter (set_state TASK_STATE_RUNNING) a (info s)) as Hi by done.
  injection Hr2 as Hbig Hker Htid Hcpu Hcr3 Hheap.
  split; [split|split]; cbn; rewrite ?Hcpu; try (done || assumption).
  - by apply queues_cpu, queues_cpu.
  - unfold info in *. cbn. rewrite Hi. apply roles_alter; [apply Hok|done].
  - destruct (so_idle _ _ Hok) as (b & Hb & Hlb & Hsb). exists b. split; [done|]. split; [done|].
    unfold info in *. cbn. rewrite Hi. by rewrite lookup_alter_is_Some.
Qed.

(** The task that runs next, and the queues it leaves. *)
Definition next_of (s : sched) (Q : qname -> list Z) : word :=
  match pick Q with Some (_, a) => Ref a | None => c_idle_thread (s_cpu s) end.
Definition after (Q : qname -> list Z) : qname -> list Z :=
  match pick Q with Some (i, _) => drop_first i Q | None => Q end.

(** The idle thread can take over. *)
Definition idle_ready (s : sched) : Prop :=
  exists a t, c_idle_thread (s_cpu s) = Ref a /\ info s !! a = Some t /\ t_state t = TASK_STATE_READY.

Lemma switch_to_next_spec s Q :
  sched_ok s Q -> s_IF s = false -> (pick Q = None -> idle_ready s) ->
  returns (switch_to_next_task s) (fun s' => exists a t, next_of s Q = Ref a /\ info s !! a = Some t /\
    t_state t = TASK_STATE_READY /\ sched_ok s' (after Q) /\ loose (after Q) a /\ ran a t s s').
Proof.
  intros Hok HIF Hidle. unfold switch_to_next_task, get_this_cpu. rewrite HIF. cbn [preempt_fetch mbind outcome_bind].
  mcall (find_task_spec s Q Hok). intros [p s1] ([Hi1 Hr1] & Hres). unfold next_of, after.
  assert (forall a t Q', sched_ok s1 Q' -> loose Q' a -> info s !! a = Some t -> t_state t = TASK_STATE_READY ->
    returns (switch2task (Ref a) s1) (fun s' => sched_ok s' Q' /\ ran a t s s')) as Hsw.
  { intros a t Q' Hok1 Hl Ht Hst. eapply returns_mono; [apply (switch2task_spec s1 Q' a t); try done; [by rewrite (rest_IF _ _ Hr1)|by rewrite Hi1]|].
    intros s' (? & []). split; [done|]. unfold rest in Hr1. split; congruence. }
  destruct (pick Q) as [[j a]|] eqn:Hp.
  - destruct Hres as (-> & Hok1 & Hl & Hid). cbn [nonnull negb]. apply pick_valid in Hp as (Hv & HQ).
    destruct (so_roles _ _ Hok (QPrio j) a Hv) as (t & Ht & [Hst _] & _); [rewrite HQ; left|].
    eapply returns_mono; [by eapply (Hsw a t)|]. intros s' [? ?]. exists a, t. by split_and!.
  - destruct Hres as (-> & Hok1). cbn [nonnull negb Z.eqb]. destruct (Hidle eq_refl) as (a & t & Ha & Ht & Hst). rewrite Ha.
    destruct (so_idle _ _ Hok) as (b & Hb & Hlb & _). rewrite Ha in Hb. injection Hb as <-.
    eapply returns_mono; [by eapply (Hsw a t)|]. intros s' [? ?]. exists a, t. by split_and!.
Qed.

End SchedSpec.
