(* ===== verification/Kevent.v ===== *)
(** * Kernel events (kernel/src/misc/kevent.c, kernel/include/kevent.h)

    Events and subscriber entries are records of stores by address; entries
    come from the heap and are recycled through a pool.  The scheduler's state
    is part of this one, since waiting and launching put threads to sleep and
    wake them.  [kevents_poll] has two parts: up to the switch to another
    thread, and from the moment this thread is resumed. *)

From stdpp Require Import gmap.
From S2P Require Import Prelude Dll Locking Mem FrameHdr FrameAlloc PageIface Slab RunQueue Sched.

Module Kevent.
Import Locking Mem FrameHdr FrameAlloc PageIface Slab RunQueue Sched.

Record kevent_subscriber_t := mk_sub {
  su_next : word;
  su_prev : word;
  su_event : word;
  su_thread : word             (* subscribed_thread *)
}.

Record kevent_t := mk_kevent {
  ev_unprocessed : Z;
  ev_subscribers : word;
  ev_lock : k_spinlock_t
}.

Definition KEVENT_POLL_INVALID : Z := -1.
Definition KEVENT_SUBSCRIBER_POOL_REFILL_AMOUNT : Z := 128.
Definition SIZEOF_SUBSCRIBER : Z := 32.

Record kstate := mk_kstate {
  ks_sched : sched;
  ks_subs : gmap Z kevent_subscriber_t;
  ks_pool : word;              (* subscriber_pool *)
  ks_events : gmap Z kevent_t
}.

Definition set_sched (s : sched) (k : kstate) : kstate := mk_kstate s (ks_subs k) (ks_pool k) (ks_events k).
Definition set_subs (m : gmap Z kevent_subscriber_t) (k : kstate) : kstate := mk_kstate (ks_sched k) m (ks_pool k) (ks_events k).
Definition set_pool (p : word) (k : kstate) : kstate := mk_kstate (ks_sched k) (ks_subs k) p (ks_events k).
Definition set_events (m : gmap Z kevent_t) (k : kstate) : kstate := mk_kstate (ks_sched k) (ks_subs k) (ks_pool k) m.

Definition ks_IF (k : kstate) : bool := s_IF (ks_sched k).
Definition set_ks_IF (b : bool) (k : kstate) : kstate := set_sched (set_s_IF b (ks_sched k)) k.

Definition set_next (x : word) (u : kevent_subscriber_t) : kevent_subscriber_t := mk_sub x (su_prev u) (su_event u) (su_thread u).
Definition set_prev (x : word) (u : kevent_subscriber_t) : kevent_subscriber_t := mk_sub (su_next u) x (su_event u) (su_thread u).
Definition set_event (x : word) (u : kevent_subscriber_t) : kevent_subscriber_t := mk_sub (su_next u) (su_prev u) x (su_thread u).
Definition set_thread (x : word) (u : kevent_subscriber_t) : kevent_subscriber_t := mk_sub (su_next u) (su_prev u) (su_event u) x.
Definition set_unprocessed (x : Z) (e : kevent_t) : kevent_t := mk_kevent x (ev_subscribers e) (ev_lock e).
Definition set_subscribers (x : word) (e : kevent_t) : kevent_t := mk_kevent (ev_unprocessed e) x (ev_lock e).
Definition set_ev_lock (x : k_spinlock_t) (e : kevent_t) : kevent_t := mk_kevent (ev_unprocessed e) (ev_subscribers e) x.

#[global] Instance subscriber_node : Node kevent_subscriber_t.
Proof. by refine {| nxt := su_next; prv := su_prev; set_nxt := set_next; set_prv := set_prev |}. Defined.

(** [p->field], [p->field = x] *)
Definition get_sub (p : word) (k : kstate) : outcome kevent_subscriber_t :=
  match p with Ref a => of_option "no subscriber there" (ks_subs k !! a) | Num _ => Fault "null subscriber" end.
Definition upd_sub (p : word) (f : kevent_subscriber_t -> kevent_subscriber_t) (k : kstate) : outcome kstate :=
  match p with
  | Ref a => u ← of_option "no subscriber there" (ks_subs k !! a); Ret (set_subs (<[a := f u]> (ks_subs k)) k)
  | Num _ => Fault "null subscriber"
  end.
Definition get_event (ev : Z) (k : kstate) : outcome kevent_t := of_option "no event there" (ks_events k !! ev).
Definition upd_event (ev : Z) (f : kevent_t -> kevent_t) (k : kstate) : outcome kstate :=
  e ← get_event ev k; Ret (set_events (<[ev := f e]> (ks_events k)) k).

Definition lock_event (ev : Z) (k : kstate) : outcome kstate :=
  e ← get_event ev k;
  '(IF, l) ← Seq.spin_lock_global (ks_IF k) (ev_lock e);
  k ← upd_event ev (set_ev_lock l) k;
  Ret (set_ks_IF IF k).
Definition unlock_event (ev : Z) (k : kstate) : outcome kstate :=
  e ← get_event ev k;
  let '(IF, l) := Seq.spin_unlock_global (ks_IF k) (ev_lock e) in
  k ← upd_event ev (set_ev_lock l) k;
  Ret (set_ks_IF IF k).

Section Kevents.
Context {PA : PageAllocator}.

(** ** The pool *)

Fixpoint pool_refill (n : nat) (k : kstate) : outcome kstate :=
  match n with
  | O => Ret k
  | S n =>
      let old := ks_pool k in
      '(a, h) ← kcalloc 1 SIZEOF_SUBSCRIBER (s_heap (ks_sched k));
      let k := set_sched (set_heap h (ks_sched k)) k in
      let k := set_pool (Ref a) (set_subs (<[a := mk_sub NULL NULL NULL NULL]> (ks_subs k)) k) in
      k ← upd_sub (ks_pool k) (set_next old) k;
      pool_refill n k
  end.

Definition _subscriber_pool_alloc (k : kstate) : outcome (word * kstate) :=
  k ← (if negb (nonnull (ks_pool k)) then pool_refill (Z.to_nat KEVENT_SUBSCRIBER_POOL_REFILL_AMOUNT) k else Ret k);
  let ret := ks_pool k in
  u ← get_sub (ks_pool k) k;
  Ret (ret, set_pool (su_next u) k).

Definition _subscriber_pool_free (s : word) (k : kstate) : outcome kstate :=
  let old := ks_pool k in
  let k := set_pool s k in
  upd_sub (ks_pool k) (set_next old) k.

(** ** Subscriber lists *)

Definition _subscriber_list_link (ev : Z) (t : word) (k : kstate) : outcome kstate :=
  '(new, k) ← _subscriber_pool_alloc k;
  k ← upd_sub new (set_event (Ref ev)) k;
  k ← upd_sub new (set_thread t) k;
  e ← get_event ev k;
  '(head, subs) ← Dll.list_link new (ev_subscribers e) (ks_subs k);
  upd_event ev (set_subscribers head) (set_subs subs k).

(** [while (curr)] of the search; the list has at most [fuel] entries. *)
Fixpoint find_sub (fuel : nat) (curr : word) (t : word) (k : kstate) : outcome word :=
  match fuel with
  | O => Fault "list does not end"
  | S fuel =>
      if nonnull curr then
        u ← get_sub curr k;
        if decide (su_thread u = t) then Ret curr else find_sub fuel (su_next u) t k
      else Panic "struct task *t wasn't subscribed to kevent_t *ev"
  end.

Definition _subscriber_list_unlink (ev : Z) (t : word) (k : kstate) : outcome kstate :=
  e ← get_event ev k;
  curr ← find_sub (S (size (ks_subs k))) (ev_subscribers e) t k;
  if negb (nonnull (ev_subscribers e)) then Panic "head == 0"
  else
    '(head, subs) ← Dll.list_cut curr (ev_subscribers e) (ks_subs k);
    k ← upd_event ev (set_subscribers head) (set_subs subs k);
    _subscriber_pool_free curr k.

(** ** Waiting *)

(** [for (int i = 0; i < event_count; i++)], with the events from [i] on. *)
Fixpoint find_unprocessed_from (i : Z) (events : list Z) (k : kstate) : outcome (Z * kstate) :=
  match events with
  | [] => Ret (KEVENT_POLL_INVALID, k)
  | ev :: events =>
      k ← lock_event ev k;
      e ← get_event ev k;
      if negb (ev_unprocessed e =? 0) then
        k ← upd_event ev (set_unprocessed (ev_unprocessed e - 1)) k;
        k ← unlock_event ev k;
        Ret (i, k)
      else
        k ← unlock_event ev k;
        find_unprocessed_from (i + 1) events k
  end.
Definition _find_unprocessed (events : list Z) (k : kstate) : outcome (Z * kstate) := find_unprocessed_from 0 events k.

Fixpoint kevent_subscribe (events : list Z) (this : word) (k : kstate) : outcome kstate :=
  match events with
  | [] => Ret k
  | ev :: events =>
      k ← lock_event ev k;
      k ← _subscriber_list_link ev this k;
      k ← unlock_event ev k;
      kevent_subscribe events this k
  end.

Fixpoint kevent_unsubscribe (events : list Z) (this : word) (k : kstate) : outcome kstate :=
  match events with
  | [] => Ret k
  | ev :: events =>
      k ← lock_event ev k;
      k ← _subscriber_list_unlink ev this k;
      k ← unlock_event ev k;
      kevent_unsubscribe events this k
  end.

(** [kevents_poll] has returned [out], or its thread sleeps inside it and has
    kept [this_thread] and [intstate]. *)
Inductive poll :=
  | Polled (out : Z)
  | Asleep (this_thread : word) (intstate : bool).

Definition lift (f : sched -> outcome sched) (k : kstate) : outcome kstate := s ← f (ks_sched k); Ret (set_sched s k).

Definition kevents_poll (events : list Z) (regs : jmpbuf) (k : kstate) : outcome (poll * kstate) :=
  let '(intstate, IF) := preempt_fetch_disable (ks_IF k) in
  let k := set_ks_IF IF k in
  this_thread ← scheduler_curr_task (ks_sched k);
  '(out, k) ← _find_unprocessed events k;
  if negb (out =? KEVENT_POLL_INVALID) then Ret (Polled out, set_ks_IF (preempt_restore intstate (ks_IF k)) k)
  else
    k ← kevent_subscribe events this_thread k;
    k ← lift (scheduler_put_task2sleep this_thread) k;
    k ← lift (scheduler_yield regs) k;
    Ret (Asleep this_thread intstate, k).

(** From [we got woken up again] on. *)
Definition kevents_poll_resumed (events : list Z) (this_thread : word) (intstate : bool) (k : kstate) : outcome (Z * kstate) :=
  '(out, k) ← _find_unprocessed events k;
  k ← kevent_unsubscribe events this_thread k;
  Ret (out, set_ks_IF (preempt_restore intstate (ks_IF k)) k).

(** ** Launching *)

Fixpoint wake_all (fuel : nat) (curr : word) (k : kstate) : outcome kstate :=
  match fuel with
  | O => Fault "list does not end"
  | S fuel =>
      if nonnull curr then
        u ← get_sub curr k;
        k ← lift (scheduler_attempt_wake (su_thread u)) k;
        u ← get_sub curr k;
        wake_all fuel (su_next u) k
      else Ret k
  end.

Definition kevent_launch (ev : Z) (k : kstate) : outcome kstate :=
  e ← get_event ev k;
  if negb (nonnull (ev_subscribers e)) then Panic "Should we be able to launch events with no subscribers?"
  else
    let '(istate, IF) := preempt_fetch_disable (ks_IF k) in
    let k := set_ks_IF IF k in
    k ← lock_event ev k;
    k ← upd_event ev (fun e => set_unprocessed (u64 (ev_unprocessed e + 1)) e) k;
    e ← get_event ev k;
    k ← wake_all (S (size (ks_subs k))) (ev_subscribers e) k;
    k ← unlock_event ev k;
    Ret (set_ks_IF (preempt_restore istate (ks_IF k)) k).

End Kevents.
End Kevent.
