(* ===== verification/Vector.v ===== *)
(** * Growable vectors (kernel/include/vector.h)

    The templates instantiated at a type of [n] bytes ([_NON_NATIVE], elements
    moved by [memcpy]/[memmove], compared by [memcmp]) and at a 64-bit scalar
    or pointer.  The elements are in the heap at [v_data]; growing goes through
    [krealloc]. *)

From stdpp Require Import gmap.
From S2P Require Import Prelude Mem FrameHdr FrameAlloc PageIface Slab RunQueue.

Module Vector.
Import Mem FrameHdr FrameAlloc PageIface Slab RunQueue.

Definition VECTOR_NOT_FOUND : Z := 2 ^ 64 - 1.
Definition VECTOR_INIT : vec := mk_vec 0 0 0.

Section Vectors.
Context {PA : PageAllocator}.

(** [if (vec->size >= vec->capacity) { ... }] with elements of [n] bytes. *)
Definition vector_grow (n : Z) (v : vec) (h : heap) : outcome (vec * heap) :=
  if v_size v >=? v_capacity v then
    let capacity := if negb (v_capacity v =? 0) then v_capacity v *! 2 else 8 in
    '(data, h) ← krealloc (v_data v) (capacity *! n) h;
    Ret (mk_vec data (v_size v) capacity, h)
  else Ret (v, h).

(** ** Native elements *)

Definition vector_push_back (v : vec) (value : Z) (h : heap) : outcome (Z * vec * heap) :=
  '(v, h) ← vector_grow 8 v h;
  let h := set_mem (write64 (v_data v + 8 * v_size v) value (h_mem h)) h in
  let v := mk_vec (v_data v) (v_size v +! 1) (v_capacity v) in
  Ret (v_size v -! 1, v, h).

(** [for (size_t start = idx; start < vec->size - 1; start++)], [k] rounds. *)
Fixpoint vector_shift (k : nat) (start : Z) (v : vec) (m : mem) : mem :=
  match k with
  | O => m
  | S k => vector_shift k (start + 1) v (write64 (v_data v + 8 * start) (read64 (v_data v + 8 * (start + 1)) m) m)
  end.
Definition vector_remove (v : vec) (idx : Z) (h : heap) : vec * heap :=
  if idx >=? v_size v then (v, h)
  else (mk_vec (v_data v) (v_size v -! 1) (v_capacity v),
        set_mem (vector_shift (Z.to_nat (v_size v -! 1 - idx)) idx v (h_mem h)) h).

Fixpoint vector_find_loop (k : nat) (i : Z) (v : vec) (value : Z) (m : mem) : Z :=
  match k with
  | O => VECTOR_NOT_FOUND
  | S k => if read64 (v_data v + 8 * i) m =? value then i else vector_find_loop k (i + 1) v value m
  end.
Definition vector_find (v : vec) (value : Z) (h : heap) : Z :=
  vector_find_loop (Z.to_nat (v_size v)) 0 v value (h_mem h).

Definition vector_reset (v : vec) (h : heap) : outcome (vec * heap) :=
  h ← kfree (v_data v) h;
  Ret (mk_vec 0 0 0, h).

(** ** Elements of [n] bytes *)

Definition vector_push_back_struct (n : Z) (v : vec) (value : Z) (h : heap) : outcome (Z * vec * heap) :=
  '(v, h) ← vector_grow n v h;
  let h := set_mem (memcpy (v_data v + n * v_size v) value n (h_mem h)) h in
  let v := mk_vec (v_data v) (v_size v +! 1) (v_capacity v) in
  Ret (v_size v -! 1, v, h).

Definition vector_remove_struct (n : Z) (v : vec) (idx : Z) (h : heap) : vec * heap :=
  if idx >=? v_size v then (v, h)
  else (mk_vec (v_data v) (v_size v -! 1) (v_capacity v),
        set_mem (memmove (v_data v + n * idx) (v_data v + n * (idx + 1)) (n *! (v_size v -! idx -! 1)) (h_mem h)) h).

Fixpoint vector_find_struct_loop (n : Z) (k : nat) (i : Z) (v : vec) (value : Z) (m : mem) : Z :=
  match k with
  | O => VECTOR_NOT_FOUND
  | S k => if memcmp (v_data v + n * i) value n m =? 0 then i else vector_find_struct_loop n k (i + 1) v value m
  end.
Definition vector_find_struct (n : Z) (v : vec) (value : Z) (h : heap) : Z :=
  vector_find_struct_loop n (Z.to_nat (v_size v)) 0 v value (h_mem h).

End Vectors.
End Vector.
