(* ===== verification/Idt.v ===== *)
(** * Descriptor tables (kernel/src/arch/x86-64/interrupt.c,
      kernel/src/arch/x86-64/cpu/gdt.c)

    The interrupt descriptor table, the table of handlers behind it, and the
    global descriptor table with its task state segment entry, as records of
    the fields of the packed structs.  The handlers, the stubs and the tables
    themselves have addresses, which are arguments.  [lidt], [lgdt] and [ltr]
    record what they load. *)

From stdpp Require Import gmap.
From S2P Require Import Prelude Locking.

Module Idt.
Import Locking.

Record idt_descriptor := mk_idt_descriptor {
  offset_low : Z; selector : Z; ist : Z; type_attributes : Z;
  offset_mid : Z; offset_high : Z; idt_reserved : Z
}.

Definition INT_VEC_RTC : Z := 33.
Definition INT_VEC_SCHEDULER : Z := 100.

(** [limit] and base of a loaded table. *)
Record table_register := mk_table_register { tr_size : Z; tr_ptr : Z }.

Record ints := mk_ints {
  i_idt : list idt_descriptor;
  i_handlers : list Z;
  i_idtr : table_register;                 (* idtr *)
  i_loaded : option table_register;        (* last lidt *)
  i_register_lock : k_spinlock_t;          (* int_register_vec_lock *)
  i_erase_lock : k_spinlock_t              (* int_erase_vec_lock *)
}.

Definition set_idt (x : list idt_descriptor) (i : ints) : ints :=
  mk_ints x (i_handlers i) (i_idtr i) (i_loaded i) (i_register_lock i) (i_erase_lock i).
Definition set_handlers (x : list Z) (i : ints) : ints :=
  mk_ints (i_idt i) x (i_idtr i) (i_loaded i) (i_register_lock i) (i_erase_lock i).

Definition make_descriptor (isr flags : Z) : idt_descriptor :=
  mk_idt_descriptor (Z.land isr 0xFFFF) 0x8 0 (u8 flags)
    (Z.land (Z.shiftr isr 16) 0xFFFF) (Z.land (Z.shiftr isr 32) 0xFFFFFFFF) 0.

(** [table[i] = x] of a 256-entry array. *)
Definition arr_set {A} (i : Z) (x : A) (l : list A) : outcome (list A) :=
  if (0 <=? i) && (i <? Z.of_nat (length l)) then Ret (<[Z.to_nat i := x]> l) else Fault "index out of range".
Definition arr_get {A} (i : Z) (l : list A) : outcome A :=
  if 0 <=? i then of_option "index out of range" (l !! Z.to_nat i) else Fault "index out of range".

Definition idt_set_descriptor (vector isr flags : Z) (i : ints) : outcome ints :=
  l ← arr_set (u8 vector) (make_descriptor isr flags) (i_idt i); Ret (set_idt l i).

Section Handlers.
(** Addresses of [default_interrupt_handler], [cpu_exception_handler] and
    [idt], and the contents of [isr_stub_table]. *)
Context (default_interrupt_handler cpu_exception_handler idt_address : Z) (isr_stub_table : Z -> Z).

Definition load_idt (i : ints) : ints :=
  let r := mk_table_register (u16 (256 * 16 - 1)) idt_address in
  mk_ints (i_idt i) (i_handlers i) r (Some r) (i_register_lock i) (i_erase_lock i).

(** Both loops of [init_idt]: [k] vectors from [vector] on. *)
Fixpoint init_vectors (k : nat) (vector flags handler : Z) (i : ints) : outcome ints :=
  match k with
  | O => Ret i
  | S k =>
      i ← idt_set_descriptor vector (isr_stub_table vector) flags i;
      l ← arr_set vector handler (i_handlers i);
      init_vectors k (vector + 1) flags handler (set_handlers l i)
  end.

Definition init_idt (i : ints) : outcome ints :=
  i ← init_vectors 32 0 0x8f cpu_exception_handler i;
  i ← init_vectors (256 - 32) 32 0x8e default_interrupt_handler i;
  Ret (load_idt i).

(** A vector that is taken, or a null handler, is reported by a message only. *)
Definition interrupts_register_vector (vector handler : Z) (i : ints) (IF : bool) : outcome (ints * bool) :=
  '(IF, l) ← Seq.spin_lock_global IF (i_register_lock i);
  _ ← arr_get vector (i_handlers i);
  hs ← arr_set vector handler (i_handlers i);
  let '(IF, l) := Seq.spin_unlock_global IF l in
  Ret (mk_ints (i_idt i) hs (i_idtr i) (i_loaded i) l (i_erase_lock i), IF).

(** The failing path executes [hlt] with interrupts off: the core stops. *)
Definition interrupts_erase_vector (vector : Z) (i : ints) (IF : bool) : outcome (ints * bool) :=
  '(IF, l) ← Seq.spin_lock_global IF (i_erase_lock i);
  h ← arr_get vector (i_handlers i);
  if (h =? default_interrupt_handler) || (vector <? 32) then Panic "Failed to erase vector"
  else
    hs ← arr_set vector default_interrupt_handler (i_handlers i);
    let '(IF, l) := Seq.spin_unlock_global IF l in
    Ret (mk_ints (i_idt i) hs (i_idtr i) (i_loaded i) (i_register_lock i) l, IF).

End Handlers.

(** ** Segments *)

Record segment_descriptor := mk_segment {
  limit_low : Z; base_low : Z; base_mid : Z; access_byte : Z; limit_high_and_flags : Z; base_high : Z
}.
Record system_segment_descriptor := mk_system_segment {
  descriptor : segment_descriptor; base : Z; sys_reserved : Z
}.

(** [struct task_state_segment] is not packed: a field starts at the next
    multiple of its size, and the struct's size is a multiple of 8. *)
Definition tss_field_sizes : list Z := [4] ++ replicate 12 8 ++ [2; 2].
Fixpoint field_offsets (off : Z) (sizes : list Z) : list Z * Z :=
  match sizes with
  | [] => ([], (off + 7) / 8 * 8)
  | n :: sizes =>
      let at_ := (off + n - 1) / n * n in
      let '(l, size) := field_offsets (at_ + n) sizes in (at_ :: l, size)
  end.
Definition offsetof_tss (k : nat) : Z := default 0 ((field_offsets 0 tss_field_sizes).1 !! k).
Definition SIZEOF_TSS : Z := (field_offsets 0 tss_field_sizes).2.
Definition SIZEOF_GDT : Z := 5 * 8 + 16.

Record gdt_state := mk_gdt {
  gdts : list segment_descriptor;
  tss : system_segment_descriptor;
  gdtr : table_register;
  g_loaded : option table_register;    (* last lgdt *)
  g_tr : Z;                            (* task register *)
  g_lock : k_spinlock_t
}.

Definition rld_gdt (g : gdt_state) : gdt_state :=
  mk_gdt (gdts g) (tss g) (gdtr g) (Some (gdtr g)) (g_tr g) (g_lock g).

Definition init_gdt (gdt_address : Z) (g : gdt_state) : gdt_state :=
  let segments :=
    [mk_segment 0 0 0 0 0 0;
     mk_segment 0 0 0 0x9a 0xa0 0;
     mk_segment 0 0 0 0x92 0xa0 0;
     mk_segment 0 0 0 0xfa 0xa0 0;
     mk_segment 0 0 0 0xf2 0xa0 0] in
  let tss := mk_system_segment (mk_segment SIZEOF_TSS 0 0 0x89 0 0) 0 0 in
  rld_gdt (mk_gdt segments tss (mk_table_register (u16 (SIZEOF_GDT - 1)) gdt_address) (g_loaded g) (g_tr g) (g_lock g)).

(** The stores in the order of the code: [base] gets the upper half of the
    address and then 0. *)
Definition rld_tss (tss_address : Z) (g : gdt_state) (IF : bool) : outcome (gdt_state * bool) :=
  '(IF, l) ← Seq.spin_lock_global IF (g_lock g);
  let d := mk_segment SIZEOF_TSS (u16 tss_address) (u8 (Z.shiftr tss_address 16)) 0x89 0 (u8 (Z.shiftr tss_address 24)) in
  let s := mk_system_segment d (u32 (Z.shiftr tss_address 32)) (sys_reserved (tss g)) in
  let s := mk_system_segment (descriptor s) 0 (sys_reserved s) in
  let s := mk_system_segment (descriptor s) (base s) 0 in
  let '(IF, l) := Seq.spin_unlock_global IF l in
  Ret (mk_gdt (gdts g) s (gdtr g) (g_loaded g) 40 l, IF).

(** ** What the processor reads *)

(** Address of an interrupt gate's handler, and of a task state segment. *)
Definition gate_target (d : idt_descriptor) : Z := offset_low d + 2 ^ 16 * offset_mid d + 2 ^ 32 * offset_high d.
Definition segment_base (s : system_segment_descriptor) : Z :=
  base_low (descriptor s) + 2 ^ 16 * base_mid (descriptor s) + 2 ^ 24 * base_high (descriptor s) + 2 ^ 32 * base s.

End Idt.
