(* ===== verification/SchedTasks.v ===== *)
(** * Creating, preempting, ending and reaping tasks
      (kernel/src/proc/scheduler.c)

    The functions of the scheduler that allocate, launch events, or run as
    threads of their own.  A new task's record is at the address [kcalloc]
    returned, zeroed; stacks are page blocks, their addresses kept in the
    task's vector.  The reaper and the idle thread are infinite loops: their
    bodies are given. *)

From stdpp Require Import gmap.
From S2P Require Import Prelude Locking Mem FrameHdr FrameAlloc PageIface Slab RunQueue Sched Kevent Vector Idt.

Module SchedTasks.
Import Locking Mem FrameHdr FrameAlloc PageIface Slab RunQueue Sched Kevent Vector Idt.

Definition SIZEOF_TASK : Z := 240.
Definition zero_jmpbuf : jmpbuf := mk_jmpbuf 0 0 0 0 0 0 0 0.
Definition zero_task : task :=
  mk_task 0 0 NULL NULL NULL NULL NULL (mk_vec 0 0 0) 0 0 0 0 zero_jmpbuf 0 0 TASK_STATE_UNITIALIZED 0 NULL NULL.

Definition scheduler_new_tid (s : sched) : Z * sched :=
  let n := s_tid_counter s +! 1 in (n, set_tid_counter n s).

Section Tasks.
Context {PA : PageAllocator}.

(** ** Spawning *)

(** [page2phys(page_alloc(psize2order(size)))] *)
Definition alloc_stack (size : Z) (s : sched) : outcome (Z * sched) :=
  '(pg, m) ← pa_alloc (psize2order size) (h_mm (s_heap s));
  phys ← page2phys (mm_pages_count m) pg;
  Ret (phys, set_heap (set_mm m (s_heap s)) s).

(** [task->stacks.push_back(&task->stacks, phys)] *)
Definition push_stack (task : word) (phys : Z) (s : sched) : outcome sched :=
  t ← get_task task (s_tasks s);
  '(_, v, h) ← vector_push_back (t_stacks t) phys (s_heap s);
  task_upd task (set_stacks v) (set_heap h s).

(** The branches on [SPAWN_TASK_THREAD_GROUP]. *)
Definition link_family (new_task parent_proc : word) (flags : Z) (s : sched) : outcome sched :=
  if tst flags SPAWN_TASK_THREAD_GROUP then
    p ← get_task parent_proc (s_tasks s);
    s ← task_upd new_task (set_gid (t_gid p)) s;
    s ← task_upd new_task (set_tg_leader parent_proc) s;
    s ← task_upd new_task (set_sibling_prev NULL) s;
    s ← task_upd new_task (set_sibling_next (t_first_child p)) s;
    s ← (if nonnull (t_first_child p) then task_upd (t_first_child p) (set_sibling_prev new_task) s else Ret s);
    task_upd parent_proc (set_first_child new_task) s
  else
    t ← get_task new_task (s_tasks s);
    s ← task_upd new_task (set_gid (t_tid t)) s;
    s ← task_upd new_task (set_tg_leader NULL) s;
    s ← task_upd new_task (set_sibling_prev NULL) s;
    task_upd new_task (set_sibling_next NULL) s.

Definition scheduler_spawn_task (parent_proc : word) (pmc flags stacksize : Z) (s : sched) : outcome (word * sched) :=
  '(a, h) ← kcalloc 1 SIZEOF_TASK (s_heap s);
  let new_task := Ref a in
  let s := set_tasks (<[a := zero_task]> (s_tasks s)) (set_heap h s) in
  s ← big_lock s;
  let '(tid, s) := scheduler_new_tid s in
  s ← task_upd new_task (set_tid (s32 tid)) s;
  s ← task_upd new_task (set_parent parent_proc) s;
  s ← task_upd new_task (set_first_child NULL) s;
  s ← link_family new_task parent_proc flags s;
  s ← task_upd new_task (set_stacks VECTOR_INIT) s;
  s ← task_upd new_task (set_stack_size stacksize) s;
  '(stack_phys, s) ← alloc_stack stacksize s;
  s ← push_stack new_task stack_phys s;
  s ← task_upd new_task (set_stack (stack_phys +! stacksize -! 1)) s;
  s ← (if tst flags SPAWN_TASK_NO_KERNEL_STACK then task_upd new_task (set_kernel_stack 0) s
       else
         '(kernel_stack_phys, s) ← alloc_stack KERNEL_STACK_SIZE s;
         s ← push_stack new_task kernel_stack_phys s;
         task_upd new_task (set_stack (kernel_stack_phys +! KERNEL_STACK_SIZE)) s);
  s ← task_upd new_task (set_context zero_jmpbuf) s;
  s ← task_upd new_task (set_flags 0) s;
  s ← task_upd new_task (set_prio TASK_PRIORITY_IDLE) s;
  s ← task_upd new_task (set_state TASK_STATE_UNITIALIZED) s;
  s ← task_upd new_task (fun t => set_rr_next NULL (set_rr_prev NULL t)) s;
  s ← q_insert_front QSleep new_task s;
  s ← task_upd new_task (set_pmc pmc) s;
  Ret (new_task, big_unlock s).

(** ** Cleaning up *)

(** [while (child)] *)
Fixpoint kill_children (fuel : nat) (child : word) (s : sched) : outcome sched :=
  match fuel with
  | O => Fault "list does not end"
  | S fuel =>
      if nonnull child then
        s ← task_upd child (set_state TASK_STATE_KILLED) s;
        t ← get_task child (s_tasks s);
        kill_children fuel (t_sibling_next t) s
      else Ret s
  end.

Definition free_stack (phys size : Z) (s : sched) : outcome sched :=
  m ← pa_free (phys2page phys) (psize2order size) (h_mm (s_heap s));
  Ret (set_heap (set_mm m (s_heap s)) s).

(** [for (size_t i = 1; i < task->stacks.size; i++)], [k] rounds. *)
Fixpoint free_stacks (k : nat) (i : Z) (v : vec) (s : sched) : outcome sched :=
  match k with
  | O => Ret s
  | S k =>
      s ← free_stack (read64 (v_data v + 8 * i) (h_mem (s_heap s))) KERNEL_STACK_SIZE s;
      free_stacks k (i + 1) v s
  end.

Definition scheduler_cleanup_task (task : word) (s : sched) : outcome sched :=
  t ← get_task task (s_tasks s);
  if negb (bool_decide (t_state t = TASK_STATE_KILLED)) then Panic "trying to cleanup non-dead task"
  else if nonnull (t_rr_next t) || nonnull (t_rr_prev t) then Panic "we shouldn't be enlinked here"
  else
    s ← big_lock s;
    s ← kill_children (S (size (s_tasks s))) (t_first_child t) s;
    t ← get_task task (s_tasks s);
    p ← get_task (t_parent t) (s_tasks s);
    s ← (if decide (t_first_child p = task) then task_upd (t_parent t) (set_first_child (t_sibling_next t)) s else Ret s);
    s ← (if nonnull (t_sibling_next t) then task_upd (t_sibling_next t) (set_sibling_prev (t_sibling_prev t)) s else Ret s);
    s ← (if nonnull (t_sibling_prev t) then task_upd (t_sibling_prev t) (set_sibling_next (t_sibling_next t)) s else Ret s);
    let s := big_unlock s in
    t ← get_task task (s_tasks s);
    let v := t_stacks t in
    s ← free_stack (read64 (v_data v) (h_mem (s_heap s))) (t_stack_size t) s;
    free_stacks (Z.to_nat (v_size v - 1)) 1 v s.

(** ** Threads *)

(** Addresses of [kernel_thread_spinup] and [kernel_idle], and the top-level
    table of [kernel_pmc]. *)
Context (kernel_thread_spinup kernel_idle_address kernel_pmc : Z).

(** [task->stack -= 8; *task->stack = x] *)
Definition push_word (task : word) (x : Z) (s : sched) : outcome sched :=
  t ← get_task task (s_tasks s);
  let stack := t_stack t -! 8 in
  s ← task_upd task (set_stack stack) s;
  Ret (set_heap (set_mem (write64 stack x (h_mem (s_heap s))) (s_heap s)) s).

Definition KiB : Z := 1024.

Definition scheduler_new_kernel_thread (entry args prio : Z) (s : sched) : outcome (word * sched) :=
  '(thread, s) ← scheduler_spawn_task (s_kernel_task s) kernel_pmc SPAWN_TASK_THREAD_GROUP (64 * KiB) s;
  s ← big_lock s;
  s ← task_upd thread (set_prio prio) s;
  s ← task_upd thread (fun t => set_stack (t_stack t +! h_offset (s_heap s)) t) s;
  s ← push_word thread entry s;
  s ← push_word thread args s;
  s ← task_upd thread (fun t =>
        set_context (mk_jmpbuf kernel_thread_spinup (t_stack t) (t_stack t) 0 0 0 0 0) (set_fs_base 0 t)) s;
  s ← task_upd thread (set_flags TASK_FLAGS_KERNEL_THREAD) s;
  s ← task_upd thread (set_state TASK_STATE_SLEEPING) s;
  let s := big_unlock s in
  s ← scheduler_attempt_wake thread s;
  Ret (thread, s).

Definition scheduler_new_idle_thread (s : sched) : outcome (word * sched) :=
  '(thread, s) ← scheduler_spawn_task (s_kernel_task s) kernel_pmc
                   (Z.lor SPAWN_TASK_NO_KERNEL_STACK SPAWN_TASK_THREAD_GROUP) (64 * KiB) s;
  s ← big_lock s;
  s ← task_upd thread (set_prio TASK_PRIORITY_IDLE) s;
  s ← task_upd thread (fun t => set_stack (t_stack t +! h_offset (s_heap s)) t) s;
  s ← task_upd thread (fun t =>
        set_context (mk_jmpbuf kernel_idle_address (t_stack t) (t_stack t) 0 0 0 0 0) (set_fs_base 0 t)) s;
  s ← task_upd thread (set_flags (Z.lor TASK_FLAGS_KERNEL_THREAD TASK_FLAGS_KERNEL_IDLE)) s;
  s ← task_upd thread (set_state TASK_STATE_READY) s;
  let s := big_unlock s in
  s ← q_remove QSleep thread s;
  Ret (thread, s).

(** [scheduler_preempt_address], [kernel_reaper_address]: the functions. *)
Definition init_scheduling (scheduler_preempt_address kernel_reaper_address : Z) (s : sched) (i : ints) : outcome (sched * ints) :=
  '(i, IF) ← interrupts_register_vector INT_VEC_SCHEDULER scheduler_preempt_address i (s_IF s);
  let s := set_s_IF IF s in
  '(t, s) ← scheduler_spawn_task NULL kernel_pmc SPAWN_TASK_NO_KERNEL_STACK (64 * KiB) s;
  let s := set_kernel_task t s in
  '(_, s) ← scheduler_new_kernel_thread kernel_reaper_address 0 TASK_PRIORITY_CRITICAL s;
  Ret (s, i).

(** ** Preemption and exit

    [reap_event] is the address of the static event. *)

Context (reap_event : Z).

Definition scheduler_preempt (regs : jmpbuf) (k : kstate) : outcome kstate :=
  if preempt_fetch (ks_IF k) then Panic "this can't happen anyways"
  else
    k ← lift big_lock k;
    this_cpu ← get_this_cpu (ks_sched k);
    curr_task ← scheduler_curr_task (ks_sched k);
    let k := set_sched (set_curr NULL (ks_sched k)) k in
    t ← get_task curr_task (s_tasks (ks_sched k));
    if decide (t_state t = TASK_STATE_KILLED) then
      k ← lift (q_insert_back QReap curr_task) k;
      k ← kevent_launch reap_event k;
      k ← lift (fun s => Ret (big_unlock s)) k;
      lift switch_to_next_task k
    else
      k ← lift (task_upd curr_task (set_state TASK_STATE_READY)) k;
      k ← lift (fun s => Ret (big_unlock s)) k;
      if decide (curr_task = c_idle_thread this_cpu) then lift switch_to_next_task k
      else
        k ← lift (task_upd curr_task (set_context regs)) k;
        t ← get_task curr_task (s_tasks (ks_sched k));
        k ← lift (q_insert_back (QPrio (t_prio t)) curr_task) k;
        lift switch_to_next_task k.

Definition scheduler_kernel_thread_exit (k : kstate) : outcome kstate :=
  let k := set_ks_IF (preempt_disable (ks_IF k)) k in
  curr_task ← scheduler_curr_task (ks_sched k);
  k ← lift (task_upd curr_task (set_state TASK_STATE_KILLED)) k;
  k ← lift (q_insert_back QReap curr_task) k;
  k ← kevent_launch reap_event k;
  lift switch_to_next_task k.

(** The idle thread turns interrupts on and halts, over and over. *)
Definition kernel_idle (s : sched) : sched := set_s_IF (preempt_enable (s_IF s)) s.

(** One round of the reaper, from the return of [kevents_poll] with [ret]. *)
Definition reaper_round (ret : Z) (k : kstate) : outcome kstate :=
  if negb (ret =? 0) then Panic "something went wrong"
  else
    '(task_to_kill, s) ← q_pop_front QReap (ks_sched k);
    _ ← get_task task_to_kill (s_tasks s);
    s ← scheduler_cleanup_task task_to_kill s;
    Ret (set_sched s k).

(** The reaper up to its first wait. *)
Definition kernel_reaper (regs : jmpbuf) (k : kstate) : outcome (poll * kstate) :=
  let k := set_ks_IF (preempt_enable (ks_IF k)) k in
  kevents_poll [reap_event] regs k.

End Tasks.
End SchedTasks.
