(* ===== verification/SchedProof.v ===== *)
(** * The scheduler's operations keep its invariant

    [running s Q c]: the core runs [c], which is in no queue, and the idle
    thread can take over.  Preemption, blocking, waking and suspending lead
    from such a state to such a state; what happens to the queues is stated
    by [after], [next_of] and the queue updates. *)

From stdpp Require Import gmap functions.
From S2P Require Import Prelude Locking Mem FrameHdr FrameAlloc PageIface Slab RunQueue RunQueueSpec Sched SchedSpec Kevent Vector Idt SchedTasks.

Module SchedProof.
Import Locking Mem FrameHdr FrameAlloc PageIface Slab RunQueue RunQueueSpec Sched SchedSpec Kevent SchedTasks.

Definition prio_ok (t : task) : Prop := valid (QPrio (t_prio t)).

(** The idle thread is ready. *)
Definition standby (s : sched) : Prop :=
  exists a t, c_idle_thread (s_cpu s) = Ref a /\ info s !! a = Some t /\ t_state t = TASK_STATE_READY /\ prio_ok t.

Record running (s : sched) (Q : qname -> list Z) (c : Z) : Prop := {
  ru_ok : sched_ok s Q;
  ru_curr : curr_thread s = Ref c;
  ru_loose : loose Q c;
  ru_task : exists t, info s !! c = Some t /\ t_state t = TASK_STATE_RUNNING /\ prio_ok t;
  ru_idle : c_idle_thread (s_cpu s) <> Ref c -> standby s;
  ru_lock : unlocked (s_big_lock s)
}.

Lemma standby_ready s : standby s -> idle_ready s.
Proof. intros (a & t & ? & ? & ? & _). by exists a, t. Qed.

Lemma standby_alter s s' f a :
  standby s -> s_cpu s' = s_cpu s \/ c_idle_thread (s_cpu s') = c_idle_thread (s_cpu s) ->
  info s' = alter f a (info s) -> c_idle_thread (s_cpu s) <> Ref a -> standby s'.
Proof.
  intros (b & t & Hb & Ht & Hst & Hp) Hc Hi Hne. exists b, t. assert (b <> a) by congruence.
  split; [by destruct Hc as [->| ->]|]. by rewrite Hi, lookup_alter_ne.
Qed.

(** ** Switching away *)

Lemma switch_running s Q :
  sched_ok s Q -> s_IF s = false -> standby s -> unlocked (s_big_lock s) ->
  returns (switch_to_next_task s) (fun s' => exists a t,
    next_of s Q = Ref a /\ info s !! a = Some t /\ running s' (after Q) a /\ ran a t s s').
Proof.
  intros Hok HIF Hsb Hu. eapply returns_mono; [apply (switch_to_next_spec s Q Hok HIF); intros _; by apply standby_ready|].
  intros s' (a & t & Hn & Ht & Hst & Hok' & Hl & Hran). exists a, t. split; [done|]. split; [done|]. split; [|done].
  destruct Hran as [Hi Hc _ Hbig _ _ _]. split; [done| |done| | |by rewrite Hbig].
  - unfold curr_thread. by rewrite Hc.
  - exists (set_state TASK_STATE_RUNNING t). rewrite Hi, lookup_alter_eq, Ht. split; [done|]. split; [done|].
    unfold next_of in Hn. destruct (pick Q) as [[j x]|] eqn:Hp.
    + injection Hn as ->. apply pick_valid in Hp as (Hv & HQ).
      destruct (so_roles _ _ Hok (QPrio j) a Hv) as (t' & Ht' & _ & ?); [rewrite HQ; left|]. rewrite Ht in Ht'. by apply (inj Some) in Ht' as <-.
    + destruct Hsb as (b & tb & Hb & Htb & _ & Hpb). rewrite Hn in Hb. injection Hb as <-. rewrite Ht in Htb. by apply (inj Some) in Htb as <-.
  - intros Hne. eapply (standby_alter s s' _ a); [done|right; by rewrite Hc|done|].
    rewrite Hc in Hne. exact Hne.
Qed.

(** ** Locks and lifts *)

Lemma big_lock_off s : s_IF s = false -> unlocked (s_big_lock s) -> big_lock s = Ret (set_big_lock (mk_spinlock 1 false) s).
Proof.
  intros HIF Hu. unfold big_lock. rewrite (Seq.spin_lock_global_ret _ _ Hu), HIF. cbn [mbind outcome_bind].
  destruct s as [? ? ? ? ? ? ? ? ? [[]]]. unfold s_IF in HIF. simpl in *. by subst.
Qed.

Lemma big_unlock_off s : s_IF s = false -> s_big_lock s = mk_spinlock 1 false -> big_unlock s = set_big_lock (mk_spinlock 0 false) s.
Proof.
  intros HIF Hl. unfold big_unlock. rewrite HIF, Hl, Seq.spin_unlock_global_ret.
  destruct s as [? ? ? ? ? ? ? ? ? [[]]]. unfold s_IF in HIF. simpl in *. by subst.
Qed.

Lemma queues_big s Q x : queues s Q -> queues (set_big_lock x s) Q.
Proof. intros [Hr Hd]. split; [|done]. intros n Hn. destruct (Hr n Hn) as (q & Hg & ?). exists q. split; [by destruct n|done]. Qed.

Lemma lift_ret f k s : f (ks_sched k) = Ret s -> lift f k = Ret (set_sched s k).
Proof. intros H. unfold lift. by rewrite H. Qed.

Lemma lift_returns f k (P : sched -> Prop) :
  returns (f (ks_sched k)) P -> returns (lift f k) (fun k' => P (ks_sched k') /\ k' = set_sched (ks_sched k') k).
Proof. intros H. unfold lift. destruct (f (ks_sched k)); [|done|done]. by split. Qed.

(** The core has switched from [s], with tasks [I] and queues [Q] when it left. *)
Definition switched (k : kstate) (s : sched) (I : store) (Q : qname -> list Z) (k' : kstate) : Prop := exists a,
  next_of s Q = Ref a /\ running (ks_sched k') (after Q) a /\
  info (ks_sched k') = alter (set_state TASK_STATE_RUNNING) a I /\
  c_idle_thread (s_cpu (ks_sched k')) = c_idle_thread (s_cpu s) /\
  s_heap (ks_sched k') = s_heap s /\ k' = set_sched (ks_sched k') k.

Lemma switch_lifted k s Q :
  sched_ok s Q -> s_IF s = false -> standby s -> unlocked (s_big_lock s) ->
  returns (lift switch_to_next_task (set_sched s k)) (switched k s (info s) Q).
Proof.
  intros Hok HIF Hsb Hu. eapply returns_mono; [exact (lift_returns _ (set_sched s k) _ (switch_running s Q Hok HIF Hsb Hu))|].
  intros k' ((a & t & Hn & _ & Hrun & [Hi Hc _ _ Hh _ _]) & ->). exists a. cbn [ks_sched set_sched]. rewrite Hc. done.
Qed.

Lemma switched_rest o k s s' I Q :
  returns o (switched k s' I Q) -> c_idle_thread (s_cpu s') = c_idle_thread (s_cpu s) -> s_heap s' = s_heap s ->
  returns o (switched k s I Q).
Proof.
  intros H Hc Hh. eapply returns_mono; [exact H|]. intros k' (a & Hn & Hrun & Hi & Hid & Hhp & Hk). exists a.
  unfold next_of in *. rewrite <- Hc, <- Hh. done.
Qed.

(** ** Preemption *)

(** Where a preempted task goes. *)
Definition requeue (s : sched) (c : Z) (t : task) (Q : qname -> list Z) : qname -> list Z :=
  if decide (c_idle_thread (s_cpu s) = Ref c) then Q else <[QPrio (t_prio t) := Q (QPrio (t_prio t)) ++ [c]]> Q.

(** The task [c] of priority [t_prio t] has given up the core. *)
Definition preempted (regs : jmpbuf) (s : sched) (c : Z) (I : store) : store :=
  if decide (c_idle_thread (s_cpu s) = Ref c) then alter (set_state TASK_STATE_READY) c I
  else alter (set_context regs) c (alter (set_state TASK_STATE_READY) c I).

(** The first part: the task is ready again, nothing is current. *)
Lemma released s Q c s' x :
  running s Q c -> queues s' Q -> info s' = alter (set_state TASK_STATE_READY) c (info s) ->
  rest s' = rest (set_curr NULL (set_big_lock x s)) -> sched_ok s' Q /\ standby s'.
Proof.
  intros [Hok Hc Hl (t & Ht & _ & Hp) Hid _] Hq Hi Hr. pose proof (rest_cpu _ _ Hr) as Hcpu. split; [split|].
  - done.
  - rewrite Hi. apply roles_alter; [apply Hok|done].
  - destruct (so_idle _ _ Hok) as (b & Hb & Hlb & Hsb). exists b. rewrite Hcpu, Hi. split; [done|]. split; [done|].
    by rewrite lookup_alter_is_Some.
  - destruct (decide (c_idle_thread (s_cpu s) = Ref c)) as [Heq|Hne].
    + exists c, (set_state TASK_STATE_READY t). rewrite Hcpu, Hi, lookup_alter_eq, Ht. done.
    + eapply (standby_alter s); [by apply Hid|right; by rewrite Hcpu|done|done].
Qed.

Lemma preempt_spec {PA : PageAllocator} reap_event regs k Q c t :
  running (ks_sched k) Q c -> ks_IF k = false -> info (ks_sched k) !! c = Some t ->
  let s := ks_sched k in
  returns (scheduler_preempt reap_event regs k) (switched k s (preempted regs s c (info s)) (requeue s c t Q)).
Proof.
  intros Hru HIF Ht s. pose proof Hru as [Hok Hc Hl (t' & Ht' & Hst & Hp) Hid Hu]. rewrite Ht in Ht'. apply (inj Some) in Ht' as <-.
  apply info_Some in Ht as (t0 & Ht0 & ->). simpl in Hst.
  unfold scheduler_preempt. rewrite HIF. cbn [preempt_fetch]. rewrite (lift_ret _ _ _ (big_lock_off _ HIF Hu)). fold s. cbn [mbind outcome_bind].
  set (s1 := set_big_lock _ s). unfold get_this_cpu, scheduler_curr_task, get_this_cpu. cbn [ks_sched set_sched].
  change (s_IF s1) with (ks_IF k). rewrite HIF. cbn [preempt_fetch mbind outcome_bind].
  change (c_curr_thread (s_cpu s1)) with (curr_thread (ks_sched k)). rewrite Hc. set (s2 := set_curr NULL s1).
  cbn [ks_sched set_sched]. rewrite (get_task_ret c (s_tasks s2) t0 Ht0). cbn [mbind outcome_bind]. rewrite decide_False by congruence.
  mcall (lift_returns (task_upd (Ref c) (set_state TASK_STATE_READY)) (set_sched s2 (set_sched s1 k)) _
           (task_upd_spec c _ s2 Q t0 (set_state_links _) (queues_cpu _ _ _ (queues_big _ _ _ (so_queues _ _ Hok))) Ht0)).
  intros k3 ((Hq3 & Hi3 & Hr3 & Ht3) & ->). cbn [ks_sched set_sched] in *. set (s3 := ks_sched k3) in *. clearbody s3.
  assert (s_IF s3 = false) as HIF3 by (rewrite (rest_IF _ _ Hr3); exact HIF).
  rewrite (lift_ret (fun s => Ret (big_unlock s)) (set_sched s3 _) (big_unlock s3) eq_refl).
  rewrite (big_unlock_off s3 HIF3) by (rewrite (rest_big _ _ Hr3); done). cbn [mbind outcome_bind].
  set (s4 := set_big_lock _ s3). assert (queues s4 Q) as Hq4 by (by apply queues_big).
  destruct (released s Q c s4 (mk_spinlock 0 false) Hru Hq4 Hi3) as [Hok4 Hsb4].
  { unfold rest in *. simpl. simpl in Hr3. congruence. }
  change (c_idle_thread (s_cpu s1)) with (c_idle_thread (s_cpu s)). unfold requeue, preempted.
  assert (c_idle_thread (s_cpu s4) = c_idle_thread (s_cpu s)) as Hid4 by (simpl; by rewrite (rest_cpu _ _ Hr3)).
  assert (s_heap s4 = s_heap s) as Hh4 by (simpl; by rewrite (rest_heap _ _ Hr3)).
  assert (forall s5 Q5, sched_ok s5 Q5 -> rest s5 = rest s4 -> standby s5 ->
    returns (lift switch_to_next_task (set_sched s5 k)) (switched k s (info s5) Q5)) as Hfin.
  { intros s5 Q5 Hok5 Hr5 Hsb5. eapply switched_rest; [|by rewrite (rest_cpu _ _ Hr5)|by rewrite (rest_heap _ _ Hr5)].
    apply switch_lifted; [done|by rewrite (rest_IF _ _ Hr5)|done|by rewrite (rest_big _ _ Hr5)]. }
  destruct (decide (Ref c = c_idle_thread (s_cpu s))) as [Heq|Hne].
  - rewrite !decide_True by done. change (info s2) with (info s) in Hi3. rewrite <- Hi3. by apply (Hfin s4).
  - rewrite !decide_False by congruence.
    mcall (lift_returns (task_upd (Ref c) (set_context regs)) (set_sched s4 (set_sched s3 (set_sched s2 (set_sched s1 k)))) _
             (task_upd_spec c _ s4 Q _ (set_context_links _) Hq4 Ht3)).
    intros k5 ((Hq5 & Hi5 & Hr5 & Ht5) & ->). cbn [ks_sched set_sched] in *. set (s5 := ks_sched k5) in *. clearbody s5.
    rewrite (get_task_ret c (s_tasks s5) _ Ht5). cbn [mbind outcome_bind t_prio set_context set_state].
    change (t_prio (unlinked t0)) with (t_prio t0) in *.
    mcall (lift_returns (q_insert_back (QPrio (t_prio t0)) (Ref c)) (set_sched s5 (set_sched s4 (set_sched s3 (set_sched s2 (set_sched s1 k))))) _
             (q_insert_back_spec s5 Q (QPrio (t_prio t0)) Hq5 Hp c Hl ltac:(by eexists))).
    intros k6 ((Hq6 & Hi6 & Hr6) & ->). cbn [ks_sched set_sched] in *. set (s6 := ks_sched k6) in *. clearbody s6.
    rewrite Hi5 in Hi6. rewrite Hr5 in Hr6. assert (info s4 = alter (set_state TASK_STATE_READY) c (info s)) as Hi4 by done.
    replace (alter _ c (alter _ c _)) with (info s6) by (by rewrite Hi6, Hi4). apply (Hfin s6); [|done|].
    + eapply (sched_ok_step s4); try done; [by rewrite Hid4| | |].
      * intros x. rewrite elem_of_app, list_elem_of_singleton. by intros [ ? | -> ].
      * intros t' _. rewrite Hi4, lookup_alter_eq, (info_task s c t0 Ht0). intros [= <-]. done.
      * intros _. by rewrite Hi4, lookup_alter_eq, (info_task s c t0 Ht0).
    + eapply (standby_alter s4); [done|left; by rewrite (rest_cpu _ _ Hr6)|exact Hi6|by rewrite Hid4].
Qed.

(** ** Giving up the core *)

Lemma set_IF_off s : s_IF s = false -> set_s_IF (preempt_disable (s_IF s)) s = s.
Proof. destruct s as [? ? ? ? ? ? ? ? ? [[]]]. unfold s_IF. simpl. by intros ->. Qed.

Lemma yield_start regs s c t :
  s_IF s = false -> curr_thread s = Ref c -> s_tasks s !! c = Some t ->
  scheduler_yield regs s =
    (s ← task_upd (Ref c) (set_context regs) s;
     t ← get_task (Ref c) (s_tasks s);
     s ← (if decide (t_state t = TASK_STATE_SLEEPING) then Ret s
          else if nonnull (t_rr_next t) || nonnull (t_rr_prev t) then Panic "task shouldn't be enqueued"
          else q_insert_back (QPrio (t_prio t)) (Ref c) s);
     switch_to_next_task s).
Proof.
  intros HIF Hc Ht. unfold scheduler_yield. rewrite set_IF_off by done. unfold scheduler_curr_task, get_this_cpu.
  rewrite HIF. cbn [preempt_fetch mbind outcome_bind]. change (c_curr_thread (s_cpu s)) with (curr_thread s). by rewrite Hc.
Qed.

(** Saving a context changes nothing the invariant looks at. *)
Lemma sched_ok_context regs s s' Q c :
  sched_ok s Q -> queues s' Q -> info s' = alter (set_context regs) c (info s) -> rest s' = rest s -> sched_ok s' Q.
Proof.
  intros Hok Hq Hi Hr. split; [done| |].
  - rewrite Hi. intros n x Hn Hx. destruct (so_roles _ _ Hok n x Hn Hx) as (tx & Htx & Hro & Hpx).
    destruct (decide (x = c)) as [->|Hxc]; [|exists tx; by rewrite lookup_alter_ne].
    exists (set_context regs tx). rewrite lookup_alter_eq, Htx. split; [done|]. split; [by destruct n|done].
  - destruct (so_idle _ _ Hok) as (b & Hb & Hlb & Hsb). exists b. rewrite (rest_cpu _ _ Hr), Hi. split; [done|].
    split; [done|]. by rewrite lookup_alter_is_Some.
Qed.

(** The current thread has put itself to sleep and yields. *)
Lemma block_spec regs k Q c t :
  running (ks_sched k) Q c -> ks_IF k = false -> info (ks_sched k) !! c = Some t -> c_idle_thread (s_cpu (ks_sched k)) <> Ref c ->
  let s := ks_sched k in
  returns (lift (scheduler_put_task2sleep (Ref c)) k ≫= lift (scheduler_yield regs))
    (switched k s (alter (set_context regs) c (alter (set_state TASK_STATE_SLEEPING) c (info s))) (<[QSleep := Q QSleep ++ [c]]> Q)).
Proof.
  intros [Hok Hc Hl (t' & Ht' & Hst & Hp) Hid Hu] HIF Ht Hne s. rewrite Ht in Ht'. apply (inj Some) in Ht' as <-.
  mcall (lift_returns (scheduler_put_task2sleep (Ref c)) k _ (put_task2sleep_current s Q c t Hok Hc Hl Hne HIF Ht ltac:(congruence) Hp)).
  intros k1 ((Hok1 & Hi1 & Hr1) & ->). cbn [ks_sched set_sched]. set (s1 := ks_sched k1) in *. clearbody s1.
  pose proof Ht as Ht1. assert (info s1 !! c = Some (set_state TASK_STATE_SLEEPING t)) as (t1 & Ht1' & Heq)%info_Some.
  { rewrite Hi1, lookup_alter_eq. unfold s. by rewrite Ht. }
  assert (t_state t1 = TASK_STATE_SLEEPING) as Hst1 by (change (t_state (unlinked t1) = TASK_STATE_SLEEPING); by rewrite <- Heq).
  unfold lift. cbn [ks_sched set_sched]. rewrite (yield_start regs s1 c t1);
    [|by rewrite (rest_IF _ _ Hr1)|unfold curr_thread; by rewrite (rest_cpu _ _ Hr1)|done].
  destruct (returns_inv _ _ (task_upd_spec c (set_context regs) s1 _ t1 (set_context_links _) (so_queues _ _ Hok1) Ht1'))
    as (s2 & -> & Hq2 & Hi2 & Hr2 & Ht2). cbn [mbind outcome_bind].
  rewrite (get_task_ret _ _ _ Ht2). cbn [mbind outcome_bind]. rewrite decide_True by done. cbn [mbind outcome_bind].
  eapply (switched_rest _ _ _ s2); [|by rewrite (rest_cpu _ _ Hr2), (rest_cpu _ _ Hr1)|by rewrite (rest_heap _ _ Hr2), (rest_heap _ _ Hr1)].
  rewrite <- Hi1, <- Hi2.
  assert (c_idle_thread (s_cpu s1) <> Ref c) as Hne1 by (by rewrite (rest_cpu _ _ Hr1)).
  refine (switch_lifted k s2 _ _ _ _ _).
  - by eapply sched_ok_context.
  - by rewrite (rest_IF _ _ Hr2), (rest_IF _ _ Hr1).
  - eapply (standby_alter s1 s2); [|left; by rewrite (rest_cpu _ _ Hr2)|exact Hi2|done].
    eapply (standby_alter s s1); [by apply Hid|left; by rewrite (rest_cpu _ _ Hr1)|exact Hi1|done].
  - by rewrite (rest_big _ _ Hr2), (rest_big _ _ Hr1).
Qed.

End SchedProof.
