(* ===== verification/SchedTheorems.v ===== *)
(** * Theorems about the scheduler

    One core, any sequence of timer interrupts, blocking, waking and
    suspending: the invariant holds throughout and no operation panics; a
    task's state says where it is; tasks of the most urgent priority take
    turns. *)

From stdpp Require Import gmap functions.
From S2P Require Import Prelude Locking Mem FrameHdr FrameAlloc PageIface Slab RunQueue RunQueueSpec Sched SchedSpec Kevent SchedTasks SchedProof.

Module SchedTheorems.
Import Locking Mem FrameHdr FrameAlloc PageIface Slab RunQueue RunQueueSpec Sched SchedSpec Kevent SchedTasks SchedProof.

(** ** A task's state says where it is *)

(** [placed I idle Q r]: with tasks [I], ready ones are in the run queue of
    their priority unless they are the idle thread, sleeping ones in the sleep
    queue, and only [r] runs. *)
Definition placed (I : store) (idle : word) (Q : qname -> list Z) (r : option Z) : Prop :=
  forall a t, I !! a = Some t ->
    match t_state t with
    | TASK_STATE_READY => (prio_ok t /\ a ∈ Q (QPrio (t_prio t))) \/ idle = Ref a
    | TASK_STATE_SLEEPING => a ∈ Q QSleep
    | TASK_STATE_RUNNING => r = Some a
    | _ => True
    end.

(** Only [a] has changed. *)
Lemma placed_move I I' idle Q Q' r r' a :
  placed I idle Q r -> (forall x, x <> a -> I' !! x = I !! x) ->
  (forall x n, x <> a -> x ∈ Q n -> x ∈ Q' n) -> (forall x, x <> a -> r = Some x -> r' = Some x) ->
  (forall t, I' !! a = Some t ->
    match t_state t with
    | TASK_STATE_READY => (prio_ok t /\ a ∈ Q' (QPrio (t_prio t))) \/ idle = Ref a
    | TASK_STATE_SLEEPING => a ∈ Q' QSleep
    | TASK_STATE_RUNNING => r' = Some a
    | _ => True
    end) -> placed I' idle Q' r'.
Proof.
  intros Hp Hi Hq Hr Ha x t. destruct (decide (x = a)) as [->|Hne]; [apply Ha|]. rewrite (Hi x Hne). intros Ht.
  specialize (Hp x t Ht). destruct (t_state t); try done; [by apply Hr| |by apply Hq].
  destruct Hp as [[? ?]|?]; [left; split; [done|by apply Hq]|by right].
Qed.

Lemma elem_insert_app (Q : qname -> list Z) (n m : qname) (l : list Z) x : (x ∈ Q n -> x ∈ l) -> x ∈ Q m -> x ∈ (<[n := l]> Q : qname -> list Z) m.
Proof.
  intros Hl Hx. destruct (decide (m = n)) as [->|Hne]; [rewrite fn_lookup_insert; auto|by rewrite fn_lookup_insert_ne].
Qed.

Lemma placed_switch I s Q a :
  placed I (c_idle_thread (s_cpu s)) Q None -> next_of s Q = Ref a ->
  placed (alter (set_state TASK_STATE_RUNNING) a I) (c_idle_thread (s_cpu s)) (after Q) (Some a).
Proof.
  intros Hp Hn. eapply (placed_move _ _ _ _ _ _ _ a); [exact Hp| | |done|].
  - intros x Hx. by rewrite lookup_alter_ne.
  - intros x n Hx Hin. unfold after, next_of in *. destruct (pick Q) as [[i b]|] eqn:Hpk; [|done]. injection Hn as ->.
    apply pick_valid in Hpk as (_ & HQ). apply elem_insert_app; [|done]. rewrite HQ, elem_of_cons. by intros [->|?].
  - intros t. rewrite lookup_alter_eq. destruct (I !! a); [|done]. simpl. intros [= <-]. done.
Qed.

Lemma placed_preempt regs s Q c t :
  placed (info s) (c_idle_thread (s_cpu s)) Q (Some c) -> info s !! c = Some t -> prio_ok t ->
  placed (preempted regs s c (info s)) (c_idle_thread (s_cpu s)) (requeue s c t Q) None.
Proof.
  intros Hp Ht Hpo. unfold preempted, requeue. destruct (decide _) as [Hid|Hid]; (eapply (placed_move _ _ _ _ _ _ _ c); [exact Hp| | |congruence|]).
  - intros x Hx. by rewrite lookup_alter_ne.
  - done.
  - intros t'. rewrite lookup_alter_eq, Ht. simpl. intros [= <-]. by right.
  - intros x Hx. by rewrite !lookup_alter_ne.
  - intros x n Hx. apply elem_insert_app. rewrite elem_of_app. auto.
  - intros t'. rewrite !lookup_alter_eq, Ht. simpl. intros [= <-]. simpl. left. split; [done|]. rewrite fn_lookup_insert, elem_of_app, list_elem_of_singleton. by right.
Qed.

Lemma placed_block regs s Q c idle :
  placed (info s) idle Q (Some c) ->
  placed (alter (set_context regs) c (alter (set_state TASK_STATE_SLEEPING) c (info s))) idle (<[QSleep := Q QSleep ++ [c]]> Q) None.
Proof.
  intros Hp. eapply (placed_move _ _ _ _ _ _ _ c); [exact Hp| | |congruence|].
  - intros x Hx. by rewrite !lookup_alter_ne.
  - intros x n Hx. apply elem_insert_app. rewrite elem_of_app. auto.
  - intros t'. rewrite !lookup_alter_eq. destruct (info s !! c); [|done]. simpl. intros [= <-]. simpl.
    rewrite fn_lookup_insert, elem_of_app, list_elem_of_singleton. by right.
Qed.

Lemma placed_wake s Q r idle a t l1 l2 :
  placed (info s) idle Q r -> info s !! a = Some t -> t_state t = TASK_STATE_SLEEPING -> prio_ok t -> Q QSleep = l1 ++ a :: l2 ->
  placed (alter (set_state TASK_STATE_READY) a (info s)) idle
    (<[QPrio (t_prio t) := a :: Q (QPrio (t_prio t))]> (<[QSleep := l1 ++ l2]> Q)) r.
Proof.
  intros Hp Ht Hst Hpo HQ. eapply (placed_move _ _ _ _ _ _ _ a); [exact Hp| | |done|].
  - intros x Hx. by rewrite lookup_alter_ne.
  - intros x n Hx Hin. apply elem_insert_app; [rewrite fn_lookup_insert_ne, elem_of_cons by done; auto|].
    apply elem_insert_app; [|done]. rewrite HQ, !elem_of_app, elem_of_cons. naive_solver.
  - intros t'. rewrite lookup_alter_eq, Ht. simpl. intros [= <-]. simpl. left. split; [done|]. rewrite fn_lookup_insert. left.
Qed.

Lemma placed_suspend s Q r idle a t l1 l2 :
  placed (info s) idle Q r -> info s !! a = Some t -> Q (QPrio (t_prio t)) = l1 ++ a :: l2 -> r <> Some a ->
  placed (alter (set_state TASK_STATE_SLEEPING) a (info s)) idle
    (<[QSleep := Q QSleep ++ [a]]> (<[QPrio (t_prio t) := l1 ++ l2]> Q)) r.
Proof.
  intros Hp Ht HQ Hr. eapply (placed_move _ _ _ _ _ _ _ a); [exact Hp| | |done|].
  - intros x Hx. by rewrite lookup_alter_ne.
  - intros x n Hx Hin. apply elem_insert_app; [rewrite fn_lookup_insert_ne, elem_of_app by done; auto|].
    apply elem_insert_app; [|done]. rewrite HQ, !elem_of_app, elem_of_cons. naive_solver.
  - intros t'. rewrite lookup_alter_eq, Ht. simpl. intros [= <-]. simpl. rewrite fn_lookup_insert, elem_of_app, list_elem_of_singleton. by right.
Qed.

(** ** Any sequence of events on one core *)

Record good (k : kstate) (Q : qname -> list Z) (c : Z) : Prop := {
  g_running : running (ks_sched k) Q c;
  g_placed : placed (info (ks_sched k)) (c_idle_thread (s_cpu (ks_sched k))) Q (Some c)
}.

Lemma queues_IF s Q b : queues s Q -> queues (set_s_IF b s) Q.
Proof. intros [Hr Hd]. split; [|done]. intros n Hn. destruct (Hr n Hn) as (q & Hg & ?). exists q. split; [by destruct n|done]. Qed.

Lemma good_IF k Q c b : good k Q c -> good (set_ks_IF b k) Q c.
Proof. intros [[[Hq Hr Hi] ? ? ? ? ?] Hp]. split; [split; try done|done]. split; [by apply queues_IF|done|done]. Qed.

(** Only the scheduler's part matters. *)
Lemma good_sched k k' Q c : ks_sched k' = ks_sched k -> good k Q c -> good k' Q c.
Proof. intros Hs [Hr Hp]. split; by rewrite Hs. Qed.

Section Events.
Context {PA : PageAllocator} (reap_event : Z).

(** A timer interrupt, with interrupts off in its handler. *)
Definition tick (regs : jmpbuf) (k : kstate) : outcome kstate := scheduler_preempt reap_event regs (set_ks_IF false k).

(** The current thread goes to sleep, as at the end of [kevents_poll]. *)
Definition block (regs : jmpbuf) (k : kstate) : outcome kstate :=
  let k := set_ks_IF false k in
  lift (scheduler_put_task2sleep (curr_thread (ks_sched k))) k ≫= lift (scheduler_yield regs).

Definition suspend (a : Z) (k : kstate) : outcome kstate := lift (scheduler_put_task2sleep (Ref a)) (set_ks_IF false k).

Inductive event : kstate -> kstate -> Prop :=
  | event_irq b k : event k (set_ks_IF b k)
  | event_tick regs k k' : tick regs k = Ret k' -> event k k'
  | event_block regs k k' :
      curr_thread (ks_sched k) <> c_idle_thread (s_cpu (ks_sched k)) -> block regs k = Ret k' -> event k k'
  | event_wake a k k' :
      is_Some (info (ks_sched k) !! a) -> lift (scheduler_attempt_wake (Ref a)) k = Ret k' -> event k k'
  | event_suspend a t k k' :
      info (ks_sched k) !! a = Some t -> t_state t = TASK_STATE_READY -> c_idle_thread (s_cpu (ks_sched k)) <> Ref a ->
      suspend a k = Ret k' -> event k k'.

Lemma switched_good k s I Q k' :
  switched k s I Q k' -> placed I (c_idle_thread (s_cpu s)) Q None -> exists a, next_of s Q = Ref a /\ good k' (after Q) a.
Proof.
  intros (a & Hn & Hrun & Hi & Hid & _ & _) Hp. exists a. split; [done|]. split; [done|]. rewrite Hi, Hid. by apply placed_switch.
Qed.

Lemma tick_good regs k Q c t :
  good k Q c -> info (ks_sched k) !! c = Some t ->
  returns (tick regs k) (fun k' => exists a, let Q1 := requeue (ks_sched k) c t Q in
    next_of (ks_sched k) Q1 = Ref a /\ good k' (after Q1) a /\
    info (ks_sched k') = alter (set_state TASK_STATE_RUNNING) a (preempted regs (ks_sched k) c (info (ks_sched k))) /\
    c_idle_thread (s_cpu (ks_sched k')) = c_idle_thread (s_cpu (ks_sched k))).
Proof.
  intros Hg Ht. pose proof (good_IF _ _ _ false Hg) as [Hru Hp]. unfold tick.
  eapply returns_mono; [exact (preempt_spec reap_event regs _ Q c t Hru eq_refl Ht)|].
  intros k' Hsw. pose proof Hsw as (a & Hn & _ & Hi & Hid & _). exists a. split; [done|].
  destruct (ru_task _ _ _ Hru) as (t' & Ht' & _ & Hpo). rewrite <- (inj Some _ _ (eq_trans (eq_sym Ht) Ht')) in Hpo.
  destruct (switched_good _ _ _ _ _ Hsw) as (a' & Hn' & Hg'); [by apply placed_preempt|].
  rewrite Hn in Hn'. injection Hn' as <-. done.
Qed.

Lemma block_good regs k Q c :
  good k Q c -> c_idle_thread (s_cpu (ks_sched k)) <> Ref c ->
  returns (block regs k) (fun k' => exists Q' c', good k' Q' c').
Proof.
  intros Hg Hne. pose proof (good_IF _ _ _ false Hg) as [Hru Hp]. unfold block. rewrite (ru_curr _ _ _ Hru).
  destruct (ru_task _ _ _ Hru) as (t & Ht & _).
  eapply returns_mono; [exact (block_spec regs _ Q c t Hru eq_refl Ht Hne)|]. intros k' Hsw.
  destruct (switched_good _ _ _ _ _ Hsw) as (a & _ & Hg'); [by apply placed_block|]. by eexists _, _.
Qed.

(** Waking and suspending do not touch the running task. *)
Lemma running_keep s s' Q Q' c f a :
  running s Q c -> sched_ok s' Q' -> info s' = alter f a (info s) -> rest s' = rest s -> a <> c ->
  c_idle_thread (s_cpu s) <> Ref a ->
  (forall n x, x ∈ Q' n -> x = a \/ x ∈ Q n) -> running s' Q' c.
Proof.
  intros [Hok Hc Hl (tc & Htc & Hst & Hp) Hid Hu] Hok' Hi Hr Hne Hida Hsub. pose proof (rest_cpu _ _ Hr) as Hcpu. split.
  - done.
  - unfold curr_thread. by rewrite Hcpu.
  - intros n Hn Hx. destruct (Hsub n c Hx) as [->|]; [done|]. by apply (Hl n Hn).
  - exists tc. by rewrite Hi, lookup_alter_ne.
  - rewrite Hcpu. intros Hidc. eapply (standby_alter s); [by apply Hid|by left|exact Hi|done].
  - by rewrite (rest_big _ _ Hr).
Qed.

Lemma elem_insert_inv (Q : qname -> list Z) (n m : qname) (l : list Z) x : x ∈ (<[n := l]> Q : qname -> list Z) m -> (m = n /\ x ∈ l) \/ x ∈ Q m.
Proof.
  destruct (decide (m = n)) as [->|Hne]; [rewrite fn_lookup_insert; by left|rewrite fn_lookup_insert_ne by done; by right].
Qed.

Lemma role_prio s Q n a t : sched_ok s Q -> valid n -> a ∈ Q n -> info s !! a = Some t -> prio_ok t.
Proof. intros Hok Hn Ha Ht. destruct (so_roles _ _ Hok n a Hn Ha) as (t' & Ht' & _ & ?). rewrite Ht in Ht'. by apply (inj Some) in Ht' as <-. Qed.

(** The tasks after an attempt to wake [a]. *)
Definition woken (I : store) (a : Z) : store :=
  match I !! a with
  | Some t => if decide (t_state t = TASK_STATE_SLEEPING) then alter (set_state TASK_STATE_READY) a I else I
  | None => I
  end.

Lemma wake_good a k Q c t :
  good k Q c -> info (ks_sched k) !! a = Some t ->
  returns (lift (scheduler_attempt_wake (Ref a)) k) (fun k' => (exists Q', good k' Q' c) /\
    info (ks_sched k') = woken (info (ks_sched k)) a /\ rest (ks_sched k') = rest (ks_sched k) /\ k' = set_sched (ks_sched k') k).
Proof.
  intros [Hru Hp] Ht. unfold woken. rewrite Ht. pose proof Ht as (t0 & Ht0 & ->)%info_Some. destruct (decide (t_state t0 = TASK_STATE_SLEEPING)) as [Hst|Hst].
  - pose proof (Hp a _ Ht) as Hin. simpl in Hin. rewrite Hst in Hin. apply list_elem_of_split in Hin as (l1 & l2 & HQ).
    eapply returns_mono; [exact (lift_returns _ _ _ (attempt_wake_sleeping _ Q l1 a l2 _ (ru_ok _ _ _ Hru) HQ Ht Hst))|].
    intros k' ((Hok' & Hi & Hr) & Hk). rewrite decide_True by done. split; [|split; [done|split; [exact Hr|done]]].
    assert (a ∈ Q QSleep) as Hin by (rewrite HQ, elem_of_app, elem_of_cons; auto). eexists. split.
    +
      eapply (running_keep _ _ _ _ _ _ a); try done.
      * intros ->. by apply (ru_loose _ _ _ Hru QSleep I).
      * destruct (so_idle _ _ (ru_ok _ _ _ Hru)) as (b & -> & Hb & _). intros [= ->]. by apply (Hb QSleep I).
      * intros n x [[-> [->|Hx]%elem_of_cons]|[[-> Hx]|Hx]%elem_insert_inv]%elem_insert_inv; auto. right.
        rewrite HQ, elem_of_app, elem_of_cons. apply elem_of_app in Hx. naive_solver.
    + rewrite Hi, (rest_cpu _ _ Hr). apply placed_wake; try done. by eapply (role_prio (ks_sched k) Q QSleep a (unlinked t0) (ru_ok _ _ _ Hru)).
  - rewrite (lift_ret _ _ _ (attempt_wake_other _ _ _ Ht0 Hst)). rewrite decide_False by done. destruct k. split; [by exists Q|done].
Qed.

Lemma suspend_good a k Q c t :
  good k Q c -> info (ks_sched k) !! a = Some t -> t_state t = TASK_STATE_READY -> c_idle_thread (s_cpu (ks_sched k)) <> Ref a ->
  returns (suspend a k) (fun k' => exists Q', good k' Q' c).
Proof.
  intros Hg Ht Hst Hne. apply (good_IF _ _ _ false) in Hg as [Hru Hp]. unfold suspend. set (k0 := set_ks_IF false k) in *.
  assert (a <> c) as Hac.
  { intros ->. destruct (ru_task _ _ _ Hru) as (t' & Ht' & Hst' & _). change (info (ks_sched k0)) with (info (ks_sched k)) in Ht'. congruence. }
  pose proof (Hp a _ Ht) as Hin. rewrite Hst in Hin. destruct Hin as [[Hv Hin]|?]; [|done].
  pose proof Hin as (l1 & l2 & HQ)%list_elem_of_split.
  eapply returns_mono; [refine (lift_returns _ k0 _ (put_task2sleep_ready _ Q _ l1 a l2 t (ru_ok _ _ _ Hru) Hv _ HQ eq_refl Ht))|].
  { rewrite (ru_curr _ _ _ Hru). congruence. }
  intros k' ((Hok' & Hi & Hr) & _). eexists. split.
  - eapply (running_keep _ _ _ _ _ _ a); try done.
    intros n x [[-> Hx]|[[-> Hx]|Hx]%elem_insert_inv]%elem_insert_inv; auto.
    + rewrite elem_of_app, list_elem_of_singleton in Hx. naive_solver.
    + right. rewrite HQ, elem_of_app, elem_of_cons. apply elem_of_app in Hx. naive_solver.
  - rewrite Hi, (rest_cpu _ _ Hr). apply placed_suspend; try done. congruence.
Qed.

Lemma event_good k k' Q c : good k Q c -> event k k' -> exists Q' c', good k' Q' c'.
Proof.
  intros Hg. destruct 1 as [b k|regs k k' Hr|regs k k' Hne Hr|a k k' [t Ht] Hr|a t k k' Ht Hst Hne Hr].
  - exists Q, c. by apply good_IF.
  - destruct (ru_task _ _ _ (g_running _ _ _ Hg)) as (t & Ht & _). pose proof (tick_good regs k Q c t Hg Ht) as H.
    rewrite Hr in H. destruct H as (a & _ & Hg' & _). by eexists _, _.
  - rewrite (ru_curr _ _ _ (g_running _ _ _ Hg)) in Hne. pose proof (block_good regs k Q c Hg ltac:(congruence)) as H. by rewrite Hr in H.
  - pose proof (wake_good a k Q c t Hg Ht) as H. rewrite Hr in H. destruct H as ((Q' & H) & _). by eexists _, _.
  - pose proof (suspend_good a k Q c t Hg Ht Hst Hne) as H. rewrite Hr in H. destruct H as (Q' & H). by eexists _, _.
Qed.

Lemma events_good k k' Q c : good k Q c -> rtc event k k' -> exists Q' c', good k' Q' c'.
Proof.
  intros Hg Hr. revert Q c Hg. induction Hr as [k|k k1 k' He _ IH]; intros Q c Hg; [by eexists _, _|].
  destruct (event_good _ _ _ _ Hg He) as (Q1 & c1 & Hg1). by apply (IH Q1 c1).
Qed.

(** C20: whatever sequence of timer interrupts, blocking, waking and suspending
    a core has been through, every task is where its state says (ready: in
    the run queue of its priority, sleeping: in the sleep queue, running: the
    current one and in no queue), the queues are well linked and disjoint, and
    the next interrupt, block, wake-up or suspension returns without a panic,
    a fault or a deadlock. *)
Theorem sched_events_safe k0 k Q0 c0 :
  good k0 Q0 c0 -> rtc event k0 k -> exists Q c, good k Q c /\
    (forall regs, exists k', tick regs k = Ret k') /\
    (forall regs, c_idle_thread (s_cpu (ks_sched k)) <> Ref c -> exists k', block regs k = Ret k') /\
    (forall a, is_Some (info (ks_sched k) !! a) -> exists k', lift (scheduler_attempt_wake (Ref a)) k = Ret k') /\
    (forall a t, info (ks_sched k) !! a = Some t -> t_state t = TASK_STATE_READY -> c_idle_thread (s_cpu (ks_sched k)) <> Ref a ->
       exists k', suspend a k = Ret k').
Proof.
  intros Hg0 Hr. destruct (events_good _ _ _ _ Hg0 Hr) as (Q & c & Hg). exists Q, c. split; [done|]. split_and!.
  - intros regs. destruct (ru_task _ _ _ (g_running _ _ _ Hg)) as (t & Ht & _).
    destruct (returns_inv _ _ (tick_good regs k Q c t Hg Ht)) as (k' & ? & _). by exists k'.
  - intros regs Hne. destruct (returns_inv _ _ (block_good regs k Q c Hg Hne)) as (k' & ? & _). by exists k'.
  - intros a [t Ht]. destruct (returns_inv _ _ (wake_good a k Q c t Hg Ht)) as (k' & ? & _). by exists k'.
  - intros a t Ht Hst Hne. destruct (returns_inv _ _ (suspend_good a k Q c t Hg Ht Hst Hne)) as (k' & ? & _). by exists k'.
Qed.

(** ** Taking turns *)

(** One timer interrupt per element. *)
Fixpoint slices (rs : list jmpbuf) (k : kstate) : outcome kstate :=
  match rs with [] => Ret k | regs :: rs => k ← tick regs k; slices rs k end.

(** The core runs [c], the tasks [l] wait behind it at the same priority [p],
    and nothing more urgent is ready. *)
Record turn (k : kstate) (Q : qname -> list Z) (p c : Z) (l : list Z) : Prop := {
  tn_good : good k Q c;
  tn_prio : exists t, info (ks_sched k) !! c = Some t /\ t_prio t = p;
  tn_busy : c_idle_thread (s_cpu (ks_sched k)) <> Ref c;
  tn_top : forall i, 0 <= i < p -> Q (QPrio i) = [];
  tn_rest : Q (QPrio p) = l
}.

Lemma pick_top (Q : qname -> list Z) p a l :
  valid (QPrio p) -> (forall i, 0 <= i < p -> Q (QPrio i) = []) -> Q (QPrio p) = a :: l -> pick Q = Some (p, a).
Proof.
  intros Hv Ht HQ. destruct (pick Q) as [[j b]|] eqn:Hp.
  - apply pick_from_Some in Hp as (Hj & Hb & Hlt). destruct (Z.lt_trichotomy j p) as [Hlt'|[->|Hgt]].
    + rewrite Ht in Hb by lia. done.
    + rewrite HQ in Hb. by injection Hb as ->.
    + rewrite Hlt in HQ by (simpl in Hv; lia). done.
  - rewrite (pick_from_None _ _ _ p Hp) in HQ; [done|]. unfold valid, TASK_PRIORITY_MAX_PRIORITIES in *. lia.
Qed.

Lemma tick_turn regs k Q p c l x m :
  turn k Q p c l -> l ++ [c] = x :: m -> returns (tick regs k) (fun k' => exists Q', turn k' Q' p x m).
Proof.
  intros [Hg (t & Ht & <-) Hid Htop HQ] Hxm. pose proof (g_running _ _ _ Hg) as Hru.
  destruct (ru_task _ _ _ Hru) as (t' & Ht' & _ & Hpo). rewrite <- (inj Some _ _ (eq_trans (eq_sym Ht) Ht')) in Hpo.
  eapply returns_mono; [exact (tick_good regs k Q c t Hg Ht)|]. intros k' (a & Hn & Hg' & Hi & Hidle).
  unfold requeue in *. rewrite decide_False in * by done. set (Q1 := <[QPrio (t_prio t) := Q (QPrio (t_prio t)) ++ [c]]> Q) in *.
  assert (Q1 (QPrio (t_prio t)) = x :: m) as HQ1 by (unfold Q1; by rewrite fn_lookup_insert, HQ).
  assert (forall i, 0 <= i < t_prio t -> Q1 (QPrio i) = []) as Htop1.
  { intros i Hir. unfold Q1. rewrite fn_lookup_insert_ne; [by apply Htop|]. intros [= Heq]. lia. }
  pose proof (pick_top Q1 (t_prio t) x m Hpo Htop1 HQ1) as Hpk. unfold next_of in Hn. rewrite Hpk in Hn. injection Hn as <-.
  exists (after Q1). unfold after in *. rewrite Hpk in *. split.
  - done.
  - destruct (decide (x = c)) as [->|Hne].
    + exists (set_state TASK_STATE_RUNNING (set_context regs (set_state TASK_STATE_READY t))). rewrite Hi. unfold preempted.
      rewrite decide_False by done. by rewrite !lookup_alter_eq, Ht.
    + assert (x ∈ Q (QPrio (t_prio t))) as Hx.
      { assert (x ∈ l ++ [c]) as Hx by (rewrite Hxm; left). rewrite elem_of_app, list_elem_of_singleton in Hx. rewrite HQ. naive_solver. }
      destruct (so_roles _ _ (ru_ok _ _ _ Hru) (QPrio (t_prio t)) x Hpo Hx) as (tx & Htx & [_ Hpx] & _).
      exists (set_state TASK_STATE_RUNNING tx). rewrite Hi. unfold preempted. rewrite decide_False by done.
      by rewrite lookup_alter_eq, !lookup_alter_ne, Htx by done.
  - rewrite Hidle. intros Heq. destruct (so_idle _ _ (ru_ok _ _ _ Hru)) as (b & Hb & Hlb & _). rewrite Heq in Hb. injection Hb as <-.
    apply (Hlb _ Hpo). assert (x ∈ l ++ [c]) as Hx by (rewrite Hxm; left). rewrite elem_of_app, list_elem_of_singleton in Hx.
    rewrite HQ. destruct Hx as [?| ->]; [done|]. by rewrite Heq in Hid.
  - intros i Hir. unfold drop_first. rewrite fn_lookup_insert_ne; [by apply Htop1|]. intros [= Heq]. lia.
  - unfold drop_first. by rewrite fn_lookup_insert, HQ1.
Qed.

Lemma slices_turn rs : forall k Q p c l a,
  turn k Q p c l -> (c :: l ++ [c]) !! length rs = Some a -> returns (slices rs k) (fun k' => curr_thread (ks_sched k') = Ref a).
Proof.
  induction rs as [|regs rs IH]; intros k Q p c l a Htn Ha; cbn [slices length] in *.
  - injection Ha as <-. apply (ru_curr _ _ _ (g_running _ _ _ (tn_good _ _ _ _ _ Htn))).
  - destruct (l ++ [c]) as [|x m] eqn:Hxm; [by destruct l|]. mcall (tick_turn regs k Q p c l x m Htn Hxm).
    intros k' (Q' & Htn'). apply (IH k' Q' p x m a Htn'). change ((x :: m) !! length rs = Some a) in Ha.
    change (((x :: m) ++ [x]) !! length rs = Some a). by apply lookup_app_l_Some.
Qed.

(** C21: round robin.  When [c] runs, [l] waits in its priority's queue and
    nothing more urgent is ready, then after [n] time slices the [n]-th task
    of [c :: l ++ [c]] runs: every waiting task gets the core within as many
    slices as there are tasks before it, and [c] has it again after all. *)
Theorem round_robin_live k Q p c l rs a :
  turn k Q p c l -> (c :: l ++ [c]) !! length rs = Some a ->
  returns (slices rs k) (fun k' => curr_thread (ks_sched k') = Ref a).
Proof. apply slices_turn. Qed.

End Events.

(** ** Yielding *)

(** A task that is not ready at the front of the first non-empty queue. *)
Lemma find_stuck n : forall i s (Q : qname -> list Z) p c t,
  queues s Q -> 0 <= i <= p -> p < i + Z.of_nat n -> i + Z.of_nat n = TASK_PRIORITY_MAX_PRIORITIES ->
  (forall m, i <= m < p -> Q (QPrio m) = []) -> (exists l, Q (QPrio p) = c :: l) -> info s !! c = Some t -> t_state t <> TASK_STATE_READY ->
  exists msg, find_loop n i s = Panic msg.
Proof.
  induction n as [|n IH]; intros i s Q p c t Hq Hi Hp Hn Htop [l HQ] Ht Hst; [lia|]. cbn [find_loop].
  assert (valid (QPrio i)) as Hv by (simpl; lia).
  destruct (returns_inv _ _ (q_pop_front_spec s Q (QPrio i) Hq Hv)) as ([w s1] & -> & -> & Hq1 & [Hi1 _] & _). cbn [mbind outcome_bind].
  destruct (decide (i = p)) as [->|Hne].
  - rewrite HQ. cbn [first nonnull negb]. rewrite <- Hi1 in Ht. apply info_Some in Ht as (t1 & Ht1 & ->).
    rewrite (get_task_ret _ _ _ Ht1). cbn [mbind outcome_bind]. rewrite decide_False by done. by eexists.
  - rewrite (Htop i) in * by lia. cbn [first nonnull negb Z.eqb]. eapply (IH (i + 1) s1 _ p c t Hq1); [lia|lia|lia| | |by rewrite Hi1|done].
    + intros m Hm. rewrite fn_lookup_insert_ne; [apply Htop; lia|]. intros [= ?]. lia.
    + exists l. rewrite fn_lookup_insert_ne; [done|]. intros [= ?]. lia.
Qed.

(** [scheduler_yield] of a thread that has not been put to sleep: it goes
    into the run queue still marked running, so with nothing else ready at its
    priority or above the search for the next task panics over it. *)
Theorem yield_running_panics regs s Q c t :
  running s Q c -> info s !! c = Some t -> (forall i, 0 <= i <= t_prio t -> Q (QPrio i) = []) ->
  exists msg, scheduler_yield regs s = Panic msg.
Proof.
  intros [Hok Hc Hl (t' & Ht' & Hst & Hp) _ _] Ht Htop. rewrite Ht in Ht'. apply (inj Some) in Ht' as <-.
  change (scheduler_yield regs s) with (scheduler_yield regs (set_s_IF false s)). pose proof Ht as (t0 & Ht0 & ->)%info_Some.
  rewrite (yield_start regs (set_s_IF false s) c t0 eq_refl Hc Ht0).
  destruct (returns_inv _ _ (task_upd_spec c (set_context regs) (set_s_IF false s) Q t0 (set_context_links _) (queues_IF _ _ _ (so_queues _ _ Hok)) Ht0))
    as (s2 & -> & Hq2 & Hi2 & Hr2 & Ht2). cbn [mbind outcome_bind]. rewrite (get_task_ret _ _ _ Ht2). cbn [mbind outcome_bind].
  rewrite decide_False by (simpl; simpl in Hst; congruence). destruct (_ || _); [by eexists|].
  destruct (returns_inv _ _ (q_insert_back_spec s2 Q (QPrio (t_prio t0)) Hq2 Hp c Hl ltac:(by eexists))) as (s3 & Heq & Hq3 & Hi3 & Hr3).
  change (t_prio (set_context regs t0)) with (t_prio t0). rewrite Heq. cbn [mbind outcome_bind].
  assert (s_IF s3 = false) as HIF by (by rewrite (rest_IF _ _ Hr3), (rest_IF _ _ Hr2)).
  unfold switch_to_next_task, get_this_cpu. rewrite HIF. cbn [preempt_fetch mbind outcome_bind]. unfold find_task_to_run.
  destruct (find_stuck (Z.to_nat TASK_PRIORITY_MAX_PRIORITIES) 0 s3 _ (t_prio t0) c (set_context regs (unlinked t0)) Hq3) as (msg & ->).
  - unfold prio_ok, valid in Hp. simpl in Hp. lia.
  - unfold prio_ok, valid in Hp. simpl in Hp. unfold TASK_PRIORITY_MAX_PRIORITIES in *. lia.
  - done.
  - intros m Hm. rewrite fn_lookup_insert_ne; [apply Htop; simpl; lia|]. intros [= ?]. lia.
  - exists []. rewrite fn_lookup_insert. rewrite (Htop (t_prio t0)); [done|]. unfold prio_ok, valid in Hp. simpl in *. lia.
  - rewrite Hi3, Hi2, lookup_alter_eq. change (info (set_s_IF false s)) with (info s). by rewrite Ht.
  - simpl in *. congruence.
  - by eexists.
Qed.

(** ** A core with five tasks

    Task 1 is the idle thread, 2 runs at normal priority, 3 and 4 wait behind
    it, 5 sleeps. *)
Module Sample.

Definition tsk (state : task_state) (prio : Z) (next prev : word) : task :=
  mk_task 0 0 NULL NULL NULL NULL NULL (mk_vec 0 0 0) 0 0 0 0 zero_jmpbuf 0 0 state prio next prev.
Definition tasks : store :=
  <[1 := tsk TASK_STATE_READY 4 NULL NULL]> (<[2 := tsk TASK_STATE_RUNNING 2 NULL NULL]>
  (<[3 := tsk TASK_STATE_READY 2 (Ref 4) NULL]> (<[4 := tsk TASK_STATE_READY 2 NULL (Ref 3)]>
  (<[5 := tsk TASK_STATE_SLEEPING 1 NULL NULL]> ∅)))).
Definition free_lock : k_spinlock_t := mk_spinlock 0 false.
Definition rq0 : runqueue := mk_rq 0 NULL NULL free_lock.
Definition sched0 : sched :=
  mk_sched tasks [rq0; rq0; mk_rq 2 (Ref 3) (Ref 4) free_lock; rq0; rq0] (mk_rq 1 (Ref 5) (Ref 5) free_lock) rq0 free_lock NULL 5
    (mk_cpu 0 (Ref 1) (Ref 2) 0 0) 0 (bss_heap (bss_mm false) ∅ 0).
Definition k0 : kstate := mk_kstate sched0 ∅ NULL ∅.
Definition Q0 (n : qname) : list Z := match n with QPrio 2 => [3; 4] | QSleep => [5] | _ => [] end.

Lemma rep_empty ts : rq_rep rq0 ts [].
Proof. by split; [constructor|..]. Qed.

Lemma Q0_elem n x : x ∈ Q0 n -> (n = QPrio 2 /\ (x = 3 \/ x = 4)) \/ (n = QSleep /\ x = 5).
Proof.
  destruct n as [i| |]; simpl; [|set_solver..]. destruct (decide (i = 2)) as [->|Hi]; [set_solver|].
  assert (match i with 2 => [3; 4] | _ => [] end = []) as -> by (destruct i as [|[[]|[]|]|]; done). set_solver.
Qed.

Lemma queues0 : queues sched0 Q0.
Proof.
  split.
  - intros [i| |] Hi.
    + unfold valid, TASK_PRIORITY_MAX_PRIORITIES in Hi.
      assert (i = 0 \/ i = 1 \/ i = 2 \/ i = 3 \/ i = 4) as [->|[->|[->|[->| ->]]]] by lia;
        (eexists; split; [vm_compute; reflexivity|try apply rep_empty]).
      split; [by apply (bool_decide_unpack _); vm_compute| |done|done|done|done].
      eexists; split; [vm_compute; reflexivity|]. do 2 (split; [done|]). eexists; split; [vm_compute; reflexivity|done].
    + eexists; split; [reflexivity|]. split; [by apply (bool_decide_unpack _); vm_compute| |done|done|done|done].
      eexists; split; [vm_compute; reflexivity|done].
    + eexists; split; [reflexivity|apply rep_empty].
  - intros n n' x _ _ Hx%Q0_elem Hx'%Q0_elem. destruct Hx as [[-> ?]|[-> ?]], Hx' as [[-> ?]|[-> ?]]; (done || lia).
Qed.

Lemma good0 : good k0 Q0 2.
Proof.
  assert (forall a, a = 1 \/ a = 2 -> loose Q0 a) as Hloose.
  { intros a Ha n _ Hx%Q0_elem. lia. }
  split; [split|].
  - split; [exact queues0| |].
    + intros n x _ Hx%Q0_elem. destruct Hx as [[-> [->| ->]]|[-> ->]];
        (eexists; split; [vm_compute; reflexivity|]; split; [vm_compute; auto|by apply (bool_decide_unpack _); vm_compute]).
    + exists 1. split; [done|]. split; [by apply Hloose; left|]. vm_compute. by eexists.
  - done.
  - apply Hloose. by right.
  - eexists; split; [vm_compute; reflexivity|]. split; [done|]. by apply (bool_decide_unpack _); vm_compute.
  - intros _. eexists 1, _. split; [done|]. split; [vm_compute; reflexivity|]. split; [done|]. by apply (bool_decide_unpack _); vm_compute.
  - done.
  - intros a t Ht. assert (a ∈ dom tasks) as Ha.
    { apply elem_of_dom. apply info_Some in Ht as (t' & Ht' & _). by eexists. }
    unfold tasks in Ha. rewrite !dom_insert, dom_empty in Ha. rewrite !elem_of_union, !elem_of_singleton in Ha.
    destruct Ha as [->|[->|[->|[->|[->|?]]]]]; [..|set_solver]; vm_compute in Ht; injection Ht as <-; simpl; try done.
    + by right.
    + left. split; [by apply (bool_decide_unpack _); vm_compute|]. left.
    + left. split; [by apply (bool_decide_unpack _); vm_compute|]. right. left.
    + left.
Qed.

Lemma turn0 : turn k0 Q0 2 2 [3; 4].
Proof.
  split; [exact good0|eexists; split; [vm_compute; reflexivity|done]|done| |done].
  intros i Hi. assert (i = 0 \/ i = 1) as [->| ->] by lia; done.
Qed.

(** The time slice of task 2 ends, task 3 goes to sleep, task 5 is woken and
    task 2 is suspended. *)
Definition state_of (o : outcome kstate) : kstate := match o with Ret k => k | _ => k0 end.
Definition k1 : kstate := state_of (tick 0 zero_jmpbuf k0).
Definition k2 : kstate := state_of (block zero_jmpbuf k1).
Definition k3 : kstate := state_of (lift (scheduler_attempt_wake (Ref 5)) k2).
Definition k4 : kstate := state_of (suspend 2 k3).

Lemma events_k4 : rtc (event 0) k0 k4.
Proof.
  apply (rtc_l _ _ k1); [apply (event_tick _ zero_jmpbuf); vm_compute; reflexivity|].
  apply (rtc_l _ _ k2); [apply (event_block _ zero_jmpbuf); [vm_compute; discriminate|vm_compute; reflexivity]|].
  apply (rtc_l _ _ k3); [apply (event_wake _ 5); [vm_compute; by eexists|vm_compute; reflexivity]|].
  apply rtc_once. eapply (event_suspend _ 2); [vm_compute; reflexivity|reflexivity|vm_compute; discriminate|vm_compute; reflexivity].
Qed.

Lemma sched_events_safe_witness : curr_thread (ks_sched k4) = Ref 4 /\ exists Q c, good k4 Q c /\ forall regs, exists k', tick 0 regs k4 = Ret k'.
Proof.
  split; [vm_compute; reflexivity|]. destruct (sched_events_safe 0 k0 k4 Q0 2 good0 events_k4) as (Q & c & Hg & Ht & _).
  exists Q, c. split; [exact Hg|exact Ht].
Defined.

(** Two interrupts on, task 4 runs. *)
Lemma round_robin_live_witness :
  returns (slices 0 [zero_jmpbuf; zero_jmpbuf] k0) (fun k' => curr_thread (ks_sched k') = Ref 4).
Proof. apply (round_robin_live 0 k0 Q0 2 2 [3; 4]); [exact turn0|done]. Defined.

(** Only task 2 and the idle thread. *)
Definition sched1 : sched :=
  mk_sched (<[1 := tsk TASK_STATE_READY 4 NULL NULL]> (<[2 := tsk TASK_STATE_RUNNING 2 NULL NULL]> ∅))
    [rq0; rq0; rq0; rq0; rq0] rq0 rq0 free_lock NULL 5 (mk_cpu 0 (Ref 1) (Ref 2) 0 0) 0 (bss_heap (bss_mm false) ∅ 0).

Lemma running1 : running sched1 (fun _ => []) 2.
Proof.
  assert (forall a, loose (fun _ => []) a) as Hloose by (intros a n _ Hx%elem_of_nil; done).
  split; [split| | | | |]; try done.
  - split; [|set_solver]. intros [i| |] Hi; (eexists; split; [|apply rep_empty]); try done.
    unfold valid, TASK_PRIORITY_MAX_PRIORITIES in Hi.
    assert (i = 0 \/ i = 1 \/ i = 2 \/ i = 3 \/ i = 4) as [->|[->|[->|[->| ->]]]] by lia; done.
  - intros n x _ Hx. by apply elem_of_nil in Hx.
  - exists 1. split; [done|]. split; [done|]. vm_compute. by eexists.
  - eexists; split; [vm_compute; reflexivity|]. split; [done|]. by apply (bool_decide_unpack _); vm_compute.
  - intros _. eexists 1, _. split; [done|]. split; [vm_compute; reflexivity|]. split; [done|]. by apply (bool_decide_unpack _); vm_compute.
Qed.

Lemma yield_running_panics_witness : exists msg, scheduler_yield zero_jmpbuf sched1 = Panic msg.
Proof. eapply (yield_running_panics zero_jmpbuf sched1 (fun _ => []) 2); [exact running1|vm_compute; reflexivity|done]. Defined.

End Sample.
End SchedTheorems.
