(* ===== verification/KeventSpec.v ===== *)
(** * What events promise

    [kev_abs k W n]: the threads [W ev] are subscribed to the event [ev], and
    the pool has [n] entries.  [pend k ev] is the number of launches of [ev]
    nobody has processed.  Subscribing, unsubscribing, finding a pending event
    and launching are functions on these. *)

From stdpp Require Import gmap functions.
From S2P Require Import Prelude Dll Locking Mem FrameHdr FrameAlloc PageIface Slab RunQueue RunQueueSpec Sched SchedSpec Kevent Vector Idt SchedTasks SchedProof SchedTheorems.

Module KeventSpec.
Import Locking Mem FrameHdr FrameAlloc PageIface Slab RunQueue Sched SchedSpec Kevent SchedTasks SchedProof SchedTheorems.

Abbreviation subs := (gmap Z kevent_subscriber_t).

(** The pool: entries linked through [next] alone. *)
Fixpoint chain (m : subs) (h : word) (l : list Z) : Prop :=
  match l with
  | [] => h = NULL
  | a :: l => h = Ref a /\ exists u, m !! a = Some u /\ chain m (su_next u) l
  end.

Definition thread (m : subs) (a : Z) : word := match m !! a with Some u => su_thread u | None => NULL end.

Record kev_rep (k : kstate) (E : Z -> list Z) (P : list Z) : Prop := {
  ke_pool : chain (ks_subs k) (ks_pool k) P;
  ke_nodup : NoDup P;
  ke_list : forall ev e, ks_events k !! ev = Some e -> Dll.dll (ks_subs k) (ev_subscribers e) (E ev);
  ke_disj : forall ev ev' x, is_Some (ks_events k !! ev) -> is_Some (ks_events k !! ev') -> x ∈ E ev -> x ∈ E ev' -> ev = ev';
  ke_apart : forall ev x, is_Some (ks_events k !! ev) -> x ∈ E ev -> x ∉ P
}.

Definition kev_abs (k : kstate) (W : Z -> list word) (n : nat) : Prop := exists E P,
  kev_rep k E P /\ (forall ev, is_Some (ks_events k !! ev) -> thread (ks_subs k) <$> E ev = W ev) /\ length P = n.

Definition pend (k : kstate) (ev : Z) : option Z := ev_unprocessed <$> ks_events k !! ev.

(** Interrupts are off and no event is locked. *)
Definition quiet (k : kstate) : Prop := ks_IF k = false /\ forall ev e, ks_events k !! ev = Some e -> unlocked (ev_lock e).

(** ** Events as records *)

Lemma nodes_ext m m' h l : (forall a, a ∈ l -> m' !! a = m !! a) -> chain m h l -> chain m' h l.
Proof.
  revert h. induction l as [|a l IH]; intros h He; simpl; [done|]. intros (-> & u & Hu & Hc). split; [done|]. exists u.
  rewrite He by left. split; [done|]. apply IH; [|done]. intros b Hb. apply He. by right.
Qed.

(** A store to an event that keeps its subscriber list. *)
Lemma kev_abs_event k W n ev e f :
  kev_abs k W n -> ks_events k !! ev = Some e -> ev_subscribers (f e) = ev_subscribers e ->
  kev_abs (set_events (<[ev := f e]> (ks_events k)) k) W n.
Proof.
  intros (E & P & [Hp Hn Hl Hd Ha] & Hw & Hlen) He Hf.
  assert (forall ev', is_Some (<[ev := f e]> (ks_events k) !! ev') <-> is_Some (ks_events k !! ev')) as Hdom.
  { intros ev'. destruct (decide (ev' = ev)) as [->|]; [rewrite lookup_insert_eq, He; split; by eexists|by rewrite lookup_insert_ne]. }
  exists E, P. split; [split|split; [|done]]; simpl; try done.
  - intros ev' e'. destruct (decide (ev' = ev)) as [->|Hne]; [rewrite lookup_insert_eq; intros [= <-]; rewrite Hf; by apply Hl|].
    rewrite lookup_insert_ne by done. apply Hl.
  - intros ev1 ev2 x. rewrite !Hdom. apply Hd.
  - intros ev' x. rewrite Hdom. apply Ha.
  - intros ev'. rewrite Hdom. apply Hw.
Qed.

Lemma kev_abs_sched k W n s : kev_abs k W n -> kev_abs (set_sched s k) W n.
Proof. intros (E & P & [] & ?). exists E, P. split; [by split|done]. Qed.

Lemma set_ks_IF_off k : ks_IF k = false -> set_ks_IF false k = k.
Proof. intros H. destruct k as [[? ? ? ? ? ? ? ? ? [[]]]]. unfold ks_IF, s_IF in H. simpl in H. by subst. Qed.

Definition hold : k_spinlock_t := mk_spinlock 1 false.
Definition unhold : k_spinlock_t := mk_spinlock 0 false.

Lemma lock_event_ret ev k e :
  quiet k -> ks_events k !! ev = Some e -> lock_event ev k = Ret (set_events (<[ev := set_ev_lock hold e]> (ks_events k)) k).
Proof.
  intros [HIF Hu] He. unfold lock_event, upd_event, get_event. rewrite He. cbn [of_option mbind outcome_bind].
  rewrite (Seq.spin_lock_global_ret _ _ (Hu _ _ He)), HIF. cbn [of_option mbind outcome_bind].
  by rewrite (set_ks_IF_off (set_events _ k) HIF).
Qed.

Lemma unlock_event_ret ev k e :
  ks_IF k = false -> ks_events k !! ev = Some e -> ev_lock e = hold ->
  unlock_event ev k = Ret (set_events (<[ev := set_ev_lock unhold e]> (ks_events k)) k).
Proof.
  intros HIF He Hl. unfold unlock_event, upd_event, get_event. rewrite He. cbn [of_option mbind outcome_bind].
  rewrite HIF, Hl. unfold hold. rewrite Seq.spin_unlock_global_ret. cbn [of_option mbind outcome_bind].
  by rewrite (set_ks_IF_off (set_events _ k) HIF).
Qed.

(** ** Subscribing *)

Lemma thread_relinked m m' a : Dll.relinked m m' -> thread m' a = thread m a.
Proof.
  intros Hr. unfold thread. apply (f_equal (fun m => m !! a)) in Hr. rewrite !lookup_fmap in Hr.
  destruct (m' !! a) as [u'|], (m !! a) as [u|]; try done. injection Hr. done.
Qed.

Lemma upd_sub_ret a f k u : ks_subs k !! a = Some u -> upd_sub (Ref a) f k = Ret (set_subs (<[a := f u]> (ks_subs k)) k).
Proof. intros Hu. unfold upd_sub. by rewrite Hu. Qed.

(** The list of one event and the pool have changed. *)
Lemma kev_abs_step k E P W ev e h l' w' P' m' p' :
  kev_rep k E P -> (forall ev, is_Some (ks_events k !! ev) -> thread (ks_subs k) <$> E ev = W ev) -> ks_events k !! ev = Some e ->
  chain m' p' P' -> NoDup P' -> Dll.dll m' h l' -> (forall x, x ∈ l' -> x ∉ P') ->
  (forall x, x ∈ l' \/ x ∈ P' -> x ∈ E ev \/ x ∈ P) -> (forall b, b ∉ E ev -> b ∉ P -> m' !! b = ks_subs k !! b) ->
  thread m' <$> l' = w' ->
  kev_abs (set_events (<[ev := set_subscribers h e]> (ks_events k)) (set_subs m' (set_pool p' k))) (<[ev := w']> W) (length P').
Proof.
  intros [Hp Hn Hl Hd Ha] Hw He Hc' Hn' Hl' Ha' Hsub Hout Hw'.
  assert (forall ev', is_Some (<[ev := set_subscribers h e]> (ks_events k) !! ev') -> is_Some (ks_events k !! ev')) as Hdom.
  { intros ev'. destruct (decide (ev' = ev)) as [->|]; [rewrite He; by eexists|by rewrite lookup_insert_ne]. }
  assert (forall ev' x, is_Some (ks_events k !! ev') -> ev' <> ev -> x ∈ E ev' -> x ∉ E ev /\ x ∉ P) as Hother.
  { intros ev' x Hev Hne Hx. split; [|by eapply Ha]. intros Hin. apply Hne. by eapply (Hd ev' ev x). }
  exists (<[ev := l']> E), P'. split; [split|split; [|done]]; cbn [ks_subs ks_pool ks_events set_events set_subs set_pool]; try done.
  - intros ev' e'. destruct (decide (ev' = ev)) as [->|Hne]; [rewrite lookup_insert_eq, fn_lookup_insert; by intros [= <-]|].
    rewrite lookup_insert_ne, fn_lookup_insert_ne by done. intros He'. eapply Dll.dll_frame; [by apply Hl|].
    intros b Hb. by apply Hout; eapply (Hother ev').
  - intros ev1 ev2 x H1%Hdom H2%Hdom. destruct (decide (ev1 = ev)) as [->|N1], (decide (ev2 = ev)) as [->|N2]; try done;
      rewrite ?fn_lookup_insert, ?fn_lookup_insert_ne by done; [| |by apply Hd].
    + intros Hx Hx'. destruct (Hother ev2 x H2 N2 Hx'). by destruct (Hsub x (or_introl Hx)).
    + intros Hx Hx'. destruct (Hother ev1 x H1 N1 Hx). by destruct (Hsub x (or_introl Hx')).
  - intros ev' x Hev%Hdom. destruct (decide (ev' = ev)) as [->|N]; rewrite ?fn_lookup_insert, ?fn_lookup_insert_ne by done; [by apply Ha'|].
    intros Hx Hin. destruct (Hother ev' x Hev N Hx). by destruct (Hsub x (or_intror Hin)).
  - intros ev' Hev%Hdom. destruct (decide (ev' = ev)) as [->|N]; rewrite ?fn_lookup_insert, ?fn_lookup_insert_ne by done; [done|].
    rewrite <- Hw by done. apply list_fmap_ext. intros i x Hx%list_elem_of_lookup_2. unfold thread.
    destruct (Hother ev' x Hev N Hx). by rewrite Hout.
Qed.

Lemma get_sub_ret a k u : ks_subs k !! a = Some u -> get_sub (Ref a) k = Ret u.
Proof. intros Hu. unfold get_sub. by rewrite Hu. Qed.

Section Lists.
Context {PA : PageAllocator}.

Lemma node_link_spec k W n ev e t :
  kev_abs k W (S n) -> ks_events k !! ev = Some e ->
  returns (_subscriber_list_link ev t k) (fun k' => kev_abs k' (<[ev := t :: W ev]> W) n /\ ks_sched k' = ks_sched k /\
    exists h, ks_events k' = <[ev := set_subscribers h e]> (ks_events k)).
Proof.
  intros (E & [|a P] & Hrep & Hw & Hlen) He; [done|]. injection Hlen as <-. pose proof Hrep as [Hp Hn Hl Hd Ha].
  destruct Hp as (Hpool & u & Hu & Hc). apply NoDup_cons in Hn as [HaP Hn].
  unfold _subscriber_list_link, _subscriber_pool_alloc. rewrite Hpool. cbn [nonnull negb mbind outcome_bind]. rewrite Hpool.
  unfold get_sub. rewrite Hu. cbn [of_option mbind outcome_bind]. rewrite (upd_sub_ret a _ _ u) by done. cbn [mbind outcome_bind].
  rewrite (upd_sub_ret a _ _ (set_event (Ref ev) u)) by apply lookup_insert_eq. cbn [mbind outcome_bind ks_subs ks_events set_subs set_pool].
  rewrite insert_insert_eq. unfold get_event. cbn [ks_events set_subs set_pool]. rewrite He. cbn [of_option mbind outcome_bind ks_subs set_subs].
  set (u' := set_thread t (set_event (Ref ev) u)). set (m := <[a := u']> (ks_subs k)).
  assert (a ∉ E ev) as HaE by (intros Hin; apply (Ha ev a); [by eexists|done|left]).
  assert (forall x, x <> a -> m !! x = ks_subs k !! x) as Hm by (intros x Hx; unfold m; by rewrite lookup_insert_ne).
  assert (Dll.dll m (ev_subscribers e) (E ev)) as Hdll.
  { eapply Dll.dll_frame; [by apply Hl|]. intros b Hb. apply Hm. by intros ->. }
  mcall (Dll.list_link_spec m (ev_subscribers e) (E ev) a Hdll HaE); [unfold m; rewrite lookup_insert_eq; by eexists|].
  intros [h m'] (-> & Hdll' & Hrel & Hout). cbn [returns]. unfold upd_event, get_event. cbn [ks_events set_subs set_pool].
  rewrite He. cbn [of_option mbind outcome_bind returns]. split; [|split; [done|by eexists]].
  apply (kev_abs_step k E (a :: P) W ev e (Ref a) (a :: E ev)); try done.
  - eapply nodes_ext; [|exact Hc]. intros b Hb. rewrite Hout; [apply Hm; by intros ->|].
    rewrite elem_of_cons. intros [->|Hin]; [done|]. apply (Ha ev b); [by eexists|done|by right].
  - intros x [->|Hx]%elem_of_cons; [done|]. intros Hin. apply (Ha ev x); [by eexists|done|by right].
  - intros x. rewrite !elem_of_cons. naive_solver.
  - intros b Hb1 Hb2. rewrite elem_of_cons in Hb2. rewrite Hout by (rewrite elem_of_cons; naive_solver). apply Hm. naive_solver.
  - cbn [fmap list_fmap]. rewrite (thread_relinked m m' a Hrel). rewrite <- (Hw ev) by (by eexists). f_equal.
    + unfold thread, m. by rewrite lookup_insert_eq.
    + apply list_fmap_ext. intros i x Hx%list_elem_of_lookup_2. rewrite (thread_relinked m m' x Hrel). unfold thread. rewrite Hm; [done|].
      by intros ->.
Qed.

(** ** Unsubscribing *)

Lemma find_sub_spec k t : forall l p h e fuel,
  Dll.dseg (ks_subs k) p h e l -> (length l < fuel)%nat ->
  forall l1 a l2, l = l1 ++ a :: l2 -> thread (ks_subs k) a = t -> t ∉ (thread (ks_subs k) <$> l1) -> find_sub fuel h t k = Ret (Ref a).
Proof.
  intros l p h e fuel. revert l p h. induction fuel as [|fuel IH]; intros l p h Hs Hf l1 a l2 -> Ha Hn; [lia|]. cbn [find_sub].
  destruct l1 as [|b l1]; simpl in Hs; destruct Hs as (-> & u & Hu & _ & Hs); cbn [nonnull]; unfold get_sub; rewrite Hu; cbn [of_option mbind outcome_bind].
  - unfold thread in Ha. rewrite Hu in Ha. by rewrite decide_True.
  - cbn [fmap list_fmap] in Hn. apply not_elem_of_cons in Hn as [Hb Hn]. unfold thread in Hb at 1. rewrite Hu in Hb.
    rewrite decide_False by congruence. eapply (IH (l1 ++ a :: l2)); try done. simpl in Hf. lia.
Qed.

Lemma dll_size (m : subs) h l : Dll.dll m h l -> (length l <= size m)%nat.
Proof.
  intros [Hs Hn]. rewrite <- size_dom. rewrite <- (size_list_to_set (C := gset Z) l Hn). apply subseteq_size.
  intros x Hx. apply elem_of_dom. rewrite elem_of_list_to_set in Hx. by eapply Dll.dseg_elem.
Qed.

Lemma unlink_spec k W n ev e t w1 w2 :
  kev_abs k W n -> ks_events k !! ev = Some e -> W ev = w1 ++ t :: w2 -> t ∉ w1 ->
  returns (_subscriber_list_unlink ev t k) (fun k' => kev_abs k' (<[ev := w1 ++ w2]> W) (S n) /\ ks_sched k' = ks_sched k /\
    exists h, ks_events k' = <[ev := set_subscribers h e]> (ks_events k)).
Proof.
  intros (E & P & Hrep & Hw & <-) He HW Ht. pose proof Hrep as [Hp Hn Hl Hd Ha]. pose proof (Hl ev e He) as Hdll.
  pose proof (Hw ev ltac:(by eexists)) as Hmap. rewrite HW in Hmap.
  apply fmap_app_inv in Hmap as (l1 & l' & Hw1 & Hw' & HE). destruct l' as [|a l2]; [done|]. injection Hw' as Hta Hw2.
  unfold _subscriber_list_unlink, get_event. rewrite He. cbn [of_option mbind outcome_bind].
  rewrite (find_sub_spec k t (E ev) NULL (ev_subscribers e) NULL (S (size (ks_subs k))) (proj1 Hdll) ltac:(pose proof (dll_size _ _ _ Hdll); lia) l1 a l2 HE ltac:(done) ltac:(by rewrite <- Hw1)).
  cbn [mbind outcome_bind]. rewrite (Dll.dll_nonnull _ _ _ Hdll), HE. replace (match l1 ++ a :: l2 with [] => false | _ => true end) with true by (by destruct l1).
  cbn [negb]. rewrite HE in Hdll. mcall (Dll.list_cut_spec _ _ _ _ _ Hdll). intros [h m] (Hdll' & Hrel & Hma & Hout).
  unfold upd_event, get_event. cbn [ks_events set_subs]. rewrite He. cbn [of_option mbind outcome_bind].
  assert (a ∈ E ev) as HaE by (rewrite HE, elem_of_app, elem_of_cons; auto).
  assert (is_Some (ks_subs k !! a)) as [u Hu] by (apply (Dll.dll_elem _ _ _ a Hdll); rewrite elem_of_app, elem_of_cons; auto).
  unfold _subscriber_pool_free. cbn [ks_pool set_pool set_events set_subs]. rewrite (upd_sub_ret a _ _ u) by (cbn; by rewrite Hma).
  cbn [returns ks_subs set_pool set_events set_subs ks_pool]. split; [|split; [done|by eexists]].
  pose proof (proj2 Hdll) as Hnd. apply NoDup_app in Hnd as (_ & Hdisj & [Ha2 _]%NoDup_cons).
  assert (a ∉ l1 ++ l2) as Hna by (rewrite elem_of_app; intros [Hin|Hin]; [apply (Hdisj a Hin); left|done]).
  assert (a ∉ P) as HaP by (by apply (Ha ev a ltac:(by eexists))).
  set (m' := <[a := set_next (ks_pool k) u]> m).
  assert (forall x, x <> a -> m' !! x = m !! x) as Hm' by (intros x Hx; unfold m'; by rewrite lookup_insert_ne).
  apply (kev_abs_step k E P W ev e h (l1 ++ l2) (w1 ++ w2) (a :: P) m' (Ref a)); try done.
  - split; [done|]. exists (set_next (ks_pool k) u). split; [apply lookup_insert_eq|]. eapply nodes_ext; [|exact Hp].
    intros b Hb. rewrite Hm' by (by intros ->). apply Hout. rewrite <- HE. intros Hin. apply (Ha ev b); [by eexists|done|done].
  - by constructor.
  - eapply Dll.dll_frame; [exact Hdll'|]. intros b Hb. apply Hm'. by intros ->.
  - intros x Hx. rewrite not_elem_of_cons. split; [by intros ->|]. apply (Ha ev x); [by eexists|]. rewrite HE.
    rewrite elem_of_app in Hx. rewrite elem_of_app, elem_of_cons. naive_solver.
  - intros x. rewrite HE, !elem_of_app, !elem_of_cons. naive_solver.
  - intros b Hb1 Hb2. rewrite Hm' by (by intros ->). apply Hout. by rewrite <- HE.
  - assert (forall x, x ∈ l1 ++ l2 -> thread m' x = thread (ks_subs k) x) as Hth.
    { intros x Hx. rewrite <- (thread_relinked _ m x Hrel). unfold thread. rewrite Hm'; [done|]. by intros ->. }
    rewrite fmap_app, Hw1, Hw2. f_equal; apply list_fmap_ext; intros i x Hx%list_elem_of_lookup_2; apply Hth; rewrite elem_of_app; auto.
Qed.

(** ** All events of a list *)

(** Without the first [t]. *)
Fixpoint del (t : word) (l : list word) : list word :=
  match l with [] => [] | x :: l => if decide (x = t) then l else x :: del t l end.

Lemma del_app t w1 w2 : t ∉ w1 -> del t (w1 ++ t :: w2) = w1 ++ w2.
Proof.
  induction w1 as [|x w1 IH]; simpl; [by rewrite decide_True|]. intros [Hx Hn]%not_elem_of_cons.
  rewrite decide_False by congruence. by rewrite IH.
Qed.

Lemma split_first t (l : list word) : t ∈ l -> exists w1 w2, l = w1 ++ t :: w2 /\ t ∉ w1.
Proof.
  induction l as [|x l IH]; [by intros ?%elem_of_nil|]. destruct (decide (x = t)) as [->|Hne].
  - intros _. exists [], l. split; [done|]. apply not_elem_of_nil.
  - intros [->|Hin]%elem_of_cons; [done|]. destruct (IH Hin) as (w1 & w2 & -> & Hn). exists (x :: w1), w2. split; [done|].
    apply not_elem_of_cons. by split.
Qed.

Definition sub_all (evs : list Z) (t : word) (W : Z -> list word) : Z -> list word :=
  foldl (fun W ev => <[ev := t :: W ev]> W) W evs.
Definition unsub_all (evs : list Z) (t : word) (W : Z -> list word) : Z -> list word :=
  foldl (fun W ev => <[ev := del t (W ev)]> W) W evs.

Lemma fold_update (f : list word -> list word) evs (W : Z -> list word) ev :
  NoDup evs -> foldl (fun W ev => <[ev := f (W ev)]> W) W evs ev = if decide (ev ∈ evs) then f (W ev) else W ev.
Proof.
  revert W. induction evs as [|x evs IH]; intros W Hn; [done|]. apply NoDup_cons in Hn as [Hx Hn]. cbn [foldl].
  rewrite IH by done. destruct (decide (ev = x)) as [->|Hne].
  - rewrite decide_False, fn_lookup_insert by done. rewrite decide_True by left. done.
  - rewrite fn_lookup_insert_ne by done. destruct (decide (ev ∈ evs)).
    + rewrite decide_True by (by right). done.
    + rewrite decide_False; [done|]. rewrite elem_of_cons. naive_solver.
Qed.

Lemma kev_abs_ext k W W' n : (forall ev, is_Some (ks_events k !! ev) -> W' ev = W ev) -> kev_abs k W n -> kev_abs k W' n.
Proof. intros He (E & P & Hr & Hw & Hn). exists E, P. split; [done|]. split; [|done]. intros ev Hev. rewrite He by done. by apply Hw. Qed.

(** What a section that only touches subscriber lists leaves as it is. *)
Record listed (k k' : kstate) : Prop := {
  li_quiet : quiet k';
  li_sched : ks_sched k' = ks_sched k;
  li_pend : forall ev, pend k' ev = pend k ev
}.

Lemma listed_refl k : quiet k -> listed k k.
Proof. by split. Qed.

Lemma listed_trans k1 k2 k3 : listed k1 k2 -> listed k2 k3 -> listed k1 k3.
Proof. intros [_ Hs1 Hp1] [Hq Hs2 Hp2]. split; [done|congruence|]. intros ev. by rewrite Hp2. Qed.

Lemma listed_exists k k' ev : listed k k' -> is_Some (ks_events k' !! ev) <-> is_Some (ks_events k !! ev).
Proof. intros [_ _ Hp]. specialize (Hp ev). unfold pend in Hp. destruct (ks_events k' !! ev), (ks_events k !! ev); simpl in Hp; naive_solver. Qed.

(** [lock; change the list; unlock] *)
Lemma listed_section k ev e h W n k1 :
  quiet k -> ks_events k !! ev = Some e -> ks_sched k1 = ks_sched k ->
  ks_events k1 = <[ev := set_subscribers h (set_ev_lock hold e)]> (<[ev := set_ev_lock hold e]> (ks_events k)) ->
  kev_abs k1 W n ->
  returns (unlock_event ev k1) (fun k' => listed k k' /\ kev_abs k' W n).
Proof.
  intros [HIF Hu] He Hs Hev Habs. rewrite insert_insert_eq in Hev.
  assert (ks_events k1 !! ev = Some (set_subscribers h (set_ev_lock hold e))) as He1 by (rewrite Hev; apply lookup_insert_eq).
  assert (ks_IF k1 = false) as HIF1 by (unfold ks_IF; by rewrite Hs).
  rewrite (unlock_event_ret ev k1 _ HIF1 He1 eq_refl). cbn [returns]. split; [split|].
  - split; [done|]. intros ev' e'. cbn [ks_events set_events]. rewrite Hev, insert_insert_eq. destruct (decide (ev' = ev)) as [->|Hne].
    + rewrite lookup_insert_eq. by intros [= <-].
    + rewrite lookup_insert_ne by done. apply Hu.
  - done.
  - intros ev'. unfold pend. cbn [ks_events set_events]. rewrite Hev, insert_insert_eq. destruct (decide (ev' = ev)) as [->|Hne].
    + by rewrite lookup_insert_eq, He.
    + by rewrite lookup_insert_ne.
  - by apply (kev_abs_event k1 _ _ ev _ (set_ev_lock unhold)).
Qed.

Lemma subscribe_spec evs t : forall k W n,
  quiet k -> kev_abs k W (length evs + n) -> (forall ev, ev ∈ evs -> is_Some (ks_events k !! ev)) ->
  returns (kevent_subscribe evs t k) (fun k' => listed k k' /\ kev_abs k' (sub_all evs t W) n).
Proof.
  induction evs as [|ev evs IH]; intros k W n Hq Habs Hevs; [by split; [apply listed_refl|]|]. cbn [kevent_subscribe].
  destruct (Hevs ev) as [e He]; [left|]. rewrite (lock_event_ret ev k e Hq He). cbn [mbind outcome_bind].
  set (k1 := set_events _ k). assert (ks_events k1 !! ev = Some (set_ev_lock hold e)) as He1 by apply lookup_insert_eq.
  assert (kev_abs k1 W (S (length evs + n))) as Habs1 by (by apply kev_abs_event).
  mcall (node_link_spec k1 W _ ev _ t Habs1 He1). intros k2 (Habs2 & Hs2 & h & Hev2).
  mcall (listed_section k ev e h _ _ k2 Hq He Hs2 Hev2 Habs2). intros k3 (Hl3 & Habs3).
  eapply returns_mono; [apply (IH k3 _ n (li_quiet _ _ Hl3) Habs3)|].
  - intros ev' Hin. rewrite (listed_exists _ _ _ Hl3). apply Hevs. by right.
  - intros k' [Hl' Habs']. split; [by eapply listed_trans|exact Habs'].
Qed.

Lemma unsubscribe_spec evs t : forall k W n,
  quiet k -> kev_abs k W n -> NoDup evs -> (forall ev, ev ∈ evs -> is_Some (ks_events k !! ev) /\ t ∈ W ev) ->
  returns (kevent_unsubscribe evs t k) (fun k' => listed k k' /\ kev_abs k' (unsub_all evs t W) (length evs + n)).
Proof.
  induction evs as [|ev evs IH]; intros k W n Hq Habs Hnd Hevs; [by split; [apply listed_refl|]|]. cbn [kevent_unsubscribe].
  apply NoDup_cons in Hnd as [Hni Hnd].
  destruct (Hevs ev) as [[e He] Hin]; [left|]. rewrite (lock_event_ret ev k e Hq He). cbn [mbind outcome_bind].
  set (k1 := set_events _ k). assert (ks_events k1 !! ev = Some (set_ev_lock hold e)) as He1 by apply lookup_insert_eq.
  assert (kev_abs k1 W n) as Habs1 by (by apply kev_abs_event). destruct (split_first t _ Hin) as (w1 & w2 & HW & Hn).
  mcall (unlink_spec k1 W _ ev _ t w1 w2 Habs1 He1 HW Hn). intros k2 (Habs2 & Hs2 & h & Hev2). rewrite <- (del_app t), <- HW in Habs2 by done.
  mcall (listed_section k ev e h _ _ k2 Hq He Hs2 Hev2 Habs2). intros k3 (Hl3 & Habs3).
  eapply returns_mono; [apply (IH k3 _ (S n) (li_quiet _ _ Hl3) Habs3 Hnd)|].
  - intros ev' Hin'. rewrite (listed_exists _ _ _ Hl3). rewrite fn_lookup_insert_ne by (by intros ->). apply Hevs. by right.
  - intros k' [Hl' Habs']. split; [by eapply listed_trans|]. cbn [length Nat.add]. by rewrite <- Nat.add_succ_r.
Qed.

(** ** Finding a pending event *)

(** Position (from [i]) and address of the first event of [evs] that is pending. *)
Fixpoint pending_at (k : kstate) (i : Z) (evs : list Z) : option (Z * Z) :=
  match evs with
  | [] => None
  | ev :: evs => match pend k ev with Some 0 => pending_at k (i + 1) evs | Some _ => Some (i, ev) | None => None end
  end.

Lemma pending_at_ext k k' i evs : (forall ev, pend k' ev = pend k ev) -> pending_at k' i evs = pending_at k i evs.
Proof. intros He. revert i. induction evs as [|ev evs IH]; intros i; simpl; [done|]. rewrite He. by destruct (pend k ev) as [[]|]. Qed.

(** [ev]'s counter has become [x]. *)
Definition counted (k k' : kstate) (ev : Z) (x : option Z) : Prop :=
  pend k' ev = x /\ forall ev', ev' <> ev -> pend k' ev' = pend k ev'.

Definition same_lists (k k' : kstate) : Prop := forall W n, kev_abs k W n -> kev_abs k' W n.

(** A locked section that ends with [ev]'s counter at [x]. *)
Lemma counter_section k ev e x :
  quiet k -> ks_events k !! ev = Some e ->
  let k1 := set_events (<[ev := set_ev_lock hold (set_unprocessed x e)]> (ks_events k)) k in
  returns (unlock_event ev k1) (fun k' => quiet k' /\ ks_sched k' = ks_sched k /\ same_lists k k' /\ counted k k' ev (Some x)).
Proof.
  intros [HIF Hu] He k1. rewrite (unlock_event_ret ev k1 (set_ev_lock hold (set_unprocessed x e)) HIF) by (apply lookup_insert_eq || done).
  cbn [returns]. split; [split|split; [done|split; [|split]]].
  - done.
  - intros ev' e'. cbn [ks_events set_events k1]. rewrite insert_insert_eq. destruct (decide (ev' = ev)) as [->|Hne].
    + rewrite lookup_insert_eq. by intros [= <-].
    + rewrite lookup_insert_ne by done. apply Hu.
  - intros W n Habs. apply (kev_abs_event k1 _ _ ev _ (set_ev_lock unhold)); [|apply lookup_insert_eq|done].
    by apply (kev_abs_event k _ _ ev e (fun e => set_ev_lock hold (set_unprocessed x e))).
  - unfold pend. cbn [ks_events set_events]. by rewrite lookup_insert_eq.
  - intros ev' Hne. unfold pend. cbn [ks_events set_events k1]. by rewrite !lookup_insert_ne.
Qed.

Lemma find_spec evs : forall i k,
  quiet k -> (forall ev, ev ∈ evs -> is_Some (ks_events k !! ev)) ->
  returns (find_unprocessed_from i evs k) (fun '(out, k') => quiet k' /\ ks_sched k' = ks_sched k /\ same_lists k k' /\
    match pending_at k i evs with
    | None => out = KEVENT_POLL_INVALID /\ forall ev, pend k' ev = pend k ev
    | Some (j, ev) => out = j /\ counted k k' ev ((fun n => n - 1) <$> pend k ev)
    end).
Proof.
  induction evs as [|ev evs IH]; intros i k Hq Hevs; [split_and!; try done; by intros W n ?|]. cbn [find_unprocessed_from pending_at].
  destruct (Hevs ev) as [e He]; [left|]. rewrite (lock_event_ret ev k e Hq He). cbn [mbind outcome_bind].
  unfold upd_event, get_event. cbn [ks_events set_events]. rewrite lookup_insert_eq. cbn [of_option mbind outcome_bind ev_unprocessed set_ev_lock].
  unfold pend at 1. rewrite He. cbn [fmap option_fmap option_map]. destruct (Z.eqb_spec (ev_unprocessed e) 0) as [Hz|Hz]; cbn [negb].
  - rewrite Hz. assert (set_ev_lock hold e = set_ev_lock hold (set_unprocessed 0 e)) as -> by (rewrite <- Hz; by destruct e).
    mcall (counter_section k ev e 0 Hq He). intros k1 (Hq1 & Hs1 & Hsl1 & Hc1 & Hc1').
    assert (forall ev', pend k1 ev' = pend k ev') as Hp.
    { intros ev'. destruct (decide (ev' = ev)) as [->|Hne]; [rewrite Hc1; unfold pend; rewrite He; simpl; by rewrite Hz|by apply Hc1']. }
    eapply returns_mono; [apply (IH (i + 1) k1 Hq1)|].
    + intros ev' Hin. destruct (Hevs ev') as [e' He']; [by right|]. specialize (Hp ev'). unfold pend in Hp. rewrite He' in Hp.
      destruct (ks_events k1 !! ev'); [by eexists|done].
    + intros [out k'] (Hq' & Hs' & Hsl' & Hres). split; [done|]. split; [congruence|]. split; [intros W n Habs; by apply Hsl', Hsl1|].
      rewrite (pending_at_ext k k1) in Hres by done. destruct (pending_at k (i + 1) evs) as [[j ev']|].
      * destruct Hres as (-> & Hc & Hc'). split; [done|]. split; [by rewrite Hc, Hp|]. intros ev'' Hne. by rewrite Hc', Hp.
      * destruct Hres as (-> & Hc). split; [done|]. intros ev'. by rewrite Hc, Hp.
  - rewrite insert_insert_eq. mcall (counter_section k ev e (ev_unprocessed e - 1) Hq He). intros k1 (Hq1 & Hs1 & Hsl1 & Hc1). cbn [returns].
    split; [done|]. split; [done|]. split; [done|]. destruct (ev_unprocessed e) eqn:Hu; [done|..]; (split; [done|]); unfold pend at 1; rewrite He; simpl; by rewrite Hu.
Qed.

(** ** Launching *)

Definition wake_task (t : task) : task := if decide (t_state t = TASK_STATE_SLEEPING) then set_state TASK_STATE_READY t else t.

Lemma woken_lookup I a b : woken I a !! b = if decide (b = a) then wake_task <$> I !! b else I !! b.
Proof.
  unfold woken. destruct (decide (b = a)) as [->|Hne].
  - destruct (I !! a) as [t|] eqn:Ht; [|by rewrite Ht]. cbn [fmap option_fmap option_map]. unfold wake_task.
    destruct (decide _); [by rewrite lookup_alter_eq, Ht|done].
  - destruct (I !! a); [|done]. destruct (decide _); [by rewrite lookup_alter_ne|done].
Qed.

Lemma wake_task_idem t : wake_task (wake_task t) = wake_task t.
Proof.
  unfold wake_task at 2 3. destruct (decide (t_state t = TASK_STATE_SLEEPING)); unfold wake_task; by rewrite decide_False.
Qed.

Lemma all_woken l : forall I b, foldl woken I l !! b = if decide (b ∈ l) then wake_task <$> I !! b else I !! b.
Proof.
  induction l as [|a l IH]; intros I b; [done|]. cbn [foldl]. rewrite IH, woken_lookup.
  destruct (decide (b ∈ l)) as [Hin|Hin], (decide (b = a)) as [->|Hne].
  - rewrite decide_True by (by right). destruct (I !! a); [|done]. simpl. by rewrite wake_task_idem.
  - by rewrite decide_True by (by right).
  - by rewrite decide_True by left.
  - rewrite decide_False; [done|]. rewrite elem_of_cons. naive_solver.
Qed.

Lemma wake_all_spec c : forall l p h fuel k Q ts,
  Dll.dseg (ks_subs k) p h NULL l -> (length l < fuel)%nat -> good k Q c ->
  thread (ks_subs k) <$> l = Ref <$> ts -> (forall a, a ∈ ts -> is_Some (info (ks_sched k) !! a)) ->
  returns (wake_all fuel h k) (fun k' => (exists Q', good k' Q' c) /\ info (ks_sched k') = foldl woken (info (ks_sched k)) ts /\
    rest (ks_sched k') = rest (ks_sched k) /\ k' = set_sched (ks_sched k') k).
Proof.
  intros l. induction l as [|x l IH]; intros p h [|fuel] k Q ts Hs Hf Hg Hts Hex; try (simpl in Hf; lia); cbn [wake_all].
  - simpl in Hs. subst h. destruct ts; [|done]. cbn. destruct k. split; [by exists Q|done].
  - destruct Hs as (-> & u & Hu & _ & Hs). cbn [nonnull]. rewrite (get_sub_ret x k u Hu). cbn [mbind outcome_bind].
    destruct ts as [|a ts]; [done|]. injection Hts as Hta Hts. unfold thread in Hta. rewrite Hu in Hta. rewrite Hta.
    destruct (Hex a) as [t Ht]; [left|]. mcall (wake_good a k Q c t Hg Ht). intros k1 ((Q1 & Hg1) & Hi1 & Hr1 & Hk1).
    assert (ks_subs k1 = ks_subs k) as Hsub by (by rewrite Hk1). rewrite (get_sub_ret x k1 u) by (by rewrite Hsub). cbn [mbind outcome_bind].
    eapply returns_mono; [apply (IH (Ref x) (su_next u) fuel k1 Q1 ts); [by rewrite Hsub|simpl in Hf; lia|done|by rewrite Hsub|]|].
    + intros b Hb. rewrite Hi1, woken_lookup. destruct (Hex b) as [tb Htb]; [by right|]. rewrite Htb. destruct (decide _); by eexists.
    + intros k' (HQ' & Hi' & Hr' & Hk'). split; [done|]. split; [by rewrite Hi', Hi1|]. split; [congruence|]. by rewrite Hk', Hk1.
Qed.

(** No event is locked. *)
Definition unheld (k : kstate) : Prop := forall ev e, ks_events k !! ev = Some e -> unlocked (ev_lock e).

Lemma launch_spec k W n Q c ev p ts :
  good k Q c -> kev_abs k W n -> unheld k -> pend k ev = Some p -> W ev = Ref <$> ts -> ts <> [] ->
  (forall a, a ∈ ts -> is_Some (info (ks_sched k) !! a)) ->
  returns (kevent_launch ev k) (fun k' => (exists Q', good k' Q' c) /\ kev_abs k' W n /\ unheld k' /\ rest (ks_sched k') = rest (ks_sched k) /\
    info (ks_sched k') = foldl woken (info (ks_sched k)) ts /\ counted k k' ev (Some (u64 (p + 1)))).
Proof.
  intros Hg Habs Hun Hp HW Hne Hex. unfold pend in Hp. destruct (ks_events k !! ev) as [e|] eqn:He; [|done]. injection Hp as Hp.
  pose proof Habs as (E & P & Hrep & Hthr & _). pose proof (ke_list _ _ _ Hrep ev e He) as Hdll.
  pose proof (Hthr ev ltac:(by eexists)) as Hmap. rewrite HW in Hmap.
  unfold kevent_launch, get_event. rewrite He. cbn [of_option mbind outcome_bind]. rewrite (Dll.dll_nonnull _ _ _ Hdll).
  destruct (E ev) as [|x l] eqn:HE; [destruct ts; done|]. cbn [negb preempt_fetch_disable preempt_fetch preempt_disable]. rewrite <- HE in *. clear x l HE.
  change (set_ks_IF (preempt_disable (ks_IF k)) k) with (set_ks_IF false k). set (k0 := set_ks_IF false k). assert (quiet k0) as Hq0 by done.
  rewrite (lock_event_ret ev k0 e Hq0 He). cbn [mbind outcome_bind]. unfold upd_event, get_event. cbn [ks_events set_events].
  rewrite lookup_insert_eq. cbn [of_option mbind outcome_bind ks_events set_events]. rewrite insert_insert_eq, lookup_insert_eq. cbn [of_option mbind outcome_bind].
  set (e1 := set_unprocessed _ _). set (k1 := set_events _ (set_events _ k0)). change (ks_events k0) with (ks_events k) in *.
  assert (good k1 Q c) as Hg1 by (by apply (good_sched (set_ks_IF false k)), good_IF).
  mcall (wake_all_spec c (E ev) NULL (ev_subscribers e1) (S (size (ks_subs k1))) k1 Q ts (proj1 Hdll)
           ltac:(pose proof (dll_size _ _ _ Hdll); change (ks_subs k1) with (ks_subs k); lia) Hg1 Hmap Hex).
  intros k2 ((Q2 & Hg2) & Hi2 & Hr2 & Hk2). assert (ks_IF k2 = false) as HIF2 by exact (rest_IF _ _ Hr2).
  assert (ks_events k2 = <[ev := e1]> (ks_events k)) as Hev2 by (rewrite Hk2; done).
  assert (ks_events k2 !! ev = Some e1) as He2 by (rewrite Hev2; apply lookup_insert_eq).
  rewrite (unlock_event_ret ev k2 e1 HIF2 He2 eq_refl). cbn [mbind outcome_bind returns].
  split; [|split; [|split; [|split; [|split; [exact Hi2|split]]]]].
  - exists Q2. apply good_IF. by apply (good_sched k2).
  - apply kev_abs_sched. apply (kev_abs_event k2 _ _ ev e1 (set_ev_lock unhold)); [|done|done]. rewrite Hk2. apply kev_abs_sched.
    apply (kev_abs_event (set_ks_IF false k) _ _ ev e (fun _ => e1)); [by apply kev_abs_sched|done|done].
  - intros ev' e'. cbn. rewrite Hev2, insert_insert_eq. destruct (decide (ev' = ev)) as [->|Hne'].
    + rewrite lookup_insert_eq. by intros [= <-].
    + rewrite lookup_insert_ne by done. apply Hun.
  - unfold ks_IF in *. cbn. rewrite HIF2. unfold rest in *. cbn in *. injection Hr2 as -> -> -> -> -> ->. unfold s_IF.
    by destruct (s_heap (ks_sched k)) as [[? ? ? ? ? [] ? ? ? ?]].
  - unfold pend. cbn. rewrite lookup_insert_eq. cbn. by rewrite Hp.
  - intros ev' Hne'. unfold pend. cbn. rewrite Hev2. by rewrite !lookup_insert_ne.
Qed.

End Lists.
End KeventSpec.
