(* ===== verification/KeventTheorems.v ===== *)
(** * Theorems about kernel events

    A thread that polls events with nothing pending sleeps in the subscriber
    lists of all of them; a launch makes it ready again; when it runs on, it
    learns which event it was, and the lists, the pool, the counters and the
    interrupt flag are as before the call. *)

From stdpp Require Import gmap functions.
From S2P Require Import Prelude Dll Locking Mem FrameHdr FrameAlloc PageIface Slab RunQueue RunQueueSpec Sched SchedSpec Kevent SchedTasks SchedProof SchedTheorems KeventSpec.

Module KeventTheorems.
Import Locking Mem FrameHdr FrameAlloc PageIface Slab RunQueue Sched SchedSpec Kevent SchedTasks SchedProof SchedTheorems KeventSpec.

Section Theorems.
Context {PA : PageAllocator}.

Lemma pend_some k ev p : pend k ev = Some p -> is_Some (ks_events k !! ev).
Proof. unfold pend. destruct (ks_events k !! ev); [by eexists|done]. Qed.

Lemma none_pending k evs i : (forall ev, ev ∈ evs -> pend k ev = Some 0) -> pending_at k i evs = None.
Proof.
  revert i. induction evs as [|ev evs IH]; intros i H; simpl; [done|]. rewrite H by left. apply IH. intros x Hx. apply H. by right.
Qed.

Lemma one_pending k evs i (j : nat) ev p :
  NoDup evs -> evs !! j = Some ev -> pend k ev = Some p -> p <> 0 -> (forall x, x ∈ evs -> x <> ev -> pend k x = Some 0) ->
  pending_at k i evs = Some (i + Z.of_nat j, ev).
Proof.
  revert i j. induction evs as [|x evs IH]; intros i j Hn Hj Hp Hnz Hz; [done|]. apply NoDup_cons in Hn as [Hx Hn]. simpl.
  destruct j as [|j]; simpl in Hj.
  - injection Hj as ->. rewrite Hp. rewrite Z.add_0_r. by destruct p.
  - assert (x <> ev) as Hne by (intros ->; apply Hx; by eapply list_elem_of_lookup_2). rewrite (Hz x) by (done || left). rewrite (IH (i + 1) j); try done.
    + do 2 f_equal. lia.
    + intros y Hy. apply Hz. by right.
Qed.

(** ** Waiting *)

Lemma poll_sleeps k W n Q c evs regs t :
  good k Q c -> c_idle_thread (s_cpu (ks_sched k)) <> Ref c -> info (ks_sched k) !! c = Some t ->
  kev_abs k W (length evs + n) -> unheld k -> (forall ev, ev ∈ evs -> pend k ev = Some 0) ->
  returns (kevents_poll evs regs k) (fun '(r, k') => r = Asleep (Ref c) (ks_IF k) /\
    kev_abs k' (sub_all evs (Ref c) W) n /\ unheld k' /\ (forall ev, pend k' ev = pend k ev) /\ (exists Q' c', good k' Q' c' /\ c' <> c) /\
    info (ks_sched k') !! c = Some (set_context regs (set_state TASK_STATE_SLEEPING t)) /\
    c_idle_thread (s_cpu (ks_sched k')) = c_idle_thread (s_cpu (ks_sched k)) /\
    (forall a, is_Some (info (ks_sched k) !! a) -> is_Some (info (ks_sched k') !! a))).
Proof.
  intros Hg Hne Ht Habs Hun Hz. unfold kevents_poll. cbn [preempt_fetch_disable preempt_fetch].
  change (set_ks_IF (preempt_disable (ks_IF k)) k) with (set_ks_IF false k). pose proof (good_IF _ _ _ false Hg) as Hg0.
  set (k0 := set_ks_IF false k) in *. assert (quiet k0) as Hq0 by done.
  unfold scheduler_curr_task, get_this_cpu. change (s_IF (ks_sched k0)) with false. cbn [preempt_fetch mbind outcome_bind].
  change (c_curr_thread (s_cpu (ks_sched k0))) with (curr_thread (ks_sched k0)). rewrite (ru_curr _ _ _ (g_running _ _ _ Hg0)).
  mcall (find_spec evs 0 k0 Hq0); [intros ev Hev; by eapply pend_some, Hz|]. intros [out k1] (Hq1 & Hs1 & Hsl1 & Hres).
  rewrite (none_pending k0 evs 0) in Hres by done. destruct Hres as (-> & Hp1). cbn [negb Z.eqb KEVENT_POLL_INVALID Pos.eqb].
  pose proof (Hsl1 _ _ (kev_abs_sched _ _ _ _ Habs)) as Habs1.
  mcall (subscribe_spec evs (Ref c) k1 W n Hq1 Habs1).
  { intros ev Hev. apply (pend_some _ _ 0). rewrite Hp1. by apply Hz. }
  intros k2 ([Hq2 Hs2 Hp2] & Habs2). apply returns_assoc.
  assert (ks_sched k2 = ks_sched k0) as Hs by congruence.
  pose proof (good_sched k0 k2 Q c Hs Hg0) as [Hru2 Hpl2].
  mstep. eapply returns_mono; [apply (block_spec regs k2 Q c t Hru2); [unfold ks_IF; by rewrite Hs|by rewrite Hs|by rewrite Hs]|].
  intros k3 Hsw. cbn [returns]. pose proof Hsw as (a & _ & Hru3 & Hi3 & Hid3 & _ & Hk3).
  destruct (switched_good _ _ _ _ _ Hsw) as (a' & Hn' & Hg3); [by apply placed_block|].
  assert (a' = a) as -> by (pose proof (ru_curr _ _ _ (g_running _ _ _ Hg3)); pose proof (ru_curr _ _ _ Hru3); congruence).
  assert (a <> c) as Hac.
  { intros ->. apply (ru_loose _ _ _ Hru3 QSleep I). unfold after. destruct (pick _) as [[i x]|].
    - unfold drop_first. rewrite fn_lookup_insert_ne, fn_lookup_insert, elem_of_app, list_elem_of_singleton by done. by right.
    - rewrite fn_lookup_insert, elem_of_app, list_elem_of_singleton. by right. }
  rewrite Hs in Hi3. change (info (ks_sched k0)) with (info (ks_sched k)) in Hi3.
  split; [done|]. split; [rewrite Hk3; by apply kev_abs_sched|]. split; [|split; [|split; [|split; [|split]]]].
  - intros ev e. rewrite Hk3. apply Hq2.
  - intros ev. rewrite Hk3. change (pend k2 ev = pend k ev). by rewrite Hp2, Hp1.
  - by exists (after (<[QSleep := Q QSleep ++ [c]]> Q)), a.
  - by rewrite Hi3, lookup_alter_ne, !lookup_alter_eq, Ht by done.
  - by rewrite Hid3, Hs.
  - intros b Hb. by rewrite Hi3, !lookup_alter_is_Some.
Qed.

Lemma resumed_returns k W n evs t istate j ev :
  quiet k -> kev_abs k W n -> NoDup evs -> (forall ev, ev ∈ evs -> is_Some (ks_events k !! ev) /\ t ∈ W ev) ->
  pending_at k 0 evs = Some (j, ev) ->
  returns (kevents_poll_resumed evs t istate k) (fun '(out, k') => out = j /\ kev_abs k' (unsub_all evs t W) (length evs + n) /\
    ks_IF k' = istate /\ counted k k' ev ((fun n => n - 1) <$> pend k ev)).
Proof.
  intros Hq Habs Hn Hevs Hp. unfold kevents_poll_resumed. mcall (find_spec evs 0 k Hq); [by intros x Hx; apply Hevs|].
  intros [out k1] (Hq1 & Hs1 & Hsl1 & Hres). rewrite Hp in Hres. destruct Hres as (-> & Hc1 & Hc1').
  assert (forall x, is_Some (ks_events k !! x) -> is_Some (ks_events k1 !! x)) as Hex.
  { intros x [e He]. assert (is_Some (pend k x)) as Hx by (unfold pend; rewrite He; by eexists). destruct (decide (x = ev)) as [->|Hne].
    - destruct Hx as [p Hx]. rewrite Hx in Hc1. by eapply pend_some.
    - rewrite <- Hc1' in Hx by done. destruct Hx as [p Hx]. by eapply pend_some. }
  mcall (unsubscribe_spec evs t k1 W n Hq1 (Hsl1 _ _ Habs) Hn). { intros x Hx. destruct (Hevs x Hx). auto. }
  intros k2 ([[HIF2 Hu2] Hs2 Hp2] & Habs2). cbn [returns]. split; [done|]. split; [by apply kev_abs_sched|]. split.
  - rewrite HIF2. by destruct istate.
  - split; [change (pend k2 ev = (fun n => n - 1) <$> pend k ev); by rewrite Hp2|]. intros x Hx. change (pend k2 x = pend k x). by rewrite Hp2, Hc1'.
Qed.

Lemma threads_refs (D : Z -> Prop) (l : list word) :
  (forall w, w ∈ l -> exists a, w = Ref a /\ D a) -> exists ts, l = Ref <$> ts /\ forall a, a ∈ ts -> D a.
Proof.
  induction l as [|w l IH]; intros Hl; [exists []; split; [done|by intros a ?%elem_of_nil]|].
  destruct IH as (ts & -> & Hts); [intros w' Hw'; apply Hl; by right|].
  destruct (Hl w) as (a & -> & Ha); [left|]. exists (a :: ts). split; [done|]. intros b [->|Hb]%elem_of_cons; auto.
Qed.

(** C22: no wake-up is lost.  A thread that polls events with nothing pending
    goes to sleep, off the core; launching any of them makes it ready, with
    the registers it had saved; when it runs again, the call returns the index
    of that event, the counters, the subscriber lists, the pool and the
    interrupt flag being as they were before it. *)
Theorem poll_launch_roundtrip k W n Q c evs regs t (j : nat) ev :
  good k Q c -> c_idle_thread (s_cpu (ks_sched k)) <> Ref c -> info (ks_sched k) !! c = Some t ->
  kev_abs k W (length evs + n) -> unheld k -> NoDup evs -> (forall x, x ∈ evs -> pend k x = Some 0) -> evs !! j = Some ev ->
  (forall w, w ∈ W ev -> exists a, w = Ref a /\ is_Some (info (ks_sched k) !! a)) ->
  returns (kevents_poll evs regs k) (fun '(r, k1) => r = Asleep (Ref c) (ks_IF k) /\
    (exists Q1 c1, good k1 Q1 c1 /\ c1 <> c /\ c ∈ Q1 QSleep) /\
    returns (kevent_launch ev k1) (fun k2 =>
      (exists Q2 c2, good k2 Q2 c2 /\ c ∈ Q2 (QPrio (t_prio t))) /\
      (t_context <$> info (ks_sched k2) !! c) = Some regs /\
      returns (kevents_poll_resumed evs (Ref c) (ks_IF k) (set_ks_IF false k2)) (fun '(out, k3) =>
        out = Z.of_nat j /\ kev_abs k3 W (length evs + n) /\ ks_IF k3 = ks_IF k /\ forall x, pend k3 x = pend k x))).
Proof.
  intros Hg Hne Ht Habs Hun Hnd Hz Hj Hthr. assert (ev ∈ evs) as Hin by (by eapply list_elem_of_lookup_2).
  eapply returns_mono; [exact (poll_sleeps k W n Q c evs regs t Hg Hne Ht Habs Hun Hz)|].
  intros [r k1] (-> & Habs1 & Hun1 & Hp1 & (Q1 & c1 & Hg1 & Hc1) & Hi1 & Hid1 & Hdom1). split; [done|]. split.
  { exists Q1, c1. split; [done|]. split; [done|]. exact (g_placed _ _ _ Hg1 c _ Hi1). }
  assert (sub_all evs (Ref c) W ev = Ref c :: W ev) as HWev by (unfold sub_all; rewrite (fold_update (cons (Ref c))) by done; by rewrite decide_True).
  destruct (threads_refs (fun a => is_Some (info (ks_sched k) !! a)) _ Hthr) as (ts & HW & Hts).
  eapply returns_mono; [apply (launch_spec k1 _ n Q1 c1 ev 0 (c :: ts) Hg1 Habs1 Hun1)|].
  - rewrite Hp1. by apply Hz.
  - rewrite HWev, HW. done.
  - done.
  - intros a [->|Ha]%elem_of_cons; [rewrite Hi1; by eexists|]. by apply Hdom1, Hts.
  - intros k2 ((Q2 & Hg2) & Habs2 & Hun2 & Hr2 & Hi2 & Hc2 & Hc2').
    assert (info (ks_sched k2) !! c = Some (set_state TASK_STATE_READY (set_context regs (set_state TASK_STATE_SLEEPING t)))) as Hc.
    { rewrite Hi2, all_woken, decide_True by left. rewrite Hi1. simpl. unfold wake_task. by rewrite decide_True. }
    split; [exists Q2, c1; split; [done|]|split; [by rewrite Hc|]].
    { destruct (g_placed _ _ _ Hg2 c _ Hc) as [[_ ?]|Hid]; [done|]. by rewrite (rest_cpu _ _ Hr2), Hid1 in Hid. }
    assert (pend (set_ks_IF false k2) ev = Some 1) as Hp2 by exact Hc2.
    eapply returns_mono; [apply (resumed_returns (set_ks_IF false k2) (sub_all evs (Ref c) W) n evs (Ref c) (ks_IF k) (Z.of_nat j) ev)|].
    + done.
    + by apply kev_abs_sched.
    + done.
    + intros x Hx. split; [|unfold sub_all; rewrite (fold_update (cons (Ref c))) by done; rewrite decide_True by done; left].
      destruct (decide (x = ev)) as [->|Hxe]; [by eapply pend_some|]. apply (pend_some _ _ 0). change (pend k2 x = Some 0). rewrite Hc2', Hp1 by done. by apply Hz.
    + rewrite <- (Z.add_0_l (Z.of_nat j)). apply (one_pending _ _ _ _ _ 1); try done. intros x Hx Hxe. change (pend k2 x = Some 0). rewrite Hc2', Hp1 by done. by apply Hz.
    + intros [out k3] (-> & Habs3 & HIF3 & Hc3 & Hc3'). split; [done|]. split; [|split; [done|]].
      * eapply kev_abs_ext; [|exact Habs3]. intros x _. unfold unsub_all, sub_all. rewrite (fold_update (del (Ref c))), (fold_update (cons (Ref c))) by done.
        destruct (decide (x ∈ evs)); [|done]. simpl. by rewrite decide_True.
      * intros x. destruct (decide (x = ev)) as [->|Hxe].
        -- rewrite Hc3, Hp2, Hz by done. done.
        -- rewrite Hc3' by done. change (pend k2 x = pend k x). by rewrite Hc2', Hp1.
Qed.

End Theorems.
(** ** Two events and a pool of two entries, on the core of [SchedTheorems.Sample] *)
Module Sample.
Import SchedTheorems.Sample.

Definition sub0 (next : word) : kevent_subscriber_t := mk_sub next NULL NULL NULL.
Definition ev0 : kevent_t := mk_kevent 0 NULL free_lock.
Definition k1 : kstate := mk_kstate sched0 (<[10 := sub0 (Ref 11)]> (<[11 := sub0 NULL]> ∅)) (Ref 10) (<[100 := ev0]> (<[200 := ev0]> ∅)).

Lemma events1 ev e : ks_events k1 !! ev = Some e -> e = ev0.
Proof. cbn. intros [[_ <-]|[_ [[_ <-]|[_ H]]%lookup_insert_Some]]%lookup_insert_Some; [done|done|by rewrite lookup_empty in H]. Qed.

Lemma abs1 : kev_abs k1 (fun _ => []) 2.
Proof.
  exists (fun _ => []), [10; 11]. split; [split|done].
  - split; [done|]. eexists; split; [vm_compute; reflexivity|]. split; [done|]. eexists; split; [vm_compute; reflexivity|done].
  - apply (bool_decide_unpack _). by vm_compute.
  - intros ev e ->%events1. by split; [|constructor].
  - intros ev ev' x _ _ Hx. by apply elem_of_nil in Hx.
  - intros ev x _ Hx. by apply elem_of_nil in Hx.
Qed.

Lemma poll_launch_roundtrip_witness :
  returns (kevents_poll [100; 200] zero_jmpbuf k1) (fun '(r, k1') => r = Asleep (Ref 2) (ks_IF k1)).
Proof.
  eapply returns_mono; [eapply (poll_launch_roundtrip k1 (fun _ => []) 0 Q0 2 [100; 200] zero_jmpbuf _ 1 200)|].
  - apply (good_sched k0); [done|exact good0].
  - done.
  - vm_compute. reflexivity.
  - exact abs1.
  - intros ev e ->%events1. done.
  - apply (bool_decide_unpack _). by vm_compute.
  - intros x [->|[->|Hx%elem_of_nil]%elem_of_cons]%elem_of_cons; done.
  - done.
  - intros w Hw. by apply elem_of_nil in Hw.
  - intros [r k'] [Hr _]. exact Hr.
Defined.

End Sample.
End KeventTheorems.
