(* ===== verification/Timer.v ===== *)
(** * System timers (kernel/src/misc/time.c)

    The timers are a binary heap: an array of pointers to [ktimer_node]s, in
    the kernel heap's memory at [tm_array], grown and shrunk by [krealloc].
    A node has its expiration time in [tm_exp] and its event in the event
    store, both under the node's address (the event is the first field). *)

From stdpp Require Import gmap.
From S2P Require Import Prelude Locking Mem FrameHdr FrameAlloc PageIface Slab RunQueue Sched Kevent.

Module Timer.
Import Locking Mem FrameHdr FrameAlloc PageIface Slab RunQueue Sched Kevent.

Definition TIMER_NODE_LEFT : Z := 1.
Definition TIMER_NODE_RIGHT : Z := 2.
Definition MIN_TIMER_HEAP_SIZE : Z := 64.

Record timers := mk_timers {
  tm_k : kstate;
  tm_array : Z;                (* heap_array *)
  tm_capacity : Z;             (* heap_capacity *)
  tm_size : Z;                 (* heap_size *)
  tm_lock : k_spinlock_t;      (* heap_lock *)
  tm_exp : gmap Z Z;           (* expiration_time by node *)
  tm_ticks : Z;                (* system_ticks *)
  tm_unix : Z                  (* unix_time *)
}.

Definition set_k (x : kstate) (t : timers) : timers :=
  mk_timers x (tm_array t) (tm_capacity t) (tm_size t) (tm_lock t) (tm_exp t) (tm_ticks t) (tm_unix t).
Definition set_array (x : Z) (t : timers) : timers :=
  mk_timers (tm_k t) x (tm_capacity t) (tm_size t) (tm_lock t) (tm_exp t) (tm_ticks t) (tm_unix t).
Definition set_capacity (x : Z) (t : timers) : timers :=
  mk_timers (tm_k t) (tm_array t) x (tm_size t) (tm_lock t) (tm_exp t) (tm_ticks t) (tm_unix t).
Definition set_size (x : Z) (t : timers) : timers :=
  mk_timers (tm_k t) (tm_array t) (tm_capacity t) x (tm_lock t) (tm_exp t) (tm_ticks t) (tm_unix t).
Definition set_tm_lock (x : k_spinlock_t) (t : timers) : timers :=
  mk_timers (tm_k t) (tm_array t) (tm_capacity t) (tm_size t) x (tm_exp t) (tm_ticks t) (tm_unix t).
Definition set_exp (x : gmap Z Z) (t : timers) : timers :=
  mk_timers (tm_k t) (tm_array t) (tm_capacity t) (tm_size t) (tm_lock t) x (tm_ticks t) (tm_unix t).
Definition set_ticks (x : Z) (t : timers) : timers :=
  mk_timers (tm_k t) (tm_array t) (tm_capacity t) (tm_size t) (tm_lock t) (tm_exp t) x (tm_unix t).
Definition set_unix (x : Z) (t : timers) : timers :=
  mk_timers (tm_k t) (tm_array t) (tm_capacity t) (tm_size t) (tm_lock t) (tm_exp t) (tm_ticks t) x.

Definition tm_heap (t : timers) : heap := s_heap (ks_sched (tm_k t)).
Definition set_tm_heap (h : heap) (t : timers) : timers := set_k (set_sched (Sched.set_heap h (ks_sched (tm_k t))) (tm_k t)) t.
Definition tm_mem (t : timers) : mem := h_mem (tm_heap t).
Definition set_tm_mem (m : mem) (t : timers) : timers := set_tm_heap (set_mem m (tm_heap t)) t.
Definition tm_IF (t : timers) : bool := ks_IF (tm_k t).
Definition set_tm_IF (b : bool) (t : timers) : timers := set_k (set_ks_IF b (tm_k t)) t.

(** [heap_array[i]], [heap_array[i] = p], [p->expiration_time] *)
Definition entry (i : Z) (t : timers) : Z := read64 (tm_array t + 8 * i) (tm_mem t).
Definition set_entry (i p : Z) (t : timers) : timers := set_tm_mem (write64 (tm_array t + 8 * i) p (tm_mem t)) t.
Definition expiration_time (p : Z) (t : timers) : outcome Z := of_option "no timer there" (tm_exp t !! p).

Definition lock_timers (t : timers) : outcome timers :=
  '(IF, l) ← Seq.spin_lock_global (tm_IF t) (tm_lock t); Ret (set_tm_IF IF (set_tm_lock l t)).
Definition unlock_timers (t : timers) : timers :=
  let '(IF, l) := Seq.spin_unlock_global (tm_IF t) (tm_lock t) in set_tm_IF IF (set_tm_lock l t).

(** ** The heap *)

Definition swap (i j : Z) (t : timers) : timers :=
  let a := entry i t in
  let b := entry j t in
  set_entry j a (set_entry i b t).

Definition get_child (index dir : Z) : Z := Z.shiftl index 1 + dir.
Definition get_parent (index : Z) : Z := Z.shiftr (index - 1) 1.

(** [for (;;)]; the index grows, so [heap_size] rounds are enough. *)
Fixpoint min_heapify (fuel : nat) (idx : Z) (t : timers) : outcome timers :=
  match fuel with
  | O => Fault "loop does not end"
  | S fuel =>
      let child_left := get_child idx TIMER_NODE_LEFT in
      let child_right := get_child idx TIMER_NODE_RIGHT in
      right_idx ← (if child_left <? tm_size t then
                     kl ← expiration_time (entry child_left t) t;
                     ki ← expiration_time (entry idx t) t;
                     Ret (if kl <? ki then child_left else idx)
                   else Ret idx);
      right_idx ← (if child_right <? tm_size t then
                     kr ← expiration_time (entry child_right t) t;
                     ki ← expiration_time (entry right_idx t) t;
                     Ret (if kr <? ki then child_right else right_idx)
                   else Ret right_idx);
      if right_idx =? idx then Ret t else min_heapify fuel right_idx (swap idx right_idx t)
  end.

(** The loop of [timer_insert]; the index shrinks. *)
Fixpoint sift_up (fuel : nat) (idx : Z) (t : timers) : outcome timers :=
  match fuel with
  | O => Fault "loop does not end"
  | S fuel =>
      if idx =? 0 then Ret t
      else
        kp ← expiration_time (entry (get_parent idx) t) t;
        ki ← expiration_time (entry idx t) t;
        if kp >? ki then sift_up fuel (get_parent idx) (swap idx (get_parent idx) t) else Ret t
  end.

Section Timers.
Context {PA : PageAllocator}.

(** [heap_array = krealloc(...)] to [heap_capacity] pointers. *)
Definition realloc_array (t : timers) : outcome timers :=
  '(a, h) ← krealloc (tm_array t) (tm_capacity t *! 8) (tm_heap t);
  Ret (set_array a (set_tm_heap h t)).

Definition timer_insert (node : Z) (t : timers) : outcome timers :=
  t ← (if tm_size t =? tm_capacity t then
         realloc_array (set_capacity (if tm_capacity t =? 0 then 3000 else s32 (Z.shiftl (tm_capacity t) 1)) t)
       else Ret t);
  let t := set_size (tm_size t + 1) t in
  let idx := tm_size t - 1 in
  let t := set_entry idx node t in
  sift_up (S (Z.to_nat idx)) idx t.

Definition timer_peek (t : timers) : outcome (word * timers) :=
  t ← lock_timers t;
  if tm_size t =? 0 then Ret (NULL, unlock_timers t)
  else
    let ret := entry 0 t in
    Ret (Ref ret, unlock_timers t).

Definition timer_pop (t : timers) : outcome (Z * timers) :=
  t ← lock_timers t;
  if tm_size t =? 0 then Panic "We should've peeked before popping anyways"
  else if tm_size t =? 1 then
    let t := unlock_timers (set_size (tm_size t - 1) t) in
    Ret (entry 0 t, t)
  else
    let root := entry 0 t in
    let t := set_entry 0 (entry (tm_size t - 1) t) t in
    let t := set_size (tm_size t - 1) t in
    t ← (if (tm_size t >? MIN_TIMER_HEAP_SIZE) && (tm_capacity t >? Z.shiftl (tm_size t) 2)
         then realloc_array (set_capacity (Z.shiftr (tm_capacity t) 1) t) else Ret t);
    t ← min_heapify (S (Z.to_nat (tm_size t))) 0 t;
    Ret (root, unlock_timers t).

(** ** Ticks *)

Definition launch (node : Z) (t : timers) : outcome timers := k ← kevent_launch node (tm_k t); Ret (set_k k t).

(** The dispatch loop takes one timer out per round. *)
Fixpoint dispatch (fuel : nat) (t : timers) : outcome timers :=
  match fuel with
  | O => Fault "loop does not end"
  | S fuel =>
      '(timer, t) ← timer_peek t;
      match timer with
      | Num _ => Ret t
      | Ref p =>
          e ← expiration_time p t;
          if e >? tm_ticks t then Ret t
          else
            '(p, t) ← timer_pop t;
            t ← launch p t;
            dispatch fuel t
      end
  end.

Definition system_timer_handler (t : timers) : outcome timers :=
  let t := set_ticks (tm_ticks t +! 1) t in
  let t := if tm_ticks t mod 1000 =? 0 then set_unix (tm_unix t +! 1) t else t in
  dispatch (S (Z.to_nat (tm_size t))) t.

(** The node's lock keeps its [old_state]. *)
Definition register_system_timer (tmr ms : Z) (t : timers) : outcome timers :=
  let '(s, IF) := preempt_fetch_disable (tm_IF t) in
  let t := set_tm_IF IF t in
  let t := set_exp (<[tmr := tm_ticks t +! ms]> (tm_exp t)) t in
  e ← get_event tmr (tm_k t);
  let e := mk_kevent 0 NULL (mk_spinlock 0 (lk_old_state (ev_lock e))) in
  let t := set_k (set_events (<[tmr := e]> (ks_events (tm_k t))) (tm_k t)) t in
  t ← timer_insert tmr t;
  Ret (set_tm_IF (preempt_restore s (tm_IF t)) t).

(** ** [scheduler_sleep_for] (kernel/src/proc/scheduler.c)

    The node is on the caller's stack at [tmr]; the thread may sleep in
    [kevents_poll]. *)

Definition scheduler_sleep_for (tmr ms : Z) (regs : jmpbuf) (t : timers) : outcome (poll * timers) :=
  t ← register_system_timer tmr ms t;
  '(r, k) ← kevents_poll [tmr] regs (tm_k t);
  match r with
  | Polled out => if negb (out =? 0) then Panic "wrong events index triggered" else Ret (r, set_k k t)
  | Asleep _ _ => Ret (r, set_k k t)
  end.
Definition sleep_for_resumed (tmr : Z) (this_thread : word) (intstate : bool) (t : timers) : outcome timers :=
  '(out, k) ← kevents_poll_resumed [tmr] this_thread intstate (tm_k t);
  if negb (out =? 0) then Panic "wrong events index triggered" else Ret (set_k k t).

End Timers.
End Timer.
