(* ===== verification/TimerSpec.v ===== *)
(** * The timer heap is a priority queue

    [arr t l]: the array holds the nodes [l].  [heap_ord key l]: no node is
    due before its parent.  Sifting a node up or down restores the order and
    permutes the nodes; the loops end. *)

From stdpp Require Import gmap sorting.
From S2P Require Import Prelude Locking Mem FrameHdr FrameAlloc PageIface Slab RunQueue Sched Kevent Timer.

Module TimerSpec.
Import Locking Mem FrameHdr FrameAlloc PageIface Slab RunQueue Sched Kevent Timer.

(** ** Heap-ordered lists *)

Definition parent (i : nat) : nat := (i - 1) `div` 2.

Section Order.
Context (key : Z -> Z).

Definition K (l : list Z) (i : nat) : Z := key (l !!! i).

Definition heap_ord (l : list Z) : Prop := forall i, (0 < i < length l)%nat -> K l (parent i) <= K l i.

(** The order holds but between [idx] and its children, or [idx] and its parent. *)
Definition hole_down (l : list Z) (idx : nat) : Prop :=
  (forall i, (0 < i < length l)%nat -> parent i <> idx -> K l (parent i) <= K l i) /\
  (forall i, (0 < i < length l)%nat -> parent i = idx -> (0 < idx)%nat -> K l (parent idx) <= K l i).
Definition hole_up (l : list Z) (idx : nat) : Prop :=
  (forall i, (0 < i < length l)%nat -> i <> idx -> K l (parent i) <= K l i) /\
  (forall i, (0 < i < length l)%nat -> parent i = idx -> (0 < idx)%nat -> K l (parent idx) <= K l i).

Definition lswap (i j : nat) (l : list Z) : list Z := <[j := l !!! i]> (<[i := l !!! j]> l).

Lemma lswap_length i j l : length (lswap i j l) = length l.
Proof. unfold lswap. by rewrite !length_insert. Qed.

Lemma lswap_lookup i j l n :
  (i < length l)%nat -> (j < length l)%nat -> lswap i j l !!! n = if decide (n = j) then l !!! i else if decide (n = i) then l !!! j else l !!! n.
Proof.
  intros Hi Hj. unfold lswap. destruct (decide (n = j)) as [->|Hnj].
  - by rewrite list_lookup_total_insert_eq by (by rewrite length_insert).
  - rewrite list_lookup_total_insert_ne by done. destruct (decide (n = i)) as [->|Hni]; [by rewrite list_lookup_total_insert_eq|by rewrite list_lookup_total_insert_ne].
Qed.

Lemma lswap_perm i j l : (i < length l)%nat -> (j < length l)%nat -> lswap i j l ≡ₚ l.
Proof.
  intros Hi Hj. destruct (lookup_lt_is_Some_2 l i Hi) as [a Ha], (lookup_lt_is_Some_2 l j Hj) as [b Hb].
  unfold lswap. rewrite (list_lookup_total_correct _ _ _ Ha), (list_lookup_total_correct _ _ _ Hb). by apply Permutation_insert_swap.
Qed.

Lemma parent_lt i : (0 < i)%nat -> (parent i < i)%nat.
Proof. intros Hi. unfold parent. pose proof (Nat.Div0.div_le_upper_bound (i - 1) 2 (i - 1)). lia. Qed.

Lemma parent_child i n : (0 < i)%nat -> parent i = n <-> i = (2 * n + 1)%nat \/ i = (2 * n + 2)%nat.
Proof. intros Hi. unfold parent. pose proof (Nat.div_mod (i - 1) 2). pose proof (Nat.mod_upper_bound (i - 1) 2). lia. Qed.

(** Swapping [idx] with its earlier child [c] moves the hole there. *)
Lemma hole_down_swap l idx c :
  hole_down l idx -> (0 < c < length l)%nat -> parent c = idx -> K l c < K l idx ->
  (forall i, (0 < i < length l)%nat -> parent i = idx -> K l c <= K l i) -> hole_down (lswap idx c l) c.
Proof.
  intros [Ha Hb] Hc Hp Hlt Hmin. pose proof (parent_lt c ltac:(lia)) as Hpc. rewrite Hp in Hpc.
  assert (forall n, K (lswap idx c l) n = if decide (n = c) then K l idx else if decide (n = idx) then K l c else K l n) as HK.
  { intros n. unfold K. rewrite lswap_lookup by lia. by destruct (decide (n = c)), (decide (n = idx)). }
  split; rewrite lswap_length.
  - intros i Hi Hpi. rewrite !HK. rewrite (decide_False (P := parent i = c)) by done.
    destruct (decide (i = c)) as [->|Hic]; [rewrite decide_True by done; lia|].
    destruct (decide (parent i = idx)) as [Hpe|Hpn].
    + rewrite decide_False; [by apply Hmin|]. intros ->. pose proof (parent_lt idx). lia.
    + destruct (decide (i = idx)) as [->|Hii]; [|by apply Ha]. apply Hb; [lia|done|lia].
  - intros i Hi Hpi Hc0. rewrite !HK. rewrite Hp. pose proof (parent_lt i ltac:(lia)). rewrite (decide_False (P := idx = c)) by lia.
    rewrite decide_True by done. rewrite (decide_False (P := i = c)) by lia. rewrite (decide_False (P := i = idx)) by lia.
    rewrite <- Hpi at 1. apply Ha; [lia|lia].
Qed.

(** Swapping [idx] with its later parent moves the hole there. *)
Lemma hole_up_swap l idx :
  hole_up l idx -> (0 < idx < length l)%nat -> K l idx < K l (parent idx) -> hole_up (lswap idx (parent idx) l) (parent idx).
Proof.
  intros [Ha Hb] Hidx Hlt. pose proof (parent_lt idx ltac:(lia)) as Hp. set (p := parent idx) in *.
  assert (forall n, K (lswap idx p l) n = if decide (n = p) then K l idx else if decide (n = idx) then K l p else K l n) as HK.
  { intros n. unfold K. rewrite lswap_lookup by lia. by destruct (decide (n = p)), (decide (n = idx)). }
  split; rewrite lswap_length.
  - intros i Hi Hne. rewrite !HK. rewrite (decide_False (P := i = p)) by done.
    destruct (decide (i = idx)) as [->|Hii]; [rewrite decide_True by done; lia|].
    destruct (decide (parent i = p)) as [Hpe|Hpn]; [specialize (Ha i Hi Hii); rewrite Hpe in Ha; lia|].
    destruct (decide (parent i = idx)) as [Hpe|_]; [|by apply Ha]. apply Hb; [lia|done|lia].
  - intros i Hi Hpi Hp0. rewrite !HK. pose proof (parent_lt p Hp0). rewrite (decide_False (P := parent p = p)) by lia.
    rewrite (decide_False (P := parent p = idx)) by lia. pose proof (parent_lt i ltac:(lia)).
    rewrite (decide_False (P := i = p)) by lia. pose proof (Ha p ltac:(lia) ltac:(lia)) as Hpp.
    destruct (decide (i = idx)) as [->|Hii]; [done|]. specialize (Ha i Hi Hii). rewrite Hpi in Ha. lia.
Qed.

Lemma hole_down_done l idx :
  hole_down l idx -> (forall i, (0 < i < length l)%nat -> parent i = idx -> K l idx <= K l i) -> heap_ord l.
Proof. intros [Ha _] Hc i Hi. destruct (decide (parent i = idx)) as [He|]; [rewrite He; by apply Hc|by apply Ha]. Qed.

Lemma hole_up_done l idx : hole_up l idx -> (idx = 0%nat \/ K l (parent idx) <= K l idx) -> heap_ord l.
Proof. intros [Ha _] Hc i Hi. destruct (decide (i = idx)) as [->|]; [destruct Hc; [lia|done]|by apply Ha]. Qed.

(** The root is due first. *)
Lemma heap_root l i : heap_ord l -> (i < length l)%nat -> K l 0 <= K l i.
Proof.
  intros Ho. induction i as [i IH] using lt_wf_ind. intros Hi. destruct (decide (i = 0%nat)) as [->|Hne]; [done|].
  pose proof (parent_lt i ltac:(lia)). etrans; [apply (IH (parent i)); lia|]. apply Ho. lia.
Qed.

End Order.

(** ** The array *)

Definition key (t : timers) (p : Z) : Z := default 0 (tm_exp t !! p).

Record arr (t : timers) (l : list Z) : Prop := {
  ar_size : tm_size t = Z.of_nat (length l);
  ar_entry : forall i p, l !! i = Some p -> entry (Z.of_nat i) t = p;
  ar_nodes : Forall (fun p => 0 <= p < 2 ^ 64 /\ is_Some (tm_exp t !! p)) l
}.

(** Only the first [n] slots of the array are written. *)
Record moved (n : Z) (t t' : timers) : Prop := {
  mv_eq : t' = set_tm_mem (tm_mem t') t;
  mv_mem : forall x, x < tm_array t \/ tm_array t + 8 * n <= x -> rd (tm_mem t') x = rd (tm_mem t) x
}.

Lemma set_tm_mem_id t : t = set_tm_mem (tm_mem t) t.
Proof. by destruct t as [[[? ? ? ? ? ? ? ? ? []]]]. Qed.

Lemma tm_mem_set m t : tm_mem (set_tm_mem m t) = m.
Proof. done. Qed.

Lemma moved_refl n t : moved n t t.
Proof. split; [apply set_tm_mem_id|done]. Qed.

Lemma moved_trans n t1 t2 t3 : moved n t1 t2 -> moved n t2 t3 -> moved n t1 t3.
Proof.
  intros [E1 M1] [E2 M2]. assert (tm_array t2 = tm_array t1) as Ha by (by rewrite E1). split.
  - rewrite E2 at 1. by rewrite E1.
  - intros x Hx. rewrite M2 by (by rewrite Ha). by apply M1.
Qed.

Lemma moved_exp n t t' : moved n t t' -> tm_exp t' = tm_exp t.
Proof. intros [E _]. by rewrite E. Qed.
Lemma moved_size n t t' : moved n t t' -> tm_size t' = tm_size t.
Proof. intros [E _]. by rewrite E. Qed.
Lemma moved_key n t t' p : moved n t t' -> key t' p = key t p.
Proof. intros H. unfold key. by rewrite (moved_exp _ _ _ H). Qed.

Lemma entry_set i j p t : 0 <= p < 2 ^ 64 -> entry j (set_entry i p t) = if decide (j = i) then p else entry j t.
Proof.
  intros Hp. unfold entry, set_entry. rewrite tm_mem_set. change (tm_array (set_tm_mem _ t)) with (tm_array t).
  destruct (decide (j = i)) as [->|Hne]; [by apply read64_write64|]. apply read64_write64_other. lia.
Qed.

Lemma set_entry_moved i p n t : 0 <= i < n -> moved n t (set_entry i p t).
Proof.
  intros Hi. split; [done|]. intros x Hx. unfold set_entry. rewrite tm_mem_set. apply write64_other. lia.
Qed.

Lemma set_entry_arr i p t l :
  arr t l -> (i < length l)%nat -> 0 <= p < 2 ^ 64 -> is_Some (tm_exp t !! p) -> arr (set_entry (Z.of_nat i) p t) (<[i := p]> l).
Proof.
  intros [Hs He Hr] Hi Hp Hkp. split.
  - change (tm_size t = Z.of_nat (length (<[i := p]> l))). by rewrite length_insert.
  - intros j q Hj. rewrite entry_set by done. destruct (decide (i = j)) as [->|Hne].
    + rewrite list_lookup_insert_eq in Hj by done. rewrite decide_True by done. congruence.
    + rewrite list_lookup_insert_ne in Hj by done. rewrite decide_False by lia. by apply He.
  - by apply Forall_insert.
Qed.

Lemma arr_lookup t l i : arr t l -> (i < length l)%nat -> entry (Z.of_nat i) t = l !!! i.
Proof. intros Ha Hi. apply (ar_entry _ _ Ha). by apply list_lookup_lookup_total_lt. Qed.

Lemma arr_node t l i : arr t l -> (i < length l)%nat -> 0 <= l !!! i < 2 ^ 64 /\ is_Some (tm_exp t !! (l !!! i)).
Proof. intros [_ _ Hn] Hi. rewrite Forall_lookup in Hn. apply (Hn i). by apply list_lookup_lookup_total_lt. Qed.

Lemma exp_entry t l i : arr t l -> (i < length l)%nat -> expiration_time (entry (Z.of_nat i) t) t = Ret (K (key t) l i).
Proof.
  intros Ha Hi. rewrite (arr_lookup _ _ _ Ha Hi). unfold expiration_time, K, key. destruct (arr_node _ _ _ Ha Hi) as [_ [e ->]]. done.
Qed.

Lemma swap_arr t l i j : arr t l -> (i < length l)%nat -> (j < length l)%nat -> arr (swap (Z.of_nat i) (Z.of_nat j) t) (lswap i j l).
Proof.
  intros Ha Hi Hj. unfold swap, lswap. rewrite (arr_lookup _ _ _ Ha Hi), (arr_lookup _ _ _ Ha Hj).
  destruct (arr_node _ _ _ Ha Hi), (arr_node _ _ _ Ha Hj). apply set_entry_arr; [by apply set_entry_arr|by rewrite length_insert|done|done].
Qed.

Lemma swap_moved i j n t : 0 <= i < n -> 0 <= j < n -> moved n t (swap i j t).
Proof. intros Hi Hj. unfold swap. eapply moved_trans; [by apply (set_entry_moved i)|by apply set_entry_moved]. Qed.

(** ** The loops *)

(** The state after sifting: heap-ordered, the same nodes. *)
Definition sifted (t : timers) (l : list Z) (t' : timers) : Prop :=
  exists l', arr t' l' /\ l' ≡ₚ l /\ heap_ord (key t) l' /\ moved (Z.of_nat (length l)) t t'.

Lemma sifted_swap t l i j t' :
  arr t l -> (i < length l)%nat -> (j < length l)%nat -> sifted (swap (Z.of_nat i) (Z.of_nat j) t) (lswap i j l) t' -> sifted t l t'.
Proof.
  intros Ha Hi Hj (l' & Ha' & Hp & Ho & Hm). rewrite lswap_length in Hm.
  exists l'. split; [done|]. split; [by rewrite Hp, lswap_perm|]. split; [done|].
  eapply moved_trans; [|exact Hm]. apply swap_moved; lia.
Qed.

Lemma get_child_nat i d : get_child (Z.of_nat i) (Z.of_nat d) = Z.of_nat (2 * i + d).
Proof. unfold get_child. rewrite Z.shiftl_mul_pow2 by lia. lia. Qed.

Lemma get_parent_nat i : (0 < i)%nat -> get_parent (Z.of_nat i) = Z.of_nat (parent i).
Proof.
  intros Hi. unfold get_parent, parent. rewrite Z.shiftr_div_pow2 by lia. rewrite Nat2Z.inj_div. do 2 f_equal. lia.
Qed.

(** The earlier of [best] and the child [c], if there is one. *)
Lemma pick_child t l best c :
  arr t l -> (best < length l)%nat ->
  (if Z.of_nat c <? tm_size t then
     kc ← expiration_time (entry (Z.of_nat c) t) t;
     ki ← expiration_time (entry (Z.of_nat best) t) t;
     Ret (if kc <? ki then Z.of_nat c else Z.of_nat best)
   else Ret (Z.of_nat best)) =
  Ret (Z.of_nat (if decide ((c < length l)%nat /\ K (key t) l c < K (key t) l best) then c else best)).
Proof.
  intros Ha Hb. rewrite (ar_size _ _ Ha). destruct (Z.ltb_spec (Z.of_nat c) (Z.of_nat (length l))) as [Hc|Hc].
  - rewrite (exp_entry t l c) by (done || lia). rewrite (exp_entry t l best) by done. cbn [mbind outcome_bind].
    destruct (Z.ltb_spec (K (key t) l c) (K (key t) l best)); [rewrite decide_True by lia|rewrite decide_False by lia]; done.
  - rewrite decide_False by lia. done.
Qed.

Lemma min_heapify_spec fuel : forall idx t l,
  arr t l -> hole_down (key t) l idx -> (idx < length l)%nat -> (length l - idx <= fuel)%nat ->
  returns (min_heapify fuel (Z.of_nat idx) t) (sifted t l).
Proof.
  induction fuel as [|fuel IH]; intros idx t l Ha Hh Hi Hf; [lia|]. cbn [min_heapify].
  change TIMER_NODE_LEFT with (Z.of_nat 1). change TIMER_NODE_RIGHT with (Z.of_nat 2). rewrite !get_child_nat.
  rewrite (pick_child t l idx (2 * idx + 1) Ha Hi). cbn [mbind outcome_bind].
  set (b1 := if decide _ then _ else _). assert (b1 < length l)%nat as Hb1 by (unfold b1; destruct (decide _); lia).
  rewrite (pick_child t l b1 (2 * idx + 2) Ha Hb1). cbn [mbind outcome_bind]. set (b2 := if decide _ then _ else _).
  assert (b2 < length l /\ (b2 = idx \/ b2 = 2 * idx + 1 \/ b2 = 2 * idx + 2))%nat as [Hb2 Hc].
  { unfold b2, b1 in *. destruct (decide _), (decide _); lia. }
  assert (forall i, (0 < i < length l)%nat -> parent i = idx -> K (key t) l b2 <= K (key t) l i) as Hmin.
  { intros i Hi' Hp. apply parent_child in Hp; [|lia]. unfold b2, b1 in *. clear -Hi' Hp. destruct Hp as [->| ->]; repeat case_decide; lia. }
  assert (K (key t) l b2 <= K (key t) l idx /\ (b2 <> idx -> K (key t) l b2 < K (key t) l idx)) as [Hle Hlt].
  { unfold b2, b1 in *. repeat case_decide; lia. }
  clearbody b2. destruct (Z.eqb_spec (Z.of_nat b2) (Z.of_nat idx)) as [Heq|Hne].
  - apply Nat2Z.inj in Heq as ->. exists l. split; [done|]. split; [done|]. split; [by eapply hole_down_done|apply moved_refl].
  - assert (b2 <> idx) as Hne' by lia. eapply returns_mono; [|intros t'; by apply (sifted_swap t l idx b2)].
    pose proof (swap_moved (Z.of_nat idx) (Z.of_nat b2) (Z.of_nat (length l)) t ltac:(lia) ltac:(lia)) as Hmv.
    apply (IH b2).
    + by apply swap_arr.
    + assert (parent b2 = idx) as Hpb by (apply parent_child; lia).
      destruct (hole_down_swap (key t) l idx b2 Hh ltac:(lia) Hpb (Hlt Hne') Hmin) as [H1 H2].
      split; intros i; unfold K; rewrite !(moved_key _ _ _ _ Hmv); [apply H1|apply H2].
    + by rewrite lswap_length.
    + rewrite lswap_length. lia.
Qed.

Lemma sift_up_spec fuel : forall idx t l,
  arr t l -> hole_up (key t) l idx -> (idx < length l)%nat -> (idx < fuel)%nat -> returns (sift_up fuel (Z.of_nat idx) t) (sifted t l).
Proof.
  induction fuel as [|fuel IH]; intros idx t l Ha Hh Hi Hf; [lia|]. cbn [sift_up].
  assert (hole_up (key t) l idx -> idx = 0%nat \/ K (key t) l (parent idx) <= K (key t) l idx -> sifted t l t) as Hdone.
  { intros _ Hc. exists l. split; [done|]. split; [done|]. split; [by eapply hole_up_done|apply moved_refl]. }
  destruct (Z.eqb_spec (Z.of_nat idx) 0) as [Hz|Hz]; [apply Hdone; [done|left; lia]|].
  rewrite get_parent_nat by lia. pose proof (parent_lt idx ltac:(lia)) as Hp.
  rewrite (exp_entry t l (parent idx)), (exp_entry t l idx) by (done || lia). cbn [mbind outcome_bind].
  destruct (Z.gtb_spec (K (key t) l (parent idx)) (K (key t) l idx)) as [Hgt|Hle]; [|apply Hdone; [done|by right]].
  eapply returns_mono; [|intros t'; apply (sifted_swap t l idx (parent idx)); [done|lia|lia]].
  pose proof (swap_moved (Z.of_nat idx) (Z.of_nat (parent idx)) (Z.of_nat (length l)) t ltac:(lia) ltac:(lia)) as Hmv.
  apply (IH (parent idx)); [apply swap_arr; [done|lia|lia]| |rewrite lswap_length; lia|lia].
  destruct (hole_up_swap (key t) l idx Hh ltac:(lia) Hgt) as [H1 H2].
  split; intros i; unfold K; rewrite !(moved_key _ _ _ _ Hmv); [apply H1|apply H2].
Qed.

(** ** Insertion and removal *)

Record queue (t : timers) (l : list Z) : Prop := {
  qu_arr : arr t l;
  qu_ord : heap_ord (key t) l;
  qu_lock : unlocked (tm_lock t)
}.

(** Size, lock and the first [n] slots of the array have changed. *)
Record within (n : Z) (t t' : timers) : Prop := {
  wi_eq : t' = set_size (tm_size t') (set_tm_lock (tm_lock t') (set_tm_mem (tm_mem t') t));
  wi_mem : forall x, x < tm_array t \/ tm_array t + 8 * n <= x -> rd (tm_mem t') x = rd (tm_mem t) x
}.

Lemma arr_prefix t l x : arr t (l ++ x) -> arr (set_size (Z.of_nat (length l)) t) l.
Proof.
  intros [_ He Hn]. split; [done| |by apply Forall_app in Hn as [? _]]. intros i p Hi.
  change (entry (Z.of_nat i) t = p). apply He. by apply lookup_app_l_Some.
Qed.

Lemma arr_snoc t l p :
  arr t l -> 0 <= p < 2 ^ 64 -> is_Some (tm_exp t !! p) ->
  arr (set_entry (Z.of_nat (length l)) p (set_size (Z.of_nat (length l) + 1) t)) (l ++ [p]).
Proof.
  intros [Hs He Hn] Hp Hk. split.
  - change (Z.of_nat (length l) + 1 = Z.of_nat (length (l ++ [p]))). rewrite length_app. simpl. lia.
  - intros i q Hi. rewrite entry_set by done. apply lookup_snoc_Some in Hi as [[Hlt Hi]|[-> ->]].
    + rewrite decide_False by lia. by apply He.
    + by rewrite decide_True.
  - apply Forall_app. split; [done|]. by constructor.
Qed.

Lemma heap_ord_ext k1 k2 l : (forall p, k1 p = k2 p) -> heap_ord k1 l -> heap_ord k2 l.
Proof. intros He Ho i Hi. unfold K. rewrite <- !He. by apply Ho. Qed.

Lemma K_app_l kf l x i : (i < length l)%nat -> K kf (l ++ x) i = K kf l i.
Proof. intros Hi. unfold K. by rewrite lookup_total_app_l. Qed.

Lemma lock_timers_ret t : unlocked (tm_lock t) -> lock_timers t = Ret (set_tm_IF false (set_tm_lock (mk_spinlock 1 (tm_IF t)) t)).
Proof. intros Hu. unfold lock_timers. rewrite (Seq.spin_lock_global_ret _ _ Hu). done. Qed.

Lemma unlock_timers_ret t b : tm_IF t = false -> tm_lock t = mk_spinlock 1 b -> unlock_timers t = set_tm_IF b (set_tm_lock (mk_spinlock 0 b) t).
Proof. intros HIF Hl. unfold unlock_timers. rewrite HIF, Hl, Seq.spin_unlock_global_ret. done. Qed.

Section Ops.
Context {PA : PageAllocator}.

Lemma insert_spec t l node :
  queue t l -> tm_size t < tm_capacity t -> 0 <= node < 2 ^ 64 -> is_Some (tm_exp t !! node) ->
  returns (timer_insert node t) (fun t' => exists l', queue t' l' /\ l' ≡ₚ node :: l /\ within (Z.of_nat (length l) + 1) t t' /\ tm_lock t' = tm_lock t).
Proof.
  intros [Ha Ho Hu] Hcap Hp Hk. unfold timer_insert. destruct (Z.eqb_spec (tm_size t) (tm_capacity t)); [lia|]. cbn [mbind outcome_bind].
  change (tm_size (set_size (tm_size t + 1) t) - 1) with (tm_size t + 1 - 1). rewrite Z.add_simpl_r. rewrite !(ar_size _ _ Ha).
  set (t1 := set_entry _ node _). assert (arr t1 (l ++ [node])) as Ha1 by (by apply arr_snoc). rewrite Nat2Z.id.
  eapply returns_mono; [apply (sift_up_spec (S (length l)) (length l) t1 (l ++ [node]) Ha1)|].
  - change (key t1) with (key t). split.
    + intros i [Hi0 Hi] Hne. rewrite length_app in Hi. simpl in Hi. pose proof (parent_lt i Hi0).
      rewrite !K_app_l by lia. apply Ho. lia.
    + intros i [Hi0 Hi] Hpi. rewrite length_app in Hi. simpl in Hi. pose proof (parent_lt i Hi0). lia.
  - rewrite length_app. simpl. lia.
  - lia.
  - intros t' (l' & Ha' & Hperm & Ho' & [Hm1 Hm2]). assert (tm_lock t' = tm_lock t) as Hlk by (by rewrite Hm1).
    exists l'. split; [split; [done| |by rewrite Hlk]|split; [by rewrite Hperm, Permutation_app_comm|split; [split|done]]].
    + eapply heap_ord_ext; [|exact Ho']. intros p. unfold key. by rewrite Hm1.
    + rewrite Hm1. cbn. rewrite Hm1. unfold t1, set_entry. by destruct t as [[[? ? ? ? ? ? ? ? ? []]]].
    + rewrite length_app in Hm2. intros x Hx. rewrite Hm2 by (simpl; simpl in Hx; change (tm_array t1) with (tm_array t); lia).
      unfold t1, set_entry. rewrite tm_mem_set. apply write64_other. change (tm_array (set_size _ t)) with (tm_array t). lia.
Qed.

(** No room is given back: few timers are left, or the array is not large. *)
Definition stays (t : timers) (n : Z) : Prop := n <= MIN_TIMER_HEAP_SIZE \/ tm_capacity t <= 4 * n.

(** The locked part for two and more timers: the last replaces the first. *)
Lemma pop_body t a mid b :
  arr t (a :: mid ++ [b]) -> heap_ord (key t) (a :: mid ++ [b]) ->
  let t1 := set_size (Z.of_nat (S (length mid))) (set_entry 0 b t) in
  returns (min_heapify (S (S (length mid))) 0 t1) (sifted t1 (b :: mid)).
Proof.
  intros Ha Ho t1. assert (arr t1 (b :: mid)) as Ha1.
  { destruct (arr_node t _ (S (length mid)) Ha) as [Hb Hkb]; [simpl; rewrite length_app; simpl; lia|].
    replace ((a :: mid ++ [b]) !!! S (length mid)) with b in * by (simpl; by rewrite list_lookup_total_middle).
    apply (arr_prefix _ (b :: mid) [b]). exact (set_entry_arr 0 b t _ Ha ltac:(simpl; lia) Hb Hkb). }
  apply (min_heapify_spec _ 0 t1 (b :: mid) Ha1); [|simpl; lia|simpl; lia]. change (key t1) with (key t). split; [|lia].
  intros i [Hi0 Hi] Hp. assert (forall j, (0 < j < length (b :: mid))%nat -> K (key t) (b :: mid) j = K (key t) (a :: mid ++ [b]) j) as HK.
  { intros [|j] Hj; [lia|]. unfold K. simpl in *. rewrite lookup_total_app_l by lia. done. }
  pose proof (parent_lt i Hi0). rewrite !HK by lia. apply Ho. simpl in *. rewrite length_app. lia.
Qed.

Lemma pop_spec t l :
  queue t l -> l <> [] -> stays t (Z.of_nat (length l) - 1) ->
  returns (timer_pop t) (fun '(root, t') => exists l', queue t' l' /\ l ≡ₚ root :: l' /\ within (Z.of_nat (length l)) t t' /\
    (forall p, p ∈ l -> key t root <= key t p)).
Proof.
  intros [Ha Ho Hu] Hne Hst. unfold timer_pop. rewrite (lock_timers_ret t Hu). cbn [mbind outcome_bind].
  set (t0 := set_tm_IF false _). assert (arr t0 l) as Ha0 by (by destruct Ha).
  assert (forall p, p ∈ l -> key t (l !!! 0%nat) <= key t p) as Hroot.
  { intros p [i Hi]%list_elem_of_lookup. rewrite <- (list_lookup_total_correct _ _ _ Hi).
    apply (heap_root (key t) l i Ho). by eapply lookup_lt_Some. }
  change (tm_size t0) with (tm_size t). rewrite (ar_size _ _ Ha).
  destruct l as [|a l]; [done|]. simpl in Hroot. destruct (Z.eqb_spec (Z.of_nat (length (a :: l))) 0); [simpl in *; lia|].
  pose proof (ar_entry _ _ Ha0 0%nat a eq_refl) as Hea. change (Z.of_nat 0) with 0 in Hea.
  destruct l as [|b mid _] using rev_ind.
  - change (Z.of_nat (length [a])) with 1. cbn [Z.eqb Pos.eqb]. rewrite (unlock_timers_ret (set_size (1 - 1) t0) (tm_IF t)) by done. cbn [returns].
    set (t' := set_tm_IF _ _). change (entry 0 t') with (entry 0 t0). rewrite Hea. exists [].
    split; [split; [split; [done|done|constructor]|intros i Hi; simpl in Hi; lia|done]|]. split; [done|]. split; [split|done].
    + by destruct t as [[[? ? ? ? ? ? ? ? ? [[]]]]].
    + done.
  - assert (Z.of_nat (length (a :: mid ++ [b])) = Z.of_nat (S (length mid)) + 1) as Hlen by (simpl; rewrite length_app; simpl; lia).
    rewrite Hlen in *. destruct (Z.eqb_spec (Z.of_nat (S (length mid)) + 1) 1); [lia|]. rewrite Z.add_simpl_r in *.
    assert (entry (Z.of_nat (S (length mid))) t0 = b) as Heb by (apply (ar_entry _ _ Ha0); simpl; by rewrite list_lookup_middle).
    rewrite Hea, Heb. change (tm_size (set_entry 0 b t0)) with (tm_size t). rewrite (ar_size _ _ Ha), Hlen, Z.add_simpl_r.
    set (t1 := set_size _ (set_entry 0 b t0)). change (tm_size t1) with (Z.of_nat (S (length mid))). change (tm_capacity t1) with (tm_capacity t).
    replace (_ && _) with false.
    2:{ symmetry. apply andb_false_iff. rewrite Z.shiftl_mul_pow2 by lia. destruct Hst; [left|right]; rewrite Z.gtb_ltb; apply Z.ltb_ge; lia. }
    cbn [mbind outcome_bind]. change (tm_size t1) with (Z.of_nat (S (length mid))). rewrite Nat2Z.id.
    mcall (pop_body t0 a mid b Ha0 Ho). intros t2 (l' & Ha2 & Hp2 & Ho2 & [Hm1 Hm2]). fold t1 in Hm1, Hm2.
    rewrite (unlock_timers_ret t2 (tm_IF t)) by (by rewrite Hm1). cbn [returns]. exists l'.
    split; [split; [by destruct Ha2|eapply heap_ord_ext; [|exact Ho2]; intros p; unfold key; by rewrite Hm1|done]|].
    split; [by rewrite Hp2, Permutation_app_comm|]. split; [split|done].
    + rewrite Hm1. by destruct t as [[[? ? ? ? ? ? ? ? ? [[]]]]].
    + intros x Hx. change (rd (tm_mem t2) x = rd (tm_mem t) x). rewrite Hm2 by (simpl length; change (tm_array t1) with (tm_array t); lia).
      unfold t1, set_entry. change (rd (write64 (tm_array t + 8 * 0) b (tm_mem t)) x = rd (tm_mem t) x). apply write64_other. lia.
Qed.

End Ops.
End TimerSpec.
