(* ===== verification/TimerTheorems.v ===== *)
(** * Theorems about the system timers

    The array is a priority queue while it is not reallocated; a tick takes
    out and launches exactly the timers that are due, and the threads waiting
    for them become ready.  Two limits of the code follow: shrinking the array
    loses it, and a timer that expires before its thread waits panics. *)

From stdpp Require Import gmap sorting functions.
From S2P Require Import Prelude Dll Locking Mem FrameHdr FrameAlloc PageIface Slab HeapTheorems RunQueue RunQueueSpec Sched SchedSpec Kevent SchedTasks SchedProof SchedTheorems KeventSpec KeventTheorems Timer TimerSpec.

Module TimerTheorems.
Import Locking Mem FrameHdr FrameAlloc PageIface Slab RunQueue Sched SchedSpec Kevent SchedTasks SchedProof SchedTheorems KeventSpec KeventTheorems Timer TimerSpec.

Section Theorems.
Context {PA : PageAllocator}.

(** [timer_pop] takes out a timer that is due no later than any other and
    leaves a heap of the rest; only the array and the size change, and the
    lock and the interrupt flag are as before. *)
Theorem timer_pop_min t l :
  queue t l -> l <> [] -> stays t (Z.of_nat (length l) - 1) ->
  returns (timer_pop t) (fun '(root, t') => exists l', queue t' l' /\ l ≡ₚ root :: l' /\ within (Z.of_nat (length l)) t t' /\
    forall p, p ∈ l -> key t root <= key t p).
Proof. apply pop_spec. Qed.

(** [timer_insert] with room in the array ends and makes a heap of the old
    timers and the new one; only the array and the size change. *)
Theorem timer_insert_heap t l node :
  queue t l -> tm_size t < tm_capacity t -> 0 <= node < 2 ^ 64 -> is_Some (tm_exp t !! node) ->
  returns (timer_insert node t) (fun t' => exists l', queue t' l' /\ l' ≡ₚ node :: l /\ within (Z.of_nat (length l) + 1) t t').
Proof.
  intros Hq Hc Hp Hk. eapply returns_mono; [by apply (insert_spec t l node)|]. intros t' (l' & ? & ? & ? & _). by exists l'.
Qed.

(** C24: [min_heapify] ends: from any index, on any heap that is in order but
    for that node, as many rounds as there are timers from the index on are
    enough, and they leave the same timers in order. *)
Theorem min_heapify_terminates t l idx :
  arr t l -> hole_down (key t) l idx -> (idx < length l)%nat ->
  returns (min_heapify (length l - idx) (Z.of_nat idx) t) (sifted t l).
Proof. intros Ha Hh Hi. by apply min_heapify_spec. Qed.

(** ** Ticks *)

(** The scheduler and the events do not look at memory. *)
Lemma good_heap k Q c h : good k Q c -> good (set_sched (Sched.set_heap h (ks_sched k)) k) Q c.
Proof.
  intros [[[[Hr Hd] Hro Hi] ? ? ? ? ?] Hp]. by split; [split|].
Qed.

(** The timers, the scheduler and the events are consistent, and every timer
    that is due by [now] has waiting threads. *)
Record ticking (t : timers) (l : list Z) (W : Z -> list word) (n : nat) (Q : qname -> list Z) (c : Z) : Prop := {
  ti_queue : queue t l;
  ti_nodup : NoDup l;
  ti_few : (length l <= 65)%nat;
  ti_good : good (tm_k t) Q c;
  ti_abs : kev_abs (tm_k t) W n;
  ti_unheld : unheld (tm_k t);
  ti_waited : forall p, p ∈ l -> key t p <= tm_ticks t -> is_Some (pend (tm_k t) p) /\
    exists ts, W p = Ref <$> ts /\ ts <> [] /\ forall a, a ∈ ts -> is_Some (info (ks_sched (tm_k t)) !! a)
}.

(** What a tick does to the tasks: those waiting for a timer of [due] wake. *)
Definition woken_by (W : Z -> list word) (due : list Z) (I I' : store) : Prop :=
  forall a, I' !! a = (if decide (Exists (fun p => Ref a ∈ W p) due) then wake_task <$> I !! a else I !! a).

Lemma peek_spec t l :
  queue t l -> timer_peek t = Ret (match l with [] => NULL | p :: _ => Ref p end, set_tm_lock (mk_spinlock 0 (tm_IF t)) t).
Proof.
  intros [Ha _ Hu]. unfold timer_peek. rewrite (lock_timers_ret t Hu). cbn [mbind outcome_bind].
  set (t0 := set_tm_IF false _). rewrite (unlock_timers_ret t0 (tm_IF t)) by done.
  assert (set_tm_IF (tm_IF t) (set_tm_lock (mk_spinlock 0 (tm_IF t)) t0) = set_tm_lock (mk_spinlock 0 (tm_IF t)) t) as ->.
  { by destruct t as [[[? ? ? ? ? ? ? ? ? [[]]]]]. }
  change (tm_size t0) with (tm_size t). rewrite (ar_size _ _ Ha). destruct l as [|p l]; [done|].
  destruct (Z.eqb_spec (Z.of_nat (length (p :: l))) 0); [simpl in *; lia|]. do 2 f_equal. f_equal.
  change (entry 0 t0) with (entry (Z.of_nat 0) t). by apply (ar_entry _ _ Ha).
Qed.

Lemma ticking_lock t l W n Q c b : ticking t l W n Q c -> ticking (set_tm_lock (mk_spinlock 0 b) t) l W n Q c.
Proof. intros [[Ha Ho _] ? ? ? ? ? ?]. split; try done. split; [|done|done]. by destruct Ha. Qed.

(** Removing [root] and launching it. *)
Lemma tick_spec t l W n Q c root l' t' :
  ticking t l W n Q c -> queue t' l' -> l ≡ₚ root :: l' -> within (Z.of_nat (length l)) t t' -> key t root <= tm_ticks t ->
  returns (launch root t') (fun t'' => exists Q', ticking t'' l' W n Q' c /\ tm_ticks t'' = tm_ticks t /\ tm_exp t'' = tm_exp t /\ tm_unix t'' = tm_unix t /\
    woken_by W [root] (info (ks_sched (tm_k t))) (info (ks_sched (tm_k t'')))).
Proof.
  intros [Hq Hnd Hfew Hg Habs Hun Hw] Hq' Hperm [Heq _] Hdue.
  assert (root ∈ l) as Hin by (rewrite Hperm; left). destruct (Hw root Hin Hdue) as ([p Hp] & ts & HW & Hne & Hex).
  assert (tm_k t' = set_sched (Sched.set_heap (tm_heap t') (ks_sched (tm_k t))) (tm_k t)) as Hk by (by rewrite Heq).
  assert (tm_exp t' = tm_exp t /\ tm_ticks t' = tm_ticks t /\ tm_unix t' = tm_unix t) as (Hexp & Htk & Hux) by (by rewrite Heq).
  assert (info (ks_sched (tm_k t')) = info (ks_sched (tm_k t))) as Hi by (by rewrite Hk).
  assert (forall x, pend (tm_k t') x = pend (tm_k t) x) as Hpd by (intros x; by rewrite Hk).
  unfold launch. mcall (launch_spec (tm_k t') W n Q c root p ts).
  - rewrite Hk. by apply good_heap.
  - rewrite Hk. by apply kev_abs_sched.
  - rewrite Hk. exact Hun.
  - by rewrite Hpd.
  - done.
  - done.
  - intros a Ha. rewrite Hi. by apply Hex.
  - intros k ((Q' & Hg') & Habs' & Hun' & Hr & Hi' & Hc & Hc'). cbn [returns]. exists Q'. rewrite Hi in Hi'.
    assert (forall a, info (ks_sched k) !! a = if decide (a ∈ ts) then wake_task <$> info (ks_sched (tm_k t)) !! a else info (ks_sched (tm_k t)) !! a) as Hia
      by (intros a; by rewrite Hi', all_woken).
    rewrite Hperm in Hnd. apply NoDup_cons in Hnd as [Hnr Hnd]. apply Permutation_length in Hperm as Hlen. simpl in Hlen.
    split; [split|split_and!; try done].
    + destruct Hq' as [[Hs He Hn] ? ?]. split; [|done|done]. split; [done| |done]. intros i x Hx. rewrite <- (He i x Hx).
      unfold entry, tm_mem, tm_heap. cbn. by rewrite (rest_heap _ _ Hr).
    + done.
    + lia.
    + done.
    + done.
    + done.
    + intros x Hx Hkx. unfold key in Hkx. cbn in Hkx. rewrite Hexp, Htk in Hkx.
      destruct (Hw x ltac:(rewrite Hperm; by right) Hkx) as (Hpx & tx & HWx & Hnx & Hexx). split.
      * cbn. destruct (decide (x = root)) as [->|Hxr]; [by destruct Hnr|]. by rewrite Hc', Hpd.
      * exists tx. split; [done|]. split; [done|]. intros a Ha. cbn. rewrite Hia. destruct (Hexx a Ha) as [ta ->]. destruct (decide _); by eexists.
    + intros a. cbn. rewrite Hia. destruct (decide (a ∈ ts)) as [Ha|Ha], (decide (Exists (fun p => Ref a ∈ W p) [root])) as [He|He]; try done.
      * destruct He. apply Exists_cons_hd. rewrite HW. by apply list_elem_of_fmap_2.
      * destruct Ha. apply Exists_cons in He as [He|He]; [|by apply Exists_nil in He]. rewrite HW in He.
        apply list_elem_of_fmap in He as (b & [= ->] & Hb). done.
Qed.

Lemma woken_by_trans W d1 d2 I1 I2 I3 : woken_by W d1 I1 I2 -> woken_by W d2 I2 I3 -> woken_by W (d1 ++ d2) I1 I3.
Proof.
  intros H1 H2 a. rewrite H2, H1. destruct (decide (Exists _ (d1 ++ d2))) as [He|He]; rewrite Exists_app in He;
    destruct (decide (Exists _ d1)), (decide (Exists _ d2)); try (done || tauto).
  destruct (I1 !! a); [|done]. simpl. by rewrite wake_task_idem.
Qed.

Lemma dispatch_spec W n c : forall l fuel t Q,
  ticking t l W n Q c -> (length l < fuel)%nat ->
  returns (dispatch fuel t) (fun t' => exists due l' Q', l ≡ₚ due ++ l' /\ ticking t' l' W n Q' c /\
    (forall p, p ∈ due -> key t p <= tm_ticks t) /\ (forall p, p ∈ l' -> tm_ticks t < key t p) /\
    tm_ticks t' = tm_ticks t /\ tm_unix t' = tm_unix t /\
    woken_by W due (info (ks_sched (tm_k t))) (info (ks_sched (tm_k t')))).
Proof.
  intros l fuel. revert l. induction fuel as [|fuel IH]; intros l t Q Ht Hf; [lia|]. cbn [dispatch].
  rewrite (peek_spec t l (ti_queue _ _ _ _ _ _ Ht)). cbn [mbind outcome_bind].
  apply (ticking_lock _ _ _ _ _ _ (tm_IF t)) in Ht as Ht1. set (t1 := set_tm_lock _ t) in *.
  assert (forall l', l' = l -> (forall p, p ∈ l' -> tm_ticks t < key t p) -> exists due l' Q', l ≡ₚ due ++ l' /\ ticking t1 l' W n Q' c /\
    (forall p, p ∈ due -> key t p <= tm_ticks t) /\ (forall p, p ∈ l' -> tm_ticks t < key t p) /\ tm_ticks t1 = tm_ticks t /\ tm_unix t1 = tm_unix t /\
    woken_by W due (info (ks_sched (tm_k t))) (info (ks_sched (tm_k t1)))) as Hstop.
  { intros l' -> Hl. exists [], l, Q. split_and!; try done. by intros p ?%elem_of_nil. }
  destruct l as [|p l]; [apply (Hstop []); [done|by intros p ?%elem_of_nil]|].
  pose proof (ti_queue _ _ _ _ _ _ Ht1) as Hq1.
  assert (expiration_time p t1 = Ret (key t p)) as ->.
  { destruct (arr_node _ _ 0 (qu_arr _ _ Hq1)) as [_ [e He]]; [simpl; lia|]. simpl in He. unfold expiration_time, key. cbn in *. by rewrite He. }
  cbn [mbind outcome_bind]. change (tm_ticks t1) with (tm_ticks t).
  assert (forall q, q ∈ p :: l -> key t p <= key t q) as Hmin.
  { intros q [i Hi]%list_elem_of_lookup. rewrite <- (list_lookup_total_correct _ _ _ Hi).
    apply (heap_root (key t1) (p :: l) i (qu_ord _ _ Hq1)). by eapply lookup_lt_Some. }
  destruct (Z.gtb_spec (key t p) (tm_ticks t)) as [Hgt|Hle].
  { apply (Hstop (p :: l) eq_refl). intros q Hq. specialize (Hmin q Hq). lia. }
  pose proof (ti_few _ _ _ _ _ _ Ht1) as Hfew.
  mcall (pop_spec t1 (p :: l) Hq1 ltac:(done) ltac:(left; unfold MIN_TIMER_HEAP_SIZE; simpl in *; lia)). intros [root t2] (l' & Hq2 & Hperm & Hwi & Hrt).
  assert (key t root <= tm_ticks t) as Hdue by (specialize (Hrt p ltac:(left)); change (key t1) with (key t) in Hrt; lia).
  mcall (tick_spec t1 (p :: l) W n Q c root l' t2 Ht1 Hq2 Hperm Hwi Hdue). intros t3 (Q3 & Ht3 & Htk & Hexp & Hux & Hw3).
  assert (forall q, key t3 q = key t q) as Hkey by (intros q; unfold key; by rewrite Hexp). apply Permutation_length in Hperm as Hlen. simpl in Hlen, Hf.
  eapply returns_mono; [apply (IH l' t3 Q3 Ht3); lia|]. intros t' (due & l2 & Q' & Hp' & Ht' & Hd1 & Hd2 & Htk' & Hux' & Hw').
  rewrite Htk in *. exists (root :: due), l2, Q'. split_and!; try done.
  - by rewrite Hperm, Hp'.
  - intros q [->|Hq]%elem_of_cons; [done|]. rewrite <- Hkey. by apply Hd1.
  - intros q Hq. rewrite <- Hkey. by apply Hd2.
  - by rewrite Hux', Hux.
  - exact (woken_by_trans W [root] due _ _ _ Hw3 Hw').
Qed.

(** C23: one tick of the system timer, with at most 65 timers and a thread
    waiting for every timer that is due.  The tick counter goes up; the handler
    ends, having taken out exactly the timers whose time has come; the threads
    waiting for them are ready, no other task has changed, and timers, events
    and scheduler are consistent again. *)
Theorem system_timer_handler_correct t l W n Q c :
  ticking (set_ticks (tm_ticks t +! 1) t) l W n Q c ->
  returns (system_timer_handler t) (fun t' => exists due l' Q', l ≡ₚ due ++ l' /\ ticking t' l' W n Q' c /\
    tm_ticks t' = tm_ticks t +! 1 /\ (forall p, p ∈ due -> key t p <= tm_ticks t') /\ (forall p, p ∈ l' -> tm_ticks t' < key t p) /\
    tm_unix t' = (if tm_ticks t' mod 1000 =? 0 then tm_unix t +! 1 else tm_unix t) /\
    woken_by W due (info (ks_sched (tm_k t))) (info (ks_sched (tm_k t')))).
Proof.
  intros Ht. unfold system_timer_handler. set (t1 := set_ticks _ t) in *. cbv zeta. set (t2 := if tm_ticks t1 mod 1000 =? 0 then set_unix (tm_unix t1 +! 1) t1 else t1).
  assert (ticking t2 l W n Q c) as Ht2.
  { unfold t2. destruct (_ =? 0); [|done]. destruct Ht as [[[] ? ?] ? ? ? ? ? ?]. split; try done. }
  assert (tm_ticks t2 = tm_ticks t +! 1 /\ (forall p, key t2 p = key t p) /\ tm_k t2 = tm_k t /\
          tm_unix t2 = if tm_ticks t2 mod 1000 =? 0 then tm_unix t +! 1 else tm_unix t) as (Htk & Hkey & Hk & Hux).
  { unfold t2. change (tm_ticks t1) with (tm_ticks t +! 1). destruct (Z.eqb_spec ((tm_ticks t +! 1) mod 1000) 0) as [He|He]; split_and!; try done.
    - cbn. by rewrite (proj2 (Z.eqb_eq _ _) He).
    - cbn. by rewrite (proj2 (Z.eqb_neq _ _) He). }
  clearbody t2. eapply returns_mono; [apply (dispatch_spec W n c l _ t2 Q Ht2)|].
  - rewrite (ar_size _ _ (qu_arr _ _ (ti_queue _ _ _ _ _ _ Ht2))). lia.
  - intros t' (due & l' & Q' & Hp & Ht' & Hd1 & Hd2 & Htk' & Hux' & Hw). rewrite Hk in Hw. exists due, l', Q'. rewrite Hux', Htk', Htk in *.
    split_and!; try done; intros p Hpp; rewrite <- Hkey; auto.
Qed.

End Theorems.
(** ** Two timers

    On the core of [SchedTheorems.Sample]: task 5 sleeps until timer 100, due
    at tick 5; timer 200 is due at tick 7. *)
Module Sample.
Import SchedTheorems.Sample.

Definition array : Z := 4096.
Definition mem0 : mem := write64 (array + 8) 200 (write64 array 100 ∅).
Definition ks0 : kstate :=
  mk_kstate (Sched.set_heap (bss_heap (bss_mm false) mem0 0) sched0) (<[10 := mk_sub NULL NULL (Ref 100) (Ref 5)]> ∅) NULL
    (<[100 := mk_kevent 0 (Ref 10) free_lock]> (<[200 := mk_kevent 0 NULL free_lock]> (<[300 := mk_kevent 0 NULL free_lock]> ∅))).
Definition tm0 : timers := mk_timers ks0 array 10 2 free_lock (<[100 := 5]> (<[200 := 7]> (<[300 := 6]> ∅))) 4 0.

Lemma queue0 : queue tm0 [100; 200].
Proof.
  split; [split|..]; try done.
  - intros [|[|i]] p [= <-]; vm_compute; reflexivity.
  - constructor; [split; [lia|vm_compute; by eexists]|]. constructor; [split; [lia|vm_compute; by eexists]|constructor].
  - intros [|[|i]] Hi; simpl in Hi; try lia. vm_compute. discriminate.
Qed.

Lemma timer_pop_min_witness :
  returns (timer_pop tm0) (fun '(root, t') => exists l', queue t' l' /\ [100; 200] ≡ₚ root :: l' /\ within 2 tm0 t' /\
    forall p, p ∈ [100; 200] -> key tm0 root <= key tm0 p).
Proof. apply (timer_pop_min tm0 [100; 200] queue0); [done|]. left. vm_compute. discriminate. Defined.

Lemma timer_insert_heap_witness :
  returns (timer_insert 300 tm0) (fun t' => exists l', queue t' l' /\ l' ≡ₚ [300; 100; 200] /\ within 3 tm0 t').
Proof. apply (timer_insert_heap tm0 [100; 200] 300 queue0); [done|lia|vm_compute; by eexists]. Defined.

Lemma min_heapify_terminates_witness : returns (min_heapify 2 0 tm0) (sifted tm0 [100; 200]).
Proof.
  apply (min_heapify_terminates tm0 [100; 200] 0 (qu_arr _ _ queue0)); [|simpl; lia].
  split; [|lia]. intros i Hi _. by apply (qu_ord _ _ queue0).
Defined.

Definition W0 (ev : Z) : list word := match ev with 100 => [Ref 5] | _ => [] end.
Definition E0 (ev : Z) : list Z := match ev with 100 => [10] | _ => [] end.

Lemma E0_elem ev x : x ∈ E0 ev -> ev = 100 /\ x = 10.
Proof.
  destruct (decide (ev = 100)) as [->|Hne]; [intros ?%list_elem_of_singleton; done|].
  assert (E0 ev = []) as -> by (unfold E0; destruct ev as [|p|]; try done; do 7 (destruct p as [p|p|]; try done)). by intros ?%elem_of_nil.
Qed.

Lemma events0 ev e : ks_events ks0 !! ev = Some e -> (ev = 100 /\ e = mk_kevent 0 (Ref 10) free_lock) \/ ((ev = 200 \/ ev = 300) /\ e = mk_kevent 0 NULL free_lock).
Proof.
  cbn. intros [[<- <-]|[_ [[<- <-]|[_ [[<- <-]|[_ H]]%lookup_insert_Some]]%lookup_insert_Some]]%lookup_insert_Some; auto.
  by rewrite lookup_empty in H.
Qed.

Lemma abs0 : kev_abs ks0 W0 0.
Proof.
  exists E0, []. split; [split|split; [|done]].
  - done.
  - constructor.
  - intros ev e [[-> ->]|[[->| ->] ->]]%events0; [|by split; [|constructor]|by split; [|constructor]].
    split; [|apply NoDup_singleton]. split; [done|]. eexists. split; [vm_compute; reflexivity|done].
  - intros ev ev' x _ _ [-> _]%E0_elem [-> _]%E0_elem. done.
  - intros ev x _ _. apply not_elem_of_nil.
  - intros ev [e [[-> ->]|[[->| ->] ->]]%events0]; vm_compute; reflexivity.
Qed.

Lemma ticking0 : ticking (set_ticks 5 tm0) [100; 200] W0 0 Q0 2.
Proof.
  split.
  - destruct queue0 as [[] ? ?]. by split; [split|..].
  - apply (bool_decide_unpack _). by vm_compute.
  - simpl. lia.
  - apply (good_sched (set_sched (Sched.set_heap (bss_heap (bss_mm false) mem0 0) (ks_sched k0)) k0)); [done|]. apply good_heap, good0.
  - exact abs0.
  - intros ev e [[-> ->]|[[->| ->] ->]]%events0; done.
  - intros p [->|[->|?%elem_of_nil]%elem_of_cons]%elem_of_cons Hk; [|vm_compute in Hk; by destruct Hk|done].
    split; [vm_compute; by eexists|]. exists [5]. split; [done|]. split; [done|]. intros a [->|?%elem_of_nil]%elem_of_cons; [vm_compute; by eexists|done].
Qed.

Lemma system_timer_handler_correct_witness :
  returns (system_timer_handler tm0) (fun t' => exists due l' Q', [100; 200] ≡ₚ due ++ l' /\ ticking t' l' W0 0 Q' 2 /\
    tm_ticks t' = 5 /\ (forall p, p ∈ due -> key tm0 p <= tm_ticks t') /\ (forall p, p ∈ l' -> tm_ticks t' < key tm0 p) /\
    tm_unix t' = (if tm_ticks t' mod 1000 =? 0 then 0 +! 1 else 0) /\
    woken_by W0 due (info (ks_sched (tm_k tm0))) (info (ks_sched (tm_k t')))).
Proof. exact (system_timer_handler_correct tm0 [100; 200] W0 0 Q0 2 ticking0). Defined.

(** ** Limits *)

(** Timer 300, registered for now, expires before any thread waits for it. *)
Theorem expired_unwaited_panics : exists msg, (register_system_timer 300 0 tm0 ≫= system_timer_handler) = Panic msg.
Proof. vm_compute. by eexists. Qed.

(** [n] timers on an empty heap, with the memory of [HeapTheorems.Sample]. *)
Definition empty_timers : timers :=
  mk_timers (mk_kstate (Sched.set_heap HeapTheorems.Sample.heap0 sched0) ∅ NULL ∅) 0 0 0 free_lock ∅ 0 0.
Definition fill (n : Z) : outcome timers :=
  foldl (fun o i => t ← o; timer_insert i (set_exp (<[i := i]> (tm_exp t)) t)) (Ret empty_timers) (seqZ 1 n).

(** Popping one of 66 timers shrinks the array; [krealloc] does not copy it,
    and the next access goes through a null entry. *)
Theorem shrink_loses_timers : returns (fill 66) (fun t => exists msg, timer_pop t = Fault msg).
Proof. vm_compute. by eexists. Qed.

End Sample.
End TimerTheorems.
