(* ===== verification/RbTree.v ===== *)
(** * Red-black trees (kernel/src/std/rbtree.c, kernel/include/rbtree.h)

    Nodes are records of a store by address, with a parent and two children;
    the leaf is the static node [sentinel], whose address is an argument.  A
    direction is a [bool], [false] for [RB_LEFT], so that [1 - dir] is [negb]
    and [child[key < k]] reads as in the code.  The data behind a node is
    known by its key. *)

From stdpp Require Import gmap.
From S2P Require Import Prelude Mem FrameHdr FrameAlloc PageIface Slab.

Module RbTree.
Import Mem FrameHdr FrameAlloc PageIface Slab.

Inductive rb_tree_color := RB_RED | RB_BLACK.

#[global] Instance rb_tree_color_eq_dec : EqDecision rb_tree_color.
Proof. solve_decision. Defined.

Definition RB_LEFT : bool := false.
Definition RB_RIGHT : bool := true.

Record rb_tree_node := mk_node {
  n_parent : word;
  n_left : word;               (* child[RB_LEFT] *)
  n_right : word;              (* child[RB_RIGHT] *)
  n_color : rb_tree_color;
  n_data : word
}.

Definition child (dir : bool) (n : rb_tree_node) : word := if dir then n_right n else n_left n.
Definition set_parent (p : word) (n : rb_tree_node) : rb_tree_node := mk_node p (n_left n) (n_right n) (n_color n) (n_data n).
Definition set_child (dir : bool) (p : word) (n : rb_tree_node) : rb_tree_node :=
  if dir then mk_node (n_parent n) (n_left n) p (n_color n) (n_data n)
  else mk_node (n_parent n) p (n_right n) (n_color n) (n_data n).
Definition set_color (c : rb_tree_color) (n : rb_tree_node) : rb_tree_node := mk_node (n_parent n) (n_left n) (n_right n) c (n_data n).
Definition set_data (d : word) (n : rb_tree_node) : rb_tree_node := mk_node (n_parent n) (n_left n) (n_right n) (n_color n) d.

(** [rb_root] is [*root]; [rb_keys] the keys of the data. *)
Record rbs := mk_rbs {
  rb_nodes : gmap Z rb_tree_node;
  rb_root : word;
  rb_keys : gmap Z Z;
  rb_heap : heap
}.
Definition set_nodes (x : gmap Z rb_tree_node) (s : rbs) : rbs := mk_rbs x (rb_root s) (rb_keys s) (rb_heap s).
Definition set_root (x : word) (s : rbs) : rbs := mk_rbs (rb_nodes s) x (rb_keys s) (rb_heap s).
Definition set_rb_heap (x : heap) (s : rbs) : rbs := mk_rbs (rb_nodes s) (rb_root s) (rb_keys s) x.

Definition get (p : word) (s : rbs) : outcome rb_tree_node :=
  match p with Ref a => of_option "no node there" (rb_nodes s !! a) | Num _ => Fault "null node" end.
Definition upd (p : word) (f : rb_tree_node -> rb_tree_node) (s : rbs) : outcome rbs :=
  match p with
  | Ref a => n ← of_option "no node there" (rb_nodes s !! a); Ret (set_nodes (<[a := f n]> (rb_nodes s)) s)
  | Num _ => Fault "null node"
  end.
(** [data->key] *)
Definition key_of (d : word) (s : rbs) : outcome Z :=
  match d with Ref a => of_option "no data there" (rb_keys s !! a) | Num _ => Fault "null data" end.

Definition SIZEOF_NODE : Z := 40.

Section Tree.
Context {PA : PageAllocator} (sentinel : Z).

Definition RB_NIL : word := Ref sentinel.

Definition init_root_node (s : rbs) : rbs := set_root RB_NIL s.

Definition _new_node (data parent : word) (s : rbs) : outcome (word * rbs) :=
  '(a, h) ← kmalloc SIZEOF_NODE (rb_heap s);
  Ret (Ref a, set_nodes (<[a := mk_node parent RB_NIL RB_NIL RB_RED data]> (rb_nodes s)) (set_rb_heap h s)).

Definition _rotate (subtree : word) (dir : bool) (s : rbs) : outcome rbs :=
  x ← get subtree s;
  let n := child (negb dir) x in
  y ← get n s;
  s ← upd subtree (set_child (negb dir) (child dir y)) s;
  y ← get n s;
  s ← (if decide (child dir y = RB_NIL) then Ret s else upd (child dir y) (set_parent subtree) s);
  x ← get subtree s;
  s ← (if decide (n = RB_NIL) then Ret s else upd n (set_parent (n_parent x)) s);
  x ← get subtree s;
  s ← (if nonnull (n_parent x) then
         p ← get (n_parent x) s;
         let lr := if decide (subtree = child dir p) then dir else negb dir in
         upd (n_parent x) (set_child lr n) s
       else Ret (set_root n s));
  s ← upd n (set_child dir subtree) s;
  if decide (subtree = RB_NIL) then Ret s else upd subtree (set_parent n) s.

(** ** Insertion *)

(** Each round moves two levels up, or ends. *)
Fixpoint insert_fixup_loop (fuel : nat) (node : word) (s : rbs) : outcome rbs :=
  match fuel with
  | O => Fault "loop does not end"
  | S fuel =>
      if decide (node = rb_root s) then Ret s
      else
        x ← get node s;
        p ← get (n_parent x) s;
        if decide (n_color p = RB_RED) then
          g ← get (n_parent p) s;
          let dir := bool_decide (n_parent x = child RB_LEFT g) in
          let n := child dir g in
          u ← get n s;
          if decide (n_color u = RB_RED) then
            s ← upd (n_parent x) (set_color RB_BLACK) s;
            s ← upd n (set_color RB_BLACK) s;
            s ← upd (n_parent p) (set_color RB_RED) s;
            insert_fixup_loop fuel (n_parent p) s
          else
            '(node, s) ← (if decide (node = child dir p) then
                            s ← _rotate (n_parent x) (negb dir) s; Ret (n_parent x, s)
                          else Ret (node, s));
            x ← get node s;
            s ← upd (n_parent x) (set_color RB_BLACK) s;
            p ← get (n_parent x) s;
            s ← upd (n_parent p) (set_color RB_RED) s;
            s ← _rotate (n_parent p) dir s;
            insert_fixup_loop fuel node s
        else Ret s
  end.
Definition _insert_fixup (node : word) (s : rbs) : outcome rbs :=
  s ← insert_fixup_loop (S (size (rb_nodes s))) node s;
  upd (rb_root s) (set_color RB_BLACK) s.

(** The search of [tree_insert]: the duplicate's data, or the parent. *)
Inductive place := Duplicate (data : word) | Below (parent : word).

Fixpoint find_place (fuel : nat) (curr parent : word) (key : Z) (s : rbs) : outcome place :=
  match fuel with
  | O => Fault "loop does not end"
  | S fuel =>
      if decide (curr = RB_NIL) then Ret (Below parent)
      else
        c ← get curr s;
        k ← key_of (n_data c) s;
        if k =? key then Ret (Duplicate (n_data c)) else find_place fuel (child (key <? k) c) curr key s
  end.

Definition tree_insert (data : word) (s : rbs) : outcome (word * rbs) :=
  key ← key_of data s;
  pl ← find_place (S (size (rb_nodes s))) (rb_root s) NULL key s;
  match pl with
  | Duplicate d => Ret (d, s)
  | Below parent =>
      '(head, s) ← _new_node data parent s;
      s ← upd head (set_parent parent) s;
      s ← (if nonnull parent then
             p ← get parent s;
             k ← key_of (n_data p) s;
             upd parent (set_child (key <? k) head) s
           else Ret (set_root head s));
      s ← _insert_fixup head s;
      Ret (NULL, s)
  end.

(** ** Search *)

Fixpoint find_node_loop (fuel : nat) (root : word) (key : Z) (s : rbs) : outcome word :=
  match fuel with
  | O => Fault "loop does not end"
  | S fuel =>
      if decide (root = RB_NIL) then Ret NULL
      else
        r ← get root s;
        k ← key_of (n_data r) s;
        if k =? key then Ret root else find_node_loop fuel (child (key <? k) r) key s
  end.
Definition _find_node (root : word) (key : Z) (s : rbs) : outcome word := find_node_loop (S (size (rb_nodes s))) root key s.

Definition tree_find (key : Z) (s : rbs) : outcome word :=
  ret ← _find_node (rb_root s) key s;
  if nonnull ret then r ← get ret s; Ret (n_data r) else Ret NULL.

Definition tree_set_data_at (key : Z) (data : word) (s : rbs) : outcome rbs :=
  found ← _find_node (rb_root s) key s;
  k ← key_of data s;
  if key =? k then upd found (set_data data) s else Panic "wrong key".

(** ** Removal *)

Fixpoint remove_fixup_loop (fuel : nat) (node : word) (s : rbs) : outcome (word * rbs) :=
  match fuel with
  | O => Fault "loop does not end"
  | S fuel =>
      if decide (node = rb_root s) then Ret (node, s)
      else
        x ← get node s;
        if decide (n_color x = RB_BLACK) then
          p ← get (n_parent x) s;
          let dir := bool_decide (node = child RB_LEFT p) in
          let sibling := child dir p in
          b ← get sibling s;
          '(sibling, s) ← (if decide (n_color b = RB_RED) then
                             s ← upd sibling (set_color RB_BLACK) s;
                             s ← upd (n_parent x) (set_color RB_RED) s;
                             s ← _rotate (n_parent x) (negb dir) s;
                             x ← get node s;
                             p ← get (n_parent x) s;
                             Ret (child dir p, s)
                           else Ret (sibling, s));
          b ← get sibling s;
          near ← get (child (negb dir) b) s;
          far ← get (child dir b) s;
          if bool_decide (n_color near = RB_BLACK) && bool_decide (n_color far = RB_BLACK) then
            s ← upd sibling (set_color RB_RED) s;
            x ← get node s;
            remove_fixup_loop fuel (n_parent x) s
          else
            '(sibling, s) ← (if decide (n_color far = RB_BLACK) then
                               s ← upd (child (negb dir) b) (set_color RB_BLACK) s;
                               s ← upd sibling (set_color RB_RED) s;
                               s ← _rotate sibling dir s;
                               x ← get node s;
                               p ← get (n_parent x) s;
                               Ret (child dir p, s)
                             else Ret (sibling, s));
            x ← get node s;
            p ← get (n_parent x) s;
            s ← upd sibling (set_color (n_color p)) s;
            s ← upd (n_parent x) (set_color RB_BLACK) s;
            b ← get sibling s;
            s ← upd (child dir b) (set_color RB_BLACK) s;
            s ← _rotate (n_parent x) (negb dir) s;
            remove_fixup_loop fuel (rb_root s) s
        else Ret (node, s)
  end.
Definition _remove_fixup (node : word) (s : rbs) : outcome rbs :=
  '(node, s) ← remove_fixup_loop (S (size (rb_nodes s))) node s;
  upd node (set_color RB_BLACK) s.

(** [while (x->child[RB_LEFT] != RB_NIL)] *)
Fixpoint leftmost (fuel : nat) (x : word) (s : rbs) : outcome word :=
  match fuel with
  | O => Fault "loop does not end"
  | S fuel =>
      n ← get x s;
      if decide (child RB_LEFT n = RB_NIL) then Ret x else leftmost fuel (child RB_LEFT n) s
  end.

(** From [node = x->child[...]] to the end of [tree_remove]: [x] is unlinked,
    and its data moves to [n]. *)
Definition remove_node (n out x : word) (s : rbs) : outcome (word * rbs) :=
  xn ← get x s;
  let node := child (bool_decide (child RB_LEFT xn = RB_NIL)) xn in
  s ← upd node (set_parent (n_parent xn)) s;
  s ← (if nonnull (n_parent xn) then
         p ← get (n_parent xn) s;
         upd (n_parent xn) (set_child (negb (bool_decide (x = child RB_LEFT p))) node) s
       else Ret (set_root node s));
  s ← (if decide (x = n) then Ret s else xn ← get x s; upd n (set_data (n_data xn)) s);
  xn ← get x s;
  s ← (if decide (n_color xn = RB_BLACK) then _remove_fixup node s else Ret s);
  match x with
  | Ref a => h ← kfree a (rb_heap s); Ret (out, set_nodes (delete a (rb_nodes s)) (set_rb_heap h s))
  | Num _ => Fault "null node"
  end.

Definition tree_remove (key : Z) (s : rbs) : outcome (word * rbs) :=
  n ← _find_node (rb_root s) key s;
  if negb (nonnull n) || bool_decide (n = RB_NIL) then Ret (NULL, s)
  else
    r ← get n s;
    x ← (if bool_decide (child RB_LEFT r = RB_NIL) || bool_decide (child RB_RIGHT r = RB_NIL) then Ret n
         else leftmost (S (size (rb_nodes s))) (child RB_RIGHT r) s);
    remove_node n (n_data r) x s.

End Tree.
End RbTree.
