(* ===== verification/RbRep.v ===== *)
(** * Red-black trees: shape and representation

    [rbt] is the tree a store of nodes holds, [frame] one step of a path from
    the root to a place in it.  [zip s ctx t] says that the store of [s] holds
    the tree [plug ctx t] and looks at its subtree [t]: the cells of the
    subtree, of the path and of what hangs off it are all the nodes there are.
    Moving the focus does not change the state ([zip_up]), so each pointer
    update of the code is a lemma about the subtree in focus. *)

From stdpp Require Import gmap.
From AAC_tactics Require Import AAC Instances.
From S2P Require Import Prelude Mem FrameHdr FrameAlloc PageIface Slab RbTree.

Module RbRep.
Import RbTree Instances.Lists.

(** Cells are counted up to their order. *)
#[global] Instance perm_lift {A} : AAC_lift (@Permutation A) (@Permutation A).
Proof. constructor; apply _. Defined.

(** ** Trees *)

Inductive rbt := E | T (c : rb_tree_color) (a d : Z) (l r : rbt).

(** A node by one of its directions: [x] hangs at [dir], [y] at the other. *)
Definition mk (dir : bool) (c : rb_tree_color) (a d : Z) (x y : rbt) : rbt := if dir then T c a d y x else T c a d x y.
Definition node (dir : bool) (p x y : word) (c : rb_tree_color) (d : word) : rb_tree_node :=
  if dir then mk_node p y x c d else mk_node p x y c d.

Record frame := Fr { fdir : bool; fc : rb_tree_color; fa : Z; fd : Z; fo : rbt }.
Definition up (f : frame) (t : rbt) : rbt := mk (fdir f) (fc f) (fa f) (fd f) t (fo f).
Fixpoint plug (ctx : list frame) (t : rbt) : rbt := match ctx with [] => t | f :: ctx => plug ctx (up f t) end.

Definition color (t : rbt) : rb_tree_color := match t with E => RB_BLACK | T c _ _ _ _ => c end.
Definition paint (c : rb_tree_color) (t : rbt) : rbt := match t with E => E | T _ a d l r => T c a d l r end.

(** The nodes in the order of their keys: the smaller ones are to the right. *)
Fixpoint flat (t : rbt) : list (Z * Z) :=
  match t with E => [] | T _ a d l r => flat r ++ [(a, d)] ++ flat l end.

Lemma mk_negb dir c a d x y : mk (negb dir) c a d x y = mk dir c a d y x.
Proof. by destruct dir. Qed.

Lemma mk_at dir c a d l r : T c a d l r = mk dir c a d (if dir then r else l) (if dir then l else r).
Proof. by destruct dir. Qed.

Lemma node_negb dir p x y c d : node (negb dir) p x y c d = node dir p y x c d.
Proof. by destruct dir. Qed.

Lemma child_node dir p x y c d : child dir (node dir p x y c d) = x.
Proof. by destruct dir. Qed.

Lemma child_negb dir p x y c d : child (negb dir) (node dir p x y c d) = y.
Proof. by destruct dir. Qed.

Lemma set_child_node dir w p x y c d : set_child dir w (node dir p x y c d) = node dir p w y c d.
Proof. by destruct dir. Qed.

Lemma set_child_negb dir w p x y c d : set_child (negb dir) w (node dir p x y c d) = node dir p x w c d.
Proof. by destruct dir. Qed.

Lemma set_parent_node dir w p x y c d : set_parent w (node dir p x y c d) = node dir w x y c d.
Proof. by destruct dir. Qed.

Lemma set_color_node dir k p x y c d : set_color k (node dir p x y c d) = node dir p x y k d.
Proof. by destruct dir. Qed.

Lemma set_data_node dir w p x y c d : set_data w (node dir p x y c d) = node dir p x y c w.
Proof. by destruct dir. Qed.

Lemma parent_node dir p x y c d : n_parent (node dir p x y c d) = p.
Proof. by destruct dir. Qed.

Lemma color_node dir p x y c d : n_color (node dir p x y c d) = c.
Proof. by destruct dir. Qed.

Lemma data_node dir p x y c d : n_data (node dir p x y c d) = d.
Proof. by destruct dir. Qed.

Lemma color_mk dir c a d x y : color (mk dir c a d x y) = c.
Proof. by destruct dir. Qed.

Lemma paint_mk dir k c a d x y : paint k (mk dir c a d x y) = mk dir k a d x y.
Proof. by destruct dir. Qed.

Create HintDb rb.
Hint Rewrite mk_negb node_negb child_node child_negb set_child_node set_child_negb set_parent_node set_color_node
  set_data_node parent_node color_node data_node color_mk paint_mk negb_involutive : rb.

(** ** Cells *)

(** [holds m l]: the cells of [l] are at different addresses, and in [m]. *)
Definition holds (m : gmap Z rb_tree_node) (l : list (Z * rb_tree_node)) : Prop :=
  NoDup l.*1 /\ Forall (fun c => m !! c.1 = Some c.2) l.

#[global] Instance holds_perm m : Proper ((≡ₚ) ==> iff) (holds m).
Proof.
  intros l l' Hp. unfold holds.
  split; intros [Hn Hf]; (split; [by rewrite <- ?Hp || rewrite Hp|by rewrite <- ?Hp || rewrite Hp]).
Qed.

Lemma holds_get s a n l : holds (rb_nodes s) ([(a, n)] ++ l) -> get (Ref a) s = Ret n.
Proof. intros [_ [Ha _]%Forall_cons]. simpl in *. by rewrite Ha. Qed.

Lemma holds_insert m a n n' l : holds m ([(a, n)] ++ l) -> holds (<[a := n']> m) ([(a, n')] ++ l).
Proof.
  intros [Hnd [Ha Hf]%Forall_cons]. split; [done|]. simpl in Hnd. apply NoDup_cons in Hnd as [Hni _].
  constructor; [simpl; by rewrite lookup_insert_eq|]. rewrite Forall_forall in Hf |- *. intros [b k] Hb. simpl.
  rewrite lookup_insert_ne; [by apply (Hf (b, k))|]. intros <-. apply Hni.
  apply (list_elem_of_fmap_2 fst l (a, k)). done.
Qed.

Lemma holds_tail m c l : holds m ([c] ++ l) -> holds m l.
Proof. intros [[_ Hnd]%NoDup_cons [_ Hf]%Forall_cons]. done. Qed.

Lemma holds_remove m a l : holds m l -> a ∉ l.*1 -> holds (delete a m) l.
Proof.
  intros [Hnd Hf] Ha. split; [done|]. rewrite Forall_forall in Hf |- *. intros [b k] Hb. simpl.
  rewrite lookup_delete_ne; [by apply (Hf (b, k))|]. intros <-. apply Ha.
  apply (list_elem_of_fmap_2 fst l (a, k)). done.
Qed.

Lemma holds_fresh m a n l : holds m l -> a ∉ l.*1 -> holds (<[a := n]> m) ([(a, n)] ++ l).
Proof.
  intros [Hnd Hf] Ha. split; [by constructor|]. constructor; [simpl; by rewrite lookup_insert_eq|].
  rewrite Forall_forall in Hf |- *. intros [b k] Hb. simpl. rewrite lookup_insert_ne; [by apply (Hf (b, k))|].
  intros <-. apply Ha. apply (list_elem_of_fmap_2 fst l (a, k)). done.
Qed.

Lemma cells_apart m a n l b k : holds m ([(a, n)] ++ l) -> (b, k) ∈ l -> a <> b.
Proof.
  intros [Hnd _] Hb <-. simpl in Hnd. apply NoDup_cons in Hnd as [Hni _]. apply Hni.
  apply (list_elem_of_fmap_2 fst l (a, k)). done.
Qed.

Lemma holds_size m l : holds m l -> (length l <= size m)%nat.
Proof.
  intros [Hnd Hf]. rewrite <- (length_fmap fst). rewrite <- (size_list_to_set (C := gset Z)) by done.
  rewrite <- size_dom. apply subseteq_size. intros a Ha%elem_of_list_to_set.
  apply list_elem_of_fmap in Ha as ([b n] & -> & Hb). rewrite Forall_forall in Hf. specialize (Hf _ Hb).
  by apply elem_of_dom.
Qed.

(** The address of the sentinel, and the nodes of other trees in the same
    store: the operations on one tree leave them alone. *)
Record home := Home { sent : Z; others : list (Z * rb_tree_node) }.
Coercion sent : home >-> Z.

Section Rep.
Context (sentinel : home).

Abbreviation RB_NIL := (RB_NIL sentinel).

Definition ptr (t : rbt) : word := match t with E => RB_NIL | T _ a _ _ _ => Ref a end.
Definition pctx (ctx : list frame) : word := match ctx with [] => NULL | f :: _ => Ref (fa f) end.

Fixpoint cells (p : word) (t : rbt) : list (Z * rb_tree_node) :=
  match t with
  | E => []
  | T c a d l r => [(a, mk_node p (ptr l) (ptr r) c (Ref d))] ++ cells (Ref a) l ++ cells (Ref a) r
  end.
Fixpoint cellsc (h : word) (ctx : list frame) : list (Z * rb_tree_node) :=
  match ctx with
  | [] => []
  | f :: ctx =>
      [(fa f, node (fdir f) (pctx ctx) h (ptr (fo f)) (fc f) (Ref (fd f)))] ++ cells (Ref (fa f)) (fo f) ++
      cellsc (Ref (fa f)) ctx
  end.

(** The sentinel is a cell of its own; its parent [ps] is scratch. *)
Definition leaf (ps : word) : list (Z * rb_tree_node) :=
  [(sent sentinel, mk_node ps RB_NIL RB_NIL RB_BLACK NULL)] ++ others sentinel.

Record zip (s : rbs) (ps : word) (ctx : list frame) (t : rbt) : Prop := {
  z_cells : holds (rb_nodes s) (leaf ps ++ cells (pctx ctx) t ++ cellsc (ptr t) ctx);
  z_root : rb_root s = ptr (plug ctx t)
}.

(** What the pointer updates leave alone. *)
Definition same (s s' : rbs) : Prop := rb_keys s' = rb_keys s /\ rb_heap s' = rb_heap s.

Lemma same_refl s : same s s.
Proof. done. Qed.

Lemma same_trans s1 s2 s3 : same s1 s2 -> same s2 s3 -> same s1 s3.
Proof. intros [] []. split; congruence. Qed.

Lemma ptr_mk dir c a d x y : ptr (mk dir c a d x y) = Ref a.
Proof. by destruct dir. Qed.
Hint Rewrite ptr_mk : rb.

Lemma cells_mk dir p c a d x y :
  cells p (mk dir c a d x y) ≡ₚ [(a, node dir p (ptr x) (ptr y) c (Ref d))] ++ cells (Ref a) x ++ cells (Ref a) y.
Proof. destruct dir; simpl; [|done]. by rewrite (Permutation_app_comm (cells _ y)). Qed.

(** ** Moving the focus *)

Lemma zip_up s ps f ctx t : zip s ps (f :: ctx) t <-> zip s ps ctx (up f t).
Proof.
  assert (forall p, ptr (up f t) = Ref (fa f) /\ cells p (up f t) ≡ₚ
    [(fa f, node (fdir f) p (ptr t) (ptr (fo f)) (fc f) (Ref (fd f)))] ++ cells (Ref (fa f)) t ++ cells (Ref (fa f)) (fo f)) as H.
  { intros p. unfold up. by rewrite ptr_mk, cells_mk. }
  destruct (H (pctx ctx)) as [Hp Hc].
  assert (leaf ps ++ cells (pctx (f :: ctx)) t ++ cellsc (ptr t) (f :: ctx) ≡ₚ
          leaf ps ++ cells (pctx ctx) (up f t) ++ cellsc (ptr (up f t)) ctx) as Heq.
  { rewrite Hp, Hc. cbn [cellsc pctx]. aac_reflexivity. }
  split; intros [Hh Hr]; (split; [by rewrite Heq in Hh || rewrite Heq|done]).
Qed.

Lemma zip_close s ps ctx t : zip s ps ctx t -> zip s ps [] (plug ctx t).
Proof. revert t. induction ctx as [|f ctx IH]; intros t; [done|]. rewrite zip_up. apply IH. Qed.

(** ** The node in focus *)

(** The cells with the node in focus first. *)
Definition around (ps : word) (ctx : list frame) (a : Z) (x y : rbt) : list (Z * rb_tree_node) :=
  leaf ps ++ cells (Ref a) x ++ cells (Ref a) y ++ cellsc (Ref a) ctx.

Lemma focus_cells ps ctx dir c a d x y :
  leaf ps ++ cells (pctx ctx) (mk dir c a d x y) ++ cellsc (ptr (mk dir c a d x y)) ctx ≡ₚ
  [(a, node dir (pctx ctx) (ptr x) (ptr y) c (Ref d))] ++ around ps ctx a x y.
Proof. unfold around. rewrite ptr_mk, cells_mk. aac_reflexivity. Qed.

Lemma zip_focus s ps ctx dir c a d x y :
  zip s ps ctx (mk dir c a d x y) ->
  holds (rb_nodes s) ([(a, node dir (pctx ctx) (ptr x) (ptr y) c (Ref d))] ++ around ps ctx a x y).
Proof. intros [Hh _]. by rewrite focus_cells in Hh. Qed.

Lemma zip_get s ps ctx dir c a d x y :
  zip s ps ctx (mk dir c a d x y) -> get (Ref a) s = Ret (node dir (pctx ctx) (ptr x) (ptr y) c (Ref d)).
Proof. intros Hz. eapply holds_get. by apply zip_focus. Qed.

Lemma upd_spec s a n f l :
  holds (rb_nodes s) ([(a, n)] ++ l) ->
  returns (upd (Ref a) f s) (fun s' => holds (rb_nodes s') ([(a, f n)] ++ l) /\ rb_root s' = rb_root s /\ same s s').
Proof.
  intros Hh. unfold upd. pose proof (holds_get _ _ _ _ Hh) as Hg. unfold get in Hg.
  destruct (rb_nodes s !! a); [|done]. injection Hg as ->. simpl.
  split; [by eapply holds_insert|]. done.
Qed.

Lemma plug_ptr ctx t t' : ptr t = ptr t' -> ptr (plug ctx t) = ptr (plug ctx t').
Proof.
  revert t t'. induction ctx as [|f ctx IH]; intros t t' Hp; [done|]. apply IH. unfold up. by rewrite !ptr_mk.
Qed.

(** An update that keeps the links of the node in focus. *)
Lemma zip_upd s ps ctx dir c a d x y f c' d' :
  zip s ps ctx (mk dir c a d x y) ->
  (forall p q w, f (node dir p q w c (Ref d)) = node dir p q w c' (Ref d')) ->
  returns (upd (Ref a) f s) (fun s' => zip s' ps ctx (mk dir c' a d' x y) /\ same s s').
Proof.
  intros Hz Hf. eapply returns_mono; [apply upd_spec, zip_focus, Hz|]. intros s' (Hh & Hr & Hs). split; [|done].
  split; [by rewrite focus_cells, <- Hf|]. rewrite Hr, (z_root _ _ _ _ Hz). apply plug_ptr. by rewrite !ptr_mk.
Qed.

Lemma zip_color s ps ctx dir c a d x y k :
  zip s ps ctx (mk dir c a d x y) ->
  returns (upd (Ref a) (set_color k) s) (fun s' => zip s' ps ctx (mk dir k a d x y) /\ same s s').
Proof. intros Hz. eapply zip_upd; [done|]. intros. apply set_color_node. Qed.

(** Any subtree, the leaf included. *)
Lemma zip_read s ps ctx t :
  zip s ps ctx t ->
  exists n, get (ptr t) s = Ret n /\ n_color n = color t /\ n_parent n = (match t with E => ps | _ => pctx ctx end).
Proof.
  intros Hz. destruct t as [|c a d l r].
  - destruct Hz as [Hh _]. eexists. split; [apply (holds_get _ _ _ _ Hh)|]. done.
  - rewrite (mk_at false) in Hz |- *. eexists. split; [rewrite ptr_mk; by eapply zip_get|]. done.
Qed.

(** ** Different places *)

Lemma cells_ptr p t : t = E \/ exists a n, ptr t = Ref a /\ (a, n) ∈ cells p t.
Proof. destruct t as [|c a d l r]; [by left|right]. simpl. do 2 eexists. split; [done|]. left. Qed.

Lemma leaf_apart m ps l b k : holds m (leaf ps ++ l) -> (b, k) ∈ l -> sent sentinel <> b.
Proof.
  intros Hh Hb. unfold leaf in Hh. rewrite <- app_assoc in Hh. eapply (cells_apart _ _ _ _ b k Hh).
  apply elem_of_app. by right.
Qed.

Lemma zip_apart s ps f ctx t : zip s ps (f :: ctx) t -> ptr t <> Ref (fa f) /\ ptr t <> ptr (fo f) \/ (t = E /\ fo f = E).
Proof.
  intros [Hh _]. cbn [cellsc pctx] in Hh.
  set (n := node _ _ _ _ _ _) in Hh.
  assert (holds (rb_nodes s) ([(fa f, n)] ++ leaf ps ++ cells (Ref (fa f)) t ++ cells (Ref (fa f)) (fo f) ++ cellsc (Ref (fa f)) ctx)) as Hf.
  { eapply holds_perm; [|exact Hh]. aac_reflexivity. }
  destruct (cells_ptr (Ref (fa f)) t) as [->|(b & k & Hb & Hin)].
  - destruct (cells_ptr (Ref (fa f)) (fo f)) as [?|(b & k & Hb & Hin)]; [by right|left]. simpl. split.
    + intros [= He]. eapply (cells_apart _ _ _ _ sentinel _ Hf); [left|done].
    + rewrite Hb. intros [= He]. eapply (leaf_apart _ _ _ b k Hh); [|done]. rewrite !elem_of_app. auto.
  - left. rewrite Hb. split.
    + intros [= He]. eapply (cells_apart _ _ _ _ b _ Hf); [|done]. rewrite !elem_of_app. by right; left.
    + destruct (cells_ptr (Ref (fa f)) (fo f)) as [->|(b' & k' & Hb' & Hin')].
      * intros [= He]. eapply (leaf_apart _ _ _ b k Hh); [|done]. rewrite !elem_of_app. auto.
      * rewrite Hb'. intros [= He]. subst b'. destruct Hh as [Hnd _].
        rewrite !fmap_app in Hnd. apply NoDup_app in Hnd as (_ & _ & (_ & Hd & _)%NoDup_app).
        apply (Hd b); [by apply (list_elem_of_fmap_2 fst _ (b, k))|]. rewrite !elem_of_app. right. left.
        by apply (list_elem_of_fmap_2 fst _ (b, k')).
Qed.

Lemma root_top ctx t : ptr (plug ctx t) = match last ctx with None => ptr t | Some f => Ref (fa f) end.
Proof.
  revert t. induction ctx as [|f ctx IH]; intros t; [done|]. simpl plug. rewrite IH, last_cons.
  destruct (last ctx); [done|]. unfold up. by rewrite ptr_mk.
Qed.

Lemma cellsc_in f ctx h : f ∈ ctx -> exists n, (fa f, n) ∈ cellsc h ctx.
Proof.
  revert h. induction ctx as [|g ctx IH]; intros h Hf; [by apply not_elem_of_nil in Hf|].
  apply elem_of_cons in Hf as [->|Hf].
  - eexists. left.
  - destruct (IH (Ref (fa g)) Hf) as [n Hn]. exists n. cbn [cellsc]. rewrite !elem_of_app. auto.
Qed.

(** [node == *root] *)
Lemma zip_root s ps ctx t : zip s ps ctx t -> (ptr t = rb_root s <-> ctx = []).
Proof.
  intros [Hh ->]. rewrite root_top. destruct (last ctx) as [f|] eqn:Hl; [|by apply last_None in Hl as ->].
  split; [|by intros ->]. intros Heq. exfalso.
  destruct (cellsc_in f ctx (ptr t)) as [n Hn]; [by apply last_Some_elem_of|].
  destruct (cells_ptr (pctx ctx) t) as [->|(b & k & Hb & Hin)].
  - injection Heq as He. eapply (leaf_apart _ _ _ (fa f) n Hh); [|done]. rewrite elem_of_app. by right.
  - rewrite Hb in Heq. injection Heq as ->. destruct Hh as [Hnd _].
    rewrite !fmap_app in Hnd. apply NoDup_app in Hnd as (_ & _ & (_ & Hd & _)%NoDup_app).
    apply (Hd (fa f)); [by apply (list_elem_of_fmap_2 fst _ (fa f, k))|by apply (list_elem_of_fmap_2 fst _ (fa f, n))].
Qed.

(** ** Rotation *)

Lemma not_leaf m ps a n l : holds m ([(a, n)] ++ leaf ps ++ l) -> Ref a <> RB_NIL.
Proof. intros Hh [= ->]. eapply (cells_apart _ _ _ _ sentinel _ Hh); [|done]. left. Qed.

(** [if (n->child[dir] != RB_NIL) n->child[dir]->parent = subtree] *)
Lemma reparent_spec s ps p p' t l :
  holds (rb_nodes s) (cells p t ++ leaf ps ++ l) ->
  returns (if decide (ptr t = RB_NIL) then Ret s else upd (ptr t) (set_parent p') s)
    (fun s' => holds (rb_nodes s') (cells p' t ++ leaf ps ++ l) /\ rb_root s' = rb_root s /\ same s s').
Proof.
  intros Hh. destruct t as [|c a d x y]; [by rewrite decide_True|]. cbn [cells ptr] in *.
  set (rest := cells (Ref a) x ++ cells (Ref a) y ++ l).
  assert (forall q, ([(a, mk_node q (ptr x) (ptr y) c (Ref d))] ++ cells (Ref a) x ++ cells (Ref a) y) ++ leaf ps ++ l ≡ₚ
            [(a, mk_node q (ptr x) (ptr y) c (Ref d))] ++ leaf ps ++ rest) as Hp.
  { intros q. unfold rest. aac_reflexivity. }
  rewrite Hp in Hh. rewrite decide_False by (by eapply not_leaf). eapply returns_mono; [by apply upd_spec|].
  intros s' (Hh' & ?). rewrite Hp. done.
Qed.

(** [if (subtree->parent) ... else *root = n] *)
Lemma relink_spec s h side ctx n l :
  holds (rb_nodes s) (cellsc h ctx ++ l) ->
  (forall f ctx', ctx = f :: ctx' -> side (node (fdir f) (pctx ctx') h (ptr (fo f)) (fc f) (Ref (fd f))) = fdir f) ->
  returns (if nonnull (pctx ctx) then p ← get (pctx ctx) s; upd (pctx ctx) (set_child (side p) n) s
           else Ret (set_root n s))
    (fun s' => holds (rb_nodes s') (cellsc n ctx ++ l) /\
               rb_root s' = (match ctx with [] => n | _ => rb_root s end) /\ same s s').
Proof.
  intros Hh Hside. destruct ctx as [|f ctx]; [done|]. cbn [pctx nonnull cellsc] in *.
  specialize (Hside _ _ eq_refl). rewrite <- app_assoc in Hh |- *.
  mpure (holds_get _ _ _ _ Hh). rewrite Hside. eapply returns_mono; [by apply upd_spec|].
  intros s' (Hh' & Hr & Hs). by rewrite set_child_node in Hh'.
Qed.

Lemma holds_swap m x y l : holds m ([x] ++ [y] ++ l) -> holds m ([y] ++ [x] ++ l).
Proof. apply holds_perm. aac_reflexivity. Qed.

(** The cells of a rotation: two nodes, [Y] between them, and the rest. *)
Definition pair_cells (ps : word) (ctx : list frame) (a b : Z) (X Y W : rbt) (na nb : rb_tree_node) (py h : word) :
    list (Z * rb_tree_node) :=
  [(a, na)] ++ [(b, nb)] ++ leaf ps ++ cells py Y ++ cells (Ref a) X ++ cells (Ref b) W ++ cellsc h ctx.

Lemma rotate_before ps ctx dir ca a da X cb b db Y W :
  leaf ps ++ cells (pctx ctx) (mk dir ca a da X (mk dir cb b db Y W)) ++ cellsc (Ref a) ctx ≡ₚ
  pair_cells ps ctx a b X Y W (node dir (pctx ctx) (ptr X) (Ref b) ca (Ref da)) (node dir (Ref a) (ptr Y) (ptr W) cb (Ref db))
    (Ref b) (Ref a).
Proof. rewrite !cells_mk, !ptr_mk. unfold pair_cells. aac_reflexivity. Qed.

Lemma rotate_after ps ctx dir ca a da X cb b db Y W :
  leaf ps ++ cells (pctx ctx) (mk dir cb b db (mk dir ca a da X Y) W) ++ cellsc (Ref b) ctx ≡ₚ
  pair_cells ps ctx a b X Y W (node dir (Ref b) (ptr X) (ptr Y) ca (Ref da)) (node dir (pctx ctx) (Ref a) (ptr W) cb (Ref db))
    (Ref a) (Ref b).
Proof. rewrite !cells_mk, !ptr_mk. unfold pair_cells. aac_reflexivity. Qed.

Section Pair.
Context (ps : word) (ctx : list frame) (a b : Z) (X Y W : rbt).
Abbreviation P := (pair_cells ps ctx a b X Y W).

Lemma pair_get_a s na nb py h : holds (rb_nodes s) (P na nb py h) -> get (Ref a) s = Ret na.
Proof. apply holds_get. Qed.

Lemma pair_get_b s na nb py h : holds (rb_nodes s) (P na nb py h) -> get (Ref b) s = Ret nb.
Proof. intros H%holds_swap. by eapply holds_get. Qed.

Lemma pair_nil s na nb py h : holds (rb_nodes s) (P na nb py h) -> Ref a <> RB_NIL /\ Ref b <> RB_NIL.
Proof.
  intros H. set (l := cells py Y ++ cells (Ref a) X ++ cells (Ref b) W ++ cellsc h ctx). split.
  - eapply (not_leaf (rb_nodes s) ps a na ([(b, nb)] ++ l)). eapply holds_perm; [|exact H]. unfold P, l. aac_reflexivity.
  - eapply (not_leaf (rb_nodes s) ps b nb ([(a, na)] ++ l)). eapply holds_perm; [|exact H]. unfold P, l. aac_reflexivity.
Qed.

Lemma pair_upd_a s na nb py h f :
  holds (rb_nodes s) (P na nb py h) ->
  returns (upd (Ref a) f s) (fun s' => holds (rb_nodes s') (P (f na) nb py h) /\ rb_root s' = rb_root s /\ same s s').
Proof. apply upd_spec. Qed.

Lemma pair_upd_b s na nb py h f :
  holds (rb_nodes s) (P na nb py h) ->
  returns (upd (Ref b) f s) (fun s' => holds (rb_nodes s') (P na (f nb) py h) /\ rb_root s' = rb_root s /\ same s s').
Proof.
  intros H%holds_swap. eapply returns_mono; [by apply upd_spec|]. intros s' (H' & ?). split; [|done].
  by apply holds_swap.
Qed.

Lemma pair_reparent s na nb py h p' :
  holds (rb_nodes s) (P na nb py h) ->
  returns (if decide (ptr Y = RB_NIL) then Ret s else upd (ptr Y) (set_parent p') s)
    (fun s' => holds (rb_nodes s') (P na nb p' h) /\ rb_root s' = rb_root s /\ same s s').
Proof.
  set (l := [(a, na)] ++ [(b, nb)] ++ cells (Ref a) X ++ cells (Ref b) W ++ cellsc h ctx).
  assert (forall q, P na nb q h ≡ₚ cells q Y ++ leaf ps ++ l) as Hp. { intros q. unfold P, l. aac_reflexivity. }
  rewrite Hp. intros H. eapply returns_mono; [by apply (reparent_spec s ps py p' Y l)|].
  intros s' (H' & ?). by rewrite Hp.
Qed.

Lemma pair_relink s na nb py dir n :
  holds (rb_nodes s) (P na nb py (Ref a)) -> (forall f ctx', ctx = f :: ctx' -> Ref a <> ptr (fo f)) ->
  returns (if nonnull (pctx ctx) then
             p ← get (pctx ctx) s;
             upd (pctx ctx) (set_child (if decide (Ref a = child dir p) then dir else negb dir) n) s
           else Ret (set_root n s))
    (fun s' => holds (rb_nodes s') (P na nb py n) /\ rb_root s' = (match ctx with [] => n | _ => rb_root s end) /\ same s s').
Proof.
  set (l := [(a, na)] ++ [(b, nb)] ++ leaf ps ++ cells py Y ++ cells (Ref a) X ++ cells (Ref b) W).
  assert (forall h, P na nb py h ≡ₚ cellsc h ctx ++ l) as Hp. { intros q. unfold P, l. aac_reflexivity. }
  rewrite Hp. intros H Hne.
  eapply returns_mono; [apply (relink_spec s (Ref a) (fun p => if decide (Ref a = child dir p) then dir else negb dir) ctx n l H)|].
  { intros [fdr c f d o] ctx' ->. specialize (Hne _ _ eq_refl). cbn [fdir fc fa fd fo] in *.
    destruct (decide (fdr = dir)) as [->|Hd]; [by rewrite child_node, decide_True|].
    assert (fdr = negb dir) as -> by (by destruct fdr, dir). by rewrite node_negb, child_node, decide_False. }
  intros s' (H' & ?). by rewrite Hp.
Qed.

End Pair.

Lemma root_rotated ctx a t t' w : ptr t = Ref a -> ptr t' = w ->
  ptr (plug ctx t') = match ctx with [] => w | _ => ptr (plug ctx t) end.
Proof. intros Ht <-. destruct ctx as [|f ctx]; [done|]. simpl. apply plug_ptr. unfold up. by rewrite !ptr_mk. Qed.

(** [_rotate] turns [subtree] below its child at [1 - dir]. *)
Lemma rotate_spec s ps ctx dir ca a da X cb b db Y W :
  zip s ps ctx (mk dir ca a da X (mk dir cb b db Y W)) ->
  returns (_rotate sentinel (Ref a) dir s) (fun s' =>
    zip s' ps ctx (mk dir cb b db (mk dir ca a da X Y) W) /\ same s s').
Proof.
  intros Hz. assert (forall f ctx', ctx = f :: ctx' -> Ref a <> ptr (fo f)) as Hne.
  { intros f ctx' ->. apply zip_apart in Hz as [[_ Hne]|[Hn _]]; [by rewrite ptr_mk in Hne|by destruct dir]. }
  pose proof (z_root _ _ _ _ Hz) as Hroot. pose proof (z_cells _ _ _ _ Hz) as H0. clear Hz.
  rewrite ptr_mk, rotate_before in H0. destruct (pair_nil _ _ _ _ _ _ _ _ _ _ _ _ H0) as [Ha Hb].
  unfold _rotate. mpure (pair_get_a _ _ _ _ _ _ _ _ _ _ _ _ H0). autorewrite with rb.
  mpure (pair_get_b _ _ _ _ _ _ _ _ _ _ _ _ H0). autorewrite with rb.
  mcall (pair_upd_a _ _ _ _ _ _ _ _ _ _ _ _ (set_child (negb dir) (ptr Y)) H0).
  intros s1 (H1 & Hr1 & Hs1). autorewrite with rb in H1.
  mpure (pair_get_b _ _ _ _ _ _ _ _ _ _ _ _ H1). autorewrite with rb.
  mcall (pair_reparent _ _ _ _ _ _ _ _ _ _ _ _ (Ref a) H1). intros s2 (H2 & Hr2 & Hs2).
  mpure (pair_get_a _ _ _ _ _ _ _ _ _ _ _ _ H2). autorewrite with rb. rewrite decide_False by exact Hb.
  mcall (pair_upd_b _ _ _ _ _ _ _ _ _ _ _ _ (set_parent (pctx ctx)) H2).
  intros s3 (H3 & Hr3 & Hs3). autorewrite with rb in H3.
  mpure (pair_get_a _ _ _ _ _ _ _ _ _ _ _ _ H3). autorewrite with rb.
  mcall (pair_relink _ _ _ _ _ _ _ _ _ _ _ dir (Ref b) H3 Hne). intros s4 (H4 & Hr4 & Hs4).
  mcall (pair_upd_b _ _ _ _ _ _ _ _ _ _ _ _ (set_child dir (Ref a)) H4).
  intros s5 (H5 & Hr5 & Hs5). autorewrite with rb in H5. rewrite decide_False by exact Ha.
  eapply returns_mono; [apply (pair_upd_a _ _ _ _ _ _ _ _ _ _ _ _ (set_parent (Ref b)) H5)|].
  intros s6 (H6 & Hr6 & Hs6). autorewrite with rb in H6. split; [split|].
  - by rewrite ptr_mk, rotate_after.
  - rewrite Hr6, Hr5, Hr4, Hr3, Hr2, Hr1, Hroot. symmetry. eapply root_rotated; apply ptr_mk.
  - eauto 10 using same_trans.
Qed.

End Rep.
End RbRep.
