(* ===== verification/RbSpec.v ===== *)
(** * Red-black trees: balance, and what the fixups restore

    [bal t n]: no red node of [t] has a red child and every path to a leaf
    passes [n] black nodes; [balc ctx n]: the path [ctx] takes a subtree of
    black height [n].  [_insert_fixup] repairs a red node below a red parent,
    [_remove_fixup] a subtree one black node short. *)

From stdpp Require Import gmap.
From S2P Require Import Prelude Mem FrameHdr FrameAlloc PageIface Slab RbTree RbRep.

Module RbSpec.
Import RbTree RbRep.

#[export] Hint Rewrite ptr_mk : rb.

Fixpoint bal (t : rbt) (n : nat) : Prop :=
  match t with
  | E => n = O
  | T RB_RED _ _ l r => color l = RB_BLACK /\ color r = RB_BLACK /\ bal l n /\ bal r n
  | T RB_BLACK _ _ l r => exists n', n = S n' /\ bal l n' /\ bal r n'
  end.

(** The color above the hole; nothing is above the root. *)
Definition top (ctx : list frame) : rb_tree_color := match ctx with [] => RB_BLACK | f :: _ => fc f end.

Fixpoint balc (ctx : list frame) (n : nat) : Prop :=
  match ctx with
  | [] => True
  | f :: ctx =>
      match fc f with
      | RB_RED => color (fo f) = RB_BLACK /\ ctx <> [] /\ top ctx = RB_BLACK /\ bal (fo f) n /\ balc ctx n
      | RB_BLACK => bal (fo f) n /\ balc ctx (S n)
      end
  end.

Lemma bal_red dir a d x y n :
  bal (mk dir RB_RED a d x y) n <-> color x = RB_BLACK /\ color y = RB_BLACK /\ bal x n /\ bal y n.
Proof. destruct dir; simpl; tauto. Qed.

Lemma bal_black dir a d x y n : bal (mk dir RB_BLACK a d x y) (S n) <-> bal x n /\ bal y n.
Proof.
  destruct dir; simpl; (split; [intros (m & [= <-] & ? & ?); done|intros [? ?]; by exists n]).
Qed.

Lemma bal_paint t n : bal t n -> color t = RB_RED -> bal (paint RB_BLACK t) (S n).
Proof. destruct t as [|[] a d l r]; [done| |done]. intros (_ & _ & ? & ?) _. by exists n. Qed.

Lemma color_paint t : color (paint RB_BLACK t) = RB_BLACK.
Proof. by destruct t. Qed.

Lemma plug_bal ctx t n : balc ctx n -> bal t n -> (color t = RB_RED -> top ctx = RB_BLACK) -> exists m, bal (plug ctx t) m.
Proof.
  revert t n. induction ctx as [|[dir c a d o] ctx IH]; intros t n Hc Ht Htop; [by exists n|].
  simpl in *. unfold up. simpl. destruct c.
  - destruct Hc as (Ho & _ & Ht' & Hbo & Hc). apply (IH _ n); [done| |done].
    apply bal_red. split; [|done]. destruct (color t); [by specialize (Htop eq_refl)|done].
  - destruct Hc as [Hbo Hc]. apply (IH _ (S n)); [done|by apply bal_black|by rewrite color_mk].
Qed.

(** ** The order of the nodes *)

Fixpoint bef (ctx : list frame) : list (Z * Z) :=
  match ctx with
  | [] => []
  | f :: ctx => if fdir f then bef ctx else bef ctx ++ flat (fo f) ++ [(fa f, fd f)]
  end.
Fixpoint aft (ctx : list frame) : list (Z * Z) :=
  match ctx with
  | [] => []
  | f :: ctx => if fdir f then (fa f, fd f) :: flat (fo f) ++ aft ctx else aft ctx
  end.

Lemma plug_flat ctx t : flat (plug ctx t) = bef ctx ++ flat t ++ aft ctx.
Proof.
  revert t. induction ctx as [|[[] c a d o] ctx IH]; intros t; simpl; [by rewrite app_nil_r| |].
  - rewrite IH. unfold up, mk. simpl. by rewrite <- !app_assoc.
  - rewrite IH. unfold up, mk. simpl. by rewrite <- !app_assoc.
Qed.

Lemma plug_flat_eq ctx t t' : flat t = flat t' -> flat (plug ctx t) = flat (plug ctx t').
Proof. intros He. by rewrite !plug_flat, He. Qed.

Lemma flat_mk dir c a d x y : flat (mk dir c a d x y) = if dir then flat x ++ [(a, d)] ++ flat y else flat y ++ [(a, d)] ++ flat x.
Proof. by destruct dir. Qed.

Lemma flat_paint k t : flat (paint k t) = flat t.
Proof. by destruct t. Qed.

(** Rotations and colors keep the order. *)
Ltac same_order := apply plug_flat_eq || idtac; unfold up; cbn [fdir fc fa fd fo];
  repeat match goal with |- context [mk ?d _ _ _ _ _] => is_var d; destruct d end; cbn [mk negb];
  repeat match goal with |- context [mk ?d _ _ _ _ _] => destruct d; cbn [mk] end;
  cbn [mk negb flat]; rewrite ?flat_paint, <- ?app_assoc; reflexivity.

Section Fix.
Context (sentinel : home).
Abbreviation zip := (zip sentinel).
Abbreviation ptr := (ptr sentinel).

Lemma zip_paint s ps ctx t k :
  zip s ps ctx t -> t <> E \/ k = RB_BLACK ->
  returns (upd (ptr t) (set_color k) s) (fun s' => zip s' ps ctx (paint k t) /\ same s s').
Proof.
  intros Hz Hk. destruct t as [|c a d l r].
  - destruct Hk as [?| ->]; [done|]. destruct Hz as [Hh Hr].
    eapply returns_mono; [apply (upd_spec _ _ _ _ _ Hh)|]. intros s' (Hh' & Hr' & Hs). split; [|done]. split; [done|by rewrite Hr', Hr].
  - rewrite (mk_at false) in *. rewrite ptr_mk, paint_mk. by eapply zip_color.
Qed.

(** The sibling's view of the same place. *)
Definition flip (f : frame) (t : rbt) : frame := Fr (negb (fdir f)) (fc f) (fa f) (fd f) t.

Lemma up_flip f t : up (flip f t) (fo f) = up f t.
Proof. unfold up, flip. simpl. apply mk_negb. Qed.

Lemma zip_flip s ps f ctx t : zip s ps (f :: ctx) t <-> zip s ps (flip f t :: ctx) (fo f).
Proof. by rewrite !zip_up, up_flip. Qed.

Lemma zip_parent s ps f ctx t :
  zip s ps (f :: ctx) t ->
  get (Ref (fa f)) s = Ret (node (fdir f) (pctx ctx) (ptr t) (ptr (fo f)) (fc f) (Ref (fd f))).
Proof. rewrite zip_up. apply zip_get. Qed.

(** [dir]: the side the node is not on. *)
Lemma side_spec s ps f ctx t p c d :
  zip s ps (f :: ctx) t -> t <> E \/ fo f <> E ->
  bool_decide (ptr t = child RB_LEFT (node (fdir f) p (ptr t) (ptr (fo f)) c d)) = negb (fdir f).
Proof.
  intros Hz Hne. destruct (zip_apart _ _ _ _ _ _ Hz) as [[_ Ha]|[-> ?]]; [|by destruct Hne].
  destruct f as [[] c' a' d' o]; simpl in *; [by apply bool_decide_eq_false_2|by apply bool_decide_eq_true_2].
Qed.

(** [node == node->parent->child[dir]] *)
Lemma at_spec s ps f ctx t dir p c d :
  zip s ps (f :: ctx) t -> t <> E ->
  ptr t = child dir (node (fdir f) p (ptr t) (ptr (fo f)) c d) <-> fdir f = dir.
Proof.
  intros Hz Hne. destruct (zip_apart _ _ _ _ _ _ Hz) as [[_ Ha]|[-> ?]]; [|done].
  destruct f as [[] c' a' d' o], dir; simpl in *; by split.
Qed.

(** ** Insertion *)

Lemma insert_exit fuel s ps ctx t :
  zip s ps ctx t -> t <> E -> top ctx = RB_BLACK -> insert_fixup_loop sentinel (S fuel) (ptr t) s = Ret s.
Proof.
  intros Hz Hne Htop. cbn [insert_fixup_loop]. destruct (decide (ptr t = rb_root s)) as [|Hr]; [done|].
  destruct ctx as [|f ctx]; [by destruct Hr; apply (zip_root _ _ _ _ _ Hz)|].
  destruct (zip_read _ _ _ _ _ Hz) as (n & Hn & _ & Hp). rewrite Hn. cbn [mbind outcome_bind].
  destruct t; [done|]. rewrite Hp. cbn [pctx]. rewrite (zip_parent _ _ _ _ _ Hz). cbn [mbind outcome_bind].
  rewrite color_node, decide_False; [done|]. simpl in Htop. by rewrite Htop.
Qed.

(** The last rotation: [x] hangs outside, below the red [p]. *)
Lemma insert_outer fuel s ps ctx D g gd c U p pd x y :
  zip s ps (Fr D c g gd U :: ctx) (mk D RB_RED p pd x y) -> x <> E ->
  returns (n ← get (ptr x) s;
           s ← upd (n_parent n) (set_color RB_BLACK) s;
           p ← get (n_parent n) s;
           s ← upd (n_parent p) (set_color RB_RED) s;
           s ← _rotate sentinel (n_parent p) (negb D) s;
           insert_fixup_loop sentinel (S fuel) (ptr x) s)
    (fun s' => zip s' ps ctx (mk D RB_BLACK p pd x (mk D RB_RED g gd y U)) /\ same s s').
Proof.
  intros Hz Hx. destruct (zip_read sentinel s ps (Fr D RB_RED p pd y :: Fr D c g gd U :: ctx) x) as (n & Hn & _ & Hp).
  { by apply zip_up. }
  mpure Hn. assert (n_parent n = Ref p) as -> by (by destruct x).
  mcall (zip_color _ _ _ _ _ _ _ _ _ _ RB_BLACK Hz). intros s1 (Hz1 & Hs1).
  mpure (zip_get _ _ _ _ _ _ _ _ _ _ Hz1). rewrite parent_node. cbn [pctx fa].
  apply zip_up in Hz1. unfold up in Hz1. cbn [fdir fc fa fd fo] in Hz1.
  mcall (zip_color _ _ _ _ _ _ _ _ _ _ RB_RED Hz1). intros s2 (Hz2 & Hs2).
  rewrite <- !(mk_negb D) in Hz2. mcall (rotate_spec _ _ _ _ _ _ _ _ _ _ _ _ _ _ Hz2).
  intros s3 (Hz3 & Hs3). rewrite !mk_negb in Hz3.
  eapply returns_eq; [|split; [exact Hz3|eauto using same_trans]].
  eapply (insert_exit _ _ ps (Fr D RB_BLACK p pd _ :: ctx)); [by apply zip_up|done|done].
Qed.

(** A red uncle: the grandparent's children turn black, and it red. *)
Lemma insert_recolor s ps ctx f1 f2 t k Q :
  zip s ps (f1 :: f2 :: ctx) t ->
  (forall s', zip s' ps ctx (mk (fdir f2) RB_RED (fa f2) (fd f2) (mk (fdir f1) RB_BLACK (fa f1) (fd f1) t (fo f1))
                               (paint RB_BLACK (fo f2))) -> same s s' -> returns (k s') Q) ->
  returns (s ← upd (Ref (fa f1)) (set_color RB_BLACK) s;
           s ← upd (ptr (fo f2)) (set_color RB_BLACK) s;
           s ← upd (Ref (fa f2)) (set_color RB_RED) s;
           k s : outcome rbs) Q.
Proof.
  intros Hz Hk. apply zip_up in Hz. mcall (zip_color _ _ _ _ _ _ _ _ _ _ RB_BLACK Hz). intros s1 (Hz1 & Hs1).
  apply zip_flip in Hz1. mcall (zip_paint _ _ _ _ RB_BLACK Hz1); [by right|]. intros s2 (Hz2 & Hs2).
  apply zip_up in Hz2. unfold up, flip in Hz2. cbn [fdir fc fa fd fo] in Hz2. rewrite mk_negb in Hz2.
  mcall (zip_color _ _ _ _ _ _ _ _ _ _ RB_RED Hz2). intros s3 [Hz3 Hs3]. eauto using same_trans.
Qed.

(** A black uncle: at most two rotations, and the loop ends. *)
Lemma insert_rotate fuel s ps ctx f1 f2 t x :
  zip s ps (f1 :: f2 :: ctx) t -> color t = RB_RED -> fc f1 = RB_RED ->
  x = node (fdir f1) (Ref (fa f2)) (ptr t) (ptr (fo f1)) RB_RED (Ref (fd f1)) ->
  returns ('(node, s) ← (if decide (ptr t = child (negb (fdir f2)) x) then
                            s ← _rotate sentinel (Ref (fa f1)) (negb (negb (fdir f2))) s; Ret (Ref (fa f1), s)
                          else Ret (ptr t, s));
           n ← get node s;
           s ← upd (n_parent n) (set_color RB_BLACK) s;
           p ← get (n_parent n) s;
           s ← upd (n_parent p) (set_color RB_RED) s;
           s ← _rotate sentinel (n_parent p) (negb (fdir f2)) s;
           insert_fixup_loop sentinel (S fuel) node s)
    (fun s' => exists t', zip s' ps ctx t' /\ flat t' = flat (up f2 (up f1 t)) /\ same s s' /\ color t' = RB_BLACK /\
       forall n, bal t n -> bal (fo f1) n -> bal (fo f2) n -> color (fo f1) = RB_BLACK -> color (fo f2) = RB_BLACK -> bal t' (S n)).
Proof.
  intros Hz Ht H1 ->. destruct t as [|c z zd l r]; [done|]. simpl in Ht. subst c.
  pose proof (at_spec _ _ _ _ _ (negb (fdir f2)) (Ref (fa f2)) RB_RED (Ref (fd f1)) Hz) as Hat.
  destruct f1 as [d1 c1 p pd B], f2 as [D c2 g gd U]. cbn [fdir fc fa fd fo] in *. subst c1.
  destruct (decide (ptr (T RB_RED z zd l r) = _)) as [Heq|Hneq].
  - apply Hat in Heq as ->; [|done]. rewrite negb_involutive, (mk_at D) in *. apply zip_up in Hz.
    unfold up in Hz. cbn [fdir fc fa fd fo] in Hz. rewrite mk_negb in Hz.
    mstep. mcall (rotate_spec _ _ _ _ _ _ _ _ _ _ _ _ _ _ Hz). intros s1 (Hz1 & Hs1). apply returns_ret. cbv beta iota.
    rewrite <- (ptr_mk sentinel D RB_RED p pd B (if D then r else l)).
    eapply returns_mono; [eapply insert_outer; [exact Hz1|by destruct D]|].
    intros s' [Hz' Hs']. eexists. split; [exact Hz'|].
    split; [same_order|]. split; [eauto using same_trans|]. split; [apply color_mk|]. intros n Hb HB HU HcB HcU.
    apply bal_red in Hb as (? & ? & ? & ?). apply bal_black. split; apply bal_red; done.
  - assert (d1 = D) as -> by (destruct d1, D; try done; by destruct Hneq; apply Hat). cbn [mbind outcome_bind].
    apply zip_up in Hz.
    eapply returns_mono; [eapply insert_outer; [exact Hz|done]|].
    intros s' [Hz' Hs']. eexists. split; [exact Hz'|].
    split; [same_order|]. split; [done|]. split; [apply color_mk|]. intros n Hb HB HU HcB HcU.
    apply bal_black. split; [done|]. apply bal_red. done.
Qed.

Lemma insert_loop_spec fuel s ps ctx t n :
  zip s ps ctx t -> color t = RB_RED -> balc ctx n -> bal t n -> (length ctx < fuel)%nat ->
  returns (insert_fixup_loop sentinel fuel (ptr t) s) (fun s' => exists t' m,
    zip s' ps [] t' /\ bal t' m /\ flat t' = flat (plug ctx t) /\ same s s').
Proof.
  revert s ctx t n. induction fuel as [fuel IH] using lt_wf_ind. intros s ctx t n Hz Hred Hc Hb Hfuel.
  assert (t <> E) as Hne by (by destruct t). destruct fuel as [|fuel]; [lia|].
  destruct (top ctx) eqn:Htop.
  2: { rewrite (insert_exit fuel _ _ _ _ Hz Hne Htop). destruct (plug_bal _ _ _ Hc Hb) as [m Hm]; [done|].
       exists (plug ctx t), m. split; [by apply zip_close|done]. }
  destruct ctx as [|f1 ctx]; [done|]. simpl in Htop, Hc. rewrite Htop in Hc. destruct Hc as (Ho1 & Hnil & Htop2 & Hb1 & Hc).
  destruct ctx as [|f2 ctx]; [done|]. simpl in Htop2, Hc. rewrite Htop2 in Hc. destruct Hc as [Hb2 Hc].
  cbn [insert_fixup_loop]. rewrite decide_False by (by rewrite (zip_root _ _ _ _ _ Hz)).
  destruct (zip_read _ _ _ _ _ Hz) as (x & Hx & _ & Hp). mpure Hx.
  assert (n_parent x = Ref (fa f1)) as -> by (by destruct t). mpure (zip_parent _ _ _ _ _ Hz).
  rewrite color_node, decide_True by done. rewrite parent_node. cbn [pctx].
  pose proof (proj1 (zip_up _ _ _ _ _ _) Hz) as Hz'. pose proof (zip_parent _ _ _ _ _ Hz') as Hg.
  assert (ptr (up f1 t) = Ref (fa f1)) as Hup by apply ptr_mk.
  mpure Hg. cbv zeta. rewrite <- Hup, (side_spec _ _ _ _ _ _ _ _ Hz') by (left; unfold up; by destruct (fdir f1)).
  rewrite child_negb. destruct (zip_read _ _ _ _ _ (proj1 (zip_flip _ _ _ _ _) Hz')) as (u & Hu & Hcu & _). mpure Hu.
  rewrite Hcu, Hup. destruct (decide (color (fo f2) = RB_RED)) as [Hur|Hur].
  - apply (insert_recolor _ _ _ _ _ _ _ _ Hz). intros s1 Hz1 Hs1.
    rewrite <- (ptr_mk sentinel (fdir f2) RB_RED (fa f2) (fd f2) (mk (fdir f1) RB_BLACK (fa f1) (fd f1) t (fo f1)) (paint RB_BLACK (fo f2))).
    eapply returns_mono; [eapply (IH fuel); [lia|exact Hz1|apply color_mk|exact Hc| |simpl in Hfuel; lia]|].
    + apply bal_red. rewrite color_mk, color_paint. split_and!; [done|done|by apply bal_black|by apply bal_paint].
    + intros s' (t' & m & ? & ? & Hfl & ?). exists t', m. split_and!; [done|done| |by eapply same_trans].
      rewrite Hfl. simpl. same_order.
  - destruct fuel as [|fuel]; [simpl in Hfuel; lia|]. rewrite Htop.
    eapply returns_mono; [apply (insert_rotate fuel _ _ _ _ _ _ _ Hz Hred Htop eq_refl)|].
    intros s' (t' & Hz1 & Hfl & Hs & Hbl & Hbal).
    destruct (plug_bal ctx t' (S n)) as [m Hm]; [done| |by rewrite Hbl|].
    { apply Hbal; try done. by destruct (color (fo f2)). }
    exists (plug ctx t'), m. split_and!; [by apply zip_close|done|cbn [plug]; by apply plug_flat_eq|done].
Qed.

(** A path is no longer than the store is large. *)
Lemma zip_depth s ps ctx t : zip s ps ctx t -> (length ctx <= size (rb_nodes s))%nat.
Proof.
  intros Hz. pose proof (holds_size _ _ (z_cells _ _ _ _ _ Hz)) as Hs. rewrite !length_app in Hs.
  assert (length ctx <= length (cellsc sentinel (ptr t) ctx))%nat; [|lia].
  clear. generalize (ptr t). induction ctx as [|f ctx IH]; intros w; simpl; [done|]. rewrite length_app.
  specialize (IH (Ref (fa f))). lia.
Qed.

(** [_insert_fixup]: a red node in a balanced tree leaves one with a black root. *)
Lemma insert_fixup_spec s ps ctx t n :
  zip s ps ctx t -> color t = RB_RED -> balc ctx n -> bal t n ->
  returns (_insert_fixup sentinel (ptr t) s) (fun s' => exists t' m,
    zip s' ps [] t' /\ bal t' m /\ color t' = RB_BLACK /\ flat t' = flat (plug ctx t) /\ same s s').
Proof.
  intros Hz Hred Hc Hb. unfold _insert_fixup. mcall (insert_loop_spec (S (size (rb_nodes s))) _ _ _ _ _ Hz Hred Hc Hb).
  { pose proof (zip_depth _ _ _ _ Hz). lia. }
  intros s1 (t1 & m & Hz1 & Hb1 & Hfl & Hs1). rewrite (z_root _ _ _ _ _ Hz1). cbn [plug].
  eapply returns_mono; [apply (zip_paint _ _ _ _ RB_BLACK Hz1); by right|]. intros s2 [Hz2 Hs2].
  assert (exists k, bal (paint RB_BLACK t1) k) as [k Hk].
  { destruct (color t1) eqn:Hc1; [exists (S m); by apply bal_paint|]. exists m. by destruct t1 as [|[] ? ? ? ?]. }
  exists (paint RB_BLACK t1), k. split_and!; [done|done|apply color_paint|by rewrite flat_paint|by eapply same_trans].
Qed.

End Fix.
End RbSpec.
