(* ===== verification/RbRemove.v ===== *)
(** * Red-black trees: the fixup of a removal

    The loop of [_remove_fixup] holds a black subtree one black node short of
    what its place asks for.  It ends at the root, at a red node (which turns
    black), or with a rotation that makes up for the missing node. *)

From stdpp Require Import gmap.
From S2P Require Import Prelude Mem FrameHdr FrameAlloc PageIface Slab RbTree RbRep RbSpec.

Module RbRemove.
Import RbTree RbRep RbSpec.

Section Remove.
Context (sentinel : home).
Abbreviation zip := (zip sentinel).
Abbreviation ptr := (ptr sentinel).

(** The node in the loop knows its parent, also when it is the sentinel. *)
Definition parented (ps : word) (ctx : list frame) (t : rbt) : Prop := t = E -> ps = pctx ctx.

Lemma zip_child s ps f ctx t :
  zip s ps (f :: ctx) t -> parented ps (f :: ctx) t ->
  exists x, get (ptr t) s = Ret x /\ n_color x = color t /\ n_parent x = Ref (fa f).
Proof.
  intros Hz Hp. destruct (zip_read _ _ _ _ _ Hz) as (x & Hx & Hc & Hn). exists x. split; [done|]. split; [done|].
  rewrite Hn. destruct t; [by apply Hp|done].
Qed.

Lemma remove_exit fuel s ps ctx t :
  zip s ps ctx t -> ctx = [] \/ color t = RB_RED -> remove_fixup_loop sentinel (S fuel) (ptr t) s = Ret (ptr t, s).
Proof.
  intros Hz Hor. cbn [remove_fixup_loop]. destruct (decide (ptr t = rb_root s)) as [|Hr]; [done|].
  destruct Hor as [->|Hred]; [by destruct Hr; apply (zip_root _ _ _ _ _ Hz)|].
  destruct (zip_read _ _ _ _ _ Hz) as (n & Hn & Hc & _). rewrite Hn. cbn [mbind outcome_bind].
  rewrite decide_False; [done|]. by rewrite Hc, Hred.
Qed.

(** A red sibling is rotated above the parent; the new one is black. *)
Lemma red_sibling s ps f ctx t n b x :
  zip s ps (f :: ctx) t -> parented ps (f :: ctx) t -> balc (f :: ctx) (S n) ->
  n_color b = color (fo f) -> n_parent x = Ref (fa f) ->
  returns (if decide (n_color b = RB_RED) then
             s ← upd (ptr (fo f)) (set_color RB_BLACK) s;
             s ← upd (n_parent x) (set_color RB_RED) s;
             s ← _rotate sentinel (n_parent x) (fdir f) s;
             x ← get (ptr t) s;
             p ← get (n_parent x) s;
             Ret (child (negb (fdir f)) p, s)
           else Ret (ptr (fo f), s))
    (fun '(sib, s') => exists c o ctx', let f' := Fr (fdir f) c (fa f) (fd f) o in
       zip s' ps (f' :: ctx') t /\ sib = ptr o /\ color o = RB_BLACK /\ balc (f' :: ctx') (S n) /\
       flat (plug (f' :: ctx') t) = flat (plug (f :: ctx) t) /\ same s s' /\ (c = RB_RED \/ ctx' = ctx)).
Proof.
  intros Hz Hp Hc Hb ->. destruct f as [D c p pd w]. cbn [fdir fc fa fd fo] in *. rewrite Hb.
  destruct (decide (color w = RB_RED)) as [Hred|Hblk]; cycle 1.
  { exists c, w, ctx. split_and!; try done; [by destruct (color w)|by right]. }
  assert (c = RB_BLACK) as ->. { destruct c; [|done]. simpl in Hc. destruct Hc as [Hw _]. congruence. }
  destruct w as [|cw wa wd l r]; [done|]. simpl in Hred. subst cw. rewrite (mk_at D) in Hz, Hc |- *.
  set (wl := if D then r else l) in *. set (wr := if D then l else r) in *.
  destruct Hc as [Hw Hc]. cbn [fo] in Hw. apply bal_red in Hw as (Hcl & Hcr & Hbl & Hbr).
  apply zip_flip in Hz. cbn [fo] in Hz. rewrite ptr_mk. mcall (zip_color _ _ _ _ _ _ _ _ _ _ RB_BLACK Hz).
  intros s1 [Hz1 Hs1]. apply zip_up in Hz1. unfold up, flip in Hz1. cbn [fdir fc fa fd fo] in Hz1. rewrite mk_negb in Hz1.
  mcall (zip_color _ _ _ _ _ _ _ _ _ _ RB_RED Hz1). intros s2 [Hz2 Hs2].
  mcall (rotate_spec _ _ _ _ _ _ _ _ _ _ _ _ _ _ Hz2). intros s3 [Hz3 Hs3].
  assert (zip s3 ps (Fr D RB_RED p pd wl :: Fr D RB_BLACK wa wd wr :: ctx) t) as Hz4 by (by apply zip_up, zip_up).
  destruct (zip_child _ _ _ _ _ Hz4 Hp) as (y & Hy & _ & Hyp). mpure Hy. rewrite Hyp. mpure (zip_parent _ _ _ _ _ _ Hz4).
  cbn [fdir fc fa fd fo]. rewrite child_negb. apply returns_ret.
  exists RB_RED, wl, (Fr D RB_BLACK wa wd wr :: ctx). split_and!; [done|done|done| |..].
  - cbn [balc fc fo]. by split_and!.
  - cbn [plug]. same_order.
  - eauto using same_trans.
  - by left.
Qed.

(** A red child next to the node moves to the far side of the sibling. *)
Lemma far_child s ps D c p pd ctx t n wa wd wl wr b far near :
  let w := mk D RB_BLACK wa wd wl wr in
  zip s ps (Fr D c p pd w :: ctx) t -> parented ps (Fr D c p pd w :: ctx) t ->
  bal wl n -> bal wr n -> (color wl = RB_RED \/ color wr = RB_RED) -> n_color far = color wr ->
  child D b = ptr wl -> near = ptr wl ->
  returns (if decide (n_color far = RB_BLACK) then
             s ← upd near (set_color RB_BLACK) s;
             s ← upd (Ref wa) (set_color RB_RED) s;
             s ← _rotate sentinel (Ref wa) (negb D) s;
             x ← get (ptr t) s;
             p ← get (n_parent x) s;
             Ret (child (negb D) p, s)
           else Ret (Ref wa, s))
    (fun '(sib, s') => exists va vd vl vr, let v := mk D RB_BLACK va vd vl vr in
       zip s' ps (Fr D c p pd v :: ctx) t /\ sib = Ref va /\ bal vl n /\ bal vr n /\ color vr = RB_RED /\
       flat v = flat w /\ same s s').
Proof.
  intros w Hz Hp Hl Hr Hor Hfar Hnear ->. subst w. rewrite Hfar. destruct (decide (color wr = RB_BLACK)) as [Hblk|Hred]; cycle 1.
  { exists wa, wd, wl, wr. split_and!; try done. by destruct (color wr). }
  destruct Hor as [Hred|?]; [|congruence]. destruct wl as [|cl la ld l r]; [done|]. simpl in Hred. subst cl.
  rewrite (mk_at D) in *. set (ll := if D then r else l) in *. set (lr := if D then l else r) in *.
  apply bal_red in Hl as (Hcl & Hcr & Hbl & Hbr). rewrite ptr_mk.
  apply zip_flip in Hz. cbn [fo] in Hz. set (f := flip _ _) in Hz.
  assert (zip s ps (Fr D RB_BLACK wa wd wr :: f :: ctx) (mk D RB_RED la ld ll lr)) as Hz0 by (by apply zip_up).
  mcall (zip_color _ _ _ _ _ _ _ _ _ _ RB_BLACK Hz0). intros s1 [Hz1 Hs1].
  apply zip_up in Hz1. mcall (zip_color _ _ _ _ _ _ _ _ _ _ RB_RED Hz1). intros s2 [Hz2 Hs2].
  cbn [fo] in Hz2. rewrite <- !(mk_negb D) in Hz2.
  mcall (rotate_spec _ _ _ _ _ _ _ _ _ _ _ _ _ _ Hz2). intros s3 [Hz3 Hs3]. rewrite !mk_negb in Hz3.
  set (v := mk D RB_BLACK la ld ll (mk D RB_RED wa wd lr wr)) in *.
  assert (zip s3 ps (Fr D c p pd v :: ctx) t) as Hz4 by (exact (proj2 (zip_flip sentinel s3 ps (Fr D c p pd v) ctx t) Hz3)).
  destruct (zip_child _ _ _ _ _ Hz4 Hp) as (y & Hy & _ & Hyp). mpure Hy. rewrite Hyp. mpure (zip_parent _ _ _ _ _ _ Hz4).
  cbn [fdir fc fa fd fo]. rewrite child_negb. apply returns_ret. exists la, ld, ll, (mk D RB_RED wa wd lr wr).
  split_and!; [done|apply ptr_mk|done|by apply bal_red|apply color_mk| |eauto using same_trans].
  same_order.
Qed.

(** The sibling takes the parent's place and color. *)
Lemma last_rotation s ps D c p pd ctx t va vd vl vr (k : rbs -> outcome (word * rbs)) Q :
  let f := Fr D c p pd (mk D RB_BLACK va vd vl vr) in
  zip s ps (f :: ctx) t -> parented ps (f :: ctx) t ->
  (forall s', zip s' ps ctx (mk D c va vd (mk D RB_BLACK p pd t vl) (paint RB_BLACK vr)) -> same s s' -> returns (k s') Q) ->
  returns (x ← get (ptr t) s;
           p ← get (n_parent x) s;
           s ← upd (Ref va) (set_color (n_color p)) s;
           s ← upd (n_parent x) (set_color RB_BLACK) s;
           b ← get (Ref va) s;
           s ← upd (child (negb D) b) (set_color RB_BLACK) s;
           s ← _rotate sentinel (n_parent x) D s;
           k s) Q.
Proof.
  intros f Hz Hp Hk. destruct (zip_child _ _ _ _ _ Hz Hp) as (x & Hx & _ & Hxp). mpure Hx. rewrite Hxp.
  mpure (zip_parent _ _ _ _ _ _ Hz). cbn [f fdir fc fa fd fo]. rewrite color_node.
  apply zip_flip in Hz. cbn [f fo] in Hz. mcall (zip_color _ _ _ _ _ _ _ _ _ _ c Hz). intros s1 [Hz1 Hs1].
  apply zip_up in Hz1. unfold up, flip in Hz1. cbn [f fdir fc fa fd fo] in Hz1. rewrite mk_negb in Hz1.
  mcall (zip_color _ _ _ _ _ _ _ _ _ _ RB_BLACK Hz1). intros s2 [Hz2 Hs2].
  assert (zip s2 ps (Fr (negb D) RB_BLACK p pd t :: ctx) (mk D c va vd vl vr)) as Hz3.
  { apply zip_up. unfold up. cbn [fdir fc fa fd fo]. by rewrite mk_negb. }
  mpure (zip_get _ _ _ _ _ _ _ _ _ _ Hz3). rewrite child_negb.
  assert (zip s2 ps (Fr (negb D) c va vd vl :: Fr (negb D) RB_BLACK p pd t :: ctx) vr) as Hz4.
  { apply zip_up. unfold up. cbn [fdir fc fa fd fo]. by rewrite mk_negb. }
  mcall (zip_paint _ _ _ _ _ RB_BLACK Hz4); [by right|]. intros s3 [Hz5 Hs3].
  rewrite !zip_up in Hz5. unfold up in Hz5. cbn [fdir fc fa fd fo] in Hz5. rewrite !mk_negb in Hz5.
  mcall (rotate_spec _ _ _ _ _ _ _ _ _ _ _ _ _ _ Hz5). intros s4 [Hz6 Hs4]. apply Hk; [done|eauto using same_trans].
Qed.

(** How the loop leaves the tree: [node] may turn black. *)
Definition left_at (ps : word) (s : rbs) (fl : list (Z * Z)) (r : word * rbs) : Prop :=
  exists ctx t m, zip (r.2) ps ctx t /\ r.1 = ptr t /\ balc ctx m /\ bal (paint RB_BLACK t) m /\
    flat (plug ctx t) = fl /\ same s r.2.

Lemma left_exit fuel s0 s ps ctx t m :
  zip s ps ctx t -> ctx = [] \/ color t = RB_RED -> balc ctx m -> bal (paint RB_BLACK t) m -> same s0 s ->
  returns (remove_fixup_loop sentinel (S fuel) (ptr t) s) (left_at ps s0 (flat (plug ctx t))).
Proof. intros Hz Hor Hc Hb Hs. rewrite (remove_exit fuel _ _ _ _ Hz Hor). exists ctx, t, m. done. Qed.

Lemma left_same ps s s' fl r : same s s' -> left_at ps s' fl r -> left_at ps s fl r.
Proof.
  intros Hs (ctx & t & m & ? & ? & ? & ? & ? & ?). exists ctx, t, m. split_and!; try done. by eapply same_trans.
Qed.

(** After the rotation [node = *root]. *)
Lemma rotated_exit fuel s0 s ps D c p pd ctx t n va vd vl vr :
  let f := Fr D c p pd (mk D RB_BLACK va vd vl vr) in
  let r := mk D c va vd (mk D RB_BLACK p pd t vl) (paint RB_BLACK vr) in
  zip s ps ctx r -> balc (f :: ctx) (S n) -> bal t n -> bal vl n -> bal vr n -> color vr = RB_RED -> same s0 s ->
  returns (remove_fixup_loop sentinel (S fuel) (rb_root s) s) (left_at ps s0 (flat (plug (f :: ctx) t))).
Proof.
  intros f r Hz Hc Ht Hl Hr Hred Hs. pose proof (zip_close _ _ _ _ _ Hz) as Hz'.
  rewrite (z_root _ _ _ _ _ Hz'). cbn [plug].
  assert (exists m, bal (plug ctx r) m) as [m Hm].
  { simpl in Hc. destruct c.
    - destruct Hc as (_ & _ & Htop & _ & Hc). eapply (plug_bal ctx r (S n)); [done| |done].
      apply bal_red. rewrite color_mk, color_paint. split_and!; [done|done|by apply bal_black|by apply bal_paint].
    - destruct Hc as [_ Hc]. eapply (plug_bal ctx r (S (S n))); [done| |unfold r; by rewrite color_mk].
      apply bal_black. split; [by apply bal_black|by apply bal_paint]. }
  replace (flat (plug ctx (up f t))) with (flat (plug [] (plug ctx r))).
  - destruct (color (plug ctx r)) eqn:Hcol.
    + apply (left_exit _ _ _ _ _ _ (S m)); [done|by left|done|by apply bal_paint|done].
    + apply (left_exit _ _ _ _ _ _ m); [done|by left|done| |done]. by destruct (plug ctx r) as [|[] ? ? ? ?].
  - cbn [plug]. unfold r, f. same_order.
Qed.

Lemma balc_other f ctx n : balc (f :: ctx) n -> bal (fo f) n.
Proof. simpl. destruct (fc f); naive_solver. Qed.

Lemma bal_grown D t n : color t = RB_BLACK -> bal t (S n) -> exists a d x y, t = mk D RB_BLACK a d x y /\ bal x n /\ bal y n.
Proof.
  destruct t as [|c a d l r]; [done|]. intros Hc Hb. simpl in Hc. subst c. rewrite (mk_at D) in Hb |- *.
  apply bal_black in Hb. eauto 10.
Qed.

(** A black sibling with black children turns red, and the parent is short. *)
Lemma move_up fuel s ps D c p pd wa wd wl wr ctx t n :
  (forall s ctx t n, zip s ps ctx t -> parented ps ctx t -> color t = RB_BLACK -> bal t n -> balc ctx (S n) ->
     (length ctx < S fuel)%nat -> returns (remove_fixup_loop sentinel (S fuel) (ptr t) s) (left_at ps s (flat (plug ctx t)))) ->
  let f := Fr D c p pd (mk D RB_BLACK wa wd wl wr) in
  zip s ps (f :: ctx) t -> parented ps (f :: ctx) t -> color t = RB_BLACK -> bal t n -> balc (f :: ctx) (S n) ->
  color wl = RB_BLACK -> color wr = RB_BLACK -> (c = RB_RED \/ (length ctx < S fuel)%nat) ->
  returns (s ← upd (Ref wa) (set_color RB_RED) s;
           x ← get (ptr t) s;
           remove_fixup_loop sentinel (S fuel) (n_parent x) s) (left_at ps s (flat (plug (f :: ctx) t))).
Proof.
  intros IH f Hz Hp Ht Hb Hc Hl Hr Hfuel. pose proof (proj1 (zip_flip _ _ _ _ _ _) Hz) as Hz0. cbn [f fo] in Hz0.
  mcall (zip_color _ _ _ _ _ _ _ _ _ _ RB_RED Hz0). intros s1 [Hz1 Hs1]. set (w := mk D RB_RED wa wd wl wr) in *.
  assert (zip s1 ps (Fr D c p pd w :: ctx) t) as Hz2 by exact (proj2 (zip_flip sentinel s1 ps (Fr D c p pd w) ctx t) Hz1).
  destruct (zip_child _ _ _ _ _ Hz2 Hp) as (x & Hx & _ & Hxp). mpure Hx. rewrite Hxp. cbn [fa].
  apply zip_up in Hz2. unfold up in Hz2. cbn [fdir fc fa fd fo] in Hz2.
  rewrite <- (ptr_mk sentinel D c p pd t w).
  replace (flat (plug (f :: ctx) t)) with (flat (plug ctx (mk D c p pd t w))) by (cbn [plug]; unfold w, f; same_order).
  pose proof (balc_other _ _ _ Hc) as [Hbl Hbr]%bal_black. simpl in Hc. destruct c.
  - destruct Hc as (_ & _ & _ & _ & Hc). apply (left_exit _ _ _ _ _ _ (S n)); [done|right; apply color_mk|done| |done].
    rewrite paint_mk. apply bal_black. split; [done|]. by apply bal_red.
  - destruct Hc as [_ Hc]. destruct Hfuel as [?|Hfuel]; [done|]. eapply returns_mono.
    + eapply (IH s1 ctx _ (S n)); [done|intros He; by destruct D|apply color_mk| |done|done].
      apply bal_black. split; [done|]. by apply bal_red.
    + intros r. by apply left_same.
Qed.

(** One round, the sibling being black. *)
Lemma remove_round fuel s ps D c p pd o ctx t n :
  (forall s ctx t n, zip s ps ctx t -> parented ps ctx t -> color t = RB_BLACK -> bal t n -> balc ctx (S n) ->
     (length ctx < S fuel)%nat -> returns (remove_fixup_loop sentinel (S fuel) (ptr t) s) (left_at ps s (flat (plug ctx t)))) ->
  let f := Fr D c p pd o in
  zip s ps (f :: ctx) t -> parented ps (f :: ctx) t -> color t = RB_BLACK -> bal t n -> balc (f :: ctx) (S n) ->
  color o = RB_BLACK -> (c = RB_RED \/ (length ctx < S fuel)%nat) ->
  returns (b ← get (ptr o) s;
           near ← get (child D b) s;
           far ← get (child (negb D) b) s;
           if bool_decide (n_color near = RB_BLACK) && bool_decide (n_color far = RB_BLACK) then
             s ← upd (ptr o) (set_color RB_RED) s;
             x ← get (ptr t) s;
             remove_fixup_loop sentinel (S fuel) (n_parent x) s
           else
             '(sibling, s) ← (if decide (n_color far = RB_BLACK) then
                                s ← upd (child D b) (set_color RB_BLACK) s;
                                s ← upd (ptr o) (set_color RB_RED) s;
                                s ← _rotate sentinel (ptr o) (negb D) s;
                                x ← get (ptr t) s;
                                p ← get (n_parent x) s;
                                Ret (child (negb D) p, s)
                              else Ret (ptr o, s));
             x ← get (ptr t) s;
             p ← get (n_parent x) s;
             s ← upd sibling (set_color (n_color p)) s;
             s ← upd (n_parent x) (set_color RB_BLACK) s;
             b ← get sibling s;
             s ← upd (child (negb D) b) (set_color RB_BLACK) s;
             s ← _rotate sentinel (n_parent x) D s;
             remove_fixup_loop sentinel (S fuel) (rb_root s) s) (left_at ps s (flat (plug (f :: ctx) t))).
Proof.
  intros IH f Hz Hp Ht Hb Hc Ho Hfuel.
  destruct (bal_grown D o n Ho (balc_other _ _ _ Hc)) as (wa & wd & wl & wr & -> & Hbl & Hbr).
  pose proof (proj1 (zip_flip _ _ _ _ _ _) Hz) as Hz0. cbn [f fo] in Hz0. rewrite ptr_mk.
  mpure (zip_get _ _ _ _ _ _ _ _ _ _ Hz0). rewrite child_node, child_negb.
  destruct (zip_read sentinel s ps (Fr D RB_BLACK wa wd wr :: flip f t :: ctx) wl) as (near & Hnear & Hcn & _).
  { by apply zip_up. } mpure Hnear.
  destruct (zip_read sentinel s ps (Fr (negb D) RB_BLACK wa wd wl :: flip f t :: ctx) wr) as (far & Hfar & Hcf & _).
  { apply zip_up. unfold up. cbn [fdir fc fa fd fo]. by rewrite mk_negb. } mpure Hfar.
  rewrite Hcn, Hcf. destruct (bool_decide (color wl = RB_BLACK) && bool_decide (color wr = RB_BLACK)) eqn:Hboth.
  - apply andb_true_iff in Hboth as [Hl%bool_decide_eq_true Hr%bool_decide_eq_true].
    by eapply move_up.
  - assert (color wl = RB_RED \/ color wr = RB_RED) as Hor.
    { destruct (color wl), (color wr); try done; auto. }
    rewrite <- Hcf.
    mcall (far_child _ _ _ _ _ _ _ _ n _ _ _ _ (node D NULL (ptr wl) (ptr wr) RB_RED NULL) far _ Hz Hp Hbl Hbr Hor Hcf (child_node _ _ _ _ _ _) eq_refl).
    intros [sib s1] (va & vd & vl & vr & Hz1 & -> & Hvl & Hvr & Hred & Hfl & Hs1).
    eapply (last_rotation s1 ps D c p pd ctx t va vd vl vr); [done|done|]. intros s2 Hz2 Hs2.
    replace (flat (plug (f :: ctx) t)) with (flat (plug (Fr D c p pd (mk D RB_BLACK va vd vl vr) :: ctx) t)).
    + eapply (rotated_exit fuel s s2 ps D c p pd ctx t n); try done; [|by eapply same_trans].
      simpl in Hc |- *. destruct c.
      * destruct Hc as (_ & ? & ? & _ & ?). rewrite color_mk. split_and!; try done. by apply bal_black.
      * destruct Hc as [_ ?]. split; [by apply bal_black|done].
    + cbn [plug]. apply plug_flat_eq. unfold up, f. cbn [fdir fc fa fd fo]. by rewrite !(flat_mk D c), Hfl.
Qed.

Lemma remove_loop_spec fuel s ps ctx t n :
  zip s ps ctx t -> parented ps ctx t -> color t = RB_BLACK -> bal t n -> balc ctx (S n) -> (length ctx < fuel)%nat ->
  returns (remove_fixup_loop sentinel fuel (ptr t) s) (left_at ps s (flat (plug ctx t))).
Proof.
  revert s ctx t n. induction fuel as [|fuel IH]; intros s ctx t n Hz Hp Ht Hb Hc Hfuel; [lia|].
  destruct ctx as [|f ctx].
  { apply (left_exit _ _ _ _ _ _ n); [done|by left|done| |done]. by destruct t as [|[] ? ? ? ?]. }
  destruct fuel as [|fuel]; [simpl in Hfuel; lia|].
  cbn [remove_fixup_loop]. rewrite decide_False by (by rewrite (zip_root _ _ _ _ _ Hz)).
  destruct (zip_child _ _ _ _ _ Hz Hp) as (x & Hx & Hcx & Hxp). mpure Hx. rewrite decide_True by congruence.
  rewrite Hxp. mpure (zip_parent _ _ _ _ _ _ Hz). cbv zeta.
  rewrite (side_spec _ _ _ _ _ _ _ _ _ Hz), negb_involutive, child_negb.
  2: { right. pose proof (balc_other _ _ _ Hc) as Ho. intros Heq. by rewrite Heq in Ho. }
  destruct (zip_read _ _ _ _ _ (proj1 (zip_flip _ _ _ _ _ _) Hz)) as (b & Hbr & Hcb & _). mpure Hbr.
  rewrite <- Hxp. mcall (red_sibling _ _ _ _ _ n b x Hz Hp Hc Hcb Hxp).
  intros [sib s1] (c & o & ctx' & Hz1 & -> & Ho & Hc1 & Hfl & Hs1 & Hor). rewrite <- Hfl.
  eapply returns_mono; [eapply remove_round; [exact IH|exact Hz1|exact Hp|done|done|done|done|]|].
  - destruct Hor as [ ? | -> ]; [by left|right]. simpl in Hfuel. lia.
  - intros r. by apply left_same.
Qed.

(** [_remove_fixup] *)
Lemma plug_color ctx t n : balc ctx n -> ctx <> [] -> color (plug ctx t) = RB_BLACK.
Proof.
  revert t n. induction ctx as [|f ctx IH]; intros t n Hc Hne; [done|]. cbn [plug].
  destruct ctx as [|f' ctx].
  - simpl in *. unfold up. rewrite color_mk. destruct (fc f); [|done]. by destruct Hc as (_ & ? & _).
  - simpl in Hc. destruct (fc f); [destruct Hc as (_ & _ & _ & _ & Hc)|destruct Hc as [_ Hc]]; by eapply IH.
Qed.

Lemma remove_fixup_spec s ps ctx t n :
  zip s ps ctx t -> parented ps ctx t -> bal t n -> balc ctx (S n) ->
  returns (_remove_fixup sentinel (ptr t) s) (fun s' => exists t' m,
    zip s' ps [] t' /\ bal t' m /\ color t' = RB_BLACK /\ flat t' = flat (plug ctx t) /\ same s s').
Proof.
  intros Hz Hp Hb Hc. unfold _remove_fixup.
  assert (returns (remove_fixup_loop sentinel (S (size (rb_nodes s))) (ptr t) s) (left_at ps s (flat (plug ctx t)))) as Hloop.
  { destruct (color t) eqn:Hcol.
    - apply (left_exit _ _ _ _ _ _ (S n)); [done|by right|done|by apply bal_paint|done].
    - eapply remove_loop_spec; try done. pose proof (zip_depth _ _ _ _ _ Hz). lia. }
  mcall Hloop. intros [w s1] (ctx1 & t1 & m & Hz1 & Hw & Hc1 & Hb1 & Hfl & Hs1). cbn [fst snd] in *. subst w.
  eapply returns_mono; [apply (zip_paint _ _ _ _ _ RB_BLACK Hz1); by right|]. intros s2 [Hz2 Hs2].
  destruct (plug_bal _ _ _ Hc1 Hb1) as [k Hk]; [by rewrite color_paint|].
  exists (plug ctx1 (paint RB_BLACK t1)), k. split_and!; [by apply zip_close|done| | |by eapply same_trans].
  - destruct ctx1; [apply color_paint|]. by eapply plug_color.
  - rewrite <- Hfl. apply plug_flat_eq, flat_paint.
Qed.

End Remove.
End RbRemove.
