(* ===== verification/RbOps.v ===== *)
(** * Red-black trees: search, linking and unlinking

    The keys of a tree ascend from right to left ([asc]).  A search keeps the
    path it took and the bounds that path puts on the keys below; insertion
    hangs a red node at its end, removal splices out a node with at most one
    child. *)

From stdpp Require Import gmap sorting.
From AAC_tactics Require Import AAC Instances.
From S2P Require Import Prelude Mem FrameHdr FrameAlloc PageIface Slab RbTree RbRep RbSpec RbRemove.

Module RbOps.
Import RbTree RbRep RbSpec RbRemove Instances.Lists.

(** ** Keys *)

Definition key (K : gmap Z Z) (d : Z) : Z := default 0 (K !! d).

(** The data of the nodes, and where the nodes are. *)
Definition elems (t : rbt) : list Z := (flat t).*2.
Definition addrs (t : rbt) : list Z := (flat t).*1.

Record asc (K : gmap Z Z) (l : list Z) : Prop := {
  asc_sorted : StronglySorted (fun d e => key K d < key K e) l;
  asc_keys : forall d, d ∈ l -> is_Some (K !! d)
}.

Lemma asc_app K l l' : asc K (l ++ l') <-> asc K l /\ asc K l' /\ forall d e, d ∈ l -> e ∈ l' -> key K d < key K e.
Proof.
  split.
  - intros [Hs Hk]. apply StronglySorted_app in Hs as (Hx & Hl & Hl'). split_and!; [|..|done].
    + split; [done|]. intros d Hd. apply Hk, elem_of_app. by left.
    + split; [done|]. intros d Hd. apply Hk, elem_of_app. by right.
  - intros ([Hl Hk] & [Hl' Hk'] & Hx). split; [by apply StronglySorted_app|].
    intros d [Hd|Hd]%elem_of_app; auto.
Qed.

Lemma asc_one K d : is_Some (K !! d) -> asc K [d].
Proof. intros Hd. split; [repeat constructor|]. by intros e ->%list_elem_of_singleton. Qed.

(** The keys on the path bound those below. *)
Record bounds (K : gmap Z Z) (k : Z) (ctx : list frame) : Prop := {
  bo_bef : forall d, d ∈ (bef ctx).*2 -> key K d < k;
  bo_aft : forall d, d ∈ (aft ctx).*2 -> k < key K d
}.

Lemma elems_plug ctx t : elems (plug ctx t) = (bef ctx).*2 ++ elems t ++ (aft ctx).*2.
Proof. unfold elems. by rewrite plug_flat, !fmap_app. Qed.

Lemma addrs_plug ctx t : addrs (plug ctx t) = (bef ctx).*1 ++ addrs t ++ (aft ctx).*1.
Proof. unfold addrs. by rewrite plug_flat, !fmap_app. Qed.

(** One step down: [root->child[key < root->data->key]]. *)
Definition step_frame (k kd : Z) (c : rb_tree_color) (a d : Z) (l r : rbt) : frame :=
  Fr (k <? kd) c a d (if k <? kd then l else r).
Definition step_tree (k kd : Z) (l r : rbt) : rbt := if k <? kd then r else l.

Lemma up_step k kd c a d l r : up (step_frame k kd c a d l r) (step_tree k kd l r) = T c a d l r.
Proof. unfold up, step_frame, step_tree. simpl. by destruct (k <? kd). Qed.

Lemma bounds_step K k kd c a d l r ctx :
  asc K (elems (plug ctx (T c a d l r))) -> K !! d = Some kd -> kd <> k -> bounds K k ctx ->
  bounds K k (step_frame k kd c a d l r :: ctx).
Proof.
  intros Ha Hd Hne [Hb Hf]. rewrite elems_plug in Ha. apply asc_app in Ha as (_ & Ha & _).
  apply asc_app in Ha as (Ha & _ & _). unfold elems in Ha. cbn [flat] in Ha. rewrite !fmap_app in Ha.
  apply asc_app in Ha as (_ & Ha & Hr). apply asc_app in Ha as (_ & _ & Hl).
  assert (key K d = kd) as Hkd by (unfold key; by rewrite Hd).
  unfold step_frame. destruct (Z.ltb_spec k kd); split; cbn [bef aft fdir fa fd fo]; try done.
  - intros e He. rewrite fmap_cons, fmap_app, elem_of_cons, elem_of_app in He.
    destruct He as [->|[He|He]]; [simpl; lia| |by apply Hf]. specialize (Hl d e (list_elem_of_here _ _) He). lia.
  - intros e He. rewrite !fmap_app, !elem_of_app in He. destruct He as [He|[He|He]]; [by apply Hb| |].
    + specialize (Hr e d He (list_elem_of_here _ _)). lia.
    + apply list_elem_of_singleton in He as ->. simpl. lia.
Qed.

(** No element below the end of a search has the key. *)
Lemma bounds_none K k ctx d : bounds K k ctx -> d ∈ elems (plug ctx E) -> key K d <> k.
Proof.
  intros [Hb Hf]. rewrite elems_plug, !elem_of_app. intros [Hd|[Hd|Hd]].
  - specialize (Hb d Hd). lia.
  - by apply not_elem_of_nil in Hd.
  - specialize (Hf d Hd). lia.
Qed.

Fixpoint height (t : rbt) : nat := match t with E => O | T _ _ _ l r => S (height l `max` height r) end.

Lemma height_step k kd l r c a d : (height (step_tree k kd l r) < height (T c a d l r))%nat.
Proof. unfold step_tree. simpl. destruct (k <? kd); lia. Qed.

Lemma height_elems t : (height t <= length (flat t))%nat.
Proof. induction t as [|c a d l IHl r IHr]; simpl; [done|]. rewrite length_app. simpl. lia. Qed.

Section Ops.
Context (sentinel : home).
Abbreviation zip := (zip sentinel).
Abbreviation ptr := (ptr sentinel).

Lemma child_step dir p c d l r k kd :
  dir = (k <? kd) -> child dir (mk_node p (ptr l) (ptr r) c (Ref d)) = ptr (step_tree k kd l r).
Proof. intros ->. unfold step_tree. by destruct (k <? kd). Qed.

Lemma zip_step s ps ctx c a d l r k kd :
  zip s ps ctx (T c a d l r) -> zip s ps (step_frame k kd c a d l r :: ctx) (step_tree k kd l r).
Proof. intros Hz. apply zip_up. by rewrite up_step. Qed.

Lemma zip_node s ps ctx c a d l r :
  zip s ps ctx (T c a d l r) -> get (Ref a) s = Ret (mk_node (pctx ctx) (ptr l) (ptr r) c (Ref d)).
Proof. intros Hz. apply (zip_get _ _ _ _ false _ _ _ _ _ Hz). Qed.

Lemma zip_not_nil s ps ctx c a d l r : zip s ps ctx (T c a d l r) -> Ref a <> RB_NIL sentinel.
Proof.
  intros Hz. pose proof (zip_focus _ _ _ _ false _ _ _ _ _ Hz) as Hf. unfold around in Hf.
  by eapply not_leaf.
Qed.

Lemma elem_key K t d : asc K (elems t) -> d ∈ elems t -> K !! d = Some (key K d).
Proof. intros Ha Hd. destruct (asc_keys _ _ Ha d Hd) as [k Hk]. unfold key. by rewrite Hk. Qed.

Lemma focus_elem ctx c a d l r : d ∈ elems (plug ctx (T c a d l r)).
Proof.
  rewrite elems_plug. unfold elems. cbn [flat]. rewrite !fmap_app, !elem_of_app. right. left. right. left. left.
Qed.

(** [_find_node]: the node with the key and the path to it, or none. *)
Lemma find_node_loop_spec fuel s ps ctx t k :
  zip s ps ctx t -> asc (rb_keys s) (elems (plug ctx t)) -> bounds (rb_keys s) k ctx -> (height t < fuel)%nat ->
  returns (find_node_loop sentinel fuel (ptr t) k s) (fun w =>
    (w = NULL /\ forall d, d ∈ elems (plug ctx t) -> key (rb_keys s) d <> k) \/
    (exists ctx' c a d l r, w = Ref a /\ zip s ps ctx' (T c a d l r) /\ rb_keys s !! d = Some k /\
       plug ctx' (T c a d l r) = plug ctx t)).
Proof.
  revert ctx t. induction fuel as [|fuel IH]; intros ctx t Hz Ha Hb Hf; [lia|]. cbn [find_node_loop].
  destruct t as [|c a d l r].
  { rewrite decide_True by done. left. split; [done|]. intros d. by apply bounds_none. }
  cbn [ptr]. rewrite decide_False by (by eapply zip_not_nil). mpure (zip_node _ _ _ _ _ _ _ _ Hz).
  pose proof (elem_key _ _ _ Ha (focus_elem _ _ _ _ _ _)) as Hk. cbn [n_data key_of]. rewrite Hk.
  cbn [of_option mbind outcome_bind]. destruct (Z.eqb_spec (key (rb_keys s) d) k) as [Heq|Hne].
  { right. exists ctx, c, a, d, l, r. rewrite <- Heq. done. }
  rewrite (child_step _ _ c d l r k _ eq_refl). set (kd := key (rb_keys s) d) in *.
  pose proof (zip_step _ _ _ _ _ _ _ _ k kd Hz) as Hz1.
  assert (plug (step_frame k kd c a d l r :: ctx) (step_tree k kd l r) = plug ctx (T c a d l r)) as Hp.
  { cbn [plug]. by rewrite up_step. }
  rewrite <- Hp. apply IH; [done|by rewrite Hp|by eapply bounds_step|].
  pose proof (height_step k kd l r c a d). lia.
Qed.

(** The search of [tree_insert]: the duplicate, or the place of the new node. *)
Lemma find_place_spec fuel s ps ctx t k :
  zip s ps ctx t -> asc (rb_keys s) (elems (plug ctx t)) -> bounds (rb_keys s) k ctx -> (height t < fuel)%nat ->
  returns (find_place sentinel fuel (ptr t) (pctx ctx) k s) (fun pl =>
    (exists ctx', pl = Below (pctx ctx') /\ zip s ps ctx' E /\ bounds (rb_keys s) k ctx' /\ plug ctx' E = plug ctx t) \/
    (exists d, pl = Duplicate (Ref d) /\ d ∈ elems (plug ctx t) /\ rb_keys s !! d = Some k)).
Proof.
  revert ctx t. induction fuel as [|fuel IH]; intros ctx t Hz Ha Hb Hf; [lia|]. cbn [find_place].
  destruct t as [|c a d l r].
  { rewrite decide_True by done. left. exists ctx. done. }
  cbn [ptr]. rewrite decide_False by (by eapply zip_not_nil). mpure (zip_node _ _ _ _ _ _ _ _ Hz).
  pose proof (elem_key _ _ _ Ha (focus_elem _ _ _ _ _ _)) as Hk. cbn [n_data key_of]. rewrite Hk.
  cbn [of_option mbind outcome_bind]. destruct (Z.eqb_spec (key (rb_keys s) d) k) as [Heq|Hne].
  { right. exists d. rewrite <- Heq. split_and!; [done|apply focus_elem|done]. }
  rewrite (child_step _ _ c d l r k _ eq_refl). set (kd := key (rb_keys s) d) in *.
  pose proof (zip_step _ _ _ _ _ _ _ _ k kd Hz) as Hz1.
  assert (plug (step_frame k kd c a d l r :: ctx) (step_tree k kd l r) = plug ctx (T c a d l r)) as Hp.
  { cbn [plug]. by rewrite up_step. }
  rewrite <- Hp. apply (IH (step_frame k kd c a d l r :: ctx)); [done|by rewrite Hp|by eapply bounds_step|].
  pose proof (height_step k kd l r c a d). lia.
Qed.

(** ** Taking a balanced tree apart *)

Lemma unplug_bal ctx t m :
  bal (plug ctx t) m -> color (plug ctx t) = RB_BLACK ->
  exists n, balc ctx n /\ bal t n /\ (color t = RB_RED -> ctx <> [] /\ top ctx = RB_BLACK).
Proof.
  revert t. induction ctx as [|f ctx IH]; intros t Hb Hc.
  { exists m. split_and!; try done. simpl in Hc. by rewrite Hc. }
  destruct (IH _ Hb Hc) as (n & Hcn & Ht & Htop). unfold up in Ht, Htop. rewrite color_mk in Htop. cbn [balc top].
  destruct (fc f) eqn:Hf.
  - apply bal_red in Ht as (Hct & Hco & Hbt & Hbo). destruct Htop as [? ?]; [done|].
    exists n. split_and!; try done. by rewrite Hct.
  - destruct n as [|n]; [by destruct (fdir f), Ht as (? & ? & _)|]. apply bal_black in Ht as [Hbt Hbo].
    exists n. by split_and!.
Qed.

(** The data of a node on the path does not matter for its balance. *)
Lemma balc_data ctx1 f d ctx2 n : balc (ctx1 ++ f :: ctx2) n -> balc (ctx1 ++ Fr (fdir f) (fc f) (fa f) d (fo f) :: ctx2) n.
Proof.
  revert n. induction ctx1 as [|g ctx1 IH]; intros n; [done|]. simpl. destruct (fc g).
  - intros (? & ? & ? & ? & ?). split_and!; auto; [by destruct ctx1|by destruct ctx1].
  - intros [? ?]. auto.
Qed.

Lemma plug_color_eq ctx t t' : color t = color t' -> color (plug ctx t) = color (plug ctx t').
Proof.
  revert t t'. induction ctx as [|f ctx IH]; intros t t' Hc; [done|]. apply IH. unfold up. by rewrite !color_mk.
Qed.

Lemma plug_app ctx1 ctx2 t : plug (ctx1 ++ ctx2) t = plug ctx2 (plug ctx1 t).
Proof. revert t. induction ctx1 as [|f ctx1 IH]; intros t; [done|]. apply IH. Qed.

Lemma zip_app s ps ctx1 ctx2 t : zip s ps (ctx1 ++ ctx2) t <-> zip s ps ctx2 (plug ctx1 t).
Proof.
  revert t. induction ctx1 as [|f ctx1 IH]; intros t; [done|]. simpl app. rewrite zip_up. cbn [plug]. apply IH.
Qed.

(** ** Hanging a node *)

(** [parent->child[head->data->key < parent->data->key] = head] *)
Lemma hang_spec s ps ctx a d k :
  holds (rb_nodes s) ([(a, mk_node (pctx ctx) (RB_NIL sentinel) (RB_NIL sentinel) RB_RED (Ref d))] ++ leaf sentinel ps ++
    cellsc sentinel (ptr E) ctx) ->
  rb_root s = ptr (plug ctx E) -> bounds (rb_keys s) k ctx -> asc (rb_keys s) (elems (plug ctx E)) ->
  returns (if nonnull (pctx ctx) then
             p ← get (pctx ctx) s;
             kp ← key_of (n_data p) s;
             upd (pctx ctx) (set_child (k <? kp) (Ref a)) s
           else Ret (set_root (Ref a) s))
    (fun s' => zip s' ps ctx (T RB_RED a d E E) /\ same s s').
Proof.
  intros Hh Hr [Hb Hf] Ha. set (hd := (a, _)) in Hh.
  assert (forall w, [hd] ++ leaf sentinel ps ++ cellsc sentinel w ctx ≡ₚ cellsc sentinel w ctx ++ [hd] ++ leaf sentinel ps) as Hp.
  { intros w. aac_reflexivity. }
  assert (forall m w, holds m (cellsc sentinel w ctx ++ [hd] ++ leaf sentinel ps) ->
            holds m (leaf sentinel ps ++ cells sentinel (pctx ctx) (T RB_RED a d E E) ++ cellsc sentinel w ctx)) as Hback.
  { intros m w Hm. eapply holds_perm; [|exact Hm]. cbn [cells]. change (ptr E) with (RB_NIL sentinel). fold hd. aac_reflexivity. }
  rewrite Hp in Hh. destruct ctx as [|f ctx].
  { apply returns_ret. split; [|done]. split; [by apply Hback|done]. }
  cbn [pctx nonnull] in *. assert (fd f ∈ elems (plug (f :: ctx) E)) as Hin.
  { destruct f as [dir c b e o]. cbn [plug up fdir fc fa fd fo]. destruct dir; apply focus_elem. }
  pose proof (elem_key _ _ _ Ha Hin) as Hk. set (kp := key (rb_keys s) (fd f)) in *.
  assert ((k <? kp) = fdir f) as Hdir.
  { cbn [bef aft] in Hb, Hf. destruct (fdir f).
    - apply Z.ltb_lt, Hf. rewrite fmap_cons. left.
    - apply Z.ltb_ge, Z.lt_le_incl, Hb. rewrite !fmap_app, !elem_of_app. right. right. left. }
  cbn [cellsc] in Hh. rewrite <- app_assoc in Hh. mpure (holds_get _ _ _ _ Hh). rewrite data_node. cbn [key_of].
  rewrite Hk. cbn [of_option mbind outcome_bind]. rewrite Hdir. eapply returns_mono; [by apply upd_spec|].
  intros s' (Hh' & Hr' & Hs). rewrite set_child_node in Hh'. split; [|done]. split.
  - apply Hback. cbn [cellsc]. by rewrite <- app_assoc.
  - rewrite Hr', Hr. cbn [plug]. apply plug_ptr. unfold up. by rewrite !ptr_mk.
Qed.

(** ** Splicing a node out *)

(** [node->parent = p], the sentinel included. *)
Lemma set_parent_spec s ps p p' o l :
  holds (rb_nodes s) (leaf sentinel ps ++ cells sentinel p o ++ l) ->
  returns (upd (ptr o) (set_parent p') s) (fun s' => exists ps',
    holds (rb_nodes s') (leaf sentinel ps' ++ cells sentinel p' o ++ l) /\ (o = E -> ps' = p') /\
    rb_root s' = rb_root s /\ same s s').
Proof.
  intros Hh. destruct o as [|c a d x y].
  - eapply returns_mono; [exact (upd_spec _ _ _ (set_parent p') _ Hh)|]. intros s' (Hh' & Hs). by exists p'.
  - assert (holds (rb_nodes s) (cells sentinel p (T c a d x y) ++ leaf sentinel ps ++ l)) as Hh1.
    { eapply holds_perm; [|exact Hh]. aac_reflexivity. }
    pose proof (reparent_spec sentinel s ps p p' _ l Hh1) as Hre. rewrite decide_False in Hre.
    2: { set (n := mk_node p (ptr x) (ptr y) c (Ref d)).
         eapply (not_leaf _ (rb_nodes s) ps a n (cells sentinel (Ref a) x ++ cells sentinel (Ref a) y ++ l)).
         eapply holds_perm; [|exact Hh]. cbn [cells]. fold n. aac_reflexivity. }
    eapply returns_mono; [exact Hre|]. intros s' (Hh' & ?). exists ps. split; [|done].
    eapply holds_perm; [|exact Hh']. aac_reflexivity.
Qed.

Lemma ptr_nil s ps ctx f t : zip s ps (f :: ctx) t -> ptr t = RB_NIL sentinel <-> t = E.
Proof. intros Hz. split; [|by intros ->]. destruct t; [done|]. intros He. by destruct (zip_not_nil _ _ _ _ _ _ _ _ Hz). Qed.

(** The children of a node in focus. *)
Lemma child_nil s ps ctx c a d l r :
  zip s ps ctx (T c a d l r) -> (ptr l = RB_NIL sentinel <-> l = E) /\ (ptr r = RB_NIL sentinel <-> r = E).
Proof.
  intros Hz. split; eapply ptr_nil.
  - apply (zip_up _ _ _ (Fr false c a d r) ctx l). exact Hz.
  - apply (zip_up _ _ _ (Fr true c a d l) ctx r). exact Hz.
Qed.

Lemma splice_spec s ps ctx c a d l r o :
  zip s ps ctx (T c a d l r) -> (l = E /\ o = r) \/ (r = E /\ o = l) ->
  returns (s ← upd (ptr o) (set_parent (pctx ctx)) s;
           if nonnull (pctx ctx) then
             p ← get (pctx ctx) s;
             upd (pctx ctx) (set_child (negb (bool_decide (Ref a = child RB_LEFT p))) (ptr o)) s
           else Ret (set_root (ptr o) s))
    (fun s' => exists ps', zip s' ps' ctx o /\ parented ps' ctx o /\
       get (Ref a) s' = Ret (mk_node (pctx ctx) (ptr l) (ptr r) c (Ref d)) /\ same s s').
Proof.
  intros Hz Ho. pose proof (zip_focus _ _ _ _ false _ _ _ _ _ Hz) as Hf. unfold around in Hf.
  set (na := (a, _)) in Hf. assert (holds (rb_nodes s) (leaf sentinel ps ++ cells sentinel (Ref a) o ++ [na] ++ cellsc sentinel (Ref a) ctx)) as H0.
  { eapply holds_perm; [|exact Hf]. destruct Ho as [[-> ->]|[-> ->]]; cbn [cells]; aac_reflexivity. }
  mcall (set_parent_spec _ _ _ (pctx ctx) _ _ H0). intros s1 (ps' & H1 & Hp & Hr1 & Hs1).
  assert (forall m w, holds m (leaf sentinel ps' ++ cells sentinel (pctx ctx) o ++ [na] ++ cellsc sentinel w ctx) <->
            holds m (cellsc sentinel w ctx ++ leaf sentinel ps' ++ cells sentinel (pctx ctx) o ++ [na])) as Hswap.
  { intros m w. apply holds_perm. aac_reflexivity. }
  apply Hswap in H1.
  eapply returns_mono; [apply (relink_spec _ _ _ (fun p => negb (bool_decide (Ref a = child RB_LEFT p))) _ (ptr o) _ H1)|].
  { intros f ctx' ->. pose proof (side_spec _ _ _ _ _ _ (pctx ctx') (fc f) (Ref (fd f)) Hz) as Hside.
    cbn [ptr] in Hside. rewrite Hside by (by left). apply negb_involutive. }
  intros s2 (H2 & Hr2 & Hs2). exists ps'. split_and!; [split| | |by eapply same_trans].
  - eapply (holds_tail _ na), holds_perm; [|exact H2]. aac_reflexivity.
  - rewrite Hr2, Hr1, (z_root _ _ _ _ _ Hz). destruct ctx as [|f ctx]; [done|]. cbn [plug]. apply plug_ptr.
    unfold up. by rewrite !ptr_mk.
  - done.
  - assert (holds (rb_nodes s2) ([na] ++ leaf sentinel ps' ++ cells sentinel (pctx ctx) o ++ cellsc sentinel (ptr o) ctx)) as H3.
    { eapply holds_perm; [|exact H2]. aac_reflexivity. }
    apply (holds_get _ _ _ _ H3).
Qed.

(** [while (x->child[RB_LEFT] != RB_NIL) x = x->child[RB_LEFT]] *)
Lemma aft_app ctx1 ctx2 : aft (ctx1 ++ ctx2) = aft ctx1 ++ aft ctx2.
Proof. induction ctx1 as [|f ctx1 IH]; simpl; [done|]. destruct (fdir f); [|done]. simpl. by rewrite IH, app_assoc. Qed.

Lemma leftmost_spec fuel s ps ctx t :
  zip s ps ctx t -> t <> E -> (height t <= fuel)%nat ->
  returns (leftmost sentinel fuel (ptr t) s) (fun w => exists ctx1 c a d r,
    w = Ref a /\ zip s ps (ctx1 ++ ctx) (T c a d E r) /\ plug ctx1 (T c a d E r) = t /\ aft ctx1 = []).
Proof.
  revert ctx t. induction fuel as [|fuel IH]; intros ctx t Hz Hne Hf; (destruct t as [|c a d l r]; [done|]); [simpl in Hf; lia|].
  cbn [leftmost]. mpure (zip_node _ _ _ _ _ _ _ _ Hz). cbn [child RB_LEFT n_left].
  destruct (child_nil _ _ _ _ _ _ _ _ Hz) as [Hnil _].
  destruct (decide (ptr l = RB_NIL sentinel)) as [Heq|Hl].
  { apply Hnil in Heq as ->. exists [], c, a, d, r. done. }
  eapply returns_mono; [apply (IH (Fr false c a d r :: ctx))|].
  - by apply zip_up.
  - by intros ->.
  - simpl in Hf. lia.
  - intros w (ctx1 & c' & a' & d' & r' & -> & Hz' & Hpl & Haft). exists (ctx1 ++ [Fr false c a d r]), c', a', d', r'.
    split_and!; [done|by rewrite <- app_assoc|by rewrite plug_app, Hpl|]. by rewrite aft_app, Haft.
Qed.

(** [if (x->color == RB_BLACK) _remove_fixup(root, node)] *)
Lemma unlink_fixup_spec s ps ctx c a d l r o n :
  zip s ps ctx o -> parented ps ctx o -> (l = E /\ o = r) \/ (r = E /\ o = l) ->
  balc ctx n -> bal (T c a d l r) n -> (c = RB_RED -> ctx <> []) ->
  returns (if decide (c = RB_BLACK) then _remove_fixup sentinel (ptr o) s else Ret s) (fun s' => exists t' m,
    zip s' ps [] t' /\ bal t' m /\ color t' = RB_BLACK /\ flat t' = flat (plug ctx o) /\ same s s').
Proof.
  intros Hz Hp Ho Hc Hb Hred. destruct c; simpl in Hb.
  - destruct Hb as (Hl & Hr & Hbl & Hbr). assert (color o = RB_BLACK /\ bal o n) as [Hco Hbo] by naive_solver.
    destruct (plug_bal _ _ _ Hc Hbo) as [m Hm]; [by rewrite Hco|]. exists (plug ctx o), m.
    split_and!; [by apply zip_close|done| |done..]. eapply plug_color; [done|by apply Hred].
  - destruct Hb as (n' & -> & Hbl & Hbr). eapply remove_fixup_spec; [done|done| |done]. naive_solver.
Qed.

End Ops.
End RbOps.
