(* ===== verification/RbTheorems.v ===== *)
(** * Red-black trees: what the operations do to the map they store

    [rb_map s M F own L]: the state [s] holds a balanced search tree for the
    finite map [M] from keys to data; its nodes are live blocks of a heap in
    the state [heap_abs .. F own L].  Insertion, search and removal are those
    of the map. *)

From stdpp Require Import gmap sorting.
From S2P Require Import Prelude Mem FrameHdr Blocks FrameAlloc BuddyRep BuddyProof PageIface Slab SlabRep SlabProof HeapSpec HeapTheorems RbTree RbRep RbSpec RbRemove RbOps.

Module RbTheorems.
Import FrameHdr Blocks FrameAlloc PageIface Slab SlabRep SlabProof HeapSpec RbTree RbRep RbSpec RbRemove RbOps.

(** ** Lists of data as maps *)

Definition map_of (K : gmap Z Z) (l : list Z) : gmap Z Z := list_to_map ((fun d => (key K d, d)) <$> l).

Lemma asc_distinct K l : asc K l -> NoDup (key K <$> l).
Proof.
  intros [Hs _]. induction Hs as [|d l Hs IH Hd]; [constructor|]. rewrite fmap_cons. constructor; [|done].
  intros (e & He & Hin)%list_elem_of_fmap. rewrite Forall_forall in Hd. specialize (Hd e Hin). lia.
Qed.

Lemma asc_nodup K l : asc K l -> NoDup ((fun d => (key K d, d)) <$> l).*1.
Proof. intros Ha%asc_distinct. rewrite <- list_fmap_compose. exact Ha. Qed.

Lemma map_of_lookup K l k d : asc K l -> map_of K l !! k = Some d <-> d ∈ l /\ key K d = k.
Proof.
  intros Ha. unfold map_of. rewrite <- elem_of_list_to_map by (by apply asc_nodup). rewrite list_elem_of_fmap. split.
  - intros (e & [= -> ->] & He). done.
  - intros [Hd <-]. by exists d.
Qed.

Lemma map_of_none K l k : asc K l -> (forall d, d ∈ l -> key K d <> k) -> map_of K l !! k = None.
Proof.
  intros Ha Hn. destruct (map_of K l !! k) as [d|] eqn:Hl; [|done].
  apply map_of_lookup in Hl as [Hd Hk]; [|done]. by destruct (Hn d Hd).
Qed.

Lemma map_of_cons K l l' d : asc K l' -> l' ≡ₚ d :: l -> map_of K l' = <[key K d := d]> (map_of K l).
Proof.
  intros Ha Hp. unfold map_of. change (<[_ := _]> _) with (list_to_map (M := gmap Z Z) ((fun d => (key K d, d)) <$> d :: l)).
  apply list_to_map_proper; [by apply asc_nodup|]. by rewrite Hp.
Qed.

Lemma map_of_size K l : asc K l -> size (map_of K l) = length l.
Proof. intros Ha. unfold map_of. rewrite <- length_map_to_list, map_to_list_to_map by (by apply asc_nodup). by rewrite length_fmap. Qed.

(** ** Height *)

Lemma bal_size t n : bal t n -> (2 ^ n <= S (length (flat t)))%nat.
Proof.
  revert n. induction t as [|[] a d l IHl r IHr]; intros n Hb; simpl in Hb |- *; [by subst|..]; rewrite length_app; simpl.
  - destruct Hb as (_ & _ & Hl & Hr). specialize (IHl _ Hl). specialize (IHr _ Hr). lia.
  - destruct Hb as (m & -> & Hl & Hr). specialize (IHl _ Hl). specialize (IHr _ Hr). rewrite Nat.pow_succ_r'. lia.
Qed.

Lemma bal_height t n : bal t n -> (height t <= 2 * n + (if color t is RB_RED then 1 else 0))%nat.
Proof.
  revert n. induction t as [|[] a d l IHl r IHr]; intros n Hb; simpl in Hb |- *; [lia|..].
  - destruct Hb as (Hcl & Hcr & Hl & Hr). specialize (IHl _ Hl). specialize (IHr _ Hr). rewrite Hcl in IHl. rewrite Hcr in IHr. lia.
  - destruct Hb as (m & -> & Hl & Hr). specialize (IHl _ Hl). specialize (IHr _ Hr).
    destruct (color l), (color r); lia.
Qed.

(** A tree of [N] nodes is at most [2 * log2 (N + 1)] nodes high. *)
Lemma height_log t n : bal t n -> color t = RB_BLACK -> (height t <= 2 * Nat.log2 (S (length (flat t))))%nat.
Proof.
  intros Hb Hc. pose proof (bal_height _ _ Hb) as Hh. rewrite Hc in Hh. pose proof (bal_size _ _ Hb) as Hs.
  apply Nat.log2_le_mono in Hs. rewrite Nat.log2_pow2 in Hs; lia.
Qed.

Section Theorems.
Context {PA : PageAllocator} (sentinel : home).
Abbreviation zip := (zip sentinel).
Abbreviation ptr := (ptr sentinel).

Record tree_ok (s : rbs) (t : rbt) : Prop := {
  to_zip : exists ps, zip s ps [] t;
  to_bal : exists n, bal t n;
  to_black : color t = RB_BLACK;
  to_asc : asc (rb_keys s) (elems t)
}.

(** The nodes are live; the sentinel is part of the kernel's image, which
    lies above the direct map of the physical memory. *)
Record heap_nodes (s : rbs) (t : rbt) (F : gset Z) (own : gmap Z owner) (L : gmap Z Z) : Prop := {
  hn_abs : heap_abs (rb_heap s) F own L;
  hn_live : forall a, a ∈ addrs t ++ (others sentinel).*1 -> is_Some (L !! a);
  hn_sentinel : h_offset (rb_heap s) + mm_pages_count (h_mm (rb_heap s)) * PAGE_SIZE <= sentinel
}.

Definition rb_map (s : rbs) (M : gmap Z Z) (F : gset Z) (own : gmap Z owner) (L : gmap Z Z) : Prop :=
  exists t, tree_ok s t /\ heap_nodes s t F own L /\ M = map_of (rb_keys s) (elems t).

Lemma sentinel_not_live h F own L :
  heap_abs h F own L -> h_offset h + mm_pages_count (h_mm h) * PAGE_SIZE <= sentinel -> L !! sent sentinel = None.
Proof.
  intros Ha Hs. destruct (L !! sent sentinel) as [n|] eqn:Hl; [|done]. apply (ha_live _ _ _ _ Ha) in Hl.
  pose proof (ho_rep _ _ _ (ha_ok _ _ _ _ Ha)) as Hr.
  destruct (live_range _ _ _ _ _ _ Hr Hl) as (p & o & Ho & Hn & _ & Hhi).
  destruct (hr_blocks _ _ _ _ Hr _ _ Ho) as [[_ _ Hb _] _]. unfold PAGE_SIZE in *. nia.
Qed.

(** ** The cells are the nodes *)

Lemma cells_addrs p t : (cells sentinel p t).*1 ≡ₚ addrs t.
Proof.
  revert p. induction t as [|c a d l IHl r IHr]; intros p; [done|]. unfold addrs in *. cbn [cells flat].
  rewrite !fmap_app, IHl, IHr. simpl. rewrite (Permutation_app_comm (flat l).*1). apply Permutation_middle.
Qed.

Lemma cellsc_addrs h ctx : (cellsc sentinel h ctx).*1 ≡ₚ (bef ctx).*1 ++ (aft ctx).*1.
Proof.
  revert h. induction ctx as [|f ctx IH]; intros h; [done|]. cbn [cellsc bef aft]. rewrite !fmap_app, IH, cells_addrs.
  unfold addrs. simpl. destruct (fdir f); rewrite ?fmap_app, ?fmap_cons, ?fmap_app; simpl.
  - rewrite (Permutation_app_comm (bef ctx).*1 (_ :: _)). simpl. constructor. rewrite <- app_assoc.
    by rewrite (Permutation_app_comm (aft ctx).*1).
  - rewrite <- !app_assoc. simpl. rewrite !app_assoc. rewrite <- Permutation_middle. constructor.
    by rewrite (Permutation_app_comm (flat (fo f)).*1).
Qed.

Lemma zip_addrs ps ctx t :
  (leaf sentinel ps ++ cells sentinel (pctx ctx) t ++ cellsc sentinel (ptr t) ctx).*1 ≡ₚ
  sent sentinel :: addrs (plug ctx t) ++ (others sentinel).*1.
Proof.
  rewrite !fmap_app, cells_addrs, cellsc_addrs, addrs_plug. unfold leaf. rewrite fmap_app. simpl. constructor.
  rewrite (Permutation_app_comm (others sentinel).*1). apply Permutation_app_tail. rewrite !app_assoc.
  apply Permutation_app_tail, Permutation_app_comm.
Qed.

Lemma zip_nodes s ps ctx t : zip s ps ctx t -> NoDup (sent sentinel :: addrs (plug ctx t) ++ (others sentinel).*1).
Proof. intros [[Hnd _] _]. by rewrite zip_addrs in Hnd. Qed.

Lemma zip_height s ps ctx t : zip s ps ctx t -> (height t <= size (rb_nodes s))%nat.
Proof.
  intros Hz. pose proof (holds_size _ _ (z_cells _ _ _ _ _ Hz)) as Hs. rewrite !length_app in Hs.
  pose proof (height_elems t) as Hh. assert (length (cells sentinel (pctx ctx) t) = length (flat t)) as Hl; [|lia].
  rewrite <- (length_fmap fst (cells _ _ _)), <- (length_fmap fst (flat t)). by rewrite cells_addrs.
Qed.

Lemma tree_size s t : tree_ok s t -> (height t < S (size (rb_nodes s)))%nat.
Proof. intros [[ps Hz] _ _ _]. pose proof (zip_height _ _ _ _ Hz). lia. Qed.

Lemma no_bounds K k : bounds K k [].
Proof. by split; intros d ?%elem_of_nil. Qed.

(** ** Search *)

Lemma find_node_spec s t k :
  tree_ok s t ->
  returns (_find_node sentinel (rb_root s) k s) (fun w =>
    (w = NULL /\ map_of (rb_keys s) (elems t) !! k = None) \/
    (exists ps ctx c a d l r, w = Ref a /\ zip s ps ctx (T c a d l r) /\ rb_keys s !! d = Some k /\ plug ctx (T c a d l r) = t)).
Proof.
  intros Hok. pose proof Hok as [[ps Hz] _ _ Ha]. unfold _find_node. rewrite (z_root _ _ _ _ _ Hz). cbn [plug].
  eapply returns_mono; [eapply find_node_loop_spec; [done|done|apply no_bounds|by apply tree_size]|].
  intros w [[-> Hn]|(ctx & c & a & d & l & r & -> & Hz' & Hk & Hp)]; [left|right].
  - split; [done|]. by apply map_of_none.
  - exists ps, ctx, c, a, d, l, r. done.
Qed.

Lemma found_lookup s t k ctx c a d l r :
  tree_ok s t -> plug ctx (T c a d l r) = t -> rb_keys s !! d = Some k -> map_of (rb_keys s) (elems t) !! k = Some d.
Proof.
  intros [_ _ _ Ha] <- Hk. apply map_of_lookup; [done|]. split; [apply focus_elem|]. unfold key. by rewrite Hk.
Qed.

Lemma tree_find_spec s t k :
  tree_ok s t -> tree_find sentinel k s = Ret (from_option Ref NULL (map_of (rb_keys s) (elems t) !! k)).
Proof.
  intros Hok. unfold tree_find. destruct (returns_inv _ _ (find_node_spec s t k Hok)) as (w & -> & Hw).
  cbn [mbind outcome_bind]. destruct Hw as [[-> Hn]|(ps & ctx & c & a & d & l & r & -> & Hz & Hk & Hp)].
  - by rewrite Hn.
  - cbn [nonnull]. rewrite (zip_node _ _ _ _ _ _ _ _ _ Hz). cbn [mbind outcome_bind n_data].
    by rewrite (found_lookup _ _ _ _ _ _ _ _ _ Hok Hp Hk).
Qed.

(** ** Insertion *)

Lemma asc_hang K k ctx d :
  asc K (elems (plug ctx E)) -> bounds K k ctx -> K !! d = Some k -> forall a, asc K (elems (plug ctx (T RB_RED a d E E))).
Proof.
  intros Ha [Hb Hf] Hd a. rewrite elems_plug in Ha |- *. change (elems E) with (@nil Z) in Ha. cbn [app] in Ha.
  apply asc_app in Ha as (H1 & H2 & H3). assert (key K d = k) as Hk by (unfold key; by rewrite Hd).
  apply asc_app. split; [done|]. change (elems (T RB_RED a d E E)) with [d]. rewrite asc_app. split.
  - split; [apply asc_one; by eexists|]. split; [done|]. intros x y ->%list_elem_of_singleton Hy. rewrite Hk. by apply Hf.
  - intros x y Hx [->%list_elem_of_singleton|Hy]%elem_of_app; [rewrite Hk; by apply Hb|by apply H3].
Qed.

Lemma new_node_spec s ps ctx t F own L d :
  zip s ps ctx E -> plug ctx E = t -> heap_nodes s t F own L -> serves F own SIZEOF_NODE ->
  returns (_new_node sentinel (Ref d) (pctx ctx) s) (fun '(w, s') => exists a F' own', w = Ref a /\ L !! a = None /\
    holds (rb_nodes s') ([(a, mk_node (pctx ctx) (RB_NIL sentinel) (RB_NIL sentinel) RB_RED (Ref d))] ++ leaf sentinel ps ++
      cellsc sentinel (ptr E) ctx) /\
    rb_root s' = rb_root s /\ rb_keys s' = rb_keys s /\ hdone (rb_heap s) (rb_heap s') /\
    heap_abs (rb_heap s') F' own' (<[a := capacity SIZEOF_NODE]> L) /\
    kmalloc SIZEOF_NODE (rb_heap s) = Ret (a, rb_heap s')).
Proof.
  intros Hz Hp Hn Hs. unfold _new_node.
  destruct (returns_inv _ _ (kmalloc_spec _ _ _ _ SIZEOF_NODE (hn_abs _ _ _ _ _ Hn) ltac:(unfold SIZEOF_NODE; lia) Hs))
    as ([a h'] & Heq & F' & own' & Ha & Hfr & Hd & _). rewrite Heq. apply returns_ret. exists a, F', own'. split_and!; try done. cbn [rb_nodes set_nodes set_rb_heap].
  apply (holds_fresh _ _ _ _ (z_cells _ _ _ _ _ Hz)). rewrite zip_addrs, Hp. intros [Hin|Hin]%elem_of_cons.
  - simpl in Hin. subst a. pose proof (sentinel_not_live _ _ _ _ Ha) as Hnl. rewrite lookup_insert_eq in Hnl.
    rewrite (hd_off _ _ Hd), (hd_count _ _ Hd) in Hnl. by specialize (Hnl (hn_sentinel _ _ _ _ _ Hn)).
  - destruct (hn_live _ _ _ _ _ Hn a Hin) as [? Hl]. congruence.
Qed.

Lemma tree_insert_spec s t F own L d k :
  tree_ok s t -> heap_nodes s t F own L -> rb_keys s !! d = Some k -> serves F own SIZEOF_NODE ->
  returns (tree_insert sentinel (Ref d) s) (fun '(w, s') =>
    (exists d', map_of (rb_keys s) (elems t) !! k = Some d' /\ w = Ref d' /\ s' = s) \/
    (map_of (rb_keys s) (elems t) !! k = None /\ w = NULL /\ exists t' a F' own',
       tree_ok s' t' /\ heap_nodes s' t' F' own' (<[a := capacity SIZEOF_NODE]> L) /\ L !! a = None /\
       elems t' ≡ₚ d :: elems t /\ rb_keys s' = rb_keys s /\ hdone (rb_heap s) (rb_heap s') /\
       kmalloc SIZEOF_NODE (rb_heap s) = Ret (a, rb_heap s'))).
Proof.
  intros Hok Hn Hk Hserve. pose proof Hok as [[ps Hz] [m Hb] Hblk Ha]. unfold tree_insert. cbn [key_of]. rewrite Hk.
  cbn [of_option mbind outcome_bind]. rewrite (z_root _ _ _ _ _ Hz). cbn [plug].
  mcall (find_place_spec sentinel _ s ps [] t k Hz Ha (no_bounds _ _) (tree_size _ _ Hok)).
  intros pl [(ctx & -> & Hz1 & Hbo & Hp)|(d' & -> & Hin & Hk')]; cycle 1.
  { left. exists d'. split; [|done]. apply map_of_lookup; [done|]. split; [done|]. unfold key. by rewrite Hk'. }
  cbn [plug] in Hp. mcall (new_node_spec _ _ _ t _ _ _ d Hz1 Hp Hn Hserve).
  intros [w s1] (a & F' & own' & -> & Hfr & Hh1 & Hr1 & Hk1 & Hd1 & Habs & Hun).
  mcall (upd_spec _ _ _ (set_parent (pctx ctx)) _ Hh1). intros s2 (Hh2 & Hr2 & Hk2 & Hhp2). cbn [set_parent n_left n_right n_color n_data] in Hh2.
  subst t. assert (rb_root s2 = ptr (plug ctx E)) as Hroot by (rewrite Hr2, Hr1; apply (z_root _ _ _ _ _ Hz1)).
  rewrite <- Hk1, <- Hk2 in Hbo, Ha, Hk.
  mcall (hang_spec sentinel s2 ps ctx a d k Hh2 Hroot Hbo Ha). intros s3 [Hz3 [Hk3 Hhp3]].
  destruct (unplug_bal _ _ _ Hb Hblk) as (n & Hbc & Hbe & _). simpl in Hbe. subst n.
  mcall (insert_fixup_spec sentinel s3 ps ctx (T RB_RED a d E E) 0 Hz3 eq_refl Hbc); [done|].
  intros s4 (t' & n & Hz4 & Hb4 & Hc4 & Hfl & [Hk4 Hhp4]). apply returns_ret. right.
  assert (elems t' = elems (plug ctx (T RB_RED a d E E))) as Hel by (unfold elems; by rewrite Hfl).
  assert (addrs t' ≡ₚ a :: addrs (plug ctx E)) as Had.
  { unfold addrs at 1. rewrite Hfl. fold (addrs (plug ctx (T RB_RED a d E E))). rewrite !addrs_plug.
    symmetry. apply Permutation_middle. }
  split; [by rewrite <- Hk1, <- Hk2; apply map_of_none; [|intros e; apply bounds_none]|]. split; [done|].
  exists t', a, F', own'. rewrite Hk4, Hk3, Hk2, Hk1, Hhp4, Hhp3, Hhp2. split_and!; try done.
  - split; [by exists ps|by exists n|done|]. rewrite Hk4, Hk3, Hel. by eapply asc_hang.
  - split; rewrite ?Hhp4, ?Hhp3, ?Hhp2; [done| |].
    + intros b Hin. rewrite Had in Hin. simpl in Hin. apply elem_of_cons in Hin as [->|Hin]; [rewrite lookup_insert_eq; by eexists|].
      destruct (decide (b = a)) as [->|Hne]; [rewrite lookup_insert_eq; by eexists|]. rewrite lookup_insert_ne by done.
      by apply (hn_live _ _ _ _ _ Hn).
    + rewrite (hd_off _ _ Hd1), (hd_count _ _ Hd1). apply (hn_sentinel _ _ _ _ _ Hn).
  - rewrite Hel, !elems_plug. symmetry. apply Permutation_middle.
Qed.

(** ** Removal *)

(** [t'] is [t] without the element [d] and without the node at [x]. *)
Definition removed (t t' : rbt) (d x : Z) : Prop :=
  (exists l1 l2, elems t = l1 ++ d :: l2 /\ elems t' = l1 ++ l2) /\ addrs t ≡ₚ x :: addrs t'.

Lemma removed_here ctx c a d l r o :
  (l = E /\ o = r) \/ (r = E /\ o = l) -> removed (plug ctx (T c a d l r)) (plug ctx o) d a.
Proof.
  intros Ho. assert (exists u v, flat (T c a d l r) = u ++ (a, d) :: v /\ flat o = u ++ v) as (u & v & Hf & Hfo).
  { destruct Ho as [[-> ->]|[-> ->]]; simpl; [exists (flat r), []|exists [], (flat l)]; by rewrite ?app_nil_r. }
  split.
  - exists ((bef ctx).*2 ++ u.*2), (v.*2 ++ (aft ctx).*2). rewrite !elems_plug. unfold elems. rewrite Hf, Hfo, !fmap_app.
    simpl. by rewrite <- !app_assoc.
  - rewrite !addrs_plug. unfold addrs. rewrite Hf, Hfo, !fmap_app. simpl. rewrite <- !app_assoc. simpl.
    rewrite !(app_assoc (bef ctx).*1). symmetry. apply Permutation_middle.
Qed.

Lemma removed_below ctx1 ctx c a d l cx xa xd xr :
  aft ctx1 = [] ->
  removed (plug (ctx1 ++ Fr true c a d l :: ctx) (T cx xa xd E xr)) (plug (ctx1 ++ Fr true c a xd l :: ctx) xr) d xa.
Proof.
  intros Haft. set (u := bef ctx ++ bef ctx1 ++ flat xr). set (v := flat l ++ aft ctx).
  assert (flat (plug (ctx1 ++ Fr true c a d l :: ctx) (T cx xa xd E xr)) = u ++ (xa, xd) :: (a, d) :: v) as Hf.
  { rewrite plug_app. cbn [plug]. rewrite plug_flat. unfold up, mk. cbn [fdir fc fa fd fo flat]. rewrite plug_flat, Haft.
    cbn [flat]. unfold u, v. rewrite <- !app_assoc. by cbn. }
  assert (flat (plug (ctx1 ++ Fr true c a xd l :: ctx) xr) = u ++ (a, xd) :: v) as Hf'.
  { rewrite plug_app. cbn [plug]. rewrite plug_flat. unfold up, mk. cbn [fdir fc fa fd fo flat]. rewrite plug_flat, Haft.
    unfold u, v. rewrite <- !app_assoc. by cbn. }
  unfold removed, elems, addrs. rewrite Hf, Hf', !fmap_app. split.
  - exists (u.*2 ++ [xd]), v.*2. simpl. by rewrite <- !app_assoc.
  - simpl. symmetry. apply Permutation_middle.
Qed.

Lemma removed_asc K t t' d x : removed t t' d x -> asc K (elems t) -> asc K (elems t').
Proof.
  intros [(l1 & l2 & -> & ->) _] Ha. apply asc_app in Ha as (H1 & H2 & H3).
  apply (asc_app K [d]) in H2 as (_ & H2 & _). apply asc_app. split_and!; [done|done|].
  intros y z Hy Hz. apply H3; [done|]. by right.
Qed.

(** The node to unlink: the one found, or the last one of its right subtree. *)
Lemma victim_spec s ps ctx c a d l r :
  zip s ps ctx (T c a d l r) -> (height r < S (size (rb_nodes s)))%nat ->
  returns (if bool_decide (ptr l = RB_NIL sentinel) || bool_decide (ptr r = RB_NIL sentinel) then Ret (Ref a)
           else leftmost sentinel (S (size (rb_nodes s))) (ptr r) s) (fun x =>
    (x = Ref a /\ (l = E \/ r = E)) \/
    (exists ctx1 cx xa xd xr, x = Ref xa /\ xa <> a /\ zip s ps (ctx1 ++ Fr true c a d l :: ctx) (T cx xa xd E xr) /\
       plug ctx1 (T cx xa xd E xr) = r /\ aft ctx1 = [])).
Proof.
  intros Hz Hh. destruct (child_nil _ _ _ _ _ _ _ _ _ Hz) as [Hl Hr].
  destruct (bool_decide (ptr l = RB_NIL sentinel) || bool_decide (ptr r = RB_NIL sentinel)) eqn:Hor.
  { left. split; [done|]. apply orb_true_iff in Hor as [?%bool_decide_eq_true|?%bool_decide_eq_true]; [left|right]; tauto. }
  apply orb_false_iff in Hor as [_ Hrn%bool_decide_eq_false].
  assert (zip s ps (Fr true c a d l :: ctx) r) as Hz1 by (by apply zip_up).
  eapply returns_mono; [apply (leftmost_spec _ _ _ _ _ _ Hz1); [tauto|lia]|].
  intros w (ctx1 & cx & xa & xd & xr & -> & Hz2 & Hp & Haft). right. exists ctx1, cx, xa, xd, xr. split_and!; try done.
  intros ->. pose proof (zip_nodes _ _ _ _ Hz1) as Hnd. cbn [plug up fdir fc fa fd fo mk] in Hnd.
  rewrite NoDup_cons, NoDup_app, addrs_plug, !NoDup_app in Hnd. destruct Hnd as (_ & (_ & _ & Hnd & _) & _).
  unfold addrs in Hnd. cbn [flat] in Hnd. rewrite fmap_app, NoDup_app in Hnd. destruct Hnd as (_ & Hnd & _).
  apply (Hnd a); [|rewrite fmap_app; left]. rewrite <- Hp. fold (addrs (plug ctx1 (T cx a xd E xr))).
  rewrite addrs_plug, !elem_of_app. right. left. unfold addrs. cbn [flat]. rewrite !fmap_app, !elem_of_app. right. left. left.
Qed.

(** [n->data = x->data] *)
Lemma move_data_spec s ps ctx1 c a d l ctx o xd :
  zip s ps (ctx1 ++ Fr true c a d l :: ctx) o -> parented ps (ctx1 ++ Fr true c a d l :: ctx) o ->
  returns (upd (Ref a) (set_data (Ref xd)) s) (fun s' =>
    zip s' ps (ctx1 ++ Fr true c a xd l :: ctx) o /\ parented ps (ctx1 ++ Fr true c a xd l :: ctx) o /\
    same s s' /\ forall b, b <> a -> get (Ref b) s' = get (Ref b) s).
Proof.
  intros Hz Hp. pose proof Hz as Hz0. rewrite zip_app, zip_up in Hz0. unfold up in Hz0. cbn [fdir fc fa fd fo] in Hz0.
  pose proof (zip_upd _ _ _ _ _ _ _ _ _ _ (set_data (Ref xd)) c xd Hz0) as Hu.
  destruct (returns_inv _ _ (Hu (fun p q w => set_data_node _ _ _ _ _ _ _))) as (s' & Heq & Hz' & Hs). rewrite Heq.
  apply returns_ret. split_and!; [|by destruct ctx1|done|].
  - rewrite zip_app, zip_up. exact Hz'.
  - intros b Hb. unfold upd in Heq. destruct (rb_nodes s !! a); [|done]. injection Heq as <-.
    unfold get. cbn [rb_nodes set_nodes]. by rewrite lookup_insert_ne.
Qed.

(** The last steps: [_remove_fixup] and [kfree]. *)
Lemma release_spec s ps ctx o n cx xa xd xl xr t d (out : word) F own L :
  zip s ps ctx o -> parented ps ctx o -> (xl = E /\ o = xr) \/ (xr = E /\ o = xl) ->
  balc ctx n -> bal (T cx xa xd xl xr) n -> (cx = RB_RED -> ctx <> []) ->
  removed t (plug ctx o) d xa -> asc (rb_keys s) (elems t) -> NoDup (sent sentinel :: addrs t ++ (others sentinel).*1) -> heap_nodes s t F own L ->
  returns (s ← (if decide (cx = RB_BLACK) then _remove_fixup sentinel (ptr o) s else Ret s);
           h ← kfree xa (rb_heap s); Ret (out, set_nodes (delete xa (rb_nodes s)) (set_rb_heap h s)))
    (fun '(w, s') => w = out /\ exists t' F' own', tree_ok s' t' /\ heap_nodes s' t' F' own' (delete xa L) /\
       elems t ≡ₚ d :: elems t' /\ rb_keys s' = rb_keys s /\ hdone (rb_heap s) (rb_heap s') /\
       unchanged (delete xa L) (h_mem (rb_heap s)) (h_mem (rb_heap s'))).
Proof.
  intros Hz Hp Ho Hc Hb Hred Hrem Ha Hnd Hn.
  mcall (unlink_fixup_spec sentinel _ _ _ _ _ _ _ _ _ _ Hz Hp Ho Hc Hb Hred). intros s1 (t' & m & Hz1 & Hb1 & Hc1 & Hfl & Hk1 & Hh1).
  assert (removed t t' d xa) as Hrem'. { unfold removed, elems, addrs in *. by rewrite Hfl. }
  pose proof Hrem' as [(l1 & l2 & He & He') Had]. rewrite Had in Hnd.
  assert (xa ∈ addrs t) as Hxa by (rewrite Had; left). destruct (hn_live _ _ _ _ _ Hn xa) as [sz Hlive]; [apply elem_of_app; by left|]. rewrite Hh1.
  mcall (kfree_spec _ _ _ _ _ _ (hn_abs _ _ _ _ _ Hn) Hlive). intros h' (F' & own' & Habs & Hd & Hun).
  apply returns_ret. split; [done|]. exists t', F', own'. cbn [rb_keys rb_heap rb_nodes set_nodes set_rb_heap].
  split_and!; [split|split|..]; cbn [rb_keys rb_heap rb_nodes set_nodes set_rb_heap]; try done; [..|by rewrite He, He'; rewrite Permutation_middle].
  - exists ps. destruct Hz1 as [Hcells Hroot]. split; [|done]. cbn [rb_nodes set_nodes set_rb_heap] in *.
    apply holds_remove; [done|]. rewrite zip_addrs. cbn [plug]. simpl in Hnd. rewrite !NoDup_cons, !elem_of_cons in Hnd.
    rewrite elem_of_cons. naive_solver.
  - by exists m.
  - rewrite Hk1. by eapply removed_asc.
  - intros b Hin. simpl in Hnd. rewrite !NoDup_cons in Hnd. rewrite lookup_delete_ne; [|intros <-; naive_solver].
    apply (hn_live _ _ _ _ _ Hn). rewrite Had. by right.
  - rewrite (hd_off _ _ Hd), (hd_count _ _ Hd). apply (hn_sentinel _ _ _ _ _ Hn).
Qed.

(** [node = x->child[x->child[RB_LEFT] == RB_NIL]] *)
Lemma only_child s ps ctx c a d l r :
  zip s ps ctx (T c a d l r) -> l = E \/ r = E -> exists o, ((l = E /\ o = r) \/ (r = E /\ o = l)) /\
    child (bool_decide (ptr l = RB_NIL sentinel)) (mk_node (pctx ctx) (ptr l) (ptr r) c (Ref d)) = ptr o.
Proof.
  intros Hz Hor. destruct (child_nil _ _ _ _ _ _ _ _ _ Hz) as [Hl _]. assert (l = E \/ l <> E) as [->|Hne] by (destruct l; auto).
  - exists r. split; [by left|]. by rewrite bool_decide_eq_true_2.
  - exists l. split; [right; split; [tauto|done]|]. rewrite bool_decide_eq_false_2; [done|tauto].
Qed.

(** What a removal leaves behind. *)
Definition gone (s : rbs) (t : rbt) (L : gmap Z Z) (d : Z) (r : word * rbs) : Prop :=
  r.1 = Ref d /\ exists x t' F' own', tree_ok r.2 t' /\ heap_nodes r.2 t' F' own' (delete x L) /\ x ∈ addrs t /\
    elems t ≡ₚ d :: elems t' /\ rb_keys r.2 = rb_keys s /\ hdone (rb_heap s) (rb_heap r.2) /\
    unchanged (delete x L) (h_mem (rb_heap s)) (h_mem (rb_heap r.2)).

Lemma removed_addr t t' d x : removed t t' d x -> x ∈ addrs t.
Proof. intros [_ ->]. left. Qed.

Lemma remove_found s ps ctx c a d l r t F own L :
  tree_ok s t -> heap_nodes s t F own L -> zip s ps ctx (T c a d l r) -> plug ctx (T c a d l r) = t -> l = E \/ r = E ->
  returns (remove_node sentinel (Ref a) (Ref d) (Ref a) s) (gone s t L d).
Proof.
  intros [_ [m Hb] Hblk Ha] Hn Hz Hp Hor. pose proof (zip_nodes _ _ _ _ Hz) as Hnd. rewrite Hp in Hnd.
  destruct (only_child _ _ _ _ _ _ _ _ Hz Hor) as (o & Ho & Hch). unfold remove_node.
  mpure (zip_node _ _ _ _ _ _ _ _ _ Hz). cbv zeta. cbn [child RB_LEFT n_left n_parent]. cbn [child RB_LEFT n_left] in Hch. rewrite Hch.
  apply returns_assoc. mcall (splice_spec sentinel _ _ _ _ _ _ _ _ _ Hz Ho). intros s1 (ps1 & Hz1 & Hp1 & Hg1 & Hk1 & Hh1).
  rewrite decide_True by done. cbn [mbind outcome_bind]. rewrite Hg1. cbn [mbind outcome_bind n_color].
  rewrite <- Hp in Hb, Hblk. destruct (unplug_bal _ _ _ Hb Hblk) as (n & Hbc & Hbt & Hred).
  pose proof (removed_here ctx c a d l r o Ho) as Hrem. rewrite Hp in Hrem.
  eapply returns_mono; [eapply (release_spec s1 ps1 ctx o n c a d l r t d (Ref d) F own L); try done|].
  - intros Hc. by apply Hred.
  - by rewrite Hk1.
  - destruct Hn as [? ? ?]. split; by rewrite ?Hh1.
  - intros [w s2] (-> & t' & F' & own' & ? & ? & ? & Hk2 & Hd & Hun). split; [done|]. exists a, t', F', own'.
    rewrite Hk1 in Hk2. rewrite Hh1 in Hd, Hun. split_and!; try done. by eapply removed_addr.
Qed.

Lemma remove_below s ps ctx1 ctx c a d l cx xa xd xr t F own L :
  tree_ok s t -> heap_nodes s t F own L -> xa <> a -> zip s ps (ctx1 ++ Fr true c a d l :: ctx) (T cx xa xd E xr) ->
  plug (ctx1 ++ Fr true c a d l :: ctx) (T cx xa xd E xr) = t -> aft ctx1 = [] ->
  returns (remove_node sentinel (Ref a) (Ref d) (Ref xa) s) (gone s t L d).
Proof.
  intros [_ [m Hb] Hblk Ha] Hn Hne Hz Hp Haft. pose proof (zip_nodes _ _ _ _ Hz) as Hnd. rewrite Hp in Hnd.
  unfold remove_node. mpure (zip_node _ _ _ _ _ _ _ _ _ Hz). cbv zeta. cbn [child RB_LEFT n_left n_parent].
  rewrite bool_decide_eq_true_2 by done. cbn [n_right].
  apply returns_assoc. mcall (splice_spec sentinel _ _ _ _ _ _ _ _ xr Hz); [by left|].
  intros s1 (ps1 & Hz1 & Hp1 & Hg1 & Hk1 & Hh1).
  rewrite decide_False by congruence. rewrite Hg1. cbn [mbind outcome_bind n_data].
  mcall (move_data_spec _ _ _ _ _ _ _ _ _ xd Hz1 Hp1). intros s2 (Hz2 & Hp2 & [Hk2 Hh2] & Hg2).
  rewrite (Hg2 xa Hne), Hg1. cbn [mbind outcome_bind n_color].
  rewrite <- Hp in Hb, Hblk. destruct (unplug_bal _ _ _ Hb Hblk) as (n & Hbc & Hbt & Hred).
  pose proof (removed_below ctx1 ctx c a d l cx xa xd xr Haft) as Hrem. rewrite Hp in Hrem.
  eapply returns_mono; [eapply (release_spec s2 ps1 _ xr n cx xa xd E xr t d (Ref d) F own L); try done|].
  - by left.
  - by apply (balc_data ctx1 (Fr true c a d l) xd).
  - intros _. by destruct ctx1.
  - by rewrite Hk2, Hk1.
  - destruct Hn as [? ? ?]. split; by rewrite ?Hh2, ?Hh1.
  - intros [w s3] (-> & t' & F' & own' & ? & ? & ? & Hk3 & Hd & Hun). split; [done|]. exists xa, t', F', own'.
    rewrite Hk2, Hk1 in Hk3. rewrite Hh2, Hh1 in Hd, Hun. split_and!; try done. by eapply removed_addr.
Qed.

Lemma tree_remove_spec s t F own L k :
  tree_ok s t -> heap_nodes s t F own L ->
  returns (tree_remove sentinel k s) (fun r =>
    (map_of (rb_keys s) (elems t) !! k = None /\ r = (NULL, s)) \/
    (exists d, map_of (rb_keys s) (elems t) !! k = Some d /\ gone s t L d r)).
Proof.
  intros Hok Hn. unfold tree_remove. mcall (find_node_spec s t k Hok).
  intros w [[-> Hnone]|(ps & ctx & c & a & d & l & r & -> & Hz & Hk & Hp)]; [by left|].
  pose proof (found_lookup _ _ _ _ _ _ _ _ _ Hok Hp Hk) as Hlk.
  rewrite bool_decide_eq_false_2 by (by eapply zip_not_nil). cbn [nonnull negb orb].
  mpure (zip_node _ _ _ _ _ _ _ _ _ Hz). cbn [child RB_LEFT RB_RIGHT n_left n_right n_data].
  mcall (victim_spec _ _ _ _ _ _ _ _ Hz). { pose proof (zip_height _ _ _ _ Hz) as Hh. simpl in Hh. lia. }
  intros x [[-> Hor]|(ctx1 & cx & xa & xd & xr & -> & Hne & Hz1 & Hr & Haft)].
  - eapply returns_mono; [by eapply remove_found|]. intros r' Hr'. right. by exists d.
  - eapply returns_mono; [eapply remove_below; [done|done|done|exact Hz1| |done]|].
    + by rewrite plug_app, Hr.
    + intros r' Hr'. right. by exists d.
Qed.

(** [tree_set_data_at] exchanges the data of a key it finds. *)
Lemma asc_replace K l1 l2 d e : asc K (l1 ++ d :: l2) -> K !! d = K !! e -> asc K (l1 ++ e :: l2).
Proof.
  intros Ha He. assert (key K d = key K e) as Hk by (unfold key; by rewrite He).
  apply asc_app in Ha as (H1 & H2 & H3). apply (asc_app K [d]) in H2 as (H4 & H2 & H5).
  apply asc_app. split; [done|]. split.
  - apply (asc_app K [e]). split_and!; [|done|].
    + apply asc_one. rewrite <- He. apply (asc_keys _ _ H4). left.
    + intros x y ->%list_elem_of_singleton Hy. rewrite <- Hk. apply H5; [left|done].
  - intros x y Hx [->|Hy]%elem_of_cons; [rewrite <- Hk; apply H3; [done|left]|apply H3; [done|by right]].
Qed.

Lemma tree_set_data_spec s t k d0 d :
  tree_ok s t -> map_of (rb_keys s) (elems t) !! k = Some d0 -> rb_keys s !! d = Some k ->
  returns (tree_set_data_at sentinel k (Ref d) s) (fun s' => exists t' l1 l2, tree_ok s' t' /\
    elems t = l1 ++ d0 :: l2 /\ elems t' = l1 ++ d :: l2 /\ addrs t' = addrs t /\ same s s').
Proof.
  intros Hok Hl Hd. unfold tree_set_data_at. mcall (find_node_spec s t k Hok).
  intros w [[-> Hnone]|(ps & ctx & c & a & e & l & r & -> & Hz & Hk & Hp)]; [congruence|].
  pose proof (found_lookup _ _ _ _ _ _ _ _ _ Hok Hp Hk) as Hlk. assert (e = d0) as -> by congruence.
  cbn [key_of]. rewrite Hd. cbn [of_option mbind outcome_bind]. rewrite Z.eqb_refl.
  eapply returns_mono; [apply (zip_upd _ _ _ _ false c a d0 l r (set_data (Ref d)) c d Hz); intros; apply set_data_node|].
  intros s' [Hz' Hs]. destruct Hok as [_ [m Hb] Hblk Ha]. subst t.
  assert (exists u v, flat (T c a d0 l r) = u ++ (a, d0) :: v /\ flat (T c a d l r) = u ++ (a, d) :: v) as (u & v & Hu & Hv) by (by exists (flat r), (flat l)).
  assert (elems (plug ctx (T c a d0 l r)) = ((bef ctx).*2 ++ u.*2) ++ d0 :: v.*2 ++ (aft ctx).*2) as He.
  { rewrite elems_plug. unfold elems. rewrite Hu, fmap_app. simpl. by rewrite <- !app_assoc. }
  assert (elems (plug ctx (T c a d l r)) = ((bef ctx).*2 ++ u.*2) ++ d :: v.*2 ++ (aft ctx).*2) as He'.
  { rewrite elems_plug. unfold elems. rewrite Hv, fmap_app. simpl. by rewrite <- !app_assoc. }
  exists (plug ctx (T c a d l r)), ((bef ctx).*2 ++ u.*2), (v.*2 ++ (aft ctx).*2). split_and!; try done.
  - split; [exists ps; by apply zip_close| | |].
    + destruct (unplug_bal _ _ _ Hb Hblk) as (n & Hbc & Hbt & Hred). eapply (plug_bal ctx _ n); [done|exact Hbt|].
      intros Hc. by apply Hred.
    + rewrite <- Hblk. by apply plug_color_eq.
    + destruct Hs as [-> _]. rewrite He'. eapply asc_replace; [by rewrite <- He|congruence].
  - rewrite !addrs_plug. unfold addrs. by rewrite Hu, Hv, !fmap_app.
Qed.

(** ** The operations on the map *)

(** C25: [tree_insert] is insertion into the map.  If the key is there it
    returns the data of that key and changes nothing; otherwise it returns
    [NULL], the map has the new entry, and the tree is again a balanced search
    tree on one more live node. *)
Theorem tree_insert_refines s M F own L d k :
  rb_map s M F own L -> rb_keys s !! d = Some k -> serves F own SIZEOF_NODE ->
  returns (tree_insert sentinel (Ref d) s) (fun '(w, s') => rb_keys s' = rb_keys s /\
    match M !! k with
    | Some d' => w = Ref d' /\ s' = s
    | None => w = NULL /\ exists a F' own', L !! a = None /\ rb_map s' (<[k := d]> M) F' own' (<[a := capacity SIZEOF_NODE]> L)
    end).
Proof.
  intros (t & Hok & Hn & ->) Hk Hs. eapply returns_mono; [by eapply tree_insert_spec|].
  intros [w s'] [(d' & Hl & -> & ->)|(Hl & -> & t' & a & F' & own' & Hok' & Hn' & Hfr & Hp & Hks & _)]; rewrite Hl; [done|].
  split; [done|]. split; [done|]. exists a, F', own'. split; [done|]. exists t'. split; [done|]. split; [done|].
  rewrite Hks. assert (key (rb_keys s) d = k) as <- by (unfold key; by rewrite Hk).
  symmetry. apply map_of_cons; [|done]. rewrite <- Hks. apply (to_asc _ _ Hok').
Qed.

(** C26: [tree_remove] is removal from the map: it returns the data of the key
    and the map no longer has it, or [NULL] and nothing changes; the tree
    stays a balanced search tree, and the node it gives back was one of its
    own. *)
Theorem tree_remove_refines s M F own L k :
  rb_map s M F own L ->
  returns (tree_remove sentinel k s) (fun '(w, s') => rb_keys s' = rb_keys s /\
    match M !! k with
    | Some d => w = Ref d /\ exists x F' own', is_Some (L !! x) /\ rb_map s' (delete k M) F' own' (delete x L)
    | None => w = NULL /\ s' = s
    end).
Proof.
  intros (t & Hok & Hn & ->). eapply returns_mono; [by eapply tree_remove_spec|].
  intros [w s'] [[Hl [= -> ->]]|(d & Hl & Hw & x & t' & F' & own' & Hok' & Hn' & Hx & Hp & Hks & _)]; rewrite Hl; [done|].
  cbn [fst snd] in *. subst w. split; [done|]. split; [done|]. exists x, F', own'. split; [apply (hn_live _ _ _ _ _ Hn), elem_of_app; by left|].
  exists t'. split; [done|]. split; [done|]. rewrite Hks. pose proof (to_asc _ _ Hok) as Ha. pose proof (to_asc _ _ Hok') as Ha'.
  rewrite Hks in Ha'. apply map_of_lookup in Hl as [_ <-]; [|done].
  rewrite (map_of_cons _ _ _ _ Ha Hp). apply delete_insert_id. apply map_of_none; [done|].
  intros e He Heq. pose proof (asc_distinct _ _ Ha) as Hnd. rewrite Hp, fmap_cons in Hnd. apply NoDup_cons in Hnd as [Hni _].
  apply Hni, list_elem_of_fmap. by exists e.
Qed.

(** C27: [tree_find] returns the data the map has for the key, and its loop
    visits at most [2 * log2 (n + 1)] nodes of a tree with [n] of them. *)
Theorem tree_find_logarithmic s M F own L k :
  rb_map s M F own L ->
  tree_find sentinel k s = Ret (from_option Ref NULL (M !! k)) /\
  forall fuel, (2 * Nat.log2 (S (size M)) < fuel)%nat ->
    returns (find_node_loop sentinel fuel (rb_root s) k s) (fun w => nonnull w = bool_decide (is_Some (M !! k))).
Proof.
  intros (t & Hok & Hn & ->). split; [by apply tree_find_spec|]. intros fuel Hf.
  pose proof Hok as [[ps Hz] [n Hb] Hblk Ha]. rewrite map_of_size in Hf by done. unfold elems in Hf. rewrite length_fmap in Hf.
  pose proof (height_log _ _ Hb Hblk). rewrite (z_root _ _ _ _ _ Hz). cbn [plug].
  eapply returns_mono; [eapply (find_node_loop_spec sentinel fuel s ps [] t k); [done|done|apply no_bounds|lia]|].
  intros w [[-> Hnone]|(ctx & c & a & d & l & r & -> & Hz' & Hk & Hp)].
  - rewrite bool_decide_eq_false_2; [done|]. rewrite (map_of_none _ _ _ Ha Hnone). by intros [? ?].
  - rewrite bool_decide_eq_true_2; [done|]. eexists. by eapply found_lookup.
Qed.

End Theorems.

(** ** Non-vacuity

    On the heap of [HeapTheorems.Sample], with the sentinel in the image of
    the kernel: three data with the keys 30, 10 and 20. *)
Module Sample.
Import HeapTheorems.HeapTheorems.Sample.

Definition nil_addr : home := Home 0xffffffff80100000 [].
Definition keys0 : gmap Z Z := <[1 := 30]> (<[2 := 10]> (<[3 := 20]> ∅)).
Definition tree0 : rbs :=
  init_root_node nil_addr (mk_rbs {[sent nil_addr := mk_node NULL (Ref nil_addr) (Ref nil_addr) RB_BLACK NULL]} NULL keys0 heap0).

Lemma tree0_ok : tree_ok nil_addr tree0 E.
Proof.
  split; [exists NULL; split; [|done]|by exists O|done|].
  - split; [apply NoDup_singleton|]. constructor; [|constructor]. apply (lookup_singleton_eq (M := gmap Z)).
  - split; [constructor|]. by intros d ?%elem_of_nil.
Qed.

Lemma tree0_map : exists F, rb_map nil_addr tree0 ∅ F ∅ ∅ /\ serves F ∅ SIZEOF_NODE.
Proof.
  destruct heap0_abs as (F & Ha & HF). exists F. split; [|apply heap0_serves; [done|unfold SIZEOF_NODE; lia]].
  exists E. split; [apply tree0_ok|]. split; [|done]. split; [done|by intros a ?%elem_of_nil|].
  cbn [tree0 init_root_node set_root rb_heap]. vm_compute. discriminate.
Qed.

Lemma tree_insert_refines_witness : exists F, rb_map nil_addr tree0 ∅ F ∅ ∅ /\
  returns (tree_insert nil_addr (Ref 1) tree0) (fun '(w, s') => rb_keys s' = keys0 /\ w = NULL /\
    exists a F' own', (∅ : gmap Z Z) !! a = None /\ rb_map nil_addr s' (<[30 := 1]> ∅) F' own' (<[a := capacity SIZEOF_NODE]> ∅)).
Proof.
  destruct tree0_map as (F & HM & Hs). exists F. split; [exact HM|].
  exact (tree_insert_refines nil_addr tree0 ∅ F ∅ ∅ 1 30 HM eq_refl Hs).
Defined.

(** The tree with one element. *)
Lemma tree1_map : exists s F own L, tree_insert nil_addr (Ref 1) tree0 = Ret (NULL, s) /\ rb_map nil_addr s (<[30 := 1]> ∅) F own L.
Proof.
  destruct tree0_map as (F & (t & Hok & Hn & HM) & Hs). pose proof (tree_insert_spec nil_addr tree0 t F ∅ ∅ 1 30 Hok Hn eq_refl Hs) as Hi.
  apply returns_inv in Hi as ([w s] & Heq & [(d' & Hl & _)|(_ & -> & t' & a & F' & own' & Hok' & Hn' & _ & Hp & Hks & _)]).
  { by rewrite <- HM in Hl. }
  exists s, F', own', (<[a := capacity SIZEOF_NODE]> ∅). split; [exact Heq|]. exists t'. split; [exact Hok'|]. split; [exact Hn'|].
  rewrite HM. change 30 with (key (rb_keys tree0) 1). rewrite Hks. symmetry. apply map_of_cons; [|exact Hp].
  rewrite <- Hks. apply (to_asc _ _ _ Hok').
Qed.

Lemma tree_remove_refines_witness : exists s, tree_insert nil_addr (Ref 1) tree0 = Ret (NULL, s) /\
  returns (tree_remove nil_addr 30 s) (fun '(w, s') => w = Ref 1).
Proof.
  destruct tree1_map as (s & F & own & L & Heq & HM). exists s. split; [exact Heq|].
  eapply returns_mono; [exact (tree_remove_refines nil_addr s _ F own L 30 HM)|].
  intros [w s'] [_ H]. rewrite lookup_insert_eq in H. apply H.
Defined.

Lemma tree_find_logarithmic_witness : exists s, tree_insert nil_addr (Ref 1) tree0 = Ret (NULL, s) /\
  tree_find nil_addr 30 s = Ret (Ref 1) /\ tree_find nil_addr 31 s = Ret NULL /\
  returns (find_node_loop nil_addr 3 (rb_root s) 30 s) (fun w => nonnull w = true).
Proof.
  destruct tree1_map as (s & F & own & L & Heq & HM). exists s. split; [exact Heq|]. split; [|split].
  - exact (proj1 (tree_find_logarithmic nil_addr s _ F own L 30 HM)).
  - exact (proj1 (tree_find_logarithmic nil_addr s _ F own L 31 HM)).
  - refine (proj2 (tree_find_logarithmic nil_addr s _ F own L 30 HM) 3%nat _). vm_compute. lia.
Defined.

End Sample.
End RbTheorems.
