(* ===== verification/Pathn.v ===== *)
(** * Paths (kernel/src/std/pathn.c, kernel/include/pathn.h)

    The functions that take paths apart, on strings in byte memory.  A path is
    a sequence of sections separated by slashes; [split_path], called on the
    rest of the path again and again as [vfs_lookup] does, yields its sections
    in order ([split_path_sections]). *)

From S2P Require Import Prelude Macros Mem CString.

Module Pathn.
Import Macros Mem CString.

Definition MAX_SECTION_LENGTH : Z := 256.
Definition SEPERATOR : Z := 47.

(** ** pathn.c *)

Definition path_is_root (path : Z) (m : mem) : bool := rd m path =? SEPERATOR.

(** The buffer has 256 bytes: a store behind it is a fault. *)
Definition pathn_buffer (fuel : nat) (buffer path : Z) (m : mem) : outcome mem :=
  let '(_, m) := strncpy buffer path 255 m in
  n ← strlen fuel path m;
  if n <? MAX_SECTION_LENGTH then Ret (wr m (buffer + n) 0) else Fault "store behind the buffer".

Definition pathn_buffer_n (buffer path n : Z) (m : mem) : outcome mem :=
  let '(_, m) := strncpy buffer path (MIN n 255) m in
  if n <? MAX_SECTION_LENGTH then Ret (wr m (buffer + n) 0) else Fault "store behind the buffer".

Fixpoint skip_separators (fuel : nat) (p : Z) (m : mem) : outcome Z :=
  if rd m p =? SEPERATOR then
    match fuel with
    | O => Fault "string without end"
    | S fuel => skip_separators fuel (p + 1) m
    end
  else Ret p.

(** The buffer, [*path_remaining] and the memory; [0] is [NULL]. *)
Definition copy_first_section (fuel : nat) (pathname buffer : Z) (m : mem) : outcome (Z * Z * mem) :=
  pathname ← skip_separators fuel pathname m;
  next_sep ← strchr fuel pathname SEPERATOR m;
  if next_sep =? 0 then
    '(b, m) ← strcpy fuel buffer pathname m;
    Ret (b, 0, m)
  else
    let length := next_sep -! pathname in
    let length := if length >? MAX_SECTION_LENGTH - 1 then MAX_SECTION_LENGTH - 1 else length in
    let '(_, m) := strncpy buffer pathname length m in
    Ret (buffer, next_sep, wr m (buffer + length) 0).

(** The start of the section, or [NULL], and [*length], which keeps its value
    [len] when nothing but slashes is left. *)
Definition split_path (fuel : nat) (path len : Z) (m : mem) : outcome (Z * Z) :=
  if (path =? 0) || (rd m path =? 0) then Ret (0, 0)
  else
    start ← skip_separators fuel path m;
    if rd m start =? 0 then Ret (0, len)
    else
      delimiter ← strchr fuel start SEPERATOR m;
      if delimiter =? 0 then n ← strlen fuel start m; Ret (start, n)
      else Ret (start, delimiter -! start).

(** [while ((section = split_path(section + len, &len)))] of [vfs_lookup]: the
    sections it goes through, by address and length. *)
Fixpoint split_all (n fuel : nat) (section len : Z) (m : mem) : outcome (list (Z * Z)) :=
  match n with
  | O => Fault "loop does not end"
  | S n =>
      '(section, len) ← split_path fuel (section + len) len m;
      if section =? 0 then Ret []
      else rest ← split_all n fuel section len m; Ret ((section, len) :: rest)
  end.

(** ** The sections of a path *)

(** [sections_aux cur s]: [cur] is the section being read, in reverse. *)
Fixpoint sections_aux (cur s : list Z) : list (list Z) :=
  match s with
  | [] => if decide (cur = []) then [] else [rev cur]
  | c :: s =>
      if decide (c = SEPERATOR) then (if decide (cur = []) then sections_aux [] s else rev cur :: sections_aux [] s)
      else sections_aux (c :: cur) s
  end.
Definition sections (s : list Z) : list (list Z) := sections_aux [] s.

(** Leading slashes, and the length of the first section. *)
Fixpoint lead (s : list Z) : nat := match s with c :: s => if decide (c = SEPERATOR) then S (lead s) else O | [] => O end.
Fixpoint first_len (s : list Z) : nat := match s with c :: s => if decide (c = SEPERATOR) then O else S (first_len s) | [] => O end.

Lemma sections_aux_run cur s :
  cur <> [] -> sections_aux cur s = (rev cur ++ take (first_len s) s) :: sections (drop (first_len s) s).
Proof.
  revert cur. induction s as [|c s IH]; intros cur Hne; simpl.
  - by rewrite decide_False, app_nil_r.
  - destruct (decide (c = SEPERATOR)) as [->|Hc]; simpl.
    + rewrite decide_False, app_nil_r by done. unfold sections. cbn [sections_aux]. by rewrite !decide_True by done.
    + rewrite IH by done. simpl. by rewrite <- app_assoc.
Qed.

Lemma sections_lead s : sections s = sections (drop (lead s) s).
Proof.
  induction s as [|c s IH]; [done|]. simpl. destruct (decide (c = SEPERATOR)) as [->|]; [|done]. simpl. rewrite <- IH.
  unfold sections. cbn [sections_aux]. by rewrite !decide_True by done.
Qed.

Lemma drop_lead s : drop (lead s) s = [] \/ exists c t, drop (lead s) s = c :: t /\ c <> SEPERATOR.
Proof.
  induction s as [|c s IH]; simpl; [by left|]. destruct (decide (c = SEPERATOR)); [done|]. right. eauto.
Qed.

Lemma sections_first s c t :
  drop (lead s) s = c :: t -> c <> SEPERATOR ->
  sections s = take (first_len (c :: t)) (c :: t) :: sections (drop (first_len (c :: t)) (c :: t)).
Proof.
  intros Hd Hc. rewrite sections_lead, Hd. unfold sections at 1. simpl. rewrite !decide_False by done. simpl.
  by rewrite sections_aux_run by done.
Qed.

Lemma lead_le s : (lead s <= length s)%nat.
Proof. induction s as [|c s IH]; simpl; [done|]. destruct (decide _); lia. Qed.

Lemma first_len_le s : (first_len s <= length s)%nat.
Proof. induction s as [|c s IH]; simpl; [done|]. destruct (decide _); lia. Qed.

(** ** The loops *)

Lemma skip_separators_spec fuel p s m :
  cstr m p s -> (length s <= fuel)%nat -> skip_separators fuel p m = Ret (p + Z.of_nat (lead s)).
Proof.
  revert fuel p. induction s as [|c s IH]; intros fuel p Hs Hf; simpl in Hs |- *.
  - destruct fuel; simpl; rewrite Hs; simpl; f_equal; lia.
  - destruct Hs as (Hc & Hr & Hs). simpl in Hf. destruct fuel as [|fuel]; [lia|]. simpl. rewrite Hr.
    destruct (Z.eqb_spec c SEPERATOR) as [->|Hne].
    + rewrite decide_True by done. rewrite IH by (done || lia). f_equal. lia.
    + rewrite decide_False by done. f_equal. lia.
Qed.

Lemma strchr_separator fuel p i s m :
  cstr m (p + i) s -> (length s <= fuel)%nat ->
  strchr_loop fuel p i SEPERATOR m = Ret (if (first_len s <? length s)%nat then p + i + Z.of_nat (first_len s) else 0).
Proof.
  revert fuel i. induction s as [|c s IH]; intros fuel i Hs Hf; cbn [cstr] in Hs.
  - destruct fuel; simpl; by rewrite Hs.
  - destruct Hs as (Hc & Hr & Hs). simpl in Hf. destruct fuel as [|fuel]; [lia|]. cbn [strchr_loop]. rewrite Hr.
    destruct (Z.eqb_spec c 0); [lia|]. cbn [first_len length]. destruct (decide (c = SEPERATOR)) as [->|Hne].
    + simpl. f_equal. lia.
    + destruct (Z.eqb_spec (s8 c) SEPERATOR) as [He|_].
      { exfalso. apply Hne. unfold s8, SEPERATOR in *. destruct (decide (c < 128)).
        - rewrite Z.mod_small in He by lia. lia.
        - replace (c + 2 ^ 7) with (c - 128 + 1 * 2 ^ 8) in He by lia. rewrite Z.mod_add, Z.mod_small in He by lia. lia. }
      rewrite (IH fuel (i + 1)) by (lia || by rewrite Z.add_assoc). 
      change (S (first_len s) <? S (length s))%nat with (first_len s <? length s)%nat.
      destruct (first_len s <? length s)%nat; f_equal. lia.
Qed.

(** Where [split_path] finds the first section of what is left. *)
Lemma split_path_spec fuel p len s m :
  cstr m p s -> 0 < p -> p + Z.of_nat (length s) < 2 ^ 64 -> (length s <= fuel)%nat ->
  (sections s = [] /\ exists n, split_path fuel p len m = Ret (0, n)) \/
  (exists k n, (k + n <= length s)%nat /\ (0 < n)%nat /\ sections s = take n (drop k s) :: sections (drop (k + n) s) /\
     split_path fuel p len m = Ret (p + Z.of_nat k, Z.of_nat n)).
Proof.
  intros Hs Hp Hlen Hf. unfold split_path. destruct (Z.eqb_spec p 0); [lia|]. cbn [orb].
  destruct s as [|c0 s0]. { left. simpl in Hs. rewrite Hs. split; [done|]. by eexists. }
  set (s := c0 :: s0) in *. assert (rd m p <> 0) as Hne. { destruct Hs as (? & -> & _). lia. }
  destruct (Z.eqb_spec (rd m p) 0); [done|]. rewrite (skip_separators_spec _ _ _ _ Hs Hf). cbn [mbind outcome_bind].
  pose proof (lead_le s) as Hll. pose proof (cstr_drop m p s (lead s) Hs Hll) as Hd.
  destruct (drop_lead s) as [He|(c & t & He & Hc)].
  - left. rewrite He in Hd. cbn [cstr] in Hd. rewrite Hd. split; [by rewrite sections_lead, He|]. by eexists.
  - right. assert (length s = lead s + length (c :: t))%nat as Hl. { rewrite <- He, length_drop. lia. }
    rewrite He in Hd. pose proof Hd as (Hcr & Hr & _). rewrite Hr. destruct (Z.eqb_spec c 0); [lia|].
    unfold strchr. rewrite (strchr_separator fuel (p + Z.of_nat (lead s)) 0 (c :: t)); [|by rewrite Z.add_0_r|lia].
    cbn [mbind outcome_bind]. pose proof (first_len_le (c :: t)) as Hfl. pose proof (sections_first s c t He Hc) as Hsec.
    set (k := first_len (c :: t)) in *. exists (lead s), k. split; [lia|].
    split; [unfold k; simpl; rewrite decide_False by done; lia|]. split; [by rewrite <- drop_drop, He|].
    destruct (Nat.ltb_spec k (length (c :: t))) as [Hlt|Hge].
    + destruct (Z.eqb_spec (p + Z.of_nat (lead s) + 0 + Z.of_nat k) 0); [lia|]. f_equal. f_equal. rewrite u64_small; lia.
    + simpl Z.eqb. cbv iota. rewrite (strlen_spec fuel _ (c :: t)) by (done || lia). cbn [mbind outcome_bind].
      f_equal. f_equal. lia.
Qed.

Lemma cstr_bytes m p s k n :
  cstr m p s -> (k + n <= length s)%nat -> bytes m (p + Z.of_nat k) n = take n (drop k s).
Proof.
  intros Hs Hle. apply list_eq_same_length with (n := n); [by rewrite length_take, length_drop; lia| |].
  { unfold bytes. by rewrite length_fmap, length_seqZ, Nat2Z.id. }
  intros i x y Hi Hx Hy. unfold bytes in Hx. rewrite list_lookup_fmap in Hx.
  destruct (seqZ 0 (Z.of_nat n) !! i) as [z|] eqn:Hz; [|done]. apply lookup_seqZ in Hz as [-> _].
  injection Hx as <-. rewrite lookup_take_lt, lookup_drop in Hy by lia.
  replace (p + Z.of_nat k + (0 + Z.of_nat i)) with (p + Z.of_nat (k + i)) by lia.
  rewrite (cstr_lookup m p s) by (done || lia). rewrite list_lookup_total_alt, lookup_app_l by lia. by rewrite Hy.
Qed.

Lemma split_all_spec n fuel q len s m :
  cstr m (q + len) s -> 0 < q + len -> q + len + Z.of_nat (length s) < 2 ^ 64 -> (length s <= fuel)%nat -> (length s < n)%nat ->
  returns (split_all n fuel q len m) (fun l => (fun '(a, k) => bytes m a (Z.to_nat k)) <$> l = sections s /\
    Forall (fun '(a, k) => q + len <= a /\ 0 < k /\ a + k <= q + len + Z.of_nat (length s)) l).
Proof.
  revert q len s. induction n as [|n IH]; intros q len s Hs Hq Hlen Hf Hn; [lia|]. cbn [split_all].
  destruct (split_path_spec fuel (q + len) len s m Hs Hq Hlen Hf) as [[Hsec [k ->]]|(k & l & Hkl & Hl & Hsec & ->)];
    cbn [mbind outcome_bind]; [by rewrite Z.eqb_refl, Hsec|].
  destruct (Z.eqb_spec (q + len + Z.of_nat k) 0); [lia|].
  pose proof (cstr_drop m (q + len) s (k + l) Hs Hkl) as Hd. rewrite Nat2Z.inj_add, Z.add_assoc in Hd.
  assert (length (drop (k + l) s) = length s - (k + l))%nat as Hld by apply length_drop.
  mcall (IH (q + len + Z.of_nat k) (Z.of_nat l) (drop (k + l) s) Hd); [lia|rewrite Hld; lia..|].
  intros r [Hr Hall]. apply returns_ret. split.
  - rewrite fmap_cons, Hr, Hsec, Nat2Z.id. by rewrite (cstr_bytes m (q + len) s).
  - constructor; [lia|]. eapply Forall_impl; [exact Hall|]. intros [a b] (? & ? & ?). rewrite Hld in *. lia.
Qed.

(** C28: calling [split_path] on the rest of a path until it returns [NULL], as
    [vfs_lookup] does, yields exactly the sections of the path in order,
    whatever slashes are doubled, leading or trailing; every section lies
    within the path and is not empty. *)
Theorem split_path_sections fuel p s m :
  cstr m p s -> 0 < p -> p + Z.of_nat (length s) < 2 ^ 64 -> (length s < fuel)%nat ->
  returns (split_all fuel fuel p 0 m) (fun l => (fun '(a, k) => bytes m a (Z.to_nat k)) <$> l = sections s /\
    Forall (fun '(a, k) => p <= a /\ 0 < k /\ a + k <= p + Z.of_nat (length s)) l).
Proof.
  intros Hs Hp Hlen Hf. rewrite <- (Z.add_0_r p) in Hs. eapply returns_mono; [apply split_all_spec; [done|lia..]|].
  intros l [Hl Hall]. split; [done|]. eapply Forall_impl; [exact Hall|]. intros [a k] ?. lia.
Qed.

(** The path "//ab/c/". *)
Lemma split_path_sections_witness :
  let m := write_bytes 4096 [47; 47; 97; 98; 47; 99; 47; 0] ∅ in
  returns (split_all 8 8 4096 0 m) (fun l => (fun '(a, k) => bytes m a (Z.to_nat k)) <$> l = [[97; 98]; [99]] /\
    Forall (fun '(a, k) => 4096 <= a /\ 0 < k /\ a + k <= 4103) l).
Proof.
  apply (split_path_sections 8 4096 [47; 47; 97; 98; 47; 99; 47]); [|lia|simpl; lia|simpl; lia].
  vm_compute. repeat split; reflexivity.
Defined.

End Pathn.
