(* ===== verification/Pnc.v ===== *)
(** * The path name cache (kernel/src/fs/pathncache.c, kernel/include/vfs.h)

    Every cached file has an entry; the entries of a directory hang in the
    red-black tree of its entry, by the hash of their name, and entries with
    the same hash form a doubly linked bucket whose first element is in the
    tree.  The names are bytes in heap memory. *)

From stdpp Require Import gmap.
From S2P Require Import Prelude Mem CString FrameHdr FrameAlloc PageIface Slab RbTree.

Module Pnc.
Import Mem CString FrameHdr FrameAlloc PageIface Slab RbTree.

Record pnc_entry := mk_pnc {
  pe_key : Z;
  pe_root : word;              (* entries_root *)
  pe_parent : word;
  pe_next : word;
  pe_prev : word;
  pe_vnode : word;
  pe_name_len : Z;
  pe_section : Z               (* path_section *)
}.
Definition set_pe_root (x : word) (e : pnc_entry) : pnc_entry :=
  mk_pnc (pe_key e) x (pe_parent e) (pe_next e) (pe_prev e) (pe_vnode e) (pe_name_len e) (pe_section e).
Definition set_pe_next (x : word) (e : pnc_entry) : pnc_entry :=
  mk_pnc (pe_key e) (pe_root e) (pe_parent e) x (pe_prev e) (pe_vnode e) (pe_name_len e) (pe_section e).
Definition set_pe_prev (x : word) (e : pnc_entry) : pnc_entry :=
  mk_pnc (pe_key e) (pe_root e) (pe_parent e) (pe_next e) x (pe_vnode e) (pe_name_len e) (pe_section e).

(** The entries, the nodes of all the trees, and the heap. *)
Record pncs := mk_pncs {
  pc_entries : gmap Z pnc_entry;
  pc_nodes : gmap Z rb_tree_node;
  pc_heap : heap
}.
Definition set_entries (x : gmap Z pnc_entry) (s : pncs) : pncs := mk_pncs x (pc_nodes s) (pc_heap s).
Definition set_pc_heap (x : heap) (s : pncs) : pncs := mk_pncs (pc_entries s) (pc_nodes s) x.
Definition pc_mem (s : pncs) : mem := h_mem (pc_heap s).

Definition entry (p : word) (s : pncs) : outcome pnc_entry :=
  match p with Ref a => of_option "no entry there" (pc_entries s !! a) | Num _ => Fault "null entry" end.
Definition upd_entry (p : word) (f : pnc_entry -> pnc_entry) (s : pncs) : outcome pncs :=
  match p with
  | Ref a => e ← of_option "no entry there" (pc_entries s !! a); Ret (set_entries (<[a := f e]> (pc_entries s)) s)
  | Num _ => Fault "null entry"
  end.

(** The tree of a directory: an entry starts with its key, as the data of a
    tree does. *)
Definition tree_view (root : word) (s : pncs) : rbs := mk_rbs (pc_nodes s) root (pe_key <$> pc_entries s) (pc_heap s).
Definition with_tree {A} (dir : word) (f : rbs -> outcome (A * rbs)) (s : pncs) : outcome (A * pncs) :=
  e ← entry dir s;
  '(a, t) ← f (tree_view (pe_root e) s);
  s ← upd_entry dir (set_pe_root (rb_root t)) (mk_pncs (pc_entries s) (rb_nodes t) (rb_heap t));
  Ret (a, s).

(** ** vfs.h *)

(** [char] is signed. *)
Fixpoint pathn_hash_loop (n : nat) (str hash : Z) (m : mem) : Z :=
  match n with
  | O => hash
  | S n => pathn_hash_loop n (str + 1) (hash *! 33 +! s8 (rd m str)) m
  end.
Definition pathn_hash (str len : Z) (m : mem) : Z := pathn_hash_loop (Z.to_nat len) str 5381 m.

(** ** pathncache.c *)

Definition SIZEOF_PNC_ENTRY : Z := 64.

Section Cache.
Context {PA : PageAllocator} (sentinel : Z).

Definition new_pnc_entry (vnode parent : word) (pathn len hash : Z) (s : pncs) : outcome (word * pncs) :=
  '(ent, h) ← kmalloc SIZEOF_PNC_ENTRY (pc_heap s);
  '(section, h) ← kmalloc len h;
  let '(_, m) := strncpy section pathn len (h_mem h) in
  Ret (Ref ent, mk_pncs (<[ent := mk_pnc hash (RB_NIL sentinel) parent NULL NULL vnode len section]> (pc_entries s))
                  (pc_nodes s) (set_mem m h)).

(** [len == name_len && !strncmp(...)] *)
Definition named (section len : Z) (e : pnc_entry) (s : pncs) : bool :=
  (len =? pe_name_len e) && (strncmp section (pe_section e) len (pc_mem s) =? 0).

Fixpoint lookup_bucket (fuel : nat) (found : word) (section len : Z) (s : pncs) : outcome word :=
  match fuel with
  | O => Fault "loop does not end"
  | S fuel =>
      e ← entry found s;
      if named section len e s then Ret found
      else if nonnull (pe_next e) then lookup_bucket fuel (pe_next e) section len s else Ret NULL
  end.

Definition pnc_lookup_section (dir : word) (section len : Z) (s : pncs) : outcome word :=
  let hash := pathn_hash section len (pc_mem s) in
  d ← entry dir s;
  found ← tree_find sentinel hash (tree_view (pe_root d) s);
  if nonnull found then lookup_bucket (S (size (pc_entries s))) found section len s else Ret NULL.

(** A duplicate on the key: [new] comes second in its bucket. *)
Definition link_after (dup new : word) (s : pncs) : outcome (word * pncs) :=
  d ← entry dup s;
  let old_next := pe_next d in
  s ← upd_entry new (set_pe_prev dup) s;
  s ← upd_entry new (set_pe_next old_next) s;
  s ← upd_entry dup (set_pe_next new) s;
  s ← (if nonnull old_next then upd_entry old_next (set_pe_prev new) s else Ret s);
  Ret (new, s).

Definition pnc_add_section (vnode dir : word) (section len : Z) (s : pncs) : outcome (word * pncs) :=
  exists_ ← pnc_lookup_section dir section len s;
  if nonnull exists_ then Ret (exists_, s)
  else
    let hash := pathn_hash section len (pc_mem s) in
    '(new, s) ← new_pnc_entry vnode dir section len hash s;
    '(dup, s) ← with_tree dir (tree_insert sentinel new) s;
    if nonnull dup then link_after dup new s else Ret (new, s).

(** The [retry] loop: the element of the bucket with the entry's name. *)
Fixpoint evict_search (fuel : nat) (e : pnc_entry) (first : word) (s : pncs) : outcome word :=
  match fuel with
  | O => Fault "loop does not end"
  | S fuel =>
      f ← entry first s;
      if named (pe_section e) (pe_name_len e) f s then Ret first
      else if nonnull (pe_next f) then evict_search fuel e (pe_next f) s
      else Panic "requested path for eviction not found"
  end.

(** The entry to free: unlinked from its bucket, or removed from the tree. *)
Definition evict_unlink (ent : word) (e : pnc_entry) (s : pncs) : outcome (word * pncs) :=
  if nonnull (pe_next e) || nonnull (pe_prev e) then
    p ← entry (pe_parent e) s;
    first ← tree_find sentinel (pe_key e) (tree_view (pe_root p) s);
    f ← entry first s;
    '(first, s) ←
      (if named (pe_section e) (pe_name_len e) f s then
         '(_, s) ← with_tree (pe_parent e) (fun t => t ← tree_set_data_at sentinel (pe_key e) (pe_next f) t; Ret (tt, t)) s;
         s ← upd_entry (pe_next f) (set_pe_prev NULL) s;
         Ret (first, s)
       else
         first ← evict_search (S (size (pc_entries s))) e first s;
         f ← entry first s;
         s ← (if nonnull (pe_prev f) then upd_entry (pe_prev f) (set_pe_next (pe_next f)) s else Ret s);
         s ← (if nonnull (pe_next f) then upd_entry (pe_next f) (set_pe_prev (pe_prev f)) s else Ret s);
         Ret (first, s));
    s ← upd_entry first (fun f => set_pe_next DEADBEEF (set_pe_prev DEADBEEF f)) s;
    Ret (first, s)
  else with_tree (pe_parent e) (tree_remove sentinel (pe_key e)) s.

Definition pnc_evict_section (ent : word) (s : pncs) : outcome pncs :=
  e ← entry ent s;
  '(evicted, s) ← evict_unlink ent e s;
  v ← entry evicted s;
  h ← kfree (pe_section v) (pc_heap s);
  match evicted with
  | Ref a => h ← kfree a h; Ret (set_entries (delete a (pc_entries s)) (set_pc_heap h s))
  | Num _ => Fault "null entry"
  end.

End Cache.
End Pnc.
