(* ===== verification/PncSpec.v ===== *)
(** * The path name cache: names, buckets and directories

    [cache_ok s T B F own L]: every entry of [s] has a well-formed name, the
    tree [T] of each directory holds the first entries of its buckets [B] by
    the hash of their names, and all trees share one store of nodes.  [child]
    is what the cache stands for: the entry a name leads to in a directory.
    [pnc_lookup_section] reads this relation and [pnc_add_section] extends it,
    also when hashes collide. *)

From stdpp Require Import gmap sorting.
From AAC_tactics Require Import AAC Instances.
From S2P Require Import Prelude Dll Mem CString FrameHdr Blocks FrameAlloc BuddyRep BuddyProof PageIface Slab SlabRep SlabProof HeapSpec HeapFrame.
From S2P Require Import RbTree RbRep RbSpec RbOps RbTheorems Pathn Pnc.

Module PncSpec.
Import Mem CString FrameHdr Blocks FrameAlloc PageIface Slab SlabRep SlabProof HeapSpec HeapFrame RbTree RbRep RbSpec RbOps RbTheorems Pathn Pnc Instances.Lists.

(** ** Names *)

Lemma bytes_S m a n : bytes m a (S n) = rd m a :: bytes m (a + 1) n.
Proof.
  unfold bytes. rewrite Nat2Z.inj_succ, seqZ_cons by lia. rewrite fmap_cons. f_equal; [f_equal; lia|].
  replace (Z.pred (Z.succ (Z.of_nat n))) with (Z.of_nat n) by lia.
  change (Z.succ 0) with (1 + 0). rewrite <- (fmap_add_seqZ 1 0), <- list_fmap_compose.
  apply list_fmap_ext. intros i x _. simpl. f_equal. lia.
Qed.

Lemma bytes_length m a n : length (bytes m a n) = n.
Proof. unfold bytes. by rewrite length_fmap, length_seqZ, Nat2Z.id. Qed.

Lemma bytes_ext m m' a n : (forall x, a <= x < a + Z.of_nat n -> rd m' x = rd m x) -> bytes m' a n = bytes m a n.
Proof.
  revert a. induction n as [|n IH]; intros a Hm; [done|]. rewrite !bytes_S. f_equal; [apply Hm; lia|].
  apply IH. intros x Hx. apply Hm. lia.
Qed.

Definition hash_of (nm : list Z) : Z := foldl (fun h c => h *! 33 +! s8 c) 5381 nm.

Lemma pathn_hash_bytes str len m : pathn_hash str len m = hash_of (bytes m str (Z.to_nat len)).
Proof.
  unfold pathn_hash, hash_of. generalize (Z.to_nat len), 5381. intros n. revert str.
  induction n as [|n IH]; intros str h; [done|]. rewrite bytes_S. simpl. apply IH.
Qed.

(** Names have no zero byte and fit an object of the heap. *)
Record good_name (nm : list Z) : Prop := {
  gn_chars : Forall (fun c => 0 < c < 256) nm;
  gn_some : nm <> [];
  gn_short : Z.of_nat (length nm) <= KMALLOC_MAX_CACHE_SIZE
}.

Lemma strncmp_loop_eq n i p q m :
  Forall (fun c => 0 < c < 256) (bytes m (p + i) n) ->
  strncmp_loop n i p q m = 0 <-> bytes m (p + i) n = bytes m (q + i) n.
Proof.
  revert i. induction n as [|n IH]; intros i Hc; [done|]. rewrite !bytes_S in *. apply Forall_cons in Hc as [Hc Hr].
  cbn [strncmp_loop]. destruct (Z.eqb_spec (rd m (p + i)) (rd m (q + i))) as [He|Hne]; cbn [negb].
  - destruct (Z.eqb_spec (rd m (p + i)) 0); [lia|]. rewrite <- !Z.add_assoc in *. rewrite (IH (i + 1) Hr). rewrite He. split; [by intros ->|].
    intros [= ->]. done.
  - split; [lia|]. by intros [= ? ?].
Qed.

Lemma strncpy_copy_bytes n dest src m :
  Forall (fun c => 0 < c < 256) (bytes m src n) -> dest + Z.of_nat n <= src \/ src + Z.of_nat n <= dest ->
  exists m', strncpy_copy n dest src m = (O, dest + Z.of_nat n, m') /\ bytes m' dest n = bytes m src n /\
    forall x, ~ (dest <= x < dest + Z.of_nat n) -> rd m' x = rd m x.
Proof.
  revert dest src m. induction n as [|n IH]; intros dest src m Hc Hd.
  - exists m. cbn [strncpy_copy]. rewrite Z.add_0_r. by destruct (rd m src =? 0).
  - rewrite bytes_S in Hc. apply Forall_cons in Hc as [Hc Hr]. cbn [strncpy_copy].
    destruct (Z.eqb_spec (rd m src) 0); [lia|]. set (m1 := wr m dest (rd m src)).
    assert (bytes m1 (src + 1) n = bytes m (src + 1) n) as Hb.
    { apply bytes_ext. intros x Hx. unfold m1. rewrite rd_wr, decide_False by lia. done. }
    destruct (IH (dest + 1) (src + 1) m1) as (m' & -> & Hm' & Hf); [by rewrite Hb|lia|].
    exists m'. split; [f_equal; f_equal; lia|]. split.
    + rewrite !bytes_S, Hm', Hb. f_equal. rewrite Hf by lia. unfold m1. rewrite rd_wr, decide_True by done. apply u8_small. lia.
    + intros x Hx. rewrite Hf by lia. unfold m1. rewrite rd_wr, decide_False by lia. done.
Qed.

(** A name is copied as it is. *)
Lemma strncpy_name dest src len m :
  0 <= len -> Forall (fun c => 0 < c < 256) (bytes m src (Z.to_nat len)) -> dest + len <= src \/ src + len <= dest ->
  exists m', strncpy dest src len m = (dest, m') /\ bytes m' dest (Z.to_nat len) = bytes m src (Z.to_nat len) /\
    forall x, ~ (dest <= x < dest + len) -> rd m' x = rd m x.
Proof.
  intros Hl Hc Hd. unfold strncpy. destruct (strncpy_copy_bytes (Z.to_nat len) dest src m Hc) as (m' & -> & Hm & Hf); [lia|].
  exists m'. cbn [strncpy_fill]. split_and!; [done|done|]. intros x Hx. apply Hf. lia.
Qed.

(** ** Entries and directories *)

#[global] Instance pnc_node : Node pnc_entry.
Proof.
  refine {| nxt := pe_next; prv := pe_prev; set_nxt := set_pe_next; set_prv := set_pe_prev |}; by intros.
Defined.

Definition name_of (m : mem) (e : pnc_entry) : list Z := bytes m (pe_section e) (Z.to_nat (pe_name_len e)).

Record entry_ok (m : mem) (L : gmap Z Z) (a : Z) (e : pnc_entry) : Prop := {
  eo_len : 0 <= pe_name_len e;
  eo_name : good_name (name_of m e);
  eo_live : is_Some (L !! a);
  eo_section : exists n, L !! pe_section e = Some n /\ pe_name_len e <= n
}.

(** The buckets of a directory by hash; the first of each is in the tree. *)
Record dir_ok (N : gmap Z pnc_entry) (m : mem) (d : Z) (t : rbt) (b : gmap Z (list Z)) : Prop := {
  do_bal : exists n, bal t n;
  do_black : color t = RB_BLACK;
  do_asc : asc (pe_key <$> N) (elems t);
  do_heads : forall a, a ∈ elems t <-> exists k l, b !! k = Some (a :: l);
  do_bucket : forall k l, b !! k = Some l -> exists a l', l = a :: l' /\ Dll.dll N (Ref a) l;
  do_member : forall k l a, b !! k = Some l -> a ∈ l -> exists e, N !! a = Some e /\ pe_key e = k /\ pe_parent e = Ref d;
  do_names : forall k l a a' e e', b !! k = Some l -> a ∈ l -> a' ∈ l -> N !! a = Some e -> N !! a' = Some e' ->
    name_of m e = name_of m e' -> a = a'
}.

Section Spec.
Context {PA : PageAllocator} (sentinel : Z).

(** The nodes of all the trees. *)
Definition tree_cells (t : rbt) : list (Z * rb_tree_node) := cells (Home sentinel []) NULL t.
Definition all_cells (T : gmap Z rbt) : list (Z * rb_tree_node) := map_to_list T ≫= (fun p => tree_cells p.2).

Record cache_ok (s : pncs) (T : gmap Z rbt) (B : Z -> gmap Z (list Z)) (F : gset Z) (own : gmap Z owner) (L : gmap Z Z) : Prop := {
  co_nodes : exists ps, holds (pc_nodes s)
    ([(sentinel, mk_node ps (RB_NIL sentinel) (RB_NIL sentinel) RB_BLACK NULL)] ++ all_cells T);
  co_dom : forall d, is_Some (T !! d) <-> is_Some (pc_entries s !! d);
  co_root : forall d e t, pc_entries s !! d = Some e -> T !! d = Some t -> pe_root e = ptr (Home sentinel []) t;
  co_dir : forall d t, T !! d = Some t -> dir_ok (pc_entries s) (pc_mem s) d t (B d);
  co_entry : forall a e, pc_entries s !! a = Some e -> entry_ok (pc_mem s) L a e;
  co_heap : heap_abs (pc_heap s) F own L;
  co_live : forall a, a ∈ (all_cells T).*1 -> is_Some (L !! a);
  co_sentinel : h_offset (pc_heap s) + mm_pages_count (h_mm (pc_heap s)) * PAGE_SIZE <= sentinel
}.

(** [nm] leads from the directory [d] to [a]. *)
Definition child (s : pncs) (B : Z -> gmap Z (list Z)) (d : Z) (nm : list Z) (a : Z) : Prop :=
  exists l e, B d !! hash_of nm = Some l /\ a ∈ l /\ pc_entries s !! a = Some e /\ name_of (pc_mem s) e = nm.

(** ** One tree among the others *)

Lemma all_cells_delete T d t : T !! d = Some t -> all_cells T ≡ₚ tree_cells t ++ all_cells (delete d T).
Proof. intros Ht. unfold all_cells. rewrite <- (map_to_list_delete T d t Ht). done. Qed.

Lemma all_cells_insert T d t : all_cells (<[d := t]> T) ≡ₚ tree_cells t ++ all_cells (delete d T).
Proof. rewrite (all_cells_delete _ d t) by apply lookup_insert_eq. by rewrite delete_insert_eq. Qed.

Definition home_of (T : gmap Z rbt) (d : Z) : home := Home sentinel (all_cells (delete d T)).

Lemma ptr_home o t : ptr (Home sentinel o) t = ptr (Home sentinel []) t.
Proof. by destruct t. Qed.

Lemma dir_tree s T B F own L d e t :
  cache_ok s T B F own L -> pc_entries s !! d = Some e -> T !! d = Some t ->
  tree_ok (home_of T d) (tree_view (pe_root e) s) t /\ heap_nodes (home_of T d) (tree_view (pe_root e) s) t F own L.
Proof.
  intros Hok He Ht. destruct (co_nodes _ _ _ _ _ _ Hok) as [ps Hh]. destruct (co_dir _ _ _ _ _ _ Hok d t Ht) as [Hb Hc Ha _ _ _ _].
  split; [split|split]; try done.
  - exists ps. split.
    + cbn [tree_view rb_nodes]. eapply holds_perm; [|exact Hh]. rewrite (all_cells_delete T d t Ht).
      unfold leaf. cbn [home_of sent others pctx cellsc]. rewrite app_nil_r. change (cells (home_of T d) NULL t) with (tree_cells t). aac_reflexivity.
    + cbn [tree_view rb_root plug]. rewrite (co_root _ _ _ _ _ _ Hok d e t He Ht). by destruct t.
  - apply (co_heap _ _ _ _ _ _ Hok).
  - intros a Hin. apply (co_live _ _ _ _ _ _ Hok). rewrite (all_cells_delete T d t Ht), fmap_app.
    unfold tree_cells. by rewrite cells_addrs.
  - apply (co_sentinel _ _ _ _ _ _ Hok).
Qed.

(** ** Lookup *)

(** Comparing lengths and then [strncmp] decides whether two names are equal. *)
Lemma strncmp_name m q len sec n nm :
  0 <= len -> bytes m q (Z.to_nat len) = nm -> good_name nm -> 0 <= n ->
  (len =? n) && (strncmp q sec len m =? 0) = bool_decide (bytes m sec (Z.to_nat n) = nm).
Proof.
  intros Hl Hq [Hc _ _] He. pose proof (bytes_length m q (Z.to_nat len)) as Hlen. rewrite Hq in Hlen.
  destruct (Z.eqb_spec len n) as [->|Hne]; cbn [andb].
  - assert ((strncmp q sec n m =? 0) = true <-> bytes m sec (Z.to_nat n) = nm) as Hiff.
    { rewrite Z.eqb_eq. unfold strncmp. rewrite strncmp_loop_eq by (rewrite Z.add_0_r, Hq; done). rewrite !Z.add_0_r, Hq. naive_solver. }
    destruct (bool_decide_reflect (bytes m sec (Z.to_nat n) = nm)) as [Hy|Hn]; [by apply Hiff|].
    destruct (_ =? 0); [|done]. by destruct Hn; apply Hiff.
  - symmetry. apply bool_decide_eq_false_2. intros Hn. apply (f_equal length) in Hn. rewrite bytes_length in Hn. lia.
Qed.

Lemma named_spec s q len e nm :
  0 <= len -> bytes (pc_mem s) q (Z.to_nat len) = nm -> good_name nm -> 0 <= pe_name_len e ->
  named q len e s = bool_decide (name_of (pc_mem s) e = nm).
Proof. intros. by apply strncmp_name. Qed.

(** A bucket, from its first element on. *)
Lemma lookup_bucket_spec fuel s p w l q len nm :
  0 <= len -> bytes (pc_mem s) q (Z.to_nat len) = nm -> good_name nm ->
  Dll.dseg (pc_entries s) p w NULL l -> l <> [] -> (length l <= fuel)%nat ->
  (forall a e, a ∈ l -> pc_entries s !! a = Some e -> 0 <= pe_name_len e) ->
  returns (lookup_bucket fuel w q len s) (fun r =>
    (r = NULL /\ forall a e, a ∈ l -> pc_entries s !! a = Some e -> name_of (pc_mem s) e <> nm) \/
    (exists a e, r = Ref a /\ a ∈ l /\ pc_entries s !! a = Some e /\ name_of (pc_mem s) e = nm)).
Proof.
  intros Hl Hq Hg. revert fuel p w. induction l as [|a l IH]; intros fuel p w Hd Hne Hf Hpos; [done|].
  destruct fuel as [|fuel]; [simpl in Hf; lia|]. destruct Hd as (-> & e & He & _ & Hd). cbn [lookup_bucket entry].
  rewrite He. cbn [of_option mbind outcome_bind]. rewrite (named_spec s q len e nm Hl Hq Hg) by (eapply Hpos; [left|done]).
  destruct (bool_decide_reflect (name_of (pc_mem s) e = nm)) as [Hy|Hn].
  { right. exists a, e. split_and!; [done|left|done|done]. }
  destruct l as [|b l].
  - simpl in Hd. rewrite Hd. left. split; [done|]. intros a' e' ->%list_elem_of_singleton He'. congruence.
  - pose proof Hd as (Hb & _). cbn [nxt pnc_node] in Hb, Hd. rewrite Hb in Hd |- *. cbn [nonnull].
    eapply returns_mono; [apply (IH fuel (Ref a) (Ref b) Hd); [done|simpl in *; lia|]|].
    + intros a' e' Ha'. apply Hpos. by right.
    + intros r [[-> Hno]|(a' & e' & -> & Ha' & He' & Hnm)]; [left|right].
      * split; [done|]. intros a' e' [->|Ha']%elem_of_cons He'; [congruence|by eapply Hno].
      * exists a', e'. split_and!; [done|by right|done|done].
Qed.

Lemma bucket_size (N : gmap Z pnc_entry) w l : Dll.dll N w l -> (length l <= size N)%nat.
Proof.
  intros [Hd Hnd]. rewrite <- (size_list_to_set (C := gset Z)) by done. rewrite <- size_dom. apply subseteq_size.
  intros a Ha%elem_of_list_to_set. apply elem_of_dom. by eapply Dll.dseg_elem.
Qed.

(** The first entry of the bucket is what the tree has for the hash. *)
Lemma tree_bucket N m d t b k :
  dir_ok N m d t b -> map_of (pe_key <$> N) (elems t) !! k = (b !! k) ≫= head.
Proof.
  intros Hd. pose proof (do_asc _ _ _ _ _ Hd) as Ha.
  assert (forall a k' l, b !! k' = Some (a :: l) -> key (pe_key <$> N) a = k') as Hkey.
  { intros a k' l Hb. destruct (do_member _ _ _ _ _ Hd k' _ a Hb) as (e & He & Hk & _); [left|].
    unfold key. by rewrite lookup_fmap, He. }
  destruct (map_of (pe_key <$> N) (elems t) !! k) as [a|] eqn:Hm.
  - apply map_of_lookup in Hm as [Hin Hk]; [|done]. apply (do_heads _ _ _ _ _ Hd) in Hin as (k' & l & Hb).
    rewrite <- Hk, (Hkey _ _ _ Hb), Hb. done.
  - destruct (b !! k) as [l|] eqn:Hb; [|done]. destruct (do_bucket _ _ _ _ _ Hd k l Hb) as (a & l' & -> & _).
    exfalso. rewrite (proj2 (map_of_lookup _ _ k a Ha)) in Hm; [done|]. split; [|by eapply Hkey].
    apply (do_heads _ _ _ _ _ Hd). by exists k, l'.
Qed.

Lemma pnc_lookup_spec s T B F own L d q len nm :
  cache_ok s T B F own L -> is_Some (pc_entries s !! d) -> 0 <= len -> bytes (pc_mem s) q (Z.to_nat len) = nm -> good_name nm ->
  returns (pnc_lookup_section sentinel (Ref d) q len s) (fun w =>
    (w = NULL /\ forall a, ~ child s B d nm a) \/ (exists a, w = Ref a /\ child s B d nm a)).
Proof.
  intros Hok [e He] Hl Hq Hg. destruct (proj2 (co_dom _ _ _ _ _ _ Hok d)) as [t Ht]; [by eexists|].
  destruct (dir_tree _ _ _ _ _ _ _ _ _ Hok He Ht) as [Htree _]. pose proof (co_dir _ _ _ _ _ _ Hok d t Ht) as Hd.
  unfold pnc_lookup_section. cbn [entry]. rewrite He. cbn [of_option mbind outcome_bind].
  change sentinel with (sent (home_of T d)). rewrite pathn_hash_bytes, Hq, (tree_find_spec _ _ _ _ Htree).
  cbn [mbind outcome_bind tree_view rb_keys]. rewrite (tree_bucket _ _ _ _ _ (hash_of nm) Hd).
  destruct (B d !! hash_of nm) as [l|] eqn:Hb.
  2: { left. split; [done|]. intros a (l & e' & Hb' & _). congruence. }
  destruct (do_bucket _ _ _ _ _ Hd _ _ Hb) as (a & l' & -> & Hdll). cbn [mbind option_bind head from_option nonnull].
  eapply returns_mono; [eapply (lookup_bucket_spec _ s _ _ _ _ _ _ Hl Hq Hg (proj1 Hdll)); [done|pose proof (bucket_size _ _ _ Hdll); lia|]|].
  - intros b eb _ Heb. apply (eo_len _ _ _ _ (co_entry _ _ _ _ _ _ Hok b eb Heb)).
  - intros r [[-> Hno]|(b & eb & -> & Hin & Heb & Hnm)]; [left|right].
    + split; [done|]. intros b (l & eb & Hb' & Hin & Heb & Hnm). rewrite Hb in Hb'. injection Hb' as <-. by eapply Hno.
    + exists b. split; [done|]. by exists (a :: l'), eb.
Qed.

End Spec.
End PncSpec.
