(* ===== verification/PncTheorems.v ===== *)
(** * The path name cache refines a map from directory and name to entry

    [pnc_rep s M F own L]: the cache [s] stands for the map [M].  Looking a
    section up reads [M]; adding one extends it by exactly one pair, whether
    the hash of the name is new to the directory or collides with others. *)

From stdpp Require Import gmap sorting functions.
From AAC_tactics Require Import AAC Instances.
From S2P Require Import Prelude Dll Mem CString FrameHdr Blocks FrameAlloc BuddyRep BuddyProof PageIface Slab SlabRep SlabProof HeapSpec HeapFrame.
From S2P Require Import BuddyTheorems HeapTheorems RbTree RbRep RbSpec RbOps RbTheorems Pathn Pnc PncSpec.

Module PncTheorems.
Import Mem CString FrameHdr Blocks FrameAlloc PageIface Slab SlabRep SlabProof HeapSpec HeapFrame RbTree RbRep RbSpec RbOps RbTheorems Pathn Pnc PncSpec Instances.Lists.

(** ** Directories whose entries are not touched *)

(** What a directory knows of an entry in one of its buckets. *)
Record alike (m m' : mem) (e e' : pnc_entry) : Prop := {
  al_key : pe_key e' = pe_key e;
  al_parent : pe_parent e' = pe_parent e;
  al_name : name_of m' e' = name_of m e
}.

Lemma asc_ext K K' l : (forall d, d ∈ l -> K' !! d = K !! d) -> asc K l -> asc K' l.
Proof.
  intros Hk [Hs Hd]. split; [|intros d Hin; rewrite Hk; auto]. clear Hd.
  induction Hs as [|d l Hs IH Hf]; constructor; [apply IH; intros x Hx; apply Hk; by right|].
  rewrite Forall_forall in Hf |- *. intros x Hx. unfold key. rewrite !Hk by (by constructor). by apply Hf.
Qed.

Lemma head_member N m d t b a : dir_ok N m d t b -> a ∈ elems t -> exists k l, b !! k = Some l /\ a ∈ l.
Proof. intros Hd (k & l & Hb)%(do_heads _ _ _ _ _ Hd). exists k, (a :: l). split; [done|left]. Qed.

(** The bucket [k] of a directory may have been relinked into [l']; the
    others are as they were. *)
Lemma dir_ok_change N N' m m' d t b k l' :
  dir_ok N m d t b ->
  (forall k' l a e, b !! k' = Some l -> a ∈ l -> N !! a = Some e -> exists e', N' !! a = Some e' /\ alike m m' e e') ->
  (forall k' l, b !! k' = Some l -> k' <> k -> forall a, a ∈ l -> Dll.links N' a = Dll.links N a) ->
  (forall a l, b !! k = Some (a :: l) -> head l' = Some a) -> (is_Some (b !! k)) ->
  Dll.dll N' (from_option Ref NULL (head l')) l' ->
  (forall a, a ∈ l' -> exists e, N' !! a = Some e /\ pe_key e = k /\ pe_parent e = Ref d) ->
  (forall a a' e e', a ∈ l' -> a' ∈ l' -> N' !! a = Some e -> N' !! a' = Some e' -> name_of m' e = name_of m' e' -> a = a') ->
  dir_ok N' m' d t (<[k := l']> b).
Proof.
  intros Hd Hal Hli Hhd [l0 Hl0] Hdll Hmem Hnm.
  destruct (do_bucket _ _ _ _ _ Hd k l0 Hl0) as (a0 & l1 & -> & _). pose proof (Hhd _ _ Hl0) as Hh0.
  destruct l' as [|x l2]; [done|]. injection Hh0 as ->. simpl in Hdll.
  assert (forall k' l a, b !! k' = Some l -> a ∈ l -> exists e e', N !! a = Some e /\ N' !! a = Some e' /\ alike m m' e e' /\ pe_key e = k' /\ pe_parent e = Ref d) as Hmb.
  { intros k' l a Hb Hin. destruct (do_member _ _ _ _ _ Hd k' l a Hb Hin) as (e & He & Hk & Hp).
    destruct (Hal _ _ _ _ Hb Hin He) as (e' & He' & Hal'). by exists e, e'. }
  split; try apply Hd.
  - eapply asc_ext; [|apply Hd]. intros a Hin. destruct (head_member _ _ _ _ _ _ Hd Hin) as (k' & l & Hb & Ha).
    destruct (Hmb _ _ _ Hb Ha) as (e & e' & He & He' & [Hk _ _] & _). rewrite !lookup_fmap, He, He'. simpl. by rewrite Hk.
  - intros a. rewrite (do_heads _ _ _ _ _ Hd). split; intros (k' & l & Hb).
    + destruct (decide (k' = k)) as [->|]; [|exists k', l; by rewrite lookup_insert_ne].
      exists k, l2. rewrite lookup_insert_eq. rewrite Hl0 in Hb. by injection Hb as <- <-.
    + destruct (decide (k' = k)) as [->|]; [|exists k', l; by rewrite lookup_insert_ne in Hb].
      rewrite lookup_insert_eq in Hb. injection Hb as <- <-. by exists k, l1.
  - intros k' l Hb. destruct (decide (k' = k)) as [->|Hne].
    + rewrite lookup_insert_eq in Hb. injection Hb as <-. by exists a0, l2.
    + rewrite lookup_insert_ne in Hb by done. destruct (do_bucket _ _ _ _ _ Hd k' l Hb) as (a & l'' & -> & Hdl).
      exists a, l''. split; [done|]. eapply Dll.dll_links; [done|]. by eapply Hli.
  - intros k' l a Hb Hin. destruct (decide (k' = k)) as [->|Hne].
    + rewrite lookup_insert_eq in Hb. injection Hb as <-. by apply Hmem.
    + rewrite lookup_insert_ne in Hb by done. destruct (Hmb _ _ _ Hb Hin) as (e & e' & _ & He' & [Hk Hp _] & <- & <-). by exists e'.
  - intros k' l a a' e e' Hb Hin Hin' He He' Hn. destruct (decide (k' = k)) as [->|Hne].
    + rewrite lookup_insert_eq in Hb. injection Hb as <-. by eapply Hnm.
    + rewrite lookup_insert_ne in Hb by done.
      destruct (Hmb _ _ _ Hb Hin) as (f & f' & Hf & Hf' & [_ _ Hfn] & _), (Hmb _ _ _ Hb Hin') as (g & g' & Hg & Hg' & [_ _ Hgn] & _).
      apply (do_names _ _ _ _ _ Hd k' l a a' f g); try done. simplify_eq. congruence.
Qed.

(** No bucket is touched. *)
Lemma dir_ok_ext N N' m m' d t b :
  dir_ok N m d t b ->
  (forall k' l a e, b !! k' = Some l -> a ∈ l -> N !! a = Some e ->
    exists e', N' !! a = Some e' /\ alike m m' e e' /\ Dll.links N' a = Dll.links N a) ->
  dir_ok N' m' d t b.
Proof.
  intros Hd Hal.
  assert (forall k' l a, b !! k' = Some l -> a ∈ l -> exists e e', N !! a = Some e /\ N' !! a = Some e' /\ alike m m' e e' /\
    Dll.links N' a = Dll.links N a /\ pe_key e = k' /\ pe_parent e = Ref d) as Hmb.
  { intros k' l a Hb Hin. destruct (do_member _ _ _ _ _ Hd k' l a Hb Hin) as (e & He & Hk & Hp).
    destruct (Hal _ _ _ _ Hb Hin He) as (e' & He' & Hal' & ?). by exists e, e'. }
  split; try apply Hd.
  - eapply asc_ext; [|apply Hd]. intros a Hin. destruct (head_member _ _ _ _ _ _ Hd Hin) as (k' & l & Hb & Ha).
    destruct (Hmb _ _ _ Hb Ha) as (e & e' & He & He' & [Hk _ _] & _). rewrite !lookup_fmap, He, He'. simpl. by rewrite Hk.
  - intros k l Hb. destruct (do_bucket _ _ _ _ _ Hd k l Hb) as (a & l' & -> & Hdl). exists a, l'. split; [done|].
    eapply Dll.dll_links; [done|]. intros x Hx. by destruct (Hmb _ _ _ Hb Hx) as (? & ? & _ & _ & _ & ? & _).
  - intros k l a Hb Hin. destruct (Hmb _ _ _ Hb Hin) as (e & e' & _ & He' & [Hk Hp _] & _ & <- & <-). by exists e'.
  - intros k l a a' e e' Hb Hin Hin' He He' Hn.
    destruct (Hmb _ _ _ Hb Hin) as (f & f' & Hf & Hf' & [_ _ Hfn] & _), (Hmb _ _ _ Hb Hin') as (g & g' & Hg & Hg' & [_ _ Hgn] & _).
    apply (do_names _ _ _ _ _ Hd k l a a' f g); try done. simplify_eq. congruence.
Qed.

(** A bucket of one. *)
Lemma dir_ok_new N m d t t' b a e :
  dir_ok N m d t b -> b !! pe_key e = None -> N !! a = Some e -> pe_parent e = Ref d -> pe_next e = NULL -> pe_prev e = NULL ->
  (exists n, bal t' n) -> color t' = RB_BLACK -> asc (pe_key <$> N) (elems t') -> elems t' ≡ₚ a :: elems t ->
  dir_ok N m d t' (<[pe_key e := [a]]> b).
Proof.
  intros Hd Hb He Hp Hn Hv Hbal Hc Ha Hel. split; [done|done|done|..].
  - intros x. rewrite Hel, elem_of_cons, (do_heads _ _ _ _ _ Hd). split.
    + intros [->|(k & l & Hk)]; [exists (pe_key e), []; by rewrite lookup_insert_eq|].
      exists k, l. rewrite lookup_insert_ne; [done|]. intros <-. congruence.
    + intros (k & l & Hk). destruct (decide (k = pe_key e)) as [->|Hne].
      * rewrite lookup_insert_eq in Hk. injection Hk as <- _. by left.
      * rewrite lookup_insert_ne in Hk by done. right. by exists k, l.
  - intros k l [[<- <-]|[Hne Hk]]%lookup_insert_Some; [|by eapply (do_bucket _ _ _ _ _ Hd)]. exists a, []. split; [done|].
    split; [|apply NoDup_singleton]. simpl. split; [done|]. by exists e.
  - intros k l x [[<- <-]|[Hne Hk]]%lookup_insert_Some Hin; [|by eapply (do_member _ _ _ _ _ Hd)].
    apply list_elem_of_singleton in Hin as ->. by exists e.
  - intros k l x x' f f' [[<- <-]|[Hne Hk]]%lookup_insert_Some Hx Hx' Hf Hf' Hnm; [|by eapply (do_names _ _ _ _ _ Hd)].
    apply list_elem_of_singleton in Hx as ->. by apply list_elem_of_singleton in Hx' as ->.
Qed.

(** ** Linking after the first of a bucket *)

Lemma payload_alike m e e' : Dll.payload e' = Dll.payload e -> alike m m e e' /\ pe_root e' = pe_root e /\
  pe_vnode e' = pe_vnode e /\ pe_name_len e' = pe_name_len e /\ pe_section e' = pe_section e.
Proof. destruct e, e'. unfold Dll.payload. simpl. intros [= -> -> -> -> -> ->]. by split_and!. Qed.

Lemma link_after_spec s a l ent :
  Dll.dll (pc_entries s) (Ref a) (a :: l) -> is_Some (pc_entries s !! ent) -> ent ∉ a :: l ->
  returns (link_after (Ref a) (Ref ent) s) (fun '(w, s') => w = Ref ent /\ exists N, s' = set_entries N s /\
    Dll.dll N (Ref a) (a :: ent :: l) /\ Dll.relinked (pc_entries s) N /\ forall x, x ∉ a :: ent :: l -> N !! x = pc_entries s !! x).
Proof.
  intros [(_ & ea & Hea & Hv & Hl) Hnd] [e He] Hni. apply not_elem_of_cons in Hni as [Hne Hni].
  pose proof Hnd as [Hal _]%NoDup_cons. unfold link_after. cbn [entry upd_entry]. rewrite Hea, He. cbn [of_option mbind outcome_bind pc_entries set_entries].
  rewrite lookup_insert_eq. cbn [of_option mbind outcome_bind pc_entries set_entries]. rewrite insert_insert_eq.
  rewrite lookup_insert_ne, Hea by done. cbn [of_option mbind outcome_bind pc_entries set_entries].
  set (e1 := set_pe_next (pe_next ea) (set_pe_prev (Ref a) e)). set (a1 := set_pe_next (Ref ent) ea).
  set (N2 := <[a := a1]> (<[ent := e1]> (pc_entries s))).
  assert (Dll.relinked (pc_entries s) N2) as Hr2.
  { etrans; [eapply (Dll.relinked_insert _ ent e e1 He); by destruct e|].
    eapply (Dll.relinked_insert _ a ea a1); [by rewrite lookup_insert_ne|by destruct ea]. }
  assert (NoDup (a :: ent :: l)) as Hnd'.
  { apply NoDup_cons in Hnd as [? ?]. rewrite !NoDup_cons, not_elem_of_cons. by split_and!. }
  assert (Dll.dseg N2 (Ref a) (pe_next ea) NULL l) as Hl2.
  { do 2 (apply Dll.dseg_insert_ne; [done|]). exact Hl. }
  assert (exists N, (if nonnull (pe_next ea) then upd_entry (pe_next ea) (set_pe_prev (Ref ent)) (set_entries N2 s) else Ret (set_entries N2 s)) =
    Ret (set_entries N s) /\ Dll.dseg N (Ref ent) (pe_next ea) NULL l /\ Dll.relinked N2 N /\ forall x, x ∉ l -> N !! x = N2 !! x) as (N & HN & HdN & HrN & HfN).
  { destruct l as [|b l]; [simpl in Hl2; rewrite Hl2; by exists N2|]. pose proof Hl2 as (Hb & eb & Heb & _ & _). rewrite Hb in Hl2 |- *.
    cbn [nonnull upd_entry set_entries pc_entries]. rewrite Heb. cbn [of_option mbind outcome_bind].
    exists (<[b := set_pe_prev (Ref ent) eb]> N2). split_and!; [done|..].
    - apply NoDup_cons in Hnd as [_ Hnd]. exact (Dll.dseg_set_start N2 (Ref a) (Ref ent) NULL l b eb Hl2 Hnd Heb).
    - eapply Dll.relinked_insert; [done|by destruct eb].
    - intros x Hx%not_elem_of_cons. by rewrite lookup_insert_ne by naive_solver. }
  unfold set_entries in HN |- *. cbn [pc_nodes pc_heap] in HN |- *. rewrite HN. apply returns_ret. split; [done|]. exists N. split_and!; [done|..].
  - split; [|done]. cbn [Dll.dseg]. split; [done|]. exists a1. rewrite HfN by done. unfold N2 at 1. rewrite lookup_insert_eq.
    split_and!; [done|done|done|]. exists e1. rewrite HfN by done. unfold N2. rewrite lookup_insert_ne, lookup_insert_eq by done. done.
  - by etrans.
  - intros x Hx. rewrite !not_elem_of_cons in Hx. rewrite HfN by naive_solver. unfold N2. by rewrite !lookup_insert_ne by naive_solver.
Qed.

Section Cache.
Context {PA : PageAllocator} (sentinel : Z).
Abbreviation cache_ok := (cache_ok sentinel).

(** ** A new entry, in no bucket yet *)

Lemma new_pnc_entry_spec s F own L n vn par q len nm hash :
  heap_abs (pc_heap s) F own L -> spare F (S (S n)) -> 0 <= len -> readable (pc_heap s) L q len ->
  bytes (pc_mem s) q (Z.to_nat len) = nm -> good_name nm ->
  returns (new_pnc_entry sentinel vn par q len hash s) (fun '(w, s') => exists ent sec F' own' L', w = Ref ent /\
    pc_entries s' = <[ent := mk_pnc hash (RB_NIL sentinel) par NULL NULL vn len sec]> (pc_entries s) /\
    pc_nodes s' = pc_nodes s /\ heap_abs (pc_heap s') F' own' L' /\ later (pc_heap s) (pc_heap s') L L' /\ spare F' n /\
    L !! ent = None /\ is_Some (L' !! ent) /\ (exists k, L' !! sec = Some k /\ len <= k) /\
    bytes (pc_mem s') sec (Z.to_nat len) = nm).
Proof.
  intros Ha Hsp Hl Hr Hq [Hc Hne Hs]. pose proof (bytes_length (pc_mem s) q (Z.to_nat len)) as Hlen. rewrite Hq in Hlen.
  destruct nm as [|c nm]; [done|]. simpl in Hlen. unfold new_pnc_entry.
  mcall (kmalloc_later (pc_heap s) F own L (S n) SIZEOF_PNC_ENTRY Ha ltac:(done) Hsp).
  intros [ent h1] (F1 & own1 & L1 & HL1 & Ha1 & Hn1 & _ & Hla1 & Hsp1).
  mcall (kmalloc_later h1 F1 own1 L1 n len Ha1 ltac:(simpl length in Hs; lia) Hsp1).
  intros [sec h2] (F2 & own2 & L2 & HL2 & Ha2 & Hn2 & Hcap & Hla2 & Hsp2). subst L2.
  pose proof (later_trans _ _ _ _ _ _ Hla1 Hla2) as Hla.
  assert (bytes (h_mem h2) q (Z.to_nat len) = c :: nm) as Hq2.
  { rewrite <- Hq. apply bytes_ext. intros x Hx. apply (later_rd _ _ _ _ q len x Hla Hr). lia. }
  destruct (strncpy_name sec q len (h_mem h2) Hl) as (m & -> & Hm & Hf); [by rewrite Hq2| |].
  { eapply readable_apart; [done|done|apply (readable_done _ _ _ _ _ (la_done _ _ _ _ Hla2)), (readable_later _ _ _ _ _ _ Hla1 Hr)|lia..]. }
  destruct (write_later h2 F2 own2 L1 sec (capacity len) m Ha2 Hn2) as [Ha3 Hla3]; [intros x Hx; apply Hf; lia|].
  apply returns_ret. exists ent, sec, F2, own2, (<[sec := capacity len]> L1). cbn [pc_entries pc_nodes pc_heap pc_mem].
  split_and!; try done.
  - eapply later_trans; [exact Hla1|by eapply later_mid].
  - rewrite lookup_insert_is_Some'. right. rewrite HL1, lookup_insert_eq. by eexists.
  - exists (capacity len). by rewrite lookup_insert_eq.
  - cbn [pc_mem pc_heap h_mem set_mem]. by rewrite Hm.
Qed.

Lemma name_later h h' L L' a e : later h h' L L' -> entry_ok (h_mem h) L a e -> name_of (h_mem h') e = name_of (h_mem h) e.
Proof.
  intros Hla [Hl _ _ (k & Hk & Hlk)]. apply bytes_ext. intros x Hx.
  apply (later_rd _ _ _ _ (pe_section e) (pe_name_len e) x Hla); [by eapply readable_live|lia].
Qed.

Lemma entry_ok_later h h' L L' a e : later h h' L L' -> entry_ok (h_mem h) L a e -> entry_ok (h_mem h') L' a e.
Proof.
  intros Hla He. pose proof (name_later _ _ _ _ _ _ Hla He) as Hn. destruct He as [Hl Hg Hv (k & Hs & Hlk)].
  pose proof (la_sub _ _ _ _ Hla) as Hsub. split; rewrite ?Hn; try done.
  - destruct Hv as [x Hx]. exists x. by eapply lookup_weaken.
  - exists k. split; [by eapply lookup_weaken|done].
Qed.

Lemma empty_dir N m d : dir_ok N m d E ∅.
Proof.
  split; [by exists O|done|split; [constructor|intros x Hx; by apply not_elem_of_nil in Hx]|..].
  - intros a. split; [intros Ha; by apply not_elem_of_nil in Ha|]. intros (k & l & Hk). by rewrite lookup_empty in Hk.
  - intros k l Hk. by rewrite lookup_empty in Hk.
  - intros k l a Hk. by rewrite lookup_empty in Hk.
  - intros k l a a' e e' Hk. by rewrite lookup_empty in Hk.
Qed.

Lemma fresh_entry s T B F own L a : cache_ok s T B F own L -> L !! a = None -> pc_entries s !! a = None.
Proof.
  intros Hok Hn. destruct (pc_entries s !! a) as [e|] eqn:He; [|done].
  destruct (eo_live _ _ _ _ (co_entry _ _ _ _ _ _ _ Hok _ _ He)). congruence.
Qed.

Lemma cache_fresh s s' T B F own L F' own' L' ent e :
  cache_ok s T B F own L -> heap_abs (pc_heap s') F' own' L' -> later (pc_heap s) (pc_heap s') L L' ->
  pc_entries s' = <[ent := e]> (pc_entries s) -> pc_nodes s' = pc_nodes s -> L !! ent = None ->
  pe_root e = RB_NIL sentinel -> entry_ok (pc_mem s') L' ent e ->
  cache_ok s' (<[ent := E]> T) (<[ent := ∅]> B) F' own' L'.
Proof.
  intros Hok Ha Hla HN Hnd Hfr Hrt He.
  assert (pc_entries s !! ent = None) as HNn by (by eapply fresh_entry).
  assert (T !! ent = None) as HTn.
  { destruct (T !! ent) eqn:Ht; [|done]. destruct (proj1 (co_dom _ _ _ _ _ _ _ Hok ent)) as [? ?]; [by eexists|congruence]. }
  assert (all_cells sentinel (<[ent := E]> T) ≡ₚ all_cells sentinel T) as Hcells by (rewrite all_cells_insert, delete_id by done; done).
  split; try done.
  - destruct (co_nodes _ _ _ _ _ _ _ Hok) as [ps Hh]. exists ps. rewrite Hnd. eapply holds_perm; [|exact Hh]. by rewrite Hcells.
  - intros d. rewrite HN, !lookup_insert_is_Some', (co_dom _ _ _ _ _ _ _ Hok d). done.
  - intros d e0 t. rewrite HN. destruct (decide (d = ent)) as [->|Hne].
    + rewrite !lookup_insert_eq. by intros [= <-] [= <-].
    + rewrite !lookup_insert_ne by done. apply (co_root _ _ _ _ _ _ _ Hok).
  - intros d t. rewrite HN. destruct (decide (d = ent)) as [->|Hne].
    + rewrite lookup_insert_eq, fn_lookup_insert. intros [= <-]. apply empty_dir.
    + rewrite lookup_insert_ne, fn_lookup_insert_ne by done. intros Ht.
      eapply dir_ok_ext; [by apply (co_dir _ _ _ _ _ _ _ Hok)|]. intros k l a e0 _ _ He0.
      assert (a <> ent) by congruence. exists e0. unfold Dll.links. rewrite lookup_insert_ne by done.
      split_and!; [done|split; try done|done]. eapply name_later; [done|by apply (co_entry _ _ _ _ _ _ _ Hok)].
  - intros a e0. rewrite HN. intros [[<- <-]|[Hne He0]]%lookup_insert_Some; [done|].
    eapply entry_ok_later; [done|by apply (co_entry _ _ _ _ _ _ _ Hok)].
  - intros a. rewrite Hcells. intros Hin. destruct (co_live _ _ _ _ _ _ _ Hok a Hin) as [x Hx]. exists x.
    eapply lookup_weaken; [done|apply (la_sub _ _ _ _ Hla)].
  - rewrite (hd_off _ _ (la_done _ _ _ _ Hla)), (hd_count _ _ (la_done _ _ _ _ Hla)). apply (co_sentinel _ _ _ _ _ _ _ Hok).
Qed.

(** Other allocations leave the cache as it is. *)
Lemma cache_later s T B F own L h F' own' L' :
  cache_ok s T B F own L -> heap_abs h F' own' L' -> later (pc_heap s) h L L' -> cache_ok (set_pc_heap h s) T B F' own' L'.
Proof.
  intros Hok Ha Hla. split; try apply Hok; try done; cbn [set_pc_heap pc_entries pc_heap].
  - intros d t Ht. eapply dir_ok_ext; [by apply (co_dir _ _ _ _ _ _ _ Hok)|]. intros k l a e _ _ He. exists e.
    split_and!; [done|split; try done|done]. eapply name_later; [done|by apply (co_entry _ _ _ _ _ _ _ Hok)].
  - intros a e He. eapply entry_ok_later; [done|by apply (co_entry _ _ _ _ _ _ _ Hok)].
  - intros a Hin. destruct (co_live _ _ _ _ _ _ _ Hok a Hin) as [x Hx]. exists x. eapply lookup_weaken; [done|apply Hla].
  - rewrite (hd_off _ _ (la_done _ _ _ _ Hla)), (hd_count _ _ (la_done _ _ _ _ Hla)). apply (co_sentinel _ _ _ _ _ _ _ Hok).
Qed.

(** ** Into the tree, or into a bucket *)

(** Giving an entry another root changes nothing for the directory it is in. *)
Lemma dir_ok_root N m d t b x e r :
  N !! x = Some e -> dir_ok N m d t b -> dir_ok (<[x := set_pe_root r e]> N) m d t b.
Proof.
  intros Hx Hd. eapply dir_ok_ext; [done|]. intros k l a e0 _ _ He0. unfold Dll.links. destruct (decide (a = x)) as [->|Hne].
  - rewrite lookup_insert_eq. exists (set_pe_root r e). rewrite Hx. simplify_eq. by split_and!.
  - rewrite lookup_insert_ne by done. exists e0. by split_and!.
Qed.

Lemma cache_hung s T B F own L F' own' L' d ed t r t' ent e :
  cache_ok s T B F own L -> pc_entries s !! d = Some ed -> T !! d = Some t -> pc_entries s !! ent = Some e -> d <> ent ->
  pe_parent e = Ref d -> pe_next e = NULL -> pe_prev e = NULL -> B d !! pe_key e = None ->
  tree_ok (home_of sentinel T d) r t' -> heap_nodes (home_of sentinel T d) r t' F' own' L' ->
  elems t' ≡ₚ ent :: elems t -> rb_keys r = pe_key <$> pc_entries s -> later (pc_heap s) (rb_heap r) L L' ->
  cache_ok (mk_pncs (<[d := set_pe_root (rb_root r) ed]> (pc_entries s)) (rb_nodes r) (rb_heap r))
    (<[d := t']> T) (<[d := <[pe_key e := [ent]]> (B d)]> B) F' own' L'.
Proof.
  intros Hok Hed Ht He Hne Hp Hn Hv Hb [[ps [Hz Hroot]] Hbal Hc Hasc] [Habs Hlive Hsent] Hel Hk Hla.
  assert (all_cells sentinel (<[d := t']> T) ≡ₚ tree_cells sentinel t' ++ all_cells sentinel (delete d T)) as Hcells by apply all_cells_insert.
  split; try done; cbn [pc_entries pc_nodes pc_heap].
  - exists ps. eapply holds_perm; [|exact Hz]. rewrite Hcells. unfold leaf. cbn [home_of sent others pctx cellsc].
    rewrite app_nil_r. change (cells (home_of sentinel T d) NULL t') with (tree_cells sentinel t'). aac_reflexivity.
  - intros x. rewrite !lookup_insert_is_Some', (co_dom _ _ _ _ _ _ _ Hok x). done.
  - intros x e0 t0. destruct (decide (x = d)) as [->|Hx].
    + rewrite !lookup_insert_eq. intros [= <-] [= <-]. cbn [set_pe_root pe_root]. rewrite Hroot. by destruct t'.
    + rewrite !lookup_insert_ne by done. apply (co_root _ _ _ _ _ _ _ Hok).
  - assert (forall x t0, T !! x = Some t0 -> dir_ok (pc_entries s) (h_mem (rb_heap r)) x t0 (B x)) as Hdir.
    { intros x t0 Hx. eapply dir_ok_ext; [by apply (co_dir _ _ _ _ _ _ _ Hok)|]. intros k l a e0 _ _ He0. exists e0.
      split_and!; [done|split; try done|done]. eapply name_later; [done|by apply (co_entry _ _ _ _ _ _ _ Hok)]. }
    intros x t0. destruct (decide (x = d)) as [->|Hx].
    + rewrite lookup_insert_eq, fn_lookup_insert. intros [= <-]. apply dir_ok_root; [done|].
      eapply dir_ok_new; try done; [by apply Hdir|by rewrite <- Hk].
    + rewrite lookup_insert_ne, fn_lookup_insert_ne by done. intros Hx0. apply dir_ok_root; [done|]. by apply Hdir.
  - intros a e0 Ha. assert (exists e1, pc_entries s !! a = Some e1 /\ (e0 = e1 \/ e0 = set_pe_root (rb_root r) e1)) as (e1 & He1 & Hor).
    { apply lookup_insert_Some in Ha as [[<- <-]|[Hx Ha]]; [exists ed|exists e0]; auto. }
    pose proof (entry_ok_later _ _ _ _ _ _ Hla (co_entry _ _ _ _ _ _ _ Hok _ _ He1)) as [? ? ? ?].
    by destruct Hor as [->| ->].
  - intros a. rewrite Hcells, fmap_app. unfold tree_cells. rewrite cells_addrs. apply Hlive.
Qed.

Lemma hang_entry s T B F own L n d ed t ent e :
  cache_ok s T B F own L -> pc_entries s !! d = Some ed -> T !! d = Some t -> pc_entries s !! ent = Some e -> d <> ent ->
  pe_parent e = Ref d -> pe_next e = NULL -> pe_prev e = NULL -> B d !! pe_key e = None -> spare F (S n) ->
  returns (with_tree (Ref d) (tree_insert sentinel (Ref ent)) s) (fun '(w, s') => w = NULL /\ exists t' r F' own' L',
    cache_ok s' (<[d := t']> T) (<[d := <[pe_key e := [ent]]> (B d)]> B) F' own' L' /\
    later (pc_heap s) (pc_heap s') L L' /\ spare F' n /\ pc_entries s' = <[d := set_pe_root r ed]> (pc_entries s)).
Proof.
  intros Hok Hed Ht He Hne Hp Hn Hv Hb Hsp. destruct (dir_tree _ _ _ _ _ _ _ _ _ _ Hok Hed Ht) as [Htree Hnodes].
  pose proof (co_dir _ _ _ _ _ _ _ Hok d t Ht) as Hdir.
  unfold with_tree. cbn [entry]. rewrite Hed. cbn [of_option mbind outcome_bind].
  change (tree_insert sentinel) with (tree_insert (sent (home_of sentinel T d))).
  assert (0 < SIZEOF_NODE <= KMALLOC_MAX_CACHE_SIZE) as Hsz by done.
  mcall (tree_insert_spec (home_of sentinel T d) (tree_view (pe_root ed) s) t F own L ent (pe_key e) Htree Hnodes);
    [cbn [tree_view rb_keys]; by rewrite lookup_fmap, He|by eapply spare_serves|].
  intros [w r] Hr. cbn [tree_view rb_keys] in Hr. rewrite (tree_bucket _ _ _ _ _ _ Hdir), Hb in Hr.
  destruct Hr as [(? & [=] & _)|(_ & -> & t' & a & F0 & own0 & Hok' & Hn' & Hfr & Hel & Hkeys & Hdone & Hkm)].
  destruct (returns_inv _ _ (kmalloc_later _ _ _ _ n _ (co_heap _ _ _ _ _ _ _ Hok) Hsz Hsp)) as ([a' h'] & Heq & F' & own' & L' & -> & Ha' & _ & _ & Hla & Hsp').
  cbn [tree_view rb_heap] in Hkm. rewrite Hkm in Heq. injection Heq as <- <-.
  cbn [upd_entry pc_entries]. rewrite Hed. cbn [of_option mbind outcome_bind]. apply returns_ret. split; [done|].
  exists t', (rb_root r), F', own', (<[a := capacity SIZEOF_NODE]> L). split_and!; try done.
  eapply cache_hung; try done. split; [done|apply Hn'..].
Qed.

Lemma cache_linked s T B F own L d t a l ent e N :
  cache_ok s T B F own L -> T !! d = Some t -> B d !! pe_key e = Some (a :: l) -> pc_entries s !! ent = Some e ->
  pe_parent e = Ref d -> (forall x f, x ∈ a :: l -> pc_entries s !! x = Some f -> name_of (pc_mem s) f <> name_of (pc_mem s) e) ->
  Dll.dll N (Ref a) (a :: ent :: l) -> Dll.relinked (pc_entries s) N ->
  (forall x, x ∉ a :: ent :: l -> N !! x = pc_entries s !! x) ->
  cache_ok (set_entries N s) T (<[d := <[pe_key e := a :: ent :: l]> (B d)]> B) F own L.
Proof.
  intros Hok Ht Hb He Hp Hnm Hdll Hrel Hfr. pose proof (co_dir _ _ _ _ _ _ _ Hok d t Ht) as Hdir.
  assert (forall z, z ∈ a :: ent :: l -> z = ent \/ z ∈ a :: l) as Hz.
  { intros z. rewrite !elem_of_cons. tauto. }
  assert (forall x f, pc_entries s !! x = Some f -> exists f', N !! x = Some f' /\ alike (pc_mem s) (pc_mem s) f f') as Hal.
  { intros x f Hx. destruct (Dll.relinked_lookup _ _ _ _ Hrel Hx) as (f' & Hf' & Hpay). exists f'.
    split; [done|]. by apply payload_alike. }
  assert (forall x f', N !! x = Some f' -> exists f, pc_entries s !! x = Some f /\ alike (pc_mem s) (pc_mem s) f f' /\
    pe_root f' = pe_root f /\ pe_name_len f' = pe_name_len f /\ pe_section f' = pe_section f) as Hla.
  { intros x f' Hx. symmetry in Hrel. destruct (Dll.relinked_lookup _ _ _ _ Hrel Hx) as (f & Hf & Hpay). exists f.
    split; [done|]. symmetry in Hpay. destruct (payload_alike (pc_mem s) f f' Hpay) as (? & ? & _ & ? & ?). done. }
  assert (forall x, x ∈ a :: ent :: l -> exists f, pc_entries s !! x = Some f /\ pe_key f = pe_key e /\ pe_parent f = Ref d) as Hmem.
  { intros x [->|Hx]%Hz; [by exists e|]. by apply (do_member _ _ _ _ _ Hdir _ _ x Hb). }
  split; try apply Hok; cbn [set_entries pc_entries].
  - intros x. rewrite (co_dom _ _ _ _ _ _ _ Hok x), <- !elem_of_dom. by rewrite (Dll.relinked_dom _ _ Hrel).
  - intros x f t0 Hx Ht0. destruct (Hla x f Hx) as (f0 & Hf0 & _ & -> & _). by apply (co_root _ _ _ _ _ _ _ Hok x).
  - change (pc_mem (set_entries N s)) with (pc_mem s). intros x t0 Ht0. destruct (decide (x = d)) as [->|Hne].
    + rewrite fn_lookup_insert. assert (t0 = t) as -> by congruence. eapply dir_ok_change; [done|intros k' l' y f _ _; apply Hal|..]; try done.
      * intros k' l' Hb' Hk y Hy. apply Dll.links_eq, Hfr. intros Hin. destruct (Hmem y Hin) as (f & Hf & Hkf & _).
        destruct (do_member _ _ _ _ _ Hdir _ _ y Hb' Hy) as (f' & Hf' & Hkf' & _). congruence.
      * intros y l' Hb'. rewrite Hb in Hb'. by injection Hb' as <- <-.
      * intros y Hy. destruct (Hmem y Hy) as (f & Hf & <- & <-). destruct (Hal y f Hf) as (f' & Hf' & [? ? _]). by exists f'.
      * intros y y' f f' Hy Hy' Hf Hf' Hn. destruct (Hla y f Hf) as (g & Hg & [_ _ Hgn] & _), (Hla y' f' Hf') as (g' & Hg' & [_ _ Hgn'] & _).
        assert (name_of (pc_mem s) g = name_of (pc_mem s) g') as Hgg by congruence.
        destruct (Hz y Hy) as [->|Hyl], (Hz y' Hy') as [->|Hyl']; [done|..].
        -- destruct (Hnm y' g' Hyl' Hg'). congruence.
        -- destruct (Hnm y g Hyl Hg). congruence.
        -- by apply (do_names _ _ _ _ _ Hdir _ _ y y' g g' Hb).
    + rewrite fn_lookup_insert_ne by done. eapply dir_ok_ext; [by apply (co_dir _ _ _ _ _ _ _ Hok)|].
      intros k' l' y f Hb' Hy Hf. destruct (Hal y f Hf) as (f' & Hf' & Half). exists f'. split_and!; [done|done|].
      apply Dll.links_eq, Hfr. intros Hin. destruct (Hmem y Hin) as (g & Hg & _ & Hpg).
      destruct (do_member _ _ _ _ _ (co_dir _ _ _ _ _ _ _ Hok x t0 Ht0) _ _ y Hb' Hy) as (g' & Hg' & _ & Hpg'). congruence.
  - intros x f Hx. destruct (Hla x f Hx) as (g & Hg & [_ _ Hn] & _ & Hl & Hs). change (pc_mem (set_entries N s)) with (pc_mem s).
    destruct (co_entry _ _ _ _ _ _ _ Hok x g Hg) as [? ? ? ?]. split; rewrite ?Hn, ?Hl, ?Hs; done.
Qed.

(** The hash is taken: the tree gives the first of the bucket and stays. *)
Lemma with_tree_dup s T B F own L n d ed t ent e a l :
  cache_ok s T B F own L -> pc_entries s !! d = Some ed -> T !! d = Some t -> pc_entries s !! ent = Some e ->
  B d !! pe_key e = Some (a :: l) -> spare F (S n) ->
  returns (with_tree (Ref d) (tree_insert sentinel (Ref ent)) s) (fun r => r = (Ref a, s)).
Proof.
  intros Hok Hed Ht He Hb Hsp. destruct (dir_tree _ _ _ _ _ _ _ _ _ _ Hok Hed Ht) as [Htree Hnodes].
  unfold with_tree. cbn [entry]. rewrite Hed. cbn [of_option mbind outcome_bind].
  change (tree_insert sentinel) with (tree_insert (sent (home_of sentinel T d))).
  assert (0 < SIZEOF_NODE <= KMALLOC_MAX_CACHE_SIZE) as Hsz by done.
  mcall (tree_insert_spec (home_of sentinel T d) (tree_view (pe_root ed) s) t F own L ent (pe_key e) Htree Hnodes);
    [cbn [tree_view rb_keys]; by rewrite lookup_fmap, He|by eapply spare_serves|].
  intros [w r] Hr. cbn [tree_view rb_keys] in Hr. rewrite (tree_bucket _ _ _ _ _ _ (co_dir _ _ _ _ _ _ _ Hok d t Ht)), Hb in Hr.
  destruct Hr as [(d' & [= <-] & -> & ->)|([=] & _)]. cbn [upd_entry pc_entries tree_view rb_nodes rb_heap rb_root]. rewrite Hed.
  cbn [of_option mbind outcome_bind]. apply returns_ret. f_equal. unfold set_entries. cbn [pc_nodes pc_heap].
  rewrite insert_id; [by destruct s|]. rewrite Hed. by destruct ed.
Qed.

(** ** The map *)

Lemma and_iff_compat_l' (P Q R : Prop) : (P -> Q <-> R) -> P /\ Q <-> P /\ R.
Proof. tauto. Qed.

Definition kids (T : gmap Z rbt) (B : Z -> gmap Z (list Z)) (s : pncs) (M : gmap (Z * list Z) Z) : Prop :=
  forall d nm a, M !! (d, nm) = Some a <-> is_Some (T !! d) /\ child s B d nm a.

Definition pnc_rep (s : pncs) (M : gmap (Z * list Z) Z) (F : gset Z) (own : gmap Z owner) (L : gmap Z Z) : Prop :=
  exists T B, cache_ok s T B F own L /\ kids T B s M.

Definition same_names (s s' : pncs) : Prop :=
  forall a e, pc_entries s !! a = Some e -> exists e', pc_entries s' !! a = Some e' /\ name_of (pc_mem s') e' = name_of (pc_mem s) e.

Lemma child_same s s' B B' d nm a :
  same_names s s' -> B' d = B d -> (forall k l x, B d !! k = Some l -> x ∈ l -> is_Some (pc_entries s !! x)) ->
  child s' B' d nm a <-> child s B d nm a.
Proof.
  intros Hs HB Hin. unfold child. rewrite HB. split; intros (l & e & Hb & Ha & He & Hn).
  - destruct (Hin _ _ _ Hb Ha) as [e0 He0]. destruct (Hs _ _ He0) as (e' & He' & Hn'). exists l, e0.
    split_and!; try done. congruence.
  - destruct (Hs _ _ He) as (e' & He' & Hn'). exists l, e'. split_and!; try done. congruence.
Qed.

Lemma cache_members s T B F own L d k l x :
  cache_ok s T B F own L -> is_Some (T !! d) -> B d !! k = Some l -> x ∈ l -> is_Some (pc_entries s !! x).
Proof.
  intros Hok [t Ht] Hb Hx. destruct (do_member _ _ _ _ _ (co_dir _ _ _ _ _ _ _ Hok d t Ht) k l x Hb Hx) as (e & He & _). by exists e.
Qed.

Lemma kids_fresh s s' T B F own L L' M ent e :
  cache_ok s T B F own L -> kids T B s M -> pc_entries s' = <[ent := e]> (pc_entries s) -> pc_entries s !! ent = None ->
  later (pc_heap s) (pc_heap s') L L' -> kids (<[ent := E]> T) (<[ent := ∅]> B) s' M.
Proof.
  intros Hok Hk HN HNn Hla d nm a. rewrite (Hk d nm a).
  assert (same_names s s') as Hsn.
  { intros x f Hx. exists f. rewrite HN, lookup_insert_ne by congruence. split; [done|].
    eapply name_later; [done|by apply (co_entry _ _ _ _ _ _ _ Hok)]. }
  destruct (decide (d = ent)) as [->|Hne].
  - rewrite lookup_insert_eq. split.
    + intros [Ht _]. apply (co_dom _ _ _ _ _ _ _ Hok) in Ht as [? ?]. congruence.
    + intros [_ (l & f & Hb & _)]. by rewrite fn_lookup_insert, lookup_empty in Hb.
  - rewrite lookup_insert_ne by done. split; intros [Ht Hc]; (split; [done|]).
    all: revert Hc; apply (child_same s s' B); [done|by rewrite fn_lookup_insert_ne|intros k l x; by eapply cache_members].
Qed.

Lemma kids_extend s s' T T' B F own L M d ent e l :
  cache_ok s T B F own L -> kids T B s M -> same_names s s' -> (forall x, is_Some (T' !! x) <-> is_Some (T !! x)) ->
  is_Some (T !! d) -> pc_entries s !! ent = Some e -> pe_key e = hash_of (name_of (pc_mem s) e) -> M !! (d, name_of (pc_mem s) e) = None ->
  (forall x, x ∈ l <-> x = ent \/ x ∈ default [] (B d !! pe_key e)) ->
  kids T' (<[d := <[pe_key e := l]> (B d)]> B) s' (<[(d, name_of (pc_mem s) e) := ent]> M).
Proof.
  intros Hok Hk Hsn HT Htd He Hkey HM Hl d' nm a. set (nm0 := name_of (pc_mem s) e) in *. rewrite HT.
  fold nm0 in Hkey.
  destruct (Hsn ent e He) as (e' & He' & Hn'). fold nm0 in Hn'.
  assert (d' <> d \/ (d' = d /\ hash_of nm <> pe_key e) \/ (d' = d /\ hash_of nm = pe_key e)) as [Hd|[[-> Hh]|[-> Hh]]] by
    (destruct (decide (d' = d)), (decide (hash_of nm = pe_key e)); tauto).
  - rewrite lookup_insert_ne by congruence. rewrite (Hk d' nm a). apply and_iff_compat_l'. intros Ht. symmetry.
    apply child_same; [done|by rewrite fn_lookup_insert_ne|intros k l0 x; by eapply cache_members].
  - rewrite lookup_insert_ne by congruence. rewrite (Hk d nm a). apply and_iff_compat_l'. intros _. unfold child.
    rewrite fn_lookup_insert, lookup_insert_ne by done. symmetry. apply (child_same s s' B B); [done|done|intros k l0 x; by eapply cache_members].
  - assert (child s' (<[d := <[pe_key e := l]> (B d)]> B) d nm a <-> (a = ent /\ nm = nm0) \/ child s B d nm a) as Hc.
    { unfold child. rewrite fn_lookup_insert, Hh, lookup_insert_eq. split.
      - intros (l0 & f & [= <-] & [->|Hin]%Hl & Hf & Hn); [left; split; congruence|right].
        destruct (B d !! pe_key e) as [l0|] eqn:Hb; [|by apply not_elem_of_nil in Hin]. exists l0.
        destruct (cache_members _ _ _ _ _ _ _ _ _ _ Hok Htd Hb Hin) as [g Hg]. destruct (Hsn a g Hg) as (g' & Hg' & Hgn).
        exists g. split_and!; try done. congruence.
      - intros [[-> ->]|(l0 & f & Hb & Hin & Hf & Hn)]; [exists l, e'; split_and!; try done; apply Hl; by left|].
        destruct (Hsn a f Hf) as (f' & Hf' & Hfn). exists l, f'. split_and!; try done; [|congruence]. apply Hl. right. by rewrite Hb. }
    rewrite Hc. destruct (decide (nm = nm0)) as [->|Hne].
    + rewrite lookup_insert_eq. split; [intros [= <-]; split; [done|by left]|]. intros [_ [[-> _]|Hch]]; [done|].
      exfalso. assert (M !! (d, nm0) = Some a) by (by apply Hk). congruence.
    + rewrite lookup_insert_ne by congruence. rewrite (Hk d nm a). naive_solver.
Qed.

Lemma pnc_rep_later s M F own L h F' own' L' :
  pnc_rep s M F own L -> heap_abs h F' own' L' -> later (pc_heap s) h L L' -> pnc_rep (set_pc_heap h s) M F' own' L'.
Proof.
  intros (T & B & Hok & Hk) Ha Hla. exists T, B. split; [by eapply cache_later|]. intros d nm a. rewrite (Hk d nm a).
  apply and_iff_compat_l'. intros Ht. symmetry. apply child_same; [|done|intros k l x; by eapply cache_members].
  intros x e He. exists e. split; [done|]. eapply name_later; [done|by apply (co_entry _ _ _ _ _ _ _ Hok)].
Qed.

(** ** The operations *)

Lemma pnc_find_spec s M F own L d q len nm :
  pnc_rep s M F own L -> is_Some (pc_entries s !! d) -> 0 <= len -> bytes (pc_mem s) q (Z.to_nat len) = nm -> good_name nm ->
  pnc_lookup_section sentinel (Ref d) q len s = Ret (from_option Ref NULL (M !! (d, nm))).
Proof.
  intros (T & B & Hok & Hk) Hd Hl Hq Hg.
  destruct (returns_inv _ _ (pnc_lookup_spec _ _ _ _ _ _ _ _ _ _ _ Hok Hd Hl Hq Hg)) as (w & -> & Hw). f_equal.
  assert (is_Some (T !! d)) as Ht by (by apply (co_dom _ _ _ _ _ _ _ Hok)).
  destruct Hw as [[-> Hno]|(a & -> & Hc)].
  - destruct (M !! (d, nm)) as [a|] eqn:Hm; [|done]. apply Hk in Hm as [_ Hc]. by destruct (Hno a).
  - by rewrite (proj2 (Hk d nm a)).
Qed.

(** The new entry takes its place: in the tree, or in the bucket of its hash. *)
Lemma place_entry s T B F own L n M d ent e :
  cache_ok s T B F own L -> kids T B s M -> is_Some (pc_entries s !! d) -> pc_entries s !! ent = Some e -> d <> ent ->
  pe_key e = hash_of (name_of (pc_mem s) e) -> pe_parent e = Ref d -> pe_next e = NULL -> pe_prev e = NULL -> M !! (d, name_of (pc_mem s) e) = None -> spare F (S n) ->
  (forall k l, B d !! k = Some l -> ent ∉ l) ->
  returns ('(dup, s) ← with_tree (Ref d) (tree_insert sentinel (Ref ent)) s;
           if nonnull dup then link_after dup (Ref ent) s else Ret (Ref ent, s)) (fun '(w, s') => w = Ref ent /\ exists F' own' L',
    pnc_rep s' (<[(d, name_of (pc_mem s) e) := ent]> M) F' own' L' /\ later (pc_heap s) (pc_heap s') L L' /\ spare F' n /\
    pe_vnode <$> pc_entries s' = pe_vnode <$> pc_entries s).
Proof.
  intros Hok Hk [ed Hed] He Hne Hkey Hp Hn Hv HM Hsp Hni. destruct (proj2 (co_dom _ _ _ _ _ _ _ Hok d)) as [t Ht]; [by eexists|].
  destruct (B d !! pe_key e) as [l|] eqn:Hb.
  - destruct (do_bucket _ _ _ _ _ (co_dir _ _ _ _ _ _ _ Hok d t Ht) _ _ Hb) as (a & l' & -> & Hdll).
    mcall (with_tree_dup _ _ _ _ _ _ _ _ _ _ _ _ _ _ Hok Hed Ht He Hb Hsp). intros r ->. cbn [nonnull].
    eapply returns_mono; [apply (link_after_spec s a l' ent Hdll); [by eexists|by eapply Hni]|].
    intros [w s'] (-> & N & -> & HdN & Hrel & Hfr). split; [done|]. exists F, own, L. split_and!; [|apply later_refl| |].
    + exists T, (<[d := <[pe_key e := a :: ent :: l']> (B d)]> B). split.
      * eapply cache_linked; try done. intros x f Hx Hf Hnm.
        assert (M !! (d, name_of (pc_mem s) e) = Some x); [|congruence]. apply Hk. split; [by eexists|].
        exists (a :: l'), f. by rewrite <- Hkey.
      * eapply kids_extend; try done; [|intros x; rewrite Hb; simpl; rewrite !elem_of_cons; tauto].
        intros x f Hx. destruct (Dll.relinked_lookup _ _ _ _ Hrel Hx) as (f' & Hf' & Hpay). exists f'. split; [done|].
        by apply (payload_alike (pc_mem s)) in Hpay as [[_ _ ?] _].
    + by apply spare_less.
    + cbn [set_entries pc_entries]. assert (forall g : gmap Z pnc_entry, pe_vnode <$> g = pe_vnode <$> (Dll.payload <$> g)) as Hpay.
      { intros g. rewrite <- map_fmap_compose. by apply map_fmap_ext. }
      by rewrite (Hpay N), Hrel, <- Hpay.
  - mcall (hang_entry _ _ _ _ _ _ n _ _ _ _ _ Hok Hed Ht He Hne Hp Hn Hv Hb Hsp).
    intros [w s'] (-> & t' & r & F' & own' & L' & Hok' & Hla & Hsp' & HN). cbn [nonnull]. apply returns_ret. split; [done|].
    exists F', own', L'. split_and!; try done.
    + eexists _, _. split; [exact Hok'|]. eapply kids_extend; try done; [| |intros x; rewrite Hb; simpl; rewrite list_elem_of_singleton, elem_of_nil; tauto].
      * intros x f Hx. destruct (decide (x = d)) as [->|Hxd]; rewrite HN.
        -- rewrite lookup_insert_eq. eexists. split; [done|]. assert (f = ed) as -> by congruence.
           apply (name_later _ _ _ _ d ed Hla). by apply (co_entry _ _ _ _ _ _ _ Hok).
        -- rewrite lookup_insert_ne by done. exists f. split; [done|].
           eapply name_later; [done|by apply (co_entry _ _ _ _ _ _ _ Hok)].
      * intros x. rewrite lookup_insert_is_Some'. split; [intros [<-|?]; [by eexists|done]|by right].
    + rewrite HN, fmap_insert. apply insert_id. by rewrite lookup_fmap, Hed.
Qed.

(** A new entry in no directory: the root of a file system. *)
Lemma new_root_spec s M F own L n vn par q len nm hash :
  pnc_rep s M F own L -> 0 <= len -> readable (pc_heap s) L q len -> bytes (pc_mem s) q (Z.to_nat len) = nm -> good_name nm -> spare F (S (S n)) ->
  returns (new_pnc_entry sentinel vn par q len hash s) (fun '(w, s') => exists a F' own' L', w = Ref a /\ pc_entries s !! a = None /\
    pnc_rep s' M F' own' L' /\ pe_vnode <$> pc_entries s' = <[a := vn]> (pe_vnode <$> pc_entries s) /\
    later (pc_heap s) (pc_heap s') L L' /\ spare F' n).
Proof.
  intros (T & B & Hok & Hk) Hl Hr Hq Hg Hsp.
  eapply returns_mono; [by eapply (new_pnc_entry_spec s F own L n vn par q len nm hash (co_heap _ _ _ _ _ _ _ Hok))|].
  intros [w s'] (a & sec & F' & own' & L' & -> & HN & Hnd & Ha & Hla & Hsp' & Hfr & Hlive & Hsec & Hb).
  assert (pc_entries s !! a = None) as HNn by (by eapply fresh_entry).
  exists a, F', own', L'. split_and!; try done; [|by rewrite HN, fmap_insert].
  eexists _, _. split; [eapply cache_fresh; try done|by eapply kids_fresh]. split; cbn; unfold name_of; cbn; by rewrite ?Hb.
Qed.

Lemma pnc_add_spec s M F own L n vn d q len nm :
  pnc_rep s M F own L -> is_Some (pc_entries s !! d) -> 0 <= len -> readable (pc_heap s) L q len ->
  bytes (pc_mem s) q (Z.to_nat len) = nm -> good_name nm -> spare F (S (S (S n))) ->
  returns (pnc_add_section sentinel vn (Ref d) q len s) (fun '(w, s') =>
    match M !! (d, nm) with
    | Some a => w = Ref a /\ s' = s
    | None => exists a F' own' L', w = Ref a /\ pc_entries s !! a = None /\ pnc_rep s' (<[(d, nm) := a]> M) F' own' L' /\
        pe_vnode <$> pc_entries s' = <[a := vn]> (pe_vnode <$> pc_entries s) /\
        later (pc_heap s) (pc_heap s') L L' /\ spare F' n
    end).
Proof.
  intros Hrep Hd Hl Hr Hq Hg Hsp. unfold pnc_add_section. rewrite (pnc_find_spec s M F own L d q len nm) by done.
  cbn [mbind outcome_bind]. destruct (M !! (d, nm)) as [a|] eqn:Hm; [by apply returns_ret|]. cbn [from_option nonnull].
  destruct Hrep as (T & B & Hok & Hk). rewrite pathn_hash_bytes, Hq.
  mcall (new_pnc_entry_spec s F own L (S n) vn (Ref d) q len nm (hash_of nm) (co_heap _ _ _ _ _ _ _ Hok) Hsp Hl Hr Hq Hg).
  intros [w s1] (ent & sec & F1 & own1 & L1 & -> & HN & Hnd & Ha1 & Hla & Hsp1 & Hfr & Hlive & Hsec & Hb1).
  set (e := mk_pnc _ _ _ _ _ _ _ sec) in HN.
  assert (pc_entries s !! ent = None) as HNn by (by eapply fresh_entry).
  assert (name_of (pc_mem s1) e = nm) as Hnm by exact Hb1.
  assert (cache_ok s1 (<[ent := E]> T) (<[ent := ∅]> B) F1 own1 L1) as Hok1.
  { eapply cache_fresh; try done. split; rewrite ?Hnm; done. }
  pose proof (kids_fresh _ _ _ _ _ _ _ _ _ _ _ Hok Hk HN HNn Hla) as Hk1.
  assert (d <> ent) as Hne by (intros ->; destruct Hd; congruence). rewrite <- Hnm.
  eapply returns_mono; [eapply (place_entry s1 _ _ _ _ _ n M d ent e Hok1 Hk1)|]; try done; rewrite ?HN, ?Hnm; try done.
  - by rewrite lookup_insert_ne.
  - by rewrite lookup_insert_eq.
  - intros k l. rewrite fn_lookup_insert_ne by done. intros Hb Hin.
    destruct (cache_members _ _ _ _ _ _ _ _ _ _ Hok (proj2 (co_dom _ _ _ _ _ _ _ Hok d) Hd) Hb Hin). congruence.
  - intros [w s'] (-> & F' & own' & L' & Hrep & Hla' & Hsp' & Hvn). exists ent, F', own', L'.
    split_and!; try done; [|by eapply later_trans]. by rewrite Hvn, fmap_insert.
Qed.

(** ** The theorem *)

(** C29: the path name cache stands for a map from directory and name to entry.
    Adding a section extends it by the one pair, with the vnode, or returns
    the entry the name has already; looking a section up afterwards reads the
    new map, in every directory and also when hashes collide; the memory of
    other owners stays as it is. *)
Theorem pnc_add_refines s M F own L n vn d q len nm :
  pnc_rep s M F own L -> is_Some (pc_entries s !! d) -> 0 <= len -> readable (pc_heap s) L q len ->
  bytes (pc_mem s) q (Z.to_nat len) = nm -> good_name nm -> spare F (S (S (S n))) ->
  returns (pnc_add_section sentinel vn (Ref d) q len s) (fun '(w, s') => exists a M' F' own' L', w = Ref a /\
    M' = (if M !! (d, nm) then M else <[(d, nm) := a]> M) /\ M' !! (d, nm) = Some a /\
    (M !! (d, nm) = None -> pc_entries s !! a = None /\ pe_vnode <$> pc_entries s' = <[a := vn]> (pe_vnode <$> pc_entries s)) /\
    pnc_rep s' M' F' own' L' /\ later (pc_heap s) (pc_heap s') L L' /\
    forall d' q' len' nm', is_Some (pc_entries s' !! d') -> 0 <= len' -> bytes (pc_mem s') q' (Z.to_nat len') = nm' -> good_name nm' ->
      pnc_lookup_section sentinel (Ref d') q' len' s' = Ret (from_option Ref NULL (M' !! (d', nm')))).
Proof.
  intros Hrep Hd Hl Hr Hq Hg Hsp. eapply returns_mono; [by eapply (pnc_add_spec s M F own L n vn d q len nm)|]. intros [w s'].
  destruct (M !! (d, nm)) as [a|] eqn:Hm.
  - intros [-> ->]. exists a, M, F, own, L. split_and!; try done. intros. by eapply pnc_find_spec.
  - intros (a & F' & own' & L' & -> & Hfr & Hrep' & Hvn & Hla & _). exists a, (<[(d, nm) := a]> M), F', own', L'.
    split_and!; try done; [apply lookup_insert_eq|]. intros. by eapply pnc_find_spec.
Qed.

End Cache.

(** ** Non-vacuity

    The machine of [BuddyTheorems.Sample] with the string literals of
    [vfs_init] in the image of the kernel, and an empty cache. *)
Module Sample.
Import BuddyTheorems.BuddyTheorems.Sample HeapTheorems.HeapTheorems HeapTheorems.HeapTheorems.Sample.

Definition nil_addr : Z := 0xffffffff80100000.
Fixpoint chars (s : string) : list Z := match s with String c s => Z.of_N (Ascii.N_of_ascii c) :: chars s | EmptyString => [] end.
Definition literals : list string :=
  ["/"; "testfile"; "Hello World"; "testdir"; "/testdir"; "fileinsidedir"; "/testdir/fileinsidedir"; "Hello World2"; "hohoho"; "file.c";
   "/testdir/hohoho/file.c/"; "testdir2"; "/testdir2"; "/testfile"; "testdir12"; "/testdir12"; "/testdir1"]%string.
Fixpoint index (l : list string) (s : string) : Z := match l with x :: l => if String.eqb x s then 0 else 1 + index l s | [] => 0 end.
Definition lit (s : string) : Z := 0xffffffff80200000 + 64 * index literals s.
Definition rodata : mem := foldr (fun s m => write_bytes (lit s) (chars s ++ [0]) m) ∅ literals.

Definition heap_lit : heap := match slab_init (bss_heap st0 rodata hhdm_offset) with Ret h => h | _ => bss_heap st0 rodata hhdm_offset end.
Definition cache0 : pncs := mk_pncs ∅ {[nil_addr := mk_node NULL (Ref nil_addr) (Ref nil_addr) RB_BLACK NULL]} heap_lit.
Lemma heap_lit_abs : exists F, heap_abs heap_lit F ∅ ∅ /\ h_mem heap_lit = rodata /\ h_offset heap_lit = hhdm_offset /\ mm_pages_count (h_mm heap_lit) = 257 /\ spare F 15.
Proof.
  destruct st0_startable as (F & Hst & HF). exists F. pose proof (slab_init_spec st0 F rodata hhdm_offset Hst) as Hi.
  destruct (slab_init_caches st0 rodata hhdm_offset) as (cs & Heq & _). unfold heap_lit. rewrite Heq in Hi |- *. destruct Hi as (Ha & Hmm & Hmem & Hoff).
  split; [exact Ha|]. split; [exact Hmem|]. split; [exact Hoff|]. split; [rewrite Hmm; vm_compute; reflexivity|]. apply (spare_run _ 1). intros x Hx. apply HF. lia.
Qed.

#[local] Opaque heap_lit rodata.

Lemma cache0_rep : exists F, pnc_rep nil_addr cache0 ∅ F ∅ ∅ /\ spare F 15.
Proof.
  destruct heap_lit_abs as (F & Ha & _ & Hoff & Hcnt & Hsp). exists F. split; [|exact Hsp].
  assert (forall A (x : Z) (y : A), (∅ : gmap Z A) !! x = Some y -> False) as Hno by (intros A x y Hx; by rewrite lookup_empty in Hx).
  exists ∅, (fun _ => ∅). split; [|intros d nm a; split; [intros Hx; by rewrite lookup_empty in Hx|intros [[t Ht] _]; by destruct (Hno _ _ _ Ht)]].
  split; cbn [cache0 pc_entries pc_nodes pc_heap pc_mem].
  - exists NULL. split; [apply NoDup_singleton|]. constructor; [|constructor]. apply (lookup_singleton_eq (M := gmap Z)).
  - intros d. split; intros [x Hx]; destruct (Hno _ _ _ Hx).
  - intros d e t Hd. destruct (Hno _ _ _ Hd).
  - intros d t Hd. destruct (Hno _ _ _ Hd).
  - intros a e He. destruct (Hno _ _ _ He).
  - exact Ha.
  - intros a Hin. destruct (not_elem_of_nil a Hin).
  - rewrite Hoff, Hcnt. clear. unfold hhdm_offset, nil_addr, PAGE_SIZE. lia.
Qed.

(** The literals are in the image, where nothing is ever written. *)
Lemma lit_readable h L x n : later heap_lit h ∅ L -> readable h L (lit x) n.
Proof.
  intros Hla z Hz. left. rewrite (static_done _ _ _ (la_done _ _ _ _ Hla)). destruct heap_lit_abs as (F & _ & _ & Hoff & Hcnt & _).
  right. rewrite Hoff, Hcnt. unfold lit, hhdm_offset, PAGE_SIZE in *. assert (0 <= index literals x); [|lia].
  clear. induction literals as [|y l IH]; simpl; [done|]. destruct (String.eqb y x); lia.
Qed.

Lemma lit_rd h L x z : later heap_lit h ∅ L -> lit x <= z -> rd (h_mem h) z = rd rodata z.
Proof.
  intros Hla Hz. destruct heap_lit_abs as (F & _ & Hm & _). rewrite <- Hm. apply (la_static _ _ _ _ Hla).
  destruct (lit_readable heap_lit ∅ x (z - lit x + 1) (later_refl _ _) z) as [?|(b & k & Hb & _)]; [lia|done|by rewrite lookup_empty in Hb].
Qed.

Lemma lit_bytes h L x n : later heap_lit h ∅ L -> bytes (h_mem h) (lit x) n = bytes rodata (lit x) n.
Proof. intros Hla. apply bytes_ext. intros z Hz. apply (lit_rd h L x z Hla). lia. Qed.

Lemma lit_range x : 0xffffffff80200000 <= lit x <= 0xffffffff80200000 + 64 * 17.
Proof.
  unfold lit. assert (0 <= index literals x <= Z.of_nat (length literals)); [|simpl length in *; lia].
  induction literals as [|y l IH]; simpl; [done|]. destruct (String.eqb y x); lia.
Qed.

Lemma good_testfile : good_name (chars "testfile").
Proof. split; [repeat constructor|done|done]. Qed.

(** The root directory, and a file in it. *)
Lemma pnc_add_refines_witness : exists s root, is_Some (pc_entries s !! root) /\
  returns (pnc_add_section nil_addr (Ref 1) (Ref root) (lit "testfile") 8 s) (fun '(w, s') => exists a, w = Ref a /\ pc_entries s !! a = None /\
    forall q', bytes (pc_mem s') q' 8 = chars "testfile" -> pnc_lookup_section nil_addr (Ref root) q' 8 s' = Ret (Ref a)).
Proof.
  destruct cache0_rep as (F & Hrep & Hsp). assert (bytes (pc_mem cache0) (lit "/") 1 = chars "/") as Hq.
  { etrans; [exact (lit_bytes heap_lit ∅ "/" 1 (later_refl _ _))|]. vm_compute. reflexivity. }
  assert (good_name (chars "/")) as Hg by (split; [repeat constructor|discriminate|discriminate]).
  pose proof (new_root_spec nil_addr cache0 ∅ F ∅ ∅ 13 (Ref 0) NULL (lit "/") 1 (chars "/") 0 Hrep ltac:(lia) (lit_readable _ _ _ _ (later_refl _ _)) Hq Hg Hsp) as Hi.
  apply returns_inv in Hi as ([w s] & _ & root & F1 & own1 & L1 & _ & _ & Hrep1 & Hvn & Hla & Hsp1). clear - Hrep1 Hvn Hla Hsp1.
  change (pc_heap cache0) with heap_lit in Hla. exists s, root.
  assert (is_Some (pc_entries s !! root)) as He.
  { apply (f_equal (fun m => m !! root)) in Hvn. rewrite lookup_fmap, lookup_insert_eq in Hvn. destruct (pc_entries s !! root); [by eexists|discriminate Hvn]. }
  split; [exact He|]. assert (bytes (pc_mem s) (lit "testfile") (Z.to_nat 8) = chars "testfile") as Hq.
  { etrans; [exact (lit_bytes (pc_heap s) L1 "testfile" (Z.to_nat 8) Hla)|]. vm_compute. reflexivity. }
  eapply returns_mono; [exact (pnc_add_refines nil_addr s ∅ F1 own1 L1 10 (Ref 1) root (lit "testfile") 8 (chars "testfile") Hrep1 He ltac:(lia)
    (lit_readable _ _ _ _ Hla) Hq good_testfile Hsp1)|].
  intros [w' s'] (a & M' & F' & own' & L' & Hw & _ & Hm & Hnew & _ & _ & Hfind). destruct (Hnew (lookup_empty _)) as [Hfr Hv]. exists a. split; [exact Hw|]. split; [exact Hfr|].
  intros q' Hq'. rewrite (Hfind root q' 8 (chars "testfile")); [by rewrite Hm| |lia|exact Hq'|exact good_testfile].
  apply (f_equal (fun m => m !! root)) in Hv. rewrite lookup_fmap, lookup_insert_ne, lookup_fmap in Hv by (intros ->; destruct He; congruence).
  destruct He as [e He]. rewrite He in Hv. destruct (pc_entries s' !! root); [by eexists|discriminate Hv].
Defined.

End Sample.

End PncTheorems.
