(* ===== verification/VfsBase.v ===== *)
(** * The objects of the virtual file system (kernel/include/vfs.h, kernel/include/ramfs.h)

    Vnodes, mounted file systems, files and disks of the ram file system,
    each kind in a store by address, next to the path name cache with its
    heap.  The operation tables hold function pointers; a pointer is the name
    of the function, and calling one is a case distinction.  The name of a
    ramdisk file is an array inside the file, in byte memory. *)

From stdpp Require Import gmap.
From S2P Require Import Prelude Mem FrameHdr FrameAlloc PageIface Slab Pnc.

Module VfsBase.
Import Mem FrameHdr FrameAlloc PageIface Slab Pnc.

(** ** vfs.h *)

Definition VFS_FS_OP_STATUS_OK : Z := 0.
Definition VFS_FS_OP_STATUS_INVALID_ARGS : Z := 1.
Definition VFS_FS_OP_STATUS_MOUNTPOINT_INVALID : Z := 2.
Definition VFS_FS_OP_STATUS_ENOENT : Z := 3.
Definition VFS_VN_FLAG_ROOT : Z := 1.

Inductive vfs_vnode_type :=
  | VFS_VN_NON | VFS_VN_REG | VFS_VN_DIR | VFS_VN_BLK | VFS_VN_CHR | VFS_VN_LNK | VFS_VN_SCK | VFS_VN_BAD.
#[global] Instance vnode_type_eq : EqDecision vfs_vnode_type.
Proof. solve_decision. Defined.

Definition UIO_READ : Z := 0.
Definition UIO_WRITE : Z := 1.

Record vfs_uio := mk_uio { uio_buf : Z; uio_resid : Z; uio_offset : Z; uio : Z }.
Definition set_resid (x : Z) (u : vfs_uio) : vfs_uio := mk_uio (uio_buf u) x (uio_offset u) (uio u).

(** Of the attributes only the type is ever read. *)
Record vfs_vattr := mk_vattr { va_type : vfs_vnode_type }.

Record file_handle := mk_handle { cache_entry : word; hnd_fs : word }.
Definition null_handle : file_handle := mk_handle NULL NULL.

Record vfs_fs := mk_fs {
  vfs_next : word;
  vfs_op : word;
  vfs_flag : Z;
  vfs_bsize : Z;
  vfs_root_pnc : word;
  vfs_covered : file_handle;
  fs_name : option string;
  vfs_data : word
}.
Definition set_root_pnc (x : word) (f : vfs_fs) : vfs_fs :=
  mk_fs (vfs_next f) (vfs_op f) (vfs_flag f) (vfs_bsize f) x (vfs_covered f) (fs_name f) (vfs_data f).
Definition set_covered (x : file_handle) (f : vfs_fs) : vfs_fs :=
  mk_fs (vfs_next f) (vfs_op f) (vfs_flag f) (vfs_bsize f) (vfs_root_pnc f) x (fs_name f) (vfs_data f).
Definition set_data (x : word) (f : vfs_fs) : vfs_fs :=
  mk_fs (vfs_next f) (vfs_op f) (vfs_flag f) (vfs_bsize f) (vfs_root_pnc f) (vfs_covered f) (fs_name f) x.
Definition zero_fs : vfs_fs := mk_fs NULL NULL 0 0 NULL null_handle None NULL.

(** The functions of the file systems there are. *)
Inductive fs_fn := Ramfs_mount | Ramfs_unmount | Ramfs_root | Ramfs_statfs | Ramfs_sync | Ramfs_fid | Ramfs_vget.
Inductive vn_fn := Ramfs_vn_open | Ramfs_vn_close | Ramfs_vn_rdwr | Ramfs_vn_lookup | Ramfs_vn_create.

Record vfs_fs_ops := mk_fs_ops {
  fo_mount : option fs_fn; fo_unmount : option fs_fn; fo_root : option fs_fn; fo_statfs : option fs_fn;
  fo_sync : option fs_fn; fo_fid : option fs_fn; fo_vget : option fs_fn
}.

(** The entries of the table that are ever set. *)
Record vfs_vnode_ops := mk_vn_ops {
  vo_open : option vn_fn; vo_close : option vn_fn; vo_rdwr : option vn_fn; vo_lookup : option vn_fn; vo_create : option vn_fn
}.

Record vfs_vnode := mk_vnode {
  v_type : vfs_vnode_type;
  v_op : word;
  v_vfsp : word;
  v_vfs_mounted_here : word;
  v_flag : Z;
  v_refc : Z;
  v_data : word
}.
Definition set_mounted (x : word) (v : vfs_vnode) : vfs_vnode :=
  mk_vnode (v_type v) (v_op v) (v_vfsp v) x (v_flag v) (v_refc v) (v_data v).

(** ** ramfs.h *)

Definition RAMDISK_DEVICE_SIGNATURE : Z := 0xa2b35253ef.
Definition RAMDISK_MAX_FILENAME_LENGTH : Z := 256.

Inductive ramdisk_file_type := RAMD_DIR | RAMD_FILE.
#[global] Instance ramdisk_file_type_eq : EqDecision ramdisk_file_type.
Proof. solve_decision. Defined.

(** [size] and [num_entries], the other halves of the union, are never used. *)
Record ramdisk_file := mk_file {
  rf_next : word;
  rf_prev : word;
  rf_type : ramdisk_file_type;
  rf_atime : Z; rf_mtime : Z; rf_ctime : Z; rf_btime : Z;
  rf_name_len : Z;
  rf_first_subdir : word;
  rf_contents : word           (* file_contents *)
}.
Definition set_rf_next (x : word) (f : ramdisk_file) : ramdisk_file :=
  mk_file x (rf_prev f) (rf_type f) (rf_atime f) (rf_mtime f) (rf_ctime f) (rf_btime f) (rf_name_len f) (rf_first_subdir f) (rf_contents f).
Definition set_rf_prev (x : word) (f : ramdisk_file) : ramdisk_file :=
  mk_file (rf_next f) x (rf_type f) (rf_atime f) (rf_mtime f) (rf_ctime f) (rf_btime f) (rf_name_len f) (rf_first_subdir f) (rf_contents f).
Definition set_first_subdir (x : word) (f : ramdisk_file) : ramdisk_file :=
  mk_file (rf_next f) (rf_prev f) (rf_type f) (rf_atime f) (rf_mtime f) (rf_ctime f) (rf_btime f) (rf_name_len f) x (rf_contents f).
Definition set_contents (x : word) (f : ramdisk_file) : ramdisk_file :=
  mk_file (rf_next f) (rf_prev f) (rf_type f) (rf_atime f) (rf_mtime f) (rf_ctime f) (rf_btime f) (rf_name_len f) (rf_first_subdir f) x.

(** The root directory and the table of a disk are files and tables of their
    own, inside the disk. *)
Record ramdisk := mk_disk { device_signature : Z; rd_next : word; rd_prev : word }.

(** sizeof and offsetof. *)
Definition SIZEOF_VNODE : Z := 56.
Definition SIZEOF_FS : Z := 72.
Definition SIZEOF_FS_OPS : Z := 56.
Definition SIZEOF_FILE : Z := 336.
Definition SIZEOF_RAMDISK : Z := 552.
Definition FILE_NAME : Z := 56.
Definition RAMDISK_ROOT_DIR : Z := 24.
Definition RAMDISK_VNODEOPS : Z := 360.

(** ** State *)

Record vfss := mk_vfss {
  vs_pnc : pncs;
  vs_vnodes : gmap Z vfs_vnode;
  vs_fss : gmap Z vfs_fs;
  vs_fsops : gmap Z vfs_fs_ops;
  vs_vnops : gmap Z vfs_vnode_ops;
  vs_files : gmap Z ramdisk_file;
  vs_disks : gmap Z ramdisk;
  vs_root : word;              (* root_fs *)
  vs_time : Z                  (* what [get_unixtime] returns *)
}.
Definition set_pnc (x : pncs) (s : vfss) : vfss :=
  mk_vfss x (vs_vnodes s) (vs_fss s) (vs_fsops s) (vs_vnops s) (vs_files s) (vs_disks s) (vs_root s) (vs_time s).
Definition set_vnodes (x : gmap Z vfs_vnode) (s : vfss) : vfss :=
  mk_vfss (vs_pnc s) x (vs_fss s) (vs_fsops s) (vs_vnops s) (vs_files s) (vs_disks s) (vs_root s) (vs_time s).
Definition set_fss (x : gmap Z vfs_fs) (s : vfss) : vfss :=
  mk_vfss (vs_pnc s) (vs_vnodes s) x (vs_fsops s) (vs_vnops s) (vs_files s) (vs_disks s) (vs_root s) (vs_time s).
Definition set_fsops (x : gmap Z vfs_fs_ops) (s : vfss) : vfss :=
  mk_vfss (vs_pnc s) (vs_vnodes s) (vs_fss s) x (vs_vnops s) (vs_files s) (vs_disks s) (vs_root s) (vs_time s).
Definition set_vnops (x : gmap Z vfs_vnode_ops) (s : vfss) : vfss :=
  mk_vfss (vs_pnc s) (vs_vnodes s) (vs_fss s) (vs_fsops s) x (vs_files s) (vs_disks s) (vs_root s) (vs_time s).
Definition set_files (x : gmap Z ramdisk_file) (s : vfss) : vfss :=
  mk_vfss (vs_pnc s) (vs_vnodes s) (vs_fss s) (vs_fsops s) (vs_vnops s) x (vs_disks s) (vs_root s) (vs_time s).
Definition set_disks (x : gmap Z ramdisk) (s : vfss) : vfss :=
  mk_vfss (vs_pnc s) (vs_vnodes s) (vs_fss s) (vs_fsops s) (vs_vnops s) (vs_files s) x (vs_root s) (vs_time s).
Definition set_root_fs (x : word) (s : vfss) : vfss :=
  mk_vfss (vs_pnc s) (vs_vnodes s) (vs_fss s) (vs_fsops s) (vs_vnops s) (vs_files s) (vs_disks s) x (vs_time s).

Definition vs_heap (s : vfss) : heap := pc_heap (vs_pnc s).
Definition vs_mem (s : vfss) : mem := h_mem (vs_heap s).
Definition set_vs_heap (h : heap) (s : vfss) : vfss := set_pnc (set_pc_heap h (vs_pnc s)) s.
Definition set_vs_mem (m : mem) (s : vfss) : vfss := set_vs_heap (set_mem m (vs_heap s)) s.

Section Alloc.
Context {PA : PageAllocator}.

(** ** vfs.c: allocation *)

Definition calloc (size : Z) (s : vfss) : outcome (Z * vfss) :=
  '(a, h) ← kcalloc 1 size (vs_heap s);
  Ret (a, set_vs_heap h s).

Definition vfs_vnode_alloc (owner : word) (flags : Z) (ops : word) (type : vfs_vnode_type) (data : word) (s : vfss) :
    outcome (word * vfss) :=
  '(node, s) ← calloc SIZEOF_VNODE s;
  Ret (Ref node, set_vnodes (<[node := mk_vnode type ops owner NULL flags 0 data]> (vs_vnodes s)) s).

Definition vfs_fs_alloc (ops : word) (flags bsize : Z) (data : word) (s : vfss) : outcome (word * vfss) :=
  '(fs, s) ← calloc SIZEOF_FS s;
  Ret (Ref fs, set_fss (<[fs := mk_fs NULL ops flags bsize NULL null_handle None data]> (vs_fss s)) s).

(** [kfree] of a pointer. *)
Definition free (p : word) (s : vfss) : outcome vfss :=
  h ← kfree (match p with Ref a => a | Num n => n end) (vs_heap s);
  Ret (set_vs_heap h s).

(** The caller's variable is [NULL] afterwards. *)
Definition vfs_vnode_free (node : word) (s : vfss) : outcome (word * vfss) :=
  v ← load node (vs_vnodes s);
  s ← free (v_data v) s;
  let s := set_files (forget (v_data v) (vs_files s)) s in
  s ← free node s;
  Ret (NULL, set_vnodes (forget node (vs_vnodes s)) s).

(** Takes a vnode as well, in spite of its name. *)
Definition vfs_fs_free (node : word) (s : vfss) : outcome (word * vfss) := vfs_vnode_free node s.

End Alloc.
End VfsBase.
