(* ===== verification/Ramfs.v ===== *)
(** * The ram file system (kernel/src/fs/ramfs.c)

    Files in memory: a directory has a list of its files.  The functions
    behind the operation tables, and the calls through the tables. *)

From stdpp Require Import gmap.
From S2P Require Import Prelude Mem CString FrameHdr FrameAlloc PageIface Slab Pathn Pnc VfsBase.

Module Ramfs.
Import Mem CString FrameHdr FrameAlloc PageIface Slab Pathn Pnc VfsBase.

Section Ramfs.
Context {PA : PageAllocator}.

Definition rd_new_ramdisk (s : vfss) : outcome (word * vfss) :=
  '(rd, s) ← calloc SIZEOF_RAMDISK s;
  let t := vs_time s in
  let s := set_disks (<[rd := mk_disk RAMDISK_DEVICE_SIGNATURE NULL NULL]> (vs_disks s)) s in
  let s := set_files (<[rd + RAMDISK_ROOT_DIR := mk_file NULL NULL RAMD_DIR t t t t 0 NULL NULL]> (vs_files s)) s in
  let s := set_vnops (<[rd + RAMDISK_VNODEOPS :=
    mk_vn_ops (Some Ramfs_vn_open) (Some Ramfs_vn_close) (Some Ramfs_vn_rdwr) (Some Ramfs_vn_lookup) (Some Ramfs_vn_create)]> (vs_vnops s)) s in
  Ret (Ref rd, s).

(** [NULL] when [dir] is not a directory. *)
Definition rd_create_file (dir : word) (type : ramdisk_file_type) (name len : Z) (s : vfss) : outcome (word * vfss) :=
  d ← load dir (vs_files s);
  if decide (rf_type d = RAMD_DIR) then
    '(file, s) ← calloc SIZEOF_FILE s;
    let t := vs_time s in
    m ← pathn_buffer_n (file + FILE_NAME) name len (vs_mem s);
    let s := set_vs_mem m s in
    Ret (Ref file, set_files (<[file := mk_file NULL NULL type t t t t len NULL NULL]> (vs_files s)) s)
  else Ret (NULL, s).

Definition ramfs_new_fs (s : vfss) : outcome (word * vfss) :=
  '(ramfs, s) ← calloc SIZEOF_FS s;
  '(ops, s) ← calloc SIZEOF_FS_OPS s;
  let s := set_fsops (<[ops := mk_fs_ops (Some Ramfs_mount) (Some Ramfs_unmount) (Some Ramfs_root) (Some Ramfs_statfs)
    (Some Ramfs_sync) (Some Ramfs_fid) (Some Ramfs_vget)]> (vs_fsops s)) s in
  let s := set_fss (<[ramfs := mk_fs NULL (Ref ops) 0 0 NULL null_handle (Some "ramfs"%string) NULL]> (vs_fss s)) s in
  Ret (Ref ramfs, s).

Definition ramfs_destroy_fs (ramfs : word) (s : vfss) : outcome vfss :=
  f ← load ramfs (vs_fss s);
  s ← free (vfs_op f) s;
  s ← free ramfs s;
  Ret (set_fsops (forget (vfs_op f) (vs_fsops s)) (set_fss (forget ramfs (vs_fss s)) s)).

(** ** vfs_fs_ops *)

Definition ramfs_mount (this fs_specific : word) (s : vfss) : outcome (Z * vfss) :=
  rd ← load fs_specific (vs_disks s);
  if device_signature rd =? RAMDISK_DEVICE_SIGNATURE then
    fs ← store this (set_data fs_specific) (vs_fss s);
    Ret (VFS_FS_OP_STATUS_OK, set_fss fs s)
  else Ret (VFS_FS_OP_STATUS_INVALID_ARGS, s).

Definition ramfs_unmount (this : word) (s : vfss) : outcome (Z * vfss) :=
  f ← load this (vs_fss s);
  rd ← load (vfs_data f) (vs_disks s);
  if device_signature rd =? RAMDISK_DEVICE_SIGNATURE then
    fs ← store this (set_data NULL) (vs_fss s);
    Ret (VFS_FS_OP_STATUS_OK, set_fss fs s)
  else Ret (VFS_FS_OP_STATUS_INVALID_ARGS, s).

(** [&rd->root_dir], [&rd->vnodeops]. *)
Definition field (p : word) (off : Z) : word := match p with Ref a => Ref (a + off) | Num n => Num (n + off) end.

Definition ramfs_root (this : word) (s : vfss) : outcome (Z * word * vfss) :=
  f ← load this (vs_fss s);
  '(vnode, s) ← vfs_vnode_alloc this VFS_VN_FLAG_ROOT (field (vfs_data f) RAMDISK_VNODEOPS) VFS_VN_DIR (field (vfs_data f) RAMDISK_ROOT_DIR) s;
  Ret (VFS_FS_OP_STATUS_OK, vnode, s).

Definition ramfs_statfs (this : word) (s : vfss) : outcome (Z * vfss) := Ret (VFS_FS_OP_STATUS_OK, s).
Definition ramfs_sync (this : word) (s : vfss) : outcome (Z * vfss) := Ret (VFS_FS_OP_STATUS_OK, s).
Definition ramfs_fid (this file : word) (s : vfss) : outcome (Z * vfss) := Ret (VFS_FS_OP_STATUS_OK, s).
Definition ramfs_vget (this : word) (s : vfss) : outcome (Z * word * vfss) := Ret (VFS_FS_OP_STATUS_OK, NULL, s).

(** ** vfs_vnode_ops *)

Definition ramfs_vn_open (this : word) (flags : Z) (s : vfss) : outcome (Z * vfss) := Ret (VFS_FS_OP_STATUS_OK, s).
Definition ramfs_vn_close (this : word) (flags : Z) (s : vfss) : outcome (Z * vfss) := Ret (VFS_FS_OP_STATUS_OK, s).

(** [memcpy] between a buffer and the contents of a file, which may be a null
    pointer. *)
Definition with_contents (p : word) (n : Z) (copy : Z -> mem -> mem) (m : mem) : outcome mem :=
  match p with
  | Ref a => Ret (copy a m)
  | Num a => if n =? 0 then Ret m else Fault "null contents"
  end.

Definition ramfs_vn_rdwr (this : word) (u : vfs_uio) (flags : Z) (s : vfss) : outcome (Z * vfs_uio * vfss) :=
  v ← load this (vs_vnodes s);
  s ← (if uio u =? UIO_READ then
         f ← load (v_data v) (vs_files s);
         m ← with_contents (rf_contents f) (uio_resid u) (fun c => memcpy (uio_buf u) c (uio_resid u)) (vs_mem s);
         Ret (set_vs_mem m s)
       else if uio u =? UIO_WRITE then
         '(c, h) ← kmalloc (uio_resid u) (vs_heap s);
         let s := set_vs_heap h s in
         fs ← store (v_data v) (set_contents (pointer c)) (vs_files s);
         let s := set_files fs s in
         m ← with_contents (pointer c) (uio_resid u) (fun c => memcpy c (uio_buf u) (uio_resid u)) (vs_mem s);
         Ret (set_vs_mem m s)
       else Panic "oof");
  Ret (VFS_FS_OP_STATUS_OK, set_resid 0 u, s).

(** The file of a directory with the name, from [file] on. *)
Fixpoint ramfs_search (fuel : nat) (file : word) (pathn len : Z) (s : vfss) : outcome word :=
  match fuel with
  | O => Fault "loop does not end"
  | S fuel =>
      match file with
      | Num _ => Ret NULL
      | Ref a =>
          f ← load file (vs_files s);
          if (rf_name_len f =? len) && (strncmp pathn (a + FILE_NAME) len (vs_mem s) =? 0) then Ret file
          else ramfs_search fuel (rf_next f) pathn len s
      end
  end.

(** The cast between the two enumerations: 0 and 1. *)
Definition vnode_type_of (t : ramdisk_file_type) : vfs_vnode_type :=
  match t with RAMD_DIR => VFS_VN_NON | RAMD_FILE => VFS_VN_REG end.

(** The status, [*result], which is only set on success, and the state. *)
Definition ramfs_vn_lookup (dir : word) (pathn len : Z) (s : vfss) : outcome (Z * option word * vfss) :=
  v ← load dir (vs_vnodes s);
  d ← load (v_data v) (vs_files s);
  if decide (rf_type d = RAMD_DIR) then
    file ← ramfs_search (S (size (vs_files s))) (rf_first_subdir d) pathn len s;
    if nonnull file then
      f ← load file (vs_files s);
      '(vnode, s) ← vfs_vnode_alloc (v_vfsp v) 0 (v_op v) (vnode_type_of (rf_type f)) file s;
      Ret (VFS_FS_OP_STATUS_OK, Some vnode, s)
    else Ret (VFS_FS_OP_STATUS_ENOENT, None, s)
  else Ret (VFS_FS_OP_STATUS_INVALID_ARGS, None, s).

Definition ramfs_file_type (t : vfs_vnode_type) : option ramdisk_file_type :=
  match t with VFS_VN_DIR => Some RAMD_DIR | VFS_VN_REG => Some RAMD_FILE | _ => None end.

(** The new file becomes the first of the directory. *)
Definition ramfs_link (dir new : word) (s : vfss) : outcome vfss :=
  fs ← store new (set_rf_prev NULL) (vs_files s);
  d ← load dir fs;
  fs ← store new (set_rf_next (rf_first_subdir d)) fs;
  d ← load dir fs;
  fs ← (if nonnull (rf_first_subdir d) then store (rf_first_subdir d) (set_rf_prev new) fs else Ret fs);
  fs ← store dir (set_first_subdir new) fs;
  Ret (set_files fs s).

Definition ramfs_vn_create (dir : word) (filen len : Z) (attribs : vfs_vattr) (s : vfss) : outcome (Z * option word * vfss) :=
  v ← load dir (vs_vnodes s);
  match ramfs_file_type (va_type attribs) with
  | None => Ret (VFS_FS_OP_STATUS_INVALID_ARGS, None, s)
  | Some t =>
      '(new, s) ← rd_create_file (v_data v) t filen len s;
      s ← ramfs_link (v_data v) new s;
      fs ← load (v_vfsp v) (vs_fss s);
      '(vnode, s) ← vfs_vnode_alloc (v_vfsp v) 0 (field (vfs_data fs) RAMDISK_VNODEOPS) (va_type attribs) new s;
      Ret (if nonnull vnode then VFS_FS_OP_STATUS_OK else VFS_FS_OP_STATUS_INVALID_ARGS, Some vnode, s)
  end.

(** ** Calls through the tables *)

Definition fs_ops_of (fs : word) (s : vfss) : outcome vfs_fs_ops :=
  f ← load fs (vs_fss s);
  load (vfs_op f) (vs_fsops s).
Definition vn_ops_of (vn : word) (s : vfss) : outcome vfs_vnode_ops :=
  v ← load vn (vs_vnodes s);
  load (v_op v) (vs_vnops s).

Definition call_mount (fs fs_specific : word) (s : vfss) : outcome (Z * vfss) :=
  o ← fs_ops_of fs s;
  f ← fn (fo_mount o);
  match f with Ramfs_mount => ramfs_mount fs fs_specific s | _ => Fault "function of another type" end.
Definition call_unmount (fs : word) (s : vfss) : outcome (Z * vfss) :=
  o ← fs_ops_of fs s;
  f ← fn (fo_unmount o);
  match f with Ramfs_unmount => ramfs_unmount fs s | _ => Fault "function of another type" end.
Definition call_root (fs : word) (s : vfss) : outcome (Z * word * vfss) :=
  o ← fs_ops_of fs s;
  f ← fn (fo_root o);
  match f with Ramfs_root => ramfs_root fs s | _ => Fault "function of another type" end.
Definition call_rdwr (vn : word) (u : vfs_uio) (flags : Z) (s : vfss) : outcome (Z * vfs_uio * vfss) :=
  o ← vn_ops_of vn s;
  f ← fn (vo_rdwr o);
  match f with Ramfs_vn_rdwr => ramfs_vn_rdwr vn u flags s | _ => Fault "function of another type" end.
Definition call_lookup (vn : word) (pathn len : Z) (s : vfss) : outcome (Z * option word * vfss) :=
  o ← vn_ops_of vn s;
  f ← fn (vo_lookup o);
  match f with Ramfs_vn_lookup => ramfs_vn_lookup vn pathn len s | _ => Fault "function of another type" end.
Definition call_create (vn : word) (filen len : Z) (attribs : vfs_vattr) (s : vfss) : outcome (Z * option word * vfss) :=
  o ← vn_ops_of vn s;
  f ← fn (vo_create o);
  match f with Ramfs_vn_create => ramfs_vn_create vn filen len attribs s | _ => Fault "function of another type" end.

End Ramfs.
End Ramfs.
