(* ===== verification/Vfs.v ===== *)
(** * The virtual file system (kernel/src/fs/vfs.c)

    Path lookup through the path name cache, mount points and the file
    systems; mounting, creating, reading and writing files; the sequence of
    calls [vfs_init] starts with.  What the functions print is left out.
    [fuel] bounds the strings, which the C code reads to their end. *)

From stdpp Require Import gmap.
From S2P Require Import Prelude Mem CString FrameHdr FrameAlloc PageIface Slab Pathn Pnc VfsBase Ramfs.

Module Vfs.
Import Mem CString FrameHdr FrameAlloc PageIface Slab Pathn Pnc VfsBase Ramfs.

Section Vfs.
Context {PA : PageAllocator} (sentinel : Z) (fuel : nat).

(** [while (root->vfs_next && root)] *)
Fixpoint vfs_free_filesystem_list (n : nat) (root : word) (s : vfss) : outcome vfss :=
  match n with
  | O => Fault "loop does not end"
  | S n =>
      f ← load root (vs_fss s);
      if nonnull (vfs_next f) && nonnull root then
        '(_, s) ← call_unmount root s;
        f ← load root (vs_fss s);
        vfs_free_filesystem_list n (vfs_next f) s
      else Ret s
  end.

(** [hnd.cache_entry->vnode] and [*hnd.cache_entry->vnode]. *)
Definition vnode_of (p : word) (s : vfss) : outcome word :=
  e ← load p (pc_entries (vs_pnc s));
  Ret (pe_vnode e).
Definition vnode_at (p : word) (s : vfss) : outcome vfs_vnode :=
  vn ← vnode_of p s;
  load vn (vs_vnodes s).

(** Down to the file system mounted last. *)
Fixpoint follow_mounts (n : nat) (current : file_handle) (s : vfss) : outcome file_handle :=
  match n with
  | O => Fault "loop does not end"
  | S n =>
      v ← vnode_at (cache_entry current) s;
      let fs := v_vfs_mounted_here v in
      if nonnull fs then
        f ← load fs (vs_fss s);
        follow_mounts n (mk_handle (vfs_root_pnc f) fs) s
      else Ret current
  end.
Definition through_mounts (current : file_handle) (s : vfss) : outcome file_handle :=
  follow_mounts (S (size (vs_fss s))) current s.

(** One section: the handle it leads to, or the status the file system gave. *)
Definition lookup_section (last : file_handle) (section len : Z) (s : vfss) : outcome ((Z + file_handle) * vfss) :=
  e ← pnc_lookup_section sentinel (cache_entry last) section len (vs_pnc s);
  if nonnull e then
    v ← vnode_at e s;
    Ret (inr (mk_handle e (v_vfsp v)), s)
  else
    dvn ← vnode_of (cache_entry last) s;
    '(state, vn, s) ← call_lookup dvn section len s;
    if state =? 0 then
      vn ← of_option "use of an uninitialized pointer" vn;
      '(e, pc) ← pnc_add_section sentinel vn (cache_entry last) section len (vs_pnc s);
      let s := set_pnc pc s in
      v ← load vn (vs_vnodes s);
      Ret (inr (mk_handle e (v_vfsp v)), s)
    else Ret (inl state, s).

Fixpoint lookup_loop (n : nat) (section len : Z) (current : file_handle) (s : vfss) : outcome ((Z + file_handle) * vfss) :=
  match n with
  | O => Fault "loop does not end"
  | S n =>
      '(section, len) ← split_path fuel (section + len) len (vs_mem s);
      if section =? 0 then Ret (inr current, s)
      else
        last ← through_mounts current s;
        '(r, s) ← lookup_section last section len s;
        match r with
        | inl state => Ret (inl state, s)
        | inr current => lookup_loop n section len current s
        end
  end.

(** The status, [*out], which had the value [out], and the state. *)
Definition vfs_lookup (start : file_handle) (path : Z) (out : file_handle) (s : vfss) : outcome (Z * file_handle * vfss) :=
  current ←
    (if rd (vs_mem s) path =? SEPERATOR then
       f ← load (vs_root s) (vs_fss s);
       Ret (mk_handle (vfs_root_pnc f) (vs_root s))
     else if nonnull (cache_entry start) && nonnull (hnd_fs start) then Ret start
     else Panic "assertion of start.cache_entry && start.fs failed");
  current ← through_mounts current s;
  '(r, s) ← lookup_loop (S fuel) path 0 current s;
  match r with
  | inl state => Ret (state, null_handle, s)
  | inr current =>
      n ← strlen fuel path (vs_mem s);
      if rd (vs_mem s) (path +! (n -! 1)) =? SEPERATOR then
        v ← vnode_at (cache_entry current) s;
        if decide (v_type v = VFS_VN_DIR) then Ret (VFS_FS_OP_STATUS_OK, current, s)
        else Ret (VFS_FS_OP_STATUS_ENOENT, out, s)
      else Ret (VFS_FS_OP_STATUS_OK, current, s)
  end.

(** The literal ["/"] of the two mount functions is at [slash]. *)
Definition vfs_mount_root (slash : Z) (fs fs_specific : word) (s : vfss) : outcome (Z * vfss) :=
  if nonnull (vs_root s) then Panic "root file system is already mounted"
  else
    '(state, s) ← call_mount fs fs_specific s;
    if state =? 0 then
      let s := set_root_fs fs s in
      '(_, vn, s) ← call_root fs s;
      '(e, pc) ← new_pnc_entry sentinel vn NULL slash 1 (pathn_hash slash 1 (vs_mem s)) (vs_pnc s);
      let s := set_pnc pc s in
      fss ← store fs (set_root_pnc e) (vs_fss s);
      Ret (VFS_FS_OP_STATUS_OK, set_fss fss s)
    else Ret (state, s).

Definition vfs_mount (slash : Z) (fs : word) (mountpoint : file_handle) (fs_specific : word) (s : vfss) : outcome (Z * vfss) :=
  invalid ← (if nonnull (vs_root s) then r ← load (vs_root s) (vs_fss s); Ret (negb (nonnull (vfs_root_pnc r))) else Ret true);
  if (invalid : bool) then Ret (VFS_FS_OP_STATUS_MOUNTPOINT_INVALID, s)
  else
    '(state, s) ← call_mount fs fs_specific s;
    if state =? 0 then
      mountnode ← vnode_of (cache_entry mountpoint) s;
      vns ← store mountnode (set_mounted fs) (vs_vnodes s);
      let s := set_vnodes vns s in
      fss ← store fs (set_covered (mk_handle (cache_entry mountpoint) fs)) (vs_fss s);
      let s := set_fss fss s in
      '(_, vn, s) ← call_root fs s;
      me ← load (cache_entry mountpoint) (pc_entries (vs_pnc s));
      '(e, pc) ← new_pnc_entry sentinel vn NULL (pe_section me) (pe_name_len me) (pathn_hash slash 1 (vs_mem s)) (vs_pnc s);
      let s := set_pnc pc s in
      fss ← store fs (set_root_pnc e) (vs_fss s);
      Ret (VFS_FS_OP_STATUS_OK, set_fss fss s)
    else Ret (state, s).

Definition vfs_create (dir : file_handle) (path len : Z) (attribs : vfs_vattr) (out : file_handle) (s : vfss) :
    outcome (Z * file_handle * vfss) :=
  vn ← vnode_of (cache_entry dir) s;
  v ← load vn (vs_vnodes s);
  if decide (v_type v = VFS_VN_DIR) then
    '(state, out_vn, s) ← call_create vn path len attribs s;
    if state =? 0 then
      out_vn ← of_option "use of an uninitialized pointer" out_vn;
      '(e, pc) ← pnc_add_section sentinel out_vn (cache_entry dir) path len (vs_pnc s);
      let s := set_pnc pc s in
      ev ← vnode_at e s;
      Ret (VFS_FS_OP_STATUS_OK, mk_handle e (v_vfsp ev), s)
    else Ret (state, out, s)
  else Ret (VFS_FS_OP_STATUS_INVALID_ARGS, out, s).

Definition vfs_rdwr (file : file_handle) (u : vfs_uio) (flags : Z) (s : vfss) : outcome (Z * vfs_uio * vfss) :=
  vn ← vnode_of (cache_entry file) s;
  v ← load vn (vs_vnodes s);
  if decide (v_type v = VFS_VN_DIR) then Ret (VFS_FS_OP_STATUS_INVALID_ARGS, u, s)
  else call_rdwr vn u flags s.

(** ** vfs_init *)

Definition kassert (b : bool) : outcome unit := if b then Ret tt else Panic "assertion failed".

(** The string literals are where [lit] says. *)
Section Init.
Context (lit : string -> Z).

(** [testfile] in the root, written and read again; up to the first [kfree]. *)
Definition init_testfile (s : vfss) : outcome (file_handle * vfss) :=
  '(state, dest, s) ← vfs_lookup null_handle (lit "/") null_handle s;
  _ ← kassert (state =? 0);
  '(state, out, s) ← vfs_create dest (lit "testfile") 8 (mk_vattr VFS_VN_REG) null_handle s;
  _ ← kassert (state =? 0);
  '(state, u, s) ← vfs_rdwr out (mk_uio (lit "Hello World") 12 0 UIO_WRITE) 0 s;
  _ ← kassert (state =? 0);
  '(buf, s) ← calloc 12 s;
  '(state, u, s) ← vfs_rdwr out (mk_uio buf 12 (uio_offset u) UIO_READ) 0 s;
  _ ← kassert (state =? 0);
  h ← kfree (uio_buf u) (vs_heap s);
  Ret (dest, set_vs_heap h s).

(** [testdir] with a file inside, up to the second read; the buffer is freed
    later. *)
Definition init_testdir (dest : file_handle) (s : vfss) : outcome (Z * vfss) :=
  '(state, out, s) ← vfs_create dest (lit "testdir") 7 (mk_vattr VFS_VN_DIR) null_handle s;
  _ ← kassert (state =? 0);
  '(state, dest, s) ← vfs_lookup null_handle (lit "/testdir") dest s;
  _ ← kassert (state =? 0);
  '(state, out, s) ← vfs_create dest (lit "fileinsidedir") 13 (mk_vattr VFS_VN_REG) out s;
  _ ← kassert (state =? 0);
  '(state, dest, s) ← vfs_lookup null_handle (lit "/testdir/fileinsidedir") dest s;
  _ ← kassert (state =? 0);
  '(state, u, s) ← vfs_rdwr dest (mk_uio (lit "Hello World2") 13 0 UIO_WRITE) 0 s;
  _ ← kassert (state =? 0);
  '(buf, s) ← calloc 13 s;
  '(state, u, s) ← vfs_rdwr dest (mk_uio buf 13 (uio_offset u) UIO_READ) 0 s;
  _ ← kassert (state =? 0);
  Ret (uio_buf u, s).

(** A deeper directory; no status is looked at. *)
Definition init_hohoho (s : vfss) : outcome vfss :=
  '(_, hnd, s) ← vfs_lookup null_handle (lit "/testdir") null_handle s;
  '(_, hnd, s) ← vfs_create hnd (lit "hohoho") 6 (mk_vattr VFS_VN_DIR) hnd s;
  '(_, hnd, s) ← vfs_create hnd (lit "file.c") 6 (mk_vattr VFS_VN_REG) hnd s;
  '(_, hnd, s) ← vfs_lookup null_handle (lit "/testdir/hohoho/file.c/") hnd s;
  Ret s.

(** A new ram file system mounted over the root, a file [name] in it, and two
    lookups. *)
Definition init_overmount (name : string) (len : Z) (path path' : string) (s : vfss) : outcome vfss :=
  '(rd, s) ← rd_new_ramdisk s;
  '(ramfs, s) ← ramfs_new_fs s;
  '(state, mountpoint, s) ← vfs_lookup null_handle (lit "/") null_handle s;
  _ ← kassert (state =? 0);
  '(state, s) ← vfs_mount (lit "/") ramfs mountpoint rd s;
  '(state, mountpoint, s) ← vfs_lookup null_handle (lit "/") mountpoint s;
  '(state, out, s) ← vfs_create mountpoint (lit name) len (mk_vattr VFS_VN_REG) null_handle s;
  '(state, mountpoint, s) ← vfs_lookup null_handle (lit path) mountpoint s;
  '(state, mountpoint, s) ← vfs_lookup null_handle (lit path') mountpoint s;
  Ret s.

Definition vfs_init (s : vfss) : outcome vfss :=
  '(rd_root, s) ← rd_new_ramdisk s;
  '(ramfs_root, s) ← ramfs_new_fs s;
  '(_, s) ← vfs_mount_root (lit "/") ramfs_root rd_root s;
  '(dest, s) ← init_testfile s;
  '(buf, s) ← init_testdir dest s;
  s ← init_hohoho s;
  h ← kfree buf (vs_heap s);
  let s := set_vs_heap h s in
  s ← init_overmount "testdir2" 8 "/testdir2" "/testfile" s;
  init_overmount "testdir12" 9 "/testdir12" "/testdir1" s.

End Init.
End Vfs.
End Vfs.
