(* ===== verification/VfsSpec.v ===== *)
(** * The virtual file system: mounts, files and handles

    [vfs_ok s M K F own L]: the path name cache stands for the map [M], every
    entry has a vnode, every vnode a file of the ram file system, and [K] has
    the files of every directory.  [topmost]: where the chain of mounts over
    a handle ends; [walk]: the handle a list of sections leads to. *)

From stdpp Require Import gmap functions.
From S2P Require Import Prelude Macros Dll Mem CString FrameHdr Blocks FrameAlloc BuddyRep BuddyProof PageIface Slab SlabRep SlabProof HeapSpec HeapFrame.
From S2P Require Import RbTree Pathn Pnc PncSpec PncTheorems VfsBase Ramfs Vfs.

Module VfsSpec.
Import Macros Mem CString FrameHdr Blocks FrameAlloc PageIface Slab SlabRep SlabProof HeapSpec HeapFrame Pathn Pnc PncSpec PncTheorems VfsBase Ramfs Vfs.

(** ** Mounts *)

Section Mounts.
Implicit Types (s : vfss) (h : file_handle).

(** [h] is a handle whose vnode has the file system [fs] mounted on it, or
    none. *)
Definition mounted s h (fs : word) : Prop := exists v, vnode_at (cache_entry h) s = Ret v /\ v_vfs_mounted_here v = fs.

(** From [h] through the file systems [l] to [h']. *)
Inductive topmost s : file_handle -> list Z -> file_handle -> Prop :=
  | topmost_here h w : mounted s h w -> nonnull w = false -> topmost s h [] h
  | topmost_over h a f l h' : mounted s h (Ref a) -> vs_fss s !! a = Some f ->
      topmost s (mk_handle (vfs_root_pnc f) (Ref a)) l h' -> topmost s h (a :: l) h'.

Lemma topmost_det s h l h1 l' h2 : topmost s h l h1 -> topmost s h l' h2 -> l = l' /\ h1 = h2.
Proof.
  intros H1. revert l' h2. induction H1 as [h w (v & Hv & Hw) Hn|h a f l h1 (v & Hv & Hm) Hf H1 IH]; intros l' h2 H2;
    inversion H2 as [? w' (v' & Hv' & Hw') Hn'|? a' f' l2 h3 (v' & Hv' & Hm') Hf' H3]; subst; try done;
    assert (v' = v) as -> by congruence.
  - by rewrite Hm' in Hn.
  - by rewrite Hm in Hn'.
  - assert (a' = a) as -> by congruence. assert (f' = f) as -> by congruence. by destruct (IH _ _ H3) as [-> ->].
Qed.

Lemma topmost_suffix s h l1 a l2 h' :
  topmost s h (l1 ++ a :: l2) h' -> exists f, vs_fss s !! a = Some f /\ topmost s (mk_handle (vfs_root_pnc f) (Ref a)) l2 h'.
Proof.
  revert h. induction l1 as [|b l1 IH]; intros h Ht; inversion Ht; subst; [by eexists|]. by eapply IH.
Qed.

(** A chain that ends visits no file system twice. *)
Lemma topmost_nodup s h l h' : topmost s h l h' -> NoDup l.
Proof.
  intros H. induction H as [|h a f l h' Hm Hf Ht IH]; constructor; [|done]. intros (l1 & l2 & ->)%list_elem_of_split.
  destruct (topmost_suffix _ _ _ _ _ _ Ht) as (f' & Hf' & Ht'). rewrite Hf in Hf'. injection Hf' as <-.
  destruct (topmost_det _ _ _ _ _ _ Ht Ht') as [Hl _]. apply (f_equal length) in Hl. rewrite length_app in Hl. simpl in Hl. lia.
Qed.

Lemma topmost_elem s h l h' a : topmost s h l h' -> a ∈ l -> is_Some (vs_fss s !! a).
Proof.
  intros Ht (l1 & l2 & ->)%list_elem_of_split. destruct (topmost_suffix _ _ _ _ _ _ Ht) as (f & ? & _). by exists f.
Qed.

Lemma follow_mounts_spec s n h l h' : topmost s h l h' -> (length l < n)%nat -> follow_mounts n h s = Ret h'.
Proof.
  intros Ht. revert n. induction Ht as [h w (v & Hv & Hw) Hn|h a f l h' (v & Hv & Hm) Hf Ht IH]; intros n Hl;
    (destruct n as [|n]; [simpl in Hl; lia|]); cbn [follow_mounts]; rewrite Hv; cbn [mbind outcome_bind].
  - by rewrite Hw, Hn.
  - rewrite Hm. cbn [nonnull load]. rewrite Hf. cbn [of_option mbind outcome_bind]. apply IH. simpl in Hl. lia.
Qed.

(** The loop has as many rounds as there are file systems: that is enough. *)
Lemma through_mounts_spec s h l h' : topmost s h l h' -> through_mounts h s = Ret h'.
Proof.
  intros Ht. eapply follow_mounts_spec; [done|]. pose proof (topmost_nodup _ _ _ _ Ht) as Hnd.
  rewrite <- (size_list_to_set (C := gset Z)) by done. apply Nat.lt_succ_r. rewrite <- size_dom. apply subseteq_size.
  intros a Ha%elem_of_list_to_set. apply elem_of_dom. by eapply topmost_elem.
Qed.

End Mounts.

(** ** Walking *)

(** The handle [ss] leads to from [h] when all sections are cached. *)
Inductive walk (s : vfss) (M : gmap (Z * list Z) Z) : file_handle -> list (list Z) -> file_handle -> Prop :=
  | walk_nil h : walk s M h [] h
  | walk_cons h l d fs nm ss a v h' : topmost s h l (mk_handle (Ref d) fs) -> M !! (d, nm) = Some a ->
      vnode_at (Ref a) s = Ret v -> walk s M (mk_handle (Ref a) (v_vfsp v)) ss h' -> walk s M h (nm :: ss) h'.

(** ** Files *)

#[global] Instance file_node : Node ramdisk_file.
Proof.
  refine {| nxt := rf_next; prv := rf_prev; set_nxt := set_rf_next; set_prv := set_rf_prev |}; by intros.
Defined.

Definition ramfs_table : vfs_vnode_ops :=
  mk_vn_ops (Some Ramfs_vn_open) (Some Ramfs_vn_close) (Some Ramfs_vn_rdwr) (Some Ramfs_vn_lookup) (Some Ramfs_vn_create).

(** A vnode of a directory has no type if [ramfs_vn_lookup] made it. *)
Definition type_ok (t : vfs_vnode_type) (r : ramdisk_file_type) : Prop :=
  match r with RAMD_DIR => t = VFS_VN_DIR \/ t = VFS_VN_NON | RAMD_FILE => t = VFS_VN_REG end.

(** A vnode of the ram file system for the file at [f]. *)
Record vnode_ok (s : vfss) (v : vfs_vnode) (f : Z) : Prop := {
  vn_ops : exists ops, v_op v = Ref ops /\ vs_vnops s !! ops = Some ramfs_table;
  vn_fs : exists fs fsr rd, v_vfsp v = Ref fs /\ vs_fss s !! fs = Some fsr /\ vfs_data fsr = Ref rd /\
    vs_vnops s !! (rd + RAMDISK_VNODEOPS) = Some ramfs_table;
  vn_data : v_data v = Ref f;
  vn_file : exists x, vs_files s !! f = Some x /\ type_ok (v_type v) (rf_type x)
}.

Definition file_name (m : mem) (y : Z) (x : ramdisk_file) : list Z := bytes m (y + FILE_NAME) (Z.to_nat (rf_name_len x)).
Definition has_name (s : vfss) (nm : list Z) (y : Z) : Prop := exists x, vs_files s !! y = Some x /\ file_name (vs_mem s) y x = nm.

(** A file, and the array with its name, is part of a live block. *)
Definition file_live (L : gmap Z Z) (f : Z) : Prop := exists b k, L !! b = Some k /\ b <= f /\ f + SIZEOF_FILE <= b + k.

(** ** What grows *)

(** Nothing a handle, a mount or a walk depends on went away. *)
Record grown (s s' : vfss) : Prop := {
  gr_vnode : forall p v, vnode_at p s = Ret v -> vnode_at p s' = Ret v;
  gr_fss : vs_fss s' = vs_fss s;
  gr_root : vs_root s' = vs_root s
}.

Lemma topmost_grown s s' h l h' : grown s s' -> topmost s h l h' -> topmost s' h l h'.
Proof.
  intros [Hv Hf _] Ht. induction Ht as [h w (v & Hvn & Hw) Hn|h a f l h' (v & Hvn & Hm) Hfs Ht IH].
  - apply (topmost_here _ _ w); [|done]. exists v. auto.
  - apply (topmost_over _ _ a f); [|by rewrite Hf|done]. exists v. auto.
Qed.

Lemma walk_grown s s' M M' h ss h' : grown s s' -> M ⊆ M' -> walk s M h ss h' -> walk s' M' h ss h'.
Proof.
  intros Hg Hsub Hw. induction Hw as [h|h l d fs nm ss a v h' Ht Hm Hv Hw IH]; [constructor|].
  eapply walk_cons; [by eapply topmost_grown|by eapply lookup_weaken|by apply (gr_vnode _ _ Hg)|done].
Qed.

Lemma walk_app s M h ss h' ss' h'' : walk s M h ss h' -> walk s M h' ss' h'' -> walk s M h (ss ++ ss') h''.
Proof. intros Hw Hw'. induction Hw; [done|]. simpl. by econstructor; eauto. Qed.

Lemma grown_alloc s vn v h : vs_vnodes s !! vn = None -> grown s (set_vnodes (<[vn := v]> (vs_vnodes s)) (set_vs_heap h s)).
Proof.
  intros Hn. split; [|done|done]. intros p v'. unfold vnode_at, vnode_of. cbn [set_vnodes set_vs_heap set_pnc vs_pnc set_pc_heap pc_entries vs_vnodes].
  destruct (load p (pc_entries (vs_pnc s))) as [e| |]; cbn [mbind outcome_bind]; try done. destruct (pe_vnode e) as [a|]; [|done].
  cbn [load]. destruct (decide (a = vn)) as [->|]; [by rewrite Hn|by rewrite lookup_insert_ne].
Qed.

Lemma grown_files s N : grown s (set_files N s).
Proof. by split. Qed.

Lemma grown_heap s h : grown s (set_vs_heap h s).
Proof. by split. Qed.

Lemma grown_add s pc a w :
  pe_vnode <$> pc_entries pc = <[a := w]> (pe_vnode <$> pc_entries (vs_pnc s)) -> pc_entries (vs_pnc s) !! a = None -> grown s (set_pnc pc s).
Proof.
  intros Hp Hn. split; [|done|done]. intros p v. unfold vnode_at, vnode_of. cbn [set_pnc vs_pnc vs_vnodes].
  destruct p as [b|]; [|done]. cbn [load]. destruct (pc_entries (vs_pnc s) !! b) as [e|] eqn:He; [|done].
  apply (f_equal (fun m => m !! b)) in Hp. rewrite lookup_fmap, lookup_insert_ne, lookup_fmap, He in Hp by congruence.
  destruct (pc_entries pc !! b) as [e'|]; [|done]. injection Hp as Hp. cbn [of_option mbind outcome_bind]. by rewrite Hp.
Qed.

Lemma grown_trans s1 s2 s3 : grown s1 s2 -> grown s2 s3 -> grown s1 s3.
Proof. intros [H1 H2 H3] [H4 H5 H6]. split; [auto|congruence|congruence]. Qed.

Section Ok.
Context {PA : PageAllocator} (sentinel : Z).

Record vfs_ok (s : vfss) (M : gmap (Z * list Z) Z) (K : Z -> list Z) (F : gset Z) (own : gmap Z owner) (L : gmap Z Z) : Prop := {
  vk_pnc : pnc_rep sentinel (vs_pnc s) M F own L;
  vk_entry : forall a e, pc_entries (vs_pnc s) !! a = Some e -> exists vn, pe_vnode e = Ref vn /\ is_Some (vs_vnodes s !! vn);
  vk_vnode : forall vn v, vs_vnodes s !! vn = Some v -> is_Some (L !! vn) /\ exists f, vnode_ok s v f;
  vk_fs : forall fs fr, vs_fss s !! fs = Some fr -> is_Some (L !! fs);
  vk_file : forall f x, vs_files s !! f = Some x -> file_live L f /\ 0 <= rf_name_len x < RAMDISK_MAX_FILENAME_LENGTH;
  vk_dir : forall f x, vs_files s !! f = Some x -> Dll.dll (vs_files s) (rf_first_subdir x) (K f);
  vk_apart : forall f f' y, is_Some (vs_files s !! f) -> is_Some (vs_files s !! f') -> y ∈ K f -> y ∈ K f' -> f = f'
}.

Lemma entry_vnode s M K F own L a :
  vfs_ok s M K F own L -> is_Some (pc_entries (vs_pnc s) !! a) ->
  exists vn v f, vnode_of (Ref a) s = Ret (Ref vn) /\ vs_vnodes s !! vn = Some v /\ vnode_at (Ref a) s = Ret v /\ vnode_ok s v f.
Proof.
  intros Hok [e He]. destruct (vk_entry _ _ _ _ _ _ Hok a e He) as (vn & Hvn & v & Hv).
  destruct (vk_vnode _ _ _ _ _ _ Hok vn v Hv) as (_ & f & Hf). exists vn, v, f.
  unfold vnode_at, vnode_of. cbn [load]. rewrite He. cbn [of_option mbind outcome_bind]. rewrite Hvn. cbn [load]. by rewrite Hv.
Qed.

(** ** Searching a directory *)

Lemma ramfs_search_spec s n p w l q len nm :
  0 <= len -> bytes (vs_mem s) q (Z.to_nat len) = nm -> good_name nm -> Dll.dseg (vs_files s) p w NULL l -> (length l < n)%nat ->
  (forall y x, vs_files s !! y = Some x -> 0 <= rf_name_len x) ->
  returns (ramfs_search n w q len s) (fun r =>
    (r = NULL /\ forall y, y ∈ l -> ~ has_name s nm y) \/ (exists y, r = Ref y /\ y ∈ l /\ has_name s nm y)).
Proof.
  intros Hl Hq Hg. revert n p w. induction l as [|y l IH]; intros n p w Hd Hn Hpos; (destruct n as [|n]; [simpl in Hn; lia|]); cbn [ramfs_search].
  - simpl in Hd. subst w. left. split; [done|]. intros y Hy. by apply not_elem_of_nil in Hy.
  - destruct Hd as (-> & x & Hx & _ & Hd). cbn [load]. rewrite Hx. cbn [of_option mbind outcome_bind]. rewrite (Z.eqb_sym (rf_name_len x)).
    rewrite (strncmp_name (vs_mem s) q len (y + FILE_NAME) (rf_name_len x) nm Hl Hq Hg) by (by eapply Hpos).
    destruct (bool_decide_reflect (bytes (vs_mem s) (y + FILE_NAME) (Z.to_nat (rf_name_len x)) = nm)) as [Hy|Hno].
    + right. exists y. split_and!; [done|left|by exists x].
    + eapply returns_mono; [eapply (IH n (Ref y)); [exact Hd|simpl in Hn; lia|done]|].
      intros r [[-> Hnone]|(z & -> & Hz & Hzn)]; [left|right; exists z; split_and!; [done|by right|done]].
      split; [done|]. intros z [->|Hz]%elem_of_cons; [|by apply Hnone]. intros (x' & Hx' & Hn'). assert (x' = x) as -> by congruence. by apply Hno.
Qed.

Lemma dir_size (N : gmap Z ramdisk_file) w l : Dll.dll N w l -> (length l < S (size N))%nat.
Proof.
  intros [Hd Hnd]. rewrite <- (size_list_to_set (C := gset Z)) by done. apply Nat.lt_succ_r. rewrite <- size_dom. apply subseteq_size.
  intros a Ha%elem_of_list_to_set. apply elem_of_dom. by eapply Dll.dseg_elem.
Qed.

(** ** Growing *)

Lemma calloc_later s F own L n size :
  heap_abs (vs_heap s) F own L -> 0 < size <= KMALLOC_MAX_CACHE_SIZE -> spare F (S n) ->
  returns (calloc size s) (fun '(a, s') => exists h' F' own' L', s' = set_vs_heap h' s /\ L' = <[a := capacity size]> L /\
    heap_abs h' F' own' L' /\ L !! a = None /\ size <= capacity size /\ later (vs_heap s) h' L L' /\ spare F' n /\
    forall x, a <= x < a + size -> rd (h_mem h') x = 0).
Proof.
  intros Ha Hs Hsp. unfold calloc. mcall (kcalloc_later _ _ _ _ n size Ha Hs Hsp).
  intros [a h] (F' & own' & L' & HL & Ha' & Hn & Hc & Hla & Hsp' & Hz). apply returns_ret. by exists h, F', own', L'.
Qed.

Lemma file_live_later h h' L L' f : later h h' L L' -> file_live L f -> file_live L' f.
Proof. intros Hla (b & k & Hb & ? & ?). exists b, k. split; [|done]. eapply lookup_weaken; [done|apply Hla]. Qed.

(** Allocations leave the names of the files alone. *)
Lemma file_name_later h h' L L' y x :
  later h h' L L' -> file_live L y -> 0 <= rf_name_len x < RAMDISK_MAX_FILENAME_LENGTH -> file_name (h_mem h') y x = file_name (h_mem h) y x.
Proof.
  intros Hla (b & k & Hb & Hlo & Hhi) Hn. apply bytes_ext. intros z Hz. apply (la_mem _ _ _ _ Hla b k z Hb).
  unfold FILE_NAME, SIZEOF_FILE, RAMDISK_MAX_FILENAME_LENGTH in *. lia.
Qed.

Lemma ok_heap s M K F own L h F' own' L' :
  vfs_ok s M K F own L -> heap_abs h F' own' L' -> later (vs_heap s) h L L' -> vfs_ok (set_vs_heap h s) M K F' own' L'.
Proof.
  intros Hok Ha Hla. pose proof (la_sub _ _ _ _ Hla) as Hsub. split; try apply Hok.
  - eapply pnc_rep_later; [apply Hok|done|done].
  - intros vn v Hv. destruct (vk_vnode _ _ _ _ _ _ Hok vn v Hv) as [[x Hx] [f [? ? ? ?]]]. split; [exists x; by eapply lookup_weaken|by exists f].
  - intros fs fr Hfs. destruct (vk_fs _ _ _ _ _ _ Hok fs fr Hfs) as [x Hx]. exists x. by eapply lookup_weaken.
  - intros f x Hx. destruct (vk_file _ _ _ _ _ _ Hok f x Hx) as [Hl ?]. split; [by eapply file_live_later|done].
Qed.

Lemma ok_vnode s M K F own L vn v f :
  vfs_ok s M K F own L -> vnode_ok s v f -> is_Some (L !! vn) -> vfs_ok (set_vnodes (<[vn := v]> (vs_vnodes s)) s) M K F own L.
Proof.
  intros Hok Hv Hl. split; try apply Hok.
  - intros a e He. destruct (vk_entry _ _ _ _ _ _ Hok a e He) as (vn' & Hvn & Hs). exists vn'. split; [done|].
    cbn [set_vnodes vs_vnodes]. rewrite lookup_insert_is_Some'. by right.
  - intros vn' v'. cbn [set_vnodes vs_vnodes]. intros [[<- <-]|[_ Hv']]%lookup_insert_Some.
    + split; [done|]. exists f. by destruct Hv.
    + destruct (vk_vnode _ _ _ _ _ _ Hok vn' v' Hv') as [? [f' [? ? ? ?]]]. split; [done|by exists f'].
Qed.

Lemma ok_add s M K F own L vn pc M' F' own' L' a :
  vfs_ok s M K F own L -> is_Some (vs_vnodes s !! vn) -> pnc_rep sentinel pc M' F' own' L' -> later (vs_heap s) (pc_heap pc) L L' ->
  pe_vnode <$> pc_entries pc = <[a := Ref vn]> (pe_vnode <$> pc_entries (vs_pnc s)) -> vfs_ok (set_pnc pc s) M' K F' own' L'.
Proof.
  intros Hok Hvn Hrep Hla Hv. pose proof (la_sub _ _ _ _ Hla) as Hsub. split; try apply Hok; [done|..].
  - intros b e He. cbn [set_pnc vs_pnc vs_vnodes] in He |- *. apply (f_equal (fun m => m !! b)) in Hv.
    rewrite lookup_fmap, He in Hv. simpl in Hv. symmetry in Hv. apply lookup_insert_Some in Hv as [[<- Hv]|[_ Hv]]; [by exists vn|].
    rewrite lookup_fmap in Hv. destruct (pc_entries (vs_pnc s) !! b) as [e'|] eqn:He'; [|done]. injection Hv as Hv. rewrite <- Hv.
    by apply (vk_entry _ _ _ _ _ _ Hok b e').
  - intros vn' v Hv'. destruct (vk_vnode _ _ _ _ _ _ Hok vn' v Hv') as [[x Hx] [f [? ? ? ?]]]. split; [exists x; by eapply lookup_weaken|by exists f].
  - intros fs fr Hfs. destruct (vk_fs _ _ _ _ _ _ Hok fs fr Hfs) as [x Hx]. exists x. by eapply lookup_weaken.
  - intros f x Hx. destruct (vk_file _ _ _ _ _ _ Hok f x Hx) as [Hl ?]. split; [by eapply file_live_later|done].
Qed.

(** ** A section the cache does not have *)

Lemma vnode_alloc_spec s M K F own L n owner flags ops type data f :
  vfs_ok s M K F own L -> vnode_ok s (mk_vnode type ops owner NULL flags 0 data) f -> spare F (S n) ->
  returns (vfs_vnode_alloc owner flags ops type data s) (fun '(w, s') => exists vn h' F' own' L', w = Ref vn /\
    s' = set_vnodes (<[vn := mk_vnode type ops owner NULL flags 0 data]> (vs_vnodes s)) (set_vs_heap h' s) /\
    vs_vnodes s !! vn = None /\ vfs_ok s' M K F' own' L' /\ later (vs_heap s) (vs_heap s') L L' /\ spare F' n).
Proof.
  intros Hok Hv Hsp. unfold vfs_vnode_alloc. pose proof (vk_pnc _ _ _ _ _ _ Hok) as (T & B & Hco & _).
  mcall (calloc_later s F own L n SIZEOF_VNODE (co_heap _ _ _ _ _ _ _ Hco) ltac:(done) Hsp).
  intros [vn s1] (h' & F' & own' & L' & -> & -> & Ha & Hn & _ & Hla & Hsp' & _). apply returns_ret.
  exists vn, h', F', own', (<[vn := capacity SIZEOF_VNODE]> L). split_and!; try done.
  - destruct (vs_vnodes s !! vn) as [v|] eqn:Hvn; [|done]. destruct (vk_vnode _ _ _ _ _ _ Hok vn v Hvn) as [[? ?] _]. congruence.
  - apply (ok_vnode (set_vs_heap h' s) M K F' own' _ vn _ f); [by eapply ok_heap|by destruct Hv|].
    rewrite lookup_insert_eq. by eexists.
Qed.

Lemma call_lookup_eq s vn v f q len :
  vs_vnodes s !! vn = Some v -> vnode_ok s v f -> call_lookup (Ref vn) q len s = ramfs_vn_lookup (Ref vn) q len s.
Proof.
  intros Hvn [(ops & Ho & Hops) _ _ _]. unfold call_lookup, vn_ops_of. cbn [load]. rewrite Hvn. cbn [of_option mbind outcome_bind].
  rewrite Ho. cbn [load]. by rewrite Hops.
Qed.

(** What [ramfs_vn_lookup] finds. *)
Lemma ramfs_vn_lookup_spec s M K F own L n vn v f x q len nm :
  vfs_ok s M K F own L -> vs_vnodes s !! vn = Some v -> vnode_ok s v f -> vs_files s !! f = Some x -> 0 <= len ->
  bytes (vs_mem s) q (Z.to_nat len) = nm -> good_name nm -> spare F (S n) ->
  returns (ramfs_vn_lookup (Ref vn) q len s) (fun '(state, r, s') =>
    match rf_type x with
    | RAMD_FILE => state = VFS_FS_OP_STATUS_INVALID_ARGS /\ s' = s
    | RAMD_DIR => (state = VFS_FS_OP_STATUS_ENOENT /\ s' = s /\ forall y, y ∈ K f -> ~ has_name s nm y) \/
        (exists y fy vn' v' h' F' own' L', y ∈ K f /\ vs_files s !! y = Some fy /\ file_name (vs_mem s) y fy = nm /\
           state = VFS_FS_OP_STATUS_OK /\ r = Some (Ref vn') /\
           v' = mk_vnode (vnode_type_of (rf_type fy)) (v_op v) (v_vfsp v) NULL 0 0 (Ref y) /\
           s' = set_vnodes (<[vn' := v']> (vs_vnodes s)) (set_vs_heap h' s) /\
           vfs_ok s' M K F' own' L' /\ later (vs_heap s) (vs_heap s') L L' /\ spare F' n)
    end).
Proof.
  intros Hok Hvn [Hops Hfs Hdat _] Hx Hl Hq Hg Hsp. unfold ramfs_vn_lookup. cbn [load]. rewrite Hvn. cbn [of_option mbind outcome_bind].
  rewrite Hdat. cbn [load]. rewrite Hx. cbn [of_option mbind outcome_bind].
  destruct (rf_type x) eqn:Hty; [rewrite decide_True by done|by rewrite decide_False].
  pose proof (vk_dir _ _ _ _ _ _ Hok f x Hx) as Hdll.
  mcall (ramfs_search_spec s _ _ _ _ q len nm Hl Hq Hg (proj1 Hdll) (dir_size _ _ _ Hdll));
    [intros y fy Hy; apply (vk_file _ _ _ _ _ _ Hok y fy Hy)|].
  intros r [[-> Hno]|(y & -> & Hy & fy & Hfy & Hnm)]; cbn [nonnull]; [by left|]. cbn [load]. rewrite Hfy. cbn [of_option mbind outcome_bind].
  mcall (vnode_alloc_spec s M K F own L n (v_vfsp v) 0 (v_op v) (vnode_type_of (rf_type fy)) (Ref y) y Hok).
  - split; [done|done|done|]. exists fy. split; [done|]. cbn [v_type]. destruct (rf_type fy); simpl; auto.
  - done.
  - intros [w s'] (vn' & h' & F' & own' & L' & -> & Hs' & _ & Hok' & Hla & Hsp'). apply returns_ret.
    right. eexists y, fy, vn', _, h', F', own', L'. by split_and!.
Qed.

Lemma insert_vnode_at s vn v a pc :
  pe_vnode <$> pc_entries pc = <[a := Ref vn]> (pe_vnode <$> pc_entries (vs_pnc s)) -> vs_vnodes s !! vn = Some v ->
  vnode_at (Ref a) (set_pnc pc s) = Ret v.
Proof.
  intros Hp Hv. apply (f_equal (fun m => m !! a)) in Hp. rewrite lookup_fmap, lookup_insert_eq in Hp.
  unfold vnode_at, vnode_of. cbn [load set_pnc vs_pnc vs_vnodes]. destruct (pc_entries pc !! a) as [e|]; [|done].
  injection Hp as Hp. cbn [of_option mbind outcome_bind]. rewrite Hp. cbn [load]. by rewrite Hv.
Qed.

Lemma lookup_section_uncached s M K F own L n d fs q len nm v f x :
  vfs_ok s M K F own L -> is_Some (pc_entries (vs_pnc s) !! d) -> M !! (d, nm) = None -> vnode_at (Ref d) s = Ret v ->
  vnode_ok s v f -> vs_files s !! f = Some x -> 0 <= len -> bytes (vs_mem s) q (Z.to_nat len) = nm -> good_name nm ->
  readable (vs_heap s) L q len -> spare F (S (S (S (S n)))) ->
  returns (lookup_section sentinel (mk_handle (Ref d) fs) q len s) (fun '(r, s') =>
    match rf_type x with
    | RAMD_FILE => r = inl VFS_FS_OP_STATUS_INVALID_ARGS /\ s' = s
    | RAMD_DIR => (r = inl VFS_FS_OP_STATUS_ENOENT /\ s' = s /\ forall y, y ∈ K f -> ~ has_name s nm y) \/
        (exists y fy a v' F' own' L', y ∈ K f /\ vs_files s !! y = Some fy /\ file_name (vs_mem s) y fy = nm /\
           r = inr (mk_handle (Ref a) (v_vfsp v)) /\ vfs_ok s' (<[(d, nm) := a]> M) K F' own' L' /\
           vnode_at (Ref a) s' = Ret v' /\ v_type v' = vnode_type_of (rf_type fy) /\ v_data v' = Ref y /\
           later (vs_heap s) (vs_heap s') L L' /\ spare F' n)
    end).
Proof.
  intros Hok Hd Hm Hv Hvok Hx Hl Hq Hg Hr Hsp. unfold lookup_section. cbn [cache_entry].
  rewrite (pnc_find_spec sentinel (vs_pnc s) M F own L d q len nm (vk_pnc _ _ _ _ _ _ Hok) Hd Hl Hq Hg). cbn [mbind outcome_bind].
  rewrite Hm. cbn [from_option nonnull]. destruct (entry_vnode _ _ _ _ _ _ _ Hok Hd) as (vn & v0 & f0 & Hvn & Hv0 & Hv' & _).
  assert (v0 = v) as -> by congruence. rewrite Hvn. cbn [mbind outcome_bind]. rewrite (call_lookup_eq _ _ _ _ _ _ Hv0 Hvok).
  mcall (ramfs_vn_lookup_spec s M K F own L (S (S (S n))) vn v f x q len nm Hok Hv0 Hvok Hx Hl Hq Hg Hsp).
  intros [[state r] s1]. destruct (rf_type x); [|by intros [-> ->]].
  intros [(-> & -> & Hno)|(y & fy & vn' & v' & h' & F1 & own1 & L1 & Hy & Hfy & Hnm & -> & -> & Hv1 & Hs1 & Hok1 & Hla & Hsp1)]; [by left|].
  change (VFS_FS_OP_STATUS_OK =? 0) with true. cbn [of_option mbind outcome_bind].
  assert (vs_pnc s1 = set_pc_heap (vs_heap s1) (vs_pnc s)) as Hpc by (by rewrite Hs1).
  assert (vs_vnodes s1 !! vn' = Some v') as Hv2 by (rewrite Hs1; cbn [set_vnodes vs_vnodes]; apply lookup_insert_eq).
  mcall (pnc_add_spec sentinel (vs_pnc s1) M F1 own1 L1 n (Ref vn') d q len nm (vk_pnc _ _ _ _ _ _ Hok1)); try done.
  - by rewrite Hpc.
  - by eapply readable_later.
  - rewrite <- Hq. apply bytes_ext. intros z Hz. apply (later_rd _ _ _ _ q len z Hla Hr). lia.
  - intros [w pc]. rewrite Hm. intros (a & F' & own' & L' & -> & Hfresh & Hrep & Hvs & Hla' & Hsp').
    cbn [load set_pnc vs_vnodes]. rewrite Hv2. cbn [of_option mbind outcome_bind]. apply returns_ret. right.
    exists y, fy, a, v', F', own', L'. split_and!; try done; [by rewrite Hv1|..].
    + eapply ok_add; [exact Hok1|by eexists|done|done|done].
    + by eapply insert_vnode_at.
    + by rewrite Hv1.
    + by rewrite Hv1.
    + by eapply later_trans.
Qed.

(** ** Creating a file *)

Lemma fresh_file s M K F own L a k F' own' h y :
  vfs_ok s M K F own L -> heap_abs h F' own' (<[a := k]> L) -> L !! a = None -> a <= y -> y + SIZEOF_FILE <= a + k -> vs_files s !! y = None.
Proof.
  intros Hok Ha Hn Hlo Hhi. destruct (vs_files s !! y) as [x|] eqn:Hx; [|done]. exfalso.
  destruct (vk_file _ _ _ _ _ _ Hok y x Hx) as [(b & n & Hb & Hlo' & Hhi') _]. assert (b <> a) by congruence.
  destruct (abs_apart h F' own' _ a k b n Ha); [apply lookup_insert_eq|by rewrite lookup_insert_ne|done|..]; unfold SIZEOF_FILE in *; lia.
Qed.

Lemma rd_create_file_spec s M K F own L n d x type q len nm :
  vfs_ok s M K F own L -> vs_files s !! d = Some x -> rf_type x = RAMD_DIR -> 0 <= len < RAMDISK_MAX_FILENAME_LENGTH ->
  bytes (vs_mem s) q (Z.to_nat len) = nm -> good_name nm -> readable (vs_heap s) L q len -> spare F (S n) ->
  returns (rd_create_file (Ref d) type q len s) (fun '(w, s') => exists y fy h' F' own' L', w = Ref y /\
    s' = set_files (<[y := fy]> (vs_files s)) (set_vs_heap h' s) /\
    fy = mk_file NULL NULL type (vs_time s) (vs_time s) (vs_time s) (vs_time s) len NULL NULL /\
    vs_files s !! y = None /\ file_live L' y /\ file_name (h_mem h') y fy = nm /\
    heap_abs h' F' own' L' /\ later (vs_heap s) h' L L' /\ spare F' n).
Proof.
  intros Hok Hx Hty Hl Hq Hg Hr Hsp. unfold rd_create_file. cbn [load]. rewrite Hx. cbn [of_option mbind outcome_bind].
  rewrite decide_True by done. pose proof (vk_pnc _ _ _ _ _ _ Hok) as (T & B & Hco & _).
  mcall (calloc_later s F own L n SIZEOF_FILE (co_heap _ _ _ _ _ _ _ Hco) ltac:(done) Hsp).
  intros [y s1] (h1 & F1 & own1 & L1 & -> & -> & Ha & Hn & Hc & Hla & Hsp' & _).
  change (vs_mem (set_vs_heap h1 s)) with (h_mem h1). unfold pathn_buffer_n. unfold RAMDISK_MAX_FILENAME_LENGTH in Hl.
  assert (MIN len 255 = len) as -> by (unfold MIN; destruct (Z.ltb_spec len 255); lia).
  assert (bytes (h_mem h1) q (Z.to_nat len) = nm) as Hq1.
  { rewrite <- Hq. apply bytes_ext. intros z Hz. apply (later_rd _ _ _ _ q len z Hla Hr). lia. }
  unfold SIZEOF_FILE in *. set (m0 := h_mem h1) in *.
  destruct (strncpy_name (y + FILE_NAME) q len m0) as (m1 & -> & Hm1 & Hf1); [lia|by rewrite Hq1; apply Hg| |].
  { unfold FILE_NAME. eapply readable_apart; [done|done|apply (readable_done _ _ _ _ _ (la_done _ _ _ _ Hla) Hr)|lia..]. }
  rewrite (proj2 (Z.ltb_lt _ _)) by (unfold MAX_SECTION_LENGTH; lia). cbn [mbind outcome_bind]. set (m2 := wr m1 (y + FILE_NAME + len) 0).
  assert (forall z, ~ (y <= z < y + capacity 336) -> rd m2 z = rd m0 z) as Hm2.
  { intros z Hz. unfold m2, FILE_NAME in *. rewrite rd_wr, decide_False by lia. apply Hf1. lia. }
  destruct (write_later h1 F1 own1 L y (capacity 336) m2 Ha Hn Hm2) as [Ha2 Hla2]. apply returns_ret.
  eexists y, _, (set_mem m2 h1), F1, own1, (<[y := capacity 336]> L). split_and!; try done.
  - eapply fresh_file; [done|done|done|lia|unfold SIZEOF_FILE; lia].
  - exists y, (capacity 336). rewrite lookup_insert_eq. unfold SIZEOF_FILE. split; [done|lia].
  - unfold file_name. cbn [rf_name_len set_mem h_mem]. rewrite <- Hq1, <- Hm1. apply bytes_ext. intros z Hz. unfold m2.
    by rewrite rd_wr, decide_False by lia.
  - by eapply later_mid.
Qed.

(** The lists change; what else there is in the files stays. *)
Lemma ok_files s M K F own L N K' :
  vfs_ok s M K F own L ->
  (forall f x, vs_files s !! f = Some x -> exists x', N !! f = Some x' /\ rf_type x' = rf_type x) ->
  (forall f x', N !! f = Some x' -> file_live L f /\ 0 <= rf_name_len x' < RAMDISK_MAX_FILENAME_LENGTH) ->
  (forall f x', N !! f = Some x' -> Dll.dll N (rf_first_subdir x') (K' f)) ->
  (forall f f' y, is_Some (N !! f) -> is_Some (N !! f') -> y ∈ K' f -> y ∈ K' f' -> f = f') ->
  vfs_ok (set_files N s) M K' F own L.
Proof.
  intros Hok Hty Hfile Hdir Hap. split; try apply Hok; try done.
  intros vn v Hv. destruct (vk_vnode _ _ _ _ _ _ Hok vn v Hv) as [? [f [? ? ? (x & Hx & Ht)]]]. split; [done|].
  exists f. split; try done. destruct (Hty f x Hx) as (x' & Hx' & Htx). exists x'. by rewrite Htx.
Qed.

(** The contents of a file are none of the directories' business. *)
Lemma ok_contents s M K F own L f x c :
  vfs_ok s M K F own L -> vs_files s !! f = Some x -> vfs_ok (set_files (<[f := set_contents c x]> (vs_files s)) s) M K F own L.
Proof.
  intros Hok Hx.
  assert (forall g x', <[f := set_contents c x]> (vs_files s) !! g = Some x' -> exists xg, vs_files s !! g = Some xg /\
    rf_type x' = rf_type xg /\ rf_name_len x' = rf_name_len xg /\ rf_first_subdir x' = rf_first_subdir xg) as Hback.
  { intros g x' [[<- <-]|[_ Hg]]%lookup_insert_Some; [by exists x|by exists x']. }
  eapply ok_files; [done|..].
  - intros g xg Hg. destruct (decide (g = f)) as [->|]; [rewrite lookup_insert_eq|rewrite lookup_insert_ne by done]; eexists; split; try done.
    by assert (xg = x) as -> by congruence.
  - intros g x' Hg. destruct (Hback g x' Hg) as (xg & Hxg & _ & -> & _). by apply (vk_file _ _ _ _ _ _ Hok).
  - intros g x' Hg. destruct (Hback g x' Hg) as (xg & Hxg & _ & _ & ->). apply (Dll.dll_insert_payload _ _ _ _ x); [done..|].
    by apply (vk_dir _ _ _ _ _ _ Hok).
  - intros g g' y [x' Hg] [x'' Hg']. destruct (Hback g x' Hg) as (xg & Hxg & _), (Hback g' x'' Hg') as (xg' & Hxg' & _).
    apply (vk_apart _ _ _ _ _ _ Hok); by eexists.
Qed.

Lemma member_file s M K F own L f y : vfs_ok s M K F own L -> is_Some (vs_files s !! f) -> y ∈ K f -> is_Some (vs_files s !! y).
Proof. intros Hok [x Hx]. eapply Dll.dll_elem, (vk_dir _ _ _ _ _ _ Hok f x Hx). Qed.

Lemma ok_new_file s M K F own L y fy :
  vfs_ok s M K F own L -> vs_files s !! y = None -> file_live L y -> 0 <= rf_name_len fy < RAMDISK_MAX_FILENAME_LENGTH ->
  rf_first_subdir fy = NULL -> vfs_ok (set_files (<[y := fy]> (vs_files s)) s) M (<[y := []]> K) F own L.
Proof.
  intros Hok Hy Hlive Hlen Hsub. eapply ok_files; [done|..].
  - intros f x Hx. exists x. rewrite lookup_insert_ne by congruence. done.
  - intros f x' [[<- <-]|[_ Hx]]%lookup_insert_Some; [done|]. by apply (vk_file _ _ _ _ _ _ Hok).
  - intros f x' [[<- <-]|[Hne Hx]]%lookup_insert_Some.
    + rewrite fn_lookup_insert, Hsub. split; [done|constructor].
    + rewrite fn_lookup_insert_ne by done. eapply Dll.dll_frame; [by apply (vk_dir _ _ _ _ _ _ Hok)|]. intros a Ha.
      destruct (member_file _ _ _ _ _ _ f a Hok) as [z Hz]; [by eexists|done|]. rewrite lookup_insert_ne by congruence. done.
  - intros f f' a Hf Hf' Ha Ha'. destruct (decide (f = y)) as [->|Hfy]; [by rewrite fn_lookup_insert in Ha; apply not_elem_of_nil in Ha|].
    destruct (decide (f' = y)) as [->|Hfy']; [by rewrite fn_lookup_insert in Ha'; apply not_elem_of_nil in Ha'|].
    rewrite fn_lookup_insert_ne in Ha, Ha' by done. rewrite lookup_insert_ne in Hf, Hf' by done. by eapply (vk_apart _ _ _ _ _ _ Hok).
Qed.

Lemma ramfs_link_spec s d x y l :
  vs_files s !! d = Some x -> is_Some (vs_files s !! y) -> d <> y -> Dll.dll (vs_files s) (rf_first_subdir x) l -> y ∉ l ->
  returns (ramfs_link (Ref d) (Ref y) s) (fun s' => exists N x0, N !! d = Some x0 /\
    s' = set_files (<[d := set_first_subdir (Ref y) x0]> N) s /\ Dll.dll N (Ref y) (y :: l) /\ Dll.relinked (vs_files s) N /\
    forall b, b ∉ y :: l -> N !! b = vs_files s !! b).
Proof.
  intros Hx [fy Hy] Hne Hdll Hni.
  destruct (returns_inv _ _ (Dll.list_link_spec _ _ _ y Hdll Hni ltac:(by eexists))) as ([hd N] & Heq & -> & HdN & Hrel & Hfr).
  assert (exists x0, N !! d = Some x0) as [x0 Hx0]. { destruct (Dll.relinked_lookup _ _ _ _ Hrel Hx) as (x0 & Hx0 & _). by exists x0. }
  assert (ramfs_link (Ref d) (Ref y) s = '(_, fs) ← Dll.list_link (Ref y) (rf_first_subdir x) (vs_files s);
    fs ← store (Ref d) (set_first_subdir (Ref y)) fs; Ret (set_files fs s)) as ->.
  { unfold ramfs_link, Dll.list_link. cbn [load store Dll.upd]. rewrite Hy. cbn [of_option mbind outcome_bind].
    rewrite !lookup_insert_eq. rewrite (lookup_insert_ne _ y d), Hx by congruence. cbn [of_option mbind outcome_bind].
    rewrite !(lookup_insert_ne _ y d), Hx by congruence. cbn [of_option mbind outcome_bind]. destruct (nonnull (rf_first_subdir x)); [|done].
    by destruct (rf_first_subdir x) as [a|]; [|done]; simpl; destruct (_ !! a). }
  rewrite Heq. cbn [mbind outcome_bind store]. rewrite Hx0. cbn [of_option mbind outcome_bind]. apply returns_ret. by exists N, x0.
Qed.

Lemma file_payload (x x' : ramdisk_file) : Dll.payload x' = Dll.payload x ->
  rf_type x' = rf_type x /\ rf_name_len x' = rf_name_len x /\ rf_first_subdir x' = rf_first_subdir x.
Proof. destruct x, x'. unfold Dll.payload. simpl. intros Heq. by simplify_eq. Qed.

Lemma ok_link s M K F own L d x y N x0 :
  vfs_ok s M K F own L -> vs_files s !! d = Some x -> is_Some (vs_files s !! y) -> d <> y ->
  (forall f, is_Some (vs_files s !! f) -> y ∉ K f) -> N !! d = Some x0 -> Dll.dll N (Ref y) (y :: K d) ->
  Dll.relinked (vs_files s) N -> (forall b, b ∉ y :: K d -> N !! b = vs_files s !! b) ->
  vfs_ok (set_files (<[d := set_first_subdir (Ref y) x0]> N) s) M (<[d := y :: K d]> K) F own L.
Proof.
  intros Hok Hx Hy Hne Hni Hx0 Hdll Hrel Hfr.
  assert (forall f x', <[d := set_first_subdir (Ref y) x0]> N !! f = Some x' -> exists xf, vs_files s !! f = Some xf /\
    rf_type x' = rf_type xf /\ rf_name_len x' = rf_name_len xf /\ (f <> d -> rf_first_subdir x' = rf_first_subdir xf)) as Hback.
  { symmetry in Hrel. intros f x' [[<- <-]|[Hfd Hx']]%lookup_insert_Some.
    - destruct (Dll.relinked_lookup _ _ _ _ Hrel Hx0) as (xf & Hxf & Hpay). exists xf. symmetry in Hpay. apply file_payload in Hpay as (? & ? & ?). done.
    - destruct (Dll.relinked_lookup _ _ _ _ Hrel Hx') as (xf & Hxf & Hpay). exists xf. symmetry in Hpay. apply file_payload in Hpay as (? & ? & ?). done. }
  assert (forall f, is_Some (<[d := set_first_subdir (Ref y) x0]> N !! f) -> is_Some (vs_files s !! f)) as Hdom.
  { intros f [x' Hx']. destruct (Hback f x' Hx') as (xf & ? & _). by exists xf. }
  eapply ok_files; [done|..].
  - intros f xf Hxf. destruct (Dll.relinked_lookup _ _ _ _ Hrel Hxf) as (x' & Hx' & (Ht & _ & _)%file_payload).
    destruct (decide (f = d)) as [->|Hfd]; [rewrite lookup_insert_eq|rewrite lookup_insert_ne by done]; eexists; split; try done.
    assert (x0 = x') as -> by congruence. done.
  - intros f x' Hx'. destruct (Hback f x' Hx') as (xf & Hxf & _ & -> & _). by apply (vk_file _ _ _ _ _ _ Hok).
  - intros f x' Hx'. destruct (Hback f x' Hx') as (xf & Hxf & _ & _ & Hsub). apply (Dll.dll_insert_payload _ _ _ _ x0); [done|done|done|].
    destruct (decide (f = d)) as [->|Hfd].
    + rewrite fn_lookup_insert. rewrite lookup_insert_eq in Hx'. injection Hx' as <-. done.
    + rewrite fn_lookup_insert_ne, Hsub by done. eapply Dll.dll_frame; [by apply (vk_dir _ _ _ _ _ _ Hok)|].
      intros a Ha. apply Hfr. intros [->|Had]%elem_of_cons; [by apply (Hni f); [eexists|]|].
      by destruct Hfd; eapply (vk_apart _ _ _ _ _ _ Hok f d a); [eexists|eexists|..].
  - intros f f' a Hf%Hdom Hf'%Hdom.
    assert (forall g, is_Some (vs_files s !! g) -> a ∈ (<[d := y :: K d]> K) g -> (a = y /\ g = d) \/ a ∈ K g) as Hmem.
    { intros g _. destruct (decide (g = d)) as [->|Hgd]; [rewrite fn_lookup_insert, elem_of_cons; naive_solver|].
      rewrite fn_lookup_insert_ne by done. by right. }
    intros [[-> ->]|Ha]%(Hmem f Hf) [[Ha' ->]|Ha']%(Hmem f' Hf'); [done|by destruct (Hni f' Hf')|subst; by destruct (Hni f Hf)|].
    by eapply (vk_apart _ _ _ _ _ _ Hok).
Qed.

Lemma call_create_eq s vn v f q len at_ :
  vs_vnodes s !! vn = Some v -> vnode_ok s v f -> call_create (Ref vn) q len at_ s = ramfs_vn_create (Ref vn) q len at_ s.
Proof.
  intros Hvn [(ops & Ho & Hops) _ _ _]. unfold call_create, vn_ops_of. cbn [load]. rewrite Hvn. cbn [of_option mbind outcome_bind].
  rewrite Ho. cbn [load]. by rewrite Hops.
Qed.

Lemma created_type t rt : ramfs_file_type t = Some rt -> type_ok t rt.
Proof. destruct t; intros [= <-]; simpl; auto. Qed.

Lemma ramfs_vn_create_spec s M K F own L n vn v f x q len nm t rt :
  vfs_ok s M K F own L -> vs_vnodes s !! vn = Some v -> vnode_ok s v f -> vs_files s !! f = Some x -> rf_type x = RAMD_DIR ->
  ramfs_file_type t = Some rt -> 0 <= len < RAMDISK_MAX_FILENAME_LENGTH ->
  bytes (vs_mem s) q (Z.to_nat len) = nm -> good_name nm -> readable (vs_heap s) L q len -> spare F (S (S n)) ->
  returns (ramfs_vn_create (Ref vn) q len (mk_vattr t) s) (fun '(state, r, s') => exists y vn' v' F' own' L',
    state = VFS_FS_OP_STATUS_OK /\ r = Some (Ref vn') /\ vs_vnodes s' !! vn' = Some v' /\ v_type v' = t /\ v_data v' = Ref y /\
    v_vfsp v' = v_vfsp v /\ v_vfs_mounted_here v' = NULL /\ vs_files s !! y = None /\ has_name s' nm y /\
    pc_entries (vs_pnc s') = pc_entries (vs_pnc s) /\ grown s s' /\
    vfs_ok s' M (<[f := y :: K f]> (<[y := []]> K)) F' own' L' /\ later (vs_heap s) (vs_heap s') L L' /\ spare F' n).
Proof.
  intros Hok Hvn [Hops (fs & fsr & rd & Hfs & Hfsr & Hrd & Htab) Hdat Hft] Hx Hty Ht Hl Hq Hg Hr Hsp. unfold ramfs_vn_create. cbn [load]. rewrite Hvn.
  cbn [of_option mbind outcome_bind va_type]. rewrite Ht, Hdat.
  mcall (rd_create_file_spec s M K F own L (S n) f x rt q len nm Hok Hx Hty Hl Hq Hg Hr Hsp).
  intros [w s1] (y & fy & h1 & F1 & own1 & L1 & -> & Hs1 & Hfy & Hy & Hlive & Hnm & Ha1 & Hla1 & Hsp1).
  assert (f <> y) as Hne by congruence.
  assert (vfs_ok s1 M (<[y := []]> K) F1 own1 L1) as Hok1.
  { rewrite Hs1. apply (ok_new_file (set_vs_heap h1 s)); [by eapply ok_heap|done|done|by rewrite Hfy|by rewrite Hfy]. }
  assert (vs_files s1 !! f = Some x) as Hx1 by (rewrite Hs1; cbn [set_files vs_files]; by rewrite lookup_insert_ne).
  assert (vs_files s1 !! y = Some fy) as Hy1 by (rewrite Hs1; cbn [set_files vs_files]; apply lookup_insert_eq).
  assert (forall g, is_Some (vs_files s1 !! g) -> y ∉ (<[y := []]> K) g) as Hni.
  { intros g Hg1 Hin. destruct (decide (g = y)) as [->|Hgy]; [rewrite fn_lookup_insert in Hin; by apply not_elem_of_nil in Hin|].
    rewrite fn_lookup_insert_ne in Hin by done. rewrite Hs1 in Hg1. cbn [set_files vs_files] in Hg1. rewrite lookup_insert_ne in Hg1 by done.
    destruct (member_file _ _ _ _ _ _ g y Hok Hg1 Hin). congruence. }
  assert ((<[y := []]> K) f = K f) as HKf by (by rewrite fn_lookup_insert_ne).
  pose proof (vk_dir _ _ _ _ _ _ Hok1 f x Hx1) as Hdll.
  mcall (ramfs_link_spec s1 f x y _ Hx1 ltac:(by eexists) Hne Hdll (Hni f ltac:(by eexists))).
  intros s2 (N & x0 & Hx0 & Hs2 & HdN & Hrel & Hfr).
  assert (vfs_ok s2 M (<[f := y :: K f]> (<[y := []]> K)) F1 own1 L1) as Hok2.
  { rewrite Hs2, <- HKf. by eapply ok_link. }
  assert (exists fy2, vs_files s2 !! y = Some fy2 /\ rf_type fy2 = rt /\ rf_name_len fy2 = len) as (fy2 & Hy2 & Hty2 & Hln2).
  { destruct (Dll.relinked_lookup _ _ _ _ Hrel Hy1) as (z & Hz & (Hzt & Hzn & _)%file_payload). exists z. rewrite Hs2. cbn [set_files vs_files].
    rewrite lookup_insert_ne by done. rewrite Hzt, Hzn, Hfy. done. }
  assert (vs_fss s2 = vs_fss s) as Hfss by (by rewrite Hs2, Hs1). assert (vs_vnops s2 = vs_vnops s) as Hvo by (by rewrite Hs2, Hs1).
  rewrite Hfs, Hfss. cbn [load]. rewrite Hfsr. cbn [of_option mbind outcome_bind]. rewrite Hrd. cbn [field].
  mcall (vnode_alloc_spec s2 M _ F1 own1 L1 n (Ref fs) 0 (Ref (rd + RAMDISK_VNODEOPS)) t (Ref y) y Hok2); [|done|].
  - split; cbn [v_op v_vfsp v_data v_type]; [by exists (rd + RAMDISK_VNODEOPS); rewrite Hvo|by exists fs, fsr, rd; rewrite Hfss, Hvo|done|].
    exists fy2. split; [done|]. rewrite Hty2. by apply created_type.
  - intros [w s3] (vn' & h3 & F3 & own3 & L3 & -> & Hs3 & Hfv & Hok3 & Hla3 & Hsp3). apply returns_ret. cbn [nonnull].
    assert (vs_heap s2 = h1) as Hh2 by (by rewrite Hs2, Hs1). rewrite Hh2 in Hla3.
    exists y, vn', (mk_vnode t (Ref (rd + RAMDISK_VNODEOPS)) (Ref fs) NULL 0 0 (Ref y)), F3, own3, L3. split_and!; try done.
    + rewrite Hs3. cbn [set_vnodes vs_vnodes]. apply lookup_insert_eq.
    + exists fy2. rewrite Hs3 at 1. split; [done|]. unfold file_name. rewrite Hln2.
      assert (len = rf_name_len fy) as -> by (by rewrite Hfy). change (file_name (vs_mem s3) y fy = nm).
      unfold vs_mem. rewrite (file_name_later _ _ _ _ y fy Hla3 Hlive); [done|by rewrite Hfy].
    + by rewrite Hs3, Hs2, Hs1.
    + eapply grown_trans; [|rewrite Hs3; by apply grown_alloc]. rewrite Hs2, Hs1. eapply grown_trans; [apply (grown_heap s h1)|].
      eapply grown_trans; apply grown_files.
    + by eapply later_trans.
Qed.

(** ** New file systems *)

Definition ramfs_fs_table : vfs_fs_ops :=
  mk_fs_ops (Some Ramfs_mount) (Some Ramfs_unmount) (Some Ramfs_root) (Some Ramfs_statfs) (Some Ramfs_sync) (Some Ramfs_fid) (Some Ramfs_vget).

Record disk_ok (s : vfss) (rd : Z) : Prop := {
  dk_disk : exists d, vs_disks s !! rd = Some d /\ device_signature d = RAMDISK_DEVICE_SIGNATURE;
  dk_table : vs_vnops s !! (rd + RAMDISK_VNODEOPS) = Some ramfs_table;
  dk_root : exists x, vs_files s !! (rd + RAMDISK_ROOT_DIR) = Some x /\ rf_type x = RAMD_DIR
}.
Definition fs_ok (s : vfss) (fs : Z) : Prop :=
  exists fr ops, vs_fss s !! fs = Some fr /\ vfs_op fr = Ref ops /\ vs_fsops s !! ops = Some ramfs_fs_table.

Lemma rd_new_ramdisk_spec s M K F own L n :
  vfs_ok s M K F own L -> spare F (S n) ->
  returns (rd_new_ramdisk s) (fun '(w, s') => exists rd F' own' L', w = Ref rd /\ disk_ok s' rd /\
    vfs_ok s' M (<[rd + RAMDISK_ROOT_DIR := []]> K) F' own' L' /\ grown s s' /\ later (vs_heap s) (vs_heap s') L L' /\ spare F' n /\
    pc_entries (vs_pnc s') = pc_entries (vs_pnc s) /\ pc_nodes (vs_pnc s') = pc_nodes (vs_pnc s) /\ vs_vnodes s' = vs_vnodes s).
Proof.
  intros Hok Hsp. unfold rd_new_ramdisk. pose proof (vk_pnc _ _ _ _ _ _ Hok) as (T & B & Hco & _).
  mcall (calloc_later s F own L n SIZEOF_RAMDISK (co_heap _ _ _ _ _ _ _ Hco) ltac:(done) Hsp).
  intros [rd s1] (h & F1 & own1 & L1 & -> & -> & Ha & Hn & Hc & Hla & Hsp' & _). apply returns_ret.
  exists rd, F1, own1, (<[rd := capacity SIZEOF_RAMDISK]> L). cbn [set_vs_heap set_pnc vs_time].
  set (y := rd + RAMDISK_ROOT_DIR) in *. set (fy := mk_file _ _ _ _ _ _ _ _ _ _).
  assert (rd <= y /\ y + SIZEOF_FILE <= rd + capacity SIZEOF_RAMDISK) as [Hlo Hhi].
  { unfold y, RAMDISK_ROOT_DIR, SIZEOF_FILE, SIZEOF_RAMDISK in *. lia. }
  assert (vfs_ok (set_files (<[y := fy]> (vs_files s)) (set_vs_heap h s)) M (<[y := []]> K) F1 own1 (<[rd := capacity SIZEOF_RAMDISK]> L)) as Hok1.
  { apply (ok_new_file (set_vs_heap h s)); [by eapply ok_heap| | |done|done].
    - by apply (fresh_file s M K F own L rd (capacity SIZEOF_RAMDISK) F1 own1 h y).
    - exists rd, (capacity SIZEOF_RAMDISK). by rewrite lookup_insert_eq. }
  split_and!; try done.
  - split; cbn; rewrite ?lookup_insert_eq; by eexists.
  - split; try apply Hok1. intros vn v Hv. destruct (vk_vnode _ _ _ _ _ _ Hok1 vn v Hv) as [? [f [(ops & Ho & Hops) (fs & fr & rd' & ? & ? & ? & Ht) ? ?]]].
    split; [done|]. exists f. split; try done; cbn.
    + exists ops. split; [done|]. apply lookup_insert_Some. destruct (decide (rd + RAMDISK_VNODEOPS = ops)); auto.
    + exists fs, fr, rd'. split_and!; try done. apply lookup_insert_Some. destruct (decide (rd + RAMDISK_VNODEOPS = rd' + RAMDISK_VNODEOPS)); auto.
Qed.

Lemma ok_new_fs s M K F own L fs fr o tab :
  vfs_ok s M K F own L -> vs_fss s !! fs = None -> is_Some (L !! fs) ->
  vfs_ok (set_fss (<[fs := fr]> (vs_fss s)) (set_fsops (<[o := tab]> (vs_fsops s)) s)) M K F own L.
Proof.
  intros Hok Hn Hl. split; try apply Hok.
  - intros vn v Hv. destruct (vk_vnode _ _ _ _ _ _ Hok vn v Hv) as [? [f [? (fs' & fr' & rd & ? & Hfs' & ? & ?) ? ?]]]. split; [done|]. exists f. split; try done.
    exists fs', fr', rd. split_and!; try done. cbn. rewrite lookup_insert_ne by congruence. done.
  - intros fs' fr'. cbn. intros [[<- <-]|[_ Hf]]%lookup_insert_Some; [done|]. by eapply (vk_fs _ _ _ _ _ _ Hok).
Qed.

Lemma ramfs_new_fs_spec s M K F own L n :
  vfs_ok s M K F own L -> spare F (S (S n)) ->
  returns (ramfs_new_fs s) (fun '(w, s') => exists fs fr F' own' L', w = Ref fs /\ fs_ok s' fs /\ vs_fss s !! fs = None /\
    vs_fss s' = <[fs := fr]> (vs_fss s) /\
    vfs_ok s' M K F' own' L' /\ later (vs_heap s) (vs_heap s') L L' /\ spare F' n /\ (forall rd, disk_ok s rd -> disk_ok s' rd) /\
    vs_pnc s' = set_pc_heap (vs_heap s') (vs_pnc s) /\ vs_vnodes s' = vs_vnodes s /\ vs_root s' = vs_root s).
Proof.
  intros Hok Hsp. unfold ramfs_new_fs. pose proof (vk_pnc _ _ _ _ _ _ Hok) as (T & B & Hco & _).
  mcall (calloc_later s F own L (S n) SIZEOF_FS (co_heap _ _ _ _ _ _ _ Hco) ltac:(done) Hsp).
  intros [fs s1] (h1 & F1 & own1 & L1 & -> & -> & Ha1 & Hn1 & _ & Hla1 & Hsp1 & _).
  mcall (calloc_later (set_vs_heap h1 s) F1 own1 _ n SIZEOF_FS_OPS Ha1 ltac:(done) Hsp1).
  intros [ops s2] (h2 & F2 & own2 & L2 & -> & -> & Ha2 & Hn2 & _ & Hla2 & Hsp2 & _). apply returns_ret.
  assert (vs_fss s !! fs = None) as Hfr.
  { destruct (vs_fss s !! fs) as [fr|] eqn:Hfs; [|done]. destruct (vk_fs _ _ _ _ _ _ Hok fs fr Hfs). congruence. }
  pose proof (later_trans _ _ _ _ _ _ Hla1 Hla2) as Hla.
  eexists fs, _, F2, own2, _. split_and!; try done.
  - eexists _, ops. cbn. rewrite !lookup_insert_eq. done.
  - apply (ok_new_fs (set_vs_heap h2 s)); [by eapply ok_heap|done|]. rewrite !lookup_insert_is_Some'. by right; left.
  - intros rd [? ? ?]. by split.
Qed.

End Ok.

Section Spec.
Context {PA : PageAllocator} (sentinel : Z).
Abbreviation pnc_rep := (pnc_rep sentinel).

Lemma entry_of_key s M F own L d nm a : pnc_rep s M F own L -> M !! (d, nm) = Some a -> is_Some (pc_entries s !! d) /\ is_Some (pc_entries s !! a).
Proof.
  intros (T & B & Hok & Hk) Hm. apply Hk in Hm as [Ht (l & e & _ & _ & He & _)].
  split; [by apply (co_dom _ _ _ _ _ _ _ Hok)|by eexists].
Qed.

Lemma key_good s M F own L d nm a : pnc_rep s M F own L -> M !! (d, nm) = Some a -> good_name nm.
Proof.
  intros (T & B & Hok & Hk) Hm. apply Hk in Hm as [Ht (l & e & _ & _ & He & <-)]. apply (eo_name _ _ _ _ (co_entry _ _ _ _ _ _ _ Hok a e He)).
Qed.

(** A cached section. *)
Lemma lookup_section_cached s M F own L d fs q len nm a v :
  pnc_rep (vs_pnc s) M F own L -> M !! (d, nm) = Some a -> vnode_at (Ref a) s = Ret v -> 0 <= len ->
  bytes (vs_mem s) q (Z.to_nat len) = nm ->
  lookup_section sentinel (mk_handle (Ref d) fs) q len s = Ret (inr (mk_handle (Ref a) (v_vfsp v)), s).
Proof.
  intros Hrep Hm Hv Hl Hq. unfold lookup_section. cbn [cache_entry].
  rewrite (pnc_find_spec sentinel (vs_pnc s) M F own L d q len nm); [|done|apply (entry_of_key _ _ _ _ _ _ _ _ Hrep Hm)|done|done|by eapply key_good].
  cbn [mbind outcome_bind]. rewrite Hm. cbn [from_option nonnull]. by rewrite Hv.
Qed.

End Spec.
End VfsSpec.
