(* ===== verification/VfsTheorems.v ===== *)
(** * The virtual file system: lookup, creation, reading and writing

    A path leads where its sections lead, through the mounts; a file that was
    created is found under its path; what was written is read again. *)

From stdpp Require Import gmap functions.
From S2P Require Import Prelude Macros Dll Mem CString FrameHdr Blocks FrameAlloc BuddyRep BuddyProof PageIface Slab SlabRep SlabProof HeapSpec HeapFrame.
From S2P Require Import BuddyTheorems HeapTheorems RbTree Pathn Pnc PncSpec PncTheorems VfsBase Ramfs Vfs VfsSpec.

Module VfsTheorems.
Import Macros Mem CString FrameHdr Blocks FrameAlloc PageIface Slab SlabRep SlabProof HeapSpec HeapFrame RbTree Pathn Pnc PncSpec PncTheorems VfsBase Ramfs Vfs VfsSpec.

Section Theorems.
Context {PA : PageAllocator} (sentinel : Z) (fuel : nat).
Abbreviation vfs_ok := (vfs_ok sentinel).

(** ** Creating *)

Lemma vfs_create_spec s M K F own L n d fs q len nm v f t rt out :
  vfs_ok s M K F own L -> is_Some (pc_entries (vs_pnc s) !! d) -> vnode_at (Ref d) s = Ret v -> vnode_ok s v f ->
  v_type v = VFS_VN_DIR -> ramfs_file_type t = Some rt -> M !! (d, nm) = None -> 0 <= len < RAMDISK_MAX_FILENAME_LENGTH ->
  bytes (vs_mem s) q (Z.to_nat len) = nm -> good_name nm -> readable (vs_heap s) L q len -> spare F (S (S (S (S (S n))))) ->
  returns (vfs_create sentinel (mk_handle (Ref d) fs) q len (mk_vattr t) out s) (fun '(state, h, s') => exists a y v' F' own' L',
    state = VFS_FS_OP_STATUS_OK /\ h = mk_handle (Ref a) (v_vfsp v) /\
    vnode_at (Ref a) s' = Ret v' /\ v_type v' = t /\ v_data v' = Ref y /\ v_vfsp v' = v_vfsp v /\ v_vfs_mounted_here v' = NULL /\
    vs_files s !! y = None /\ pc_entries (vs_pnc s) !! a = None /\ grown s s' /\
    vfs_ok s' (<[(d, nm) := a]> M) (<[f := y :: K f]> (<[y := []]> K)) F' own' L' /\ later (vs_heap s) (vs_heap s') L L' /\ spare F' n).
Proof.
  intros Hok Hd Hv Hvok Hty Ht Hm Hl Hq Hg Hr Hsp. unfold vfs_create. cbn [cache_entry].
  destruct (entry_vnode _ _ _ _ _ _ _ _ Hok Hd) as (vn & v0 & f0 & Hvn & Hv0 & Hv' & _). assert (v0 = v) as -> by congruence.
  rewrite Hvn. cbn [mbind outcome_bind load]. rewrite Hv0. cbn [of_option mbind outcome_bind]. rewrite decide_True by done.
  rewrite (call_create_eq _ _ _ _ _ _ _ Hv0 Hvok). pose proof (vn_file _ _ _ Hvok) as (x & Hx & Htx).
  assert (rf_type x = RAMD_DIR) as Hdir. { destruct (rf_type x); [done|]. simpl in Htx. congruence. }
  mcall (ramfs_vn_create_spec sentinel s M K F own L (S (S (S n))) vn v f x q len nm t rt Hok Hv0 Hvok Hx Hdir Ht Hl Hq Hg Hr Hsp).
  intros [[state r] s1] (y & vn' & v' & F1 & own1 & L1 & -> & -> & Hv1 & Hvt & Hvd & Hvf & Hvm & Hy & Hnm & Hpe & Hgr & Hok1 & Hla & Hsp1).
  change (VFS_FS_OP_STATUS_OK =? 0) with true. cbn [of_option mbind outcome_bind].
  mcall (pnc_add_spec sentinel (vs_pnc s1) M F1 own1 L1 n (Ref vn') d q len nm (vk_pnc _ _ _ _ _ _ _ Hok1)); try lia; try done.
  - by rewrite Hpe.
  - by eapply readable_later.
  - rewrite <- Hq. apply bytes_ext. intros z Hz. apply (later_rd _ _ _ _ q len z Hla Hr). lia.
  - intros [w pc]. rewrite Hm. intros (a & F' & own' & L' & -> & Hfresh & Hrep & Hvs & Hla' & Hsp').
    pose proof (insert_vnode_at s1 vn' v' a pc Hvs Hv1) as Hva. rewrite Hva. cbn [mbind outcome_bind]. apply returns_ret.
    exists a, y, v', F', own', L'. split_and!; try done; [by rewrite Hvf|by rewrite <- Hpe|..].
    + eapply grown_trans; [done|]. by eapply grown_add.
    + eapply ok_add; [exact Hok1|by eexists|done|done|done].
    + by eapply later_trans.
Qed.

(** ** Looking up *)

(** The sections [ss] are behind us, [str'] is what is left of the path. *)
Lemma lookup_loop_prefix s M F own L h ss h' :
  pnc_rep sentinel (vs_pnc s) M F own L -> walk s M h ss h' ->
  forall n q len str ss', sections str = ss ++ ss' -> cstr (vs_mem s) (q + len) str -> 0 < q + len ->
  q + len + Z.of_nat (length str) < 2 ^ 64 -> (length str <= fuel)%nat -> (length str < n)%nat ->
  exists n' q' len' str', sections str' = ss' /\ cstr (vs_mem s) (q' + len') str' /\ q + len <= q' + len' /\
    q' + len' + Z.of_nat (length str') = q + len + Z.of_nat (length str) /\ (length str' < n')%nat /\
    lookup_loop sentinel fuel n q len h s = lookup_loop sentinel fuel n' q' len' h' s.
Proof.
  intros Hrep Hw. induction Hw as [h|h lm d fs nm ss a v h' Htop Hm Hv Hw IH]; intros n q len str ss' Hss Hs Hq Hlen Hf Hn.
  { exists n, q, len, str. split_and!; try done; lia. }
  destruct n as [|n]; [lia|]. cbn [lookup_loop].
  destruct (split_path_spec fuel (q + len) len str _ Hs Hq Hlen Hf) as [[Hsec _]|(k & l & Hkl & Hl & Hsec & ->)];
    rewrite Hsec in Hss; [done|]. injection Hss as Hnm Hrest. cbn [mbind outcome_bind]. rewrite (proj2 (Z.eqb_neq _ _)) by lia.
  rewrite (through_mounts_spec _ _ _ _ Htop). cbn [mbind outcome_bind].
  rewrite (lookup_section_cached sentinel s M F own L d fs _ _ nm a v Hrep Hm Hv); [|lia|rewrite Nat2Z.id, <- Hnm; by apply cstr_bytes].
  cbn [mbind outcome_bind]. pose proof (cstr_drop _ _ _ _ Hs Hkl) as Hd. rewrite Nat2Z.inj_add, Z.add_assoc in Hd.
  assert (length (drop (k + l) str) = length str - (k + l))%nat as Hld by apply length_drop.
  destruct (IH n (q + len + Z.of_nat k) (Z.of_nat l) (drop (k + l) str) ss') as (n' & q' & len' & str' & ? & ? & ? & ? & ? & ?);
    [done|done|lia|rewrite Hld; lia..|]. exists n', q', len', str'. split_and!; try done; rewrite ?Hld in *; lia.
Qed.

(** No section is left. *)
Lemma lookup_loop_walk s M F own L h str h' p :
  pnc_rep sentinel (vs_pnc s) M F own L -> walk s M h (sections str) h' -> cstr (vs_mem s) p str -> 0 < p ->
  p + Z.of_nat (length str) < 2 ^ 64 -> (length str <= fuel)%nat -> lookup_loop sentinel fuel (S fuel) p 0 h s = Ret (inr h', s).
Proof.
  intros Hrep Hw Hs Hp Hlen Hf. destruct (lookup_loop_prefix _ _ _ _ _ _ _ _ Hrep Hw (S fuel) p 0 str []) as (n & q & len & str' & Hsec & Hs' & Hq & Heq & Hn & ->);
    rewrite ?app_nil_r, ?Z.add_0_r; try done; [lia|]. destruct n as [|n]; [lia|]. cbn [lookup_loop].
  destruct (split_path_spec fuel (q + len) len str' _ Hs') as [[_ [k ->]]|(k & l & _ & _ & Hsec' & _)]; [lia..|done|].
  by rewrite Hsec in Hsec'.
Qed.

(** Where a path starts: at the root file system, or at the given handle. *)
Definition base (s : vfss) (start : file_handle) (str : list Z) (h : file_handle) : Prop :=
  if decide (head str = Some SEPERATOR) then exists a f, vs_root s = Ref a /\ vs_fss s !! a = Some f /\ h = mk_handle (vfs_root_pnc f) (Ref a)
  else h = start /\ nonnull (cache_entry start) = true /\ nonnull (hnd_fs start) = true.

(** The path string at [p]. *)
Record path_at (s : vfss) (p : Z) (str : list Z) : Prop := {
  pa_str : cstr (vs_mem s) p str;
  pa_some : str <> [];
  pa_pos : 0 < p;
  pa_end : p + Z.of_nat (length str) < 2 ^ 64;
  pa_fuel : (length str <= fuel)%nat
}.

Lemma lookup_start s start p str h l h1 out :
  path_at s p str -> base s start str h -> topmost s h l h1 ->
  vfs_lookup sentinel fuel start p out s =
    '(r, s) ← lookup_loop sentinel fuel (S fuel) p 0 h1 s;
    match r with
    | inl state => Ret (state, null_handle, s)
    | inr current =>
        n ← strlen fuel p (vs_mem s);
        if rd (vs_mem s) (p +! (n -! 1)) =? SEPERATOR then
          v ← vnode_at (cache_entry current) s;
          if decide (v_type v = VFS_VN_DIR) then Ret (VFS_FS_OP_STATUS_OK, current, s)
          else Ret (VFS_FS_OP_STATUS_ENOENT, out, s)
        else Ret (VFS_FS_OP_STATUS_OK, current, s)
    end.
Proof.
  intros [Hs Hne _ _ _] Hb Ht. unfold vfs_lookup. destruct str as [|c str]; [done|]. destruct Hs as (_ & -> & _). unfold base in Hb. cbn [head] in Hb.
  destruct (decide (Some c = Some SEPERATOR)) as [[= ->]|Hc].
  - destruct Hb as (a & f & -> & Hf & ->). rewrite Z.eqb_refl. cbn [load]. rewrite Hf. cbn [of_option mbind outcome_bind].
    by rewrite (through_mounts_spec _ _ _ _ Ht).
  - destruct Hb as (-> & -> & ->). rewrite (proj2 (Z.eqb_neq _ _)) by congruence. cbn [andb mbind outcome_bind].
    by rewrite (through_mounts_spec _ _ _ _ Ht).
Qed.

Lemma last_char s p str : path_at s p str -> Some (rd (vs_mem s) (p +! (Z.of_nat (length str) -! 1))) = last str.
Proof.
  intros [Hs Hne Hp Hend _]. destruct (exists_last Hne) as (l & c & ->). rewrite length_app in *. simpl in *.
  rewrite last_snoc. f_equal. rewrite u64_small, u64_small by (rewrite ?u64_small; lia).
  pose proof (cstr_lookup _ _ _ (length l) Hs) as Hc. rewrite length_app in Hc. simpl in Hc.
  replace (p + (Z.of_nat (length l + 1) - 1)) with (p + Z.of_nat (length l)) by lia. rewrite Hc by lia.
  rewrite list_lookup_total_alt, lookup_app_l by (rewrite length_app; simpl; lia). by rewrite lookup_app_r, Nat.sub_diag by lia.
Qed.

(** All sections cached. *)
Lemma vfs_lookup_walk s M F own L start p str h l h1 h2 v out :
  pnc_rep sentinel (vs_pnc s) M F own L -> path_at s p str -> base s start str h -> topmost s h l h1 ->
  walk s M h1 (sections str) h2 -> vnode_at (cache_entry h2) s = Ret v ->
  vfs_lookup sentinel fuel start p out s =
    Ret (if decide (last str = Some SEPERATOR /\ v_type v <> VFS_VN_DIR) then (VFS_FS_OP_STATUS_ENOENT, out, s) else (VFS_FS_OP_STATUS_OK, h2, s)).
Proof.
  intros Hrep Hp Hb Ht Hw Hv. rewrite (lookup_start _ _ _ _ _ _ _ out Hp Hb Ht). pose proof Hp as [Hs _ Hpos Hend Hf].
  rewrite (lookup_loop_walk s M F own L h1 str h2 p) by done.
  cbn [mbind outcome_bind]. rewrite (strlen_spec fuel p str) by (done || lia). cbn [mbind outcome_bind].
  pose proof (last_char _ _ _ Hp) as Hl. rewrite <- Hl, Hv. cbn [mbind outcome_bind].
  destruct (Z.eqb_spec (rd (vs_mem s) (p +! (Z.of_nat (length str) -! 1))) SEPERATOR) as [->|Hne].
  - destruct (decide (v_type v = VFS_VN_DIR)); [rewrite decide_False by naive_solver|rewrite decide_True by done]; done.
  - rewrite decide_False; [done|]. intros [[=] _]. done.
Qed.

(** ** Missing files *)

(** The section [nm] is neither cached in [d] nor a file of its directory. *)
Definition missing (s : vfss) (M : gmap (Z * list Z) Z) (K : Z -> list Z) (d : Z) (nm : list Z) (state : Z) : Prop :=
  M !! (d, nm) = None /\ exists v f x, vnode_at (Ref d) s = Ret v /\ vnode_ok s v f /\ vs_files s !! f = Some x /\
    match rf_type x with
    | RAMD_DIR => state = VFS_FS_OP_STATUS_ENOENT /\ forall y, y ∈ K f -> ~ has_name s nm y
    | RAMD_FILE => state = VFS_FS_OP_STATUS_INVALID_ARGS
    end.

Lemma lookup_section_missing s M K F own L d fs q len nm state :
  vfs_ok s M K F own L -> is_Some (pc_entries (vs_pnc s) !! d) -> missing s M K d nm state -> 0 <= len ->
  bytes (vs_mem s) q (Z.to_nat len) = nm -> good_name nm ->
  lookup_section sentinel (mk_handle (Ref d) fs) q len s = Ret (inl state, s).
Proof.
  intros Hok Hd (Hm & v & f & x & Hv & Hvok & Hx & Hst) Hl Hq Hg. unfold lookup_section. cbn [cache_entry].
  rewrite (pnc_find_spec sentinel (vs_pnc s) M F own L d q len nm (vk_pnc _ _ _ _ _ _ _ Hok) Hd Hl Hq Hg). cbn [mbind outcome_bind].
  rewrite Hm. cbn [from_option nonnull]. destruct (entry_vnode _ _ _ _ _ _ _ _ Hok Hd) as (vn & v0 & f0 & Hvn & Hv0 & Hv' & _).
  assert (v0 = v) as -> by congruence. rewrite Hvn. cbn [mbind outcome_bind]. rewrite (call_lookup_eq _ _ _ _ _ _ Hv0 Hvok).
  unfold ramfs_vn_lookup. cbn [load]. rewrite Hv0. cbn [of_option mbind outcome_bind]. rewrite (vn_data _ _ _ Hvok). cbn [load]. rewrite Hx.
  cbn [of_option mbind outcome_bind]. destruct (rf_type x); [rewrite decide_True by done; destruct Hst as [-> Hno]|by rewrite decide_False, Hst].
  pose proof (vk_dir _ _ _ _ _ _ _ Hok f x Hx) as Hdll.
  pose proof (ramfs_search_spec s _ _ _ _ q len nm Hl Hq Hg (proj1 Hdll) (dir_size _ _ _ Hdll)) as Hse.
  destruct (returns_inv _ _ (Hse (fun y fy Hy => proj1 (proj2 (vk_file _ _ _ _ _ _ _ Hok y fy Hy))))) as (r & -> & [[-> _]|(y & _ & Hy & Hn)]); [done|].
  by destruct (Hno y Hy).
Qed.

Lemma vfs_lookup_missing_spec s M K F own L start p str h l h1 ss h2 l2 d fs nm rest state out :
  vfs_ok s M K F own L -> path_at s p str -> base s start str h -> topmost s h l h1 -> sections str = ss ++ nm :: rest ->
  walk s M h1 ss h2 -> topmost s h2 l2 (mk_handle (Ref d) fs) -> is_Some (pc_entries (vs_pnc s) !! d) -> good_name nm ->
  missing s M K d nm state -> vfs_lookup sentinel fuel start p out s = Ret (state, null_handle, s).
Proof.
  intros Hok Hp Hb Ht Hss Hw Ht2 Hd Hg Hmi. rewrite (lookup_start _ _ _ _ _ _ _ out Hp Hb Ht). pose proof Hp as [Hs _ Hpos Hend Hf].
  destruct (lookup_loop_prefix _ _ _ _ _ _ _ _ (vk_pnc _ _ _ _ _ _ _ Hok) Hw (S fuel) p 0 str (nm :: rest)) as (n & q & len & str' & Hsec & Hs' & Hq & Heq & Hn & ->);
    rewrite ?Z.add_0_r; try done; [lia|]. destruct n as [|n]; [lia|]. cbn [lookup_loop].
  destruct (split_path_spec fuel (q + len) len str' _ Hs') as [[Hsec' _]|(k & l' & Hkl & Hl' & Hsec' & ->)]; [lia..|by rewrite Hsec in Hsec'|].
  cbn [mbind outcome_bind]. rewrite (proj2 (Z.eqb_neq _ _)) by lia. rewrite (through_mounts_spec _ _ _ _ Ht2). cbn [mbind outcome_bind].
  rewrite Hsec in Hsec'. injection Hsec' as Hnm _.
  rewrite (lookup_section_missing s M K F own L d fs _ _ nm state Hok Hd Hmi); [done|lia| |done]. rewrite Nat2Z.id, Hnm. by apply cstr_bytes.
Qed.

(** ** Reading and writing *)

Lemma call_rdwr_eq s vn v f u fl :
  vs_vnodes s !! vn = Some v -> vnode_ok s v f -> call_rdwr (Ref vn) u fl s = ramfs_vn_rdwr (Ref vn) u fl s.
Proof.
  intros Hvn [(ops & Ho & Hops) _ _ _]. unfold call_rdwr, vn_ops_of. cbn [load]. rewrite Hvn. cbn [of_option mbind outcome_bind].
  rewrite Ho. cbn [load]. by rewrite Hops.
Qed.

Lemma vfs_rdwr_eq s M K F own L a fs v f u fl :
  vfs_ok s M K F own L -> is_Some (pc_entries (vs_pnc s) !! a) -> vnode_at (Ref a) s = Ret v -> vnode_ok s v f -> v_type v <> VFS_VN_DIR ->
  exists vn, vnode_of (Ref a) s = Ret (Ref vn) /\ vs_vnodes s !! vn = Some v /\
    vfs_rdwr (mk_handle (Ref a) fs) u fl s = ramfs_vn_rdwr (Ref vn) u fl s.
Proof.
  intros Hok Hd Hv Hvok Hty. destruct (entry_vnode _ _ _ _ _ _ _ _ Hok Hd) as (vn & v0 & f0 & Hvn & Hv0 & Hv' & _).
  assert (v0 = v) as -> by congruence. exists vn. split_and!; [done|done|]. unfold vfs_rdwr. cbn [cache_entry]. rewrite Hvn.
  cbn [mbind outcome_bind load]. rewrite Hv0. cbn [of_option mbind outcome_bind]. rewrite decide_False by done. by eapply call_rdwr_eq.
Qed.

Definition byte (c : Z) : Prop := 0 <= c < 256.

Lemma memcpy_bytes dest src n m :
  0 <= n -> dest + n <= src \/ src + n <= dest -> Forall byte (bytes m src (Z.to_nat n)) ->
  bytes (memcpy dest src n m) dest (Z.to_nat n) = bytes m src (Z.to_nat n).
Proof.
  intros Hn Hap Hb. unfold bytes in *. apply list_fmap_ext. intros i z Hz. apply lookup_seqZ in Hz as Hz'. rewrite memcpy_apart by done.
  rewrite decide_True by lia. replace (src + (dest + z - dest)) with (src + z) by lia. apply u8_small.
  rewrite Forall_forall in Hb. apply Hb, list_elem_of_fmap. exists z. split; [done|]. by eapply list_elem_of_lookup_2.
Qed.

(** A write: the contents are a new block with the bytes of the buffer. *)
Lemma vfs_write_spec s M K F own L k a fs v f q n off fl :
  vfs_ok s M K F own L -> is_Some (pc_entries (vs_pnc s) !! a) -> vnode_at (Ref a) s = Ret v -> vnode_ok s v f -> v_type v <> VFS_VN_DIR ->
  0 < n <= KMALLOC_MAX_CACHE_SIZE -> readable (vs_heap s) L q n -> Forall byte (bytes (vs_mem s) q (Z.to_nat n)) -> spare F (S k) ->
  returns (vfs_rdwr (mk_handle (Ref a) fs) (mk_uio q n off UIO_WRITE) fl s) (fun '(state, u, s') => exists c x F' own' L',
    state = VFS_FS_OP_STATUS_OK /\ u = mk_uio q 0 off UIO_WRITE /\ L !! c = None /\ L' !! c = Some (capacity n) /\ n <= capacity n /\
    vs_files s' !! f = Some x /\ rf_contents x = Ref c /\ bytes (vs_mem s') c (Z.to_nat n) = bytes (vs_mem s) q (Z.to_nat n) /\
    vfs_ok s' M K F' own' L' /\ vnode_at (Ref a) s' = Ret v /\ vnode_ok s' v f /\ pc_entries (vs_pnc s') = pc_entries (vs_pnc s) /\ grown s s' /\
    later (vs_heap s) (vs_heap s') L L' /\ spare F' k).
Proof.
  intros Hok Hd Hv Hvok Hty Hn Hr Hb Hsp.
  destruct (vfs_rdwr_eq s M K F own L a fs v f (mk_uio q n off UIO_WRITE) fl Hok Hd Hv Hvok Hty) as (vn & Hvn & Hv0 & ->).
  pose proof (vk_pnc _ _ _ _ _ _ _ Hok) as (T & B & Hco & _). destruct (vn_file _ _ _ Hvok) as (x & Hx & Htx).
  unfold ramfs_vn_rdwr. cbn [load]. rewrite Hv0. cbn [of_option mbind outcome_bind uio uio_resid uio_buf].
  change (UIO_WRITE =? UIO_READ) with false. change (UIO_WRITE =? UIO_WRITE) with true. cbv iota. apply returns_bind.
  mcall (kmalloc_later (vs_heap s) F own L k n (co_heap _ _ _ _ _ _ _ Hco) Hn Hsp).
  intros [c h1] (F1 & own1 & L1 & -> & Ha1 & Hfr & Hcap & Hla & Hsp1).
  assert (c <> 0) as Hc0.
  { pose proof (live_pos _ _ _ _ _ _ Ha1 (lookup_insert_eq _ _ _)). lia. }
  rewrite (vn_data _ _ _ Hvok). unfold pointer. rewrite (proj2 (Z.eqb_neq _ _)) by done.
  cbn [store set_vs_heap set_pnc set_files vs_files with_contents]. rewrite Hx. cbn [of_option mbind outcome_bind].
  set (s1 := set_files _ _). set (m := memcpy c q n (vs_mem s1)). change (vs_mem s1) with (h_mem h1) in m.
  assert (c + n <= q \/ q + n <= c) as Hap.
  { eapply readable_apart; [done|done|apply (readable_done _ _ _ _ _ (la_done _ _ _ _ Hla) Hr)|lia..]. }
  assert (bytes (h_mem h1) q (Z.to_nat n) = bytes (vs_mem s) q (Z.to_nat n)) as Hq1.
  { apply bytes_ext. intros z Hz. apply (later_rd _ _ _ _ q n z Hla Hr). lia. }
  destruct (write_later h1 F1 own1 L c (capacity n) m Ha1 Hfr) as [Ha2 Hla2].
  { intros z Hz. unfold m. rewrite memcpy_apart by (done || lia). by rewrite decide_False by lia. }
  do 2 apply returns_ret. set (x' := set_contents (Ref c) x) in *.
  change (set_vs_mem m s1) with (set_files (<[f := x']> (vs_files s)) (set_vs_heap (set_mem m h1) s)).
  assert (later (vs_heap s) (set_mem m h1) L (<[c := capacity n]> L)) as Hla3 by (by eapply later_mid).
  exists c, x', F1, own1, (<[c := capacity n]> L). split_and!; try done.
  - apply lookup_insert_eq.
  - cbn [set_files vs_files]. apply lookup_insert_eq.
  - rewrite <- Hq1. cbn [set_files vs_mem vs_heap vs_pnc set_vs_heap set_pnc set_pc_heap pc_heap set_mem h_mem]. apply memcpy_bytes; [lia|done|by rewrite Hq1].
  - apply (ok_contents sentinel (set_vs_heap (set_mem m h1) s)); [|done]. by eapply ok_heap.
  - destruct Hvok as [? ? ? _]. split; try done. exists x'. cbn [set_files vs_files]. rewrite lookup_insert_eq. done.
Qed.

(** ** Mounting *)

Lemma ok_fs_change s M K F own L fs fr fr' :
  vfs_ok s M K F own L -> vs_fss s !! fs = Some fr ->
  (vfs_data fr' = vfs_data fr \/ exists rd, vfs_data fr' = Ref rd /\ vs_vnops s !! (rd + RAMDISK_VNODEOPS) = Some ramfs_table) ->
  vfs_ok (set_fss (<[fs := fr']> (vs_fss s)) s) M K F own L.
Proof.
  intros Hok Hfs Hd. split; try apply Hok.
  - intros vn v Hv. destruct (vk_vnode _ _ _ _ _ _ _ Hok vn v Hv) as [? [f [? (fs' & fr0 & rd & ? & Hfs' & Hrd & Htab) ? ?]]]. split; [done|]. exists f. split; try done.
    destruct (decide (fs' = fs)) as [->|Hne]; [|exists fs', fr0, rd; cbn; by rewrite lookup_insert_ne].
    assert (fr0 = fr) as -> by congruence. exists fs, fr'. cbn. rewrite lookup_insert_eq.
    destruct Hd as [Hd|(rd' & Hd & Ht)]; [exists rd|exists rd']; split_and!; try done. by rewrite Hd.
  - intros fs' fr0. cbn. intros [[<- <-]|[_ Hf]]%lookup_insert_Some; by eapply (vk_fs _ _ _ _ _ _ _ Hok).
Qed.

Lemma call_mount_eq s fs rd :
  fs_ok s fs -> disk_ok s rd -> exists fr, vs_fss s !! fs = Some fr /\
    call_mount (Ref fs) (Ref rd) s = Ret (VFS_FS_OP_STATUS_OK, set_fss (<[fs := set_data (Ref rd) fr]> (vs_fss s)) s).
Proof.
  intros (fr & ops & Hfr & Hop & Hops) [(d & Hd & Hsig) _ _]. exists fr. split; [done|]. unfold call_mount, fs_ops_of. cbn [load]. rewrite Hfr.
  cbn [of_option mbind outcome_bind]. rewrite Hop. cbn [load]. rewrite Hops. cbn. rewrite Hd. cbn. by rewrite Hsig, Z.eqb_refl, Hfr.
Qed.

Lemma call_root_spec s M K F own L n fs fr rd :
  vfs_ok s M K F own L -> fs_ok s fs -> vs_fss s !! fs = Some fr -> vfs_data fr = Ref rd -> disk_ok s rd -> spare F (S n) ->
  returns (call_root (Ref fs) s) (fun '(state, w, s') => exists vn v h' F' own' L', w = Ref vn /\
    v = mk_vnode VFS_VN_DIR (Ref (rd + RAMDISK_VNODEOPS)) (Ref fs) NULL VFS_VN_FLAG_ROOT 0 (Ref (rd + RAMDISK_ROOT_DIR)) /\
    s' = set_vnodes (<[vn := v]> (vs_vnodes s)) (set_vs_heap h' s) /\ vs_vnodes s !! vn = None /\
    vfs_ok s' M K F' own' L' /\ later (vs_heap s) (vs_heap s') L L' /\ spare F' n).
Proof.
  intros Hok (fr' & ops & Hfr' & Hop & Hops) Hfr Hrd [_ Htab (x & Hx & Htx)] Hsp. assert (fr' = fr) as -> by congruence.
  unfold call_root, fs_ops_of. cbn [load]. rewrite Hfr. cbn [of_option mbind outcome_bind]. rewrite Hop. cbn [load]. rewrite Hops. cbn [of_option mbind outcome_bind fn fo_root ramfs_fs_table].
  unfold ramfs_root. cbn [load]. rewrite Hfr. cbn [of_option mbind outcome_bind]. rewrite Hrd. cbn [field].
  mcall (vnode_alloc_spec sentinel s M K F own L n (Ref fs) VFS_VN_FLAG_ROOT (Ref (rd + RAMDISK_VNODEOPS)) VFS_VN_DIR (Ref (rd + RAMDISK_ROOT_DIR)) (rd + RAMDISK_ROOT_DIR) Hok); [|done|].
  - split; cbn; [by eexists|by exists fs, fr, rd|done|]. exists x. split; [done|]. rewrite Htx. by left.
  - intros [w s'] (vn & h' & F' & own' & L' & -> & Hs' & Hfv & Hok' & Hla & Hsp'). apply returns_ret. by eexists vn, _, h', F', own', L'.
Qed.

(** The root entry of a file system that was just mounted. *)
Lemma root_entry_spec s M K F own L n fs fr vn v q len nm hash :
  vfs_ok s M K F own L -> vs_fss s !! fs = Some fr -> vs_vnodes s !! vn = Some v -> 0 <= len -> readable (vs_heap s) L q len ->
  bytes (vs_mem s) q (Z.to_nat len) = nm -> good_name nm -> spare F (S (S n)) ->
  returns ('(e, pc) ← new_pnc_entry sentinel (Ref vn) NULL q len hash (vs_pnc s);
           let s := set_pnc pc s in
           fss ← store (Ref fs) (set_root_pnc e) (vs_fss s);
           Ret (VFS_FS_OP_STATUS_OK, set_fss fss s)) (fun '(state, s') => exists a F' own' L', state = VFS_FS_OP_STATUS_OK /\
    pc_entries (vs_pnc s) !! a = None /\ vs_fss s' = <[fs := set_root_pnc (Ref a) fr]> (vs_fss s) /\ vnode_at (Ref a) s' = Ret v /\
    is_Some (pc_entries (vs_pnc s') !! a) /\ (forall p v, vnode_at p s = Ret v -> vnode_at p s' = Ret v) /\ vs_root s' = vs_root s /\
    vs_files s' = vs_files s /\ vfs_ok s' M K F' own' L' /\ later (vs_heap s) (vs_heap s') L L' /\ spare F' n).
Proof.
  intros Hok Hfr Hv Hl Hr Hq Hg Hsp.
  mcall (new_root_spec sentinel (vs_pnc s) M F own L n (Ref vn) NULL q len nm hash (vk_pnc _ _ _ _ _ _ _ Hok)); try done.
  intros [w pc] (a & F' & own' & L' & -> & Hfresh & Hrep & Hvs & Hla & Hsp'). cbn [store set_pnc vs_fss]. rewrite Hfr. cbn [of_option mbind outcome_bind].
  apply returns_ret. pose proof (grown_add _ _ _ _ Hvs Hfresh) as [Hgv _ _]. exists a, F', own', L'. split_and!; try done.
  - by apply (insert_vnode_at s vn v a pc).
  - apply (f_equal (fun m => m !! a)) in Hvs. rewrite lookup_fmap, lookup_insert_eq in Hvs. cbn. destruct (pc_entries pc !! a); [by eexists|done].
  - apply (ok_fs_change (set_pnc pc s) M K F' own' L' fs fr); [by eapply ok_add; [done|by eexists|..]|done|by left].
Qed.

Lemma fs_ok_mounted s fs fr fr' :
  vs_fss s !! fs = Some fr -> vfs_op fr' = vfs_op fr -> fs_ok s fs -> fs_ok (set_fss (<[fs := fr']> (vs_fss s)) s) fs.
Proof.
  intros Hfr Ho (fr0 & ops & Hfr0 & Hop & Hops). assert (fr0 = fr) as -> by congruence. exists fr', ops. cbn. rewrite lookup_insert_eq, Ho. done.
Qed.

Lemma vfs_mount_root_spec s M K F own L n fs rd slash :
  vfs_ok s M K F own L -> vs_root s = NULL -> fs_ok s fs -> disk_ok s rd -> readable (vs_heap s) L slash 1 ->
  bytes (vs_mem s) slash 1 = [SEPERATOR] -> spare F (S (S (S n))) ->
  returns (vfs_mount_root sentinel slash (Ref fs) (Ref rd) s) (fun '(state, s') => exists a fr v F' own' L', state = VFS_FS_OP_STATUS_OK /\
    vs_root s' = Ref fs /\ vs_fss s' !! fs = Some fr /\ vfs_root_pnc fr = Ref a /\ vnode_at (Ref a) s' = Ret v /\ v_type v = VFS_VN_DIR /\
    v_vfs_mounted_here v = NULL /\ v_vfsp v = Ref fs /\ vnode_ok s' v (rd + RAMDISK_ROOT_DIR) /\ is_Some (pc_entries (vs_pnc s') !! a) /\
    vfs_ok s' M K F' own' L' /\ later (vs_heap s) (vs_heap s') L L' /\ spare F' n).
Proof.
  intros Hok Hroot Hfs Hdk Hr Hq Hsp. unfold vfs_mount_root. rewrite Hroot. cbn [nonnull].
  destruct (call_mount_eq s fs rd Hfs Hdk) as (fr & Hfr & ->). cbn [mbind outcome_bind]. change (VFS_FS_OP_STATUS_OK =? 0) with true. cbv iota.
  set (s1 := set_root_fs (Ref fs) _).
  assert (vfs_ok s1 M K F own L) as Hok1.
  { assert (vfs_ok (set_fss (<[fs := set_data (Ref rd) fr]> (vs_fss s)) s) M K F own L) as [? ? Hv ? ? ? ?].
    { eapply ok_fs_change; [done|done|right; exists rd; split; [done|apply Hdk]]. }
    split; try done. intros vn v Hvn. destruct (Hv vn v Hvn) as [? [f [? ? ? ?]]]. split; [done|by exists f]. }
  assert (vs_fss s1 !! fs = Some (set_data (Ref rd) fr)) as Hfr1 by (cbn; apply lookup_insert_eq).
  assert (fs_ok s1 fs) as Hfs1. { destruct (fs_ok_mounted s fs fr (set_data (Ref rd) fr) Hfr eq_refl Hfs) as (? & ? & ? & ? & ?). by eexists _, _. }
  assert (disk_ok s1 rd) as Hdk1 by (by destruct Hdk).
  mcall (call_root_spec s1 M K F own L (S (S n)) fs _ rd Hok1 Hfs1 Hfr1 eq_refl Hdk1 Hsp).
  intros [[st w] s2] (vn & v & h2 & F2 & own2 & L2 & -> & Hv & Hs2 & Hfv & Hok2 & Hla2 & Hsp2).
  assert (bytes (vs_mem s2) slash (Z.to_nat 1) = [SEPERATOR]) as Hq2.
  { rewrite <- Hq. apply bytes_ext. intros z Hz. apply (later_rd _ _ _ _ slash 1 z Hla2 Hr). lia. }
  assert (vs_vnodes s2 !! vn = Some v) as Hv2 by (rewrite Hs2; cbn; apply lookup_insert_eq).
  assert (good_name [SEPERATOR]) as Hg by (split; [by repeat constructor|done|done]).
  eapply returns_mono; [eapply (root_entry_spec s2 M K F2 own2 L2 n fs _ vn v slash 1 _ _ Hok2); try done|].
  - rewrite Hs2. cbn. apply lookup_insert_eq.
  - by eapply readable_later.
  - intros [state s'] (a & F' & own' & L' & -> & Hfresh & Hfss & Hva & Hea & Hvs & Hroot' & Hfiles & Hok' & Hla' & Hsp').
    eexists a, _, v, F', own', L'. split_and!; try done.
    + rewrite Hroot', Hs2. done.
    + rewrite Hfss. apply lookup_insert_eq.
    + done.
    + by rewrite Hv.
    + by rewrite Hv.
    + by rewrite Hv.
    + destruct (entry_vnode _ _ _ _ _ _ _ _ Hok' Hea) as (vn' & v' & f & _ & _ & Hv' & Hvok). assert (v' = v) as -> by congruence.
      assert (f = rd + RAMDISK_ROOT_DIR) as <-; [|done]. pose proof (vn_data _ _ _ Hvok) as Hd. rewrite Hv in Hd. by injection Hd as <-.
    + by eapply later_trans.
Qed.

Lemma ok_mounted s M K F own L vn v w :
  vfs_ok s M K F own L -> vs_vnodes s !! vn = Some v -> vfs_ok (set_vnodes (<[vn := set_mounted w v]> (vs_vnodes s)) s) M K F own L.
Proof.
  intros Hok Hv. destruct (vk_vnode _ _ _ _ _ _ _ Hok vn v Hv) as [Hl [f [? ? ? ?]]]. by apply (ok_vnode sentinel s M K F own L vn _ f).
Qed.

(** The name of an entry is in its block. *)
Lemma entry_section s M F own L a e :
  pnc_rep sentinel s M F own L -> pc_entries s !! a = Some e -> readable (pc_heap s) L (pe_section e) (pe_name_len e) /\
  0 <= pe_name_len e /\ good_name (bytes (pc_mem s) (pe_section e) (Z.to_nat (pe_name_len e))).
Proof.
  intros (T & B & Hok & _) He. destruct (co_entry _ _ _ _ _ _ _ Hok a e He) as [Hl Hg _ (k & Hk & Hlk)].
  split_and!; [by eapply readable_live|done|done].
Qed.

Lemma vfs_mount_spec s M K F own L n fs rd slash mp w v root fr0 p :
  vfs_ok s M K F own L -> vs_root s = Ref root -> vs_fss s !! root = Some fr0 -> vfs_root_pnc fr0 = Ref p ->
  is_Some (pc_entries (vs_pnc s) !! mp) -> vnode_at (Ref mp) s = Ret v -> fs_ok s fs -> disk_ok s rd -> spare F (S (S (S n))) ->
  returns (vfs_mount sentinel slash (Ref fs) (mk_handle (Ref mp) w) (Ref rd) s) (fun '(state, s') => exists a F' own' L', state = VFS_FS_OP_STATUS_OK /\
    topmost s' (mk_handle (Ref mp) w) [fs] (mk_handle (Ref a) (Ref fs)) /\ (forall nm, M !! (a, nm) = None) /\
    vfs_ok s' M K F' own' L' /\ later (vs_heap s) (vs_heap s') L L' /\ spare F' n).
Proof.
  intros Hok Hroot Hfr0 Hp Hmp Hv Hfs Hdk Hsp. unfold vfs_mount. rewrite Hroot. cbn [nonnull load]. rewrite Hfr0. cbn [of_option mbind outcome_bind]. rewrite Hp. cbn [nonnull negb].
  destruct (call_mount_eq s fs rd Hfs Hdk) as (fr & Hfr & ->). cbn [mbind outcome_bind]. change (VFS_FS_OP_STATUS_OK =? 0) with true. cbv iota.
  destruct (entry_vnode _ _ _ _ _ _ _ _ Hok Hmp) as (vn & v0 & f0 & Hvn & Hv0 & Hv' & _). assert (v0 = v) as -> by congruence. destruct Hmp as [me Hme].
  cbn [cache_entry]. change (vnode_of (Ref mp) (set_fss _ s)) with (vnode_of (Ref mp) s). rewrite Hvn. cbn [mbind outcome_bind store set_fss vs_vnodes]. rewrite Hv0.
  cbn [of_option mbind outcome_bind store set_vnodes set_fss vs_fss]. rewrite lookup_insert_eq. cbn [of_option mbind outcome_bind set_fss vs_fss]. rewrite insert_insert_eq.
  set (fr1 := set_covered _ _). set (vns := <[vn := set_mounted (Ref fs) v]> (vs_vnodes s)). set (s1 := set_fss _ _).
  assert (vfs_ok s1 M K F own L) as Hok1.
  { apply (ok_fs_change (set_vnodes vns s) M K F own L fs fr); [by apply ok_mounted|done|right; exists rd; split; [done|apply Hdk]]. }
  assert (vs_fss s1 !! fs = Some fr1) as Hfr1 by (cbn; apply lookup_insert_eq).
  assert (fs_ok s1 fs) as Hfs1. { destruct (fs_ok_mounted s fs fr fr1 Hfr eq_refl Hfs) as (? & ? & ? & ? & ?). by eexists _, _. }
  assert (disk_ok s1 rd) as Hdk1 by (by destruct Hdk).
  mcall (call_root_spec s1 M K F own L (S (S n)) fs fr1 rd Hok1 Hfs1 Hfr1 eq_refl Hdk1 Hsp).
  intros [[st w2] s2] (vn2 & v2 & h2 & F2 & own2 & L2 & -> & Hvn2 & Hs2 & Hfv & Hok2 & Hla2 & Hsp2).
  assert (pc_entries (vs_pnc s2) = pc_entries (vs_pnc s)) as Hpe by (by rewrite Hs2). cbn [load]. rewrite Hpe, Hme. cbn [of_option mbind outcome_bind].
  assert (pc_entries (vs_pnc s2) !! mp = Some me) as Hme2 by (by rewrite Hpe).
  destruct (entry_section _ _ _ _ _ _ _ (vk_pnc _ _ _ _ _ _ _ Hok2) Hme2) as (Hr & Hl & Hg).
  assert (vs_vnodes s2 !! vn2 = Some v2) as Hv2 by (rewrite Hs2; cbn; apply lookup_insert_eq).
  assert (vnode_at (Ref mp) s2 = Ret (set_mounted (Ref fs) v)) as Hvm.
  { unfold vnode_at, vnode_of in Hvn |- *. cbn [load] in Hvn |- *. rewrite Hme in Hvn. rewrite Hme2. cbn [of_option mbind outcome_bind] in Hvn |- *. injection Hvn as ->. cbn [load].
    rewrite Hs2. cbn [set_vnodes vs_vnodes]. rewrite lookup_insert_ne; [subst s1 vns; cbn; by rewrite lookup_insert_eq|].
    intros ->. subst s1 vns. cbn in Hfv. by rewrite lookup_insert_eq in Hfv. }
  eapply returns_mono; [eapply (root_entry_spec s2 M K F2 own2 L2 n fs fr1 vn2 v2 _ _ _ _ Hok2); try done; by rewrite Hs2|].
  intros [state s'] (a & F' & own' & L' & -> & Hfresh & Hfss & Hva & Hea & Hvs & Hroot' & Hfiles & Hok' & Hla' & Hsp').
  exists a, F', own', L'. split_and!; try done.
  - eapply (topmost_over _ _ fs (set_root_pnc (Ref a) fr1)); [exists (set_mounted (Ref fs) v); split; [by apply Hvs|done]|rewrite Hfss; apply lookup_insert_eq|].
    apply (topmost_here _ _ NULL); [|done]. exists v2. split; [exact Hva|by rewrite Hvn2].
  - intros nm. destruct (M !! (a, nm)) as [b|] eqn:Hm; [|done]. destruct (entry_of_key _ _ _ _ _ _ _ _ _ (vk_pnc _ _ _ _ _ _ _ Hok2) Hm) as [[? ?] _]. congruence.
  - by eapply later_trans.
Qed.

(** How [vfs_init] starts: a ram file system becomes the root. *)
Lemma new_root_fs_spec s M K F own L n slash :
  vfs_ok s M K F own L -> vs_root s = NULL -> readable (vs_heap s) L slash 1 -> bytes (vs_mem s) slash 1 = [SEPERATOR] ->
  spare F (S (S (S (S (S (S n)))))) ->
  returns ('(rd, s) ← rd_new_ramdisk s; '(fs, s) ← ramfs_new_fs s; vfs_mount_root sentinel slash fs rd s) (fun '(state, s') =>
    exists a fs f fr v K' F' own' L', state = VFS_FS_OP_STATUS_OK /\ vs_root s' = Ref fs /\ vs_fss s' !! fs = Some fr /\ vfs_root_pnc fr = Ref a /\
    vnode_at (Ref a) s' = Ret v /\ v_type v = VFS_VN_DIR /\ v_vfs_mounted_here v = NULL /\ vnode_ok s' v f /\ K' f = [] /\
    is_Some (pc_entries (vs_pnc s') !! a) /\ vfs_ok s' M K' F' own' L' /\ later (vs_heap s) (vs_heap s') L L' /\ spare F' n).
Proof.
  intros Hok Hroot Hr Hq Hsp. mcall (rd_new_ramdisk_spec sentinel s M K F own L _ Hok Hsp).
  intros [w1 s1] (rd & F1 & own1 & L1 & -> & Hdk & Hok1 & Hg1 & Hla1 & Hsp1 & _). mcall (ramfs_new_fs_spec sentinel s1 M _ F1 own1 L1 _ Hok1 Hsp1).
  intros [w2 s2] (fs & fr2 & F2 & own2 & L2 & -> & Hfs & _ & _ & Hok2 & Hla2 & Hsp2 & Hdk2 & _ & _ & Hr2).
  pose proof (later_trans _ _ _ _ _ _ Hla1 Hla2) as Hla.
  assert (bytes (vs_mem s2) slash 1 = [SEPERATOR]) as Hq2.
  { rewrite <- Hq. apply bytes_ext. intros z Hz. apply (later_rd _ _ _ _ slash 1 z Hla Hr). lia. }
  eapply returns_mono; [eapply (vfs_mount_root_spec s2 M _ F2 own2 L2 n fs rd slash Hok2); try done; [|by apply Hdk2|by eapply readable_later]|].
  { by rewrite Hr2, (gr_root _ _ Hg1). }
  intros [state s'] (a & fr & v & F' & own' & L' & -> & Hroot' & Hfr & Hrp & Hv & Hty & Hmt & _ & Hvok & He & Hok' & Hla' & Hsp').
  eexists a, fs, _, fr, v, _, F', own', L'. split_and!; try done; [by rewrite fn_lookup_insert|by eapply later_trans].
Qed.

(** ** The theorems *)

(** C30: a path whose sections are all cached leads [vfs_lookup] to the handle
    they lead to one after the other, from the root or the given handle and
    through every chain of mounts on the way; a trailing slash asks for a
    directory and gets [ENOENT] otherwise; nothing is written. *)
Theorem vfs_lookup_resolves s M K F own L start p str h l h1 h2 v out :
  vfs_ok s M K F own L -> path_at s p str -> base s start str h -> topmost s h l h1 ->
  walk s M h1 (sections str) h2 -> vnode_at (cache_entry h2) s = Ret v ->
  vfs_lookup sentinel fuel start p out s =
    Ret (if decide (last str = Some SEPERATOR /\ v_type v <> VFS_VN_DIR) then (VFS_FS_OP_STATUS_ENOENT, out, s) else (VFS_FS_OP_STATUS_OK, h2, s)).
Proof. intros Hok. apply (vfs_lookup_walk s M F own L), Hok. Qed.

(** C31: when the sections of a path up to one are all cached, and that one is
    neither cached nor a file of the directory they lead to, [vfs_lookup] returns [ENOENT]
    and the null handle; it returns [INVALID_ARGS] when they lead to a
    regular file.  Nothing is written. *)
Theorem vfs_lookup_missing s M K F own L start p str h l h1 ss h2 l2 d fs nm rest state out :
  vfs_ok s M K F own L -> path_at s p str -> base s start str h -> topmost s h l h1 -> sections str = ss ++ nm :: rest ->
  walk s M h1 ss h2 -> topmost s h2 l2 (mk_handle (Ref d) fs) -> is_Some (pc_entries (vs_pnc s) !! d) -> good_name nm ->
  missing s M K d nm state -> vfs_lookup sentinel fuel start p out s = Ret (state, null_handle, s).
Proof. apply vfs_lookup_missing_spec. Qed.

(** A path string a caller may pass stays as it is. *)
Lemma path_later s s' L L' p str :
  later (vs_heap s) (vs_heap s') L L' -> readable (vs_heap s) L p (Z.of_nat (length str) + 1) -> path_at s p str -> path_at s' p str.
Proof.
  intros Hla Hr [Hs ? ? ? ?]. split; try done. eapply cstr_ext; [|exact Hs]. intros x Hx. apply (later_rd _ _ _ _ p _ x Hla Hr). lia.
Qed.

(** C32: a file created in a directory that is cached and has nothing mounted
    over it, under a name of less than 256 bytes that is not cached there, is
    what a lookup of the directory's path followed by the new name finds,
    whether the hash of the name collides with others or not; every path that led somewhere still leads there. *)
Theorem vfs_create_lookup s M K F own L n start p str h l h1 ss d fs v f q len nm t rt out out' :
  vfs_ok s M K F own L -> path_at s p str -> readable (vs_heap s) L p (Z.of_nat (length str) + 1) ->
  base s start str h -> topmost s h l h1 -> sections str = ss ++ [nm] -> last str <> Some SEPERATOR ->
  walk s M h1 ss (mk_handle (Ref d) fs) -> is_Some (pc_entries (vs_pnc s) !! d) -> vnode_at (Ref d) s = Ret v -> vnode_ok s v f ->
  v_type v = VFS_VN_DIR -> v_vfs_mounted_here v = NULL -> ramfs_file_type t = Some rt -> M !! (d, nm) = None ->
  0 <= len < RAMDISK_MAX_FILENAME_LENGTH -> bytes (vs_mem s) q (Z.to_nat len) = nm -> good_name nm ->
  readable (vs_heap s) L q len -> spare F (S (S (S (S (S n))))) ->
  returns (vfs_create sentinel (mk_handle (Ref d) fs) q len (mk_vattr t) out s) (fun '(state, hnd, s') =>
    state = VFS_FS_OP_STATUS_OK /\ vfs_lookup sentinel fuel start p out' s' = Ret (VFS_FS_OP_STATUS_OK, hnd, s') /\
    exists M' K' F' own' L', vfs_ok s' M' K' F' own' L' /\ forall h ss h', walk s M h ss h' -> walk s' M' h ss h').
Proof.
  intros Hok Hp Hr Hb Ht Hss Hlast Hw Hd Hv Hvok Hty Hmt Hrt Hm Hl Hq Hg Hr' Hsp.
  eapply returns_mono; [by eapply (vfs_create_spec s M K F own L n d fs q len nm v f t rt out)|].
  intros [[state hnd] s'] (a & y & v' & F' & own' & L' & -> & -> & Hva & Hvt & Hvd & Hvf & Hvm & Hy & Hfr & Hgr & Hok' & Hla & Hsp'). split; [done|].
  assert (M ⊆ <[(d, nm) := a]> M) as Hsub by (by apply insert_subseteq).
  split; [|exists (<[(d, nm) := a]> M); eexists _, F', own', L'; split; [done|]; intros; by eapply walk_grown].
  rewrite (vfs_lookup_walk s' (<[(d, nm) := a]> M) F' own' L' start p str h l h1 (mk_handle (Ref a) (v_vfsp v)) v'); [|apply Hok'|by eapply path_later|..|done].
  - rewrite decide_False; [done|]. by intros [? _].
  - unfold base in Hb |- *. by rewrite (gr_root _ _ Hgr), (gr_fss _ _ Hgr).
  - by eapply topmost_grown.
  - rewrite Hss. eapply walk_app; [by eapply walk_grown|]. eapply (walk_cons _ _ _ [] d fs nm [] a v'); [| |done|rewrite Hvf; constructor].
    + apply (topmost_here _ _ NULL); [|done]. exists v. split; [by apply (gr_vnode _ _ Hgr)|done].
    + apply lookup_insert_eq.
Qed.

(** C33: what was written to a file, from 1 byte up to the largest heap object
    of 8192, is what a read of the same length gets, whatever the two offsets
    are, since [ramfs_vn_rdwr] does not use [uio_offset]; and neither call changes any other byte of the blocks that were live. *)
Theorem vfs_write_read s M K F own L k a fs v f q n off buf kb off' fl :
  vfs_ok s M K F own L -> is_Some (pc_entries (vs_pnc s) !! a) -> vnode_at (Ref a) s = Ret v -> vnode_ok s v f -> v_type v <> VFS_VN_DIR ->
  0 < n <= KMALLOC_MAX_CACHE_SIZE -> readable (vs_heap s) L q n -> Forall byte (bytes (vs_mem s) q (Z.to_nat n)) -> spare F (S k) ->
  L !! buf = Some kb -> n <= kb ->
  returns ('(_, _, s) ← vfs_rdwr (mk_handle (Ref a) fs) (mk_uio q n off UIO_WRITE) fl s;
           vfs_rdwr (mk_handle (Ref a) fs) (mk_uio buf n off' UIO_READ) fl s) (fun '(state, u, s') =>
    state = VFS_FS_OP_STATUS_OK /\ uio_resid u = 0 /\ bytes (vs_mem s') buf (Z.to_nat n) = bytes (vs_mem s) q (Z.to_nat n) /\
    forall b kk x, L !! b = Some kk -> b <= x < b + kk -> ~ (buf <= x < buf + n) -> rd (vs_mem s') x = rd (vs_mem s) x).
Proof.
  intros Hok Ha Hv Hvok Hty Hn Hr Hb Hsp Hbuf Hkb. mcall (vfs_write_spec s M K F own L k a fs v f q n off fl Hok Ha Hv Hvok Hty Hn Hr Hb Hsp).
  intros [[st u] s1] (c & x & F1 & own1 & L1 & -> & -> & Hfr & Hc & Hcap & Hx & Hcx & Hbs & Hok1 & Hv1 & Hvok1 & Hpe & Hgr & Hla & Hsp1).
  rewrite <- Hpe in Ha. destruct (vfs_rdwr_eq s1 M K F1 own1 L1 a fs v f (mk_uio buf n off' UIO_READ) fl Hok1 Ha Hv1 Hvok1 Hty) as (vn & Hvn & Hv0 & ->).
  unfold ramfs_vn_rdwr. cbn [load]. rewrite Hv0. cbn [of_option mbind outcome_bind uio uio_resid uio_buf]. change (UIO_READ =? UIO_READ) with true. cbv iota.
  rewrite (vn_data _ _ _ Hvok1). cbn [load]. rewrite Hx. cbn [of_option mbind outcome_bind]. rewrite Hcx. cbn [with_contents mbind outcome_bind].
  apply returns_ret. pose proof (vk_pnc _ _ _ _ _ _ _ Hok1) as (T & B & Hco & _). assert (c <> buf) as Hcb by congruence.
  assert (L1 !! buf = Some kb) as Hbuf1 by (eapply lookup_weaken; [done|apply Hla]).
  assert (buf + n <= c \/ c + n <= buf) as Hap. { destruct (abs_apart _ _ _ _ c _ buf _ (co_heap _ _ _ _ _ _ _ Hco) Hc Hbuf1 Hcb); lia. }
  change (vs_mem (set_vs_mem ?m s1)) with m. split_and!; [done|done| |].
  - rewrite <- Hbs. apply memcpy_bytes; [lia|lia|]. by rewrite Hbs.
  - intros b kk z Hb' Hz Hout. rewrite memcpy_apart by lia. rewrite decide_False by done. by apply (la_mem _ _ _ _ Hla b kk).
Qed.

(** C34: mounting a ram file system on a handle: the chain of mounts over the
    handle is then that file system alone and ends at its root, in which
    nothing is cached yet; the invariant of the file systems holds. *)
Theorem vfs_mount_covers s M K F own L n fs rd slash mp w v root fr0 p :
  vfs_ok s M K F own L -> vs_root s = Ref root -> vs_fss s !! root = Some fr0 -> vfs_root_pnc fr0 = Ref p ->
  is_Some (pc_entries (vs_pnc s) !! mp) -> vnode_at (Ref mp) s = Ret v -> fs_ok s fs -> disk_ok s rd -> spare F (S (S (S n))) ->
  returns (vfs_mount sentinel slash (Ref fs) (mk_handle (Ref mp) w) (Ref rd) s) (fun '(state, s') => exists a F' own' L', state = VFS_FS_OP_STATUS_OK /\
    topmost s' (mk_handle (Ref mp) w) [fs] (mk_handle (Ref a) (Ref fs)) /\ (forall nm, M !! (a, nm) = None) /\
    vfs_ok s' M K F' own' L' /\ later (vs_heap s) (vs_heap s') L L' /\ spare F' n).
Proof. apply vfs_mount_spec. Qed.

End Theorems.
(** ** Non-vacuity

    The machine of [PncTheorems.Sample], and a root file system. *)
Module Sample.
Import PncTheorems.Sample.
#[local] Opaque heap_lit rodata.

Definition vfs0 : vfss := mk_vfss cache0 ∅ ∅ ∅ ∅ ∅ ∅ NULL 0.

(** on this machine the sequence of calls [vfs_init] makes runs to its end,
    all assertions hold, and afterwards a file of the file system mounted last
    is found while one of the root file system it covers is not. *)
Example vfs_init_completes :
  (s ← vfs_init nil_addr 64 lit vfs0;
   '(a, _, s) ← vfs_lookup nil_addr 64 null_handle (lit "/testdir12") null_handle s;
   '(b, _, s) ← vfs_lookup nil_addr 64 null_handle (lit "/testfile") null_handle s;
   Ret (a, b)) = Ret (VFS_FS_OP_STATUS_OK, VFS_FS_OP_STATUS_ENOENT).
Proof. vm_compute. reflexivity. Qed.

Lemma vfs0_ok : exists F, vfs_ok nil_addr vfs0 ∅ (fun _ => []) F ∅ ∅ /\ spare F 15.
Proof.
  destruct cache0_rep as (F & Hrep & Hsp). exists F. split; [|exact Hsp].
  assert (forall A (x : Z) (y : A), (∅ : gmap Z A) !! x = Some y -> False) as Hno by (intros A x y Hx; by rewrite lookup_empty in Hx).
  split; cbn [vfs0 vs_pnc vs_vnodes vs_fss vs_files cache0 pc_entries]; [exact Hrep| | | | |
    |intros a f y _ _ Hy; destruct (not_elem_of_nil y Hy)]; intros a e He; destruct (Hno _ _ _ He).
Qed.

Lemma lit_path s L x : later heap_lit (vs_heap s) ∅ L -> cstr rodata (lit x) (chars x) -> (0 < length (chars x) <= 64)%nat -> path_at 64 s (lit x) (chars x).
Proof.
  intros Hla Hs Hlen. pose proof (lit_range x). split; [|by intros Hn; rewrite Hn in Hlen; simpl in Hlen; lia|lia..].
  eapply cstr_ext; [|exact Hs]. intros z Hz. apply (lit_rd (vs_heap s) L x z Hla). lia.
Qed.

Lemma testfile_path s L : later heap_lit (vs_heap s) ∅ L -> path_at 64 s (lit "/testfile") (chars "/testfile").
Proof. intros Hla. apply (lit_path _ _ _ Hla); [vm_compute; repeat split|simpl; lia]. Qed.

(** A root file system. *)
Record booted (s : vfss) (K : Z -> list Z) (F : gset Z) (own : gmap Z owner) (L : gmap Z Z) (root fs f : Z) (v : vfs_vnode) : Prop := {
  bt_ok : vfs_ok nil_addr s ∅ K F own L;
  bt_fs : exists fr, vs_root s = Ref fs /\ vs_fss s !! fs = Some fr /\ vfs_root_pnc fr = Ref root;
  bt_vnode : vnode_at (Ref root) s = Ret v /\ vnode_ok s v f;
  bt_type : v_type v = VFS_VN_DIR /\ v_vfs_mounted_here v = NULL;
  bt_entry : is_Some (pc_entries (vs_pnc s) !! root);
  bt_empty : K f = [];
  bt_later : later heap_lit (vs_heap s) ∅ L;
  bt_spare : spare F 9
}.

Lemma boot : exists s K F own L root fs f v, booted s K F own L root fs f v.
Proof.
  destruct vfs0_ok as (F0 & Hok0 & Hsp0). assert (bytes (vs_mem vfs0) (lit "/") 1 = [SEPERATOR]) as Hq.
  { etrans; [exact (lit_bytes heap_lit ∅ "/" 1 (later_refl _ _))|]. vm_compute. reflexivity. }
  pose proof (lit_readable heap_lit ∅ "/" 1 (later_refl _ _)) as Hr.
  pose proof (returns_inv _ _ (new_root_fs_spec nil_addr vfs0 ∅ _ F0 ∅ ∅ 9 (lit "/") Hok0 eq_refl Hr Hq Hsp0)) as Hi. clear -Hi.
  destruct Hi as ([st s] & _ & root & fs & f & fr & v & K & F & own & L & _ & Hroot & Hfr & Hp & Hv & Hty & Hmt & Hvok & HK & He & Hok & Hla & Hsp).
  exists s, K, F, own, L, root, fs, f, v. split; [exact Hok|by exists fr|by split|by split|exact He|exact HK|exact Hla|exact Hsp].
Qed.

Lemma booted_base s K F own L root fs f v x :
  booted s K F own L root fs f v -> head (chars x) = Some SEPERATOR ->
  base s null_handle (chars x) (mk_handle (Ref root) (Ref fs)) /\ topmost s (mk_handle (Ref root) (Ref fs)) [] (mk_handle (Ref root) (Ref fs)).
Proof.
  intros Hbt Hx. destruct (bt_fs _ _ _ _ _ _ _ _ _ Hbt) as (fr & Hr & Hf & Hp). split.
  - unfold base. rewrite decide_True by done. exists fs, fr. by rewrite Hp.
  - apply (topmost_here _ _ NULL); [|done]. exists v. split; [apply (bt_vnode _ _ _ _ _ _ _ _ _ Hbt)|apply (bt_type _ _ _ _ _ _ _ _ _ Hbt)].
Qed.

Lemma testfile_bytes s L : later heap_lit (vs_heap s) ∅ L -> bytes (vs_mem s) (lit "testfile") 8 = chars "testfile".
Proof. intros Hla. etrans; [exact (lit_bytes (vs_heap s) L "testfile" 8 Hla)|]. vm_compute. reflexivity. Qed.

(** A file in the root directory, and the way to it. *)
Lemma one_file : exists s M K F own L root fs a v w,
  vfs_ok nil_addr s M K F own L /\ path_at 64 s (lit "/testfile") (chars "/testfile") /\
  base s null_handle (chars "/testfile") (mk_handle (Ref root) (Ref fs)) /\
  topmost s (mk_handle (Ref root) (Ref fs)) [] (mk_handle (Ref root) (Ref fs)) /\
  walk s M (mk_handle (Ref root) (Ref fs)) [chars "testfile"] (mk_handle (Ref a) w) /\ vnode_at (Ref a) s = Ret v.
Proof.
  destruct boot as (s & K & F & own & L & root & fs & f & v & Hbt). pose proof Hbt as [Hok _ [Hv Hvok] [Hty Hmt] He HK Hla Hsp].
  destruct (booted_base _ _ _ _ _ _ _ _ _ "/testfile" Hbt eq_refl) as [Hb Ht]. clear Hbt.
  pose proof (returns_inv _ _ (vfs_create_spec nil_addr s ∅ K F own L 4 root (Ref fs) (lit "testfile") 8 (chars "testfile") v f VFS_VN_REG RAMD_FILE null_handle
    Hok He Hv Hvok Hty eq_refl (lookup_empty _) ltac:(unfold RAMDISK_MAX_FILENAME_LENGTH; lia) (testfile_bytes _ _ Hla) good_testfile (lit_readable _ _ _ _ Hla) Hsp)) as Hi.
  destruct Hi as ([[st h] s1] & _ & a & y & v1 & F1 & own1 & L1 & _ & _ & Hv1 & _ & _ & _ & _ & _ & _ & Hgr & Hok1 & Hla1 & _).
  eexists s1, _, _, F1, own1, L1, root, fs, a, v1, (v_vfsp v1). assert (topmost s1 (mk_handle (Ref root) (Ref fs)) [] (mk_handle (Ref root) (Ref fs))) as Ht1.
  { apply (topmost_here _ _ NULL); [|done]. exists v. split; [by apply (gr_vnode _ _ Hgr)|exact Hmt]. }
  split; [exact Hok1|]. split; [exact (testfile_path _ _ (later_trans _ _ _ _ _ _ Hla Hla1))|]. split; [|split; [exact Ht1|split; [|exact Hv1]]].
  - unfold base in Hb |- *. by rewrite (gr_root _ _ Hgr), (gr_fss _ _ Hgr).
  - eapply (walk_cons _ _ _ [] root (Ref fs) _ [] a v1); [exact Ht1|apply lookup_insert_eq|exact Hv1|constructor].
Qed.

Lemma vfs_lookup_resolves_witness : exists s a w,
  vfs_lookup nil_addr 64 null_handle (lit "/testfile") null_handle s = Ret (VFS_FS_OP_STATUS_OK, mk_handle (Ref a) w, s).
Proof.
  destruct one_file as (s & M & K & F & own & L & root & fs & a & v & w & Hok & Hp & Hb & Ht & Hw & Hv). exists s, a, w.
  rewrite (vfs_lookup_resolves nil_addr 64 s M K F own L null_handle (lit "/testfile") (chars "/testfile") _ _ _ _ v null_handle Hok Hp Hb Ht Hw Hv).
  rewrite decide_False; [reflexivity|]. intros [Hl _]. discriminate Hl.
Defined.

Lemma vfs_lookup_missing_witness : exists s, vfs_lookup nil_addr 64 null_handle (lit "/testfile") null_handle s = Ret (VFS_FS_OP_STATUS_ENOENT, null_handle, s).
Proof.
  destruct boot as (s & K & F & own & L & root & fs & f & v & Hbt). exists s. pose proof Hbt as [Hok _ [Hv Hvok] [Hty _] He HK Hla _].
  destruct (booted_base _ _ _ _ _ _ _ _ _ "/testfile" Hbt eq_refl) as [Hb Ht]. destruct (vn_file _ _ _ Hvok) as (x & Hx & Htx).
  apply (vfs_lookup_missing nil_addr 64 s ∅ K F own L null_handle (lit "/testfile") (chars "/testfile") _ _ _ [] _ _ root (Ref fs) (chars "testfile") []
    VFS_FS_OP_STATUS_ENOENT null_handle Hok (testfile_path _ _ Hla) Hb Ht eq_refl (walk_nil _ _ _) Ht He good_testfile).
  split; [apply lookup_empty|]. exists v, f, x. split; [exact Hv|]. split; [exact Hvok|]. split; [exact Hx|].
  rewrite Hty in Htx. destruct (rf_type x); [|discriminate Htx]. split; [reflexivity|].
  intros y. rewrite HK. intros Hy. destruct (not_elem_of_nil y Hy).
Defined.

Lemma vfs_create_lookup_witness : exists s root fs,
  returns (vfs_create nil_addr (mk_handle (Ref root) (Ref fs)) (lit "testfile") 8 (mk_vattr VFS_VN_REG) null_handle s) (fun '(state, hnd, s') =>
    state = VFS_FS_OP_STATUS_OK /\ vfs_lookup nil_addr 64 null_handle (lit "/testfile") null_handle s' = Ret (VFS_FS_OP_STATUS_OK, hnd, s')).
Proof.
  destruct boot as (s & K & F & own & L & root & fs & f & v & Hbt). exists s, root, fs. pose proof Hbt as [Hok _ [Hv Hvok] [Hty Hmt] He HK Hla Hsp].
  destruct (booted_base _ _ _ _ _ _ _ _ _ "/testfile" Hbt eq_refl) as [Hb Ht].
  eapply returns_mono; [exact (vfs_create_lookup nil_addr 64 s ∅ K F own L 4 null_handle (lit "/testfile") (chars "/testfile") _ _ _ [] root (Ref fs) v f
    (lit "testfile") 8 (chars "testfile") VFS_VN_REG RAMD_FILE null_handle null_handle Hok (testfile_path _ _ Hla) (lit_readable _ _ _ _ Hla) Hb Ht eq_refl
    ltac:(discriminate) (walk_nil _ _ _) He Hv Hvok Hty Hmt eq_refl (lookup_empty _) ltac:(unfold RAMDISK_MAX_FILENAME_LENGTH; lia) (testfile_bytes _ _ Hla)
    good_testfile (lit_readable _ _ _ _ Hla) Hsp)|].
  intros [[state hnd] s'] (H1 & H2 & _). split; [exact H1|exact H2].
Defined.

(** A file in the root, and a buffer of twelve bytes. *)
Lemma with_file : exists s M K F own L a fs v f buf, vfs_ok nil_addr s M K F own L /\ is_Some (pc_entries (vs_pnc s) !! a) /\ vnode_at (Ref a) s = Ret v /\
  vnode_ok s v f /\ v_type v = VFS_VN_REG /\ hnd_fs fs = NULL /\ spare F 1 /\ L !! buf = Some (capacity 12) /\ later heap_lit (vs_heap s) ∅ L.
Proof.
  destruct boot as (s & K & F & own & L & root & fs & f & v & Hbt). pose proof Hbt as [Hok _ [Hv Hvok] [Hty Hmt] He HK Hla Hsp]. clear Hbt.
  pose proof (returns_inv _ _ (vfs_create_spec nil_addr s ∅ K F own L 4 root (Ref fs) (lit "testfile") 8 (chars "testfile") v f VFS_VN_REG RAMD_FILE null_handle
    Hok He Hv Hvok Hty eq_refl (lookup_empty _) ltac:(unfold RAMDISK_MAX_FILENAME_LENGTH; lia) (testfile_bytes _ _ Hla) good_testfile (lit_readable _ _ _ _ Hla) Hsp)) as Hi.
  destruct Hi as ([[st h] s1] & _ & a & y & v1 & F1 & own1 & L1 & _ & _ & Hv1 & Ht1 & _ & _ & _ & _ & _ & _ & Hok1 & Hla1 & Hsp1).
  pose proof (later_trans _ _ _ _ _ _ Hla Hla1) as Hla2. clear - Hok1 Hsp1 Hv1 Ht1 Hla2.
  pose proof (vk_pnc _ _ _ _ _ _ _ Hok1) as (T & B & Hco & _).
  destruct (returns_inv _ _ (calloc_later s1 F1 own1 L1 3 12 (co_heap _ _ _ _ _ _ _ Hco) ltac:(done) Hsp1))
    as ([buf s2] & _ & h2 & F2 & own2 & L2 & -> & -> & Ha2 & _ & _ & Hla3 & Hsp2 & _).
  assert (is_Some (pc_entries (vs_pnc s1) !! a)) as He1. { unfold vnode_at, vnode_of in Hv1. cbn [load] in Hv1. destruct (pc_entries (vs_pnc s1) !! a); [by eexists|discriminate Hv1]. }
  destruct (entry_vnode _ _ _ _ _ _ _ _ Hok1 He1) as (vn & v0 & f0 & _ & _ & Hv0 & Hvok0). assert (v0 = v1) as -> by congruence.
  exists (set_vs_heap h2 s1). eexists _, _, F2, own2, _, a, null_handle, v1, f0, buf.
  split; [exact (ok_heap nil_addr _ _ _ _ _ _ _ _ _ _ Hok1 Ha2 Hla3)|]. split; [exact He1|]. split; [exact Hv1|]. split; [by destruct Hvok0|].
  split; [exact Ht1|]. split; [reflexivity|]. split; [by do 2 apply spare_less|]. split; [apply lookup_insert_eq|exact (later_trans _ _ _ _ _ _ Hla2 Hla3)].
Qed.

Lemma hello_bytes : Forall byte (bytes rodata (lit "Hello World") 12).
Proof. vm_compute. repeat constructor; discriminate. Qed.

Lemma vfs_write_read_witness : exists s fh buf,
  returns ('(_, _, s) ← vfs_rdwr fh (mk_uio (lit "Hello World") 12 0 UIO_WRITE) 0 s; vfs_rdwr fh (mk_uio buf 12 0 UIO_READ) 0 s)
    (fun '(state, u, s') => state = VFS_FS_OP_STATUS_OK /\ bytes (vs_mem s') buf 12 = chars "Hello World" ++ [0]).
Proof.
  destruct with_file as (s & M & K & F & own & L & a & [? fs] & v & f & buf & Hok & He & Hv & Hvok & Ht & _ & Hsp & Hbuf & Hla).
  exists s, (mk_handle (Ref a) fs), buf. pose proof (lit_bytes (vs_heap s) L "Hello World" 12 Hla) as Hq. change (h_mem (vs_heap s)) with (vs_mem s) in Hq.
  eapply returns_mono; [eapply (vfs_write_read nil_addr s M K F own L 0 a fs v f (lit "Hello World") 12 0 buf (capacity 12) 0 0 Hok He Hv Hvok)|].
  - rewrite Ht. discriminate.
  - unfold KMALLOC_MAX_CACHE_SIZE, PAGE_SIZE. lia.
  - by apply lit_readable.
  - change (Z.to_nat 12) with 12%nat. rewrite Hq. exact hello_bytes.
  - exact Hsp.
  - exact Hbuf.
  - vm_compute. discriminate.
  - intros [[state u] s'] (-> & _ & Hb & _). split; [reflexivity|]. change (Z.to_nat 12) with 12%nat in Hb. rewrite Hb, Hq. vm_compute. reflexivity.
Defined.

Lemma vfs_mount_covers_witness : exists s fs rd root h,
  returns (vfs_mount nil_addr (lit "/") (Ref fs) (mk_handle (Ref root) h) (Ref rd) s) (fun '(state, s') => exists a, state = VFS_FS_OP_STATUS_OK /\
    topmost s' (mk_handle (Ref root) h) [fs] (mk_handle (Ref a) (Ref fs))).
Proof.
  destruct boot as (s & K & F & own & L & root & fs & f & v & Hbt). pose proof Hbt as [Hok (fr & Hr & Hfr & Hp) [Hv _] _ He _ _ Hsp]. clear Hbt.
  destruct (returns_inv _ _ (rd_new_ramdisk_spec nil_addr s ∅ K F own L 8 Hok Hsp)) as ([w1 s1] & _ & rd & F1 & own1 & L1 & -> & Hdk & Hok1 & Hg1 & Hla1 & Hsp1 & Hpe1 & _ & _).
  destruct (returns_inv _ _ (ramfs_new_fs_spec nil_addr s1 ∅ _ F1 own1 L1 6 Hok1 Hsp1)) as ([w2 s2] & _ & fs2 & fr2 & F2 & own2 & L2 & -> & Hfs & Hfn & Hfss & Hok2 & Hla2 & Hsp2 & Hdk2 & Hpc2 & Hvn2 & Hr2).
  exists s2, fs2, rd, root, (Ref fs). eapply returns_mono; [eapply (vfs_mount_covers nil_addr s2 ∅ _ F2 own2 L2 3 fs2 rd (lit "/") root (Ref fs) v fs fr root Hok2)|].
  - rewrite Hr2, (gr_root _ _ Hg1). exact Hr.
  - assert (vs_fss s1 !! fs = Some fr) as Hfr1 by (rewrite (gr_fss _ _ Hg1); exact Hfr). rewrite Hfss, lookup_insert_ne by congruence. exact Hfr1.
  - exact Hp.
  - rewrite Hpc2. cbn [set_pc_heap pc_entries]. rewrite Hpe1. exact He.
  - apply (gr_vnode _ _ Hg1) in Hv. unfold vnode_at, vnode_of in Hv |- *. rewrite Hpc2, Hvn2. exact Hv.
  - exact Hfs.
  - exact (Hdk2 rd Hdk).
  - exact Hsp2.
  - intros [state s'] (a & _ & _ & _ & -> & Ht & _). exists a. split; [reflexivity|exact Ht].
Defined.

End Sample.
End VfsTheorems.
