(* ===== verification/Device.v ===== *)
(** * Block devices and partitions (kernel/src/driver/device.c, disk_partition.c)

    Devices with their functions, the devices of the partitions of a disk,
    and the scan of a disk's partition table.  The driver of the disk is any
    [BlockDriver]; the NVMe driver is one. *)

From stdpp Require Import gmap strings.
From S2P Require Import Prelude Macros Locking Mem FrameHdr FrameAlloc PageIface Slab Kprintf.

Module Device.
Import Macros Locking Mem FrameHdr FrameAlloc PageIface Slab Kprintf.

(** A driver with a device: its state with the heap in it, and what it
    registers as the device's read and write. *)
Class BlockDriver := {
  drv : Type;
  drv_heap : drv -> heap;
  drv_set_heap : heap -> drv -> drv;
  drv_read : Z -> Z -> Z -> drv -> outcome (Z * drv);
  drv_write : Z -> Z -> Z -> drv -> outcome (Z * drv)
}.

(** ** Devices *)

Definition DEVICE_NAME_LENGTH : Z := 256.
Inductive dev_type := DEV_BLOCK | DEV_CHAR.

(** What [read] and [write] point to. *)
Inductive dev_fn := device_common | driver_fn | partition_dev.

(** The name is in memory, [OFFSET_NAME] bytes into the structure; the lock
    is the driver's. *)
Record device := mk_device {
  dv_type : dev_type;
  dv_flags : Z;
  dv_bsize : Z;
  dv_bcount : Z;
  dv_read : dev_fn;
  dv_write : dev_fn;
  dv_specific : word
}.
Definition OFFSET_NAME : Z := 16.
Definition set_dv_fns (r w : dev_fn) (d : device) : device :=
  mk_device (dv_type d) (dv_flags d) (dv_bsize d) (dv_bcount d) r w (dv_specific d).

(** A device, which is the first member of a [struct partition_device] if
    there is a starting block. *)
Record partition_device := mk_partition { pd_dev : device; pd_starting_lba : option Z }.
Definition SIZEOF_PARTITION_DEVICE : Z := 336.
Definition zero_partition : partition_device :=
  mk_partition (mk_device DEV_BLOCK 0 0 0 device_common device_common NULL) (Some 0).

Section Device.
Context {PA : PageAllocator} {Drv : BlockDriver}.

Record devs := mk_devs {
  ds_drv : drv;
  ds_devices : gmap Z partition_device;
  ds_kprintf_lock : k_spinlock_t
}.
Definition set_drv (x : drv) (s : devs) : devs := mk_devs x (ds_devices s) (ds_kprintf_lock s).
Definition set_devices (x : gmap Z partition_device) (s : devs) : devs := mk_devs (ds_drv s) x (ds_kprintf_lock s).
Definition ds_heap (s : devs) : heap := drv_heap (ds_drv s).
Definition set_ds_heap (h : heap) (s : devs) : devs := set_drv (drv_set_heap h (ds_drv s)) s.
Definition ds_mem (s : devs) : mem := h_mem (ds_heap s).

Definition upd_device (p : word) (f : device -> device) (s : devs) : outcome devs :=
  d ← store p (fun o => mk_partition (f (pd_dev o)) (pd_starting_lba o)) (ds_devices s); Ret (set_devices d s).

Definition calloc (n : Z) (s : devs) : outcome (Z * devs) :=
  '(a, h) ← kcalloc 1 n (ds_heap s); Ret (a, set_ds_heap h s).
Definition free (a : Z) (s : devs) : outcome devs := h ← kfree a (ds_heap s); Ret (set_ds_heap h s).

Definition device_common_read (buf off count : Z) (s : devs) : outcome (Z * devs) := Ret (0, s).
Definition device_common_write (buf off count : Z) (s : devs) : outcome (Z * devs) := Ret (0, s).

(** [kvsnprintf] on the state of the devices. *)
Definition kvsnprintf (fuel : nat) (buffer count format : Z) (va : va_list) (s : devs) : outcome devs :=
  let h := ds_heap s in
  '(_, st) ← vsnprintf_ fuel buffer count format va (mk_pf (mk_outp (h_mem h) []) (ds_kprintf_lock s) (mm_IF (h_mm h)));
  Ret (mk_devs (drv_set_heap (set_IF (pf_IF st) (set_mem (o_mem (pf_out st)) h)) (ds_drv s)) (ds_devices s) (pf_lock st)).

Definition device_init (fuel : nat) (dev bsize bcount flags : Z) (type : dev_type) (dev_specific : word) (fmt : Z) (va : va_list)
    (s : devs) : outcome devs :=
  s ← kvsnprintf fuel (dev + OFFSET_NAME) DEVICE_NAME_LENGTH fmt va s;
  upd_device (Ref dev) (fun _ => mk_device type flags bsize bcount device_common device_common dev_specific) s.

(** ** Reading and writing through [dev->read] and [dev->write]

    A partition calls the function of the device it is on; [fuel] is the
    number of devices below. *)

(** The range check of both functions. *)
Definition out_of_range (d : device) (off count : Z) : bool := DIV_ROUNDUP (off +! count) (dv_bsize d) >? dv_bcount d.

Definition starting_lba (o : partition_device) : outcome Z := of_option "not a partition" (pd_starting_lba o).

Fixpoint device_read (fuel : nat) (dev : word) (buf off count : Z) (s : devs) : outcome (Z * devs) :=
  o ← load dev (ds_devices s);
  match dv_read (pd_dev o) with
  | device_common => device_common_read buf off count s
  | driver_fn => '(r, d) ← drv_read buf off count (ds_drv s); Ret (r, set_drv d s)
  | partition_dev =>
      let d := pd_dev o in
      if out_of_range d off count then Ret (-1, s)
      else
        match fuel with
        | O => Fault "partition of itself"
        | S fuel =>
            lba ← starting_lba o;
            device_read fuel (dv_specific d) buf (off +! (lba *! dv_bsize d)) count s
        end
  end.

Fixpoint device_write (fuel : nat) (dev : word) (buf off count : Z) (s : devs) : outcome (Z * devs) :=
  o ← load dev (ds_devices s);
  match dv_write (pd_dev o) with
  | device_common => device_common_write buf off count s
  | driver_fn => '(r, d) ← drv_write buf off count (ds_drv s); Ret (r, set_drv d s)
  | partition_dev =>
      let d := pd_dev o in
      if out_of_range d off count then Ret (-1, s)
      else
        match fuel with
        | O => Fault "partition of itself"
        | S fuel =>
            lba ← starting_lba o;
            device_write fuel (dv_specific d) buf (off +! (lba *! dv_bsize d)) count s
        end
  end.

Definition dev_read (dev : word) (buf off count : Z) (s : devs) : outcome (Z * devs) := device_read (size (ds_devices s)) dev buf off count s.
Definition dev_write (dev : word) (buf off count : Z) (s : devs) : outcome (Z * devs) := device_write (size (ds_devices s)) dev buf off count s.

(** ** Partition tables *)

Definition read32 (a : Z) (m : mem) : Z := read_le 4 a m.

(** Fields of [struct gpt_partition_table_header], at [p]. *)
Definition guid_pea_start_lba (p : Z) (m : mem) : Z := read64 (p + 72) m.
Definition partentries_count (p : Z) (m : mem) : Z := read32 (p + 80) m.
Definition pea_entry_size (p : Z) (m : mem) : Z := read32 (p + 84) m.

(** Fields of [struct gpt_partition_table_entry], at [p]. *)
Definition part_type_guid_low (p : Z) (m : mem) : Z := read64 p m.
Definition part_type_guid_high (p : Z) (m : mem) : Z := read64 (p + 8) m.
Definition lba_start (p : Z) (m : mem) : Z := read64 (p + 32) m.
Definition lba_end (p : Z) (m : mem) : Z := read64 (p + 40) m.

(** Fields of [struct mbr_partition_format], at [p].  The structure is not
    packed: the entries, which hold 32-bit integers, start at a multiple of
    four. *)
Definition mbr_entry (p i : Z) : Z := p + 448 + 16 * i.
Definition mbr_part_type (p i : Z) (m : mem) : Z := rd m (mbr_entry p i + 4).
Definition mbr_start_lba (p i : Z) (m : mem) : Z := read32 (mbr_entry p i + 8) m.
Definition mbr_nsectors (p i : Z) (m : mem) : Z := read32 (mbr_entry p i + 12) m.
Definition mbr_signature_low (p : Z) (m : mem) : Z := rd m (p + 512).
Definition mbr_signature_high (p : Z) (m : mem) : Z := rd m (p + 513).

(** The string literals are where [lit] says. *)
Section Scan.
Context (lit : string -> Z).

(** More than a name and the format have characters. *)
Definition name_fuel : nat := 512.

(** A device for partition [i] of [vdisk]. *)
Definition new_partition (vdisk bsize bcount lba i : Z) (s : devs) : outcome devs :=
  '(part, s) ← calloc SIZEOF_PARTITION_DEVICE s;
  let s := set_devices (<[part := zero_partition]> (ds_devices s)) s in
  s ← device_init name_fuel part bsize bcount 0 DEV_BLOCK (Ref vdisk) (lit "%sp%lu") [vdisk + OFFSET_NAME; i +! 1] s;
  s ← upd_device (Ref part) (set_dv_fns partition_dev partition_dev) s;
  d ← store (Ref part) (fun o => mk_partition (pd_dev o) (Some lba)) (ds_devices s);
  Ret (set_devices d s).

(** [n] rounds from [i] on. *)
Fixpoint gpt_entries (n : nat) (i pos vdisk bsize lba1 entry : Z) (s : devs) : outcome devs :=
  if i <? partentries_count lba1 (ds_mem s) then
    match n with
    | O => Fault "loop does not end"
    | S n =>
        '(_, s) ← dev_read (Ref vdisk) entry pos (pea_entry_size lba1 (ds_mem s)) s;
        let m := ds_mem s in
        s ← (if (part_type_guid_low entry m =? 0) && (part_type_guid_high entry m =? 0) then Ret s
             else new_partition vdisk bsize (lba_end entry m -! lba_start entry m +! 1) (lba_start entry m) i s);
        gpt_entries n (i + 1) (pos +! pea_entry_size lba1 (ds_mem s)) vdisk bsize lba1 entry s
    end
  else Ret s.

Fixpoint mbr_entries (n : nat) (i vdisk bsize mbr : Z) (s : devs) : outcome devs :=
  match n with
  | O => Ret s
  | S n =>
      s ← (if mbr_part_type mbr i (ds_mem s) =? 0 then Ret s
           else new_partition vdisk bsize (mbr_nsectors mbr i (ds_mem s)) (mbr_start_lba mbr i (ds_mem s)) i s);
      mbr_entries n (i + 1) vdisk bsize mbr s
  end.

Definition partition_disk_device (vdisk : Z) (s : devs) : outcome devs :=
  o ← load (Ref vdisk) (ds_devices s);
  let bsize := dv_bsize (pd_dev o) in
  '(lba1, s) ← calloc bsize s;
  '(_, s) ← dev_read (Ref vdisk) lba1 (1 *! bsize) bsize s;
  s ← (if memcmp lba1 (lit "EFI PART") 8 (ds_mem s) =? 0 then
         let pos := guid_pea_start_lba lba1 (ds_mem s) *! bsize in
         '(entry, s) ← calloc (pea_entry_size lba1 (ds_mem s)) s;
         s ← gpt_entries (Z.to_nat (partentries_count lba1 (ds_mem s))) 0 pos vdisk bsize lba1 entry s;
         free entry s
       else
         '(_, s) ← dev_read (Ref vdisk) lba1 0 512 s;
         if negb (mbr_signature_low lba1 (ds_mem s) =? 0x55) || negb (mbr_signature_high lba1 (ds_mem s) =? 0xAA) then Ret s
         else mbr_entries 4 0 vdisk bsize lba1 s);
  free lba1 s.

End Scan.
End Device.
End Device.
