(* ===== verification/DeviceSpec.v ===== *)
(** * What a disk driver promises, and partitions on top of it

    [DriverOk]: a driver's device holds bytes; reading gives them, the driver
    lets others use the heap it uses itself.  On top: a partition gives the
    bytes of its part of the disk and of no other, and the scan of a disk
    makes the devices its partition table describes. *)

From stdpp Require Import gmap strings.
From S2P Require Import Prelude Macros Locking Mem CString FrameHdr FrameAlloc PageIface Slab SlabProof HeapSpec HeapFrame Kprintf KprintfSpec KprintfTheorems Device.

Module DeviceSpec.
Import Macros Locking Mem CString FrameHdr FrameAlloc PageIface Slab SlabProof HeapSpec HeapFrame Kprintf KprintfSpec KprintfTheorems Device.

(** A request for [count] bytes at [off], with a buffer in block [b0] of [k] bytes. *)
Record read_range (b0 k buf off count : Z) : Prop := {
  rr_off : 0 <= off;
  rr_count : 0 <= count < 2 ^ 31;
  rr_end : off + count < 2 ^ 63;
  rr_buf : b0 <= buf;
  rr_fits : buf + count <= b0 + k
}.

(** [A] with [c] bytes at [off] from memory at [buf]. *)
Definition overwritten (m : mem) (buf off c : Z) (A : Z -> Z) (x : Z) : Z :=
  if decide (off <= x < off + c) then u8 (rd m (buf + (x - off))) else A x.

(** How much of a request is on a device of [size] bytes. *)
Definition clipped (size off count : Z) : Z := Z.max 0 (Z.min count (size - off)).

Section Interface.
Context {Drv : BlockDriver}.

Definition drv_mem (d : drv) : mem := h_mem (drv_heap d).

(** Blocks of others, except those with [P], stay and keep their contents. *)
Record keeps (foreign : drv -> gmap Z Z -> Z -> Z -> Prop) (P : Z -> Prop) (d d' : drv) (L L' : gmap Z Z) : Prop := {
  kp_done : hdone (drv_heap d) (drv_heap d');
  kp_foreign : forall b k, foreign d L b k -> ~ P b -> foreign d' L' b k /\ forall x, b <= x < b + k -> rd (drv_mem d') x = rd (drv_mem d) x;
  kp_static : statics (drv_heap d) (drv_heap d')
}.

(** The blocks of others are those there were, and [N]. *)
Definition gains (foreign : drv -> gmap Z Z -> Z -> Z -> Prop) (N : list Z) (d d' : drv) (L L' : gmap Z Z) : Prop :=
  forall b k, foreign d' L' b k -> foreign d L b k \/ b ∈ N.

Class DriverOk {PA : PageAllocator} := {
  (** Size of the device in bytes. *)
  dk_size : Z;

  (** With [n] blocks of memory to spare, the device holds the bytes [A]. *)
  dk_ok : drv -> gmap Z Z -> (Z -> Z) -> nat -> Prop;

  (** A block of the heap that is not the driver's. *)
  dk_foreign : drv -> gmap Z Z -> Z -> Z -> Prop;

  (** Memory a request may need. *)
  dk_cost : Z -> nat;

  (** The requests the driver serves, and its whole blocks. *)
  dk_reads : Z -> Z -> Prop;
  dk_writes : Z -> Z -> Prop;

  dk_less : forall d L A n j, (n <= j)%nat -> dk_ok d L A j -> dk_ok d L A n;
  dk_heap_set : forall d h, drv_heap (drv_set_heap h d) = h;
  dk_set_set : forall d h h', drv_set_heap h' (drv_set_heap h d) = drv_set_heap h' d;
  dk_apart : forall d L A n a k b j, dk_ok d L A n -> dk_foreign d L a k -> dk_foreign d L b j -> a <> b -> disjoint a k b j;
  dk_address : forall d L A n a k x, dk_ok d L A n -> dk_foreign d L a k -> a <= x < a + k -> 0 < a /\ ~ static (drv_heap d) x;

  dk_read_ok : forall d L A n b0 k buf off count,
    dk_ok d L A (dk_cost count + n) -> dk_foreign d L b0 k -> read_range b0 k buf off count -> dk_reads off count ->
    returns (drv_read buf off count d) (fun '(r, d') => r = clipped dk_size off count /\ exists L',
      dk_ok d' L' A n /\ keeps dk_foreign (eq b0) d d' L L' /\ gains dk_foreign [] d d' L L' /\ dk_foreign d' L' b0 k /\
      forall x, b0 <= x < b0 + k -> rd (drv_mem d') x = if decide (buf <= x < buf + r) then A (off + (x - buf)) else rd (drv_mem d) x);

  dk_write_ok : forall d L A n b0 k buf off count,
    dk_ok d L A (dk_cost count + n) -> dk_foreign d L b0 k -> read_range b0 k buf off count -> dk_writes off count -> off + count <= dk_size ->
    returns (drv_write buf off count d) (fun '(r, d') => r = count /\ exists L',
      dk_ok d' L' (overwritten (drv_mem d) buf off count A) n /\ keeps dk_foreign (fun _ => False) d d' L L' /\ gains dk_foreign [] d d' L L');

  dk_alloc_ok : forall d L A n size,
    dk_ok d L A (S n) -> 0 < size <= KMALLOC_MAX_CACHE_SIZE ->
    returns (kcalloc 1 size (drv_heap d)) (fun '(a, h) => let d' := drv_set_heap h d in exists L',
      dk_ok d' L' A n /\ keeps dk_foreign (fun _ => False) d d' L L' /\ gains dk_foreign [a] d d' L L' /\
      dk_foreign d' L' a (capacity size) /\ size <= capacity size /\
      (forall b k, dk_foreign d L b k -> a <> b) /\ forall x, a <= x < a + size -> rd (h_mem h) x = 0);

  dk_free_ok : forall d L A n a k,
    dk_ok d L A n -> dk_foreign d L a k ->
    returns (kfree a (drv_heap d)) (fun h => let d' := drv_set_heap h d in exists L', dk_ok d' L' A n /\ keeps dk_foreign (eq a) d d' L L' /\
      forall b j, dk_foreign d' L' b j -> dk_foreign d L b j /\ b <> a);

  dk_mem_ok : forall d L A n b k m,
    dk_ok d L A n -> dk_foreign d L b k -> (forall x, ~ (b <= x < b + k) -> rd m x = rd (drv_mem d) x) ->
    let d' := drv_set_heap (set_mem m (drv_heap d)) d in dk_ok d' L A n /\ keeps dk_foreign (eq b) d d' L L /\ gains dk_foreign [] d d' L L /\ dk_foreign d' L b k
}.

Lemma keeps_refl foreign P d L : keeps foreign P d d L L.
Proof. split; [done|done|]. intros x _. done. Qed.

Lemma keeps_trans foreign (P Q : Z -> Prop) d1 d2 d3 L1 L2 L3 :
  keeps foreign P d1 d2 L1 L2 -> keeps foreign Q d2 d3 L2 L3 -> (forall b k, foreign d1 L1 b k -> Q b -> P b) -> keeps foreign P d1 d3 L1 L3.
Proof.
  intros [Hd Hf Hs] [Hd' Hf' Hs'] HQ. split; [by etrans| |].
  - intros b k Hb Hp. destruct (Hf b k Hb Hp) as [Hb2 Hx]. destruct (Hf' b k Hb2) as [Hb3 Hx']; [intros Hq; by apply Hp, (HQ b k)|].
    split; [done|]. intros x Hr. by rewrite Hx', Hx.
  - intros x Hx. rewrite Hs' by (by rewrite static_done). by apply Hs.
Qed.

Lemma keeps_mono foreign (P Q : Z -> Prop) d d' L L' :
  (forall b k, foreign d L b k -> P b -> Q b) -> keeps foreign P d d' L L' -> keeps foreign Q d d' L L'.
Proof. intros HPQ [Hd Hf Hs]. split; [done| |done]. intros b k Hb Hq. apply Hf; [done|]. intros Hp. by apply Hq, (HPQ b k). Qed.

Lemma gains_refl foreign d L : gains foreign [] d d L L.
Proof. by left. Qed.

Lemma gains_trans foreign N1 N2 d1 d2 d3 L1 L2 L3 :
  gains foreign N1 d1 d2 L1 L2 -> gains foreign N2 d2 d3 L2 L3 -> gains foreign (N1 ++ N2) d1 d3 L1 L3.
Proof.
  intros H1 H2 b k Hb. destruct (H2 b k Hb) as [Hb2|Hb2]; [|right; apply elem_of_app; by right].
  destruct (H1 b k Hb2) as [|?]; [by left|right; apply elem_of_app; by left].
Qed.

(** What is given back is not there any more. *)
Lemma gains_free foreign a N d1 d2 d3 L1 L2 L3 :
  gains foreign (a :: N) d1 d2 L1 L2 -> (forall b j, foreign d3 L3 b j -> foreign d2 L2 b j /\ b <> a) -> gains foreign N d1 d3 L1 L3.
Proof. intros H1 H2 b k Hb. destruct (H2 b k Hb) as [Hb2 Hne]. destruct (H1 b k Hb2) as [|[?|?]%elem_of_cons]; [by left|done|by right]. Qed.

End Interface.

(** ** Partitions *)

Section Partition.
Context {PA : PageAllocator} {Drv : BlockDriver} {Ok : DriverOk}.

(** The partition at [dev], of [bcount] blocks from block [lba] of the
    disk at [vdisk] on. *)
Record partition_of (s : devs) (dev vdisk bsize bcount lba : Z) : Prop := {
  po_part : exists t f, ds_devices s !! dev = Some (mk_partition (mk_device t f bsize bcount partition_dev partition_dev (Ref vdisk)) (Some lba));
  po_disk : exists d l, ds_devices s !! vdisk = Some (mk_partition d l) /\ dv_read d = driver_fn /\ dv_write d = driver_fn;
  po_bsize : 0 < bsize < 2 ^ 62;
  po_fits : 0 <= lba /\ 0 <= bcount /\ (lba + bcount) * bsize <= dk_size < 2 ^ 62
}.

Lemma in_range_spec bsize bcount t f r w sp off count :
  0 < bsize < 2 ^ 62 -> 0 <= off -> 0 <= count -> off + count < 2 ^ 63 ->
  out_of_range (mk_device t f bsize bcount r w sp) off count = negb (off + count <=? bcount * bsize).
Proof.
  intros Hb Ho Hc Hs. unfold out_of_range. cbn [dv_bsize dv_bcount]. unfold DIV_ROUNDUP, u64. rewrite (Z.mod_small (off + count)), Z.mod_small by lia.
  rewrite Z.gtb_ltb, Z.ltb_antisym. f_equal. apply eq_bool_prop_intro. rewrite !Is_true_true, !Z.leb_le. split; intros H.
  - pose proof (Z.mul_succ_div_gt (off + count + bsize - 1) bsize ltac:(lia)). nia.
  - apply Z.lt_succ_r, Z.div_lt_upper_bound; nia.
Qed.

(** A partition needs a device below it. *)
Lemma devices_two s dev vdisk bsize bcount lba : partition_of s dev vdisk bsize bcount lba -> exists n, size (ds_devices s) = S n.
Proof.
  intros [(t & f & Hp) _ _ _]. destruct (size (ds_devices s)) as [|n] eqn:Hs; [|by exists n].
  apply map_size_empty_inv in Hs. rewrite Hs, lookup_empty in Hp. done.
Qed.

Definition shifted (lba bsize off : Z) : Z := lba * bsize + off.

Lemma shift_small lba bsize off : 0 <= lba * bsize < 2 ^ 63 -> 0 <= off < 2 ^ 63 -> off +! (lba *! bsize) = shifted lba bsize off.
Proof. intros Hl Ho. unfold shifted, u64. rewrite (Z.mod_small (lba * bsize)), Z.mod_small by lia. lia. Qed.

(** A device with the driver's functions. *)
Lemma device_read_driver m vdisk buf off count s d l :
  ds_devices s !! vdisk = Some (mk_partition d l) -> dv_read d = driver_fn ->
  device_read m (Ref vdisk) buf off count s = ('(r, d) ← drv_read buf off count (ds_drv s); Ret (r, set_drv d s)).
Proof. intros Hd Hr. destruct m; cbn [device_read load]; rewrite Hd; cbn [of_option mbind outcome_bind pd_dev]; by rewrite Hr. Qed.
Lemma device_write_driver m vdisk buf off count s d l :
  ds_devices s !! vdisk = Some (mk_partition d l) -> dv_write d = driver_fn ->
  device_write m (Ref vdisk) buf off count s = ('(r, d) ← drv_write buf off count (ds_drv s); Ret (r, set_drv d s)).
Proof. intros Hd Hr. destruct m; cbn [device_write load]; rewrite Hd; cbn [of_option mbind outcome_bind pd_dev]; by rewrite Hr. Qed.

Lemma partition_read_spec s dev vdisk bsize bcount lba L A n b0 k buf off count :
  partition_of s dev vdisk bsize bcount lba -> dk_ok (ds_drv s) L A (dk_cost count + n) -> dk_foreign (ds_drv s) L b0 k ->
  read_range b0 k buf off count -> (off + count <= bcount * bsize -> dk_reads (shifted lba bsize off) count) ->
  returns (dev_read (Ref dev) buf off count s) (fun '(r, s') =>
    if decide (off + count <= bcount * bsize) then r = count /\ exists d' L', s' = set_drv d' s /\
      dk_ok d' L' A n /\ keeps dk_foreign (eq b0) (ds_drv s) d' L L' /\ gains dk_foreign [] (ds_drv s) d' L L' /\ dk_foreign d' L' b0 k /\
      forall x, b0 <= x < b0 + k -> rd (drv_mem d') x = if decide (buf <= x < buf + count) then A (shifted lba bsize off + (x - buf)) else rd (ds_mem s) x
    else r = -1 /\ s' = s).
Proof.
  intros Hp Hok Hf Hr Hrd. destruct (devices_two _ _ _ _ _ _ Hp) as [m Hm]. destruct Hp as [(t & f & Hp) (d & l & Hd & Hdr & _) Hbs (Hlba & Hbc & Hfit)].
  pose proof Hr as [Ho Hc He Hb Hk].
  unfold dev_read. rewrite Hm. cbn [device_read load]. rewrite Hp. cbn [of_option mbind outcome_bind pd_dev dv_read dv_bsize dv_specific].
  rewrite in_range_spec by lia. destruct (Z.leb_spec (off + count) (bcount * bsize)) as [Hin|Hout]; destruct (decide (off + count <= bcount * bsize)); try lia; cbn [negb].
  - cbn [starting_lba pd_starting_lba of_option mbind outcome_bind]. rewrite shift_small by (try split; nia).
    rewrite (device_read_driver _ _ _ _ _ _ d l Hd Hdr).
    mcall (dk_read_ok (ds_drv s) L A n b0 k buf (shifted lba bsize off) count Hok Hf); [split; unfold shifted; nia|by apply Hrd|].
    intros [r d'] (-> & L' & Hok' & Hkp & Hgn & Hf' & Hbuf). replace (clipped dk_size (shifted lba bsize off) count) with count in * by (unfold clipped, shifted; nia).
    apply returns_ret. split; [done|]. by exists d', L'.
  - done.
Qed.

Lemma partition_write_spec s dev vdisk bsize bcount lba L A n b0 k buf off count :
  partition_of s dev vdisk bsize bcount lba -> dk_ok (ds_drv s) L A (dk_cost count + n) -> dk_foreign (ds_drv s) L b0 k ->
  read_range b0 k buf off count -> (off + count <= bcount * bsize -> dk_writes (shifted lba bsize off) count) ->
  returns (dev_write (Ref dev) buf off count s) (fun '(r, s') =>
    if decide (off + count <= bcount * bsize) then r = count /\ exists d' L', s' = set_drv d' s /\
      dk_ok d' L' (overwritten (ds_mem s) buf (shifted lba bsize off) count A) n /\ keeps dk_foreign (fun _ => False) (ds_drv s) d' L L' /\ gains dk_foreign [] (ds_drv s) d' L L'
    else r = -1 /\ s' = s).
Proof.
  intros Hp Hok Hf Hr Hrd. destruct (devices_two _ _ _ _ _ _ Hp) as [m Hm]. destruct Hp as [(t & f & Hp) (d & l & Hd & _ & Hdw) Hbs (Hlba & Hbc & Hfit)].
  pose proof Hr as [Ho Hc He Hb Hk].
  unfold dev_write. rewrite Hm. cbn [device_write load]. rewrite Hp. cbn [of_option mbind outcome_bind pd_dev dv_write dv_bsize dv_specific].
  rewrite in_range_spec by lia. destruct (Z.leb_spec (off + count) (bcount * bsize)) as [Hin|Hout]; destruct (decide (off + count <= bcount * bsize)); try lia; cbn [negb].
  - cbn [starting_lba pd_starting_lba of_option mbind outcome_bind]. rewrite shift_small by (try split; nia).
    rewrite (device_write_driver _ _ _ _ _ _ d l Hd Hdw).
    mcall (dk_write_ok (ds_drv s) L A n b0 k buf (shifted lba bsize off) count Hok Hf); [split; unfold shifted; nia|by apply Hrd|unfold shifted; nia|].
    intros [r d'] (-> & L' & Hok' & Hkp & Hgn). apply returns_ret. split; [done|]. by exists d', L'.
  - done.
Qed.

End Partition.
End DeviceSpec.
