(* ===== verification/PartitionScan.v ===== *)
(** * The scan of a GUID partition table

    [gpt_table A bsize]: the partitions the table on a disk with the bytes
    [A] describes.  [partition_disk_device] makes a device for each of them,
    and for nothing else. *)

From stdpp Require Import gmap strings.
From S2P Require Import Prelude Macros Locking Mem CString FrameHdr FrameAlloc PageIface Slab SlabProof HeapSpec HeapFrame Kprintf KprintfSpec KprintfTheorems Device DeviceSpec.

Module PartitionScan.
Import Macros Locking Mem CString FrameHdr FrameAlloc PageIface Slab SlabProof HeapSpec HeapFrame Kprintf KprintfSpec KprintfTheorems Device DeviceSpec.

(** ** The table on the disk *)

(** Little-endian numbers. *)
Fixpoint le (n : nat) (f : Z -> Z) (x : Z) : Z := match n with O => 0 | S n => f x + 256 * le n f (x + 1) end.

Lemma read_le_le n a m : read_le n a m = le n (rd m) a.
Proof. revert a. induction n as [|n IH]; intros a; simpl; [done|]. by rewrite IH. Qed.

(** [f] at [a] is [g] at [b]. *)
Lemma le_ext n f g a b : (forall o, 0 <= o < Z.of_nat n -> f (a + o) = g (b + o)) -> le n f a = le n g b.
Proof.
  revert a b. induction n as [|n IH]; intros a b Hx; [done|]. cbn [le]. f_equal; [|f_equal].
  - specialize (Hx 0 ltac:(lia)). by rewrite !Z.add_0_r in Hx.
  - apply IH. intros o Ho. specialize (Hx (o + 1) ltac:(lia)). by rewrite !(Z.add_comm o 1), !Z.add_assoc in Hx.
Qed.

Definition signature : list Z := Eval vm_compute in map (fun a => Z.of_N (Ascii.N_of_ascii a)) (String.list_ascii_of_string "EFI PART").

Record part := mk_part { p_index : Z; p_lba : Z; p_bcount : Z }.

Section Table.
Context (A : Z -> Z) (bsize : Z).

Definition table_lba : Z := le 8 A (bsize + 72).
Definition table_count : Z := le 4 A (bsize + 80).
Definition table_entry_size : Z := le 4 A (bsize + 84).
Definition entry_pos (i : Z) : Z := table_lba * bsize + i * table_entry_size.

(** Entries without a type are unused. *)
Definition gpt_part (i : Z) : list part :=
  let p := entry_pos i in
  if (le 8 A p =? 0) && (le 8 A (p + 8) =? 0) then []
  else [mk_part i (le 8 A (p + 32)) (le 8 A (p + 40) -! le 8 A (p + 32) +! 1)].
Definition gpt_table : list part := concat (gpt_part <$> seqZ 0 table_count).

End Table.

Section Scan.
Context {PA : PageAllocator} {Drv : BlockDriver} {Ok : DriverOk}.
Context (lit : string -> Z).

Definition format_text : list Z := Eval vm_compute in map (fun a => Z.of_N (Ascii.N_of_ascii a)) (String.list_ascii_of_string "%sp%lu").

(** The two literals are in the image of the kernel. *)
Record literals (h : heap) : Prop := {
  li_format : cstr (h_mem h) (lit "%sp%lu") format_text;
  li_format_static : forall x, lit "%sp%lu" <= x <= lit "%sp%lu" + 6 -> static h x;
  li_sig : forall i, 0 <= i < 8 -> rd (h_mem h) (lit "EFI PART" + i) = signature !!! Z.to_nat i;
  li_sig_static : forall x, lit "EFI PART" <= x < lit "EFI PART" + 8 -> static h x
}.

(** The disk at [vdisk], with its name, among other devices. *)
Record disk_ok (s : devs) (L : gmap Z Z) (vdisk bsize : Z) (name : list Z) : Prop := {
  dd_dev : exists d l, ds_devices s !! vdisk = Some (mk_partition d l) /\ dv_read d = driver_fn /\ dv_bsize d = bsize /\ dv_write d = driver_fn;
  dd_block : exists k, dk_foreign (ds_drv s) L vdisk k /\ OFFSET_NAME + DEVICE_NAME_LENGTH <= k;
  dd_name : cstr (ds_mem s) (vdisk + OFFSET_NAME) name /\ (length name < 256)%nat;
  dd_all : forall a, is_Some (ds_devices s !! a) -> exists k, dk_foreign (ds_drv s) L a k;
  dd_lits : literals (ds_heap s);
  dd_lock : unlocked (ds_kprintf_lock s)
}.

Lemma literals_keep P d d' L L' : keeps dk_foreign P d d' L L' -> literals (drv_heap d) -> literals (drv_heap d').
Proof.
  intros [Hd _ Hs] [Hf Hfs Hg Hgs]. split.
  - eapply cstr_ext; [|exact Hf]. intros x Hx. apply Hs, Hfs. done.
  - intros x Hx. rewrite static_done by done. by apply Hfs.
  - intros i Hi. rewrite Hs by (apply Hgs; lia). by apply Hg.
  - intros x Hx. rewrite static_done by done. by apply Hgs.
Qed.

(** The disk after others have used the heap. *)
Lemma disk_keep P s s' L L' vdisk bsize name :
  disk_ok s L vdisk bsize name -> keeps dk_foreign P (ds_drv s) (ds_drv s') L L' ->
  (forall a, is_Some (ds_devices s !! a) -> ~ P a) -> (forall a, ds_devices s' !! a = ds_devices s !! a \/ ds_devices s !! a = None) ->
  (forall a, is_Some (ds_devices s' !! a) -> ds_devices s !! a = None -> exists k, dk_foreign (ds_drv s') L' a k) ->
  unlocked (ds_kprintf_lock s') -> disk_ok s' L' vdisk bsize name.
Proof.
  intros [(d & l & Hd & Hr & Hb) (k & Hk & Hk2) [Hn Hl] Hall Hlit Hlk] Hkp HP Hdev Hnew Hlk'.
  assert (~ P vdisk) as Hv by (apply HP; by eexists). destruct (kp_foreign _ _ _ _ _ _ Hkp vdisk k Hk Hv) as [Hk' Hx].
  split; [| |split; [|done]| |by eapply literals_keep|done].
  - exists d, l. destruct (Hdev vdisk) as [->|?]; [done|congruence].
  - by exists k.
  - eapply cstr_ext; [|exact Hn]. intros x Hxr. apply Hx. unfold OFFSET_NAME, DEVICE_NAME_LENGTH in *. lia.
  - intros a Ha. destruct (Hdev a) as [Heq|He]; [|by apply Hnew]. rewrite Heq in Ha. destruct (Hall a Ha) as [ka Hka].
    exists ka. by apply (kp_foreign _ _ _ _ _ _ Hkp a ka Hka), HP.
Qed.

(** ** Names *)

Definition index_text (i : Z) : list Z := int_text (ch "u") 0 0 FLAGS_LONG (i + 1).
Definition part_name (name : list Z) (i : Z) : list Z := take 255 (name ++ [ch "p"] ++ index_text i).

Lemma index_text_digits i : 0 <= i < 2 ^ 63 -> index_text i = reverse (digit_char FLAGS_LONG <$> digits 32 (i + 1) 10).
Proof.
  intros Hi. unfold index_text, int_text. change (base_of (ch "u")) with 10. change (int_flags (ch "u") FLAGS_LONG) with FLAGS_LONG.
  change (arg_value (ch "u") FLAGS_LONG (i + 1)) with (u64 (i + 1)). rewrite u64_small, Z.abs_eq by lia. destruct (Z.ltb_spec (i + 1) 0); [lia|].
  unfold num_text. rewrite num_flags_id by done. change (tst FLAGS_LONG FLAGS_HASH) with false. cbv iota.
  change (num_digits (i + 1) 10 FLAGS_LONG) with (digit_char FLAGS_LONG <$> digits 32 (i + 1) 10). generalize (digit_char FLAGS_LONG <$> digits 32 (i + 1) 10).
  intros ds. change (lead false 0 0 FLAGS_LONG ds) with (ds ++ replicate (0 - length ds) (ch "0")). cbn [Nat.sub replicate]. rewrite app_nil_r.
  rewrite add_sign_room by (by left). change (sign_chars false FLAGS_LONG) with (@nil Z). rewrite app_nil_r.
  change (rev_text ds (lead_width false 0 FLAGS_LONG) FLAGS_LONG) with (replicate (0 - length ds) (ch " ") ++ reverse ds ++ []).
  cbn [Nat.sub replicate app]. apply app_nil_r.
Qed.

(** The number in the name is the partition's, from 1 on. *)
Lemma index_text_decimal i : 0 <= i < 2 ^ 63 -> decode 10 (index_text i) = i + 1 /\ (length (index_text i) <= 32)%nat.
Proof.
  intros Hi. rewrite index_text_digits by done. split.
  - pose proof (decode_digits FLAGS_LONG 10 (i + 1) 0) as Hd. cbn [replicate] in Hd. rewrite app_nil_r in Hd. apply Hd; lia.
  - rewrite length_reverse, length_fmap. apply digits_length.
Qed.

(** The characters of a name. *)
Lemma index_text_chars i : 0 <= i < 2 ^ 63 -> Forall (fun c => 0 < c < 256) (index_text i).
Proof.
  intros Hi. rewrite index_text_digits by done. apply Forall_reverse, Forall_fmap. eapply Forall_impl; [apply digits_range; lia|].
  intros d Hd. cbn in Hd |- *. unfold digit_char. change (ch "0") with 48. change (ch "A") with 65. change (ch "a") with 97.
  destruct (Z.ltb_spec d 10), (tst FLAGS_LONG FLAGS_UPPERCASE); lia.
Qed.

Lemma name_formats s L vdisk bsize name a i :
  disk_ok s L vdisk bsize name -> (forall x, static (ds_heap s) x -> ~ (a + OFFSET_NAME <= x < a + OFFSET_NAME + DEVICE_NAME_LENGTH)) ->
  (forall x, vdisk + OFFSET_NAME <= x < vdisk + OFFSET_NAME + DEVICE_NAME_LENGTH -> ~ (a + OFFSET_NAME <= x < a + OFFSET_NAME + DEVICE_NAME_LENGTH)) ->
  0 <= i < 2 ^ 63 ->
  formats (ds_mem s) (fun x => ~ (a + OFFSET_NAME <= x < a + OFFSET_NAME + DEVICE_NAME_LENGTH)) name_fuel (lit "%sp%lu") [vdisk + OFFSET_NAME; i + 1]
    (name ++ [ch "p"] ++ index_text i).
Proof.
  intros [_ _ [Hn Hl] _ [Hf Hfs _ _] _] Hst Hvd Hi. destruct (index_text_decimal i Hi) as [_ Hlen].
  exists [Conv (mk_spec [] WNone PNone LNone (ch "s")); Lit (ch "p"); Conv (mk_spec [] WNone PNone Ll (ch "u"))].
  split; [repeat constructor; done|]. split; [exact Hf|]. split; [unfold name_fuel; vm_compute; lia|].
  split; [intros x Hx; by apply Hst, Hfs|]. split.
  - eapply (renders_conv _ _ _ _ _ _ _ _ [i + 1] _ _ _ _ name); [apply width_none|apply prec_none| |].
    + refine (text_str (ds_mem s) _ name_fuel (ch "s") 0 0 0 (vdisk + OFFSET_NAME) name [i + 1] _ _ _ _ _); [done|done|lia|unfold name_fuel; lia|]. intros x Hx. apply Hvd. unfold DEVICE_NAME_LENGTH. lia.
    + apply renders_lit. rewrite <- (app_nil_r (index_text i)).
      eapply renders_conv; [apply width_none|apply prec_none|by apply text_int|apply renders_nil].
  - rewrite !length_app. cbn [length]. lia.
Qed.

(** ** A new device *)

Definition part_device (vdisk bsize : Z) (p : part) : partition_device :=
  mk_partition (mk_device DEV_BLOCK 0 bsize (p_bcount p) partition_dev partition_dev (Ref vdisk)) (Some (p_lba p)).

(** The device at [a] is partition [p]. *)
Record part_made (s : devs) (L : gmap Z Z) (vdisk bsize : Z) (name : list Z) (p : part) (a : Z) : Prop := {
  pm_device : ds_devices s !! a = Some (part_device vdisk bsize p);
  pm_block : dk_foreign (ds_drv s) L a (capacity SIZEOF_PARTITION_DEVICE);
  pm_name : cstr (ds_mem s) (a + OFFSET_NAME) (part_name name (p_index p))
}.

Lemma part_name_length name i : (length (part_name name i) <= 255)%nat.
Proof. unfold part_name. rewrite length_take. lia. Qed.

Lemma set_IF_same h : set_IF (mm_IF (h_mm h)) h = h.
Proof. by destruct h as [[] ? ? ? ?]. Qed.

Lemma kvsnprintf_spec s L A n vdisk bsize name a k i :
  disk_ok s L vdisk bsize name -> dk_ok (ds_drv s) L A n -> dk_foreign (ds_drv s) L a k -> OFFSET_NAME + DEVICE_NAME_LENGTH <= k -> a <> vdisk -> 0 <= i < 2 ^ 63 ->
  exists m, kvsnprintf name_fuel (a + OFFSET_NAME) DEVICE_NAME_LENGTH (lit "%sp%lu") [vdisk + OFFSET_NAME; i + 1] s =
      Ret (mk_devs (drv_set_heap (set_mem m (ds_heap s)) (ds_drv s)) (ds_devices s) (mk_spinlock 0 (mm_IF (h_mm (ds_heap s))))) /\
    (forall x, ~ (a <= x < a + k) -> rd m x = rd (ds_mem s) x) /\ cstr m (a + OFFSET_NAME) (part_name name i).
Proof.
  intros Hdk Hok Hf Hk Hne Hi. destruct (dd_block _ _ _ _ _ Hdk) as (kv & Hfv & Hkv).
  pose proof (dk_apart _ _ _ _ _ _ _ _ Hok Hf Hfv Hne) as Hap. unfold disjoint in Hap. unfold OFFSET_NAME, DEVICE_NAME_LENGTH in *.
  assert (0 < a) as Ha0 by (apply (dk_address _ _ _ _ _ _ a Hok Hf); lia).
  assert (formats (ds_mem s) (fun x => ~ (a + 16 <= x < a + 16 + 256)) name_fuel (lit "%sp%lu") [vdisk + 16; i + 1] (name ++ [ch "p"] ++ index_text i)) as Hfm.
  { apply (name_formats s L vdisk bsize name a i Hdk); [|unfold OFFSET_NAME, DEVICE_NAME_LENGTH; lia|done].
    intros x Hx Hin. unfold OFFSET_NAME, DEVICE_NAME_LENGTH in Hin. destruct (dk_address _ _ _ _ _ _ x Hok Hf ltac:(lia)) as [_ Hns]. by apply Hns. }
  exists (write_bytes (a + 16) (part_name name i ++ [0]) (ds_mem s)).
  assert (Forall (fun c => 0 < c < 256) (part_name name i)) as Hch.
  { unfold part_name. apply Forall_take. rewrite !Forall_app. split; [apply (cstr_forall _ _ _ (proj1 (dd_name _ _ _ _ _ Hdk)))|].
    split; [by repeat constructor|by apply index_text_chars]. }
  split_and!.
  - unfold kvsnprintf. cbv zeta. fold (ds_mem s). change vsnprintf_ with snprintf_.
    rewrite (snprintf_spec name_fuel (a + 16) 256 (lit "%sp%lu") _ _
      (mk_pf (mk_outp (ds_mem s) []) (ds_kprintf_lock s) (mm_IF (h_mm (ds_heap s)))) ltac:(lia) ltac:(lia) (dd_lock _ _ _ _ _ Hdk) Hfm).
    cbn [mbind outcome_bind pf_IF pf_out pf_lock o_mem]. do 3 f_equal. exact (set_IF_same (set_mem _ (ds_heap s))).
  - intros x Hx. rewrite rd_write_bytes; [rewrite decide_False; [done|]|].
    + pose proof (part_name_length name i). rewrite length_app. cbn [length]. lia.
    + rewrite Forall_app. split; [|by constructor]. eapply Forall_impl; [exact Hch|]. cbn. lia.
  - by apply cstr_written.
Qed.

Lemma store_ret {T} a (f : T -> T) (m : gmap Z T) x : m !! a = Some x -> store (Ref a) f m = Ret (<[a := f x]> m).
Proof. intros Hx. unfold store. by rewrite Hx. Qed.

Lemma upd_device_ret a f s o : ds_devices s !! a = Some o ->
  upd_device (Ref a) f s = Ret (set_devices (<[a := mk_partition (f (pd_dev o)) (pd_starting_lba o)]> (ds_devices s)) s).
Proof. intros Ho. unfold upd_device. by rewrite (store_ret _ _ _ _ Ho). Qed.

Lemma new_partition_spec s L A n vdisk bsize name p :
  disk_ok s L vdisk bsize name -> dk_ok (ds_drv s) L A (S n) -> 0 <= p_index p < 2 ^ 63 ->
  returns (new_partition lit vdisk bsize (p_bcount p) (p_lba p) (p_index p) s) (fun s' => exists L' a,
    dk_ok (ds_drv s') L' A n /\ keeps dk_foreign (fun _ => False) (ds_drv s) (ds_drv s') L L' /\ gains dk_foreign [a] (ds_drv s) (ds_drv s') L L' /\ disk_ok s' L' vdisk bsize name /\
    part_made s' L' vdisk bsize name p a /\ (forall b k, dk_foreign (ds_drv s) L b k -> a <> b) /\
    ds_devices s' = <[a := part_device vdisk bsize p]> (ds_devices s)).
Proof.
  intros Hdk Hok Hi. unfold new_partition, calloc. mstep. mcall (dk_alloc_ok (ds_drv s) L A n SIZEOF_PARTITION_DEVICE Hok ltac:(done)).
  intros [a h] (L1 & Hok1 & Hk1 & Hg1 & Hf1 & _ & Hfr & _). apply returns_ret. set (d1 := drv_set_heap h (ds_drv s)) in *.
  assert (ds_devices s !! a = None) as Hna.
  { destruct (ds_devices s !! a) eqn:He; [|done]. destruct (dd_all _ _ _ _ _ Hdk a ltac:(by eexists)) as [k Hk]. by destruct (Hfr a k Hk). }
  set (s1 := set_devices (<[a := zero_partition]> (ds_devices s)) (set_drv d1 s)).
  assert (disk_ok s1 L1 vdisk bsize name) as Hdk1.
  { apply (disk_keep (fun _ => False) s s1 L L1 vdisk bsize name Hdk Hk1); [tauto| | |apply Hdk].
    - intros b. cbn. destruct (decide (b = a)) as [->|]; [by right|left]. by rewrite lookup_insert_ne.
    - intros b. cbn. destruct (decide (b = a)) as [->|]; [intros _ _; by eexists|]. rewrite lookup_insert_ne by done. intros [x Hx] Hn. congruence. }
  assert (a <> vdisk) as Hav by (destruct (dd_block _ _ _ _ _ Hdk) as (k & Hk & _); by apply (Hfr vdisk k)).
  destruct (kvsnprintf_spec s1 L1 A n vdisk bsize name a _ (p_index p) Hdk1 Hok1 Hf1 ltac:(done) Hav Hi) as (m & Hkv & Hm & Hnm).
  destruct (dk_mem_ok _ L1 A n a _ m Hok1 Hf1 Hm) as (Hok2 & Hk2 & Hg2 & Hf2). set (d2 := drv_set_heap (set_mem m (drv_heap d1)) d1) in *.
  unfold device_init. rewrite u64_small by lia. mstep. mret Hkv. rewrite (upd_device_ret _ _ _ _ (lookup_insert_eq _ _ _)). apply returns_ret.
  mret (upd_device_ret a (set_dv_fns partition_dev partition_dev) _ _ (lookup_insert_eq _ _ _)).
  mret (store_ret a _ _ _ (lookup_insert_eq _ _ _)). cbn [set_devices ds_devices s1]. rewrite !insert_insert_eq.
  set (s' := mk_devs d2 (<[a := part_device vdisk bsize p]> (ds_devices s)) (mk_spinlock 0 (mm_IF (h_mm (ds_heap s1))))).
  match goal with |- returns (Ret ?t) _ => change t with s' end. apply returns_ret.
  assert (keeps dk_foreign (fun _ => False) (ds_drv s) d2 L L1) as Hk by (eapply keeps_trans; [exact Hk1|exact Hk2|]; intros b k Hb <-; by apply (Hfr a k)).
  exists L1, a. split; [exact Hok2|]. split; [exact Hk|]. split; [exact (gains_trans _ _ _ _ _ _ _ _ _ Hg1 Hg2)|]. split; [|split; [|split; [exact Hfr|reflexivity]]].
  - apply (disk_keep (fun _ => False) s s' L L1 vdisk bsize name Hdk Hk); [tauto| | |done].
    + intros b. cbn. destruct (decide (b = a)) as [->|]; [by right|left]. by rewrite lookup_insert_ne.
    + intros b. cbn. destruct (decide (b = a)) as [->|]; [intros _ _; by eexists|]. rewrite lookup_insert_ne by done. intros [x Hx] Hn. congruence.
  - split; [apply lookup_insert_eq|exact Hf2|]. unfold ds_mem, ds_heap. cbn [s' ds_drv]. unfold d2. by rewrite dk_heap_set.
Qed.

(** ** The devices' use of the heap and the disk *)

Lemma calloc_disk A s L n vdisk bsize name sz :
  disk_ok s L vdisk bsize name -> dk_ok (ds_drv s) L A (S n) -> 0 < sz <= KMALLOC_MAX_CACHE_SIZE ->
  returns (calloc sz s) (fun '(a, s') => exists L', dk_ok (ds_drv s') L' A n /\ disk_ok s' L' vdisk bsize name /\
    keeps dk_foreign (fun _ => False) (ds_drv s) (ds_drv s') L L' /\ gains dk_foreign [a] (ds_drv s) (ds_drv s') L L' /\
    dk_foreign (ds_drv s') L' a (capacity sz) /\ sz <= capacity sz /\
    (forall b k, dk_foreign (ds_drv s) L b k -> a <> b) /\ ds_devices s' = ds_devices s /\ ds_devices s' !! a = None).
Proof.
  intros Hd Hok Hsz. unfold calloc. mcall (dk_alloc_ok (ds_drv s) L A n sz Hok Hsz). intros [a h] (L' & Hok' & Hk & Hg & Hf & Hc & Hfr & _). apply returns_ret.
  exists L'. split_and!; try done.
  - apply (disk_keep (fun _ => False) s (set_ds_heap h s) L L' vdisk bsize name Hd Hk); [by intros ? _ []|by left|intros b [x Hx] Hn; cbn in *; congruence|apply Hd].
  - cbn. destruct (ds_devices s !! a) eqn:He; [|done]. destruct (dd_all _ _ _ _ _ Hd a ltac:(by eexists)) as [k Hb]. by destruct (Hfr a k Hb).
Qed.

Lemma free_disk A s L n vdisk bsize name a k :
  disk_ok s L vdisk bsize name -> dk_ok (ds_drv s) L A n -> dk_foreign (ds_drv s) L a k -> ds_devices s !! a = None ->
  returns (free a s) (fun s' => exists L', dk_ok (ds_drv s') L' A n /\ disk_ok s' L' vdisk bsize name /\
    keeps dk_foreign (eq a) (ds_drv s) (ds_drv s') L L' /\ (forall b j, dk_foreign (ds_drv s') L' b j -> dk_foreign (ds_drv s) L b j /\ b <> a) /\
    ds_devices s' = ds_devices s).
Proof.
  intros Hd Hok Hf Hn. unfold free. mcall (dk_free_ok (ds_drv s) L A n a k Hok Hf). intros h (L' & Hok' & Hk & Hg). apply returns_ret. exists L'. split_and!; try done.
  apply (disk_keep (eq a) s (set_ds_heap h s) L L' vdisk bsize name Hd Hk); [intros b [x Hx] <-; congruence|by left|intros b [x Hx] Hnb; cbn in *; congruence|apply Hd].
Qed.

Lemma disk_read_spec A s L n vdisk bsize name buf k off count :
  disk_ok s L vdisk bsize name -> dk_ok (ds_drv s) L A (dk_cost count + n) -> dk_foreign (ds_drv s) L buf k -> count <= k -> ds_devices s !! buf = None ->
  0 <= off -> 0 <= count < 2 ^ 31 -> off + count <= dk_size < 2 ^ 62 -> dk_reads off count ->
  returns (dev_read (Ref vdisk) buf off count s) (fun '(_, s') => exists L', dk_ok (ds_drv s') L' A n /\ disk_ok s' L' vdisk bsize name /\
    keeps dk_foreign (eq buf) (ds_drv s) (ds_drv s') L L' /\ gains dk_foreign [] (ds_drv s) (ds_drv s') L L' /\ dk_foreign (ds_drv s') L' buf k /\ ds_devices s' = ds_devices s /\
    forall o, 0 <= o < count -> rd (ds_mem s') (buf + o) = A (off + o)).
Proof.
  intros Hd Hok Hf Hk Hn Ho Hc Hs Hr. destruct (dd_dev _ _ _ _ _ Hd) as (d & l & Hdv & Hrd & _).
  unfold dev_read. rewrite (device_read_driver _ _ _ _ _ _ d l Hdv Hrd).
  mcall (dk_read_ok (ds_drv s) L A n buf k buf off count Hok Hf); [split; lia|done|]. intros [r d'] (-> & L' & Hok' & Hkp & Hg & Hf' & Hbuf). apply returns_ret.
  exists L'. replace (clipped dk_size off count) with count in Hbuf by (unfold clipped; lia). split_and!; try done.
  - apply (disk_keep (eq buf) s (set_drv d' s) L L' vdisk bsize name Hd Hkp); [intros b [x Hx] <-; congruence|by left|intros b [x Hx] Hnb; cbn in *; congruence|apply Hd].
  - intros o Hoo. unfold ds_mem, ds_heap. cbn [set_drv ds_drv]. fold (drv_mem d'). rewrite Hbuf, decide_True by lia. f_equal. lia.
Qed.

(** ** The loop over the entries *)

(** A disk with a table that can be read. *)
Record gpt_disk (A : Z -> Z) (bsize : Z) : Prop := {
  gd_bsize : 88 <= bsize <= KMALLOC_MAX_CACHE_SIZE;
  gd_entry : 48 <= table_entry_size A bsize <= KMALLOC_MAX_CACHE_SIZE;
  gd_lba : 0 <= table_lba A bsize;
  gd_count : 0 <= table_count A bsize < 2 ^ 32;
  gd_fits : 2 * bsize <= dk_size /\ entry_pos A bsize (table_count A bsize) <= dk_size < 2 ^ 62;
  gd_reads : dk_reads bsize bsize /\ forall i, 0 <= i < table_count A bsize -> dk_reads (entry_pos A bsize i) (table_entry_size A bsize);
  gd_sig : forall i, 0 <= i < 8 -> A (bsize + i) = signature !!! Z.to_nat i
}.

(** The header in memory. *)
Lemma header_at A bsize lba1 s : gpt_disk A bsize -> (forall o, 0 <= o < bsize -> rd (ds_mem s) (lba1 + o) = A (bsize + o)) ->
  partentries_count lba1 (ds_mem s) = table_count A bsize /\ pea_entry_size lba1 (ds_mem s) = table_entry_size A bsize /\
  guid_pea_start_lba lba1 (ds_mem s) = table_lba A bsize.
Proof.
  intros Hg Hh. pose proof (gd_bsize _ _ Hg). unfold partentries_count, pea_entry_size, guid_pea_start_lba, read32, read64. rewrite !read_le_le.
  split_and!; apply le_ext; intros o Ho; rewrite <- !Z.add_assoc; apply Hh; lia.
Qed.

Section Loop.
Context (A : Z -> Z) (vdisk bsize : Z) (name : list Z) (lba1 k1 entry k2 : Z).
Context (Hgpt : gpt_disk A bsize).

Abbreviation esz := (table_entry_size A bsize).

(** The header is at [lba1], [entry] is the buffer for entries. *)
Record scanning (n : nat) (s : devs) (L : gmap Z Z) : Prop := {
  sc_ok : dk_ok (ds_drv s) L A n;
  sc_disk : disk_ok s L vdisk bsize name;
  sc_lba1 : dk_foreign (ds_drv s) L lba1 k1 /\ bsize <= k1;
  sc_header : forall o, 0 <= o < bsize -> rd (ds_mem s) (lba1 + o) = A (bsize + o);
  sc_entry : dk_foreign (ds_drv s) L entry k2 /\ esz <= k2;
  sc_apart : lba1 <> entry;
  sc_devices : ds_devices s !! lba1 = None /\ ds_devices s !! entry = None
}.

Lemma header_fields n s L : scanning n s L ->
  partentries_count lba1 (ds_mem s) = table_count A bsize /\ pea_entry_size lba1 (ds_mem s) = esz /\ guid_pea_start_lba lba1 (ds_mem s) = table_lba A bsize.
Proof. intros Hs. apply (header_at A bsize lba1 s Hgpt), Hs. Qed.

Lemma part_keep P s s' L L' p a :
  part_made s L vdisk bsize name p a -> keeps dk_foreign P (ds_drv s) (ds_drv s') L L' -> ~ P a -> ds_devices s' !! a = ds_devices s !! a ->
  part_made s' L' vdisk bsize name p a.
Proof.
  intros [Hd Hf Hn] Hk HP Hdev. destruct (kp_foreign _ _ _ _ _ _ Hk a _ Hf HP) as [Hf' Hx]. split; [congruence|done|].
  eapply cstr_ext; [|exact Hn]. intros x Hr. apply Hx. pose proof (part_name_length name (p_index p)).
  change (capacity SIZEOF_PARTITION_DEVICE) with 512. unfold OFFSET_NAME in *. lia.
Qed.

(** After a read into the buffer, or a new device. *)
Lemma scanning_keep P n n' s s' L L' :
  scanning n s L -> dk_ok (ds_drv s') L' A n' -> keeps dk_foreign P (ds_drv s) (ds_drv s') L L' -> (forall b, P b -> b = entry) ->
  dk_foreign (ds_drv s') L' entry k2 -> disk_ok s' L' vdisk bsize name -> ds_devices s' !! lba1 = None -> ds_devices s' !! entry = None -> scanning n' s' L'.
Proof.
  intros [Hok Hd [Hl Hk1] Hh [He Hk2] Hap [Hn1 Hn2]] Hok' Hk HP He' Hd' Hn1' Hn2'.
  destruct (kp_foreign _ _ _ _ _ _ Hk lba1 k1 Hl) as [Hl' Hx]; [intros Hp; apply Hap; by apply HP|].
  split; try done. intros o Ho. unfold ds_mem, ds_heap. fold (drv_mem (ds_drv s')). rewrite Hx by lia. by apply Hh.
Qed.

Lemma entry_read n s L i :
  scanning (dk_cost esz + n) s L -> 0 <= i < table_count A bsize ->
  returns (dev_read (Ref vdisk) entry (entry_pos A bsize i) esz s) (fun '(_, s') => exists L', scanning n s' L' /\
    keeps dk_foreign (eq entry) (ds_drv s) (ds_drv s') L L' /\ gains dk_foreign [] (ds_drv s) (ds_drv s') L L' /\ ds_devices s' = ds_devices s /\
    forall o, 0 <= o < esz -> rd (ds_mem s') (entry + o) = A (entry_pos A bsize i + o)).
Proof.
  intros Hs Hi. pose proof Hs as [Hok Hd _ _ [He Hk2] _ [Hn1 Hn2]]. destruct Hgpt as [Hbs Hesz Hlba Hcnt [_ Hfit] [_ Hrd] _].
  unfold KMALLOC_MAX_CACHE_SIZE, PAGE_SIZE in *. assert (0 <= entry_pos A bsize i /\ entry_pos A bsize i + esz <= dk_size) as [Hp0 Hp1] by (unfold entry_pos in *; nia).
  eapply returns_mono; [apply (disk_read_spec A s L n vdisk bsize name entry k2 _ _ Hd Hok He Hk2 Hn2); [lia|lia|lia|by apply Hrd]|].
  intros [r s'] (L' & Hok' & Hd' & Hk & Hg & He' & Hdev & Hx). exists L'. split; [|done].
  apply (scanning_keep (eq entry) _ n s s' L L' Hs Hok' Hk); [done|done|done|congruence..].
Qed.

Lemma entry_fields s i :
  (forall o, 0 <= o < esz -> rd (ds_mem s) (entry + o) = A (entry_pos A bsize i + o)) ->
  let p := entry_pos A bsize i in
  part_type_guid_low entry (ds_mem s) = le 8 A p /\ part_type_guid_high entry (ds_mem s) = le 8 A (p + 8) /\
  lba_start entry (ds_mem s) = le 8 A (p + 32) /\ lba_end entry (ds_mem s) = le 8 A (p + 40).
Proof.
  intros Hx p. pose proof (gd_entry _ _ Hgpt). unfold part_type_guid_low, part_type_guid_high, lba_start, lba_end, read64. rewrite !read_le_le.
  split_and!; apply le_ext; intros o Ho; rewrite <- ?Z.add_assoc; apply Hx; lia.
Qed.

(** The devices added since [s], for the partitions [l]. *)
Record added (s : devs) (L : gmap Z Z) (l : list part) (s' : devs) (L' : gmap Z Z) (as_ : list Z) : Prop := {
  ad_made : Forall2 (part_made s' L' vdisk bsize name) l as_;
  ad_nodup : NoDup as_;
  ad_fresh : forall a b k, a ∈ as_ -> dk_foreign (ds_drv s) L b k -> a <> b;
  ad_rest : forall b, b ∉ as_ -> ds_devices s' !! b = ds_devices s !! b
}.

Lemma added_nil s L s' L' : ds_devices s' = ds_devices s -> added s L [] s' L' [].
Proof. intros He. split; [constructor|constructor| |by rewrite He]. intros a b k Ha. by apply not_elem_of_nil in Ha. Qed.

Lemma added_one s L s' L' p a :
  part_made s' L' vdisk bsize name p a -> (forall b k, dk_foreign (ds_drv s) L b k -> a <> b) ->
  ds_devices s' = <[a := part_device vdisk bsize p]> (ds_devices s) -> added s L [p] s' L' [a].
Proof.
  intros Hp Hf Hd. split; [by apply Forall2_cons|apply NoDup_singleton| |].
  - intros x b k ->%list_elem_of_singleton. apply Hf.
  - intros b Hb%not_elem_of_cons. rewrite Hd. by rewrite lookup_insert_ne by (destruct Hb; congruence).
Qed.

(** Some, then more. *)
Lemma added_app P s0 L0 s L s' L' l1 l2 as1 as2 :
  added s0 L0 l1 s L as1 -> added s L l2 s' L' as2 -> keeps dk_foreign P (ds_drv s) (ds_drv s') L L' -> (forall a, a ∈ as1 -> ~ P a) ->
  (forall b k, dk_foreign (ds_drv s0) L0 b k -> exists k', dk_foreign (ds_drv s) L b k') ->
  added s0 L0 (l1 ++ l2) s' L' (as1 ++ as2).
Proof.
  intros [Hm1 Hnd1 Hfr1 Hre1] [Hm2 Hnd2 Hfr2 Hre2] Hk HP Hf.
  assert (forall a p, a ∈ as1 -> part_made s L vdisk bsize name p a -> a ∉ as2) as Hna.
  { intros a p Ha Hp Ha2. by apply (Hfr2 a a _ Ha2 (pm_block _ _ _ _ _ _ _ Hp)). }
  assert (forall a, a ∈ as1 -> a ∉ as2) as Hdj.
  { intros a Ha. destruct (list_elem_of_lookup_1 _ _ Ha) as [i Hi]. destruct (Forall2_lookup_r _ _ _ _ _ Hm1 Hi) as (p & _ & Hp). by apply (Hna a p). }
  split.
  - apply Forall2_app; [|done]. apply Forall2_same_length_lookup. split; [by eapply Forall2_length|]. intros i p a Hp Ha.
    pose proof (list_elem_of_lookup_2 _ _ _ Ha) as Hin. eapply part_keep; [exact (Forall2_lookup_lr _ _ _ _ _ _ Hm1 Hp Ha)|done|by apply HP|by apply Hre2, Hdj].
  - by apply NoDup_app.
  - intros a b k [Ha|Ha]%elem_of_app Hb; [by apply (Hfr1 a b k)|]. destruct (Hf b k Hb) as [k' Hk']. by apply (Hfr2 a b k').
  - intros b [Hb1 Hb2]%not_elem_of_app. by rewrite Hre2, Hre1.
Qed.

(** The body of the loop after the read. *)
Lemma entry_step n s L i :
  scanning (S n) s L -> 0 <= i < table_count A bsize -> (forall o, 0 <= o < esz -> rd (ds_mem s) (entry + o) = A (entry_pos A bsize i + o)) ->
  let m := ds_mem s in
  returns (if (part_type_guid_low entry m =? 0) && (part_type_guid_high entry m =? 0) then Ret s
           else new_partition lit vdisk bsize (lba_end entry m -! lba_start entry m +! 1) (lba_start entry m) i s)
    (fun s' => exists L' as_, scanning n s' L' /\ keeps dk_foreign (fun _ => False) (ds_drv s) (ds_drv s') L L' /\ gains dk_foreign as_ (ds_drv s) (ds_drv s') L L' /\
      added s L (gpt_part A bsize i) s' L' as_).
Proof.
  intros Hs Hi Hx m. destruct (entry_fields s i Hx) as (Hl & Hh & Hst & He). subst m. rewrite Hl, Hh, Hst, He. unfold gpt_part.
  pose proof Hs as [Hok Hd [Hf1 _] _ [Hf2 _] _ [Hn1 Hn2]]. destruct (_ && _).
  - apply returns_ret. exists L, []. split_and!; [|apply keeps_refl|apply gains_refl|by apply added_nil].
    by eapply scanning_keep; [exact Hs|by eapply dk_less, Hok; lia|apply (keeps_refl _ (fun _ => False))|done..].
  - pose proof (gd_count _ _ Hgpt). eapply returns_mono; [exact (new_partition_spec s L A n vdisk bsize name (mk_part i _ _) Hd Hok ltac:(cbn; lia))|].
    intros s' (L' & a & Hok' & Hk & Hg & Hd' & Hp & Hfr & Hdev). exists L', [a]. split_and!; [|done|done|by apply added_one].
    eapply scanning_keep; [exact Hs|exact Hok'|exact Hk|done| |done| |].
    + by destruct (kp_foreign _ _ _ _ _ _ Hk entry k2 Hf2 ltac:(tauto)) as [Hf _].
    + rewrite Hdev, lookup_insert_ne by (by apply (Hfr lba1 k1)). done.
    + rewrite Hdev, lookup_insert_ne by (by apply (Hfr entry k2)). done.
Qed.

Lemma added_since s0 L0 s L l s' L' as_ :
  added s L l s' L' as_ -> (forall b k, dk_foreign (ds_drv s0) L0 b k -> exists k', dk_foreign (ds_drv s) L b k') -> ds_devices s = ds_devices s0 ->
  added s0 L0 l s' L' as_.
Proof.
  intros [Hm Hnd Hfr Hre] Hf Hd. split; [done|done| |].
  - intros a b k Ha Hb. destruct (Hf b k Hb) as [k' Hk']. by apply (Hfr a b k' Ha).
  - intros b Hb. by rewrite Hre, Hd.
Qed.

(** A read into the buffer frees nothing. *)
Lemma foreign_read n s s1 L L1 : scanning n s1 L1 -> keeps dk_foreign (eq entry) (ds_drv s) (ds_drv s1) L L1 ->
  forall b k, dk_foreign (ds_drv s) L b k -> exists k', dk_foreign (ds_drv s1) L1 b k'.
Proof.
  intros Hs Hk b k Hb. destruct (decide (entry = b)) as [<-|Hne]; [exists k2; apply Hs|]. exists k. by apply (kp_foreign _ _ _ _ _ _ Hk b k Hb).
Qed.

Lemma next_pos i : 0 <= i < table_count A bsize -> entry_pos A bsize i +! esz = entry_pos A bsize (i + 1).
Proof.
  intros Hi. destruct Hgpt as [Hb Hesz Hlba _ [_ Hfit] _ _]. unfold entry_pos in *. unfold KMALLOC_MAX_CACHE_SIZE, PAGE_SIZE in *.
  rewrite u64_small by nia. lia.
Qed.

Lemma scan_loop (j : nat) fuel i n s L :
  scanning (j * S (dk_cost esz) + n) s L -> 0 <= i -> i + Z.of_nat j = table_count A bsize -> (j <= fuel)%nat ->
  returns (gpt_entries lit fuel i (entry_pos A bsize i) vdisk bsize lba1 entry s) (fun s' => exists L' as_, scanning n s' L' /\
    keeps dk_foreign (eq entry) (ds_drv s) (ds_drv s') L L' /\ gains dk_foreign as_ (ds_drv s) (ds_drv s') L L' /\
    added s L (concat (gpt_part A bsize <$> seqZ i (Z.of_nat j))) s' L' as_).
Proof.
  revert fuel i s L. induction j as [|j IH]; intros fuel i s L Hs Hi Hij Hfu.
  { destruct (header_fields _ _ _ Hs) as (Hc & _ & _). destruct fuel; cbn [gpt_entries]; rewrite Hc; (destruct (Z.ltb_spec i (table_count A bsize)); [lia|]);
      apply returns_ret; exists L, []; (split; [done|]; split; [apply keeps_refl|split; [apply gains_refl|by apply added_nil]]). }
  destruct fuel as [|fuel]; [lia|]. cbn [gpt_entries]. destruct (header_fields _ _ _ Hs) as (-> & -> & _). destruct (Z.ltb_spec i (table_count A bsize)); [|lia].
  replace (S j * S (dk_cost esz) + n)%nat with (dk_cost esz + (S (j * S (dk_cost esz) + n)))%nat in Hs by lia.
  mcall (entry_read _ s L i Hs ltac:(lia)). intros [r s1] (L1 & Hs1 & Hk1 & Hg1 & Hd1 & Hx1). mcall (entry_step _ s1 L1 i Hs1 ltac:(lia) Hx1).
  intros s2 (L2 & as2 & Hs2 & Hk2 & Hg2 & Ha2). destruct (header_fields _ _ _ Hs2) as (_ & -> & _). rewrite next_pos by lia.
  eapply returns_mono; [apply (IH fuel (i + 1) s2 L2 Hs2); lia|]. intros s' (L' & as_ & Hs' & Hk' & Hg' & Ha').
  rewrite seqZ_cons, fmap_cons by lia. replace (Z.pred (Z.of_nat (S j))) with (Z.of_nat j) by lia. cbn [concat]. rewrite <- Z.add_1_r.
  exists L', (as2 ++ as_). split; [done|]. split; [|split].
  - eapply keeps_trans; [eapply keeps_trans; [exact Hk1|exact Hk2|by intros ? ? _ []]|exact Hk'|done].
  - exact (gains_trans _ _ _ _ _ _ _ _ _ (gains_trans _ _ _ _ _ _ _ _ _ Hg1 Hg2) Hg').
  - assert (added s L (gpt_part A bsize i) s2 L2 as2) as Ha by (eapply added_since; [exact Ha2|by eapply foreign_read|done]).
    eapply added_app; [exact Ha|exact Ha'|exact Hk'| |].
    + intros a Hin <-. by apply (ad_fresh _ _ _ _ _ _ Ha2 entry entry k2 Hin (proj1 (sc_entry _ _ _ Hs1))).
    + intros b k Hb. destruct (foreign_read _ _ _ _ _ Hs1 Hk1 b k Hb) as [k' Hb']. exists k'. by destruct (kp_foreign _ _ _ _ _ _ Hk2 b k' Hb' ltac:(by intros [])).
Qed.

(** The loop from the start of the table on. *)
Lemma scan_table n s L :
  scanning (Z.to_nat (table_count A bsize) * S (dk_cost esz) + n) s L ->
  returns (gpt_entries lit (Z.to_nat (partentries_count lba1 (ds_mem s))) 0 (guid_pea_start_lba lba1 (ds_mem s) *! bsize) vdisk bsize lba1 entry s)
    (fun s' => exists L' as_, scanning n s' L' /\ keeps dk_foreign (eq entry) (ds_drv s) (ds_drv s') L L' /\
      gains dk_foreign as_ (ds_drv s) (ds_drv s') L L' /\ added s L (gpt_table A bsize) s' L' as_).
Proof.
  intros Hs. destruct (header_fields _ _ _ Hs) as (-> & _ & ->). pose proof (gd_count _ _ Hgpt).
  assert (table_lba A bsize *! bsize = entry_pos A bsize 0) as ->.
  { destruct Hgpt as [Hb Hesz Hlba _ [_ Hfit] _ _]. unfold entry_pos in *. rewrite u64_small by nia. lia. }
  eapply returns_mono; [apply (scan_loop _ _ 0 n s L Hs); lia|]. unfold gpt_table. by rewrite Z2Nat.id by lia.
Qed.

End Loop.

Lemma memcmp_loop_equal n i s1 s2 m : (forall j, i <= j < i + Z.of_nat n -> rd m (s1 + j) = rd m (s2 + j)) -> memcmp_loop n i s1 s2 m = 0.
Proof.
  revert i. induction n as [|n IH]; intros i Hx; cbn [memcmp_loop]; [done|]. rewrite (Hx i) by lia. rewrite Z.eqb_refl. apply IH. intros j Hj. apply Hx. lia.
Qed.

(** The signature is found. *)
Lemma signature_found A s L vdisk bsize name lba1 :
  gpt_disk A bsize -> disk_ok s L vdisk bsize name -> (forall o, 0 <= o < bsize -> rd (ds_mem s) (lba1 + o) = A (bsize + o)) ->
  memcmp lba1 (lit "EFI PART") 8 (ds_mem s) = 0.
Proof.
  intros Hg Hd Hh. pose proof (gd_bsize _ _ Hg). unfold memcmp. apply memcmp_loop_equal. intros j Hj. rewrite Hh by lia.
  unfold ds_mem. rewrite (li_sig _ (dd_lits _ _ _ _ _ Hd)) by lia. apply (gd_sig _ _ Hg). lia.
Qed.

(** Blocks memory is needed for: the header, an entry, and what the reads
    and the new devices take. *)
Definition scan_cost (A : Z -> Z) (bsize : Z) : nat :=
  S (dk_cost bsize + S (Z.to_nat (table_count A bsize) * S (dk_cost (table_entry_size A bsize)))).

(** From the header on. *)
Lemma scan_body A s L n vdisk bsize name lba1 k1 :
  gpt_disk A bsize -> disk_ok s L vdisk bsize name -> dk_ok (ds_drv s) L A (S (Z.to_nat (table_count A bsize) * S (dk_cost (table_entry_size A bsize)) + n)) ->
  dk_foreign (ds_drv s) L lba1 k1 -> bsize <= k1 -> ds_devices s !! lba1 = None -> (forall o, 0 <= o < bsize -> rd (ds_mem s) (lba1 + o) = A (bsize + o)) ->
  returns ('(entry, s1) ← calloc (pea_entry_size lba1 (ds_mem s)) s;
           s1 ← gpt_entries lit (Z.to_nat (partentries_count lba1 (ds_mem s1))) 0 (guid_pea_start_lba lba1 (ds_mem s) *! bsize) vdisk bsize lba1 entry s1;
           free entry s1)
    (fun s' => exists L' as_, dk_ok (ds_drv s') L' A n /\ disk_ok s' L' vdisk bsize name /\
      keeps dk_foreign (fun _ => False) (ds_drv s) (ds_drv s') L L' /\ gains dk_foreign as_ (ds_drv s) (ds_drv s') L L' /\
      added vdisk bsize name s L (gpt_table A bsize) s' L' as_).
Proof.
  intros Hg Hd Hok Hf Hk1 Hn Hh. pose proof (gd_entry _ _ Hg). destruct (header_at A bsize lba1 s Hg Hh) as (_ & -> & ->).
  mcall (calloc_disk A s L _ vdisk bsize name (table_entry_size A bsize) Hd Hok ltac:(lia)). intros [entry s1] (L1 & Hok1 & Hd1 & Hkp1 & Hg1 & Hf1 & Hc1 & Hfr1 & Hdv1 & Hn1).
  destruct (kp_foreign _ _ _ _ _ _ Hkp1 lba1 k1 Hf ltac:(by intros [])) as [Hf' Hx].
  assert (scanning A vdisk bsize name lba1 k1 entry (capacity (table_entry_size A bsize))
    (Z.to_nat (table_count A bsize) * S (dk_cost (table_entry_size A bsize)) + n) s1 L1) as Hs1.
  { split; [done..| |done|by apply not_eq_sym, (Hfr1 lba1 k1)|by rewrite Hdv1 at 1]. intros o Ho. unfold ds_mem, ds_heap. fold (drv_mem (ds_drv s1)). rewrite Hx by lia. by apply Hh. }
  destruct (header_fields _ _ _ _ _ _ _ _ Hg _ _ _ Hs1) as (_ & _ & <-).
  mcall (scan_table _ _ _ _ _ _ _ _ Hg _ _ _ Hs1). intros s2 (L2 & as_ & Hs2 & Hkp2 & Hg2 & Ha).
  destruct Hs2 as [Hok2 Hd2 _ _ [Hf2 _] _ [_ Hn2]]. eapply returns_mono; [exact (free_disk A s2 L2 n vdisk bsize name entry _ Hd2 Hok2 Hf2 Hn2)|].
  intros s3 (L3 & Hok3 & Hd3 & Hkp3 & Hg3 & Hdv3). exists L3, as_. split_and!; [done|done| | |].
  - eapply keeps_trans; [eapply keeps_trans; [exact Hkp1|exact Hkp2|]|exact Hkp3|]; intros b k Hb <-; by apply (Hfr1 entry k).
  - exact (gains_free _ _ _ _ _ _ _ _ _ (gains_trans _ _ _ _ _ _ _ _ _ Hg1 Hg2) Hg3).
  - rewrite <- (app_nil_r (gpt_table A bsize)), <- (app_nil_r as_). eapply added_app; [|by apply added_nil|exact Hkp3| |].
    + eapply added_since; [exact Ha| |done]. intros b k Hb. exists k. by destruct (kp_foreign _ _ _ _ _ _ Hkp1 b k Hb ltac:(by intros [])).
    + intros a Hin <-. by apply (ad_fresh _ _ _ _ _ _ _ _ _ Ha entry entry _ Hin Hf1).
    + intros b k Hb. exists k. destruct (kp_foreign _ _ _ _ _ _ Hkp1 b k Hb ltac:(by intros [])) as [Hb1 _].
      by destruct (kp_foreign _ _ _ _ _ _ Hkp2 b k Hb1 (Hfr1 b k Hb)).
Qed.

Lemma scan_spec A s L n vdisk bsize name :
  disk_ok s L vdisk bsize name -> dk_ok (ds_drv s) L A (scan_cost A bsize + n) -> gpt_disk A bsize ->
  returns (partition_disk_device lit vdisk s) (fun s' => exists L' as_, dk_ok (ds_drv s') L' A n /\ disk_ok s' L' vdisk bsize name /\
    keeps dk_foreign (fun _ => False) (ds_drv s) (ds_drv s') L L' /\ gains dk_foreign as_ (ds_drv s) (ds_drv s') L L' /\
    added vdisk bsize name s L (gpt_table A bsize) s' L' as_).
Proof.
  intros Hd Hok Hg. pose proof Hg as [Hbs Hesz Hlba Hcnt [Hfit1 Hfit] [Hrd1 _] _]. pose proof (dd_dev _ _ _ _ _ Hd) as (d & l & Hdv & Hr & Hb & _).
  unfold KMALLOC_MAX_CACHE_SIZE, PAGE_SIZE in *. unfold partition_disk_device. cbn [load]. rewrite Hdv. cbn [of_option mbind outcome_bind pd_dev]. rewrite Hb.
  unfold scan_cost in Hok. cbn [Nat.add] in Hok. rewrite <- Nat.add_assoc in Hok. cbn [Nat.add] in Hok.
  mcall (calloc_disk A s L _ vdisk bsize name bsize Hd Hok ltac:(unfold KMALLOC_MAX_CACHE_SIZE, PAGE_SIZE; lia)). intros [lba1 s1] (L1 & Hok1 & Hd1 & Hk1 & Hg1 & Hf1 & Hc1 & Hfr1 & Hdv1 & Hn1).
  rewrite Z.mul_1_l, u64_small by lia.
  mcall (disk_read_spec A s1 L1 _ vdisk bsize name lba1 _ bsize bsize Hd1 Hok1 Hf1 Hc1 Hn1 ltac:(lia) ltac:(lia) ltac:(lia) Hrd1).
  intros [r s2] (L2 & Hok2 & Hd2 & Hk2 & Hg2 & Hf2 & Hdv2 & Hh). rewrite (signature_found A s2 L2 vdisk bsize name lba1 Hg Hd2 Hh). cbn [Z.eqb].
  mcall (scan_body A s2 L2 n vdisk bsize name lba1 _ Hg Hd2 Hok2 Hf2 Hc1 ltac:(congruence) Hh). intros s3 (L3 & as_ & Hok3 & Hd3 & Hk3 & Hg3 & Ha).
  destruct (kp_foreign _ _ _ _ _ _ Hk3 lba1 _ Hf2 ltac:(by intros [])) as [Hf3 _].
  assert (lba1 ∉ as_) as Hna by (intros Hin; by apply (ad_fresh _ _ _ _ _ _ _ _ _ Ha lba1 lba1 _ Hin Hf2)).
  eapply returns_mono; [apply (free_disk A s3 L3 n vdisk bsize name lba1 _ Hd3 Hok3 Hf3); by rewrite (ad_rest _ _ _ _ _ _ _ _ _ Ha), Hdv2|].
  intros s4 (L4 & Hok4 & Hd4 & Hk4 & Hg4 & Hdv4).
  assert (keeps dk_foreign (fun _ => False) (ds_drv s) (ds_drv s2) L L2) as Hk02 by (eapply keeps_trans; [exact Hk1|exact Hk2|]; intros b k Hfb <-; by apply (Hfr1 lba1 k)).
  assert (keeps dk_foreign (fun _ => False) (ds_drv s) (ds_drv s3) L L3) as Hk03 by (eapply keeps_trans; [exact Hk02|exact Hk3|]; by intros ? ? _ []).
  exists L4, as_. split_and!; [done|done| | |].
  - eapply keeps_trans; [exact Hk03|exact Hk4|]. intros b k Hfb <-. by apply (Hfr1 lba1 k).
  - exact (gains_free _ _ _ _ _ _ _ _ _ (gains_trans _ _ _ _ _ _ _ _ _ (gains_trans _ _ _ _ _ _ _ _ _ Hg1 Hg2) Hg3) Hg4).
  - rewrite <- (app_nil_r (gpt_table A bsize)), <- (app_nil_r as_). eapply added_app; [|by apply added_nil|exact Hk4| |].
    + eapply added_since; [exact Ha| |congruence]. intros b k Hfb. exists k. by destruct (kp_foreign _ _ _ _ _ _ Hk02 b k Hfb ltac:(by intros [])).
    + intros a Hin <-. done.
    + intros b k Hfb. exists k. by destruct (kp_foreign _ _ _ _ _ _ Hk03 b k Hfb ltac:(by intros [])).
Qed.

End Scan.
End PartitionScan.
