(* ===== verification/NvmeHdr.v ===== *)
(** * The NVMe driver's data (kernel/include/nvme.h, kernel/include/device.h)

    Commands and completions as the controller sees them, the queues, the
    block cache of a namespace and the namespace itself.

    A submission command is a union of views on sixteen double words; it is
    kept in the common format, and the other views are functions to and from
    it.  The two rings of a queue are memory shared with the controller, which is
    the parameter [NvmeController]: whenever the processor looks at the completion
    ring in vain, the controller may work on the rings and on main memory. *)

From stdpp Require Import gmap.
From S2P Require Import Prelude Locking Mem FrameHdr FrameAlloc PageIface Slab Mmu.

Module NvmeHdr.
Import Locking Mem FrameHdr FrameAlloc PageIface Slab Mmu.

Definition NVME_OPC_ADMIN_CRT_IO_SQ : Z := 0x1.
Definition NVME_OPC_ADMIN_CRT_IO_CQ : Z := 0x5.
Definition NVME_OPC_ADMIN_IDENTIFY : Z := 0x6.
Definition NVME_OPC_ADMIN_SET_FEATURES : Z := 0x9.
Definition NVME_OPC_IO_WRITE : Z := 0x1.
Definition NVME_OPC_IO_READ : Z := 0x2.
Definition NVME_CNS_NAMESPACE : Z := 0x00.
Definition NVME_CNS_CONTROLLER : Z := 0x01.
Definition NVME_CNS_NS_LIST : Z := 0x2.
Definition NVME_CMD_FLAGS_PRPS : Z := Z.shiftl 0 14.
Definition NVME_CMD_FLAGS_FUSE_NORMAL : Z := 0.
Definition NVME_SQE_SIZE : Z := 64.
Definition NVME_CQE_SIZE : Z := 16.
Definition NVME_STATUS_READY : Z := 1.
Definition NVME_NCACHES : Z := 1000.
Definition NVME_HASHMAP_SIZE : Z := NVME_NCACHES.
Definition NVME_IDX_INV : Z := 2 ^ 64 - 1.
Definition NVME_BLOCK_SIZE : Z := 512.

(** ** Commands *)

(** [common_command_format_entry]; [dptr_prp1] and [dptr_prp2] are the data
    pointers. *)
Record nvme_scmd_t := mk_scmd {
  c_opc : Z; c_flags : Z; c_cid : Z; c_nsid : Z; c_dword_2 : Z; c_dword_3 : Z; c_mptr : Z;
  c_prp1 : Z; c_prp2 : Z;
  c_dword_10 : Z; c_dword_11 : Z; c_dword_12 : Z; c_dword_13 : Z; c_dword_14 : Z; c_dword_15 : Z
}.
Definition zero_scmd : nvme_scmd_t := mk_scmd 0 0 0 0 0 0 0 0 0 0 0 0 0 0 0.
Definition set_cid (x : Z) (c : nvme_scmd_t) : nvme_scmd_t :=
  mk_scmd (c_opc c) (c_flags c) x (c_nsid c) (c_dword_2 c) (c_dword_3 c) (c_mptr c) (c_prp1 c) (c_prp2 c)
    (c_dword_10 c) (c_dword_11 c) (c_dword_12 c) (c_dword_13 c) (c_dword_14 c) (c_dword_15 c).
Definition set_prps (p1 p2 : Z) (c : nvme_scmd_t) : nvme_scmd_t :=
  mk_scmd (c_opc c) (c_flags c) (c_cid c) (c_nsid c) (c_dword_2 c) (c_dword_3 c) (c_mptr c) p1 p2
    (c_dword_10 c) (c_dword_11 c) (c_dword_12 c) (c_dword_13 c) (c_dword_14 c) (c_dword_15 c).

(** The [read] view: [slba] is 64 bits wide, [nlb] the lower half of the
    double word after it. *)
Definition read_cmd (opc flags nsid slba nlb : Z) : nvme_scmd_t :=
  mk_scmd (u8 opc) (u8 flags) 0 (u32 nsid) 0 0 0 0 0 (slba mod 2 ^ 32) (slba / 2 ^ 32 mod 2 ^ 32) (u16 nlb) 0 0 0.
Definition read_slba (c : nvme_scmd_t) : Z := c_dword_10 c + 2 ^ 32 * c_dword_11 c.
Definition read_nlb (c : nvme_scmd_t) : Z := u16 (c_dword_12 c).

(** The [identify] view. *)
Definition identify_cmd (opc flags nsid prp1 prp2 cns cntid cns_specific_id csi uuid : Z) : nvme_scmd_t :=
  mk_scmd (u8 opc) (u8 flags) 0 (u32 nsid) 0 0 0 prp1 prp2
    (u8 cns + 2 ^ 16 * u16 cntid) (u16 cns_specific_id + 2 ^ 24 * u8 csi) 0 0 (u32 uuid) 0.

(** The [set_features] view. *)
Definition set_features_cmd (opc flags dword_10 dword_11 : Z) : nvme_scmd_t :=
  mk_scmd (u8 opc) (u8 flags) 0 0 0 0 0 0 0 (u32 dword_10) (u32 dword_11) 0 0 0 0.

(** The [create_io_cq] and [create_io_sq] views. *)
Definition create_io_cq_cmd (opc flags prp1 qid qsize flags_2 iv : Z) : nvme_scmd_t :=
  mk_scmd (u8 opc) (u8 flags) 0 0 0 0 0 prp1 0 (u16 qid + 2 ^ 16 * u16 qsize) (u16 flags_2 + 2 ^ 16 * u16 iv) 0 0 0 0.
Definition create_io_sq_cmd (opc flags prp1 qid qsize flags_2 cqid nvmesetid : Z) : nvme_scmd_t :=
  mk_scmd (u8 opc) (u8 flags) 0 0 0 0 0 prp1 0 (u16 qid + 2 ^ 16 * u16 qsize) (u16 flags_2 + 2 ^ 16 * u16 cqid)
    (u16 nvmesetid) 0 0 0.

Record nvme_ccmd_t := mk_ccmd {
  cq_dword_0 : Z; cq_dword_1 : Z; cq_sqhd : Z; cq_sqid : Z; cq_cid : Z; cq_status : Z
}.
Definition zero_ccmd : nvme_ccmd_t := mk_ccmd 0 0 0 0 0 0.
Definition NVME_CQE_SUCCESSFUL (c : nvme_ccmd_t) : bool := Z.shiftr (cq_status c) 1 =? 0.

(** ** Queues *)

(** [sq_data] and [sq_sqt] are the addresses of the ring and of the doorbell;
    [sq_ring] is the ring's contents by index and [sq_bell] what was last
    written to the doorbell.  The completion queue likewise. *)
Record nvme_submission_queue := mk_sq {
  sq_data : Z; sq_ring : gmap Z nvme_scmd_t; sq_sqt : Z; sq_bell : Z;
  sq_tail : Z; sq_head : Z; sq_free_entries : Z; sq_cid_counter : Z
}.
Record nvme_completion_queue := mk_cq {
  cq_data : Z; cq_ring : gmap Z nvme_ccmd_t; cq_cqh : Z; cq_bell : Z; cq_head : Z; cq_phase : Z
}.
Record nvme_queue_ctx := mk_queue {
  q_sq : nvme_submission_queue;
  q_cq : nvme_completion_queue;
  q_entries : Z;
  q_id : Z;
  q_prp_list_container : Z
}.
Definition set_q_sq (x : nvme_submission_queue) (q : nvme_queue_ctx) : nvme_queue_ctx :=
  mk_queue x (q_cq q) (q_entries q) (q_id q) (q_prp_list_container q).
Definition set_q_cq (x : nvme_completion_queue) (q : nvme_queue_ctx) : nvme_queue_ctx :=
  mk_queue (q_sq q) x (q_entries q) (q_id q) (q_prp_list_container q).
Definition set_sq_head (x : Z) (q : nvme_submission_queue) : nvme_submission_queue :=
  mk_sq (sq_data q) (sq_ring q) (sq_sqt q) (sq_bell q) (sq_tail q) x (sq_free_entries q) (sq_cid_counter q).
Definition set_sq_free (x : Z) (q : nvme_submission_queue) : nvme_submission_queue :=
  mk_sq (sq_data q) (sq_ring q) (sq_sqt q) (sq_bell q) (sq_tail q) (sq_head q) x (sq_cid_counter q).
Definition set_cq_ring (x : gmap Z nvme_ccmd_t) (q : nvme_completion_queue) : nvme_completion_queue :=
  mk_cq (cq_data q) x (cq_cqh q) (cq_bell q) (cq_head q) (cq_phase q).

(** What the driver and the controller share while the driver waits for
    queue [dma_qid]: the two rings, the two doorbells, and main memory.  The
    byte at physical address [p] is at [dma_base + p]. *)
Record dma := mk_dma {
  dma_qid : Z;
  dma_sq : gmap Z nvme_scmd_t;
  dma_cq : gmap Z nvme_ccmd_t;
  dma_sqt : Z;
  dma_cqh : Z;
  dma_base : Z;
  dma_mem : mem
}.

(** The controller: its state and what it does in one slice of time, to the
    completion ring and to main memory. *)
Class NvmeController := {
  nvme_hw : Type;
  hw_run : nvme_hw -> dma -> nvme_hw * gmap Z nvme_ccmd_t * mem
}.

(** ** The block cache *)

Inductive nvme_cache_status := NVME_CACHE_DIRTY | NVME_CACHE_VALID | NVME_CACHE_EMPTY.
#[global] Instance cache_status_eq : EqDecision nvme_cache_status.
Proof. solve_decision. Defined.

Record nvme_cache_dll_node := mk_node { nd_index : Z; nd_next : word; nd_prev : word }.
Definition set_nd_next (x : word) (n : nvme_cache_dll_node) : nvme_cache_dll_node := mk_node (nd_index n) x (nd_prev n).
Definition set_nd_prev (x : word) (n : nvme_cache_dll_node) : nvme_cache_dll_node := mk_node (nd_index n) (nd_next n) x.

(** [ce_block] is an address, 0 for none. *)
Record nvme_cache_entry := mk_entry { ce_lruref : word; ce_status : nvme_cache_status; ce_bid : Z; ce_block : Z }.
Definition set_ce_lruref (x : word) (e : nvme_cache_entry) : nvme_cache_entry := mk_entry x (ce_status e) (ce_bid e) (ce_block e).
Definition set_ce_status (x : nvme_cache_status) (e : nvme_cache_entry) : nvme_cache_entry :=
  mk_entry (ce_lruref e) x (ce_bid e) (ce_block e).
Definition set_ce_bid (x : Z) (e : nvme_cache_entry) : nvme_cache_entry := mk_entry (ce_lruref e) (ce_status e) x (ce_block e).
Definition set_ce_block (x : Z) (e : nvme_cache_entry) : nvme_cache_entry := mk_entry (ce_lruref e) (ce_status e) (ce_bid e) x.

Record nvme_cache_hashmap_entry := mk_hentry { he_bid : Z; he_index : Z; he_next : word }.
Definition set_he_next (x : word) (e : nvme_cache_hashmap_entry) : nvme_cache_hashmap_entry := mk_hentry (he_bid e) (he_index e) x.
Definition set_he_pair (b i : Z) (e : nvme_cache_hashmap_entry) : nvme_cache_hashmap_entry := mk_hentry b i (he_next e).

(** The two arrays by index.  The list nodes and the chained entries of the
    hash map are objects of their own, see [nvms]. *)
Record nvme_cache_container := mk_container {
  ct_cache : gmap Z nvme_cache_entry;
  ct_hashmap : gmap Z nvme_cache_hashmap_entry;
  ct_head : word;
  ct_tail : word
}.
Definition set_ct_cache (x : gmap Z nvme_cache_entry) (c : nvme_cache_container) : nvme_cache_container :=
  mk_container x (ct_hashmap c) (ct_head c) (ct_tail c).
Definition set_ct_hashmap (x : gmap Z nvme_cache_hashmap_entry) (c : nvme_cache_container) : nvme_cache_container :=
  mk_container (ct_cache c) x (ct_head c) (ct_tail c).
Definition set_ct_head (x : word) (c : nvme_cache_container) : nvme_cache_container :=
  mk_container (ct_cache c) (ct_hashmap c) x (ct_tail c).
Definition set_ct_tail (x : word) (c : nvme_cache_container) : nvme_cache_container :=
  mk_container (ct_cache c) (ct_hashmap c) (ct_head c) x.

(** ** A namespace and its device *)

Record nvme_ns_ctx := mk_ns {
  ns_nsid : Z;
  ns_queue : nvme_queue_ctx;
  ns_cache_container : nvme_cache_container;
  ns_lba_size : Z;
  ns_mdts : Z;
  ns_cap : Z
}.
Definition set_ns_queue (x : nvme_queue_ctx) (n : nvme_ns_ctx) : nvme_ns_ctx :=
  mk_ns (ns_nsid n) x (ns_cache_container n) (ns_lba_size n) (ns_mdts n) (ns_cap n).
Definition set_ns_container (x : nvme_cache_container) (n : nvme_ns_ctx) : nvme_ns_ctx :=
  mk_ns (ns_nsid n) (ns_queue n) x (ns_lba_size n) (ns_mdts n) (ns_cap n).

Definition SIZEOF_DLL_NODE : Z := 24.
Definition SIZEOF_HASHMAP_ENTRY : Z := 24.

(** ** State

    What every part of the driver works with: the heap with main memory, the
    page tables, and the controller. *)
Section State.
Context {HW : NvmeController}.

Record host := mk_host { ho_heap : heap; ho_vmm : vmm; ho_hw : nvme_hw }.
Definition set_ho_heap (x : heap) (t : host) : host := mk_host x (ho_vmm t) (ho_hw t).
Definition ho_mem (t : host) : mem := h_mem (ho_heap t).
Definition set_ho_mem (m : mem) (t : host) : host := set_ho_heap (set_mem m (ho_heap t)) t.

(** One namespace [*ns], its list nodes and chained hash map entries by
    address, and the lock of the namespace's device. *)
Record nvms := mk_nvms {
  nv_host : host;
  nv_ns : nvme_ns_ctx;
  nv_nodes : gmap Z nvme_cache_dll_node;
  nv_cells : gmap Z nvme_cache_hashmap_entry;
  nv_lock : k_spinlock_t           (* dev->lock *)
}.

Definition set_host (x : host) (s : nvms) : nvms := mk_nvms x (nv_ns s) (nv_nodes s) (nv_cells s) (nv_lock s).
Definition set_ns (x : nvme_ns_ctx) (s : nvms) : nvms := mk_nvms (nv_host s) x (nv_nodes s) (nv_cells s) (nv_lock s).
Definition set_nodes (x : gmap Z nvme_cache_dll_node) (s : nvms) : nvms := mk_nvms (nv_host s) (nv_ns s) x (nv_cells s) (nv_lock s).
Definition set_cells (x : gmap Z nvme_cache_hashmap_entry) (s : nvms) : nvms := mk_nvms (nv_host s) (nv_ns s) (nv_nodes s) x (nv_lock s).
Definition set_nv_lock (x : k_spinlock_t) (s : nvms) : nvms := mk_nvms (nv_host s) (nv_ns s) (nv_nodes s) (nv_cells s) x.

Definition nv_heap (s : nvms) : heap := ho_heap (nv_host s).
Definition set_heap (x : heap) (s : nvms) : nvms := set_host (set_ho_heap x (nv_host s)) s.
Definition nv_mem (s : nvms) : mem := h_mem (nv_heap s).
Definition set_nv_mem (m : mem) (s : nvms) : nvms := set_heap (set_mem m (nv_heap s)) s.
Definition nv_queue (s : nvms) : nvme_queue_ctx := ns_queue (nv_ns s).
Definition set_queue (q : nvme_queue_ctx) (s : nvms) : nvms := set_ns (set_ns_queue q (nv_ns s)) s.
Definition nv_ct (s : nvms) : nvme_cache_container := ns_cache_container (nv_ns s).
Definition set_ct (c : nvme_cache_container) (s : nvms) : nvms := set_ns (set_ns_container c (nv_ns s)) s.

(** The controller's turn. *)
Definition dma_of (q : nvme_queue_ctx) (t : host) : dma :=
  mk_dma (q_id q) (sq_ring (q_sq q)) (cq_ring (q_cq q)) (sq_bell (q_sq q)) (cq_bell (q_cq q)) (h_offset (ho_heap t)) (ho_mem t).
Definition controller_runs (q : nvme_queue_ctx) (t : host) : nvme_queue_ctx * host :=
  let '(hw, cq, m) := hw_run (ho_hw t) (dma_of q t) in
  (set_q_cq (set_cq_ring cq (q_cq q)) q, mk_host (set_mem m (ho_heap t)) (ho_vmm t) hw).

End State.
End NvmeHdr.
