(* ===== verification/Nvme.v ===== *)
(** * The NVMe driver (kernel/src/driver/nvme.c)

    The block cache of a namespace with its least-recently-used list and its
    hash map, the submission and completion queues, reads and writes of
    blocks, and the device functions [nvme_read] and [nvme_write] on top. *)

From stdpp Require Import gmap.
From S2P Require Import Prelude Macros Locking Mem FrameHdr FrameAlloc PageIface Slab Mmu NvmeHdr.

Module Nvme.
Import Macros Locking Mem FrameHdr FrameAlloc PageIface Slab Mmu NvmeHdr.

(** [a[i]] and [a[i].field = x] of an array. *)
Definition elem {A} (i : Z) (a : gmap Z A) : outcome A := of_option "index outside the array" (a !! i).
Definition set_elem {A} (i : Z) (f : A -> A) (a : gmap Z A) : outcome (gmap Z A) :=
  x ← elem i a; Ret (<[i := f x]> a).

(** An object at an address [kfree] can be given. *)
Definition address (p : word) : Z := match p with Ref a => a | Num n => n end.

Section Nvme.
Context {PA : PageAllocator} {HW : NvmeController}.

Definition calloc (n : Z) (s : nvms) : outcome (Z * nvms) :=
  '(a, h) ← kcalloc 1 n (nv_heap s); Ret (a, set_heap h s).
Definition free (a : Z) (s : nvms) : outcome nvms := h ← kfree a (nv_heap s); Ret (set_heap h s).

Definition get_entry (i : Z) (s : nvms) : outcome nvme_cache_entry := elem i (ct_cache (nv_ct s)).
Definition upd_entry (i : Z) (f : nvme_cache_entry -> nvme_cache_entry) (s : nvms) : outcome nvms :=
  c ← set_elem i f (ct_cache (nv_ct s)); Ret (set_ct (set_ct_cache c (nv_ct s)) s).
Definition get_slot (i : Z) (s : nvms) : outcome nvme_cache_hashmap_entry := elem i (ct_hashmap (nv_ct s)).
Definition upd_slot (i : Z) (f : nvme_cache_hashmap_entry -> nvme_cache_hashmap_entry) (s : nvms) : outcome nvms :=
  c ← set_elem i f (ct_hashmap (nv_ct s)); Ret (set_ct (set_ct_hashmap c (nv_ct s)) s).
Definition upd_node (p : word) (f : nvme_cache_dll_node -> nvme_cache_dll_node) (s : nvms) : outcome nvms :=
  n ← store p f (nv_nodes s); Ret (set_nodes n s).

(** ** The cache container *)

(** The three loops of [nvme_cache_container_init], [n] rounds from [i] on. *)
Fixpoint clear_cache (n : nat) (i : Z) (s : nvms) : outcome nvms :=
  match n with
  | O => Ret s
  | S n =>
      s ← upd_entry i (fun e => mk_entry (ce_lruref e) NVME_CACHE_EMPTY NVME_IDX_INV 0) s;
      clear_cache n (i + 1) s
  end.
Fixpoint clear_hashmap (n : nat) (i : Z) (s : nvms) : outcome nvms :=
  match n with
  | O => Ret s
  | S n =>
      s ← upd_slot i (fun _ => mk_hentry NVME_IDX_INV NVME_IDX_INV NULL) s;
      clear_hashmap n (i + 1) s
  end.
Fixpoint make_nodes (n : nat) (i : Z) (s : nvms) : outcome nvms :=
  match n with
  | O => Ret s
  | S n =>
      '(a, s) ← calloc SIZEOF_DLL_NODE s;
      let new := Ref a in
      s ← upd_entry i (set_ce_lruref new) (set_nodes (<[a := mk_node i NULL NULL]> (nv_nodes s)) s);
      let s := if i =? 0 then set_ct (set_ct_tail new (nv_ct s)) s else s in
      let old := ct_head (nv_ct s) in
      let s := set_ct (set_ct_head new (nv_ct s)) s in
      s ← upd_node new (fun _ => mk_node i old NULL) s;
      s ← (if nonnull old then upd_node old (set_nd_prev new) s else Ret s);
      make_nodes n (i + 1) s
  end.

Definition nvme_cache_container_init (s : nvms) : outcome nvms :=
  s ← clear_cache (Z.to_nat NVME_NCACHES) 0 s;
  s ← clear_hashmap (Z.to_nat NVME_HASHMAP_SIZE) 0 s;
  let s := set_ct (set_ct_tail NULL (set_ct_head NULL (nv_ct s))) s in
  make_nodes (Z.to_nat NVME_NCACHES) 0 s.

Fixpoint cleanup_nodes (fuel : nat) (node : word) (s : nvms) : outcome nvms :=
  if nonnull node then
    match fuel with
    | O => Fault "loop does not end"
    | S fuel =>
        n ← load node (nv_nodes s);
        e ← get_entry (nd_index n) s;
        s ← free (ce_block e) s;
        s ← free (address node) s;
        cleanup_nodes fuel (nd_next n) (set_nodes (forget node (nv_nodes s)) s)
    end
  else Ret s.
Definition nvme_cache_container_cleanup (s : nvms) : outcome nvms :=
  cleanup_nodes (S (size (nv_nodes s))) (ct_head (nv_ct s)) s.

Definition nvme_cache_lru_evict (s : nvms) : outcome (Z * nvms) :=
  n ← load (ct_tail (nv_ct s)) (nv_nodes s);
  let index := nd_index n in
  e ← get_entry index s;
  if decide (ce_status e = NVME_CACHE_EMPTY) then
    '(b, s) ← calloc NVME_BLOCK_SIZE s;
    s ← upd_entry index (set_ce_block b) s;
    s ← upd_entry index (set_ce_status NVME_CACHE_VALID) s;
    Ret (index, s)
  else Ret (index, s).

Definition nvme_cache_inform_usage (index : Z) (s : nvms) : outcome nvms :=
  e ← get_entry index s;
  let node := ce_lruref e in
  if decide (node = ct_head (nv_ct s)) then Ret s
  else
    n ← load node (nv_nodes s);
    s ← (if nonnull (nd_prev n) then upd_node (nd_prev n) (set_nd_next (nd_next n)) s else Ret s);
    n ← load node (nv_nodes s);
    s ← (if nonnull (nd_next n) then upd_node (nd_next n) (set_nd_prev (nd_prev n)) s else Ret s);
    n ← load node (nv_nodes s);
    let s := if decide (node = ct_tail (nv_ct s)) then set_ct (set_ct_tail (nd_prev n) (nv_ct s)) s else s in
    s ← upd_node node (set_nd_next (ct_head (nv_ct s))) s;
    s ← upd_node node (set_nd_prev NULL) s;
    s ← upd_node (ct_head (nv_ct s)) (set_nd_prev node) s;
    Ret (set_ct (set_ct_head node (nv_ct s)) s).

(** ** The hash map *)

Definition nvme_cache_hash_func (x : Z) : Z :=
  let x := Z.lxor x 1234567890 +! u64 (Z.shiftl x 12) in
  let x := Z.lxor (Z.lxor x 0xabcdef01) (Z.shiftr x 9) in
  let x := Z.lxor (x +! 0x6543210) (u64 (Z.shiftl x 6)) in
  let x := Z.lxor x 0xdeadbeef +! Z.shiftr x 15 in
  x mod NVME_HASHMAP_SIZE.

(** A pointer to an entry of the hash map: to a slot of the array or to a
    chained entry. *)
Inductive hm_ptr := Slot (i : Z) | Chained (p : word).
Definition hm_load (p : hm_ptr) (s : nvms) : outcome nvme_cache_hashmap_entry :=
  match p with Slot i => get_slot i s | Chained p => load p (nv_cells s) end.
Definition hm_set_next (p : hm_ptr) (x : word) (s : nvms) : outcome nvms :=
  match p with
  | Slot i => upd_slot i (set_he_next x) s
  | Chained p => c ← store p (set_he_next x) (nv_cells s); Ret (set_cells c s)
  end.

(** The entry before the one of [old_bid]. *)
Fixpoint hm_before (fuel : nat) (item : hm_ptr) (old_bid : Z) (s : nvms) : outcome hm_ptr :=
  match fuel with
  | O => Fault "loop does not end"
  | S fuel =>
      e ← hm_load item s;
      n ← load (he_next e) (nv_cells s);
      if he_bid n =? old_bid then Ret item else hm_before fuel (Chained (he_next e)) old_bid s
  end.

Definition hm_remove (old_bid : Z) (s : nvms) : outcome nvms :=
  let old_idx := nvme_cache_hash_func old_bid in
  e ← get_slot old_idx s;
  if he_bid e =? old_bid then upd_slot old_idx (set_he_pair NVME_IDX_INV NVME_IDX_INV) s
  else
    item ← hm_before (S (size (nv_cells s))) (Slot old_idx) old_bid s;
    e ← hm_load item s;
    n ← load (he_next e) (nv_cells s);
    s ← free (address (he_next e)) s;
    hm_set_next item (he_next n) (set_cells (forget (he_next e) (nv_cells s)) s).

Definition hm_add (bid index : Z) (s : nvms) : outcome nvms :=
  let idx := nvme_cache_hash_func bid in
  e ← get_slot idx s;
  if he_bid e =? NVME_IDX_INV then upd_slot idx (set_he_pair bid index) s
  else
    '(a, s) ← calloc SIZEOF_HASHMAP_ENTRY s;
    s ← upd_slot idx (set_he_next (Ref a)) s;
    Ret (set_cells (<[a := mk_hentry bid index (he_next e)]> (nv_cells s)) s).

Definition nvme_cache_hashmap_update (old_bid bid index : Z) (s : nvms) : outcome nvms :=
  s ← (if negb (old_bid =? NVME_IDX_INV) then hm_remove old_bid s else Ret s);
  hm_add bid index s.

Fixpoint hm_find (fuel : nat) (pos : hm_ptr) (bid : Z) (s : nvms) : outcome Z :=
  match fuel with
  | O => Fault "loop does not end"
  | S fuel =>
      e ← hm_load pos s;
      if he_bid e =? bid then Ret (he_index e)
      else if nonnull (he_next e) then hm_find fuel (Chained (he_next e)) bid s
      else Ret NVME_IDX_INV
  end.
Definition nvme_cache_hashmap_find (bid : Z) (s : nvms) : outcome Z :=
  hm_find (S (size (nv_cells s))) (Slot (nvme_cache_hash_func bid)) bid s.

(** ** Queues *)

(** [page_alloc_temp] and [virt2phys] on the state of the driver. *)
Definition alloc_frames (order : Z) (t : host) : outcome (Z * host) :=
  '(pg, m) ← pa_alloc order (h_mm (ho_heap t));
  if nonnull pg then
    idx ← page2idx (mm_pages_count m) pg;
    Ret (idx *! PAGE_SIZE, set_ho_heap (set_mm m (ho_heap t)) t)
  else Panic "NNULL assertion failed".
Definition host_virt2phys (va : Z) (t : host) : outcome (Z * host) :=
  '(p, v) ← virt2phys va (set_v_mm (h_mm (ho_heap t)) (ho_vmm t));
  Ret (p, mk_host (set_mm (v_mm v) (ho_heap t)) v (ho_hw t)).

(** [properties] is the address of the controller's registers, [cap] its
    capabilities register. *)
Definition NVME_PROPERTIES_DSTRD (cap : Z) : Z := Z.land (Z.shiftr cap 32) 0xF.
Definition doorbell (properties cap k : Z) : Z :=
  properties +! 0x1000 +! (k *! u64 (Z.shiftl 4 (NVME_PROPERTIES_DSTRD cap))).

Definition nvme_init_queue (properties cap id entries : Z) (t : host) : outcome (nvme_queue_ctx * host) :=
  let pages_sq := DIV_ROUNDUP (NVME_SQE_SIZE *! entries) PAGE_SIZE in
  let pages_cq := DIV_ROUNDUP (NVME_CQE_SIZE *! entries) PAGE_SIZE in
  '(sq, t) ← alloc_frames (psize2order (pages_sq *! PAGE_SIZE)) t;
  '(cq, t) ← alloc_frames (psize2order (pages_cq *! PAGE_SIZE)) t;
  let off := h_offset (ho_heap t) in
  '(prp, h) ← kcalloc entries 8 (ho_heap t);
  Ret (mk_queue
         (mk_sq (sq +! off) (zeroed zero_scmd entries) (doorbell properties cap (2 *! id)) 0 0 0 (entries -! 1) 0)
         (mk_cq (cq +! off) (zeroed zero_ccmd entries) (doorbell properties cap (2 *! id +! 1)) 0 0 1)
         entries (u16 id) prp, set_ho_heap h t).

(** Whether the command was accepted, [*cmd] and [*queue] afterwards. *)
Definition nvme_queue_submit_single_cmd (q : nvme_queue_ctx) (cmd : nvme_scmd_t) : outcome (bool * nvme_scmd_t * nvme_queue_ctx) :=
  let sq := q_sq q in
  if sq_free_entries sq =? 0 then Ret (false, cmd, q)
  else
    ring ← set_elem (sq_tail sq) (fun _ => cmd) (sq_ring sq);
    let tail := (sq_tail sq +! 1) mod q_entries q in
    let cmd := set_cid (sq_cid_counter sq) cmd in
    Ret (true, cmd, set_q_sq (mk_sq (sq_data sq) ring (sq_sqt sq) (u32 tail) tail (sq_head sq)
                                (sq_free_entries sq -! 1) (u16 (sq_cid_counter sq + 1))) q).

(** The completion with the right phase, and how often it was looked for in
    vain. *)
Fixpoint poll_loop (fuel : nat) (deadlock_count : Z) (q : nvme_queue_ctx) (t : host) : outcome (Z * nvme_queue_ctx * host) :=
  match fuel with
  | O => Ret (deadlock_count, q, t)
  | S fuel =>
      c ← elem (cq_head (q_cq q)) (cq_ring (q_cq q));
      if Z.land (cq_status c) 1 =? cq_phase (q_cq q) then Ret (deadlock_count, q, t)
      else let '(q, t) := controller_runs q t in poll_loop fuel (deadlock_count + 1) q t
  end.
Definition poll_limit : Z := 1000000.

Definition nvme_queue_poll_single_cqe (q : nvme_queue_ctx) (t : host) : outcome (nvme_ccmd_t * nvme_queue_ctx * host) :=
  '(deadlock_count, q, t) ← poll_loop (Z.to_nat (poll_limit + 1)) 0 q t;
  if deadlock_count >=? poll_limit then Panic "nvme driver deadlocked while polling cqe"
  else
    let cq := q_cq q in
    out ← elem (cq_head cq) (cq_ring cq);
    let q := set_q_sq (set_sq_head (cq_sqhd out) (q_sq q)) q in
    let slot := q_prp_list_container q + 8 * (cq_cid out mod q_entries q) in
    let cpy := read64 slot (ho_mem t) in
    let t := if negb (cpy =? 0) then
               let '(_, v) := mmu_unmap_single_page (v_kernel_pml4 (ho_vmm t)) cpy true (ho_vmm t) in
               set_ho_mem (write64 slot 0 (ho_mem t)) (mk_host (ho_heap t) v (ho_hw t))
             else t in
    let head := cq_head cq +! 1 in
    let '(head, phase) := if head =? q_entries q then (0, if cq_phase cq =? 0 then 1 else 0) else (head, cq_phase cq) in
    let q := set_q_cq (mk_cq (cq_data cq) (cq_ring cq) (cq_cqh cq) (u32 head) head phase) q in
    let q := set_q_sq (set_sq_free (sq_free_entries (q_sq q) +! 1) (q_sq q)) q in
    Ret (out, q, t).

(** The address of the structure, 0 on failure. *)
Definition nvme_issue_cmd_identify (aq : nvme_queue_ctx) (cns cntid nsid : Z) (t : host) : outcome (Z * nvme_queue_ctx * host) :=
  '(identifier, t) ← alloc_frames (psize2order (1 * PAGE_SIZE)) t;
  let off := h_offset (ho_heap t) in
  let identifier := identifier +! off in
  let t := set_ho_mem (memset identifier 0 PAGE_SIZE (ho_mem t)) t in
  let prp2 := if negb (identifier mod PAGE_SIZE =? 0) then ALIGN_UP (identifier -! off) PAGE_SIZE else 0 in
  let cmd := identify_cmd NVME_OPC_ADMIN_IDENTIFY (Z.lor NVME_CMD_FLAGS_PRPS NVME_CMD_FLAGS_FUSE_NORMAL) (u16 nsid)
               (identifier -! off) prp2 cns cntid 0 0 0 in
  '(ok, _, aq) ← nvme_queue_submit_single_cmd aq cmd;
  if negb ok then Panic "failed to identify nvme controller"
  else
    '(cqe, aq, t) ← nvme_queue_poll_single_cqe aq t;
    Ret (if NVME_CQE_SUCCESSFUL cqe then identifier else 0, aq, t).

(** ** Blocks *)

(** [for (size_t i = 0; pos < buffer + length; pos += PAGE_SIZE, i++)] *)
Fixpoint prp_list_fill (fuel : nat) (i pos stop prp_list : Z) (t : host) : outcome host :=
  if pos <? stop then
    match fuel with
    | O => Fault "loop does not end"
    | S fuel =>
        '(p, t) ← host_virt2phys pos t;
        prp_list_fill fuel (i + 1) (pos +! PAGE_SIZE) stop prp_list (set_ho_mem (write64 (prp_list + 8 * i) p (ho_mem t)) t)
    end
  else Ret t.

(** The data pointers of a transfer of [length] bytes. *)
Definition nvme_prps (cmd : nvme_scmd_t) (buffer buffer_start length : Z) (q : nvme_queue_ctx) (t : host) : outcome (nvme_scmd_t * host) :=
  if negb (crosses_boundary buffer_start length PAGE_SIZE) then Ret (set_prps buffer_start (c_prp2 cmd) cmd, t)
  else if ((length >=? PAGE_SIZE * 2) && negb (buffer_start mod PAGE_SIZE =? 0)) ||
          ((length >? PAGE_SIZE * 2) && (buffer_start mod PAGE_SIZE =? 0)) then
    '(prp_list, t) ← alloc_frames (psize2order (1 * PAGE_SIZE)) t;
    let prp_list := prp_list +! h_offset (ho_heap t) in
    let slot := q_prp_list_container q + 8 * (sq_cid_counter (q_sq q) mod q_entries q) in
    let t := set_ho_mem (write64 slot prp_list (ho_mem t)) t in
    let pos := ALIGN_UP buffer PAGE_SIZE in
    t ← prp_list_fill (Z.to_nat (length / PAGE_SIZE + 1)) 0 pos (buffer +! length) prp_list t;
    Ret (if negb (buffer_start mod PAGE_SIZE =? 0) then set_prps buffer_start (c_prp2 cmd) cmd else cmd, t)
  else
    '(p, t) ← host_virt2phys (ALIGN_UP buffer PAGE_SIZE) t;
    Ret (set_prps buffer_start p cmd, t).

Definition nvme_rw_blocking (starting_lba blocks buffer opc : Z) (s : nvms) : outcome (bool * nvms) :=
  let ns := nv_ns s in
  if negb (opc =? NVME_OPC_IO_READ) && negb (opc =? NVME_OPC_IO_WRITE) then Ret (false, s)
  else if (blocks >? ns_mdts ns) || (blocks *! ns_lba_size ns >? PAGE_SIZE *! q_entries (nv_queue s)) then Ret (false, s)
  else
    let cmd := read_cmd opc (Z.lor NVME_CMD_FLAGS_FUSE_NORMAL NVME_CMD_FLAGS_PRPS) (ns_nsid ns) starting_lba (blocks -! 1) in
    '(buffer_start, t) ← host_virt2phys buffer (nv_host s);
    '(cmd, t) ← nvme_prps cmd buffer buffer_start (blocks *! ns_lba_size ns) (nv_queue s) t;
    '(ok, _, q) ← nvme_queue_submit_single_cmd (nv_queue s) cmd;
    if negb ok then Ret (false, set_host t s)
    else
      '(cqe, q, t) ← nvme_queue_poll_single_cqe q t;
      Ret (NVME_CQE_SUCCESSFUL cqe, set_queue q (set_host t s)).

(** Logical blocks of a cache block. *)
Definition lbas (s : nvms) : Z := NVME_BLOCK_SIZE / ns_lba_size (nv_ns s).

(** Transfer between the memory of cache entry [i] and block [bid]. *)
Definition transfer (i bid opc : Z) (s : nvms) : outcome (bool * nvms) :=
  e ← get_entry i s;
  nvme_rw_blocking (lbas s *! bid) (lbas s) (ce_block e) opc s.

(** The victim's contents are on the disk when this returns [true]. *)
Definition write_back (evicted_idx : Z) (s : nvms) : outcome (bool * nvms) :=
  e ← get_entry evicted_idx s;
  if decide (ce_status e = NVME_CACHE_DIRTY) then transfer evicted_idx (ce_bid e) NVME_OPC_IO_WRITE s
  else Ret (true, s).

(** The entry [evicted_idx] is for [block] from now on. *)
Definition reassign (evicted_idx block : Z) (status : nvme_cache_status) (s : nvms) : outcome nvms :=
  e ← get_entry evicted_idx s;
  s ← nvme_cache_hashmap_update (ce_bid e) block evicted_idx s;
  s ← upd_entry evicted_idx (set_ce_bid block) s;
  s ← upd_entry evicted_idx (set_ce_status status) s;
  nvme_cache_inform_usage evicted_idx s.

Definition nvme_read_block (block : Z) (s : nvms) : outcome (Z * nvms) :=
  index ← nvme_cache_hashmap_find block s;
  if negb (index =? NVME_IDX_INV) then
    s ← nvme_cache_inform_usage index s;
    Ret (index, s)
  else
    '(evicted_idx, s) ← nvme_cache_lru_evict s;
    '(ok, s) ← write_back evicted_idx s;
    if negb ok then Ret (NVME_IDX_INV, s)
    else
      '(ok, s) ← transfer evicted_idx block NVME_OPC_IO_READ s;
      if negb ok then Ret (NVME_IDX_INV, s)
      else
        s ← reassign evicted_idx block NVME_CACHE_VALID s;
        Ret (evicted_idx, s).

Definition nvme_prep_write_full_block (block : Z) (s : nvms) : outcome (Z * nvms) :=
  index ← nvme_cache_hashmap_find block s;
  if negb (index =? NVME_IDX_INV) then
    e ← get_entry index s;
    s ← (if decide (ce_status e = NVME_CACHE_VALID) then upd_entry index (set_ce_status NVME_CACHE_DIRTY) s else Ret s);
    s ← nvme_cache_inform_usage index s;
    Ret (index, s)
  else
    '(evicted_idx, s) ← nvme_cache_lru_evict s;
    '(ok, s) ← write_back evicted_idx s;
    if negb ok then Ret (NVME_IDX_INV, s)
    else
      s ← reassign evicted_idx block NVME_CACHE_DIRTY s;
      Ret (evicted_idx, s).

(** The node is advanced before its index is used, so the last round looks
    behind the end of the list. *)
Fixpoint flush_nodes (fuel : nat) (node : word) (s : nvms) : outcome nvms :=
  if nonnull node then
    match fuel with
    | O => Fault "loop does not end"
    | S fuel =>
        n ← load node (nv_nodes s);
        let node := nd_next n in
        n ← load node (nv_nodes s);
        e ← get_entry (nd_index n) s;
        s ← (if decide (ce_status e = NVME_CACHE_DIRTY) then upd_entry (nd_index n) (set_ce_status NVME_CACHE_VALID) s else Ret s);
        flush_nodes fuel node s
    end
  else Ret s.
Definition nvme_flush_blocks (s : nvms) : outcome nvms := flush_nodes (S (size (nv_nodes s))) (ct_head (nv_ct s)) s.

(** ** The device functions *)

Definition dev_lock (s : nvms) : outcome nvms :=
  '(IF, l) ← Seq.spin_lock_global (mm_IF (h_mm (nv_heap s))) (nv_lock s);
  Ret (set_nv_lock l (set_heap (set_IF IF (nv_heap s)) s)).
Definition dev_unlock (s : nvms) : nvms :=
  let '(IF, l) := Seq.spin_unlock_global (mm_IF (h_mm (nv_heap s))) (nv_lock s) in
  set_nv_lock l (set_heap (set_IF IF (nv_heap s)) s).

(** [memcpy] from and to the memory of entry [i], [at_] bytes into it. *)
Definition copy_out (i at_ buf n : Z) (s : nvms) : outcome nvms :=
  e ← get_entry i s; Ret (set_nv_mem (memcpy buf (ce_block e + at_) n (nv_mem s)) s).
Definition copy_in (i at_ buf n : Z) (s : nvms) : outcome nvms :=
  e ← get_entry i s; Ret (set_nv_mem (memcpy (ce_block e + at_) buf n (nv_mem s)) s).

(** The stages of both functions return the bytes moved so far, and [false]
    for [goto fail]. *)

(** The unaligned front, with the copy in the direction of the caller. *)
Definition rw_front (copy : Z -> Z -> Z -> Z -> nvms -> outcome nvms) (buf off count : Z) (s : nvms) : outcome (bool * Z * nvms) :=
  if negb (off mod NVME_BLOCK_SIZE =? 0) then
    '(i, s) ← nvme_read_block (ALIGN_DOWN off NVME_BLOCK_SIZE / NVME_BLOCK_SIZE) s;
    if i =? NVME_IDX_INV then Ret (false, 0, s)
    else
      let remaining := min count (NVME_BLOCK_SIZE -! off mod NVME_BLOCK_SIZE) in
      s ← copy i (off mod NVME_BLOCK_SIZE) buf remaining s;
      Ret (true, remaining, s)
  else Ret (true, 0, s).

(** The whole blocks [block] to [block_hi]. *)
Fixpoint rw_blocks (prep : Z -> nvms -> outcome (Z * nvms)) (copy : Z -> Z -> Z -> Z -> nvms -> outcome nvms)
    (fuel : nat) (block block_hi buf bytes : Z) (s : nvms) : outcome (bool * Z * nvms) :=
  if block <=? block_hi then
    match fuel with
    | O => Fault "loop does not end"
    | S fuel =>
        '(i, s) ← prep block s;
        if i =? NVME_IDX_INV then Ret (false, bytes, s)
        else
          s ← copy i 0 (buf + bytes) NVME_BLOCK_SIZE s;
          rw_blocks prep copy fuel (block +! 1) block_hi buf (bytes +! NVME_BLOCK_SIZE) s
    end
  else Ret (true, bytes, s).

(** What is left, at the start of [block]. *)
Definition rw_end (copy : Z -> Z -> Z -> Z -> nvms -> outcome nvms) (block buf bytes count : Z) (s : nvms) : outcome (bool * Z * nvms) :=
  if bytes <? count then
    '(i, s) ← nvme_read_block block s;
    if i =? NVME_IDX_INV then Ret (false, bytes, s)
    else
      s ← copy i 0 (buf + bytes) (count -! bytes) s;
      Ret (true, bytes +! (count -! bytes), s)
  else Ret (true, bytes, s).

Definition block_lo (off : Z) : Z := ALIGN_UP off NVME_BLOCK_SIZE / NVME_BLOCK_SIZE.
Definition block_end (off count : Z) : Z := ALIGN_DOWN (off +! count) NVME_BLOCK_SIZE / NVME_BLOCK_SIZE.
Definition block_hi (off count : Z) : Z := block_end off count -! 1.
Definition block_rounds (off count : Z) : nat := Z.to_nat (block_hi off count - block_lo off + 1).

Definition nvme_read (buf off count : Z) (s : nvms) : outcome (Z * nvms) :=
  s ← dev_lock s;
  '(ok, bytes, s) ← rw_front copy_out buf off count s;
  if negb ok then Ret (s32 bytes, dev_unlock s)
  else
    '(ok, bytes, s) ← rw_blocks nvme_read_block copy_out (block_rounds off count) (block_lo off) (block_hi off count) buf bytes s;
    if negb ok then Ret (s32 bytes, dev_unlock s)
    else
      '(ok, bytes, s) ← rw_end copy_out (block_hi off count +! 1) buf bytes count s;
      Ret (s32 bytes, dev_unlock s).

Definition nvme_write (buf off count : Z) (s : nvms) : outcome (Z * nvms) :=
  s ← dev_lock s;
  '(ok, bytes, s) ← rw_front copy_in buf off count s;
  if negb ok then Ret (s32 bytes, dev_unlock s)
  else
    '(ok, bytes, s) ← rw_blocks nvme_prep_write_full_block copy_in (block_rounds off count) (block_lo off) (block_hi off count) buf bytes s;
    if negb ok then Ret (s32 bytes, dev_unlock s)
    else
      '(ok, bytes, s) ← rw_end copy_in (block_end off count) buf bytes count s;
      Ret (s32 bytes, dev_unlock s).

End Nvme.
End Nvme.
