(* ===== verification/NvmeCache.v ===== *)
(** * The hash map and the list of the block cache

    [hm_rep s H]: the hash map of the cache holds the pairs of [H], the cache
    entry of each cached block.  [lru_rep s l]: the cache entries from the
    most to the least recently used are [l]. *)

From stdpp Require Import gmap functions.
From S2P Require Import Prelude Macros Locking Dll Mem FrameHdr FrameAlloc PageIface Slab SlabProof HeapSpec HeapFrame Mmu NvmeHdr Nvme.

Module NvmeCache.
Import Macros Locking Mem FrameHdr FrameAlloc PageIface Slab SlabProof HeapSpec HeapFrame Mmu NvmeHdr Nvme.

#[global] Program Instance cache_node : Node nvme_cache_dll_node := {|
  nxt := nd_next; prv := nd_prev; set_nxt := set_nd_next; set_prv := set_nd_prev
|}.
Solve All Obligations with by intros.

(** ** Chained entries *)

(** From [w] on, the chained entries with their addresses. *)
Fixpoint chain (cells : gmap Z nvme_cache_hashmap_entry) (w : word) (l : list (Z * (Z * Z))) : Prop :=
  match l with
  | [] => w = NULL
  | (a, (b, x)) :: l => w = Ref a /\ exists next, cells !! a = Some (mk_hentry b x next) /\ chain cells next l
  end.

(** The index paired with [b]. *)
Fixpoint assoc (b : Z) (ps : list (Z * Z)) : option Z :=
  match ps with [] => None | (b', x) :: ps => if b' =? b then Some x else assoc b ps end.

Lemma assoc_elem b x ps : NoDup ps.*1 -> assoc b ps = Some x <-> (b, x) ∈ ps.
Proof.
  induction ps as [|[b' x'] ps IH]; simpl; intros Hnd; [split; [done|by intros ?%elem_of_nil]|].
  apply NoDup_cons in Hnd as [Hb Hnd]. rewrite elem_of_cons. destruct (Z.eqb_spec b' b) as [->|Hne].
  - split; [intros [= ->]; by left|]. intros [[= ->]|Hin]; [done|]. exfalso. apply Hb, list_elem_of_fmap. by exists (b, x).
  - rewrite (IH Hnd). naive_solver.
Qed.

Lemma cells_ext cells cells' w l : (forall a, a ∈ l.*1 -> cells' !! a = cells !! a) -> chain cells w l -> chain cells' w l.
Proof.
  revert w. induction l as [|[a [b x]] l IH]; intros w He; [done|]. intros (-> & next & Ha & Hl). split; [done|].
  exists next. rewrite He by (simpl; left). split; [done|]. apply IH; [|done]. intros. apply He. simpl. by right.
Qed.

Lemma chain_cells cells w l a : chain cells w l -> a ∈ l.*1 -> is_Some (cells !! a).
Proof.
  revert w. induction l as [|[a' [b x]] l IH]; intros w; simpl; [by intros _ ?%elem_of_nil|].
  intros (-> & next & Ha & Hl) [->|Hin]%elem_of_cons; eauto.
Qed.

Lemma chain_length cells w l : chain cells w l -> NoDup l.*1 -> (length l <= size cells)%nat.
Proof.
  intros Hc Hnd. rewrite <- (length_fmap fst), <- size_dom, <- (size_list_to_set (C := gset Z) _ Hnd).
  apply subseteq_size. intros a Ha%elem_of_list_to_set. apply elem_of_dom. by eapply chain_cells.
Qed.

(** ** The hash map *)

Section Cache.
Context {PA : PageAllocator} {HW : NvmeController}.

Lemma hash_range b : 0 <= nvme_cache_hash_func b < NVME_HASHMAP_SIZE.
Proof. apply Z.mod_pos_bound. done. Qed.

(** The pairs of a bucket. *)
Definition bucket (e : nvme_cache_hashmap_entry) (l : list (Z * (Z * Z))) : list (Z * Z) :=
  (if he_bid e =? NVME_IDX_INV then [] else [(he_bid e, he_index e)]) ++ l.*2.

(** [ps] are the pairs of [H] that belong to bucket [i]. *)
Record bucket_ok (H : gmap Z Z) (i : Z) (ps : list (Z * Z)) : Prop := {
  bk_nodup : NoDup ps.*1;
  bk_pairs : forall b x, (b, x) ∈ ps <-> H !! b = Some x /\ nvme_cache_hash_func b = i
}.

Record hm_rep (slots cells : gmap Z nvme_cache_hashmap_entry) (H : gmap Z Z) (ls : Z -> list (Z * (Z * Z))) : Prop := {
  hm_inv : H !! NVME_IDX_INV = None;
  hm_slots : forall i, 0 <= i < NVME_HASHMAP_SIZE -> exists e,
    slots !! i = Some e /\ chain cells (he_next e) (ls i) /\ bucket_ok H i (bucket e (ls i));
  hm_cells : forall i a, a ∈ (ls i).*1 -> is_Some (cells !! a);
  hm_nodup : forall i, NoDup (ls i).*1;
  hm_apart : forall i j a, a ∈ (ls i).*1 -> a ∈ (ls j).*1 -> i = j
}.

Lemma bucket_lookup H i e l b :
  bucket_ok H i (bucket e l) -> nvme_cache_hash_func b = i -> b <> NVME_IDX_INV ->
  H !! b = if he_bid e =? b then Some (he_index e) else assoc b l.*2.
Proof.
  intros [Hnd Hp] Hh Hb. assert (assoc b (bucket e l) = H !! b) as <-.
  { apply option_eq. intros x. rewrite assoc_elem, Hp by done. naive_solver. }
  unfold bucket. destruct (Z.eqb_spec (he_bid e) NVME_IDX_INV) as [He|He]; [|done]. rewrite He.
  destruct (Z.eqb_spec NVME_IDX_INV b); [congruence|done].
Qed.

(** [nvme_cache_hashmap_find], from an entry on. *)
Lemma hm_find_chain fuel p e l b s :
  hm_load p s = Ret e -> chain (nv_cells s) (he_next e) l -> (length l < fuel)%nat ->
  hm_find fuel p b s = Ret (default NVME_IDX_INV (if he_bid e =? b then Some (he_index e) else assoc b l.*2)).
Proof.
  revert fuel p e. induction l as [|[a [b' x]] l IH]; intros [|fuel] p e Hp Hc Hf; simpl in Hf; try lia; cbn [hm_find];
    rewrite Hp; cbn [mbind outcome_bind]; destruct (he_bid e =? b); try done.
  - simpl in Hc. by rewrite Hc.
  - destruct Hc as (-> & next & Ha & Hc). cbn [nonnull].
    rewrite (IH fuel (Chained (Ref a)) (mk_hentry b' x next)); [done| |done|lia].
    cbn [hm_load load]. by rewrite Ha.
Qed.

Lemma hashmap_find_spec s H ls b :
  hm_rep (ct_hashmap (nv_ct s)) (nv_cells s) H ls -> b <> NVME_IDX_INV ->
  nvme_cache_hashmap_find b s = Ret (default NVME_IDX_INV (H !! b)).
Proof.
  intros Hr Hb. destruct (hm_slots _ _ _ _ Hr _ (hash_range b)) as (e & He & Hc & Hk).
  unfold nvme_cache_hashmap_find. erewrite hm_find_chain; [|cbn [hm_load]; unfold get_slot, elem; by rewrite He|exact Hc|].
  - by rewrite (bucket_lookup _ _ _ _ b Hk).
  - pose proof (chain_length _ _ _ Hc (hm_nodup _ _ _ _ Hr _)). lia.
Qed.

(** *** Removing and adding pairs *)

Lemma bucket_delete H i ps1 b x ps2 :
  bucket_ok H i (ps1 ++ (b, x) :: ps2) -> bucket_ok (delete b H) i (ps1 ++ ps2).
Proof.
  intros [Hnd Hp]. rewrite fmap_app, fmap_cons in Hnd. apply NoDup_app in Hnd as (H1 & H2 & [H3 H4]%NoDup_cons). simpl in *.
  split; [rewrite fmap_app; apply NoDup_app; split_and!; [done| |done]; intros y Hy Hy'; apply (H2 y Hy); by right|].
  intros c y. specialize (Hp c y). rewrite lookup_delete_Some. rewrite elem_of_app, elem_of_cons in Hp. rewrite elem_of_app.
  assert ((b, y) ∉ ps1 /\ (b, y) ∉ ps2) as [Hn1 Hn2].
  { split; intros Hin.
    - apply (H2 b); [apply list_elem_of_fmap; by exists (b, y)|left].
    - apply H3, list_elem_of_fmap. by exists (b, y). }
  naive_solver.
Qed.

Lemma bucket_insert H i ps1 b x ps2 :
  bucket_ok H i (ps1 ++ ps2) -> H !! b = None -> nvme_cache_hash_func b = i -> bucket_ok (<[b := x]> H) i (ps1 ++ (b, x) :: ps2).
Proof.
  intros [Hnd Hp] Hb Hh. split.
  - rewrite fmap_app, fmap_cons in *. simpl. apply NoDup_Permutation_proper with (b :: ps1.*1 ++ ps2.*1); [symmetry; by apply Permutation_middle|].
    apply NoDup_cons. split; [|done]. rewrite <- fmap_app. intros ([b' y] & -> & [? _]%Hp)%list_elem_of_fmap. simpl in *. congruence.
  - intros c y. specialize (Hp c y). rewrite elem_of_app, elem_of_cons. rewrite elem_of_app in Hp.
    destruct (decide (c = b)) as [->|Hne]; [rewrite lookup_insert_eq|rewrite lookup_insert_ne by done]; naive_solver congruence.
Qed.

(** The other buckets. *)
Lemma bucket_other H H' i ps b :
  bucket_ok H i ps -> nvme_cache_hash_func b <> i -> (forall c, c <> b -> H' !! c = H !! c) -> bucket_ok H' i ps.
Proof.
  intros [Hnd Hp] Hh He. split; [done|]. intros c y. rewrite Hp. destruct (decide (c = b)) as [->|]; [|by rewrite He]. naive_solver.
Qed.

(** Cutting [a] out of a chain, behind [c] or in front. *)
Lemma chain_cut_front cells w a p l n :
  chain cells w ((a, p) :: l) -> NoDup ((a, p) :: l).*1 -> cells !! a = Some n -> chain (delete a cells) (he_next n) l.
Proof.
  destruct p as [b x]. intros (_ & next & Ha & Hl) [Hna _]%NoDup_cons Hn. simplify_eq/=. eapply cells_ext; [|done].
  intros a' Ha'. rewrite lookup_delete_ne; [done|]. intros ->. done.
Qed.

Lemma chain_cut cells w l1 c q a p l2 ec n :
  chain cells w (l1 ++ (c, q) :: (a, p) :: l2) -> NoDup (l1 ++ (c, q) :: (a, p) :: l2).*1 ->
  cells !! c = Some ec -> cells !! a = Some n ->
  chain (<[c := set_he_next (he_next n) ec]> (delete a cells)) w (l1 ++ (c, q) :: l2).
Proof.
  revert w. induction l1 as [|[d [b x]] l1 IH]; intros w Hc Hnd Hec Hn; simpl in *.
  - destruct q as [b x], p as [b' x']. destruct Hc as (-> & nx & Hc & -> & nx' & Ha & Hl). split; [done|].
    apply NoDup_cons in Hnd as [Hnc [Hna _]%NoDup_cons]. rewrite elem_of_cons in Hnc. simplify_eq/=.
    exists nx'. rewrite lookup_insert_eq. split; [done|]. eapply cells_ext; [|done]. intros a' Ha'.
    rewrite lookup_insert_ne by (intros ->; apply Hnc; by right). rewrite lookup_delete_ne; [done|]. by intros ->.
  - destruct Hc as (-> & nx & Hd & Hl). split; [done|]. exists nx. apply NoDup_cons in Hnd as [Hnd' Hnd].
    rewrite fmap_app, elem_of_app, !fmap_cons, !elem_of_cons in Hnd'. simpl in Hnd'.
    rewrite lookup_insert_ne, lookup_delete_ne by naive_solver. split; [done|]. by apply IH.
Qed.

(** The entry before the one of [old]. *)
Definition before (p : hm_ptr) (l1 : list (Z * (Z * Z))) : hm_ptr :=
  match last l1 with None => p | Some (c, _) => Chained (Ref c) end.

Lemma hm_before_spec fuel p e l1 a old x l2 s :
  hm_load p s = Ret e -> chain (nv_cells s) (he_next e) (l1 ++ (a, (old, x)) :: l2) -> old ∉ l1.*2.*1 -> (length l1 < fuel)%nat ->
  hm_before fuel p old s = Ret (before p l1) /\ exists e', hm_load (before p l1) s = Ret e' /\ he_next e' = Ref a.
Proof.
  revert fuel p e. induction l1 as [|[c [b y]] l1 IH]; intros [|fuel] p e Hp Hc Ho Hf; simpl in Hf; try lia; cbn [hm_before];
    rewrite Hp; cbn [mbind outcome_bind]; simpl in Hc.
  - destruct Hc as (Hn & nx & Ha & _). rewrite Hn. cbn [load]. rewrite Ha. cbn [of_option mbind outcome_bind he_bid].
    rewrite Z.eqb_refl. split; [done|]. exists e. done.
  - destruct Hc as (Hn & nx & Ha & Hc). rewrite Hn. cbn [load]. rewrite Ha. cbn [of_option mbind outcome_bind he_bid].
    simpl in Ho. rewrite elem_of_cons in Ho. destruct (Z.eqb_spec b old) as [->|]; [tauto|].
    assert (before p ((c, (b, y)) :: l1) = before (Chained (Ref c)) l1) as ->.
    { unfold before. rewrite last_cons. by destruct (last l1). }
    apply (IH fuel (Chained (Ref c)) (mk_hentry b y nx)); [cbn [hm_load load]; by rewrite Ha|done|tauto|lia].
Qed.

Definition in_cells (cells : gmap Z nvme_cache_hashmap_entry) (a : Z) : Prop := is_Some (cells !! a).
Definition cells_live (cells : gmap Z nvme_cache_hashmap_entry) (L : gmap Z Z) : Prop := forall a, in_cells cells a -> is_Some (L !! a).

(** The state with other contents of the hash map and another heap. *)
Definition with_map (slots cells : gmap Z nvme_cache_hashmap_entry) (h : heap) (s : nvms) : nvms :=
  set_cells cells (set_ct (set_ct_hashmap slots (nv_ct s)) (set_heap h s)).

Lemma with_map_id s : with_map (ct_hashmap (nv_ct s)) (nv_cells s) (nv_heap s) s = s.
Proof. by destruct s as [[] [? ? [] ? ? ?] ? ? ?]. Qed.
Lemma with_map_map slots cells h slots' cells' h' s :
  with_map slots' cells' h' (with_map slots cells h s) = with_map slots' cells' h' s.
Proof. by destruct s as [[] [? ? [] ? ? ?] ? ? ?]. Qed.

(** What a change of the hash map to [H'] leaves behind. *)
Definition map_changed (s : nvms) (L : gmap Z Z) (H' : gmap Z Z) (n : nat) (s' : nvms) : Prop :=
  exists slots cells h F own L' ls, s' = with_map slots cells h s /\ hm_rep slots cells H' ls /\
    heap_abs h F own L' /\ hkeep (in_cells (nv_cells s)) (nv_heap s) h L L' /\ spare F n /\
    cells_live cells L' /\ (forall a, in_cells cells a -> in_cells (nv_cells s) a \/ L !! a = None) /\
    forall a k, L' !! a = Some k -> ~ in_cells cells a -> L !! a = Some k /\ ~ in_cells (nv_cells s) a.

Lemma hm_rep_slot slots cells H ls i e H' l b :
  hm_rep slots cells H ls -> 0 <= i < NVME_HASHMAP_SIZE -> slots !! i = Some e -> nvme_cache_hash_func b = i ->
  H' !! NVME_IDX_INV = None -> (forall c, c <> b -> H' !! c = H !! c) ->
  forall cells' e', (forall j a, j <> i -> a ∈ (ls j).*1 -> cells' !! a = cells !! a) ->
  chain cells' (he_next e') l -> bucket_ok H' i (bucket e' l) -> NoDup l.*1 -> (forall j a, j <> i -> a ∈ l.*1 -> a ∉ (ls j).*1) ->
  hm_rep (<[i := e']> slots) cells' H' (<[i := l]> ls).
Proof.
  intros [_ Hsl Hcs Hnd Hap] Hi He Hh Hinv HH cells' e' Hc Hl Hb Hndl Hdis. split; [done|..].
  - intros j Hj. destruct (decide (j = i)) as [->|Hne].
    + exists e'. rewrite lookup_insert_eq, fn_lookup_insert. done.
    + rewrite lookup_insert_ne, fn_lookup_insert_ne by done. destruct (Hsl j Hj) as (ej & Hej & Hcj & Hbj). exists ej.
      split_and!; [done| |].
      * eapply cells_ext; [|done]. intros a Ha. by apply Hc with j.
      * eapply bucket_other; [done|by rewrite Hh|done].
  - intros j a. destruct (decide (j = i)) as [->|Hne].
    + rewrite fn_lookup_insert. intros Ha. by eapply chain_cells.
    + rewrite fn_lookup_insert_ne by done. intros Ha. rewrite (Hc j a) by done. by eapply Hcs.
  - intros j. destruct (decide (j = i)) as [->|Hne]; [by rewrite fn_lookup_insert|by rewrite fn_lookup_insert_ne].
  - intros j k a. destruct (decide (j = i)) as [->|], (decide (k = i)) as [->|];
      rewrite ?fn_lookup_insert, ?fn_lookup_insert_ne by done; try done; [| |by apply Hap].
    + intros H1 H2. by destruct (Hdis k a).
    + intros H1 H2. by destruct (Hdis j a).
Qed.

(** Redirecting the entry before [a], which is gone. *)
Lemma hm_cut_spec s i e l1 a p l2 ea :
  ct_hashmap (nv_ct s) !! i = Some e -> nv_cells s !! a = Some ea ->
  chain (nv_cells s) (he_next e) (l1 ++ (a, p) :: l2) -> NoDup (l1 ++ (a, p) :: l2).*1 ->
  returns (hm_set_next (before (Slot i) l1) (he_next ea) (set_cells (delete a (nv_cells s)) s)) (fun s' =>
    exists e' cells, s' = with_map (<[i := e']> (ct_hashmap (nv_ct s))) cells (nv_heap s) s /\
      he_bid e' = he_bid e /\ he_index e' = he_index e /\ chain cells (he_next e') (l1 ++ l2) /\
      dom cells = dom (nv_cells s) ∖ {[a]} /\ forall b, b ∉ (l1 ++ (a, p) :: l2).*1 -> cells !! b = nv_cells s !! b).
Proof.
  intros He Hea Hc Hnd. destruct l1 as [|[c q] l1 _] using rev_ind.
  - cbn [before last hm_set_next]. unfold upd_slot, set_elem, elem. change (nv_ct (set_cells _ s)) with (nv_ct s).
    rewrite He. cbn [of_option mbind outcome_bind]. apply returns_ret. exists (set_he_next (he_next ea) e), (delete a (nv_cells s)).
    split_and!; try done; [by destruct s as [[] [? ? [] ? ? ?] ? ? ?]|exact (chain_cut_front _ _ _ _ _ _ Hc Hnd Hea)|apply dom_delete_L|].
    intros b Hb. rewrite lookup_delete_ne; [done|]. intros <-. apply Hb. left.
  - rewrite <- app_assoc in Hc, Hnd. simpl in Hc, Hnd. unfold before. rewrite last_snoc. cbn [hm_set_next nv_cells set_cells].
    destruct (chain_cells _ _ _ c Hc) as [ec Hec]; [rewrite fmap_app; apply elem_of_app; right; left|].
    assert (c <> a) as Hca.
    { intros ->. rewrite fmap_app, !fmap_cons in Hnd. apply NoDup_app in Hnd as (_ & _ & [Hn _]%NoDup_cons). apply Hn. left. }
    unfold store. rewrite lookup_delete_ne, Hec by done. cbn [of_option mbind outcome_bind]. apply returns_ret.
    exists e, (<[c := set_he_next (he_next ea) ec]> (delete a (nv_cells s))). split_and!; try done.
    + rewrite (insert_id (ct_hashmap (nv_ct s)) i e) by done. by destruct s as [[] [? ? [] ? ? ?] ? ? ?].
    + rewrite <- app_assoc. simpl. by eapply chain_cut.
    + rewrite dom_insert_L, dom_delete_L. assert (c ∈ dom (nv_cells s) ∖ {[a]}) by (apply elem_of_difference; split; [by apply elem_of_dom|set_solver]).
      set_solver.
    + intros b Hb. rewrite !fmap_app, !elem_of_app in Hb. simpl in Hb. rewrite !elem_of_cons in Hb.
      rewrite lookup_insert_ne, lookup_delete_ne by naive_solver. done.
Qed.

(** Where the pair of [old] is when it is not in the array. *)
Lemma bucket_chained H i e l old x :
  bucket_ok H i (bucket e l) -> nvme_cache_hash_func old = i -> old <> NVME_IDX_INV -> he_bid e <> old -> H !! old = Some x ->
  exists l1 a l2, l = l1 ++ (a, (old, x)) :: l2 /\ old ∉ l1.*2.*1 /\ bucket_ok (delete old H) i (bucket e (l1 ++ l2)).
Proof.
  intros Hk Hh Hold Hne Hx. pose proof (bucket_lookup _ _ _ _ old Hk Hh Hold) as Hlk.
  destruct (Z.eqb_spec (he_bid e) old); [done|]. rewrite Hx in Hlk. symmetry in Hlk. apply assoc_elem in Hlk.
  2:{ destruct Hk as [Hnd _]. unfold bucket in Hnd. rewrite fmap_app in Hnd. by apply NoDup_app in Hnd as (_ & _ & ?). }
  apply list_elem_of_fmap in Hlk as ([a p] & Hp & Hin). simpl in Hp. subst p. apply list_elem_of_split in Hin as (l1 & l2 & ->).
  exists l1, a, l2. split_and!; [done| |].
  - destruct Hk as [Hn _]. unfold bucket in Hn. rewrite !fmap_app in Hn. apply NoDup_app in Hn as (_ & _ & Hn).
    apply NoDup_app in Hn as (_ & Hn & _). intros Hin. apply (Hn old Hin). left.
  - unfold bucket in *. rewrite fmap_app, fmap_cons, app_assoc in Hk. rewrite fmap_app, app_assoc. by eapply bucket_delete.
Qed.

Lemma hm_remove_spec s F own L H ls old x n :
  hm_rep (ct_hashmap (nv_ct s)) (nv_cells s) H ls -> H !! old = Some x ->
  heap_abs (nv_heap s) F own L -> cells_live (nv_cells s) L -> spare F n ->
  returns (hm_remove old s) (map_changed s L (delete old H) n).
Proof.
  intros Hr Hx Ha Hcl Hsp. pose proof (hash_range old) as Hi. set (i := nvme_cache_hash_func old) in *.
  assert (old <> NVME_IDX_INV) as Hold by (intros ->; rewrite (hm_inv _ _ _ _ Hr) in Hx; done).
  destruct (hm_slots _ _ _ _ Hr i Hi) as (e & He & Hc & Hk).
  assert (delete old H !! NVME_IDX_INV = None) as HIN by (rewrite lookup_delete_ne by done; apply Hr).
  assert (forall c, c <> old -> delete old H !! c = H !! c) as HHc by (intros; by rewrite lookup_delete_ne).
  unfold hm_remove. fold i. unfold get_slot at 1, elem. mret (f_equal (of_option _) He). destruct (Z.eqb_spec (he_bid e) old) as [Heo|Hne].
  - unfold upd_slot, set_elem, elem. rewrite He. cbn [of_option mbind outcome_bind]. apply returns_ret.
    exists (<[i := set_he_pair NVME_IDX_INV NVME_IDX_INV e]> (ct_hashmap (nv_ct s))), (nv_cells s), (nv_heap s), F, own, L, (<[i := ls i]> ls).
    split_and!; [by destruct s as [[] [? ? [] ? ? ?] ? ? ?]| |done|apply hkeep_refl|done|done|by left|done].
    eapply (hm_rep_slot _ _ H ls i e _ _ old); try done; [|apply Hr|].
    + unfold bucket. simpl. apply (bucket_delete H i [] old (he_index e)). unfold bucket in Hk.
      rewrite Heo in Hk. destruct (Z.eqb_spec old NVME_IDX_INV); [done|]. done.
    + intros j a Hj H1 H2. apply Hj. by eapply hm_apart.
  - destruct (bucket_chained _ _ _ _ _ _ Hk eq_refl Hold Hne Hx) as (l1 & a & l2 & Hls & Hol & Hbk).
    pose proof (hm_nodup _ _ _ _ Hr i) as Hnd. rewrite Hls in Hc, Hnd.
    destruct (hm_before_spec (S (size (nv_cells s))) (Slot i) e l1 a old x l2 s) as [Hbe (e' & He' & Hn')]; try done.
    { cbn [hm_load]. unfold get_slot, elem. by rewrite He. }
    { pose proof (chain_length _ _ _ Hc Hnd) as Hlen. rewrite length_app in Hlen. lia. }
    mpure Hbe. mpure He'. rewrite Hn'. cbn [load].
    destruct (chain_cells _ _ _ a Hc) as [ea Hea]; [rewrite fmap_app; apply elem_of_app; right; left|].
    mret (f_equal (of_option _) Hea). destruct (Hcl a) as [k HLa]; [by exists ea|].
    unfold free. cbn [address]. mstep. mcall (kfree_later _ _ _ _ _ _ _ Ha HLa Hsp).
    intros h' (F' & own' & Ha' & Hd & Hsp' & Hm). apply returns_ret. cbn [forget].
    eapply returns_mono; [exact (hm_cut_spec (set_heap h' s) i e l1 a (old, x) l2 ea He Hea Hc Hnd)|].
    intros s' (e2 & cells & -> & Hb2 & Hx2 & Hc2 & Hdom & Hsame).
    exists (<[i := e2]> (ct_hashmap (nv_ct s))), cells, h', F', own', (delete a L), (<[i := l1 ++ l2]> ls).
    assert (forall b, in_cells cells b -> in_cells (nv_cells s) b /\ b <> a) as Hsub.
    { intros b Hb%elem_of_dom. rewrite Hdom in Hb. apply elem_of_difference in Hb as [Hb%elem_of_dom ?]. split; [done|set_solver]. }
    split_and!; [by destruct s as [[] [? ? [] ? ? ?] ? ? ?]| |done| |done| |intros b Hb; left; by apply Hsub|].
    + rewrite fmap_app in Hnd. simpl in Hnd. apply NoDup_app in Hnd as (N1 & N2 & [N3 N4]%NoDup_cons).
      eapply (hm_rep_slot _ _ H ls i e _ _ old); try done.
      * intros j b Hj Hb. apply Hsame. rewrite <- Hls. intros Hin. apply Hj. by eapply hm_apart.
      * unfold bucket. rewrite Hb2, Hx2. done.
      * rewrite fmap_app. apply NoDup_app. split_and!; [done| |done]. intros y Hy Hy'. apply (N2 y Hy). by right.
      * intros j b Hj H1 H2. apply Hj. eapply (hm_apart _ _ _ _ Hr _ _ b H2). rewrite Hls, fmap_app. simpl.
        rewrite fmap_app in H1. rewrite elem_of_app in *. rewrite elem_of_cons. tauto.
    + eapply hkeep_free; try done. by exists ea.
    + intros b [Hb ?]%Hsub. rewrite lookup_delete_ne by done. by apply Hcl.
    + intros b k' [Hba Hb]%lookup_delete_Some Hnc. split; [done|]. intros Hb'%elem_of_dom. apply Hnc, elem_of_dom. rewrite Hdom. set_solver.
Qed.

Lemma hm_add_spec s F own L H ls b x n :
  hm_rep (ct_hashmap (nv_ct s)) (nv_cells s) H ls -> H !! b = None -> b <> NVME_IDX_INV ->
  heap_abs (nv_heap s) F own L -> cells_live (nv_cells s) L -> spare F (S n) ->
  returns (hm_add b x s) (map_changed s L (<[b := x]> H) n).
Proof.
  intros Hr Hb Hbi Ha Hcl Hsp. pose proof (hash_range b) as Hi. set (i := nvme_cache_hash_func b) in *.
  destruct (hm_slots _ _ _ _ Hr i Hi) as (e & He & Hc & Hk).
  assert (<[b := x]> H !! NVME_IDX_INV = None) as HIN by (rewrite lookup_insert_ne by done; apply Hr).
  assert (forall c, c <> b -> <[b := x]> H !! c = H !! c) as HHc by (intros; by rewrite lookup_insert_ne).
  unfold hm_add. fold i. unfold get_slot, elem. mret (f_equal (of_option _) He). destruct (Z.eqb_spec (he_bid e) NVME_IDX_INV) as [Hei|Hei].
  - unfold upd_slot, set_elem, elem. rewrite He. cbn [of_option mbind outcome_bind]. apply returns_ret.
    exists (<[i := set_he_pair b x e]> (ct_hashmap (nv_ct s))), (nv_cells s), (nv_heap s), F, own, L, (<[i := ls i]> ls).
    split_and!; [by destruct s as [[] [? ? [] ? ? ?] ? ? ?]| |done|apply hkeep_refl|by apply spare_less|done|by left|done].
    eapply (hm_rep_slot _ _ H ls i e _ _ b); try done; [|apply Hr|].
    + unfold bucket in *. simpl. rewrite Hei in Hk. destruct (Z.eqb_spec b NVME_IDX_INV); [done|].
      by apply (bucket_insert H i []).
    + intros j a Hj H1 H2. apply Hj. by eapply hm_apart.
  - unfold calloc. mstep. mcall (kcalloc_later (nv_heap s) F own L n SIZEOF_HASHMAP_ENTRY Ha ltac:(done) Hsp).
    intros [a h'] (F' & own' & L' & -> & Ha' & Hn & _ & Hla & Hsp' & _). apply returns_ret.
    assert (nv_cells s !! a = None) as Hna.
    { destruct (nv_cells s !! a) eqn:E; [|done]. destruct (Hcl a) as [k Hk']; [by eexists|]. congruence. }
    unfold upd_slot, set_elem, elem. change (nv_ct (set_heap h' s)) with (nv_ct s). rewrite He. cbn [of_option mbind outcome_bind]. apply returns_ret.
    exists (<[i := set_he_next (Ref a) e]> (ct_hashmap (nv_ct s))), (<[a := mk_hentry b x (he_next e)]> (nv_cells s)), h', F', own', (<[a := capacity SIZEOF_HASHMAP_ENTRY]> L), (<[i := (a, (b, x)) :: ls i]> ls).
    assert (forall j c, c ∈ (ls j).*1 -> c <> a) as Hold.
    { intros j c Hcj ->. destruct (hm_cells _ _ _ _ Hr j a Hcj). congruence. }
    assert (forall c, in_cells (<[a := mk_hentry b x (he_next e)]> (nv_cells s)) c -> c = a \/ in_cells (nv_cells s) c) as Hin.
    { intros c. unfold in_cells. destruct (decide (c = a)) as [->|]; [by left|]. rewrite lookup_insert_ne by done. by right. }
    split_and!; [by destruct s as [[] [? ? [] ? ? ?] ? ? ?]| |done|by apply hkeep_later|done| | |].
    + eapply (hm_rep_slot _ _ H ls i e _ _ b); try done.
      * intros j c _ Hcj. rewrite lookup_insert_ne; [done|]. intros <-. by eapply Hold.
      * simpl. split; [done|]. exists (he_next e). rewrite lookup_insert_eq. split; [done|]. eapply cells_ext; [|done].
        intros c Hci. rewrite lookup_insert_ne; [done|]. intros <-. by eapply Hold.
      * unfold bucket in *. simpl. destruct (Z.eqb_spec (he_bid e) NVME_IDX_INV); [done|]. by apply (bucket_insert H i [_]).
      * simpl. apply NoDup_cons. split; [|apply Hr]. intros Hin'. by eapply Hold.
      * simpl. intros j c Hj [->|H1]%elem_of_cons H2; [by eapply Hold|]. apply Hj. by eapply hm_apart.
    + intros c [->|Hc']%Hin; [rewrite lookup_insert_eq; by eexists|]. destruct (decide (c = a)) as [->|]; [rewrite lookup_insert_eq; by eexists|].
      rewrite lookup_insert_ne by done. by apply Hcl.
    + intros c [->|Hc']%Hin; [by right|by left].
    + intros c k Hlc Hnc. unfold in_cells in *. destruct (decide (c = a)) as [->|]; [by rewrite lookup_insert_eq in Hnc; destruct Hnc|].
      rewrite lookup_insert_ne in Hlc by done. by rewrite lookup_insert_ne in Hnc by done.
Qed.

Lemma hashmap_update_spec s F own L H ls old b x n :
  hm_rep (ct_hashmap (nv_ct s)) (nv_cells s) H ls -> (old = NVME_IDX_INV \/ is_Some (H !! old)) ->
  delete old H !! b = None -> b <> NVME_IDX_INV ->
  heap_abs (nv_heap s) F own L -> cells_live (nv_cells s) L -> spare F (S n) ->
  returns (nvme_cache_hashmap_update old b x s) (map_changed s L (<[b := x]> (delete old H)) n).
Proof.
  intros Hr Hold Hb Hbi Ha Hcl Hsp. unfold nvme_cache_hashmap_update. destruct (Z.eqb_spec old NVME_IDX_INV) as [->|Hne]; cbn [negb].
  - cbn [mbind outcome_bind]. rewrite delete_id in Hb |- * by apply Hr. by eapply hm_add_spec.
  - destruct Hold as [?|[y Hy]]; [done|]. mcall (hm_remove_spec _ _ _ _ _ _ _ _ _ Hr Hy Ha Hcl Hsp).
    intros s1 (slots & cells & h & F1 & own1 & L1 & ls1 & -> & Hr1 & Ha1 & Hk1 & Hsp1 & Hcl1 & Hin1 & Hout1).
    eapply returns_mono; [exact (hm_add_spec (with_map slots cells h s) F1 own1 L1 _ ls1 b x n Hr1 Hb Hbi Ha1 Hcl1 Hsp1)|].
    intros s2 (slots2 & cells2 & h2 & F2 & own2 & L2 & ls2 & -> & Hr2 & Ha2 & Hk2 & Hsp2 & Hcl2 & Hin2 & Hout2).
    exists slots2, cells2, h2, F2, own2, L2, ls2. cbn [nv_cells with_map set_cells] in Hin2, Hk2, Hout2. split_and!; try done.
    + eapply hkeep_trans; [exact Hk1|exact Hk2|]. intros c [k Hc] Hcc. destruct (Hin1 c Hcc); [done|congruence].
    + intros c Hc. destruct (decide (in_cells (nv_cells s) c)) as [|Hnc]; [by left|right]. destruct (Hin2 c Hc) as [Hc1|Hn1].
      * destruct (Hin1 c Hc1); [done|done].
      * destruct (L !! c) eqn:E; [|done]. destruct (hk_live _ _ _ _ _ Hk1 c _ E Hnc). congruence.
    + intros c k Hc Hnc. destruct (Hout2 c k Hc Hnc). by apply Hout1.
Qed.

(** ** The list *)

Lemma relink_map a b (nodes : gmap Z nvme_cache_dll_node) n y hd :
  nodes !! a = Some n -> hd = Ref b -> nodes !! b = Some y -> a <> b ->
  Dll.list_link (Ref a) hd nodes = Ret (Ref a, <[b := set_nd_prev (Ref a) y]> (<[a := set_nd_prev NULL (set_nd_next hd n)]> nodes)).
Proof.
  intros Ha -> Hb Hne. unfold Dll.list_link, Dll.upd. rewrite Ha. cbn [of_option mbind outcome_bind].
  rewrite lookup_insert_eq. cbn [of_option mbind outcome_bind nonnull]. rewrite insert_insert_eq, lookup_insert_ne, Hb by done. done.
Qed.

(** Entry [i] and node [a] belong together. *)
Definition paired (cache : gmap Z nvme_cache_entry) (nodes : gmap Z nvme_cache_dll_node) (i a : Z) : Prop :=
  (exists e, cache !! i = Some e /\ ce_lruref e = Ref a) /\ (exists n, nodes !! a = Some n /\ nd_index n = i).

Definition lru_rep (cache : gmap Z nvme_cache_entry) (nodes : gmap Z nvme_cache_dll_node) (head tail : word) (l : list Z) : Prop :=
  exists la, Dll.dll nodes head la /\ tail = Dll.last_ref NULL la /\ Forall2 (paired cache nodes) l la.

(** Writing anything but the references to the nodes. *)
Lemma lru_rep_cache cache cache' nodes head tail l :
  lru_rep cache nodes head tail l ->
  (forall i e, cache !! i = Some e -> exists e', cache' !! i = Some e' /\ ce_lruref e' = ce_lruref e) -> lru_rep cache' nodes head tail l.
Proof.
  intros (la & Hd & Ht & Hf) He. exists la. split_and!; [done|done|]. eapply Forall2_impl; [done|].
  intros i a [(e & Hi & Hr) Hn]. destruct (He i e Hi) as (e' & Hi' & Hr'). split; [|done]. exists e'. split; [done|congruence].
Qed.

Lemma paired_relinked cache nodes nodes' i a : Dll.relinked nodes nodes' -> paired cache nodes i a -> paired cache nodes' i a.
Proof.
  intros Hr [Hc (n & Hn & Hi)]. split; [done|]. destruct (Dll.relinked_lookup _ _ _ _ Hr Hn) as (n' & Hn' & Hp). exists n'.
  split; [done|]. apply (f_equal nd_index) in Hp. change (nd_index n' = nd_index n) in Hp. congruence.
Qed.

Lemma upd_node_if (b : bool) p f s Q :
  returns (if b then Dll.upd p f (nv_nodes s) else Ret (nv_nodes s)) Q ->
  returns (if b then upd_node p f s else Ret s) (fun s' => exists nd, s' = set_nodes nd s /\ Q nd).
Proof.
  destruct b.
  - intros Hq. unfold upd_node. change (store p f (nv_nodes s)) with (Dll.upd p f (nv_nodes s)). apply returns_inv in Hq as (nd & -> & Hq).
    apply returns_ret. by exists nd.
  - intros Hq. apply returns_ret. exists (nv_nodes s). split; [by destruct s|done].
Qed.

(** The state with another list. *)
Definition with_list (nodes : gmap Z nvme_cache_dll_node) (head tail : word) (s : nvms) : nvms :=
  set_ct (set_ct_tail tail (set_ct_head head (nv_ct s))) (set_nodes nodes s).

(** The last node of the list, once [a] is moved to the front. *)
Lemma tail_moved (la1 la2 : list Z) a :
  la1 <> [] -> NoDup (la1 ++ a :: la2) ->
  (if decide (Ref a = Dll.last_ref NULL (la1 ++ a :: la2)) then Dll.last_ref NULL la1 else Dll.last_ref NULL (la1 ++ a :: la2)) =
  Dll.last_ref NULL (a :: la1 ++ la2).
Proof.
  intros Hne Hnd. unfold Dll.last_ref. destruct la2 as [|c la2 _] using rev_ind.
  - rewrite last_snoc, decide_True by done. rewrite app_nil_r, last_cons. destruct (last la1) eqn:E; [done|]. by apply last_None in E.
  - rewrite app_comm_cons, app_assoc, last_snoc. rewrite decide_False.
    + rewrite app_comm_cons, app_assoc, last_snoc. done.
    + intros [= ->]. apply NoDup_app in Hnd as (_ & _ & [Hn _]%NoDup_cons). apply Hn, elem_of_app. right. left.
Qed.

(** Inserting at the front, in the order of the stores of
    [nvme_cache_inform_usage]. *)
Lemma to_front_spec s a hd n la :
  Dll.dll (nv_nodes s) (ct_head (nv_ct s)) (hd :: la) -> a ∉ hd :: la -> nv_nodes s !! a = Some n ->
  returns (s ← upd_node (Ref a) (set_nd_next (ct_head (nv_ct s))) s;
           s ← upd_node (Ref a) (set_nd_prev NULL) s;
           s ← upd_node (ct_head (nv_ct s)) (set_nd_prev (Ref a)) s;
           Ret (set_ct (set_ct_head (Ref a) (nv_ct s)) s))
    (fun s' => exists nodes, s' = with_list nodes (Ref a) (ct_tail (nv_ct s)) s /\
       Dll.dll nodes (Ref a) (a :: hd :: la) /\ Dll.relinked (nv_nodes s) nodes).
Proof.
  intros Hd Ha Hn. pose proof Hd as [(Hhd & y & Hy & _) _]. assert (a <> hd) as Hne by (intros ->; apply Ha; left).
  pose proof (Dll.list_link_spec _ _ _ a Hd Ha ltac:(by eexists)) as Hl. rewrite (relink_map a hd _ n y _ Hn Hhd Hy Hne) in Hl.
  destruct Hl as (_ & Hd' & Hr & _). unfold upd_node. cbn [store]. rewrite Hn. cbn [of_option mbind outcome_bind nv_nodes set_nodes].
  rewrite lookup_insert_eq. cbn [of_option mbind outcome_bind nv_nodes set_nodes]. rewrite insert_insert_eq.
  change (ct_head (nv_ct (set_nodes _ _))) with (ct_head (nv_ct s)). rewrite Hhd. cbn [store].
  rewrite lookup_insert_ne, Hy by done. cbn [of_option mbind outcome_bind]. apply returns_ret. eexists. split_and!; [|exact Hd'|exact Hr].
  rewrite Hhd. by destruct s as [? [? ? [] ? ? ?] ? ? ?].
Qed.

(** *** [nvme_cache_inform_usage] moves the entry to the front. *)
Lemma inform_usage_spec s l1 i l2 :
  lru_rep (ct_cache (nv_ct s)) (nv_nodes s) (ct_head (nv_ct s)) (ct_tail (nv_ct s)) (l1 ++ i :: l2) ->
  returns (nvme_cache_inform_usage i s) (fun s' => exists nodes head tail, s' = with_list nodes head tail s /\
    lru_rep (ct_cache (nv_ct s)) nodes head tail (i :: l1 ++ l2) /\ dom nodes = dom (nv_nodes s)).
Proof.
  intros (la & [Hd Hnd] & Ht & Hf). apply Forall2_app_inv_l in Hf as (la1 & la2' & Hf1 & Hf2 & ->).
  apply Forall2_cons_inv_l in Hf2 as (a & la2 & Hp & Hf2 & ->). destruct (Hp) as [(e & He & Hea) (n & Hn & Hni)].
  unfold nvme_cache_inform_usage, get_entry, elem. mret (f_equal (of_option _) He). rewrite Hea.
  apply Dll.dseg_app in Hd as (m & Hd1 & Hd2). simpl in Hd2. destruct Hd2 as (-> & n' & Hn' & Hpn & Hd2). assert (n' = n) as -> by congruence. clear Hn'.
  destruct la1 as [|hd la1].
  { simpl in Hd1. apply Forall2_nil_inv_r in Hf1 as ->. rewrite Hd1, decide_True by done. apply returns_ret.
    exists (nv_nodes s), (ct_head (nv_ct s)), (ct_tail (nv_ct s)). split; [by destruct s as [? [? ? [] ? ? ?] ? ? ?]|].
    split; [|done]. exists (a :: la2). split_and!; [|done|by apply Forall2_cons]. split; [|done]. rewrite Hd1. simpl. split; [done|]. by exists n. }
  pose proof Hnd as (Hn1 & Hap & [Ha2 Hn2]%NoDup_cons)%NoDup_app.
  assert (a ∉ hd :: la1) as Ha1 by (intros Hin; apply (Hap a Hin); left).
  pose proof Hd1 as [Hhd _]. rewrite decide_False by (rewrite Hhd; intros [= ->]; apply Ha1; left).
  cbn [load]. mret (f_equal (of_option _) Hn). rewrite Hpn.
  pose proof (Dll.redirect_end _ _ _ (nd_next n) _ Hd1 Hn1) as Hre. apply upd_node_if in Hre. mstep. eapply returns_mono; [exact Hre|].
  intros s1 (nd1 & -> & Hs1 & Hr1 & Hf1'). cbn [nv_nodes set_nodes load].
  assert (nd1 !! a = Some n) as Hna1 by (by rewrite Hf1'). mret (f_equal (of_option _) Hna1). rewrite Hpn.
  assert (Dll.dseg nd1 (Ref a) (nd_next n) NULL la2) as Hd2'.
  { eapply Dll.dseg_frame; [exact Hd2|]. intros b Hb. apply Hf1'. intros Hb1. apply (Hap b Hb1). by right. }
  pose proof (Dll.redirect_start nd1 _ (Dll.last_ref NULL (hd :: la1)) _ _ Hd2' Hn2) as Hrs.
  apply (upd_node_if _ _ _ (set_nodes nd1 s)) in Hrs. mstep. eapply returns_mono; [exact Hrs|].
  intros s2 (nd2 & -> & Hs2 & Hr2 & Hf2'). cbn [nv_nodes set_nodes load].
  assert (nd2 !! a = Some n) as Hna2 by (by rewrite Hf2'). mret (f_equal (of_option _) Hna2). rewrite Hpn.
  set (tail := if decide (Ref a = ct_tail (nv_ct s)) then Dll.last_ref NULL (hd :: la1) else ct_tail (nv_ct s)).
  match goal with |- context [if decide ?P then set_ct ?c ?t else _] => set (s2 := if decide P then set_ct c t else t) end.
  assert (s2 = with_list nd2 (ct_head (nv_ct s)) tail s) as ->.
  { unfold s2, tail. change (ct_tail (nv_ct (set_nodes _ _))) with (ct_tail (nv_ct s)). destruct (decide _); by destruct s as [? [? ? [] ? ? ?] ? ? ?]. }
  assert (NoDup (hd :: la1 ++ la2)) as Hnd2.
  { rewrite app_comm_cons. apply NoDup_app. split_and!; [done| |done]. intros y Hy Hy'. apply (Hap y Hy). by right. }
  eapply returns_mono; [apply (to_front_spec (with_list nd2 (ct_head (nv_ct s)) tail s) a hd n (la1 ++ la2))|].
  - split; [|done]. change (hd :: la1 ++ la2) with ((hd :: la1) ++ la2). apply Dll.dseg_app. exists (nd_next n). split; [|done].
    eapply Dll.dseg_frame; [exact Hs1|]. intros b Hb. apply Hf2'. intros Hb2. apply (Hap b Hb). by right.
  - rewrite app_comm_cons, elem_of_app. tauto.
  - done.
  - intros s' (nodes & -> & Hd' & Hr). exists nodes, (Ref a), tail. split; [by destruct s as [? [? ? [] ? ? ?] ? ? ?]|].
    assert (Dll.relinked (nv_nodes s) nodes) as Hrr by (etrans; [exact Hr1|]; etrans; [exact Hr2|exact Hr]).
    split; [|by apply Dll.relinked_dom]. exists (a :: hd :: la1 ++ la2). split_and!; [done| |].
    + unfold tail. rewrite Ht. by apply tail_moved.
    + apply (Forall2_impl (paired (ct_cache (nv_ct s)) (nv_nodes s))); [|intros; by eapply paired_relinked].
      apply Forall2_cons; split; [done|]. rewrite app_comm_cons. by apply Forall2_app.
Qed.

End Cache.
End NvmeCache.
