(* ===== verification/NvmeIo.v ===== *)
(** * Commands to the NVMe controller

    [NvmeObeys]: what the driver relies on of the controller, from the NVMe
    base specification: a command in the submission ring is completed, after
    some time, by an entry in the completion ring with the phase of the
    current pass, and its data, if within a page, has been moved between the
    disk and the memory its data pointer names; a command beyond the end of the namespace moves
    nothing and completes with an error.

    [queue_ok]: the queue is idle and agrees with the controller on where the
    next command and the next completion go.  [rw_spec]: a call of
    [nvme_rw_blocking] moves a cache block and leaves the queue idle again. *)

From stdpp Require Import gmap.
From S2P Require Import Prelude Macros Locking Mem FrameHdr FrameAlloc PageIface Slab SlabRep SlabProof HeapSpec HeapFrame Mmu MmuRep MmuProof MmuRange MmuTheorems NvmeHdr Nvme.

Module NvmeIo.
Import Macros Locking Mem FrameHdr FrameAlloc PageIface Slab SlabRep SlabProof HeapSpec HeapFrame Mmu MmuRep MmuProof MmuRange MmuTheorems NvmeHdr Nvme.

(** ** The controller *)

Section Law.
Context {HW : NvmeController}.

Definition dma_step (x : nvme_hw * dma) : nvme_hw * dma :=
  let '(hw, d) := x in
  let '(hw, cq, m) := hw_run hw d in
  (hw, mk_dma (dma_qid d) (dma_sq d) cq (dma_sqt d) (dma_cqh d) (dma_base d) m).
Definition runs (k : nat) (x : nvme_hw * dma) : nvme_hw * dma := Nat.iter k dma_step x.

(** [len] bytes at byte [at_] of the disk go to memory at [p], and back. *)
Definition loaded (p at_ len : Z) (D m m' : mem) : Prop :=
  forall x, rd m' x = if decide (p <= x < p + len) then u8 (rd D (at_ + (x - p))) else rd m x.
Definition stored (p at_ len : Z) (D m D' : mem) : Prop :=
  forall x, rd D' x = if decide (at_ <= x < at_ + len) then u8 (rd m (p + (x - at_))) else rd D x.

Record answer := mk_answer { an_cqe : nvme_ccmd_t; an_mem : mem; an_disk : mem; an_hw : nvme_hw }.

Class NvmeObeys := {
  hw_lba_size : Z;
  hw_lbas : Z;

  (** The controller has served every command of queue [qid] of [n] entries;
      the next one is at [h], its completion goes to [t] with phase [p]; the
      disk holds [D]. *)
  hw_idle : nvme_hw -> forall (qid n h t p : Z), mem -> Prop;

  hw_serves : forall hw d n h t p D c len,
    hw_idle hw (dma_qid d) n h t p D ->
    dma_sq d !! h = Some c -> dma_sqt d = (h + 1) mod n ->
    (c_opc c = NVME_OPC_IO_READ \/ c_opc c = NVME_OPC_IO_WRITE) ->
    len = (read_nlb c + 1) * hw_lba_size -> 0 < len -> (4 | c_prp1 c) -> c_prp1 c mod PAGE_SIZE + len <= PAGE_SIZE ->
    exists (k : nat) (a : answer),
      (k < Z.to_nat poll_limit)%nat /\
      (forall j, (j < k)%nat -> dma_cq (runs j (hw, d)).2 = dma_cq d) /\
      runs k (hw, d) = (an_hw a, mk_dma (dma_qid d) (dma_sq d) (<[t := an_cqe a]> (dma_cq d)) (dma_sqt d) (dma_cqh d) (dma_base d) (an_mem a)) /\
      Z.land (cq_status (an_cqe a)) 1 = p /\
      hw_idle (an_hw a) (dma_qid d) n ((h + 1) mod n) ((t + 1) mod n) (if t + 1 =? n then 1 - p else p) (an_disk a) /\
      if read_slba c + read_nlb c + 1 <=? hw_lbas then
        NVME_CQE_SUCCESSFUL (an_cqe a) = true /\
        if c_opc c =? NVME_OPC_IO_READ
        then an_disk a = D /\ loaded (dma_base d + c_prp1 c) (read_slba c * hw_lba_size) len D (dma_mem d) (an_mem a)
        else an_mem a = dma_mem d /\ stored (dma_base d + c_prp1 c) (read_slba c * hw_lba_size) len D (dma_mem d) (an_disk a)
      else NVME_CQE_SUCCESSFUL (an_cqe a) = false /\ an_disk a = D /\ an_mem a = dma_mem d
}.

End Law.

(** ** Physical addresses of heap memory *)

(** The frames of the heap are mapped one to one, at the offset. *)
Record vm_ok (v : vmm) (h : heap) : Prop := {
  vm_tables : exists m F T, tables_ok (set_v_mm m v) (v_kernel_pml4 v) F T;
  vm_lock : unlocked (v_lock v);
  vm_width : 30 <= v_phys_addr_width v <= 52;
  vm_direct : forall x, ~ static h x ->
    phys_fits v (translation v (v_kernel_pml4 v) x) /\ phys_of v (v_kernel_pml4 v) x = Some (x - h_offset h)
}.

Definition released (m : mm) (v : vmm) : vmm := set_v_lock (mm_IF m) (mk_spinlock 0 (mm_IF m)) (set_v_mm m v).
Definition taken_lock (v : vmm) : vmm := set_v_lock false (mk_spinlock 1 (mm_IF (v_mm v))) v.

Lemma unlock_taken v : map_unlock (taken_lock v) = released (v_mm v) v.
Proof. unfold map_unlock, taken_lock, released. cbn. by destruct v as [[? ? ? ? ? []] ]. Qed.
Lemma tlb_flush_id v : tlb_flush v = v.
Proof. by destruct v. Qed.

(** A walk does not depend on the state of the frame allocator. *)
Lemma walk_mm pmc va i v r v1 m :
  unlocked (v_lock v) -> mmu_walk_table pmc va i v = Ret (r, v1) -> mmu_walk_table pmc va i (set_v_mm m v) = Ret (r, released m v).
Proof.
  intros Hu. unfold mmu_walk_table. rewrite !map_lock_ret by done. cbn [mbind outcome_bind].
  fold (taken_lock v). fold (taken_lock (set_v_mm m v)). rewrite !tlb_flush_id, !unlock_taken.
  assert (forall t k, attempt_walk_pagemap_single_lvl t k (taken_lock (set_v_mm m v)) = attempt_walk_pagemap_single_lvl t k (taken_lock v)) as Ha by done.
  assert (forall t k, pml_get t k (taken_lock (set_v_mm m v)) = pml_get t k (taken_lock v)) as Hg by done. rewrite !Ha, !Hg.
  change (released (v_mm (set_v_mm m v)) (set_v_mm m v)) with (released m v).
  repeat match goal with |- (if ?b then _ else _) = _ -> _ => destruct b end; intros Hr; injection Hr as <- <-; reflexivity.
Qed.

Lemma virt2phys_mm va v p v1 m :
  unlocked (v_lock v) -> virt2phys va v = Ret (p, v1) -> virt2phys va (set_v_mm m v) = Ret (p, released m v).
Proof.
  intros Hu. unfold virt2phys. destruct (mmu_walk_table (v_kernel_pml4 v) va 0 v) as [[[[t d] i] v2]| |] eqn:Hw; [|discriminate|discriminate].
  pose proof (walk_mm _ _ _ _ _ _ (v_mm v) Hu Hw) as Hw'. replace (set_v_mm (v_mm v) v) with v in Hw' by (by destruct v).
  rewrite Hw in Hw'. injection Hw' as ->. cbn [v_kernel_pml4 set_v_mm]. rewrite (walk_mm _ _ _ _ _ _ m Hu Hw). cbn [mbind outcome_bind].
  assert (forall t k, pml_get t k (released m v) = pml_get t k v) as Hg by reflexivity.
  assert (forall t k, pml_get t k (released (v_mm v) v) = pml_get t k v) as Hg' by reflexivity.
  assert (forall k, phys_mask (released m v) k = phys_mask v k) as Hm by reflexivity.
  assert (forall k, phys_mask (released (v_mm v) v) k = phys_mask v k) as Hm' by reflexivity. rewrite !Hg, !Hg', !Hm, !Hm'.
  repeat match goal with |- (if ?b then _ else _) = _ -> _ => destruct b end; try discriminate; intros Hr; injection Hr as <- <-; reflexivity.
Qed.

(** [vm_ok] is about the tables in memory. *)
Lemma translation_ext v v' root x :
  v_mem v' = v_mem v -> v_offset v' = v_offset v -> translation v' root x = translation v root x.
Proof. intros Hm Ho. by apply hw_walk_ext. Qed.

Lemma vm_ok_mm v h m : vm_ok v h -> vm_ok (released m v) h.
Proof.
  intros [(m0 & F & T & Ht) Hl Hw Hd]. split; [|done|exact Hw|].
  - exists m0, F, T. destruct Ht as [H1 H2 H3 H4 H5 H6 H7]. by split.
  - intros x Hx. destruct (Hd x Hx) as [Hf Hp]. unfold phys_of in *. change (v_kernel_pml4 (released m v)) with (v_kernel_pml4 v).
    rewrite (translation_ext v (released m v)) by reflexivity. split; [exact Hf|exact Hp].
Qed.

(** Heap memory is where it is said to be. *)
Lemma host_virt2phys_spec {PA : PageAllocator} {HW : NvmeController} x t :
  vm_ok (ho_vmm t) (ho_heap t) -> ~ static (ho_heap t) x ->
  exists v, host_virt2phys x t = Ret (x - h_offset (ho_heap t), mk_host (ho_heap t) v (ho_hw t)) /\ vm_ok v (ho_heap t).
Proof.
  intros Hvm Hx. pose proof Hvm as [(m & F & T & Ht) Hl Hw Hd]. set (v := ho_vmm t) in *. destruct (Hd x Hx) as [Hf Hp].
  assert (translation (set_v_mm m v) (v_kernel_pml4 v) x = translation v (v_kernel_pml4 v) x) as Htr by (by apply translation_ext).
  destruct (virt2phys_spec (set_v_mm m v) F T x Ht Hl Hw) as (v1 & Hv & _).
  { change (v_kernel_pml4 (set_v_mm m v)) with (v_kernel_pml4 v). rewrite Htr. exact Hf. }
  change (v_kernel_pml4 (set_v_mm m v)) with (v_kernel_pml4 v) in Hv. unfold phys_of in Hv, Hp. rewrite Htr, Hp in Hv. cbn [default] in Hv.
  pose proof (virt2phys_mm x (set_v_mm m v) _ _ (h_mm (ho_heap t)) Hl Hv) as Hv2.
  exists (released (h_mm (ho_heap t)) v). split; [|by apply vm_ok_mm].
  unfold host_virt2phys. fold v. change (set_v_mm (h_mm (ho_heap t)) v) with (set_v_mm (h_mm (ho_heap t)) (set_v_mm m v)). rewrite Hv2.
  cbn [mbind outcome_bind]. f_equal. f_equal. f_equal. unfold released. by destruct t as [[[]] ? ?].
Qed.

(** ** The queue *)

Section Io.
Context {PA : PageAllocator} {HW : NvmeController} {Obeys : NvmeObeys}.

Record queue_ok (q : nvme_queue_ctx) (t : host) (L : gmap Z Z) (D : mem) : Prop := {
  qo_entries : 2 <= q_entries q <= 2 ^ 16;
  qo_free : sq_free_entries (q_sq q) = q_entries q - 1;
  qo_tail : 0 <= sq_tail (q_sq q) < q_entries q;
  qo_sq : forall i, 0 <= i < q_entries q -> is_Some (sq_ring (q_sq q) !! i);
  qo_head : 0 <= cq_head (q_cq q) < q_entries q;
  qo_phase : cq_phase (q_cq q) = 0 \/ cq_phase (q_cq q) = 1;
  qo_cq : forall i, 0 <= i < q_entries q -> exists c, cq_ring (q_cq q) !! i = Some c /\
    Z.land (cq_status c) 1 = if i <? cq_head (q_cq q) then cq_phase (q_cq q) else 1 - cq_phase (q_cq q);
  qo_hw : hw_idle (ho_hw t) (q_id q) (q_entries q) (sq_tail (q_sq q)) (cq_head (q_cq q)) (cq_phase (q_cq q)) D;
  qo_prp : exists k, L !! q_prp_list_container q = Some k /\ 8 * q_entries q <= k /\
    forall x, q_prp_list_container q <= x < q_prp_list_container q + 8 * q_entries q -> rd (ho_mem t) x = 0
}.

Lemma controller_runs_step q t :
  dma_step (ho_hw t, dma_of q t) = (ho_hw (controller_runs q t).2, dma_of (controller_runs q t).1 (controller_runs q t).2).
Proof. unfold dma_step, controller_runs. cbn [dma_of]. by destruct (hw_run (ho_hw t) (dma_of q t)) as [[hw cq] m]. Qed.

(** The loop ends with the completion that takes the controller [k] turns. *)
Lemma poll_loop_spec k fuel cnt q t hw d :
  (k < fuel)%nat -> runs k (ho_hw t, dma_of q t) = (hw, d) ->
  (forall j, (j < k)%nat -> exists c, dma_cq (runs j (ho_hw t, dma_of q t)).2 !! cq_head (q_cq q) = Some c /\ Z.land (cq_status c) 1 <> cq_phase (q_cq q)) ->
  (exists c, dma_cq d !! cq_head (q_cq q) = Some c /\ Z.land (cq_status c) 1 = cq_phase (q_cq q)) ->
  poll_loop fuel cnt q t = Ret (cnt + Z.of_nat k, set_q_cq (set_cq_ring (dma_cq d) (q_cq q)) q, mk_host (set_mem (dma_mem d) (ho_heap t)) (ho_vmm t) hw).
Proof.
  revert fuel cnt q t. induction k as [|k IH]; intros [|fuel] cnt q t Hf Hr Hj (c & Hc & Hp); try lia.
  - cbn in Hr. injection Hr as <- <-. cbn [dma_of dma_cq] in Hc. cbn [poll_loop]. unfold elem. rewrite Hc. cbn [of_option mbind outcome_bind].
    rewrite Hp, Z.eqb_refl. rewrite Z.add_0_r. by destruct t as [[] ? ?], q as [? [] ? ? ?].
  - destruct (Hj 0%nat ltac:(lia)) as (c0 & Hc0 & Hp0). cbn in Hc0. cbn [poll_loop]. unfold elem. rewrite Hc0. cbn [of_option mbind outcome_bind].
    apply Z.eqb_neq in Hp0 as ->. unfold runs in Hr. rewrite Nat.iter_succ_r in Hr. fold (runs k) in Hr. rewrite controller_runs_step in Hr.
    assert (forall j, runs (S j) (ho_hw t, dma_of q t) = runs j (ho_hw (controller_runs q t).2, dma_of (controller_runs q t).1 (controller_runs q t).2)) as Hs.
    { intros j. unfold runs. by rewrite Nat.iter_succ_r, controller_runs_step. }
    assert (q_cq (controller_runs q t).1 = set_cq_ring (cq_ring (q_cq (controller_runs q t).1)) (q_cq q) /\
            (controller_runs q t).1 = set_q_cq (q_cq (controller_runs q t).1) q /\
            (controller_runs q t).2 = mk_host (set_mem (ho_mem (controller_runs q t).2) (ho_heap t)) (ho_vmm t) (ho_hw (controller_runs q t).2)) as (Hq & Hq2 & Ht).
    { unfold controller_runs. destruct (hw_run (ho_hw t) (dma_of q t)) as [[hw1 cq1] m1]. done. }
    destruct (controller_runs q t) as [q1 t1]. cbn [fst snd] in *.
    assert (cq_head (q_cq q1) = cq_head (q_cq q) /\ cq_phase (q_cq q1) = cq_phase (q_cq q)) as [Hh Hph] by (rewrite Hq; done).
    rewrite (IH fuel (cnt + 1) q1 t1); [|lia|exact Hr| |].
    + f_equal. f_equal; [f_equal; [lia|]|].
      * rewrite Hq2, Hq. done.
      * rewrite Ht. done.
    + intros j Hlt. rewrite Hh, Hph, <- Hs. apply Hj. lia.
    + rewrite Hh, Hph. by exists c.
Qed.

(** What a command did to the disk and to memory. *)
Definition performed (c : nvme_scmd_t) (base len : Z) (ok : bool) (D m D' m' : mem) : Prop :=
  if read_slba c + read_nlb c + 1 <=? hw_lbas then
    ok = true /\
    if c_opc c =? NVME_OPC_IO_READ
    then D' = D /\ loaded (base + c_prp1 c) (read_slba c * hw_lba_size) len D m m'
    else m' = m /\ stored (base + c_prp1 c) (read_slba c * hw_lba_size) len D m D'
  else ok = false /\ D' = D /\ m' = m.

Lemma performed_outside c base len ok D m D' m' x :
  performed c base len ok D m D' m' -> ~ (base + c_prp1 c <= x < base + c_prp1 c + len) -> rd m' x = rd m x.
Proof.
  unfold performed. intros Hp Hx. destruct (_ <=? _); [|by destruct Hp as (_ & _ & ->)]. destruct Hp as [_ Hp].
  destruct (_ =? _); [|by destruct Hp as [-> _]]. destruct Hp as [_ Hl]. rewrite Hl. by rewrite decide_False.
Qed.

(** The queue after submitting a command. *)
Definition submitted (q : nvme_queue_ctx) (c : nvme_scmd_t) : nvme_queue_ctx :=
  let sq := q_sq q in let tail := (sq_tail sq + 1) mod q_entries q in
  set_q_sq (mk_sq (sq_data sq) (<[sq_tail sq := c]> (sq_ring sq)) (sq_sqt sq) tail tail (sq_head sq)
              (sq_free_entries sq - 1) (u16 (sq_cid_counter sq + 1))) q.

Lemma submit_spec q t L D c :
  queue_ok q t L D -> nvme_queue_submit_single_cmd q c = Ret (true, set_cid (sq_cid_counter (q_sq q)) c, submitted q c).
Proof.
  intros [Hn Hf Ht Hs _ _ _ _ _]. unfold nvme_queue_submit_single_cmd. rewrite Hf. destruct (Z.eqb_spec (q_entries q - 1) 0); [lia|].
  destruct (Hs _ Ht) as [c0 Hc0]. unfold set_elem, elem. rewrite Hc0. cbn [of_option mbind outcome_bind].
  assert (0 <= (sq_tail (q_sq q) + 1) mod q_entries q < q_entries q) by (apply Z.mod_pos_bound; lia).
  unfold submitted. rewrite Hf. rewrite (u64_small (sq_tail _ + 1)), u32_small, u64_small by lia. done.
Qed.

(** The queue after the completion [cqe]. *)
Definition completed (q : nvme_queue_ctx) (cqe : nvme_ccmd_t) : nvme_queue_ctx :=
  let cq := q_cq q in
  let head := (cq_head cq + 1) mod q_entries q in
  let phase := if cq_head cq + 1 =? q_entries q then 1 - cq_phase cq else cq_phase cq in
  set_q_cq (mk_cq (cq_data cq) (<[cq_head cq := cqe]> (cq_ring cq)) (cq_cqh cq) head head phase)
    (set_q_sq (set_sq_free (sq_free_entries (q_sq q) + 1) (set_sq_head (cq_sqhd cqe) (q_sq q))) q).

Lemma next_head h n p : 0 <= h < n -> n <= 2 ^ 16 -> p = 0 \/ p = 1 ->
  (if h +! 1 =? n then (0, if p =? 0 then 1 else 0) else (h +! 1, p)) = ((h + 1) mod n, if h + 1 =? n then 1 - p else p) /\
  u32 ((h + 1) mod n) = (h + 1) mod n.
Proof.
  intros Hh Hn Hp. assert (0 <= (h + 1) mod n < n) by (apply Z.mod_pos_bound; lia). split; [|apply u32_small; lia].
  rewrite u64_small by lia. destruct (Z.eqb_spec (h + 1) n) as [He|He].
  - rewrite He, Z.mod_same by lia. by destruct Hp as [-> | ->].
  - by rewrite Z.mod_small by lia.
Qed.

(** No data pointer list was used. *)
Lemma prp_slot_zero q m k :
  2 <= q_entries q -> (forall x, q_prp_list_container q <= x < q_prp_list_container q + 8 * q_entries q -> rd m x = 0) ->
  read64 (q_prp_list_container q + 8 * (k mod q_entries q)) m = 0.
Proof.
  intros Hn Hz. assert (0 <= k mod q_entries q < q_entries q) by (apply Z.mod_pos_bound; lia).
  apply read64_zero. intros x Hx. apply Hz. lia.
Qed.

Lemma poll_spec q t L D c cqe m hw k :
  queue_ok q t L D ->
  let q1 := submitted q c in
  let d := dma_of q1 t in
  (k < Z.to_nat poll_limit)%nat -> (forall j, (j < k)%nat -> dma_cq (runs j (ho_hw t, d)).2 = dma_cq d) ->
  runs k (ho_hw t, d) = (hw, mk_dma (dma_qid d) (dma_sq d) (<[cq_head (q_cq q) := cqe]> (dma_cq d)) (dma_sqt d) (dma_cqh d) (dma_base d) m) ->
  Z.land (cq_status cqe) 1 = cq_phase (q_cq q) ->
  (forall x, q_prp_list_container q <= x < q_prp_list_container q + 8 * q_entries q -> rd m x = 0) ->
  nvme_queue_poll_single_cqe q1 t = Ret (cqe, completed q1 cqe, mk_host (set_mem m (ho_heap t)) (ho_vmm t) hw).
Proof.
  intros [Hn Hf Ht Hs Hh Hph Hc _ _] q1 d Hk Hj Hr Hp Hz. unfold nvme_queue_poll_single_cqe.
  rewrite (poll_loop_spec k (Z.to_nat (poll_limit + 1)) 0 q1 t _ _ ltac:(lia) Hr).
  - cbn [mbind outcome_bind]. destruct (Z.geb_spec (0 + Z.of_nat k) poll_limit); [unfold poll_limit in *; lia|].
    cbn [set_q_cq q_cq set_cq_ring cq_head cq_ring dma_cq q1 submitted set_q_sq d dma_of]. unfold elem.
    rewrite lookup_insert_eq. cbn [of_option mbind outcome_bind]. cbn [q_prp_list_container q_entries set_q_sq set_q_cq cq_phase ho_mem ho_heap set_mem h_mem dma_mem].
    change (q_prp_list_container q1) with (q_prp_list_container q). change (q_entries q1) with (q_entries q).
    rewrite (prp_slot_zero q m) by (done || lia). cbn [negb Z.eqb set_cq_ring cq_phase]. destruct (next_head _ _ _ Hh ltac:(lia) Hph) as [-> ->].
    unfold completed. cbn. rewrite Hf, u64_small by lia. done.
  - intros j Hlt. rewrite Hj by done. destruct (Hc _ Hh) as (c0 & Hc0 & Hb). exists c0. split; [exact Hc0|]. rewrite Hb.
    destruct (Z.ltb_spec (cq_head (q_cq q)) (cq_head (q_cq q))); [lia|]. change (cq_phase (q_cq q1)) with (cq_phase (q_cq q)). lia.
  - exists cqe. split; [apply lookup_insert_eq|done].
Qed.

Lemma completed_ok q t L D c cqe m hw D' :
  queue_ok q t L D -> Z.land (cq_status cqe) 1 = cq_phase (q_cq q) ->
  hw_idle hw (q_id q) (q_entries q) ((sq_tail (q_sq q) + 1) mod q_entries q) ((cq_head (q_cq q) + 1) mod q_entries q)
    (if cq_head (q_cq q) + 1 =? q_entries q then 1 - cq_phase (q_cq q) else cq_phase (q_cq q)) D' ->
  (forall x, q_prp_list_container q <= x < q_prp_list_container q + 8 * q_entries q -> rd m x = 0) ->
  queue_ok (completed (submitted q c) cqe) (mk_host (set_mem m (ho_heap t)) (ho_vmm t) hw) L D'.
Proof.
  intros [Hn Hf Ht Hs Hh Hph Hc _ (k & Hk & Hk8 & _)] Hp Hi Hz.
  assert (forall h, 0 <= (h + 1) mod q_entries q < q_entries q) as Hm by (intros; apply Z.mod_pos_bound; lia).
  split; cbn; try done; try apply Hm.
  - lia.
  - intros i Hi'. destruct (decide (i = sq_tail (q_sq q))) as [->|]; [rewrite lookup_insert_eq; by eexists|rewrite lookup_insert_ne by done; by apply Hs].
  - destruct (_ =? _); lia.
  - intros i Hi'. destruct (decide (i = cq_head (q_cq q))) as [->|Hne].
    + exists cqe. rewrite lookup_insert_eq. split; [done|]. destruct (Z.eqb_spec (cq_head (q_cq q) + 1) (q_entries q)) as [He|He].
      * rewrite He, Z.mod_same by lia. destruct (Z.ltb_spec (cq_head (q_cq q)) 0); lia.
      * rewrite Z.mod_small by lia. destruct (Z.ltb_spec (cq_head (q_cq q)) (cq_head (q_cq q) + 1)); lia.
    + rewrite lookup_insert_ne by done. destruct (Hc i Hi') as (c0 & Hc0 & Hb). exists c0. split; [done|]. rewrite Hb.
      destruct (Z.eqb_spec (cq_head (q_cq q) + 1) (q_entries q)) as [He|He].
      * rewrite He, Z.mod_same by lia. destruct (Z.ltb_spec i 0), (Z.ltb_spec i (cq_head (q_cq q))); lia.
      * rewrite Z.mod_small by lia. destruct (Z.ltb_spec i (cq_head (q_cq q))), (Z.ltb_spec i (cq_head (q_cq q) + 1)); lia.
  - by exists k.
Qed.

(** A command and its completion. *)
Lemma command_spec q t L D c len :
  queue_ok q t L D -> (c_opc c = NVME_OPC_IO_READ \/ c_opc c = NVME_OPC_IO_WRITE) ->
  len = (read_nlb c + 1) * hw_lba_size -> 0 < len -> (4 | c_prp1 c) -> c_prp1 c mod PAGE_SIZE + len <= PAGE_SIZE ->
  let p := h_offset (ho_heap t) + c_prp1 c in
  (p + len <= q_prp_list_container q \/ q_prp_list_container q + 8 * q_entries q <= p) ->
  exists cqe m D' hw, let t' := mk_host (set_mem m (ho_heap t)) (ho_vmm t) hw in
    nvme_queue_poll_single_cqe (submitted q c) t = Ret (cqe, completed (submitted q c) cqe, t') /\
    queue_ok (completed (submitted q c) cqe) t' L D' /\
    performed c (h_offset (ho_heap t)) len (NVME_CQE_SUCCESSFUL cqe) D (ho_mem t) D' m.
Proof.
  intros Hq Hop Hlen Hl0 Hal Hfit p Hap.
  destruct (hw_serves (ho_hw t) (dma_of (submitted q c) t) _ _ _ _ _ c len (qo_hw _ _ _ _ Hq) (lookup_insert_eq _ _ _) eq_refl Hop Hlen Hl0 Hal Hfit)
    as (k & [cqe m D' hw] & Hk & Hj & Hr & Hp & Hi & Hd). cbn [an_cqe an_mem an_disk an_hw] in *.
  assert (performed c (h_offset (ho_heap t)) len (NVME_CQE_SUCCESSFUL cqe) D (ho_mem t) D' m) as Hpf.
  { unfold performed. cbn [dma_of dma_base dma_mem] in Hd. destruct (_ <=? _); [|done]. destruct Hd as [-> Hd]. split; [done|]. by destruct (_ =? _). }
  assert (forall x, q_prp_list_container q <= x < q_prp_list_container q + 8 * q_entries q -> rd m x = 0) as Hz.
  { intros x Hx. rewrite (performed_outside _ _ _ _ _ _ _ _ x Hpf) by (unfold p in Hap; lia). destruct (qo_prp _ _ _ _ Hq) as (? & _ & _ & Hz). by apply Hz. }
  exists cqe, m, D', hw. split_and!; [by eapply poll_spec|by eapply completed_ok|done].
Qed.

(** ** Blocks *)

(** A cache block is an eighth of a page, and aligned, so that it lies in one
    page. *)
Lemma block_in_page h F own L a :
  heap_abs h F own L -> L !! a = Some NVME_BLOCK_SIZE ->
  let p := a - h_offset h in
  0 <= p /\ p + NVME_BLOCK_SIZE < 2 ^ 64 /\ (4 | p) /\ p mod PAGE_SIZE + NVME_BLOCK_SIZE <= PAGE_SIZE /\
  crosses_boundary p NVME_BLOCK_SIZE PAGE_SIZE = false /\ ~ static h a.
Proof.
  intros Ha HL p. pose proof (live_not_static _ _ _ _ _ _ a Ha HL ltac:(unfold NVME_BLOCK_SIZE; lia)) as Hns.
  destruct Ha as [[Hr _] Hl]. apply Hl in HL. pose proof (live_aligned _ _ _ _ _ _ Hr HL) as Hal. fold p in Hal.
  pose proof (hr_off _ _ _ _ Hr) as Hoff. unfold static in Hns. unfold NVME_BLOCK_SIZE, PAGE_SIZE in *. destruct Hal as [z Hz].
  assert (p mod 4096 = z mod 8 * 512) as Hm. { rewrite Hz. replace 4096 with (8 * 512) by lia. by rewrite Z.mul_mod_distr_r by lia. }
  pose proof (Z.mod_pos_bound z 8 ltac:(lia)). split_and!; [lia|lia| |lia| |].
  - exists (z * 128). lia.
  - unfold crosses_boundary. rewrite u64_small by lia. apply negb_false_iff, Z.eqb_eq.
    pose proof (Z.div_mod p 4096 ltac:(lia)). apply (Z.div_unique_pos _ _ _ (p mod 4096 + 511)); lia.
  - unfold static, PAGE_SIZE. lia.
Qed.

(** What [nvme_rw_blocking] does with the block at [a]. *)
Definition block_moved (opc a at_ : Z) (D m D' m' : mem) : Prop :=
  if opc =? NVME_OPC_IO_READ then D' = D /\ loaded a at_ NVME_BLOCK_SIZE D m m' else m' = m /\ stored a at_ NVME_BLOCK_SIZE D m D'.

(** The namespace is the one the controller serves, with blocks of a size
    that divides the cache's. *)
Record geometry (ns : nvme_ns_ctx) : Prop := {
  ge_lba : ns_lba_size ns = hw_lba_size;
  ge_pos : 0 < hw_lba_size;
  ge_div : NVME_BLOCK_SIZE / hw_lba_size * hw_lba_size = NVME_BLOCK_SIZE;
  ge_mdts : NVME_BLOCK_SIZE / hw_lba_size <= ns_mdts ns;
  ge_lbas : 0 <= hw_lbas < 2 ^ 64
}.

Lemma read_cmd_fields opc flags nsid slba nlb :
  0 <= slba < 2 ^ 64 -> read_slba (read_cmd opc flags nsid slba nlb) = slba /\ read_nlb (read_cmd opc flags nsid slba nlb) = u16 nlb.
Proof.
  intros Hs. unfold read_slba, read_nlb, read_cmd, u16. cbn. split; [|by rewrite Z.mod_mod].
  rewrite (Z.mod_small (slba / 2 ^ 32)) by (split; [apply Z.div_pos; lia|apply Z.div_lt_upper_bound; lia]).
  pose proof (Z.div_mod slba (2 ^ 32) ltac:(lia)). lia.
Qed.

Lemma rw_spec s F own L D lba n a opc :
  heap_abs (nv_heap s) F own L -> vm_ok (ho_vmm (nv_host s)) (nv_heap s) -> queue_ok (nv_queue s) (nv_host s) L D ->
  geometry (nv_ns s) -> n = NVME_BLOCK_SIZE / hw_lba_size -> 0 <= lba < 2 ^ 64 ->
  L !! a = Some NVME_BLOCK_SIZE -> a <> q_prp_list_container (nv_queue s) -> opc = NVME_OPC_IO_READ \/ opc = NVME_OPC_IO_WRITE ->
  returns (nvme_rw_blocking lba n a opc s) (fun '(ok, s') => exists q m v hw D', let t := mk_host (set_mem m (nv_heap s)) v hw in
    s' = set_queue q (set_host t s) /\ q_prp_list_container q = q_prp_list_container (nv_queue s) /\
    vm_ok v (nv_heap s) /\ queue_ok q t L D' /\
    if lba + n <=? hw_lbas then ok = true /\ block_moved opc a (lba * hw_lba_size) D (nv_mem s) D' m
    else ok = false /\ D' = D /\ m = nv_mem s).
Proof.
  intros Ha Hvm Hq [Hls Hpos Hdiv Hmd _] -> Hlba HL Hap Hop. set (n := NVME_BLOCK_SIZE / hw_lba_size) in *.
  destruct (block_in_page _ _ _ _ _ Ha HL) as (Hp0 & Hp1 & Hp4 & Hfit & Hcr & Hns). set (p := a - h_offset (nv_heap s)) in *.
  pose proof (qo_entries _ _ _ _ Hq) as Hn. assert (0 < n <= 512) as Hn0 by (unfold NVME_BLOCK_SIZE in *; nia).
  destruct (host_virt2phys_spec a (nv_host s) Hvm Hns) as (v & Hv & Hvm').
  unfold nvme_rw_blocking. rewrite Hls.
  assert (negb (opc =? NVME_OPC_IO_READ) && negb (opc =? NVME_OPC_IO_WRITE) = false) as -> by (destruct Hop as [-> | ->]; done).
  rewrite (u64_small (n * hw_lba_size)), (u64_small (PAGE_SIZE * _)) by (rewrite ?Hdiv; unfold NVME_BLOCK_SIZE, PAGE_SIZE in *; lia). rewrite Hdiv.
  assert ((n >? ns_mdts (nv_ns s)) || (NVME_BLOCK_SIZE >? PAGE_SIZE * q_entries (nv_queue s)) = false) as ->.
  { apply orb_false_iff. split; rewrite Z.gtb_ltb; apply Z.ltb_ge; [done|unfold NVME_BLOCK_SIZE, PAGE_SIZE; lia]. }
  mpure Hv. fold p. unfold nvme_prps. fold p in Hcr. change (ho_heap (nv_host s)) with (nv_heap s). fold p. rewrite Hcr. cbn [negb mbind outcome_bind].
  set (c := set_prps p _ _). set (t0 := mk_host (nv_heap s) v (ho_hw (nv_host s))).
  destruct (read_cmd_fields opc (Z.lor NVME_CMD_FLAGS_FUSE_NORMAL NVME_CMD_FLAGS_PRPS) (ns_nsid (nv_ns s)) lba (n -! 1) Hlba) as [Hsl Hnl].
  assert (read_slba c = lba /\ read_nlb c + 1 = n /\ c_opc c = opc /\ c_prp1 c = p) as (Hcs & Hcn & Hco & Hcp).
  { split_and!; [exact Hsl| |unfold c; cbn; by destruct Hop as [-> | ->]|done]. change (read_nlb c) with (read_nlb (read_cmd opc (Z.lor NVME_CMD_FLAGS_FUSE_NORMAL NVME_CMD_FLAGS_PRPS) (ns_nsid (nv_ns s)) lba (n -! 1))).
    rewrite Hnl. unfold u16. rewrite u64_small, Z.mod_small by lia. lia. }
  assert (queue_ok (nv_queue s) t0 L D) as Hq0 by (destruct Hq; by split).
  rewrite (submit_spec _ _ _ _ c Hq0). cbn [mbind outcome_bind negb].
  destruct (command_spec (nv_queue s) t0 L D c NVME_BLOCK_SIZE Hq0) as (cqe & m & D' & hw & Hpoll & Hq' & Hpf); rewrite ?Hco, ?Hcn, ?Hcp; try done.
  { destruct (qo_prp _ _ _ _ Hq) as (k & Hk & Hk8 & _). change (h_offset (ho_heap t0)) with (h_offset (nv_heap s)).
    destruct (abs_apart _ _ _ _ _ _ _ _ Ha HL Hk Hap); unfold p; lia. }
  rewrite Hpoll. cbn [mbind outcome_bind]. apply returns_ret. exists (completed (submitted (nv_queue s) c) cqe), m, v, hw, D'.
  split_and!; [done|done|done|exact Hq'|]. unfold performed in Hpf. rewrite Hco, Hcs, Hcp in Hpf.
  replace (lba + read_nlb c + 1) with (lba + n) in Hpf by lia. change (h_offset (ho_heap t0)) with (h_offset (nv_heap s)) in Hpf.
  replace (h_offset (nv_heap s) + p) with a in Hpf by (unfold p; lia). exact Hpf.
Qed.

End Io.
End NvmeIo.
