(* ===== verification/NvmeProof.v ===== *)
(** * The block cache is coherent

    [nvme_inv s ... A]: through the cache the disk holds the bytes [A].  A
    block of the disk is found in the memory of the cache entry the hash map
    names, or else on the disk; entries that are not dirty agree with the
    disk.  The operations on blocks keep [A]. *)

From stdpp Require Import gmap.
From S2P Require Import Prelude Macros Locking Dll Mem FrameHdr FrameAlloc PageIface Slab SlabRep SlabProof HeapSpec HeapFrame Mmu NvmeHdr Nvme NvmeCache NvmeIo.

Module NvmeProof.
Import Macros Locking Mem FrameHdr FrameAlloc PageIface Slab SlabRep SlabProof HeapSpec HeapFrame Mmu NvmeHdr Nvme NvmeCache NvmeIo.

Section Proof.
Context {PA : PageAllocator} {HW : NvmeController} {Obeys : NvmeObeys}.

(** Cache blocks of the namespace. *)
Definition nblocks : Z := hw_lbas / (NVME_BLOCK_SIZE / hw_lba_size).
Definition index_ok (i : Z) : Prop := 0 <= i < NVME_NCACHES.

(** The memory of a cache entry. *)
Record buf_ok (cells : gmap Z nvme_cache_hashmap_entry) (m : mem) (L : gmap Z Z) (prp a : Z) : Prop := {
  bo_live : L !! a = Some NVME_BLOCK_SIZE;
  bo_cells : ~ in_cells cells a;
  bo_prp : a <> prp;
  bo_bytes : forall o, 0 <= o < NVME_BLOCK_SIZE -> 0 <= rd m (a + o) < 256
}.

Definition on_disk (m D : mem) (a b : Z) : Prop :=
  forall o, 0 <= o < NVME_BLOCK_SIZE -> rd m (a + o) = u8 (rd D (b * NVME_BLOCK_SIZE + o)).

(** [H] is what the hash map says, [V] the part of it that counts. *)
Record entry_ok (cells : gmap Z nvme_cache_hashmap_entry) (m : mem) (L : gmap Z Z) (prp : Z) (H V : gmap Z Z) (D : mem) (i : Z)
    (e : nvme_cache_entry) : Prop := {
  eo_empty : ce_status e = NVME_CACHE_EMPTY -> ce_bid e = NVME_IDX_INV;
  eo_buf : ce_status e <> NVME_CACHE_EMPTY -> buf_ok cells m L prp (ce_block e);
  eo_bid : ce_bid e <> NVME_IDX_INV -> H !! ce_bid e = Some i;
  eo_dirty : ce_status e = NVME_CACHE_DIRTY -> ce_bid e <> NVME_IDX_INV;
  eo_clean : ce_status e = NVME_CACHE_VALID -> V !! ce_bid e = Some i -> on_disk m D (ce_block e) (ce_bid e)
}.

(** Byte [x] of the disk as the driver sees it. *)
Definition view (cache : gmap Z nvme_cache_entry) (m D : mem) (V : gmap Z Z) (x : Z) : Z :=
  match V !! (x / NVME_BLOCK_SIZE) with
  | Some i => match cache !! i with Some e => rd m (ce_block e + x mod NVME_BLOCK_SIZE) | None => 0 end
  | None => u8 (rd D x)
  end.

Definition prp_of (s : nvms) : Z := q_prp_list_container (nv_queue s).

Record nvme_inv (s : nvms) (F : gset Z) (own : gmap Z owner) (L H V : gmap Z Z) (ls : Z -> list (Z * (Z * Z))) (l : list Z)
    (D : mem) (A : Z -> Z) : Prop := {
  ni_heap : heap_abs (nv_heap s) F own L;
  ni_vm : vm_ok (ho_vmm (nv_host s)) (nv_heap s);
  ni_queue : queue_ok (nv_queue s) (nv_host s) L D;
  ni_geo : geometry (nv_ns s);
  ni_hash : hm_rep (ct_hashmap (nv_ct s)) (nv_cells s) H ls;
  ni_cells : cells_live (nv_cells s) L;
  ni_prp : ~ in_cells (nv_cells s) (prp_of s);
  ni_lru : lru_rep (ct_cache (nv_ct s)) (nv_nodes s) (ct_head (nv_ct s)) (ct_tail (nv_ct s)) l;
  ni_all : NoDup l /\ forall i, i ∈ l <-> index_ok i;
  ni_entry : forall i, index_ok i -> exists e, ct_cache (nv_ct s) !! i = Some e /\ entry_ok (nv_cells s) (nv_mem s) L (prp_of s) H V D i e;
  ni_map : forall b i, H !! b = Some i -> 0 <= b < nblocks /\ index_ok i /\ exists e, ct_cache (nv_ct s) !! i = Some e /\ ce_bid e = b;
  ni_sub : V ⊆ H;
  ni_inj : forall i j ei ej, ct_cache (nv_ct s) !! i = Some ei -> ct_cache (nv_ct s) !! j = Some ej ->
    index_ok i -> index_ok j -> ce_status ei <> NVME_CACHE_EMPTY -> ce_status ej <> NVME_CACHE_EMPTY -> ce_block ei = ce_block ej -> i = j;
  ni_view : forall x, 0 <= x < nblocks * NVME_BLOCK_SIZE -> view (ct_cache (nv_ct s)) (nv_mem s) D V x = A x
}.

(** The blocks of the heap the driver uses, apart from the nodes of the
    list, which stay what they are. *)
Definition mine (s : nvms) (a : Z) : Prop :=
  in_cells (nv_cells s) a \/ a = prp_of s \/
  exists i e, index_ok i /\ ct_cache (nv_ct s) !! i = Some e /\ ce_status e <> NVME_CACHE_EMPTY /\ ce_block e = a.

(** Nothing else on the heap changes, nor does the device's lock; the driver
    keeps hold of all it allocates until it frees it. *)
Record nv_frame (s s' : nvms) (L L' : gmap Z Z) : Prop := {
  nf_heap : hkeep (mine s) (nv_heap s) (nv_heap s') L L';
  nf_mine : forall a, is_Some (L !! a) -> ~ mine s a -> ~ mine s' a;
  nf_back : forall a k, L' !! a = Some k -> ~ mine s' a -> L !! a = Some k /\ ~ mine s a;
  nf_lock : nv_lock s' = nv_lock s;
  nf_nodes : dom (nv_nodes s') = dom (nv_nodes s)
}.

Lemma nv_frame_refl s L : nv_frame s s L L.
Proof. split; [apply hkeep_refl|done..]. Qed.

Lemma nv_frame_trans s1 s2 s3 L1 L2 L3 : nv_frame s1 s2 L1 L2 -> nv_frame s2 s3 L2 L3 -> nv_frame s1 s3 L1 L3.
Proof.
  intros [[Hd Hl Hst] Hm Hbk Hlk Hn] [[Hd' Hl' Hst'] Hm' Hbk' Hlk' Hn']. split; [split; [by etrans| |]| | |congruence..].
  - intros b k Hb Hnm. destruct (Hl b k Hb Hnm) as [Hb2 Hx2]. destruct (Hl' b k Hb2) as [Hb3 Hx3]; [by apply Hm|].
    split; [done|]. intros x Hx. by rewrite Hx3, Hx2.
  - intros x Hx. rewrite Hst' by (by rewrite static_done). by apply Hst.
  - intros b [k Hb] Hnm. destruct (Hl b k Hb Hnm) as [Hb2 _]. apply Hm'; [by eexists|]. apply Hm; [by eexists|done].
  - intros b k Hb Hnm. destruct (Hbk' b k Hb Hnm) as [Hb2 Hn2]. by apply Hbk.
Qed.

(** The driver after an operation. *)
Definition nv_state (s : nvms) (L : gmap Z Z) (A : Z -> Z) (n : nat) : Prop :=
  exists F own H ls l D, nvme_inv s F own L H H ls l D A /\ spare F n.

Lemma inv_ext s F own L H V ls l D A A' :
  nvme_inv s F own L H V ls l D A -> (forall x, 0 <= x < nblocks * NVME_BLOCK_SIZE -> A x = A' x) -> nvme_inv s F own L H V ls l D A'.
Proof. intros [] He. split; try done. intros x Hx. rewrite <- He by done. auto. Qed.

(** ** Stability *)

Lemma geometry_ext ns ns' : ns_lba_size ns' = ns_lba_size ns -> ns_mdts ns' = ns_mdts ns -> geometry ns -> geometry ns'.
Proof. intros H1 H2 []. split; congruence. Qed.

Lemma buf_keep P h h' cells L L' prp a :
  hkeep P h h' L L' -> ~ P a -> buf_ok cells (h_mem h) L prp a ->
  L' !! a = Some NVME_BLOCK_SIZE /\ forall o, 0 <= o < NVME_BLOCK_SIZE -> rd (h_mem h') (a + o) = rd (h_mem h) (a + o).
Proof. intros Hk Hn [Hl _ _ _]. destruct (hk_live _ _ _ _ _ Hk a _ Hl Hn) as [? Hx]. split; [done|]. intros o Ho. apply Hx. lia. Qed.

Lemma on_disk_ext m m' D D' a b :
  (forall o, 0 <= o < NVME_BLOCK_SIZE -> rd m' (a + o) = rd m (a + o)) ->
  (forall o, 0 <= o < NVME_BLOCK_SIZE -> rd D' (b * NVME_BLOCK_SIZE + o) = rd D (b * NVME_BLOCK_SIZE + o)) -> on_disk m D a b -> on_disk m' D' a b.
Proof. intros Hm Hd Ho o Hr. rewrite Hm, Hd by done. by apply Ho. Qed.

Lemma vm_keep v h h' : hdone h h' -> vm_ok v h -> vm_ok v h'.
Proof.
  intros Hd [Ht Hl Hw Hx]. split; try done. intros x Hs. rewrite (hd_off _ _ Hd). apply Hx. by rewrite <- (static_done _ _ _ Hd).
Qed.

Lemma queue_keep P q t h' L L' D :
  hkeep P (ho_heap t) h' L L' -> ~ P (q_prp_list_container q) -> queue_ok q t L D -> queue_ok q (mk_host h' (ho_vmm t) (ho_hw t)) L' D.
Proof.
  intros Hk Hn [H1 H2 H3 H4 H5 H6 H7 H8 (k & Hl & Hk8 & Hz)]. split; try done.
  destruct (hk_live _ _ _ _ _ Hk _ _ Hl Hn) as [Hl' Hx]. exists k. split_and!; [done|done|]. intros x Hr.
  change (ho_mem (mk_host h' (ho_vmm t) (ho_hw t))) with (h_mem h'). rewrite Hx by lia. by apply Hz.
Qed.

(** *** [nvme_cache_inform_usage] *)
Lemma inv_list s F own L H V ls l D A nodes head tail l' :
  nvme_inv s F own L H V ls l D A -> lru_rep (ct_cache (nv_ct s)) nodes head tail l' -> dom nodes = dom (nv_nodes s) -> l' ≡ₚ l ->
  nvme_inv (with_list nodes head tail s) F own L H V ls l' D A /\ nv_frame s (with_list nodes head tail s) L L.
Proof.
  intros Hi Hl Hdom Hp. split.
  - destruct Hi. split; try done; [by apply (geometry_ext (nv_ns s))|]. split; [by rewrite Hp; apply ni_all0|]. intros i. rewrite Hp. apply ni_all0.
  - by split; [apply hkeep_refl|..].
Qed.

Lemma inform_inv s F own L H V ls l D A i :
  nvme_inv s F own L H V ls l D A -> index_ok i ->
  returns (nvme_cache_inform_usage i s) (fun s' => exists nodes head tail l', s' = with_list nodes head tail s /\
    nvme_inv s' F own L H V ls l' D A /\ nv_frame s s' L L).
Proof.
  intros Hi Hx. apply (proj2 (ni_all _ _ _ _ _ _ _ _ _ _ Hi)) in Hx. apply list_elem_of_split in Hx as (l1 & l2 & ->).
  eapply returns_mono; [apply inform_usage_spec, (ni_lru _ _ _ _ _ _ _ _ _ _ Hi)|].
  intros s' (nodes & head & tail & -> & Hl & Hdom). exists nodes, head, tail, (i :: l1 ++ l2). split; [done|].
  eapply inv_list; [done|done|done|]. apply Permutation_middle.
Qed.

(** *** One entry, the hash map and the heap change *)

Definition with_entry (i : Z) (e : nvme_cache_entry) (s : nvms) : nvms := set_ct (set_ct_cache (<[i := e]> (ct_cache (nv_ct s))) (nv_ct s)) s.

Lemma upd_entry_ret i f s e : ct_cache (nv_ct s) !! i = Some e -> upd_entry i f s = Ret (with_entry i (f e) s).
Proof. intros He. unfold upd_entry, set_elem, elem. rewrite He. done. Qed.
Lemma get_entry_ret i s e : ct_cache (nv_ct s) !! i = Some e -> get_entry i s = Ret e.
Proof. intros He. unfold get_entry, elem. by rewrite He. Qed.
Lemma with_entry_entry i e e' s : with_entry i e' (with_entry i e s) = with_entry i e' s.
Proof. unfold with_entry. cbn. rewrite insert_insert_eq. by destruct s as [? [? ? [] ? ? ?] ? ? ?]. Qed.
Lemma with_entry_lookup i e s : ct_cache (nv_ct (with_entry i e s)) !! i = Some e.
Proof. apply lookup_insert_eq. Qed.

Lemma entry_keep P h h' cells cells' L L' prp H H' V V' D i e :
  hkeep P h h' L L' -> (ce_status e <> NVME_CACHE_EMPTY -> ~ P (ce_block e)) ->
  (forall a, in_cells cells' a -> in_cells cells a \/ L !! a = None) ->
  (ce_bid e <> NVME_IDX_INV -> H' !! ce_bid e = Some i) -> (V' !! ce_bid e = Some i -> V !! ce_bid e = Some i) ->
  entry_ok cells (h_mem h) L prp H V D i e -> entry_ok cells' (h_mem h') L' prp H' V' D i e.
Proof.
  intros Hk Hp Hc Hb Hv [H1 H2 H3 H4 H5]. split; try done.
  - intros Hne. specialize (H2 Hne). destruct (buf_keep _ _ _ _ _ _ _ _ Hk (Hp Hne) H2) as [Hl Hm]. destruct H2 as [Hl0 Hc0 Hp0 Hb0].
    split; [done| |done|]; [|intros o Ho; rewrite Hm by done; by apply Hb0].
    intros [?|?]%Hc; [done|congruence].
  - intros Hs Hvb. assert (ce_status e <> NVME_CACHE_EMPTY) as Hne by congruence.
    destruct (buf_keep _ _ _ _ _ _ _ _ Hk (Hp Hne) (H2 Hne)) as [_ Hm]. eapply on_disk_ext; [exact Hm|done|auto].
Qed.

Record entry_change (s : nvms) (L : gmap Z Z) (i : Z) (e e' : nvme_cache_entry) (H' V V' : gmap Z Z) : Prop := {
  ec_old : index_ok i /\ ct_cache (nv_ct s) !! i = Some e;
  ec_ref : ce_lruref e' = ce_lruref e;
  ec_block : ce_status e' <> NVME_CACHE_EMPTY -> (ce_status e <> NVME_CACHE_EMPTY /\ ce_block e' = ce_block e) \/ L !! ce_block e' = None;
  ec_keep : ce_status e <> NVME_CACHE_EMPTY -> ce_status e' <> NVME_CACHE_EMPTY /\ ce_block e' = ce_block e;
  ec_bids : forall j ej, j <> i -> index_ok j -> ct_cache (nv_ct s) !! j = Some ej ->
    (ce_bid ej <> NVME_IDX_INV -> H' !! ce_bid ej = Some j) /\ (V' !! ce_bid ej = Some j -> V !! ce_bid ej = Some j);
  ec_map : forall b j, H' !! b = Some j -> 0 <= b < nblocks /\ index_ok j /\
    exists ej, <[i := e']> (ct_cache (nv_ct s)) !! j = Some ej /\ ce_bid ej = b;
  ec_sub : V' ⊆ H'
}.

Lemma inv_change P s F own L H V ls l D A h F' own' L' slots cells H' V' ls' i e e' A' :
  nvme_inv s F own L H V ls l D A ->
  heap_abs h F' own' L' -> hkeep P (nv_heap s) h L L' ->
  (forall j ej, j <> i -> index_ok j -> ct_cache (nv_ct s) !! j = Some ej -> ce_status ej <> NVME_CACHE_EMPTY -> ~ P (ce_block ej)) -> ~ P (prp_of s) ->
  (forall a, P a -> mine s a) ->
  hm_rep slots cells H' ls' -> cells_live cells L' -> (forall a, in_cells cells a -> in_cells (nv_cells s) a \/ L !! a = None) ->
  entry_change s L i e e' H' V V' -> entry_ok cells (h_mem h) L' (prp_of s) H' V' D i e' ->
  (forall x, 0 <= x < nblocks * NVME_BLOCK_SIZE -> view (<[i := e']> (ct_cache (nv_ct s))) (h_mem h) D V' x = A' x) ->
  let s' := with_entry i e' (with_map slots cells h s) in
  (forall a k, L' !! a = Some k -> ~ mine s' a -> L !! a = Some k /\ ~ in_cells (nv_cells s) a) ->
  nvme_inv s' F' own' L' H' V' ls' l D A' /\ nv_frame s s' L L'.
Proof.
  intros Hi Ha Hk HP Hprp HPm Hhm Hcl Hfr [[Hio Hie] Href Hbl Hkp Hbid Hmap Hsub] Heo Hvw s' Hback.
  assert (forall a, is_Some (L !! a) -> in_cells cells a -> in_cells (nv_cells s) a) as Hold.
  { intros a [k Hl] [?|?]%Hfr; [done|congruence]. }
  destruct (qo_prp _ _ _ _ (ni_queue _ _ _ _ _ _ _ _ _ _ Hi)) as (kp & Hlp & _).
  split.
  - destruct Hi as [_ Hvm Hq Hg _ _ Hnp Hlru Hall Hent _ _ Hinj _]. split; try done.
    + eapply vm_keep; [apply Hk|done].
    + eapply (queue_keep P _ (nv_host s)); done.
    + by apply (geometry_ext (nv_ns s)).
    + intros Hin. apply Hnp. apply Hold; [by eexists|done].
    + eapply lru_rep_cache; [exact Hlru|]. intros j ej Hj. change (ct_cache (nv_ct s')) with (<[i := e']> (ct_cache (nv_ct s))).
      destruct (decide (j = i)) as [->|]; [exists e'; rewrite lookup_insert_eq; split; [done|congruence]|exists ej; by rewrite lookup_insert_ne].
    + intros j Hj. change (ct_cache (nv_ct s')) with (<[i := e']> (ct_cache (nv_ct s))). destruct (decide (j = i)) as [->|Hne].
      * exists e'. by rewrite lookup_insert_eq.
      * destruct (Hent j Hj) as (ej & Hej & Hok). exists ej. rewrite lookup_insert_ne by done. split; [done|].
        destruct (Hbid j ej Hne Hj Hej) as [Hb1 Hb2]. eapply entry_keep; [exact Hk| |exact Hfr|exact Hb1|exact Hb2|exact Hok]. by eapply HP.
    + intros j k ej ek. change (ct_cache (nv_ct s')) with (<[i := e']> (ct_cache (nv_ct s))).
      assert (forall j ej, j <> i -> index_ok j -> ct_cache (nv_ct s) !! j = Some ej -> ce_status ej <> NVME_CACHE_EMPTY ->
        ce_status e' <> NVME_CACHE_EMPTY -> ce_block ej <> ce_block e') as Hd.
      { intros j' ej' Hne Hj' Hej' Hs1 Hs2 Heq. destruct (Hbl Hs2) as [[Hs3 Hb3]|Hn].
        - apply Hne. eapply Hinj; try done. congruence.
        - destruct (Hent j' Hj') as (e2 & He2 & Hok). assert (e2 = ej') as -> by congruence. destruct (eo_buf _ _ _ _ _ _ _ _ _ Hok Hs1). congruence. }
      destruct (decide (j = i)) as [->|], (decide (k = i)) as [->|]; rewrite ?lookup_insert_eq, ?lookup_insert_ne by done; intros; simplify_eq; try done.
      * exfalso. by eapply (Hd k ek).
      * exfalso. by eapply (Hd j ej).
      * by eapply Hinj.
  - split; [| | |done..].
    + destruct Hk as [Hd Hl Hst]. split; [done| |done]. intros b k Hb Hn. apply Hl; [done|]. intros Hp. by apply Hn, HPm.
    + intros a Hla Hn Hm. apply Hn. destruct Hm as [Hc|[Hp|(j & ej & Hj & Hej & Hs & Hb)]]; [left; by apply Hold|by right; left|].
      right. right. change (ct_cache (nv_ct s')) with (<[i := e']> (ct_cache (nv_ct s))) in Hej. destruct (decide (j = i)) as [->|].
      * rewrite lookup_insert_eq in Hej. injection Hej as <-. destruct (Hbl Hs) as [[Hs3 Hb3]|Hnn]; [exists i, e; split_and!; try done; congruence|].
        destruct Hla as [k Hla]. congruence.
      * rewrite lookup_insert_ne in Hej by done. by exists j, ej.
    + intros a k Hla Hn. destruct (Hback a k Hla Hn) as [Hl Hnc]. split; [done|].
      intros [Hc|[Hp|(j & ej & Hj & Hej & Hs & Hb)]]; [done|by apply Hn; right; left|].
      apply Hn. right. right. change (ct_cache (nv_ct s')) with (<[i := e']> (ct_cache (nv_ct s))). destruct (decide (j = i)) as [->|].
      * exists i, e'. rewrite lookup_insert_eq. assert (ej = e) as -> by congruence. destruct (Hkp Hs). split_and!; try done. congruence.
      * exists j, ej. by rewrite lookup_insert_ne.
Qed.

(** Bytes in the memory of other entries. *)
Definition avoids (V : gmap Z Z) (i : Z) : Prop := forall b, V !! b <> Some i.

Lemma view_avoids P s F own L H V ls l D A h L' i e' x :
  nvme_inv s F own L H V ls l D A -> hkeep P (nv_heap s) h L L' ->
  (forall j ej, j <> i -> index_ok j -> ct_cache (nv_ct s) !! j = Some ej -> ce_status ej <> NVME_CACHE_EMPTY -> ~ P (ce_block ej)) ->
  avoids V i -> view (<[i := e']> (ct_cache (nv_ct s))) (h_mem h) D V x = view (ct_cache (nv_ct s)) (nv_mem s) D V x.
Proof.
  intros Hi Hk HP Hav. unfold view. destruct (V !! (x / NVME_BLOCK_SIZE)) as [j|] eqn:Hv; [|done].
  assert (j <> i) as Hne by (intros ->; by eapply Hav). rewrite lookup_insert_ne by done.
  pose proof (lookup_weaken _ _ _ _ Hv (ni_sub _ _ _ _ _ _ _ _ _ _ Hi)) as Hh.
  destruct (ni_map _ _ _ _ _ _ _ _ _ _ Hi _ _ Hh) as (_ & Hj & e & He & Hb). rewrite He.
  destruct (ni_entry _ _ _ _ _ _ _ _ _ _ Hi j Hj) as (e2 & He2 & Hok). assert (e2 = e) as -> by congruence.
  assert (ce_status e <> NVME_CACHE_EMPTY) as Hs.
  { intros Hs. apply (eo_empty _ _ _ _ _ _ _ _ _ Hok) in Hs. rewrite Hb in Hs. rewrite Hs, (hm_inv _ _ _ _ (ni_hash _ _ _ _ _ _ _ _ _ _ Hi)) in Hh. done. }
  destruct (buf_keep _ _ _ _ _ _ _ _ Hk (HP j e Hne Hj He Hs) (eo_buf _ _ _ _ _ _ _ _ _ Hok Hs)) as [_ Hm].
  apply Hm. by apply Z.mod_pos_bound.
Qed.

(** *** [nvme_cache_lru_evict] *)

Lemma capacity_block : capacity NVME_BLOCK_SIZE = NVME_BLOCK_SIZE.
Proof. reflexivity. Qed.

Lemma tail_index s F own L H V ls l D A :
  nvme_inv s F own L H V ls l D A -> exists i n, index_ok i /\ load (ct_tail (nv_ct s)) (nv_nodes s) = Ret n /\ nd_index n = i.
Proof.
  intros Hi. destruct (ni_lru _ _ _ _ _ _ _ _ _ _ Hi) as (la & _ & -> & Hf). destruct (ni_all _ _ _ _ _ _ _ _ _ _ Hi) as [_ Hall].
  destruct l as [|i l _] using rev_ind.
  { assert (0 ∈ []) as Hin by (apply Hall; unfold index_ok, NVME_NCACHES; lia). by apply elem_of_nil in Hin. }
  apply Forall2_app_inv_l in Hf as (la1 & la2 & _ & Hf & ->). apply Forall2_cons_inv_l in Hf as (a & la3 & [_ (n & Hn & Hni)] & Hf & ->).
  apply Forall2_nil_inv_l in Hf as ->. exists i, n. unfold Dll.last_ref. rewrite last_snoc. cbn [load]. rewrite Hn. split_and!; [|done|done].
  apply Hall, elem_of_app. right. left.
Qed.

Lemma evict_inv s F own L H ls l D A n :
  nvme_inv s F own L H H ls l D A -> spare F (S n) ->
  returns (nvme_cache_lru_evict s) (fun '(i, s') => index_ok i /\ exists F' own' L',
    nvme_inv s' F' own' L' H H ls l D A /\ spare F' n /\ nv_frame s s' L L' /\
    exists e, ct_cache (nv_ct s') !! i = Some e /\ ce_status e <> NVME_CACHE_EMPTY).
Proof.
  intros Hi Hsp. destruct (tail_index _ _ _ _ _ _ _ _ _ _ Hi) as (i & nd & Hx & Hl & Hni). unfold nvme_cache_lru_evict. mpure Hl. rewrite Hni.
  destruct (ni_entry _ _ _ _ _ _ _ _ _ _ Hi i Hx) as (e & He & Hok). mpure (get_entry_ret i s e He).
  destruct (decide (ce_status e = NVME_CACHE_EMPTY)) as [Hs|Hs].
  2:{ apply returns_ret. split; [done|]. exists F, own, L. split_and!; [done|by apply spare_less|apply nv_frame_refl|by exists e]. }
  unfold calloc. mstep. mcall (kcalloc_later (nv_heap s) F own L n NVME_BLOCK_SIZE (ni_heap _ _ _ _ _ _ _ _ _ _ Hi) ltac:(done) Hsp).
  intros [b h] (F' & own' & L' & HL' & Ha' & Hnb & _ & Hla & Hsp' & Hz). apply returns_ret. rewrite capacity_block in HL'.
  set (e' := set_ce_status NVME_CACHE_VALID (set_ce_block b e)).
  mpure (upd_entry_ret i (set_ce_block b) (set_heap h s) e He).
  mret (upd_entry_ret i (set_ce_status NVME_CACHE_VALID) _ _ (with_entry_lookup i _ _)). rewrite with_entry_entry. fold e'.
  apply returns_ret. split; [done|]. exists F', own', L'.
  pose proof (eo_empty _ _ _ _ _ _ _ _ _ Hok Hs) as Hbi. pose proof (hm_inv _ _ _ _ (ni_hash _ _ _ _ _ _ _ _ _ _ Hi)) as Hinv.
  assert (avoids H i) as Hav.
  { intros b' Hb'. destruct (ni_map _ _ _ _ _ _ _ _ _ _ Hi _ _ Hb') as (_ & _ & e2 & He2 & Hb2). congruence. }
  assert (hkeep (fun _ => False) (nv_heap s) h L L') as Hk by (by apply hkeep_later).
  assert (forall a, is_Some (L !! a) -> a <> b) as Hfresh by (intros a [k Hak] ->; congruence).
  destruct (qo_prp _ _ _ _ (ni_queue _ _ _ _ _ _ _ _ _ _ Hi)) as (kp & Hlp & _).
  destruct (inv_change (fun _ => False) s F own L H H ls l D A h F' own' L' (ct_hashmap (nv_ct s)) (nv_cells s) H H ls i e e' A) as [Hi' Hf'];
    try done; try apply Hi; try tauto.
  - intros a Hc. destruct (ni_cells _ _ _ _ _ _ _ _ _ _ Hi a Hc) as [k Hak]. rewrite HL'. rewrite lookup_insert_ne by (symmetry; apply Hfresh; by eexists). by eexists.
  - split; try done; [by right| |].
    + intros j ej Hne Hj Hej. destruct (ni_entry _ _ _ _ _ _ _ _ _ _ Hi j Hj) as (e2 & He2 & Hok2). assert (e2 = ej) as -> by congruence.
      split; [apply Hok2|done].
    + intros b' j Hbj. destruct (ni_map _ _ _ _ _ _ _ _ _ _ Hi _ _ Hbj) as (? & ? & e2 & He2 & Hb2). do 2 (split; [done|]). exists e2.
      rewrite lookup_insert_ne; [done|]. intros <-. by eapply Hav.
  - split; cbn; try done.
    + intros _. split; [rewrite HL'; apply lookup_insert_eq| |symmetry; apply Hfresh; by eexists|intros o Ho; rewrite Hz by lia; lia].
      intros Hc. destruct (ni_cells _ _ _ _ _ _ _ _ _ _ Hi b Hc). congruence.
    + intros _. rewrite Hbi, Hinv. done.
  - intros x Hx'. rewrite (view_avoids (fun _ => False) s F own L H H ls l D A h L') by (done || tauto). by apply Hi.
  - intros a k Hl' Hn. rewrite HL', lookup_insert_ne in Hl'; [split; [done|]; intros Hc; apply Hn; by left|].
    intros <-. apply Hn. right. right. exists i, e'. by rewrite with_entry_lookup.
  - replace (set_heap h s) with (with_map (ct_hashmap (nv_ct s)) (nv_cells s) h s) by (by destruct s as [? [? ? [] ? ? ?] ? ? ?]).
    split_and!; [exact Hi'|done|exact Hf'|]. exists e'. split; [apply lookup_insert_eq|done].
Qed.

(** ** Transfers *)

(** The state after a command: another queue, memory [m], other page table
    and controller states. *)
Definition with_io (q : nvme_queue_ctx) (m : mem) (v : vmm) (hw : nvme_hw) (s : nvms) : nvms :=
  set_queue q (set_host (mk_host (set_mem m (nv_heap s)) v hw) s).

Lemma in_range ns b : geometry ns -> let n := NVME_BLOCK_SIZE / hw_lba_size in
  (n * b + n <=? hw_lbas) = (b <? nblocks) /\ 0 < n <= 512 /\ (n * b) * hw_lba_size = b * NVME_BLOCK_SIZE.
Proof.
  intros [_ Hpos Hdiv _ Hl] n. assert (0 < n <= 512) as Hn by (unfold n, NVME_BLOCK_SIZE in *; nia). split_and!; [|lia|lia|unfold n; nia].
  unfold nblocks. fold n. apply eq_bool_prop_intro. rewrite !Is_true_true, Z.leb_le, Z.ltb_lt. split; intros Hx.
  - assert (b + 1 <= hw_lbas / n); [|lia]. apply Z.div_le_lower_bound; lia.
  - pose proof (Z.mul_div_le hw_lbas n ltac:(lia)). nia.
Qed.

Lemma transfer_spec s F own L H V ls l D A i e b opc :
  nvme_inv s F own L H V ls l D A -> index_ok i -> ct_cache (nv_ct s) !! i = Some e -> ce_status e <> NVME_CACHE_EMPTY ->
  0 <= b < 2 ^ 55 \/ 0 <= b < nblocks -> opc = NVME_OPC_IO_READ \/ opc = NVME_OPC_IO_WRITE ->
  returns (transfer i b opc s) (fun '(ok, s') => exists q m v hw D',
    s' = with_io q m v hw s /\ q_prp_list_container q = prp_of s /\ vm_ok v (nv_heap s) /\
    queue_ok q (mk_host (set_mem m (nv_heap s)) v hw) L D' /\
    if b <? nblocks then ok = true /\ block_moved opc (ce_block e) (b * NVME_BLOCK_SIZE) D (nv_mem s) D' m
    else ok = false /\ D' = D /\ m = nv_mem s).
Proof.
  intros Hi Hx He Hs Hb Hop. unfold transfer. mpure (get_entry_ret i s e He).
  destruct (ni_entry _ _ _ _ _ _ _ _ _ _ Hi i Hx) as (e2 & He2 & Hok). assert (e2 = e) as -> by congruence.
  destruct (eo_buf _ _ _ _ _ _ _ _ _ Hok Hs) as [Hl Hc Hp Hby]. pose proof (ni_geo _ _ _ _ _ _ _ _ _ _ Hi) as Hg.
  unfold lbas. rewrite (ge_lba _ Hg). set (n := NVME_BLOCK_SIZE / hw_lba_size). destruct (in_range _ b Hg) as (Hr & Hn & Hat). fold n in Hr, Hn, Hat.
  assert (0 <= n * b < 2 ^ 64) as Hnb.
  { destruct Hb as [?|Hb]; [nia|]. pose proof (ge_lbas _ Hg). split; [nia|].
    assert (b <? nblocks = true) as Hlt by (apply Z.ltb_lt; lia). rewrite <- Hr in Hlt. apply Z.leb_le in Hlt. lia. }
  rewrite u64_small by done.
  eapply returns_mono; [apply (rw_spec s F own L D (n * b) n (ce_block e) opc); try done; apply Hi|].
  intros [ok s'] (q & m & v & hw & D' & -> & Hq & Hv & Hqo & Hres). exists q, m, v, hw, D'. split_and!; try done. rewrite <- Hr, <- Hat. exact Hres.
Qed.

Lemma block_offset b o : 0 <= o < NVME_BLOCK_SIZE -> (b * NVME_BLOCK_SIZE + o) / NVME_BLOCK_SIZE = b /\ (b * NVME_BLOCK_SIZE + o) mod NVME_BLOCK_SIZE = o.
Proof.
  unfold NVME_BLOCK_SIZE. intros Ho. split.
  - symmetry. apply (Z.div_unique_pos _ _ _ o); lia.
  - symmetry. apply (Z.mod_unique_pos _ _ b); lia.
Qed.

Lemma disk_split x : x = x / NVME_BLOCK_SIZE * NVME_BLOCK_SIZE + x mod NVME_BLOCK_SIZE.
Proof. pose proof (Z.div_mod x NVME_BLOCK_SIZE ltac:(done)). lia. Qed.

Lemma range_block ns x : geometry ns -> 0 <= x < nblocks * NVME_BLOCK_SIZE -> 0 <= x / NVME_BLOCK_SIZE < nblocks /\ x / NVME_BLOCK_SIZE <> NVME_IDX_INV.
Proof.
  intros Hg Hx. assert (nblocks <= hw_lbas) as Hn.
  { destruct (in_range _ 0 Hg) as (_ & Hn & _). unfold nblocks. pose proof (ge_lbas _ Hg). apply Z.div_le_upper_bound; nia. }
  pose proof (ge_lbas _ Hg). assert (0 <= x / NVME_BLOCK_SIZE < nblocks) as Hb; [|split; [done|unfold NVME_IDX_INV; lia]].
  unfold NVME_BLOCK_SIZE in *. split; [apply Z.div_pos; lia|apply Z.div_lt_upper_bound; lia].
Qed.

(** The entry's contents, if it has any, are on the disk. *)
Definition saved (m D : mem) (e : nvme_cache_entry) : Prop := ce_bid e <> NVME_IDX_INV -> on_disk m D (ce_block e) (ce_bid e).

(** Once it is on the disk the entry does not count. *)
Lemma inv_saved s F own L H ls l D A i e q v hw D' :
  nvme_inv s F own L H H ls l D A -> index_ok i -> ct_cache (nv_ct s) !! i = Some e ->
  vm_ok v (nv_heap s) -> q_prp_list_container q = prp_of s -> queue_ok q (mk_host (nv_heap s) v hw) L D' ->
  (forall x, x / NVME_BLOCK_SIZE <> ce_bid e -> rd D' x = rd D x) -> saved (nv_mem s) D' e ->
  nvme_inv (with_io q (nv_mem s) v hw s) F own L H (delete (ce_bid e) H) ls l D' A.
Proof.
  intros Hi Hx He Hv Hpq Hq Hd Hsv. pose proof Hi as [Ha _ _ Hg Hhm Hcl Hprp Hlru Hall Hent Hmap _ Hinj Hvw].
  assert (with_io q (nv_mem s) v hw s = set_queue q (set_host (mk_host (nv_heap s) v hw) s)) as Hw by (unfold with_io, nv_mem; by destruct (nv_heap s)).
  rewrite Hw. split; try done.
  - by apply (geometry_ext (nv_ns s)).
  - unfold prp_of. cbn. by rewrite Hpq.
  - intros j Hj. destruct (Hent j Hj) as (ej & Hej & [E1 E2 E3 E4 E5]). exists ej. split; [done|]. split; try done.
    + intros Hs. specialize (E2 Hs). unfold prp_of. cbn. rewrite Hpq. exact E2.
    + intros Hs [Hne Hvj]%lookup_delete_Some. eapply on_disk_ext; [done| |by apply E5]. intros o Ho. apply Hd. by rewrite (proj1 (block_offset _ _ Ho)).
  - apply delete_subseteq.
  - intros x Hxr. rewrite <- Hvw by done. unfold view. change (nv_ct _) with (nv_ct s). change (nv_mem _) with (nv_mem s).
    destruct (decide (x / NVME_BLOCK_SIZE = ce_bid e)) as [Hb|Hb].
    + rewrite Hb, lookup_delete_eq. destruct (decide (ce_bid e = NVME_IDX_INV)) as [Hn|Hn].
      * destruct (range_block _ x Hg Hxr) as [_ Hni]. congruence.
      * destruct (Hent i Hx) as (e2 & He2 & Hok). assert (e2 = e) as -> by congruence. rewrite (eo_bid _ _ _ _ _ _ _ _ _ Hok Hn), He.
        rewrite (Hsv Hn) by (by apply Z.mod_pos_bound). rewrite <- Hb, <- disk_split. done.
    + rewrite lookup_delete_ne by done. destruct (H !! _); [done|]. by rewrite Hd.
Qed.

Lemma with_io_id s : with_io (nv_queue s) (nv_mem s) (ho_vmm (nv_host s)) (ho_hw (nv_host s)) s = s.
Proof. by destruct s as [[[] ? ?] [] ? ? ?]. Qed.

Lemma with_io_mine q m v hw s a : q_prp_list_container q = prp_of s -> mine (with_io q m v hw s) a <-> mine s a.
Proof. intros Hq. unfold mine. change (prp_of (with_io q m v hw s)) with (q_prp_list_container q). by rewrite Hq. Qed.

Lemma with_io_frame q v hw s L : q_prp_list_container q = prp_of s -> nv_frame s (with_io q (nv_mem s) v hw s) L L.
Proof.
  intros Hq. assert (nv_heap (with_io q (nv_mem s) v hw s) = nv_heap s) as Hh by (cbn; unfold nv_mem; by destruct (nv_heap s)).
  split; [rewrite Hh; apply hkeep_refl| | |done..].
  - intros a _ Hn Hm. apply Hn. by apply (with_io_mine q (nv_mem s) v hw).
  - intros a k Hl Hn. split; [done|]. intros Hm. apply Hn. by apply with_io_mine.
Qed.

(** *** Writing the victim back *)
Lemma write_back_inv s F own L H ls l D A i e :
  nvme_inv s F own L H H ls l D A -> index_ok i -> ct_cache (nv_ct s) !! i = Some e -> ce_status e <> NVME_CACHE_EMPTY ->
  returns (write_back i s) (fun '(ok, s') => ok = true /\ exists q v hw D', s' = with_io q (nv_mem s) v hw s /\
    nvme_inv s' F own L H (delete (ce_bid e) H) ls l D' A /\ saved (nv_mem s) D' e /\ nv_frame s s' L L).
Proof.
  intros Hi Hx He Hs. unfold write_back. mpure (get_entry_ret i s e He).
  destruct (ni_entry _ _ _ _ _ _ _ _ _ _ Hi i Hx) as (e2 & He2 & Hok). assert (e2 = e) as -> by congruence.
  destruct (decide (ce_status e = NVME_CACHE_DIRTY)) as [Hd|Hd].
  - pose proof (eo_dirty _ _ _ _ _ _ _ _ _ Hok Hd) as Hn. pose proof (eo_bid _ _ _ _ _ _ _ _ _ Hok Hn) as Hb.
    destruct (ni_map _ _ _ _ _ _ _ _ _ _ Hi _ _ Hb) as (Hr & _). assert (ce_bid e <? nblocks = true) as Hlt by (apply Z.ltb_lt; lia).
    eapply returns_mono; [apply (transfer_spec s F own L H H ls l D A i e (ce_bid e) NVME_OPC_IO_WRITE Hi Hx He Hs); auto|].
    intros [ok s'] (q & m & v & hw & D' & -> & Hq & Hv & Hqo & Hres). rewrite Hlt in Hres. destruct Hres as [-> [-> Hst]].
    assert (saved (nv_mem s) D' e) as Hsv.
    { intros _ o Ho. rewrite Hst, decide_True by lia. replace (ce_bid e * NVME_BLOCK_SIZE + o - ce_bid e * NVME_BLOCK_SIZE) with o by lia.
      pose proof (bo_bytes _ _ _ _ _ (eo_buf _ _ _ _ _ _ _ _ _ Hok Hs) o Ho). rewrite !u8_small by (rewrite ?u8_small; lia). done. }
    split; [done|]. exists q, v, hw, D'. split_and!; [done| |done|by apply with_io_frame].
    eapply inv_saved; try done.
    + unfold nv_mem in Hqo. by destruct (nv_heap s).
    + intros x Hxb. rewrite Hst. rewrite decide_False; [done|]. intros Hin. apply Hxb. replace x with (ce_bid e * NVME_BLOCK_SIZE + (x - ce_bid e * NVME_BLOCK_SIZE)) by lia.
      apply block_offset. lia.
  - apply returns_ret. split; [done|]. assert (ce_status e = NVME_CACHE_VALID) as Hva by (by destruct (ce_status e)).
    assert (saved (nv_mem s) D e) as Hsv. { intros Hn. apply (eo_clean _ _ _ _ _ _ _ _ _ Hok Hva). by apply (eo_bid _ _ _ _ _ _ _ _ _ Hok). }
    exists (nv_queue s), (ho_vmm (nv_host s)), (ho_hw (nv_host s)), D. split_and!; [by rewrite with_io_id| |done|apply nv_frame_refl].
    rewrite <- (with_io_id s) at 1. eapply inv_saved; try done; [apply Hi|].
    destruct (ni_queue _ _ _ _ _ _ _ _ _ _ Hi). by split.
Qed.

(** A victim that was not replaced counts again. *)
Lemma inv_unsaved s F own L H ls l D A i e :
  nvme_inv s F own L H (delete (ce_bid e) H) ls l D A -> index_ok i -> ct_cache (nv_ct s) !! i = Some e -> saved (nv_mem s) D e ->
  nvme_inv s F own L H H ls l D A.
Proof.
  intros Hi Hx He Hsv. pose proof Hi as [Ha Hv Hq Hg Hhm Hcl Hprp Hlru Hall Hent Hmap _ Hinj Hvw]. split; try done.
  - intros j Hj. destruct (Hent j Hj) as (ej & Hej & [E1 E2 E3 E4 E5]). exists ej. split; [done|]. split; try done. intros Hs Hb.
    destruct (decide (ce_bid ej = ce_bid e)) as [Heq|Hne]; [|apply E5; [done|by rewrite lookup_delete_ne]].
    assert (ce_bid ej <> NVME_IDX_INV) as Hn by (intros Hn; rewrite Hn, (hm_inv _ _ _ _ Hhm) in Hb; done).
    destruct (Hent i Hx) as (e2 & He2 & Hok). assert (e2 = e) as -> by congruence. rewrite Heq in Hb, Hn.
    pose proof (eo_bid _ _ _ _ _ _ _ _ _ Hok Hn) as Hbi. assert (j = i) as -> by congruence. assert (ej = e) as -> by congruence. by apply Hsv.
  - intros x Hxr. rewrite <- Hvw by done. unfold view. destruct (decide (x / NVME_BLOCK_SIZE = ce_bid e)) as [Hb|Hb].
    + rewrite Hb, lookup_delete_eq. destruct (range_block _ x Hg Hxr) as [_ Hni]. rewrite Hb in Hni.
      destruct (Hent i Hx) as (e2 & He2 & Hok). assert (e2 = e) as -> by congruence. rewrite (eo_bid _ _ _ _ _ _ _ _ _ Hok Hni), He.
      rewrite (Hsv Hni) by (by apply Z.mod_pos_bound). by rewrite <- Hb, <- disk_split.
    + by rewrite lookup_delete_ne by done.
Qed.

(** *** Reading into the victim *)

(** Writing the memory of an entry. *)
Lemma inv_memory s F own L H V ls l D A i e q m v hw A' :
  nvme_inv s F own L H V ls l D A -> index_ok i -> ct_cache (nv_ct s) !! i = Some e -> ce_status e <> NVME_CACHE_EMPTY ->
  vm_ok v (nv_heap s) -> q_prp_list_container q = prp_of s -> queue_ok q (mk_host (set_mem m (nv_heap s)) v hw) L D ->
  (forall x, ~ (ce_block e <= x < ce_block e + NVME_BLOCK_SIZE) -> rd m x = rd (nv_mem s) x) ->
  (forall o, 0 <= o < NVME_BLOCK_SIZE -> 0 <= rd m (ce_block e + o) < 256) ->
  (ce_status e = NVME_CACHE_VALID -> V !! ce_bid e = Some i -> on_disk m D (ce_block e) (ce_bid e)) ->
  (forall x, 0 <= x < nblocks * NVME_BLOCK_SIZE -> view (ct_cache (nv_ct s)) m D V x = A' x) ->
  nvme_inv (with_io q m v hw s) F own L H V ls l D A' /\ nv_frame s (with_io q m v hw s) L L.
Proof.
  intros Hi Hx He Hs Hv Hpq Hq Hm Hby Hod Hvw'. pose proof Hi as [Ha _ _ Hg Hhm Hcl Hprp Hlru Hall Hent Hmap Hsub Hinj Hvw].
  destruct (Hent i Hx) as (e2 & He2 & Hok). assert (e2 = e) as -> by congruence. pose proof (eo_buf _ _ _ _ _ _ _ _ _ Hok Hs) as [Hl Hc Hp Hby0].
  destruct (hkeep_write (eq (ce_block e)) (nv_heap s) F own L (ce_block e) _ m Ha Hl eq_refl Hm) as [Ha' Hk].
  split.
  - split; try done.
    + eapply vm_keep; [apply Hk|done].
    + by apply (geometry_ext (nv_ns s)).
    + unfold prp_of. cbn. by rewrite Hpq.
    + intros j Hj. unfold prp_of. cbn. rewrite Hpq. destruct (decide (j = i)) as [->|Hne].
      * exists e. split; [done|]. destruct Hok as [E1 E2 E3 E4 E5]. by split.
      * destruct (Hent j Hj) as (ej & Hej & Hokj). exists ej. split; [done|].
        eapply (entry_keep _ _ (set_mem m (nv_heap s)) _ _ L); [exact Hk| |by left| |done|exact Hokj]; [|apply Hokj].
        intros Hsj Heq. apply Hne. symmetry. by eapply Hinj.
  - split; [| | |done..].
    + destruct Hk as [Hd Hl' Hst]. split; [done| |done]. intros b k Hb Hn. apply Hl'; [done|]. intros <-. apply Hn. right. right. by exists i, e.
    + intros a _ Hn Hmi. apply Hn. by apply (with_io_mine q m v hw).
    + intros a k Hla Hn. split; [done|]. intros Hmi. apply Hn. by apply with_io_mine.
Qed.

(** Writing the memory of an entry that does not count. *)
Lemma inv_scratch s F own L H V ls l D A i e q m v hw :
  nvme_inv s F own L H V ls l D A -> index_ok i -> ct_cache (nv_ct s) !! i = Some e -> ce_status e <> NVME_CACHE_EMPTY -> avoids V i ->
  vm_ok v (nv_heap s) -> q_prp_list_container q = prp_of s -> queue_ok q (mk_host (set_mem m (nv_heap s)) v hw) L D ->
  (forall x, ~ (ce_block e <= x < ce_block e + NVME_BLOCK_SIZE) -> rd m x = rd (nv_mem s) x) ->
  (forall o, 0 <= o < NVME_BLOCK_SIZE -> 0 <= rd m (ce_block e + o) < 256) ->
  nvme_inv (with_io q m v hw s) F own L H V ls l D A /\ nv_frame s (with_io q m v hw s) L L.
Proof.
  intros Hi Hx He Hs Hav Hv Hpq Hq Hm Hby. eapply (inv_memory s F own L H V ls l D A i e); try done; [intros _ Hb; by destruct (Hav (ce_bid e))|].
  destruct (ni_entry _ _ _ _ _ _ _ _ _ _ Hi i Hx) as (e2 & He2 & Hok). assert (e2 = e) as -> by congruence.
  pose proof (bo_live _ _ _ _ _ (eo_buf _ _ _ _ _ _ _ _ _ Hok Hs)) as Hl.
  destruct (hkeep_write (eq (ce_block e)) (nv_heap s) F own L (ce_block e) _ m (ni_heap _ _ _ _ _ _ _ _ _ _ Hi) Hl eq_refl Hm) as [_ Hk].
  intros x Hxr. rewrite <- (ni_view _ _ _ _ _ _ _ _ _ _ Hi x Hxr).
  pose proof (view_avoids (eq (ce_block e)) s F own L H V ls l D A (set_mem m (nv_heap s)) L i e x Hi Hk) as Hva.
  rewrite insert_id in Hva by done. apply Hva; [|done]. intros j ej Hne Hj Hej Hsj Heq. apply Hne. symmetry. by eapply (ni_inj _ _ _ _ _ _ _ _ _ _ Hi).
Qed.

Lemma load_inv s F own L H V ls l D A i e b :
  nvme_inv s F own L H V ls l D A -> index_ok i -> ct_cache (nv_ct s) !! i = Some e -> ce_status e <> NVME_CACHE_EMPTY -> avoids V i ->
  0 <= b < 2 ^ 55 ->
  returns (transfer i b NVME_OPC_IO_READ s) (fun '(ok, s') => exists q m v hw, s' = with_io q m v hw s /\
    nvme_inv s' F own L H V ls l D A /\ nv_frame s s' L L /\
    if b <? nblocks then ok = true /\ on_disk m D (ce_block e) b else ok = false /\ m = nv_mem s).
Proof.
  intros Hi Hx He Hs Hav Hb. eapply returns_mono; [apply (transfer_spec s F own L H V ls l D A i e b NVME_OPC_IO_READ Hi Hx He Hs); auto|].
  intros [ok s'] (q & m & v & hw & D' & -> & Hq & Hv & Hqo & Hres). exists q, m, v, hw. split; [done|].
  assert (D' = D /\ (forall x, ~ (ce_block e <= x < ce_block e + NVME_BLOCK_SIZE) -> rd m x = rd (nv_mem s) x) /\
    (forall o, 0 <= o < NVME_BLOCK_SIZE -> 0 <= rd m (ce_block e + o) < 256) /\
    if b <? nblocks then ok = true /\ on_disk m D (ce_block e) b else ok = false /\ m = nv_mem s) as (-> & Hm & Hby & Hres').
  { destruct (b <? nblocks).
    - destruct Hres as [-> [-> Hl]]. split_and!; try done.
      + intros x Hxx. by rewrite Hl, decide_False.
      + intros o Ho. rewrite Hl, decide_True by lia. apply u8_range.
      + intros o Ho. rewrite Hl, decide_True by lia. do 2 f_equal. lia.
    - destruct Hres as (-> & -> & ->). split_and!; try done. destruct (ni_entry _ _ _ _ _ _ _ _ _ _ Hi i Hx) as (e2 & He2 & Hok).
      assert (e2 = e) as -> by congruence. apply (eo_buf _ _ _ _ _ _ _ _ _ Hok Hs). }
  destruct (inv_scratch s F own L H V ls l D A i e q m v hw) as [Hi' Hf']; done.
Qed.

(** *** Giving the entry to another block *)

(** [A] with the block [b] as it is in memory at [a]. *)
Definition block_at (m : mem) (a b : Z) (A : Z -> Z) (x : Z) : Z :=
  if decide (x / NVME_BLOCK_SIZE = b) then rd m (a + x mod NVME_BLOCK_SIZE) else A x.

(** The maps after the change, [b] being the new block of entry [i]. *)
Lemma reassign_change s F own L H ls l D A i e b st :
  nvme_inv s F own L H (delete (ce_bid e) H) ls l D A -> index_ok i -> ct_cache (nv_ct s) !! i = Some e -> ce_status e <> NVME_CACHE_EMPTY ->
  H !! b = None -> 0 <= b < nblocks -> st <> NVME_CACHE_EMPTY ->
  let H' := <[b := i]> (delete (ce_bid e) H) in
  entry_change s L i e (mk_entry (ce_lruref e) st b (ce_block e)) H' (delete (ce_bid e) H) H'.
Proof.
  intros Hi Hx He Hs Hb Hbr Hst H'. pose proof (ni_entry _ _ _ _ _ _ _ _ _ _ Hi) as Hent. pose proof (ni_map _ _ _ _ _ _ _ _ _ _ Hi) as Hmap.
  split; [done|done|by left|done| | |done].
  - intros j ej Hne Hj Hej. destruct (Hent j Hj) as (e2 & He2 & Hok). assert (e2 = ej) as -> by congruence. split.
    + intros Hn. pose proof (eo_bid _ _ _ _ _ _ _ _ _ Hok Hn) as Hbj. assert (ce_bid ej <> b) by congruence.
      assert (ce_bid ej <> ce_bid e) as Hbb.
      { intros Heq. destruct (Hent i Hx) as (e3 & He3 & Hok3). assert (e3 = e) as -> by congruence. rewrite Heq in Hbj, Hn.
        pose proof (eo_bid _ _ _ _ _ _ _ _ _ Hok3 Hn). congruence. }
      unfold H'. rewrite lookup_insert_ne, lookup_delete_ne by done. done.
    + unfold H'. destruct (decide (ce_bid ej = b)) as [->|]; [rewrite lookup_insert_eq; congruence|by rewrite lookup_insert_ne].
  - intros b' j. unfold H'. destruct (decide (b' = b)) as [->|Hnb].
    + rewrite lookup_insert_eq. intros [= <-]. do 2 (split; [done|]). eexists. rewrite lookup_insert_eq. done.
    + rewrite lookup_insert_ne by done. intros [Hne Hj]%lookup_delete_Some. destruct (Hmap _ _ Hj) as (? & ? & ej & Hej & Hbj).
      do 2 (split; [done|]). exists ej. rewrite lookup_insert_ne; [done|]. intros <-. congruence.
Qed.

Lemma reassign_inv s F own L H ls l D A i e b st n :
  nvme_inv s F own L H (delete (ce_bid e) H) ls l D A -> index_ok i -> ct_cache (nv_ct s) !! i = Some e -> ce_status e <> NVME_CACHE_EMPTY ->
  H !! b = None -> 0 <= b < nblocks -> spare F (S n) -> st <> NVME_CACHE_EMPTY ->
  (st = NVME_CACHE_VALID -> on_disk (nv_mem s) D (ce_block e) b) ->
  returns (reassign i b st s) (fun s' => exists F' own' L' ls' l', let H' := <[b := i]> (delete (ce_bid e) H) in
    nvme_inv s' F' own' L' H' H' ls' l' D (block_at (nv_mem s) (ce_block e) b A) /\ spare F' n /\ nv_frame s s' L L' /\
    ct_cache (nv_ct s') !! i = Some (mk_entry (ce_lruref e) st b (ce_block e)) /\
    forall o, 0 <= o < NVME_BLOCK_SIZE -> rd (nv_mem s') (ce_block e + o) = rd (nv_mem s) (ce_block e + o)).
Proof.
  intros Hi Hx He Hs Hb Hbr Hsp Hst Hod. set (H' := <[b := i]> (delete (ce_bid e) H)). set (e' := mk_entry (ce_lruref e) st b (ce_block e)).
  destruct (ni_entry _ _ _ _ _ _ _ _ _ _ Hi i Hx) as (e2 & He2 & Hok). assert (e2 = e) as -> by congruence.
  pose proof (eo_buf _ _ _ _ _ _ _ _ _ Hok Hs) as Hbuf. pose proof (ni_geo _ _ _ _ _ _ _ _ _ _ Hi) as Hg.
  assert (b <> NVME_IDX_INV) as Hbn.
  { destruct (range_block _ (b * NVME_BLOCK_SIZE) Hg) as [_ Hne]; [unfold NVME_BLOCK_SIZE; lia|]. by rewrite Z.div_mul in Hne. }
  assert (avoids (delete (ce_bid e) H) i) as Hav.
  { intros b' [Hne Hb']%lookup_delete_Some. destruct (ni_map _ _ _ _ _ _ _ _ _ _ Hi _ _ Hb') as (_ & _ & e3 & He3 & Hb3). congruence. }
  unfold reassign. mpure (get_entry_ret i s e He).
  mcall (hashmap_update_spec s F own L H ls (ce_bid e) b i n (ni_hash _ _ _ _ _ _ _ _ _ _ Hi)); [|rewrite lookup_delete_None; by right|done|apply Hi|apply Hi|done|].
  { destruct (decide (ce_bid e = NVME_IDX_INV)) as [->|Hn]; [by left|right]. rewrite (eo_bid _ _ _ _ _ _ _ _ _ Hok Hn). by eexists. }
  intros s1 (slots & cells & h & F' & own' & L' & ls' & -> & Hhm & Ha & Hk & Hsp' & Hcl & Hfr & Hout).
  mpure (upd_entry_ret i (set_ce_bid b) (with_map slots cells h s) e He).
  mret (upd_entry_ret i (set_ce_status st) _ _ (with_entry_lookup i _ _)). rewrite with_entry_entry. cbn [set_ce_status set_ce_bid ce_lruref ce_bid ce_block]. fold e'.
  destruct (buf_keep _ _ _ _ _ _ _ _ Hk (bo_cells _ _ _ _ _ Hbuf) Hbuf) as [Hl' Hm'].
  assert (forall j ej, j <> i -> index_ok j -> ct_cache (nv_ct s) !! j = Some ej -> ce_status ej <> NVME_CACHE_EMPTY -> ~ in_cells (nv_cells s) (ce_block ej)) as HP.
  { intros j ej _ Hj Hej Hsj. destruct (ni_entry _ _ _ _ _ _ _ _ _ _ Hi j Hj) as (e3 & He3 & Hok3). assert (e3 = ej) as -> by congruence.
    apply (eo_buf _ _ _ _ _ _ _ _ _ Hok3 Hsj). }
  destruct (inv_change (in_cells (nv_cells s)) s F own L H (delete (ce_bid e) H) ls l D A h F' own' L' slots cells H' H' ls' i e e'
    (block_at (nv_mem s) (ce_block e) b A)) as [Hi' Hf']; try done; [apply Hi|by left|by apply (reassign_change s F own L H ls l D A)| | | |].
  - split; cbn; try done; [| |].
    + intros _. destruct Hbuf as [Hl Hc Hp Hby]. split; [done| |done|intros o Ho; rewrite Hm' by done; by apply Hby].
      intros [?|?]%Hfr; [done|congruence].
    + intros _. apply lookup_insert_eq.
    + intros Hv _. eapply on_disk_ext; [exact Hm'|done|by apply Hod].
  - intros x Hxr. unfold block_at. destruct (decide (x / NVME_BLOCK_SIZE = b)) as [Hxb|Hxb].
    + unfold view. rewrite Hxb. unfold H'. rewrite !lookup_insert_eq. cbn [ce_block e']. apply Hm'. by apply Z.mod_pos_bound.
    + rewrite <- (ni_view _ _ _ _ _ _ _ _ _ _ Hi x Hxr). rewrite <- (view_avoids _ s F own L H _ ls l D A h L' i e' x Hi Hk HP Hav).
      unfold view, H'. by rewrite lookup_insert_ne by done.
  - intros a k Hla Hn. apply Hout; [done|]. intros Hc. apply Hn. by left.
  - eapply returns_mono; [apply (inform_inv _ F' own' L' H' H' ls' l D _ i Hi' Hx)|].
    intros s' (nodes & head & tail & l' & -> & Hi2 & Hf2). exists F', own', L', ls', l'. split_and!; [done|done| |apply lookup_insert_eq|exact Hm'].
    by eapply nv_frame_trans.
Qed.

(** ** Blocks *)

(** Entry [i] has block [b]. *)
Definition holding (s : nvms) (L : gmap Z Z) (A : Z -> Z) (n : nat) (b i : Z) (e : nvme_cache_entry) : Prop :=
  exists F own H ls l D, nvme_inv s F own L H H ls l D A /\ spare F n /\ H !! b = Some i /\ ct_cache (nv_ct s) !! i = Some e.

Lemma nv_state_less s L A n : nv_state s L A (S n) -> nv_state s L A n.
Proof. intros (F & own & H & ls & l & D & Hi & Hsp). exists F, own, H, ls, l, D. split; [done|by apply spare_less]. Qed.

Lemma holding_state s L A n b i e : holding s L A n b i e -> nv_state s L A n.
Proof. intros (F & own & H & ls & l & D & Hi & Hsp & _). by exists F, own, H, ls, l, D. Qed.

Lemma holding_facts s L A n b i e : holding s L A n b i e ->
  index_ok i /\ 0 <= b < nblocks /\ ce_bid e = b /\ ce_status e <> NVME_CACHE_EMPTY /\
  forall o, 0 <= o < NVME_BLOCK_SIZE -> rd (nv_mem s) (ce_block e + o) = A (b * NVME_BLOCK_SIZE + o).
Proof.
  intros (F & own & H & ls & l & D & Hi & _ & Hb & He). destruct (ni_map _ _ _ _ _ _ _ _ _ _ Hi _ _ Hb) as (Hr & Hx & e2 & He2 & Hbe).
  assert (e2 = e) as -> by congruence. destruct (ni_entry _ _ _ _ _ _ _ _ _ _ Hi i Hx) as (e3 & He3 & Hok). assert (e3 = e) as -> by congruence.
  do 3 (split; [done|]). split.
  - intros Hs. apply (eo_empty _ _ _ _ _ _ _ _ _ Hok) in Hs. rewrite <- Hbe, Hs, (hm_inv _ _ _ _ (ni_hash _ _ _ _ _ _ _ _ _ _ Hi)) in Hb. done.
  - intros o Ho. destruct (block_offset b o Ho) as [Hd Hm]. rewrite <- (ni_view _ _ _ _ _ _ _ _ _ _ Hi) by (unfold NVME_BLOCK_SIZE in *; nia).
    unfold view. rewrite Hd, Hm, Hb, He. done.
Qed.

(** [nvme_cache_hashmap_find] under the invariant. *)
Lemma find_inv s F own L H V ls l D A b :
  nvme_inv s F own L H V ls l D A -> b <> NVME_IDX_INV ->
  nvme_cache_hashmap_find b s = Ret (default NVME_IDX_INV (H !! b)) /\ forall i, H !! b = Some i -> i =? NVME_IDX_INV = false.
Proof.
  intros Hi Hb. split; [eapply hashmap_find_spec; [apply Hi|done]|]. intros i Hbi.
  destruct (ni_map _ _ _ _ _ _ _ _ _ _ Hi _ _ Hbi) as (_ & Hx & _). apply Z.eqb_neq. unfold index_ok, NVME_NCACHES, NVME_IDX_INV in *. lia.
Qed.

Lemma read_block_spec s L A n b :
  nv_state s L A (S (S n)) -> 0 <= b < 2 ^ 55 ->
  returns (nvme_read_block b s) (fun '(i, s') => exists L', nv_frame s s' L L' /\
    if b <? nblocks then i =? NVME_IDX_INV = false /\ exists e, holding s' L' A n b i e else i = NVME_IDX_INV /\ nv_state s' L' A n).
Proof.
  intros (F & own & H & ls & l & D & Hi & Hsp) Hb. assert (b <> NVME_IDX_INV) as Hbn by (unfold NVME_IDX_INV; lia).
  destruct (find_inv _ _ _ _ _ _ _ _ _ _ b Hi Hbn) as [Hfind Hfi]. unfold nvme_read_block. mpure Hfind.
  destruct (H !! b) as [i|] eqn:Hh.
  - change (default NVME_IDX_INV (Some i)) with i.
    destruct (ni_map _ _ _ _ _ _ _ _ _ _ Hi _ _ Hh) as (Hr & Hx & e & He & _). rewrite (Hfi i eq_refl). cbn [negb].
    mcall (inform_inv _ _ _ _ _ _ _ _ _ _ i Hi Hx). intros s' (nodes & head & tail & l' & -> & Hi' & Hf). apply returns_ret. exists L.
    split; [done|]. destruct (Z.ltb_spec b nblocks); [|lia]. split; [by apply Hfi|]. exists e, F, own, H, ls, l', D. split_and!; try done. by do 2 apply spare_less.
  - change (default NVME_IDX_INV None) with NVME_IDX_INV. rewrite Z.eqb_refl. cbn [negb]. mcall (evict_inv _ _ _ _ _ _ _ _ _ _ Hi Hsp).
    intros [i s1] (Hx & F1 & own1 & L1 & Hi1 & Hsp1 & Hf1 & e & He & Hs).
    mcall (write_back_inv _ _ _ _ _ _ _ _ _ i e Hi1 Hx He Hs). intros [ok s2] (-> & q2 & v2 & hw2 & D2 & -> & Hi2 & Hsv & Hf2). cbn [negb].
    assert (avoids (delete (ce_bid e) H) i) as Hav.
    { intros b' [Hne Hb']%lookup_delete_Some. destruct (ni_map _ _ _ _ _ _ _ _ _ _ Hi1 _ _ Hb') as (_ & _ & e3 & He3 & Hb3). congruence. }
    mcall (load_inv _ _ _ _ _ _ _ _ _ _ i e b Hi2 Hx He Hs Hav Hb). intros [ok s3] (q3 & m3 & v3 & hw3 & -> & Hi3 & Hf3 & Hres).
    assert (nv_frame s (with_io q3 m3 v3 hw3 (with_io q2 (nv_mem s1) v2 hw2 s1)) L L1) as Hf by (eapply nv_frame_trans; [exact Hf1|]; by eapply nv_frame_trans).
    destruct (b <? nblocks) eqn:Hlt.
    + destruct Hres as [-> Hod]. cbn [negb]. apply Z.ltb_lt in Hlt.
      mcall (reassign_inv _ _ _ _ _ _ _ _ _ i e b NVME_CACHE_VALID n Hi3 Hx He Hs Hh ltac:(lia) Hsp1 ltac:(done) ltac:(intros _; exact Hod)).
      intros s4 (F4 & own4 & L4 & ls4 & l4 & Hi4 & Hsp4 & Hf4 & He4 & _). apply returns_ret. exists L4. split; [by eapply nv_frame_trans|].
      split; [apply Z.eqb_neq; unfold index_ok, NVME_NCACHES, NVME_IDX_INV in *; lia|].
      eexists _, F4, own4, _, ls4, l4, D2. split_and!; [|done|apply lookup_insert_eq|done].
      eapply inv_ext; [exact Hi4|]. intros x Hx'. unfold block_at. destruct (decide (x / NVME_BLOCK_SIZE = b)) as [Hxb|]; [|done].
      assert (delete (ce_bid e) H !! b = None) as Hn by (rewrite lookup_delete_None; by right).
      rewrite <- (ni_view _ _ _ _ _ _ _ _ _ _ Hi3 x Hx'). unfold view. rewrite Hxb, Hn.
      change (nv_mem (with_io q3 m3 v3 hw3 _)) with m3. rewrite Hod by (by apply Z.mod_pos_bound). by rewrite <- Hxb, <- disk_split.
    + destruct Hres as [-> ->]. cbn [negb]. apply returns_ret. exists L1. split; [done|]. split; [done|].
      exists F1, own1, H, ls, l, D2. split; [|by apply spare_less]. by eapply inv_unsaved.
Qed.

(** An entry may be marked dirty at any time. *)
Lemma dirty_inv s F own L H ls l D A b i e :
  nvme_inv s F own L H H ls l D A -> H !! b = Some i -> ct_cache (nv_ct s) !! i = Some e -> ce_status e <> NVME_CACHE_EMPTY ->
  let s' := with_entry i (set_ce_status NVME_CACHE_DIRTY e) s in nvme_inv s' F own L H H ls l D A /\ nv_frame s s' L L.
Proof.
  intros Hi Hb He Hs s'. destruct (ni_map _ _ _ _ _ _ _ _ _ _ Hi _ _ Hb) as (Hr & Hx & e2 & He2 & Hbe). assert (e2 = e) as -> by congruence.
  destruct (ni_entry _ _ _ _ _ _ _ _ _ _ Hi i Hx) as (e3 & He3 & Hok). assert (e3 = e) as -> by congruence.
  assert (b <> NVME_IDX_INV) as Hbn by (intros ->; rewrite (hm_inv _ _ _ _ (ni_hash _ _ _ _ _ _ _ _ _ _ Hi)) in Hb; done).
  assert (s' = with_entry i (set_ce_status NVME_CACHE_DIRTY e) (with_map (ct_hashmap (nv_ct s)) (nv_cells s) (nv_heap s) s)) as -> by (by rewrite with_map_id).
  apply (inv_change (fun _ => False) s F own L H H ls l D A (nv_heap s) F own L _ _ H H ls i e); try done; try apply Hi; try apply hkeep_refl; try tauto.
  - split; try done; [by left| |].
    + intros j ej Hne Hj Hej. destruct (ni_entry _ _ _ _ _ _ _ _ _ _ Hi j Hj) as (e4 & He4 & Hok4). assert (e4 = ej) as -> by congruence. split; [apply Hok4|done].
    + intros b' j Hbj. destruct (ni_map _ _ _ _ _ _ _ _ _ _ Hi _ _ Hbj) as (? & ? & ej & Hej & Hb'). do 2 (split; [done|]).
      destruct (decide (j = i)) as [->|]; [|exists ej; by rewrite lookup_insert_ne]. eexists. rewrite lookup_insert_eq. split; [done|]. cbn. congruence.
  - destruct Hok as [E1 E2 E3 E4 E5]. split; cbn; try done; [by intros _; apply E2|]. intros _. by rewrite Hbe.
  - intros x Hxr. rewrite <- (ni_view _ _ _ _ _ _ _ _ _ _ Hi x Hxr). unfold view. destruct (H !! (x / NVME_BLOCK_SIZE)) as [j|]; [|done].
    destruct (decide (j = i)) as [->|]; [by rewrite lookup_insert_eq, He|by rewrite lookup_insert_ne].
  - intros a k Hla Hn. split; [done|]. intros Hc. apply Hn. by left.
Qed.

Lemma prep_block_spec s L A n b :
  nv_state s L A (S (S n)) -> 0 <= b < nblocks -> b < 2 ^ 55 ->
  returns (nvme_prep_write_full_block b s) (fun '(i, s') => exists L' A' e, nv_frame s s' L L' /\ i =? NVME_IDX_INV = false /\
    holding s' L' A' n b i e /\ ce_status e = NVME_CACHE_DIRTY /\ forall x, x / NVME_BLOCK_SIZE <> b -> A' x = A x).
Proof.
  intros (F & own & H & ls & l & D & Hi & Hsp) Hb Hb'. assert (b <> NVME_IDX_INV) as Hbn by (unfold NVME_IDX_INV; lia).
  destruct (find_inv _ _ _ _ _ _ _ _ _ _ b Hi Hbn) as [Hfind Hfi]. unfold nvme_prep_write_full_block. mpure Hfind.
  destruct (H !! b) as [i|] eqn:Hh.
  - change (default NVME_IDX_INV (Some i)) with i. destruct (ni_map _ _ _ _ _ _ _ _ _ _ Hi _ _ Hh) as (Hr & Hx & e & He & Hbe). rewrite (Hfi i eq_refl). cbn [negb].
    mpure (get_entry_ret i s e He).
    assert (holding s L A n b i e) as Hho by (exists F, own, H, ls, l, D; split_and!; try done; by do 2 apply spare_less).
    destruct (holding_facts _ _ _ _ _ _ _ Hho) as (_ & _ & _ & Hs & _). set (e' := set_ce_status NVME_CACHE_DIRTY e).
    apply returns_bind, returns_mono with (P := fun s1 => ct_cache (nv_ct s1) !! i = Some e' /\ nvme_inv s1 F own L H H ls l D A /\ nv_frame s s1 L L).
    { destruct (decide (ce_status e = NVME_CACHE_VALID)) as [Hv|Hv].
      - rewrite (upd_entry_ret i _ s e He). apply returns_ret. split; [apply with_entry_lookup|]. by eapply dirty_inv.
      - apply returns_ret. split_and!; [|done|apply nv_frame_refl]. rewrite He. f_equal. unfold e'. destruct e as [? [] ? ?]; done. }
    intros s1 (He1 & Hi1 & Hf1). mcall (inform_inv _ _ _ _ _ _ _ _ _ _ i Hi1 Hx). intros s' (nodes & head & tail & l' & -> & Hi' & Hf). apply returns_ret.
    exists L, A, e'. split_and!; [by eapply nv_frame_trans|by apply Hfi| |done|done]. exists F, own, H, ls, l', D. split_and!; try done. by do 2 apply spare_less.
  - change (default NVME_IDX_INV None) with NVME_IDX_INV. rewrite Z.eqb_refl. cbn [negb]. mcall (evict_inv _ _ _ _ _ _ _ _ _ _ Hi Hsp).
    intros [i s1] (Hx & F1 & own1 & L1 & Hi1 & Hsp1 & Hf1 & e & He & Hs).
    mcall (write_back_inv _ _ _ _ _ _ _ _ _ i e Hi1 Hx He Hs). intros [ok s2] (-> & q2 & v2 & hw2 & D2 & -> & Hi2 & Hsv & Hf2). cbn [negb].
    mcall (reassign_inv _ _ _ _ _ _ _ _ _ i e b NVME_CACHE_DIRTY n Hi2 Hx He Hs Hh Hb Hsp1 ltac:(done) ltac:(done)).
    intros s4 (F4 & own4 & L4 & ls4 & l4 & Hi4 & Hsp4 & Hf4 & He4 & _). apply returns_ret. exists L4. eexists _, _. split_and!.
    + eapply nv_frame_trans; [exact Hf1|]. by eapply nv_frame_trans.
    + apply Z.eqb_neq. unfold index_ok, NVME_NCACHES, NVME_IDX_INV in *. lia.
    + eexists F4, own4, _, ls4, l4, D2. split_and!; [exact Hi4|done|apply lookup_insert_eq|exact He4].
    + done.
    + intros x Hxb. unfold block_at. by rewrite decide_False.
Qed.

End Proof.
End NvmeProof.
