(* ===== verification/NvmeStart.v ===== *)
(** * The cache starts empty

    [nvme_cache_container_init] establishes the invariant of NvmeProof: a
    cache without any block stands for what is on the disk. *)

From stdpp Require Import gmap.
From S2P Require Import Prelude Macros Locking Dll Mem FrameHdr FrameAlloc PageIface Slab SlabRep SlabProof HeapSpec HeapFrame Mmu NvmeHdr Nvme NvmeCache NvmeIo NvmeProof.

Module NvmeStart.
Import Macros Locking Mem FrameHdr FrameAlloc PageIface Slab SlabRep SlabProof HeapSpec HeapFrame Mmu NvmeHdr Nvme NvmeCache NvmeIo NvmeProof.

Section Start.
Context {PA : PageAllocator} {HW : NvmeController} {Obeys : NvmeObeys}.

Definition empty_entry (e : nvme_cache_entry) : Prop := exists r, e = mk_entry r NVME_CACHE_EMPTY NVME_IDX_INV 0.
Definition empty_slot : nvme_cache_hashmap_entry := mk_hentry NVME_IDX_INV NVME_IDX_INV NULL.

(** Nothing is cached. *)
Record fresh (s : nvms) (l : list Z) : Prop := {
  fr_cache : forall i, index_ok i -> exists e, ct_cache (nv_ct s) !! i = Some e /\ empty_entry e;
  fr_slots : forall i, index_ok i -> ct_hashmap (nv_ct s) !! i = Some empty_slot;
  fr_cells : nv_cells s = ∅;
  fr_lru : lru_rep (ct_cache (nv_ct s)) (nv_nodes s) (ct_head (nv_ct s)) (ct_tail (nv_ct s)) l;
  fr_all : NoDup l /\ forall i, i ∈ l <-> index_ok i
}.

Lemma fresh_inv s F own L l D :
  fresh s l -> heap_abs (nv_heap s) F own L -> vm_ok (ho_vmm (nv_host s)) (nv_heap s) -> queue_ok (nv_queue s) (nv_host s) L D -> geometry (nv_ns s) ->
  nvme_inv s F own L ∅ ∅ (fun _ => []) l D (fun x => u8 (rd D x)).
Proof.
  intros [Hc Hs Hce Hl Hall] Ha Hv Hq Hg. assert (forall a, ~ in_cells (nv_cells s) a) as Hnc by (intros a [x Hx]; by rewrite Hce in Hx).
  split; try done.
  - split; try done.
    + intros i Hi. exists empty_slot. split; [by apply Hs|]. split; [done|]. split; [constructor|]. intros b x. cbn. set_solver.
    + intros i a Ha'. by apply not_elem_of_nil in Ha'.
    + intros i. constructor.
    + intros i j a Ha'. by apply not_elem_of_nil in Ha'.
  - intros a Hin. by destruct (Hnc a).
  - intros i Hi. destruct (Hc i Hi) as (e & He & r & ->). exists (mk_entry r NVME_CACHE_EMPTY NVME_IDX_INV 0). split; [done|]. by split.
  - intros i j ei ej Hi Hj Hio _ Hsi. destruct (Hc i Hio) as (e & He & r & ->). rewrite Hi in He. by injection He as ->.
Qed.

(** ** The loops *)

Definition with_cache (c : gmap Z nvme_cache_entry) (s : nvms) : nvms := set_ct (set_ct_cache c (nv_ct s)) s.
Definition with_slots (c : gmap Z nvme_cache_hashmap_entry) (s : nvms) : nvms := set_ct (set_ct_hashmap c (nv_ct s)) s.

Lemma clear_cache_spec n i s :
  (forall j, i <= j < i + Z.of_nat n -> is_Some (ct_cache (nv_ct s) !! j)) ->
  exists c, clear_cache n i s = Ret (with_cache c s) /\
    (forall j, i <= j < i + Z.of_nat n -> exists e, c !! j = Some e /\ empty_entry e) /\
    forall j, ~ (i <= j < i + Z.of_nat n) -> c !! j = ct_cache (nv_ct s) !! j.
Proof.
  revert i s. induction n as [|n IH]; intros i s Hin; cbn [clear_cache].
  - exists (ct_cache (nv_ct s)). split_and!; [by destruct s as [? [? ? [] ? ? ?] ? ? ?]| |done]. intros j Hj. lia.
  - destruct (Hin i ltac:(lia)) as [e He]. rewrite (upd_entry_ret i _ s e He). cbn [mbind outcome_bind].
    destruct (IH (i + 1) (with_entry i (mk_entry (ce_lruref e) NVME_CACHE_EMPTY NVME_IDX_INV 0) s)) as (c & -> & Hc & Hf).
    { intros j Hj. cbn. rewrite lookup_insert_ne by lia. apply Hin. lia. }
    exists c. split_and!; [by destruct s as [? [? ? [] ? ? ?] ? ? ?]| |].
    + intros j Hj. destruct (decide (j = i)) as [->|]; [|apply Hc; lia]. rewrite Hf by lia. cbn. rewrite lookup_insert_eq.
      eexists. split; [done|]. by eexists.
    + intros j Hj. rewrite Hf by lia. cbn. by rewrite lookup_insert_ne by lia.
Qed.

Lemma clear_hashmap_spec n i s :
  (forall j, i <= j < i + Z.of_nat n -> is_Some (ct_hashmap (nv_ct s) !! j)) ->
  exists c, clear_hashmap n i s = Ret (with_slots c s) /\ (forall j, i <= j < i + Z.of_nat n -> c !! j = Some empty_slot) /\
    forall j, ~ (i <= j < i + Z.of_nat n) -> c !! j = ct_hashmap (nv_ct s) !! j.
Proof.
  revert i s. induction n as [|n IH]; intros i s Hin; cbn [clear_hashmap].
  - exists (ct_hashmap (nv_ct s)). split_and!; [by destruct s as [? [? ? [] ? ? ?] ? ? ?]| |done]. intros j Hj. lia.
  - destruct (Hin i ltac:(lia)) as [e He]. unfold upd_slot, set_elem, elem. rewrite He. cbn [of_option mbind outcome_bind].
    destruct (IH (i + 1) (with_slots (<[i := empty_slot]> (ct_hashmap (nv_ct s))) s)) as (c & Heq & Hc & Hf).
    { intros j Hj. cbn. rewrite lookup_insert_ne by lia. apply Hin. lia. }
    exists c. fold empty_slot. unfold with_slots at 1 in Heq. rewrite Heq. split_and!; [by destruct s as [? [? ? [] ? ? ?] ? ? ?]| |].
    + intros j Hj. destruct (decide (j = i)) as [->|]; [|apply Hc; lia]. rewrite Hf by lia. cbn. by rewrite lookup_insert_eq.
    + intros j Hj. rewrite Hf by lia. cbn. by rewrite lookup_insert_ne by lia.
Qed.

(** The nodes made so far: those of the entries below [i]. *)
Record made (s : nvms) (i : Z) (l : list Z) (L : gmap Z Z) : Prop := {
  ma_lru : lru_rep (ct_cache (nv_ct s)) (nv_nodes s) (ct_head (nv_ct s)) (ct_tail (nv_ct s)) l;
  ma_all : NoDup l /\ forall j, j ∈ l <-> 0 <= j < i;
  ma_live : forall a, a ∈ dom (nv_nodes s) -> is_Some (L !! a);
  ma_cache : forall j, index_ok j -> exists e, ct_cache (nv_ct s) !! j = Some e /\ empty_entry e
}.

(** The state with another cache, list and heap. *)
Definition with_node (h : heap) (c : gmap Z nvme_cache_entry) (nodes : gmap Z nvme_cache_dll_node) (head tail : word) (s : nvms) : nvms :=
  with_list nodes head tail (with_cache c (set_heap h s)).

Lemma with_node_node h c nd hd tl h' c' nd' hd' tl' s :
  with_node h' c' nd' hd' tl' (with_node h c nd hd tl s) = with_node h' c' nd' hd' tl' s.
Proof. by destruct s as [[] [? ? [] ? ? ?] ? ? ?]. Qed.

Lemma upd_node_ret a f s n : nv_nodes s !! a = Some n -> upd_node (Ref a) f s = Ret (set_nodes (<[a := f n]> (nv_nodes s)) s).
Proof. intros Hn. unfold upd_node, store. by rewrite Hn. Qed.

(** The new node in front of the others. *)
Lemma link_node s a i old la :
  nv_nodes s !! a = Some (mk_node i NULL NULL) -> Dll.dll (nv_nodes s) old la -> a ∉ la ->
  returns (s ← upd_node (Ref a) (fun _ => mk_node i old NULL) s; if nonnull old then upd_node old (set_nd_prev (Ref a)) s else Ret s)
    (fun s' => exists nodes, s' = set_nodes nodes s /\ Dll.dll nodes (Ref a) (a :: la) /\ Dll.relinked (nv_nodes s) nodes).
Proof.
  intros Ha Hd Hn. pose proof (Dll.list_link_spec _ _ _ a Hd Hn ltac:(by eexists)) as Hl. pose proof (Dll.dll_nonnull _ _ _ Hd) as Hnn.
  mret (upd_node_ret a (fun _ => mk_node i old NULL) s _ Ha). destruct la as [|b la].
  - rewrite Hnn. apply returns_ret. eexists. split; [done|]. unfold Dll.list_link, Dll.upd in Hl. rewrite Ha in Hl. cbn [of_option mbind outcome_bind] in Hl.
    rewrite lookup_insert_eq in Hl. cbn [of_option mbind outcome_bind] in Hl. rewrite Hnn, insert_insert_eq in Hl. by destruct Hl as (_ & Hl & Hr & _).
  - pose proof Hd as [(-> & y & Hy & _) _]. assert (a <> b) as Hne by (intros ->; apply Hn; left).
    rewrite (relink_map a b _ _ y _ Ha eq_refl Hy Hne) in Hl. cbn [nonnull].
    rewrite (upd_node_ret b _ _ y) by (cbn; by rewrite lookup_insert_ne). apply returns_ret. eexists. split; [by destruct s|].
    by destruct Hl as (_ & Hl & Hr & _).
Qed.

Definition new_entry (a : Z) : nvme_cache_entry := mk_entry (Ref a) NVME_CACHE_EMPTY NVME_IDX_INV 0.
Definition new_tail (i a : Z) (s : nvms) : word := if i =? 0 then Ref a else ct_tail (nv_ct s).

Lemma made_front s i l L a k h la nodes :
  made s i l L -> index_ok i -> L !! a = None -> Dll.dll (nv_nodes s) (ct_head (nv_ct s)) la -> ct_tail (nv_ct s) = Dll.last_ref NULL la ->
  Forall2 (paired (ct_cache (nv_ct s)) (nv_nodes s)) l la ->
  Dll.dll nodes (Ref a) (a :: la) -> Dll.relinked (<[a := mk_node i NULL NULL]> (nv_nodes s)) nodes ->
  made (with_node h (<[i := new_entry a]> (ct_cache (nv_ct s))) nodes (Ref a) (new_tail i a s) s) (i + 1) (i :: l) (<[a := k]> L).
Proof.
  intros [_ [Hnd Hall] Hlv Hc] Hi HLa Hd Ht Hf Hd' Hr. unfold index_ok in Hi.
  assert (nv_nodes s !! a = None) as Hna. { apply not_elem_of_dom. intros [? ?]%Hlv. congruence. }
  assert (dom nodes = {[a]} ∪ dom (nv_nodes s)) as Hdom by (rewrite (Dll.relinked_dom _ _ Hr); set_solver).
  split.
  - exists (a :: la). split_and!; [done| |].
    + cbn. unfold new_tail. rewrite Dll.last_ref_cons. destruct (Z.eqb_spec i 0) as [->|Hne].
      { destruct l as [|j l]; [apply Forall2_nil_inv_l in Hf as ->; done|]. exfalso. specialize (Hall j). rewrite elem_of_cons in Hall. lia. }
      rewrite Ht. destruct la as [|b la _] using rev_ind; [|unfold Dll.last_ref; by rewrite last_snoc].
      apply Forall2_nil_inv_r in Hf as ->. exfalso. assert (0 ∈ []) as Hin by (apply Hall; lia). by apply not_elem_of_nil in Hin.
    + eapply Forall2_impl; [|intros j b Hp; by eapply paired_relinked]. constructor.
      { split; [exists (new_entry a); split; [apply lookup_insert_eq|done]|]. eexists. split; [apply lookup_insert_eq|done]. }
      rewrite Forall2_same_length_lookup in Hf |- *. destruct Hf as [Hlen Hf]. split; [done|]. intros q j b Hq Hb.
      destruct (Hf q j b Hq Hb) as [(ej & Hej & Hrj) (nj & Hnj & Hij)]. apply list_elem_of_lookup_2, Hall in Hq. split.
      { exists ej. cbn. by rewrite lookup_insert_ne by lia. }
      exists nj. by rewrite lookup_insert_ne by congruence.
  - split; [constructor; [rewrite Hall; lia|done]|]. intros j. rewrite elem_of_cons, Hall. lia.
  - intros b. cbn. rewrite Hdom. intros [->%elem_of_singleton|Hb]%elem_of_union; [rewrite lookup_insert_eq; by eexists|].
    destruct (Hlv b Hb). rewrite lookup_insert_ne by congruence. by eexists.
  - intros j Hj. cbn. destruct (decide (j = i)) as [->|]; [rewrite lookup_insert_eq; eexists; split; [done|by eexists]|].
    rewrite lookup_insert_ne by done. by apply Hc.
Qed.

Lemma node_step s i l F own L n (K : nvms -> outcome nvms) Q :
  made s i l L -> heap_abs (nv_heap s) F own L -> index_ok i -> spare F (S n) ->
  (forall h c nodes head tail F' own' L', let s' := with_node h c nodes head tail s in
     made s' (i + 1) (i :: l) L' -> heap_abs h F' own' L' -> spare F' n -> later (nv_heap s) h L L' -> returns (K s') Q) ->
  returns ('(a, s) ← calloc SIZEOF_DLL_NODE s;
           s ← upd_entry i (set_ce_lruref (Ref a)) (set_nodes (<[a := mk_node i NULL NULL]> (nv_nodes s)) s);
           let s := if i =? 0 then set_ct (set_ct_tail (Ref a) (nv_ct s)) s else s in
           let old := ct_head (nv_ct s) in
           let s := set_ct (set_ct_head (Ref a) (nv_ct s)) s in
           s ← upd_node (Ref a) (fun _ => mk_node i old NULL) s;
           s ← (if nonnull old then upd_node old (set_nd_prev (Ref a)) s else Ret s);
           K s) Q.
Proof.
  intros Hm Ha Hi Hsp HK. pose proof Hm as [(la & Hd & Ht & Hf) _ Hlv Hc]. unfold calloc.
  mstep. mcall (kcalloc_later _ F own L n SIZEOF_DLL_NODE Ha); [done|done|]. intros [a h] (F' & own' & L' & -> & Ha' & HLa & _ & Hla & Hsp' & _).
  apply returns_ret. destruct (Hc i Hi) as (e & He & r & ->).
  mret (upd_entry_ret i (set_ce_lruref (Ref a)) (set_nodes (<[a := mk_node i NULL NULL]> (nv_nodes s)) (set_heap h s)) _ He).
  cbn [set_ce_lruref ce_status ce_bid ce_block]. fold (new_entry a).
  set (c := <[i := new_entry a]> (ct_cache (nv_ct s))). set (nodes := <[a := mk_node i NULL NULL]> (nv_nodes s)). set (s1 := if i =? 0 then _ else _).
  assert (ct_head (nv_ct s1) = ct_head (nv_ct s)) as -> by (unfold s1; by destruct (i =? 0)).
  assert (set_ct (set_ct_head (Ref a) (nv_ct s1)) s1 = with_node h c nodes (Ref a) (new_tail i a s) s) as ->.
  { unfold s1, new_tail. destruct (i =? 0); by destruct s as [[] [? ? [] ? ? ?] ? ? ?]. }
  assert (a ∉ la) as Hnla. { intros Hin. apply (Dll.dll_elem _ _ _ _ Hd), elem_of_dom, Hlv in Hin as [? ?]. congruence. }
  apply returns_assoc, returns_bind. eapply returns_mono; [apply (link_node (with_node h c nodes (Ref a) (new_tail i a s) s) a i _ la)|].
  - apply lookup_insert_eq.
  - eapply Dll.dll_frame; [exact Hd|]. intros b Hb. cbn. unfold nodes. rewrite lookup_insert_ne by congruence. done.
  - done.
  - intros s' (nodes' & -> & Hd' & Hr).
    replace (set_nodes nodes' _) with (with_node h c nodes' (Ref a) (new_tail i a s) s) by (by destruct s as [[] [? ? [] ? ? ?] ? ? ?]).
    eapply HK; [|exact Ha'|exact Hsp'|exact Hla]. by eapply made_front.
Qed.

Lemma make_nodes_spec k i s l F own L n :
  made s i l L -> heap_abs (nv_heap s) F own L -> 0 <= i -> i + Z.of_nat k = NVME_NCACHES -> spare F (k + n) ->
  returns (make_nodes k i s) (fun s' => exists h c nodes head tail l' F' own' L', s' = with_node h c nodes head tail s /\
    made s' NVME_NCACHES l' L' /\ heap_abs h F' own' L' /\ spare F' n /\ later (nv_heap s) h L L').
Proof.
  revert i s l F own L. induction k as [|k IH]; intros i s l F own L Hm Ha Hi Hk Hsp; cbn [make_nodes].
  - apply returns_ret. exists (nv_heap s), (ct_cache (nv_ct s)), (nv_nodes s), (ct_head (nv_ct s)), (ct_tail (nv_ct s)), l, F, own, L.
    replace NVME_NCACHES with i by lia. split; [by destruct s as [[] [? ? [] ? ? ?] ? ? ?]|]. do 3 (split; [done|]). apply later_refl.
  - apply (node_step s i l F own L (k + n)); [done|done|unfold index_ok; lia|done|]. intros h c nodes head tail F' own' L' s' Hm' Ha' Hsp' Hla.
    eapply returns_mono; [apply (IH (i + 1) s' (i :: l) F' own' L' Hm' Ha'); [lia|lia|done]|].
    intros s2 (h2 & c2 & nodes2 & head2 & tail2 & l2 & F2 & own2 & L2 & -> & Hm2 & Ha2 & Hsp2 & Hla2).
    exists h2, c2, nodes2, head2, tail2, l2, F2, own2, L2. split; [apply with_node_node|]. unfold s' in Hm2. rewrite with_node_node in Hm2. do 3 (split; [done|]).
    by eapply later_trans.
Qed.

(** *** [nvme_cache_container_init] *)
Lemma container_init_spec s F own L D n :
  heap_abs (nv_heap s) F own L -> vm_ok (ho_vmm (nv_host s)) (nv_heap s) -> queue_ok (nv_queue s) (nv_host s) L D -> geometry (nv_ns s) ->
  nv_cells s = ∅ -> nv_nodes s = ∅ ->
  (forall i, index_ok i -> is_Some (ct_cache (nv_ct s) !! i)) -> (forall i, index_ok i -> is_Some (ct_hashmap (nv_ct s) !! i)) ->
  spare F (Z.to_nat NVME_NCACHES + n) ->
  returns (nvme_cache_container_init s) (fun s' => exists L', nv_state s' L' (fun x => u8 (rd D x)) n /\ later (nv_heap s) (nv_heap s') L L').
Proof.
  intros Ha Hv Hq Hg Hce Hno Hc Hs Hsp. unfold nvme_cache_container_init.
  destruct (clear_cache_spec (Z.to_nat NVME_NCACHES) 0 s) as (c & -> & Hc1 & _); [intros j Hj; apply Hc; done|]. cbn [mbind outcome_bind].
  destruct (clear_hashmap_spec (Z.to_nat NVME_HASHMAP_SIZE) 0 (with_cache c s)) as (sl & -> & Hs1 & _); [intros j Hj; apply Hs; done|]. cbn [mbind outcome_bind].
  set (s0 := set_ct _ _). assert (made s0 0 [] L) as Hm.
  { split; [|split; [constructor|]| |].
    - exists []. split_and!; [|done|constructor]. split; [done|constructor].
    - intros j. rewrite elem_of_nil. lia.
    - intros a. change (nv_nodes s0) with (nv_nodes s). rewrite Hno. set_solver.
    - intros j Hj. apply Hc1. unfold index_ok, NVME_NCACHES in *. lia. }
  eapply returns_mono; [apply (make_nodes_spec _ 0 s0 [] F own L n Hm Ha); [done|done|done]|].
  intros s' (h & c' & nodes & head & tail & l & F' & own' & L' & -> & [Hl Hall _ Hca] & Ha' & Hsp' & Hla). exists L'. split; [|exact Hla].
  exists F', own', ∅, (fun _ => []), l, D. split; [|done]. pose proof (hkeep_later (fun _ => False) _ _ _ _ Hla) as Hk.
  apply fresh_inv; [split; try done| done| | |].
  - eapply vm_keep; [apply Hk|done].
  - apply (queue_keep (fun _ => False) (nv_queue s) (nv_host s) h L L' D Hk); [tauto|exact Hq].
  - by apply (geometry_ext (nv_ns s)).
Qed.

End Start.
End NvmeStart.
