(* ===== verification/NvmeDev.v ===== *)
(** * Reading and writing the device

    [nvme_read] and [nvme_write] in terms of the bytes [A] the disk holds
    through the cache.  [got] and [put] are the state after [c] bytes were
    moved: the buffer of the caller, or the disk, has them, and nothing else
    outside the driver changed. *)

From stdpp Require Import gmap.
From S2P Require Import Prelude Macros Locking Mem FrameHdr FrameAlloc PageIface Slab SlabRep SlabProof HeapSpec HeapFrame Device DeviceSpec Mmu NvmeHdr Nvme NvmeCache NvmeIo NvmeProof.

Module NvmeDev.
Import Macros Locking Mem FrameHdr FrameAlloc PageIface Slab SlabRep SlabProof HeapSpec HeapFrame DeviceSpec Mmu NvmeHdr Nvme NvmeCache NvmeIo NvmeProof.

Section Dev.
Context {PA : PageAllocator} {HW : NvmeController} {Obeys : NvmeObeys}.

(** ** Memory of others *)

(** [b] is a block of [k] bytes the driver does not change, and one of
    somebody else. *)
Definition spared (s : nvms) (L : gmap Z Z) (b k : Z) : Prop := L !! b = Some k /\ ~ mine s b.
Definition foreign (s : nvms) (L : gmap Z Z) (b k : Z) : Prop := spared s L b k /\ b ∉ dom (nv_nodes s).

(** Of the memory of others only blocks with [P] may have changed; there is
    no more of it than before. *)
Record buf_frame (P : Z -> Prop) (s s' : nvms) (L L' : gmap Z Z) : Prop := {
  bf_done : hdone (nv_heap s) (nv_heap s');
  bf_spared : forall b k, spared s L b k -> spared s' L' b k;
  bf_back : forall b k, spared s' L' b k -> spared s L b k;
  bf_bytes : forall b k, spared s L b k -> ~ P b -> forall x, b <= x < b + k -> rd (nv_mem s') x = rd (nv_mem s) x;
  bf_static : statics (nv_heap s) (nv_heap s');
  bf_nodes : dom (nv_nodes s') = dom (nv_nodes s)
}.

Lemma bf_foreign P s s' L L' : buf_frame P s s' L L' -> forall b k, foreign s L b k -> foreign s' L' b k.
Proof. intros Hf b k [Hs Hn]. split; [by eapply bf_spared|]. by rewrite (bf_nodes _ _ _ _ _ Hf). Qed.

Lemma bf_foreign_back P s s' L L' : buf_frame P s s' L L' -> forall b k, foreign s' L' b k -> foreign s L b k.
Proof. intros Hf b k [Hs Hn]. split; [by eapply bf_back|]. by rewrite <- (bf_nodes _ _ _ _ _ Hf). Qed.

Lemma frame_spared s s' L L' b k :
  nv_frame s s' L L' -> spared s L b k -> spared s' L' b k /\ forall x, b <= x < b + k -> rd (nv_mem s') x = rd (nv_mem s) x.
Proof.
  intros [Hk Hm _ _ _] [Hb Hn]. destruct (hk_live _ _ _ _ _ Hk b k Hb Hn) as [Hb' Hx]. split; [|done]. split; [done|]. apply Hm; [by eexists|done].
Qed.

Lemma frame_buf P s s' L L' : nv_frame s s' L L' -> buf_frame P s s' L L'.
Proof.
  intros Hf. split; [apply Hf| | | |apply Hf|apply Hf].
  - intros b k Hb. by apply (frame_spared s s' L L').
  - intros b k [Hb Hn]. by apply (nf_back _ _ _ _ Hf).
  - intros b k Hb _. by apply (frame_spared s s' L L').
Qed.

Lemma buf_frame_trans P s1 s2 s3 L1 L2 L3 : buf_frame P s1 s2 L1 L2 -> buf_frame P s2 s3 L2 L3 -> buf_frame P s1 s3 L1 L3.
Proof.
  intros [Hd Hf Hk Hb Hst Hn] [Hd' Hf' Hk' Hb' Hst' Hn']. split; [by etrans|auto|auto| | |congruence].
  - intros b k Hb0 Hne x Hx. rewrite (Hb' b k) by auto. by apply (Hb b k).
  - intros x Hx. rewrite Hst' by (by rewrite static_done). by apply Hst.
Qed.

(** Somebody else uses the heap. *)
Lemma client_heap P s F own H ls l D L A n h F' own' L' n' :
  nvme_inv s F own L H H ls l D A -> spare F n -> heap_abs h F' own' L' -> spare F' n' -> hkeep P (nv_heap s) h L L' -> (forall a, mine s a -> ~ P a) ->
  nv_state (set_heap h s) L' A n'.
Proof.
  intros Hi Hsp Ha Hsp' Hk HP. exists F', own', H, ls, l, D. split; [|done].
  assert (forall i e, index_ok i -> ct_cache (nv_ct s) !! i = Some e -> ce_status e <> NVME_CACHE_EMPTY -> ~ P (ce_block e)) as Hne.
  { intros i e Hx He Hs. apply HP. right. right. by exists i, e. }
  pose proof Hi as [_ Hv Hq Hg Hhm Hcl Hprp Hlru Hall Hent Hmap Hsub Hinj Hvw]. split; try done.
  - eapply vm_keep; [apply Hk|done].
  - apply (queue_keep _ _ _ _ _ _ _ Hk); [|done]. apply HP. right. by left.
  - intros a Hc. destruct (Hcl a Hc) as [k Hl]. exists k. apply (hk_live _ _ _ _ _ Hk a k Hl), HP. by left.
  - intros i Hx. destruct (Hent i Hx) as (e & He & Hok). exists e. split; [done|].
    eapply (entry_keep _ _ h _ _ L); [exact Hk| |by left| |done|exact Hok]; [|apply Hok]. intros Hs. by eapply Hne.
  - intros x Hxr. rewrite <- Hvw by done. unfold view. destruct (H !! (x / NVME_BLOCK_SIZE)) as [i|] eqn:Hh; [|done].
    assert (exists e, holding s L A n (x / NVME_BLOCK_SIZE) i e) as [e Hho].
    { destruct (Hmap _ _ Hh) as (_ & _ & e & He & _). exists e, F, own, H, ls, l, D. done. }
    destruct (holding_facts _ _ _ _ _ _ _ Hho) as (Hx & _ & _ & Hs & _). destruct Hho as (_ & _ & _ & _ & _ & _ & _ & _ & _ & He).
    change (nv_ct (set_heap h s)) with (nv_ct s). rewrite He. destruct (Hent i Hx) as (e2 & He2 & Hok). assert (e2 = e) as -> by congruence.
    apply (buf_keep _ _ _ _ _ _ _ _ Hk (Hne i e Hx He Hs) (eo_buf _ _ _ _ _ _ _ _ _ Hok Hs)). by apply Z.mod_pos_bound.
Qed.

(** Writing somebody else's block. *)
Lemma foreign_write s L A n b k m :
  nv_state s L A n -> foreign s L b k -> (forall x, ~ (b <= x < b + k) -> rd m x = rd (nv_mem s) x) ->
  nv_state (set_nv_mem m s) L A n /\ buf_frame (eq b) s (set_nv_mem m s) L L.
Proof.
  intros (F & own & H & ls & l & D & Hi & Hsp) [[Hb Hn] _] Hm.
  destruct (hkeep_write (eq b) (nv_heap s) F own L b k m (ni_heap _ _ _ _ _ _ _ _ _ _ Hi) Hb eq_refl Hm) as [Ha Hk].
  split; [apply (client_heap (eq b) s F own H ls l D L A n (set_mem m (nv_heap s)) F own L n Hi Hsp Ha Hsp Hk); by intros a Hma <-|].
  split; [apply Hk|done|done| |apply Hk|done]. intros b' k' [Hb' _] Hneb. by apply (hk_live _ _ _ _ _ Hk b' k' Hb').
Qed.

(** The memory of the entry that has a block. *)
Lemma holding_buf s L A n b i e : holding s L A n b i e ->
  buf_ok (nv_cells s) (nv_mem s) L (prp_of s) (ce_block e) /\ (forall a k, foreign s L a k -> disjoint a k (ce_block e) NVME_BLOCK_SIZE).
Proof.
  intros Hh. destruct (holding_facts _ _ _ _ _ _ _ Hh) as (Hx & _ & _ & Hs & _). destruct Hh as (F & own & H & ls & l & D & Hi & _ & _ & He).
  destruct (ni_entry _ _ _ _ _ _ _ _ _ _ Hi i Hx) as (e2 & He2 & Hok). assert (e2 = e) as -> by congruence.
  pose proof (eo_buf _ _ _ _ _ _ _ _ _ Hok Hs) as Hb. split; [done|]. intros a k [[Ha Hn] _].
  eapply abs_apart; [apply Hi|done|apply Hb|]. intros ->. apply Hn. right. right. by exists i, e.
Qed.

(** ** Reading *)

(** The buffer [buf] is in block [b0] of [k] bytes; [c] bytes from [off] on
    have been read. *)
Record got (b0 k buf off : Z) (s0 : nvms) (L0 : gmap Z Z) (A : Z -> Z) (n : nat) (c : Z) (s : nvms) (L : gmap Z Z) : Prop := {
  go_state : nv_state s L A n;
  go_frame : buf_frame (eq b0) s0 s L0 L;
  go_lock : nv_lock s = nv_lock s0;
  go_buf : forall x, b0 <= x < b0 + k ->
    rd (nv_mem s) x = if decide (buf <= x < buf + c) then A (off + (x - buf)) else rd (nv_mem s0) x
}.

Lemma copy_out_got b0 k buf off s0 L0 A n c s L b i e at_ len :
  got b0 k buf off s0 L0 A n c s L -> holding s L A n b i e -> foreign s0 L0 b0 k -> 0 <= c -> b0 <= buf -> buf + c + len <= b0 + k ->
  0 <= at_ -> 0 <= len -> at_ + len <= NVME_BLOCK_SIZE -> off + c = b * NVME_BLOCK_SIZE + at_ ->
  returns (copy_out i at_ (buf + c) len s) (fun s' => got b0 k buf off s0 L0 A n (c + len) s' L).
Proof.
  intros [Hs Hf Hlk Hb] Hh Hfo Hc Hb0 Hbk Hat Hlen Hal Hoff. destruct (holding_buf _ _ _ _ _ _ _ Hh) as [[_ _ _ Hby] Hdis].
  pose proof (bf_foreign _ _ _ _ _ Hf _ _ Hfo) as Hfo'. specialize (Hdis _ _ Hfo'). unfold disjoint in Hdis.
  destruct (holding_facts _ _ _ _ _ _ _ Hh) as (_ & _ & _ & _ & HA). destruct Hh as (_ & _ & _ & _ & _ & _ & _ & _ & _ & He).
  unfold copy_out. mpure (get_entry_ret i s e He). apply returns_ret. set (m := memcpy _ _ _ _).
  assert (forall x, rd m x = if decide (buf + c <= x < buf + c + len) then A (off + (x - buf)) else rd (nv_mem s) x) as Hm.
  { intros x. unfold m. rewrite memcpy_apart by lia. destruct (decide _) as [Hx|]; [|done].
    rewrite <- Z.add_assoc. rewrite u8_small by (apply Hby; lia). rewrite HA by lia. f_equal. lia. }
  destruct (foreign_write s L A n b0 k m Hs Hfo') as [Hs' Hf']; [intros x Hx; by rewrite Hm, decide_False by lia|].
  split; [done|by eapply buf_frame_trans|done|]. intros x Hx. change (nv_mem (set_nv_mem m s)) with m. rewrite Hm, Hb by done.
  repeat case_decide; try done; lia.
Qed.

Lemma got_frame b0 k buf off s0 L0 A n n' c s L s' L' :
  got b0 k buf off s0 L0 A n c s L -> foreign s0 L0 b0 k -> nv_frame s s' L L' -> nv_state s' L' A n' -> got b0 k buf off s0 L0 A n' c s' L'.
Proof.
  intros [Hs Hf Hlk Hb] Hfo Hf' Hs'. split; [done|eapply buf_frame_trans; [done|by apply frame_buf]|rewrite <- Hlk; apply Hf'|]. intros x Hx.
  destruct (frame_spared _ _ _ _ _ _ Hf' (proj1 (bf_foreign _ _ _ _ _ Hf _ _ Hfo))) as [_ Hbx]. rewrite Hbx by done. by apply Hb.
Qed.

Lemma nv_state_le s L A n j : (n <= j)%nat -> nv_state s L A j -> nv_state s L A n.
Proof. induction 1 as [|j _ IH]; [done|]. intros Hs. by apply IH, nv_state_less. Qed.

Lemma got_le b0 k buf off s0 L0 A n j c s L : (n <= j)%nat -> got b0 k buf off s0 L0 A j c s L -> got b0 k buf off s0 L0 A n c s L.
Proof. intros Hn [Hs Hf Hlk Hb]. split; [by eapply nv_state_le|done..]. Qed.

(** One block is looked up and copied. *)
Lemma got_step b0 k buf off s0 L0 A n c s L b at_ len :
  got b0 k buf off s0 L0 A (S (S n)) c s L -> foreign s0 L0 b0 k -> 0 <= b < 2 ^ 55 -> 0 <= c -> b0 <= buf -> buf + c + len <= b0 + k ->
  0 <= at_ -> 0 <= len -> at_ + len <= NVME_BLOCK_SIZE -> off + c = b * NVME_BLOCK_SIZE + at_ ->
  returns (nvme_read_block b s) (fun '(i, s1) => if b <? nblocks
    then i =? NVME_IDX_INV = false /\ returns (copy_out i at_ (buf + c) len s1) (fun s' => exists L', got b0 k buf off s0 L0 A n (c + len) s' L')
    else i =? NVME_IDX_INV = true /\ exists L', got b0 k buf off s0 L0 A n c s1 L').
Proof.
  intros Hg Hfo Hb Hc Hb0 Hbk Hat Hlen Hal Hoff. eapply returns_mono; [apply (read_block_spec s L A n b); [apply Hg|done]|].
  intros [i s1] (L1 & Hf & Hres). destruct (b <? nblocks).
  - destruct Hres as [Hi [e Hh]]. split; [done|]. eapply returns_mono; [eapply (copy_out_got b0 k buf off s0 L0 A n c s1 L1); try done|].
    + by eapply got_frame; [..|by eapply holding_state].
    + intros s' Hs'. by exists L1.
  - destruct Hres as [-> Hs]. split; [done|]. exists L1. by eapply got_frame.
Qed.

(** The loop over the whole blocks. *)
Lemma read_blocks_got fuel b0 k buf off s0 L0 A n c s L block hi :
  got b0 k buf off s0 L0 A (2 * fuel + n) c s L -> foreign s0 L0 b0 k -> (Z.to_nat (hi - block + 1) <= fuel)%nat ->
  0 <= block -> -1 <= hi < 2 ^ 54 -> 0 <= c -> b0 <= buf -> (block <= hi -> buf + (hi + 1) * NVME_BLOCK_SIZE - off <= b0 + k) ->
  0 <= off -> (block <= hi -> off + c = block * NVME_BLOCK_SIZE) ->
  returns (rw_blocks nvme_read_block copy_out fuel block hi buf c s) (fun '(ok, c', s') => exists L', got b0 k buf off s0 L0 A n c' s' L' /\
    if decide (block <= hi /\ nblocks <= hi) then ok = false /\ c' = Z.max c (nblocks * NVME_BLOCK_SIZE - off)
    else ok = true /\ c' = if decide (block <= hi) then (hi + 1) * NVME_BLOCK_SIZE - off else c).
Proof.
  revert c s L block. induction fuel as [|fuel IH]; intros c s L block Hg Hfo Hfuel Hbl Hhi Hc Hb0 Hbk Hoff Hoc.
  { cbn. destruct (Z.leb_spec block hi); [lia|]. apply returns_ret. exists L. split; [done|]. by rewrite !decide_False by lia. }
  cbn [rw_blocks]. destruct (Z.leb_spec block hi) as [Hle|Hgt]; last first.
  { apply returns_ret. exists L. rewrite !decide_False by lia. split; [|done]. eapply got_le; [|done]. lia. }
  replace (2 * S fuel + n)%nat with (S (S (2 * fuel + n))) in Hg by lia.
  assert (NVME_BLOCK_SIZE = 512) as H512 by done.
  mcall (got_step b0 k buf off s0 L0 A (2 * fuel + n) c s L block 0 NVME_BLOCK_SIZE Hg Hfo); try lia. intros [i s1] Hres.
  destruct (Z.ltb_spec block nblocks) as [Hlt|Hge]; destruct Hres as [-> Hres].
  - mcall Hres. intros s2 [L2 Hg2]. unfold u64. rewrite !Z.mod_small by lia.
    eapply returns_mono; [apply (IH _ s2 L2); try done; lia|].
    intros [[ok c'] s'] (L' & Hg' & Hr). exists L'. split; [done|].
    destruct (decide (block + 1 <= hi /\ nblocks <= hi)), (decide (block <= hi /\ nblocks <= hi)); try lia.
    + destruct Hr as [-> ->]. split; [done|]. lia.
    + destruct Hr as [-> ->]. split; [done|]. rewrite (decide_True (P := block <= hi)) by lia. destruct (decide (block + 1 <= hi)); [done|]. lia.
  - destruct Hres as [L' Hg']. apply returns_ret. exists L'. split; [eapply got_le; [|done]; lia|]. rewrite decide_True by lia. split; [done|]. unfold NVME_BLOCK_SIZE in *. lia.
Qed.

(** ** The lock *)

Definition with_irq (b : bool) (l : k_spinlock_t) (s : nvms) : nvms := set_nv_lock l (set_heap (set_IF b (nv_heap s)) s).

Lemma irq_state b l s L A n : nv_state s L A n -> nv_state (with_irq b l s) L A n.
Proof.
  intros (F & own & H & ls & l' & D & Hi & Hsp). exists F, own, H, ls, l', D. split; [|done]. destruct Hi. split; try done.
  - destruct ni_heap0 as [[Hr Hu] Hl]. split; [split|]; [by apply rep_irq|done|done].
  - destruct ni_vm0. by split.
  - destruct ni_queue0. by split.
Qed.

Lemma irq_foreign b l s L a k : foreign (with_irq b l s) L a k <-> foreign s L a k.
Proof. done. Qed.

Lemma dev_lock_ret s : unlocked (nv_lock s) -> dev_lock s = Ret (with_irq false (mk_spinlock 1 (mm_IF (h_mm (nv_heap s)))) s).
Proof. intros Hu. unfold dev_lock. by rewrite Seq.spin_lock_global_ret. Qed.

(** A critical section that leaves the lock as it found it. *)
Lemma dev_unlock_ret b s' :
  mm_IF (h_mm (nv_heap s')) = false -> nv_lock s' = mk_spinlock 1 b -> dev_unlock s' = with_irq b (mk_spinlock 0 b) s'.
Proof. intros Hi Hl. unfold dev_unlock. rewrite Hi, Hl. by rewrite Seq.spin_unlock_global_ret. Qed.

Lemma irq_frame P l1 l2 s s' L L' :
  buf_frame P (with_irq false l1 s) s' L L' -> buf_frame P s (with_irq (mm_IF (h_mm (nv_heap s))) l2 s') L L'.
Proof. intros [[H1 H2 H3 H4] Hf Hk Hb Hst Hn]. split; [by split|done..]. Qed.

(** ** Block numbers *)

Lemma block_numbers off count : 0 <= off -> 0 <= count -> off + count < 2 ^ 63 ->
  ALIGN_DOWN off NVME_BLOCK_SIZE / NVME_BLOCK_SIZE = off / 512 /\ block_lo off = (off + 511) / 512 /\ block_end off count = (off + count) / 512.
Proof.
  intros Ho Hc Hb. unfold block_lo, block_end, u64. rewrite (Z.mod_small (off + count)) by lia. change NVME_BLOCK_SIZE with (2 ^ 9).
  rewrite !ALIGN_DOWN_spec, ALIGN_UP_spec by lia. change (2 ^ 9) with 512.
  replace (off + 512 - 1) with (off + 511) by lia. rewrite !(Z.mul_comm 512), !Z.div_mul by done. done.
Qed.

Lemma block_range off count : 0 <= off -> 0 <= count -> off + count < 2 ^ 63 -> 512 <= off + count ->
  block_hi off count = (off + count) / 512 - 1 /\ 0 <= block_hi off count < 2 ^ 54 /\ (block_rounds off count <= Z.to_nat (count / 512))%nat.
Proof.
  intros Ho Hc Hb Hbig. destruct (block_numbers off count Ho Hc Hb) as (_ & Hlo & Hend).
  assert (block_hi off count = (off + count) / 512 - 1) as Hhi.
  { unfold block_hi, u64. rewrite Hend, Z.mod_small; [done|]. Z.to_euclidean_division_equations; lia. }
  split; [done|]. unfold block_rounds. rewrite Hhi, Hlo. Z.to_euclidean_division_equations; lia.
Qed.

(** Bytes moved after the front, and after the whole blocks. *)
Definition front_bytes (off count : Z) : Z := if decide (off mod 512 = 0) then 0 else Z.min count (512 - off mod 512).
Definition whole_bytes (off count : Z) : Z :=
  if decide ((off + 511) / 512 <= (off + count) / 512 - 1) then (off + count) / 512 * 512 - off else front_bytes off count.

Lemma front_bytes_spec off count : 0 <= off -> 0 <= count ->
  0 <= front_bytes off count <= count /\ ((off + 511) / 512 <= (off + count) / 512 - 1 -> off + front_bytes off count = (off + 511) / 512 * 512).
Proof. intros Ho Hc. unfold front_bytes. destruct (decide (off mod 512 = 0)); Z.to_euclidean_division_equations; lia. Qed.

Lemma whole_bytes_spec off count : 0 <= off -> 0 <= count ->
  0 <= whole_bytes off count <= count /\
  (whole_bytes off count < count -> off + whole_bytes off count = (off + count) / 512 * 512 /\ count - whole_bytes off count <= 512).
Proof.
  intros Ho Hc. unfold whole_bytes, front_bytes.
  destruct (decide (_ <= _)), (decide (off mod 512 = 0)); Z.to_euclidean_division_equations; lia.
Qed.

Lemma clipped_blocks nb off count : 0 <= off -> 0 <= count -> ~ (off mod 512 <> 0 /\ nb <= off / 512) ->
  (off + 511) / 512 <= (off + count) / 512 - 1 -> nb <= (off + count) / 512 - 1 ->
  Z.max (front_bytes off count) (nb * 512 - off) = clipped (nb * 512) off count.
Proof.
  intros Ho Hc Hn Hl Hb. unfold clipped, front_bytes. assert (off mod 512 = 0 \/ off / 512 < nb) as Hn' by lia. clear Hn.
  destruct (decide (off mod 512 = 0)); Z.to_euclidean_division_equations; lia.
Qed.

Lemma clipped_end nb off count : 0 <= off -> 0 <= count -> ~ (off mod 512 <> 0 /\ nb <= off / 512) ->
  ~ ((off + 511) / 512 <= (off + count) / 512 - 1 /\ nb <= (off + count) / 512 - 1) ->
  (if decide (whole_bytes off count < count /\ nb <= (off + count) / 512) then whole_bytes off count else Z.max (whole_bytes off count) count) =
    clipped (nb * 512) off count.
Proof.
  intros Ho Hc Hn Hl. unfold clipped, whole_bytes, front_bytes. assert (off mod 512 = 0 \/ off / 512 < nb) as Hn' by lia. clear Hn.
  assert ((off + count) / 512 - 1 < (off + 511) / 512 \/ (off + count) / 512 - 1 < nb) as Hl' by lia. clear Hl.
  destruct (decide ((off + 511) / 512 <= _)), (decide (off mod 512 = 0)), (decide (_ /\ _)); Z.to_euclidean_division_equations; lia.
Qed.

(** ** [nvme_read] *)

Lemma read_front_got b0 k buf off count s0 L0 A n s L :
  read_range b0 k buf off count -> got b0 k buf off s0 L0 A (S (S n)) 0 s L -> foreign s0 L0 b0 k ->
  returns (rw_front copy_out buf off count s) (fun '(ok, c, s') => exists L', got b0 k buf off s0 L0 A n c s' L' /\
    if decide (off mod 512 <> 0 /\ nblocks <= off / 512) then ok = false /\ c = 0
    else ok = true /\ c = front_bytes off count).
Proof.
  intros [Ho Hc He Hb Hfit] Hg Hfo. unfold rw_front. destruct (block_numbers off count Ho (proj1 Hc) He) as (-> & _ & _).
  change NVME_BLOCK_SIZE with 512. pose proof (Z.mod_pos_bound off 512 ltac:(lia)) as Hm. pose proof (Z.div_mod off 512 ltac:(lia)) as Hdm.
  destruct (Z.eqb_spec (off mod 512) 0) as [Hz|Hz]; cbn [negb].
  - apply returns_ret. exists L. rewrite decide_False by tauto. unfold front_bytes. rewrite decide_True by done. split; [eapply got_le; [|done]; lia|done].
  - set (len := Z.min count (512 - off mod 512)).
    assert (min count (512 -! off mod 512) = len) as Hlen.
    { unfold len, u64. rewrite (Z.mod_small (512 - _)) by lia. unfold min. destruct (_ <? _) eqn:?; lia. }
    mcall (got_step b0 k buf off s0 L0 A n 0 s L (off / 512) (off mod 512) len Hg Hfo); try (unfold len, NVME_BLOCK_SIZE; lia).
    intros [i s1] Hres. destruct (Z.ltb_spec (off / 512) nblocks) as [Hlt|Hge]; destruct Hres as [-> Hres].
    + rewrite Hlen. rewrite Z.add_0_r in Hres. mcall Hres. intros s2 [L2 Hg2]. apply returns_ret. exists L2. split; [done|].
      rewrite decide_False by lia. unfold front_bytes. by rewrite decide_False.
    + destruct Hres as [L2 Hg2]. apply returns_ret. exists L2. split; [done|]. by rewrite decide_True by tauto.
Qed.

Lemma read_end_got b0 k buf off count s0 L0 A n s L c block :
  read_range b0 k buf off count -> got b0 k buf off s0 L0 A (S (S n)) c s L -> foreign s0 L0 b0 k -> 0 <= c ->
  (c < count -> off + c = block * 512 /\ count - c <= 512) ->
  returns (rw_end copy_out block buf c count s) (fun '(ok, c', s') => exists L', got b0 k buf off s0 L0 A n c' s' L' /\
    c' = if decide (c < count /\ nblocks <= block) then c else Z.max c count).
Proof.
  intros [Ho Hc He Hb Hfit] Hg Hfo Hc0 Hbl. unfold rw_end. destruct (Z.ltb_spec c count) as [Hlt|Hge].
  - destruct (Hbl Hlt) as [Hoc Hle]. unfold u64. rewrite (Z.mod_small (count - c)) by lia.
    mcall (got_step b0 k buf off s0 L0 A n c s L block 0 (count - c) Hg Hfo); try (unfold NVME_BLOCK_SIZE; lia).
    intros [i s1] Hres. destruct (Z.ltb_spec block nblocks) as [Hlt'|Hge]; destruct Hres as [-> Hres].
    + mcall Hres. intros s2 [L2 Hg2]. apply returns_ret. exists L2. rewrite Z.mod_small by lia. split; [done|]. rewrite decide_False by lia. lia.
    + destruct Hres as [L2 Hg2]. apply returns_ret. exists L2. split; [done|]. by rewrite decide_True by tauto.
  - apply returns_ret. exists L. split; [eapply got_le; [|done]; lia|]. rewrite decide_False by lia. lia.
Qed.

(** The state after a call that moved [c] bytes. *)
Record was_read (b0 k buf off : Z) (s : nvms) (L : gmap Z Z) (A : Z -> Z) (n : nat) (c : Z) (s' : nvms) (L' : gmap Z Z) : Prop := {
  wr_state : nv_state s' L' A n;
  wr_frame : buf_frame (eq b0) s s' L L';
  wr_lock : unlocked (nv_lock s');
  wr_buf : forall x, b0 <= x < b0 + k ->
    rd (nv_mem s') x = if decide (buf <= x < buf + c) then A (off + (x - buf)) else rd (nv_mem s) x
}.

Lemma got_unlocked b0 k buf off s L A n c s1 L1 :
  got b0 k buf off (with_irq false (mk_spinlock 1 (mm_IF (h_mm (nv_heap s)))) s) L A n c s1 L1 ->
  was_read b0 k buf off s L A n c (dev_unlock s1) L1.
Proof.
  intros [Hs Hf Hlk Hb]. rewrite (dev_unlock_ret (mm_IF (h_mm (nv_heap s)))); [|by rewrite (hd_IF _ _ (bf_done _ _ _ _ _ Hf))|done].
  split; [by apply irq_state|by eapply irq_frame|done|done].
Qed.

Lemma read_spec s L A n b0 k buf off count :
  nv_state s L A (2 * Z.to_nat (count / 512 + 2) + n) -> unlocked (nv_lock s) -> foreign s L b0 k ->
  read_range b0 k buf off count -> 512 <= off + count ->
  returns (nvme_read buf off count s) (fun '(r, s') => r = clipped (nblocks * 512) off count /\ exists L', was_read b0 k buf off s L A n r s' L').
Proof.
  intros Hs Hu Hfo Hr Hbig. pose proof Hr as [Ho Hc He Hb Hfit]. unfold nvme_read. mpure (dev_lock_ret s Hu).
  set (s0 := with_irq false _ s).
  destruct (block_numbers off count Ho (proj1 Hc) He) as (_ & Hlo & Hend). destruct (block_range off count Ho (proj1 Hc) He Hbig) as (Hhi & Hhr & Hrd).
  assert (got b0 k buf off s0 L A (S (S (2 * block_rounds off count + S (S n)))) 0 s0 L) as Hg.
  { split; [|by apply frame_buf, nv_frame_refl|done|intros x _; by rewrite decide_False by lia]. apply irq_state. eapply nv_state_le; [|done].
    pose proof (Z.div_pos count 512). lia. }
  mcall (read_front_got b0 k buf off count s0 L A _ s0 L Hr Hg Hfo). intros [[ok c] s1] (L1 & Hg1 & Hres).
  destruct (decide (off mod 512 <> 0 /\ nblocks <= off / 512)) as [[Hz Hnb]|Hn]; destruct Hres as [-> ->]; cbn [negb].
  { apply returns_ret. rewrite s32_small by lia. split; [unfold clipped; pose proof (Z.mul_div_le off 512); lia|]. exists L1. apply got_unlocked. eapply got_le; [|done]. lia. }
  destruct (front_bytes_spec off count Ho (proj1 Hc)) as [Hfb Hfe]. destruct (whole_bytes_spec off count Ho (proj1 Hc)) as [Hwb Hwe].
  mcall (read_blocks_got (block_rounds off count) b0 k buf off s0 L A (S (S n)) _ s1 L1 (block_lo off) (block_hi off count) Hg1 Hfo);
    rewrite ?Hlo, ?Hhi; try (unfold block_rounds, NVME_BLOCK_SIZE; rewrite ?Hlo, ?Hhi; Z.to_euclidean_division_equations; lia).
  intros [[ok c] s2] (L2 & Hg2 & Hres).
  destruct (decide (_ /\ _)) as [[Hle Hnb]|Hn2]; destruct Hres as [-> ->]; cbn [negb].
  - change NVME_BLOCK_SIZE with 512 in *. rewrite (clipped_blocks nblocks off count Ho (proj1 Hc) Hn Hle Hnb) in *. apply returns_ret.
    rewrite s32_small by (unfold clipped; lia). split; [done|]. exists L2. apply got_unlocked. eapply got_le; [|done]. lia.
  - replace (if decide ((off + 511) / 512 <= _) then _ else _) with (whole_bytes off count) in *
      by (unfold whole_bytes; case_decide; [unfold NVME_BLOCK_SIZE; lia|done]).
    replace ((off + count) / 512 - 1 +! 1) with ((off + count) / 512) by (unfold u64; rewrite Z.mod_small; Z.to_euclidean_division_equations; lia).
    mcall (read_end_got b0 k buf off count s0 L A n s2 L2 _ ((off + count) / 512) Hr Hg2 Hfo (proj1 Hwb) Hwe).
    intros [[ok c'] s3] (L3 & Hg3 & ->). rewrite (clipped_end nblocks off count Ho (proj1 Hc) Hn Hn2) in *. apply returns_ret.
    rewrite s32_small by (unfold clipped; lia). split; [done|]. exists L3. by apply got_unlocked.
Qed.

(** ** [nvme_write] *)

Lemma state_ext s L A A' n : nv_state s L A n -> (forall x, 0 <= x < nblocks * NVME_BLOCK_SIZE -> A x = A' x) -> nv_state s L A' n.
Proof. intros (F & own & H & ls & l & D & Hi & Hsp) He. exists F, own, H, ls, l, D. split; [by eapply inv_ext|done]. Qed.

(** The contents of a dirty entry are the contents of its block. *)
Lemma dirty_write s L A n b i e m :
  holding s L A n b i e -> ce_status e = NVME_CACHE_DIRTY ->
  (forall x, ~ (ce_block e <= x < ce_block e + NVME_BLOCK_SIZE) -> rd m x = rd (nv_mem s) x) ->
  (forall o, 0 <= o < NVME_BLOCK_SIZE -> 0 <= rd m (ce_block e + o) < 256) ->
  nv_state (set_nv_mem m s) L (block_at m (ce_block e) b A) n /\ nv_frame s (set_nv_mem m s) L L.
Proof.
  intros Hh Hd Hm Hby. destruct (holding_facts _ _ _ _ _ _ _ Hh) as (Hx & Hb & Hbe & Hs & _). destruct (holding_buf _ _ _ _ _ _ _ Hh) as [Hbuf _].
  destruct Hh as (F & own & H & ls & l & D & Hi & Hsp & Hbi & He).
  assert (forall s, set_nv_mem m s = with_io (nv_queue s) m (ho_vmm (nv_host s)) (ho_hw (nv_host s)) s) as Heq by (by intros [[] [] ? ? ?]). rewrite Heq.
  destruct (hkeep_write (eq (ce_block e)) (nv_heap s) F own L (ce_block e) _ m (ni_heap _ _ _ _ _ _ _ _ _ _ Hi) (bo_live _ _ _ _ _ Hbuf) eq_refl Hm) as [_ Hk].
  destruct (inv_memory s F own L H H ls l D A i e (nv_queue s) m (ho_vmm (nv_host s)) (ho_hw (nv_host s)) (block_at m (ce_block e) b A)) as [Hi' Hf]; try done.
  - apply Hi.
  - apply (queue_keep _ _ _ _ _ _ _ Hk); [apply Hbuf|apply Hi].
  - congruence.
  - intros x Hxr. unfold block_at, view. destruct (decide (x / NVME_BLOCK_SIZE = b)) as [->|Hne]; [by rewrite Hbi, He|].
    rewrite <- (ni_view _ _ _ _ _ _ _ _ _ _ Hi x Hxr). unfold view. destruct (H !! (x / NVME_BLOCK_SIZE)) as [j|] eqn:Hj; [|done].
    destruct (ni_map _ _ _ _ _ _ _ _ _ _ Hi _ _ Hj) as (_ & _ & ej & Hej & Hbj). rewrite Hej.
    assert (holding s L A n (x / NVME_BLOCK_SIZE) j ej) as Hho by (exists F, own, H, ls, l, D; done).
    destruct (holding_buf _ _ _ _ _ _ _ Hho) as [Hbuf2 _]. destruct (holding_facts _ _ _ _ _ _ _ Hho) as (Hxj & _ & _ & Hsj & _).
    assert (ce_block e <> ce_block ej) as Hnb by (intros Heb; assert (i = j) as -> by (by eapply (ni_inj _ _ _ _ _ _ _ _ _ _ Hi)); congruence).
    apply (buf_keep _ _ _ _ _ _ _ _ Hk Hnb Hbuf2). by apply Z.mod_pos_bound.
  - split; [|done]. by exists F, own, H, ls, l, D.
Qed.

(** [c] bytes have been written. *)
Record put (buf off : Z) (s0 : nvms) (L0 : gmap Z Z) (A : Z -> Z) (n : nat) (c : Z) (s : nvms) (L : gmap Z Z) : Prop := {
  pu_state : nv_state s L (overwritten (nv_mem s0) buf off c A) n;
  pu_frame : nv_frame s0 s L0 L
}.

Lemma put_step b0 k buf off s0 L0 A n c s L b :
  put buf off s0 L0 A (S (S n)) c s L -> foreign s0 L0 b0 k -> 0 <= b < nblocks -> b < 2 ^ 55 -> 0 <= c -> b0 <= buf ->
  buf + c + NVME_BLOCK_SIZE <= b0 + k -> off + c = b * NVME_BLOCK_SIZE ->
  returns (nvme_prep_write_full_block b s) (fun '(i, s1) => i =? NVME_IDX_INV = false /\
    returns (copy_in i 0 (buf + c) NVME_BLOCK_SIZE s1) (fun s' => exists L', put buf off s0 L0 A n (c + NVME_BLOCK_SIZE) s' L')).
Proof.
  intros [Hs Hf] Hfo Hb Hb' Hc Hb0 Hbk Hoc. eapply returns_mono; [apply (prep_block_spec s L _ n b Hs Hb Hb')|].
  intros [i s1] (L1 & A1 & e & Hf1 & Hi & Hh & Hd & HA). split; [done|].
  destruct (holding_buf _ _ _ _ _ _ _ Hh) as [_ Hdis]. pose proof (nv_frame_trans _ _ _ _ _ _ Hf Hf1) as Hf2.
  pose proof (bf_foreign _ _ _ _ _ (frame_buf (fun _ => False) _ _ _ _ Hf2) _ _ Hfo) as Hfo1. destruct (frame_spared _ _ _ _ _ _ Hf2 (proj1 Hfo)) as [_ Hbx]. specialize (Hdis _ _ Hfo1). unfold disjoint in Hdis.
  pose proof Hh as (_ & _ & _ & _ & _ & _ & _ & _ & _ & He). unfold copy_in. mpure (get_entry_ret i s1 e He). apply returns_ret.
  rewrite Z.add_0_r. set (m := memcpy _ _ _ _).
  assert (forall x, rd m x = if decide (ce_block e <= x < ce_block e + NVME_BLOCK_SIZE) then u8 (rd (nv_mem s0) (buf + c + (x - ce_block e))) else rd (nv_mem s1) x) as Hm.
  { intros x. unfold m. rewrite memcpy_apart by (done || lia). destruct (decide _) as [Hx|]; [|done]. rewrite Hbx by lia. done. }
  destruct (dirty_write s1 L1 A1 n b i e m Hh Hd) as [Hs' Hf']; [intros x Hx; by rewrite Hm, decide_False| |].
  { intros o Ho. rewrite Hm, decide_True by lia. apply u8_range. }
  exists L1. split; [|by eapply nv_frame_trans]. eapply state_ext; [exact Hs'|]. intros x Hx. unfold block_at, overwritten.
  pose proof (disk_split x) as Hsp. pose proof (Z.mod_pos_bound x NVME_BLOCK_SIZE ltac:(done)).
  destruct (decide (x / NVME_BLOCK_SIZE = b)) as [Hxb|Hxb].
  - rewrite Hm, decide_True, decide_True by lia. do 2 f_equal. lia.
  - rewrite HA by done. unfold overwritten. assert (~ (off + c <= x < off + c + NVME_BLOCK_SIZE)).
    { intros Hr. apply Hxb. rewrite Hoc in Hr. replace x with (b * NVME_BLOCK_SIZE + (x - b * NVME_BLOCK_SIZE)) by lia. apply block_offset. lia. }
    repeat case_decide; try done; lia.
Qed.

Lemma put_le buf off s0 L0 A n j c s L : (n <= j)%nat -> put buf off s0 L0 A j c s L -> put buf off s0 L0 A n c s L.
Proof. intros Hn [Hs Hf]. split; [by eapply nv_state_le|done]. Qed.

Lemma write_blocks_put fuel b0 k buf off s0 L0 A n c s L block hi :
  put buf off s0 L0 A (2 * fuel + n) c s L -> foreign s0 L0 b0 k -> (Z.to_nat (hi - block + 1) <= fuel)%nat ->
  0 <= block -> -1 <= hi < 2 ^ 54 -> hi < nblocks -> 0 <= c -> b0 <= buf -> buf + (hi + 1) * NVME_BLOCK_SIZE - off <= b0 + k ->
  0 <= off -> off + c = block * NVME_BLOCK_SIZE -> block <= hi + 1 ->
  returns (rw_blocks nvme_prep_write_full_block copy_in fuel block hi buf c s) (fun '(ok, c', s') =>
    ok = true /\ c' = (hi + 1) * NVME_BLOCK_SIZE - off /\ exists L', put buf off s0 L0 A n c' s' L').
Proof.
  assert (NVME_BLOCK_SIZE = 512) as H512 by done.
  revert c s L block. induction fuel as [|fuel IH]; intros c s L block Hg Hfo Hfuel Hbl Hhi Hnb Hc Hb0 Hbk Hoff Hoc Hle.
  { cbn. destruct (Z.leb_spec block hi); [lia|]. apply returns_ret. split; [done|]. assert (c = (hi + 1) * NVME_BLOCK_SIZE - off) as <- by nia. eauto. }
  cbn [rw_blocks]. destruct (Z.leb_spec block hi) as [Hlt|Hgt]; last first.
  { apply returns_ret. split; [done|]. assert (c = (hi + 1) * NVME_BLOCK_SIZE - off) as <- by nia. split; [done|]. exists L. eapply put_le; [|done]. lia. }
  replace (2 * S fuel + n)%nat with (S (S (2 * fuel + n))) in Hg by lia.
  mcall (put_step b0 k buf off s0 L0 A (2 * fuel + n) c s L block Hg Hfo); try lia. intros [i s1] [-> Hres].
  mcall Hres. intros s2 [L2 Hg2]. unfold u64. rewrite !Z.mod_small by lia. apply (IH _ s2 L2); try done; lia.
Qed.

(** The state after a call that wrote [c] bytes. *)
Record was_written (buf off : Z) (s : nvms) (L : gmap Z Z) (A : Z -> Z) (n : nat) (c : Z) (s' : nvms) (L' : gmap Z Z) : Prop := {
  ww_state : nv_state s' L' (overwritten (nv_mem s) buf off c A) n;
  ww_frame : buf_frame (fun _ => False) s s' L L';
  ww_lock : unlocked (nv_lock s')
}.

Lemma write_spec s L A n b0 k buf off count :
  nv_state s L A (2 * Z.to_nat (count / 512 + 2) + n) -> unlocked (nv_lock s) -> foreign s L b0 k ->
  read_range b0 k buf off count -> 512 <= off + count -> off mod 512 = 0 -> count mod 512 = 0 -> off + count <= nblocks * 512 ->
  returns (nvme_write buf off count s) (fun '(r, s') => r = count /\ exists L', was_written buf off s L A n count s' L').
Proof.
  intros Hs Hu Hfo Hr Hbig Ho1 Hc1 Hnb. pose proof Hr as [Ho Hc He Hb Hfit]. unfold nvme_write. mpure (dev_lock_ret s Hu).
  set (s0 := with_irq false _ s).
  destruct (block_numbers off count Ho (proj1 Hc) He) as (_ & Hlo & Hend). destruct (block_range off count Ho (proj1 Hc) He Hbig) as (Hhi & Hhr & Hrd).
  assert (put buf off s0 L A (2 * block_rounds off count + n) 0 s0 L) as Hg.
  { split; [|apply nv_frame_refl]. apply (state_ext _ _ A); [|intros x _; unfold overwritten; by rewrite decide_False by lia].
    apply irq_state. eapply nv_state_le; [|done]. pose proof (Z.div_pos count 512). lia. }
  unfold rw_front at 1. change NVME_BLOCK_SIZE with 512. rewrite Ho1. cbn [Z.eqb negb mbind outcome_bind].
  assert ((off + 511) / 512 = off / 512 /\ (off + count) / 512 * 512 = off + count) as [Hq1 Hq2] by (Z.to_euclidean_division_equations; lia).
  mcall (write_blocks_put (block_rounds off count) b0 k buf off s0 L A n 0 s0 L (block_lo off) (block_hi off count) Hg Hfo);
    rewrite ?Hlo, ?Hhi; try (unfold block_rounds, NVME_BLOCK_SIZE; rewrite ?Hlo, ?Hhi; Z.to_euclidean_division_equations; lia).
  intros [[ok c] s2] (-> & -> & L2 & Hg2). cbn [negb].
  replace (((off + count) / 512 - 1 + 1) * NVME_BLOCK_SIZE - off) with count in * by (unfold NVME_BLOCK_SIZE; lia).
  unfold rw_end. rewrite Z.ltb_irrefl. cbn [mbind outcome_bind]. apply returns_ret. rewrite s32_small by lia. split; [done|]. exists L2.
  destruct Hg2 as [Hs2 Hf2].
  rewrite (dev_unlock_ret (mm_IF (h_mm (nv_heap s)))); [|by rewrite (hd_IF _ _ (hk_done _ _ _ _ _ (nf_heap _ _ _ _ Hf2)))|apply Hf2].
  split; [by apply irq_state| |done]. eapply irq_frame. by apply frame_buf.
Qed.

End Dev.
End NvmeDev.
