(* ===== verification/NvmeDevice.v ===== *)
(** * The NVMe driver is a block driver

    [nvme_read] and [nvme_write] are what the driver registers for the
    device of a namespace; with the block cache they keep the promise of
    [DriverOk]. *)

From stdpp Require Import gmap.
From S2P Require Import Prelude Macros Locking Mem FrameHdr FrameAlloc PageIface Slab SlabRep SlabProof HeapSpec HeapFrame Device DeviceSpec Mmu NvmeHdr Nvme NvmeCache NvmeIo NvmeProof NvmeDev.

Module NvmeDevice.
Import Macros Locking Mem FrameHdr FrameAlloc PageIface Slab SlabRep SlabProof HeapSpec HeapFrame Device DeviceSpec Mmu NvmeHdr Nvme NvmeCache NvmeIo NvmeProof NvmeDev.

Section Driver.
Context {PA : PageAllocator} {HW : NvmeController} {Obeys : NvmeObeys}.

#[export] Instance nvme_driver : BlockDriver := {|
  drv := nvms;
  drv_heap := nv_heap;
  drv_set_heap := set_heap;
  drv_read := nvme_read;
  drv_write := nvme_write
|}.

(** The nodes of the list stay allocated. *)
Definition nodes_kept (s : nvms) (L : gmap Z Z) : Prop :=
  forall a, a ∈ dom (nv_nodes s) -> (exists k, spared s L a k) \/ static (nv_heap s) a.

Record nvme_ready (s : nvms) (L : gmap Z Z) (A : Z -> Z) (n : nat) : Prop := {
  nr_state : nv_state s L A n;
  nr_lock : unlocked (nv_lock s);
  nr_nodes : nodes_kept s L
}.

Definition served (off count : Z) : Prop := 512 <= off + count.
Definition whole (off count : Z) : Prop := served off count /\ off mod 512 = 0 /\ count mod 512 = 0.
Definition request_cost (count : Z) : nat := (2 * Z.to_nat (count / 512 + 2))%nat.

Lemma nodes_frame P s s' L L' : buf_frame P s s' L L' -> nodes_kept s L -> nodes_kept s' L'.
Proof.
  intros Hf Hk a Ha. rewrite (bf_nodes _ _ _ _ _ Hf) in Ha. destruct (Hk a Ha) as [[k Hs]|Hs].
  - left. exists k. by eapply bf_spared.
  - right. by rewrite (static_done _ _ _ (bf_done _ _ _ _ _ Hf)).
Qed.

Lemma frame_keeps P s s' L L' : buf_frame P s s' L L' -> keeps foreign P s s' L L'.
Proof.
  intros Hf. split; [apply Hf| |apply Hf]. intros b k Hb Hp. split; [by eapply bf_foreign|]. intros x Hx. by eapply bf_bytes; [..|apply Hb| |].
Qed.

Lemma frame_gains P s s' L L' : buf_frame P s s' L L' -> gains foreign [] s s' L L'.
Proof. intros Hf b k Hb. left. by eapply bf_foreign_back. Qed.

Lemma mine_live s F own L H ls l D A a : nvme_inv s F own L H H ls l D A -> mine s a -> is_Some (L !! a).
Proof.
  intros Hi [Hc|[->|(i & e & Hx & He & Hs & <-)]].
  - by apply (ni_cells _ _ _ _ _ _ _ _ _ _ Hi).
  - destruct (qo_prp _ _ _ _ (ni_queue _ _ _ _ _ _ _ _ _ _ Hi)) as (k & Hl & _). by exists k.
  - destruct (ni_entry _ _ _ _ _ _ _ _ _ _ Hi i Hx) as (e' & He' & Hok). assert (e' = e) as -> by congruence.
    exists NVME_BLOCK_SIZE. apply (eo_buf _ _ _ _ _ _ _ _ _ Hok Hs).
Qed.

Lemma alloc_ready s L A n size :
  nvme_ready s L A (S n) -> 0 < size <= KMALLOC_MAX_CACHE_SIZE ->
  returns (kcalloc 1 size (nv_heap s)) (fun '(a, h) => exists L',
    nvme_ready (set_heap h s) L' A n /\ keeps foreign (fun _ => False) s (set_heap h s) L L' /\ gains foreign [a] s (set_heap h s) L L' /\ foreign (set_heap h s) L' a (capacity size) /\
    size <= capacity size /\ (forall b k, foreign s L b k -> a <> b) /\ forall x, a <= x < a + size -> rd (h_mem h) x = 0).
Proof.
  intros [(F & own & H & ls & l & D & Hi & Hsp) Hlk Hno] Hsz. pose proof (ni_heap _ _ _ _ _ _ _ _ _ _ Hi) as Ha.
  eapply returns_mono; [exact (kcalloc_later _ _ _ _ n size Ha Hsz Hsp)|]. intros [a h] (F' & own' & L' & -> & Ha' & Hn & Hc & Hla & Hsp' & Hz).
  pose proof (hkeep_later (fun _ => False) _ _ _ _ Hla) as Hk. set (L' := <[a := capacity size]> L) in *. exists L'.
  assert (forall b k, spared s L b k -> spared (set_heap h s) L' b k) as Hsd.
  { intros b k [Hb Hm]. split; [|done]. unfold L'. by rewrite lookup_insert_ne by congruence. }
  split_and!; try done.
  - split; [by eapply client_heap; [exact Hi|done|done|done|exact Hk|]; intros ? _ []|done|]. intros b Hb. destruct (Hno b Hb) as [[k Hs]|Hs]; [left; exists k; auto|right].
    by rewrite (static_done _ _ _ (hk_done _ _ _ _ _ Hk)).
  - split; [apply Hk| |apply Hk]. intros b k [Hs Hnn] _. split; [split; [auto|done]|]. by destruct (hk_live _ _ _ _ _ Hk b k (proj1 Hs) ltac:(by intros [])) as [_ Hx].
  - intros b k [[Hb Hm] Hnn]. unfold L' in Hb. destruct (decide (b = a)) as [->|]; [right; left|left].
    rewrite lookup_insert_ne in Hb by done. by split.
  - split; [split; [apply lookup_insert_eq|]|].
    + intros Hm. destruct (mine_live _ _ _ _ _ _ _ _ _ _ Hi Hm) as [k Hl]. congruence.
    + intros Hm. destruct (Hno a Hm) as [[k [Hl _]]|Hs]; [congruence|].
      apply (live_not_static _ _ _ _ _ _ a Ha' (lookup_insert_eq _ _ _)); [lia|]. by rewrite (static_done _ _ _ (hk_done _ _ _ _ _ Hk)).
  - intros b k [[Hb _] _]. congruence.
Qed.

Lemma free_ready s L A n a k :
  nvme_ready s L A n -> foreign s L a k ->
  returns (kfree a (nv_heap s)) (fun h => exists L', nvme_ready (set_heap h s) L' A n /\ keeps foreign (eq a) s (set_heap h s) L L' /\
    forall b j, foreign (set_heap h s) L' b j -> foreign s L b j /\ b <> a).
Proof.
  intros [(F & own & H & ls & l & D & Hi & Hsp) Hlk Hno] [[Hl Hm] Hnn]. pose proof (ni_heap _ _ _ _ _ _ _ _ _ _ Hi) as Ha.
  eapply returns_mono; [exact (kfree_later _ _ _ _ a k n Ha Hl Hsp)|]. intros h (F' & own' & Ha' & Hd & Hsp' & Hx).
  pose proof (hkeep_free (eq a) _ h F own L a k Ha Hl eq_refl Hd Hx) as Hk. exists (delete a L).
  assert (forall b j, spared s L b j -> a <> b -> spared (set_heap h s) (delete a L) b j) as Hsd.
  { intros b j [Hb Hmb] Hne. split; [|done]. by rewrite lookup_delete_ne. }
  split; [split; [|done|]|split].
  - eapply client_heap; [exact Hi|done|done|done|exact Hk|]. by intros b Hb <-.
  - intros b Hb. assert (a <> b) by (intros <-; by apply Hnn). destruct (Hno b Hb) as [[j Hs]|Hs]; [left; exists j; auto|right].
    by rewrite (static_done _ _ _ (hk_done _ _ _ _ _ Hk)).
  - split; [apply Hk| |apply Hk]. intros b j [Hs Hnb] Hne. split; [split; [auto|done]|]. by apply (hk_live _ _ _ _ _ Hk b j (proj1 Hs)).
  - intros b j [[[Hne Hb]%lookup_delete_Some Hmb] Hnb]. split; [by split|congruence].
Qed.

#[export] Program Instance nvme_driver_ok : DriverOk := {|
  dk_size := nblocks * 512;
  dk_ok := nvme_ready;
  dk_foreign := foreign;
  dk_cost := request_cost;
  dk_reads := served;
  dk_writes := whole
|}.
Next Obligation. intros s L A n j Hn [Hs Hl Hk]. split; [by eapply nv_state_le|done..]. Qed.
Next Obligation. done. Qed.
Next Obligation. done. Qed.
Next Obligation.
  intros s L A n a k b j [(F & own & H & ls & l & D & Hi & _) _ _] [[Ha _] _] [[Hb _] _] Hne. by eapply abs_apart; [apply Hi|..].
Qed.
Next Obligation.
  intros s L A n a k x [(F & own & H & ls & l & D & Hi & _) _ _] [[Ha _] _] Hx. split; [by eapply live_pos; [apply Hi|]|by eapply live_not_static; [apply Hi|..]].
Qed.
Next Obligation.
  intros s L A n b0 k buf off count [Hs Hl Hk] Hf Hr Hsv.
  eapply returns_mono; [exact (read_spec s L A n b0 k buf off count Hs Hl Hf Hr Hsv)|]. intros [r s'] (-> & L' & [Hs' Hfr Hl' Hb]). split; [done|].
  exists L'. split; [split; [done|done|by eapply nodes_frame]|]. split; [by apply frame_keeps|]. split; [by eapply frame_gains|]. split; [by eapply bf_foreign|done].
Qed.
Next Obligation.
  intros s L A n b0 k buf off count [Hs Hl Hk] Hf Hr (Hsv & Ho & Hc) Hfit.
  eapply returns_mono; [exact (write_spec s L A n b0 k buf off count Hs Hl Hf Hr Hsv Ho Hc Hfit)|]. intros [r s'] (-> & L' & [Hs' Hfr Hl']). split; [done|].
  exists L'. split; [split; [done|done|by eapply nodes_frame]|]. split; [by apply frame_keeps|by eapply frame_gains].
Qed.
Next Obligation. intros s L A n size Hr Hsz. by apply alloc_ready. Qed.
Next Obligation. intros s L A n a k Hr Hf. by eapply free_ready. Qed.
Next Obligation.
  intros s L A n b k m [Hs Hl Hk] Hf Hm. destruct (foreign_write s L A n b k m Hs Hf Hm) as [Hs' Hfr].
  split; [split; [exact Hs'|done|by eapply nodes_frame]|]. split; [by apply frame_keeps|]. split; [by eapply frame_gains|by eapply bf_foreign].
Qed.

End Driver.
End NvmeDevice.
