(* ===== verification/NvmeTheorems.v ===== *)
(** * The NVMe device is a disk

    The theorems on [nvme_read] and [nvme_write], for any controller that
    keeps to [NvmeObeys], and a machine with such a controller. *)

From stdpp Require Import gmap.
From S2P Require Import Prelude Macros Locking Dll Mem FrameHdr Blocks FrameAlloc BuddyRep BuddyProof PageIface Slab SlabRep SlabProof HeapSpec HeapFrame BuddyTheorems HeapTheorems Device DeviceSpec Mmu MmuRep MmuProof MmuRange MmuTheorems NvmeHdr Nvme NvmeCache NvmeIo NvmeProof NvmeStart NvmeDev.

Module NvmeTheorems.
Import Macros Locking Mem FrameHdr Blocks FrameAlloc PageIface Slab SlabRep SlabProof HeapSpec HeapFrame DeviceSpec Mmu MmuRep MmuProof MmuRange MmuTheorems
  NvmeHdr Nvme NvmeCache NvmeIo NvmeProof NvmeStart NvmeDev.

Section Theorems.
Context {PA : PageAllocator} {HW : NvmeController} {Obeys : NvmeObeys}.

(** C35: [nvme_read] reads the disk.  Through the block cache, with whatever
    evictions and write-backs the blocks of the range need, it returns the
    number of bytes of the range that are on the device; that many bytes of
    the buffer are then those of the disk at the offset, nothing else of the
    memory of others changes, the contents of the disk are the same, and lock
    and interrupt flag are released.  The range must reach the end of block 0
    at least. *)
Theorem nvme_read_correct s L A n b0 k buf off count :
  nv_state s L A (2 * Z.to_nat (count / 512 + 2) + n) -> unlocked (nv_lock s) -> foreign s L b0 k ->
  read_range b0 k buf off count -> 512 <= off + count ->
  returns (nvme_read buf off count s) (fun '(r, s') => r = clipped (nblocks * 512) off count /\ exists L', was_read b0 k buf off s L A n r s' L').
Proof. apply read_spec. Qed.

(** C36: [nvme_write] of whole blocks within the device: it returns the size
    of the range, the disk then holds the bytes of the buffer there and what
    it held everywhere else, no memory of others changes, and lock and
    interrupt flag are released. *)
Theorem nvme_write_correct s L A n b0 k buf off count :
  nv_state s L A (2 * Z.to_nat (count / 512 + 2) + n) -> unlocked (nv_lock s) -> foreign s L b0 k ->
  read_range b0 k buf off count -> 512 <= off + count -> off mod 512 = 0 -> count mod 512 = 0 -> off + count <= nblocks * 512 ->
  returns (nvme_write buf off count s) (fun '(r, s') => r = count /\ exists L', was_written buf off s L A n count s' L').
Proof. apply write_spec. Qed.

(** C37: whole blocks within the device that [nvme_write] has written
    [nvme_read] gives back, into any other buffer, and whatever else was cached
    or dirty before. *)
Theorem nvme_write_read s L A n b0 k0 buf0 b1 k1 buf1 off count :
  nv_state s L A (2 * Z.to_nat (count / 512 + 2) + (2 * Z.to_nat (count / 512 + 2) + n)) -> unlocked (nv_lock s) ->
  foreign s L b0 k0 -> foreign s L b1 k1 -> read_range b0 k0 buf0 off count -> read_range b1 k1 buf1 off count ->
  512 <= off + count -> off mod 512 = 0 -> count mod 512 = 0 -> off + count <= nblocks * 512 ->
  returns ('(w, s') ← nvme_write buf0 off count s; '(r, s') ← nvme_read buf1 off count s'; Ret (w, r, s')) (fun '(w, r, s') =>
    w = count /\ r = count /\ forall i, 0 <= i < count -> rd (nv_mem s') (buf1 + i) = u8 (rd (nv_mem s) (buf0 + i))).
Proof.
  intros Hs Hu H0 H1 Hr0 Hr1 Hb Hoff Hc Hn. mcall (write_spec s L A _ b0 k0 buf0 off count Hs Hu H0 Hr0 Hb Hoff Hc Hn).
  intros [w s1] (-> & L1 & [Hs1 Hf1 Hu1]).
  mcall (read_spec s1 L1 _ n b1 k1 buf1 off count Hs1 Hu1 (bf_foreign _ _ _ _ _ Hf1 _ _ H1) Hr1 Hb).
  intros [r s2] (-> & L2 & [_ _ _ Hbuf]). apply returns_ret. destruct Hr1 as [Ho1 Hc1 _ Hb1 Hfit].
  replace (clipped (nblocks * 512) off count) with count in * by (unfold clipped; lia). do 2 (split; [done|]).
  intros i Hi. rewrite Hbuf, decide_True by lia. unfold overwritten. rewrite decide_True by lia. do 2 f_equal. lia.
Qed.

End Theorems.

(** ** A machine

    The memory of [HeapTheorems.Sample], its first gibibyte mapped at the
    offset, and a controller with four blocks of 512 bytes that serves a
    command as soon as it may. *)
Module Sample.
Import BuddyTheorems.BuddyTheorems.Sample HeapTheorems.HeapTheorems HeapTheorems.HeapTheorems.Sample.

(** *** The controller *)

Record ctrl := mk_ctrl { k_qid : Z; k_n : Z; k_h : Z; k_t : Z; k_p : Z; k_disk : mem }.

Fixpoint blit (n : nat) (dst src : Z) (from to : mem) : mem :=
  match n with O => to | S n => blit n (dst + 1) (src + 1) from (wr to dst (rd from src)) end.

Lemma blit_spec n dst src from to x :
  rd (blit n dst src from to) x = if decide (dst <= x < dst + Z.of_nat n) then u8 (rd from (src + (x - dst))) else rd to x.
Proof.
  revert dst src to. induction n as [|n IH]; intros dst src to; cbn [blit]; [by rewrite decide_False by lia|].
  rewrite IH, rd_wr. destruct (decide (x = dst)) as [->|Hne].
  - rewrite decide_False, decide_True by lia. do 2 f_equal. lia.
  - destruct (decide (dst + 1 <= x < _)), (decide (dst <= x < _)); try done; try lia. do 2 f_equal. lia.
Qed.

Definition completion (p : Z) (ok : bool) (c : nvme_scmd_t) : nvme_ccmd_t := mk_ccmd 0 0 0 0 (c_cid c) (p + if ok then 0 else 2).
Definition lbas_total : Z := 4.

Definition run (hw : ctrl) (d : dma) : ctrl * gmap Z nvme_ccmd_t * mem :=
  match dma_sq d !! k_h hw with
  | Some c =>
      if k_h hw =? dma_sqt d then (hw, dma_cq d, dma_mem d)
      else
        let ok := read_slba c + read_nlb c + 1 <=? lbas_total in
        let n := Z.to_nat ((read_nlb c + 1) * 512) in
        let p := dma_base d + c_prp1 c in
        let at_ := read_slba c * 512 in
        let read := c_opc c =? NVME_OPC_IO_READ in
        let m := if ok && read then blit n p at_ (k_disk hw) (dma_mem d) else dma_mem d in
        let D := if ok && negb read then blit n at_ p (dma_mem d) (k_disk hw) else k_disk hw in
        (mk_ctrl (k_qid hw) (k_n hw) ((k_h hw + 1) mod k_n hw) ((k_t hw + 1) mod k_n hw)
           (if k_t hw + 1 =? k_n hw then 1 - k_p hw else k_p hw) D,
         <[k_t hw := completion (k_p hw) ok c]> (dma_cq d), m)
  | None => (hw, dma_cq d, dma_mem d)
  end.

#[local] Instance controller : NvmeController := {| nvme_hw := ctrl; hw_run := run |}.

Definition idle (hw : nvme_hw) (qid n h t p : Z) (D : mem) : Prop :=
  hw = mk_ctrl qid n h t p D /\ 2 <= n /\ 0 <= h < n /\ (p = 0 \/ p = 1).

#[local] Program Instance obeys : NvmeObeys := {| hw_lba_size := 512; hw_lbas := lbas_total; hw_idle := idle |}.
Next Obligation.
  intros hw d n h t p D c len (-> & Hn & Hh & Hp) Hc Hsqt Hop -> Hlen Hal Hfit. exists 1%nat.
  assert (h =? dma_sqt d = false) as Hne.
  { apply Z.eqb_neq. rewrite Hsqt. destruct (decide (h + 1 = n)) as [Heq|]; [rewrite Heq, Z.mod_same; lia|rewrite Z.mod_small; lia]. }
  destruct (run (mk_ctrl (dma_qid d) n h t p D) d) as [[hw' cq'] m'] eqn:Hrun.
  pose proof Hrun as Hr. unfold run in Hr. cbn [k_h k_qid k_n k_t k_p k_disk] in Hr. rewrite Hc, Hne in Hr. injection Hr as <- <- <-.
  eexists (mk_answer _ _ _ _). cbn [an_hw an_cqe an_mem an_disk]. split_and!.
  - unfold poll_limit. lia.
  - intros j Hj. by replace j with 0%nat by lia.
  - cbn [runs Nat.iter nat_rect dma_step]. unfold dma_step. cbn [hw_run controller]. rewrite Hrun. reflexivity.
  - destruct Hp as [-> | ->], (_ <=? lbas_total); reflexivity.
  - split; [reflexivity|]. split; [done|]. split; [by apply Z.mod_pos_bound; lia|]. destruct (t + 1 =? n); lia.
  - cbn. destruct (_ <=? lbas_total) eqn:Hok; cbn [andb].
    + split; [by destruct Hp as [-> | ->]|]. destruct (c_opc c =? NVME_OPC_IO_READ) eqn:Hrd; cbn [negb]; (split; [reflexivity|]); intros x; rewrite blit_spec, Z2Nat.id by lia; done.
    + split; [by destruct Hp as [-> | ->]|]. done.
Qed.

(** *** Page tables: one page of a gibibyte at the offset *)

Definition tables : mem := write64 (hhdm_offset + 0x2000) 0x83 (write64 (hhdm_offset + 0x1000 + 256 * 8) 0x2003 ∅).
Definition vm (m : mm) : vmm := mk_vmm m tables (mk_spinlock 0 false) hhdm_offset (hhdm_offset + 0x1000) 39 48 0xfee00000 0.
Definition frames : gmap (list Z) Z := {[ [] := 1; [256] := 2 ]}.

Definition check_table (f i0 e : Z) : bool :=
  forallb (fun i => read64 (hhdm_offset + f * PAGE_SIZE + i * 8) tables =? if i =? i0 then e else 0) (seqZ 0 512).
Lemma page_entry m f i0 e i : check_table f i0 e = true -> ix i -> ent (vm m) f i = if i =? i0 then e else 0.
Proof.
  intros Hc Hi. unfold check_table in Hc. rewrite forallb_forall in Hc.
  apply Z.eqb_eq, Hc, list_elem_of_In, elem_of_seqZ. unfold ix in Hi. lia.
Qed.
Lemma root_entry m i : ix i -> ent (vm m) 1 i = if i =? 256 then 0x2003 else 0.
Proof. apply page_entry. vm_compute. reflexivity. Qed.
Lemma pdpt_entry m i : ix i -> ent (vm m) 2 i = if i =? 0 then 0x83 else 0.
Proof. apply page_entry. vm_compute. reflexivity. Qed.

Lemma frames_inv p f : frames !! p = Some f -> (p = [] /\ f = 1) \/ (p = [256] /\ f = 2).
Proof. unfold frames. intros [[<- <-]|[_ [<- <-]%lookup_singleton_Some]]%lookup_insert_Some; auto. Qed.

Lemma vm_tables_ok m F : pa_ok m F -> mm_pages_count m = 257 -> (forall x, x ∈ F <-> 5 <= x < 257) ->
  tables_ok (vm m) (v_kernel_pml4 (vm m)) F frames.
Proof.
  intros Hpa Hn HF. split.
  - done.
  - cbn. by rewrite Hn.
  - by exists 1.
  - intros p f [[-> ->]|[-> ->]]%frames_inv; cbn; rewrite Hn, HF; lia.
  - intros p q f [[-> ->]|[-> ->]]%frames_inv [[-> ?]|[-> ?]]%frames_inv; done.
  - intros p f i [[-> ->]|[-> ->]]%frames_inv _ Hi; unfold MmuRep.entry_ok; [rewrite root_entry by done|rewrite pdpt_entry by done].
    + destruct (Z.eqb_spec i 256) as [->|Hne]; [done|]. unfold frames. rewrite lookup_insert_ne, lookup_singleton_ne by (cbn; congruence). by left.
    + unfold frames. rewrite lookup_insert_ne, lookup_singleton_ne by done. destruct (i =? 0); [by right|by left].
  - intros p i f [[Hp ->]|[Hp ->]]%frames_inv; [by destruct p|]. destruct p as [|? []]; [|done..]. injection Hp as ->. split; [done|by eexists].
Qed.

Lemma vm_walk m x : hhdm_offset <= x < hhdm_offset + 2 ^ 30 -> translation (vm m) (v_kernel_pml4 (vm m)) x = Some (1%nat, 0x83).
Proof.
  intros Hx. assert (pml4_index x = 256 /\ pdpt_index x = 0) as [H4 H3].
  { unfold pml4_index, pdpt_index, hhdm_offset in *. rewrite !index_div by lia. Z.to_euclidean_division_equations. lia. }
  unfold translation, path. rewrite H4, H3. cbn [hw_walk].
  change (pml_get (v_kernel_pml4 (vm m)) 256 (vm m)) with (ent (vm m) 1 256). rewrite root_entry by done. cbn [Z.eqb Pos.eqb].
  change (next_table (vm m) 0x2003) with (taddr (vm m) 2). change (pml_get (taddr (vm m) 2) 0 (vm m)) with (ent (vm m) 2 0).
  rewrite pdpt_entry by done. done.
Qed.

Lemma vm_sample m F h : pa_ok m F -> mm_pages_count m = 257 -> (forall x, x ∈ F <-> 5 <= x < 257) ->
  h_offset h = hhdm_offset -> mm_pages_count (h_mm h) = 257 -> vm_ok (vm m) h.
Proof.
  intros Hpa Hc HF Ho Hn. split; [|done|done|].
  - exists m, F, frames. by apply vm_tables_ok.
  - intros x Hx. assert (hhdm_offset <= x < hhdm_offset + 2 ^ 30) as Hr.
    { unfold static in Hx. rewrite Ho, Hn in Hx. unfold PAGE_SIZE in Hx. lia. }
    unfold phys_of. rewrite vm_walk by done. split; [done|]. cbn. f_equal. rewrite Ho. unfold hw_phys. change (Z.land 131 (field (psize 1) 52)) with 0.
    change (psize 1) with 30. unfold hhdm_offset in *. Z.to_euclidean_division_equations. lia.
Qed.

(** *** An idle queue and an empty cache *)

Definition array {A} (n : Z) (f : Z -> A) : gmap Z A := list_to_map ((fun i => (i, f i)) <$> seqZ 0 n).
Lemma array_lookup {A} n (f : Z -> A) i : 0 <= i < n -> array n f !! i = Some (f i).
Proof.
  intros Hi. apply elem_of_list_to_map_1.
  - rewrite <- list_fmap_compose. apply NoDup_fmap_2; [by intros x y|apply NoDup_seqZ].
  - apply list_elem_of_fmap. exists i. split; [done|]. apply elem_of_seqZ. lia.
Qed.
Lemma array_dom {A} n (f : Z -> A) a : a ∈ dom (array n f) -> 0 <= a < n.
Proof. intros [x Hx%elem_of_list_to_map_2]%elem_of_dom. apply list_elem_of_fmap in Hx as (i & [= <- _] & Hi%elem_of_seqZ). lia. Qed.

Definition table {A} (f : Z -> A) : gmap Z A := array NVME_NCACHES f.
Lemma table_lookup {A} (f : Z -> A) i : index_ok i -> table f !! i = Some (f i).
Proof. exact (array_lookup NVME_NCACHES f i). Qed.
Lemma table_dom {A} (f : Z -> A) a : a ∈ dom (table f) -> index_ok a.
Proof. exact (array_dom NVME_NCACHES f a). Qed.
#[local] Opaque table.

Definition node_at (i : Z) : nvme_cache_dll_node := mk_node i (if i =? 999 then NULL else Ref (i + 1)) (if i =? 0 then NULL else Ref (i - 1)).
Definition container : nvme_cache_container :=
  mk_container (table (fun i => mk_entry (Ref i) NVME_CACHE_EMPTY NVME_IDX_INV 0)) (table (fun _ => empty_slot)) (Ref 0) (Ref 999).
Definition queue (p : Z) : nvme_queue_ctx :=
  mk_queue (mk_sq 0 {[0 := zero_scmd; 1 := zero_scmd]} 0 0 0 0 1 0) (mk_cq 0 {[0 := zero_ccmd; 1 := zero_ccmd]} 0 0 0 1) 2 1 p.
Definition machine (v : vmm) (h : heap) (p : Z) (D : mem) : nvms :=
  mk_nvms (mk_host h v (mk_ctrl 1 2 0 0 1 D)) (mk_ns 1 (queue p) container 512 8 4) (table node_at) ∅ (mk_spinlock 0 false).

Lemma nodes_dll : Dll.dll (table node_at) (Ref 0) (seqZ 0 NVME_NCACHES).
Proof.
  split; [|apply NoDup_seqZ]. assert (forall (k : nat) i, 0 <= i -> i + Z.of_nat k = NVME_NCACHES ->
    Dll.dseg (table node_at) (nd_prev (node_at i)) (if i =? 1000 then NULL else Ref i) NULL (seqZ i (Z.of_nat k))) as Hd.
  { induction k as [|k IH]; intros i Hi Hk; unfold NVME_NCACHES in Hk; [by replace i with 1000 by lia|].
    rewrite seqZ_cons by lia. destruct (Z.eqb_spec i 1000); [lia|]. split; [done|]. exists (node_at i).
    split; [apply table_lookup; unfold index_ok, NVME_NCACHES; lia|]. split; [done|].
    replace (Z.pred (Z.of_nat (S k))) with (Z.of_nat k) by lia. specialize (IH (Z.succ i) ltac:(lia) ltac:(unfold NVME_NCACHES; lia)).
    assert (nd_prev (node_at (Z.succ i)) = Ref i) as Hpv by (cbn; destruct (Z.eqb_spec (Z.succ i) 0); [lia|f_equal; lia]). rewrite Hpv in IH.
    change (nxt (node_at i)) with (if i =? 999 then NULL else Ref (i + 1)).
    destruct (Z.eqb_spec i 999), (Z.eqb_spec (Z.succ i) 1000); try lia; exact IH. }
  specialize (Hd (Z.to_nat NVME_NCACHES) 0). rewrite Z2Nat.id in Hd by done. by apply Hd.
Qed.

Lemma machine_fresh v h p D : fresh (machine v h p D) (seqZ 0 NVME_NCACHES).
Proof.
  split.
  - intros i Hi. eexists. split; [by apply table_lookup|by eexists].
  - intros i Hi. by apply (table_lookup (fun _ => empty_slot)).
  - done.
  - exists (seqZ 0 NVME_NCACHES). split_and!; [apply nodes_dll|reflexivity|]. apply Forall2_same_length_lookup. split; [done|].
    intros q i j Hq Hq'. assert (j = i) as -> by congruence. apply list_elem_of_lookup_2, elem_of_seqZ in Hq.
    assert (index_ok i) by (unfold index_ok; lia). split; eexists; (split; [by apply table_lookup|done]).
  - split; [apply NoDup_seqZ|]. intros i. rewrite elem_of_seqZ. unfold index_ok. lia.
Qed.

Lemma machine_queue v h p D L : L !! p = Some 16 -> (forall x, p <= x < p + 16 -> rd (h_mem h) x = 0) ->
  queue_ok (queue p) (nv_host (machine v h p D)) L D.
Proof.
  intros Hp Hz. assert (forall i, 0 <= i < 2 -> i = 0 \/ i = 1) as H2 by lia. split; try done; try (cbn; lia).
  - intros i [-> | ->]%H2; by eexists.
  - intros i [-> | ->]%H2; by eexists.
  - split_and!; [done|done|done|done|by right].
  - by exists 16.
Qed.

Lemma machine_geometry q c : geometry (mk_ns 1 q c 512 8 4).
Proof. split; [reflexivity|reflexivity|reflexivity|vm_compute; discriminate|split; [vm_compute; discriminate|reflexivity]]. Qed.

(** Three blocks on the heap of [HeapTheorems.Sample]. *)
Lemma heap_blocks : exists h F own L p b0 b1, heap_abs h F own L /\ spare F 12 /\ hdone heap0 h /\
  (L !! p = Some 16 /\ L !! b0 = Some 1024 /\ L !! b1 = Some 1024) /\ (p <> b0 /\ p <> b1) /\ forall x, p <= x < p + 16 -> rd (h_mem h) x = 0.
Proof.
  destruct heap0_abs as (F & Ha & HF). assert (spare F 15) as Hsp by (apply (spare_run _ 1); intros x Hx; apply HF; lia).
  destruct (returns_inv _ _ (kcalloc_later heap0 F ∅ ∅ 14 16 Ha ltac:(done) Hsp)) as ([p h1] & _ & F1 & own1 & L1 & -> & Ha1 & _ & _ & Hl1 & Hsp1 & Hz).
  destruct (returns_inv _ _ (kcalloc_later h1 F1 own1 _ 13 1024 Ha1 ltac:(done) Hsp1)) as ([b0 h2] & _ & F2 & own2 & L2 & -> & Ha2 & Hn2 & _ & Hl2 & Hsp2 & _).
  destruct (returns_inv _ _ (kcalloc_later h2 F2 own2 _ 12 1024 Ha2 ltac:(done) Hsp2)) as ([b1 h3] & _ & F3 & own3 & L3 & -> & Ha3 & Hn3 & _ & Hl3 & Hsp3 & _).
  change (capacity 16) with 16 in *. change (capacity 1024) with 1024 in *.
  assert (p <> b0) as H0 by (intros ->; by rewrite lookup_insert_eq in Hn2).
  apply lookup_insert_None in Hn3 as [Hn3 Hne]. assert (p <> b1) as H1 by (intros ->; by rewrite lookup_insert_eq in Hn3).
  pose proof (later_trans _ _ _ _ _ _ Hl2 Hl3) as Hl.
  exists h3, F3, own3, (<[b1 := 1024]> (<[b0 := 1024]> (<[p := 16]> ∅))), p, b0, b1. split; [exact Ha3|]. split; [exact Hsp3|]. split; [by etrans; [apply Hl1|apply Hl]|].
  split; [|split; [done|]].
  - rewrite lookup_insert_eq, !(lookup_insert_ne _ b1), lookup_insert_eq, lookup_insert_ne, lookup_insert_eq by done. done.
  - intros x Hx. rewrite (la_mem _ _ _ _ Hl p 16 x); [by apply Hz|apply lookup_insert_eq|done].
Qed.

Lemma heap0_facts : h_offset heap0 = hhdm_offset /\ mm_pages_count (h_mm heap0) = 257.
Proof.
  destruct st0_startable as (F & Hst & _). destruct st0_ready as (_ & _ & _ & Hn & _).
  pose proof (slab_init_spec st0 F ∅ hhdm_offset Hst) as Hi. rewrite heap0_init in Hi. destruct Hi as (_ & Hmm & _ & Hoff). split; [exact Hoff|]. by rewrite Hmm.
Qed.

(** A machine with the disk [D] that can start reading and writing, with a
    heap of which [p] is the driver's. *)
Lemma machine_state h F own L p n D :
  heap_abs h F own L -> spare F n -> h_offset h = hhdm_offset -> mm_pages_count (h_mm h) = 257 -> L !! p = Some 16 -> (forall x, p <= x < p + 16 -> rd (h_mem h) x = 0) ->
  exists v, nv_state (machine v h p D) L (fun x => u8 (rd D x)) n /\ forall b k, L !! b = Some k -> 0 < k -> p <> b -> foreign (machine v h p D) L b k.
Proof.
  intros Ha Hsp Hho Hcnt Hp Hz. assert (exists v, vm_ok v h) as [v Hv].
  { destruct st0_ready as (B & Hinv & Hco & Hc & HF). exists (vm st0). apply (vm_sample st0 (freepages B)); [|exact Hc|exact HF|exact Hho|exact Hcnt].
    exists B. split; [exact Hinv|]. split; [exact Hco|reflexivity]. }
  exists v. split.
  - exists F, own, ∅, (fun _ => []), (seqZ 0 NVME_NCACHES), D. split; [|exact Hsp].
    apply fresh_inv; [apply machine_fresh|exact Ha|exact Hv|exact (machine_queue v h p D L Hp Hz)|apply machine_geometry].
  - intros b k Hb Hk Hne. split; [split; [done|]|].
    1: intros [[x Hx]|[Hx|(i & e & Hi & He & Hs & _)]].
    + cbn in Hx. by rewrite lookup_empty in Hx.
    + apply Hne. symmetry. exact Hx.
    + change (table (fun i => mk_entry (Ref i) NVME_CACHE_EMPTY NVME_IDX_INV 0) !! i = Some e) in He. rewrite (table_lookup _ i Hi) in He.
      injection He as <-. by apply Hs.
    + intros Hx%table_dom. pose proof (live_not_static _ _ _ _ _ _ b Ha Hb ltac:(lia)) as Hst. unfold static in Hst. rewrite Hho in Hst.
      unfold index_ok, NVME_NCACHES, hhdm_offset in *. lia.
Qed.

Lemma machine_ready : exists s L b0 b1, nv_state s L (fun _ => 0) 12 /\ unlocked (nv_lock s) /\ foreign s L b0 1024 /\ foreign s L b1 1024.
Proof.
  destruct heap_blocks as (h & F & own & L & p & b0 & b1 & Ha & Hsp & Hd & (Hp & H0 & H1) & [Hne0 Hne1] & Hz). destruct heap0_facts as [Hoff Hcnt].
  assert (h_offset h = hhdm_offset) as Hho by (rewrite (hd_off _ _ Hd); exact Hoff).
  assert (mm_pages_count (h_mm h) = 257) as Hhc by (rewrite (hd_count _ _ Hd); exact Hcnt).
  destruct (machine_state h F own L p 12 ∅ Ha Hsp Hho Hhc Hp Hz) as (v & Hs & Hf).
  exists (machine v h p ∅), L, b0, b1. split; [|split; [done|split; by apply Hf]]. exact Hs.
Qed.

Lemma nvme_read_correct_witness : exists s b0,
  returns (nvme_read (b0 + 7) 100 700 s) (fun '(r, s') => r = 700 /\ rd (nv_mem s') (b0 + 8) = 0).
Proof.
  destruct machine_ready as (s & L & b0 & b1 & Hs & Hu & H0 & _). exists s, b0.
  eapply returns_mono; [apply (nvme_read_correct s L (fun _ => 0) 6 b0 1024 (b0 + 7) 100 700 Hs Hu H0); [split; lia|lia]|].
  intros [r s'] (-> & L' & [_ _ _ Hb]). split; [reflexivity|]. rewrite Hb by lia. by rewrite decide_True by (change (clipped (nblocks * 512) 100 700) with 700; lia).
Defined.

Lemma nvme_write_correct_witness : exists s b0,
  returns (nvme_write b0 512 1024 s) (fun '(r, s') => r = 1024).
Proof.
  destruct machine_ready as (s & L & b0 & b1 & Hs & Hu & H0 & _). exists s, b0.
  eapply returns_mono; [apply (nvme_write_correct s L (fun _ => 0) 4 b0 1024 b0 512 1024 Hs Hu H0); [split; lia|lia|done|done|done]|].
  by intros [r s'] [-> _].
Defined.

Lemma nvme_write_read_witness : exists s b0 b1,
  returns ('(w, s') ← nvme_write b0 512 512 s; '(r, s') ← nvme_read b1 512 512 s'; Ret (w, r, s')) (fun '(w, r, s') =>
    w = 512 /\ r = 512 /\ forall i, 0 <= i < 512 -> rd (nv_mem s') (b1 + i) = u8 (rd (nv_mem s) (b0 + i))).
Proof.
  destruct machine_ready as (s & L & b0 & b1 & Hs & Hu & H0 & H1). exists s, b0, b1.
  apply (nvme_write_read s L (fun _ => 0) 0 b0 1024 b0 b1 1024 b1 512 512 Hs Hu H0 H1); [split; lia|split; lia|lia|done|done|done].
Defined.

End Sample.
End NvmeTheorems.
