(* ===== verification/DeviceTheorems.v ===== *)
(** * Partitions of a disk

    What [partition_disk_device] finds on a disk with a GUID partition table,
    and what the devices it makes read and write: for every driver that keeps
    to [DriverOk], with the NVMe driver as the example. *)

From stdpp Require Import gmap strings.
From S2P Require Import Prelude Macros Locking Dll Mem CString FrameHdr Blocks FrameAlloc BuddyRep BuddyProof PageIface Slab SlabRep SlabProof HeapSpec HeapFrame BuddyTheorems HeapTheorems Kprintf KprintfSpec KprintfTheorems Device DeviceSpec PartitionScan Mmu MmuTheorems NvmeHdr Nvme NvmeCache NvmeIo NvmeProof NvmeStart NvmeDev NvmeDevice NvmeTheorems.

Module DeviceTheorems.
Import Macros Locking Mem CString FrameHdr FrameAlloc PageIface Slab SlabProof HeapSpec HeapFrame Device DeviceSpec PartitionScan.

Section Theorems.
Context {PA : PageAllocator} {Drv : BlockDriver} {Ok : DriverOk}.


(** C39: reading a partition with a request for less than 2 GiB that ends
    below [2^63], so that the sum in the check does not wrap.  A range within
    the partition that the driver serves gives the bytes of the disk from the
    partition's first block on and changes nothing else of the memory of
    others; a range that reaches beyond its end is refused with -1 and changes
    nothing. *)
Theorem partition_read_correct s dev vdisk bsize bcount lba L A n b0 k buf off count :
  partition_of s dev vdisk bsize bcount lba -> dk_ok (ds_drv s) L A (dk_cost count + n) -> dk_foreign (ds_drv s) L b0 k ->
  read_range b0 k buf off count -> (off + count <= bcount * bsize -> dk_reads (shifted lba bsize off) count) ->
  returns (dev_read (Ref dev) buf off count s) (fun '(r, s') =>
    if decide (off + count <= bcount * bsize) then r = count /\ exists d' L', s' = set_drv d' s /\
      dk_ok d' L' A n /\ keeps dk_foreign (eq b0) (ds_drv s) d' L L' /\ gains dk_foreign [] (ds_drv s) d' L L' /\ dk_foreign d' L' b0 k /\
      forall x, b0 <= x < b0 + k -> rd (drv_mem d') x = if decide (buf <= x < buf + count) then A (shifted lba bsize off + (x - buf)) else rd (ds_mem s) x
    else r = -1 /\ s' = s).
Proof. apply partition_read_spec. Qed.

(** A range at the end of the address space passes the check of every
    partition with blocks of 512 bytes: the sum [off + count] wraps to 0. *)
Lemma out_of_range_wraps t f bcount r w sp : 0 <= bcount -> out_of_range (mk_device t f 512 bcount r w sp) (2 ^ 64 - 512) 512 = false.
Proof. intros Hb. unfold out_of_range. cbn [dv_bsize dv_bcount]. rewrite Z.gtb_ltb. apply Z.ltb_ge. exact Hb. Qed.

(** C40: a request that ends below [2^63] does not write outside of the
    partition.  For such a request of less than 2 GiB, of whole blocks where
    it is within the partition, [dev_write] returns with a disk whose bytes
    outside of the partition are the same; within the partition the range
    holds the bytes of the buffer, or, if the range reaches beyond the
    partition, nothing was written and the result is -1.  Where the end wraps,
    [out_of_range_wraps] shows that the check passes. *)
Theorem partition_write_confined s dev vdisk bsize bcount lba L A n b0 k buf off count :
  partition_of s dev vdisk bsize bcount lba -> dk_ok (ds_drv s) L A (dk_cost count + n) -> dk_foreign (ds_drv s) L b0 k ->
  read_range b0 k buf off count -> (off + count <= bcount * bsize -> dk_writes (shifted lba bsize off) count) ->
  returns (dev_write (Ref dev) buf off count s) (fun '(r, s') => exists L' A',
    dk_ok (ds_drv s') L' A' n /\ keeps dk_foreign (fun _ => False) (ds_drv s) (ds_drv s') L L' /\
    gains dk_foreign [] (ds_drv s) (ds_drv s') L L' /\ ds_devices s' = ds_devices s /\
    (forall x, ~ (lba * bsize <= x < (lba + bcount) * bsize) -> A' x = A x) /\
    if decide (off + count <= bcount * bsize)
    then r = count /\ forall i, 0 <= i < bcount * bsize ->
      A' (lba * bsize + i) = if decide (off <= i < off + count) then u8 (rd (ds_mem s) (buf + (i - off))) else A (lba * bsize + i)
    else r = -1 /\ s' = s).
Proof.
  intros Hp Hok Hf Hr Hw. pose proof (po_bsize _ _ _ _ _ _ Hp) as Hbs. pose proof (po_fits _ _ _ _ _ _ Hp) as (Hl & Hc & _). destruct Hr as [Ho Hcn He Hb Hk].
  eapply returns_mono; [apply (partition_write_spec s dev vdisk bsize bcount lba L A n b0 k buf off count Hp Hok Hf); [by split|done]|].
  intros [r s']. destruct (decide (off + count <= bcount * bsize)) as [Hin|Hout].
  - intros (-> & d' & L' & -> & Hok' & Hkp & Hgn). exists L', (overwritten (ds_mem s) buf (shifted lba bsize off) count A). do 4 (split; [done|]). split.
    + intros x Hx. unfold overwritten, shifted. rewrite decide_False by nia. done.
    + split; [done|]. intros i Hi. unfold overwritten, shifted. destruct (decide (off <= i < off + count)).
      * rewrite decide_True by lia. do 2 f_equal. lia.
      * by rewrite decide_False by lia.
  - intros [-> ->]. exists L, A. split; [eapply dk_less; [|done]; lia|]. split; [apply keeps_refl|]. by split; [apply gains_refl|].
Qed.

End Theorems.

(** ** A disk with a partition

    The machine of [NvmeTheorems.Sample]; on block 1 of its disk is the header
    of a table with one entry, on block 2 the entry, for block 3. *)
Module Sample.
Import Mmu MmuTheorems NvmeHdr Nvme NvmeProof NvmeDev NvmeDevice.
Import BuddyTheorems.BuddyTheorems.Sample HeapTheorems.HeapTheorems HeapTheorems.HeapTheorems.Sample NvmeTheorems.NvmeTheorems.Sample.
#[local] Existing Instances controller obeys.

Definition disk : mem := wr (wr (wr (wr (wr (wr (write_bytes 512 signature ∅) 584 2) 592 1) 596 128) 1024 1) 1056 3) 1064 3.
Definition disk_bytes (x : Z) : Z := u8 (rd disk x).



Definition lit (x : string) : Z := if String.eqb x "EFI PART" then 0xffffffff80200000 else 0xffffffff80200040.
Definition rodata : mem := write_bytes (lit "EFI PART") signature (write_bytes (lit "%sp%lu") (format_text ++ [0]) ∅).
Definition image_heap : heap := match slab_init (bss_heap st0 rodata hhdm_offset) with Ret h => h | _ => bss_heap st0 rodata hhdm_offset end.

Lemma image_heap_abs : exists F, heap_abs image_heap F ∅ ∅ /\ h_mem image_heap = rodata /\ h_offset image_heap = hhdm_offset /\ mm_pages_count (h_mm image_heap) = 257 /\ spare F 15.
Proof.
  destruct st0_startable as (F & Hst & HF). exists F. pose proof (slab_init_spec st0 F rodata hhdm_offset Hst) as Hi.
  destruct (slab_init_caches st0 rodata hhdm_offset) as (cs & Heq & _). unfold image_heap. rewrite Heq in Hi |- *. destruct Hi as (Ha & Hmm & Hmem & Hoff).
  split; [exact Ha|]. split; [exact Hmem|]. split; [exact Hoff|]. split; [rewrite Hmm; vm_compute; reflexivity|]. apply (spare_run _ 1). intros x Hx. apply HF. lia.
Qed.
#[local] Opaque image_heap.

Lemma rodata_literals h : h_offset h = hhdm_offset -> mm_pages_count (h_mm h) = 257 -> (forall x, static h x -> rd (h_mem h) x = rd rodata x) -> literals lit h.
Proof.
  intros Ho Hc Hm. assert (forall x, 0xffffffff80200000 <= x -> static h x) as Hst.
  { intros x Hx. right. rewrite Ho, Hc. unfold hhdm_offset, PAGE_SIZE. lia. }
  split.
  - eapply cstr_ext; [|apply (cstr_written (lit "%sp%lu") format_text ∅); by repeat constructor]. intros x Hx. rewrite Hm by (apply Hst; cbn in *; lia).
    unfold rodata. rewrite rd_write_bytes by (by repeat constructor). rewrite decide_False; [done|]. cbn in *. lia.
  - intros x Hx. apply Hst. cbn in *. lia.
  - intros i Hi. rewrite Hm by (apply Hst; cbn in *; lia). unfold rodata. rewrite rd_write_bytes by (by repeat constructor).
    rewrite decide_True by (cbn in *; lia). f_equal. lia.
  - intros x Hx. apply Hst. cbn in *. lia.
Qed.

Definition disk_name : list Z := Eval vm_compute in map (fun a => Z.of_N (Ascii.N_of_ascii a)) (String.list_ascii_of_string "nvme1n1").
Definition disk_device : device := mk_device DEV_BLOCK 0 512 4 driver_fn driver_fn NULL.

(** The driver's block and the one of the disk's device, with its name. *)
Lemma disk_heap : exists h F own L p vd, heap_abs h F own L /\ spare F 13 /\ hdone image_heap h /\ (forall x, static h x -> rd (h_mem h) x = rd rodata x) /\
  (L !! p = Some 16 /\ L !! vd = Some 512 /\ p <> vd) /\ (forall x, p <= x < p + 16 -> rd (h_mem h) x = 0) /\ cstr (h_mem h) (vd + OFFSET_NAME) disk_name.
Proof.
  destruct image_heap_abs as (F & Ha & Hm & _ & _ & Hsp).
  destruct (returns_inv _ _ (kcalloc_later image_heap F ∅ ∅ 14 16 Ha ltac:(done) Hsp)) as ([p h1] & _ & F1 & own1 & L1 & -> & Ha1 & _ & _ & Hl1 & Hsp1 & Hz).
  destruct (returns_inv _ _ (kcalloc_later h1 F1 own1 _ 13 336 Ha1 ltac:(done) Hsp1)) as ([vd h2] & _ & F2 & own2 & L2 & -> & Ha2 & Hn2 & _ & Hl2 & Hsp2 & _).
  change (capacity 16) with 16 in *. change (capacity 336) with 512 in *. assert (p <> vd) as Hne by (intros ->; by rewrite lookup_insert_eq in Hn2).
  pose proof (later_trans _ _ _ _ _ _ Hl1 Hl2) as Hl. set (m := write_bytes (vd + 16) (disk_name ++ [0]) (h_mem h2)).
  assert (forall x, ~ (vd <= x < vd + 512) -> rd m x = rd (h_mem h2) x) as Hout.
  { intros x Hx. unfold m. rewrite rd_write_bytes by (by repeat constructor). rewrite decide_False; [done|]. cbn. lia. }
  destruct (hkeep_write (eq vd) h2 F2 own2 _ vd 512 m Ha2 (lookup_insert_eq _ _ _) eq_refl Hout) as [Ha3 Hk].
  exists (set_mem m h2), F2, own2, (<[vd := 512]> (<[p := 16]> ∅)), p, vd. split; [exact Ha3|]. split; [exact Hsp2|]. split; [by etrans; [apply Hl|apply Hk]|].
  split; [|split; [|split]].
  - intros x Hx. rewrite (hk_static _ _ _ _ _ Hk) by exact Hx. rewrite <- Hm. apply (la_static _ _ _ _ Hl). by rewrite <- (static_done _ _ _ (la_done _ _ _ _ Hl)).
  - rewrite lookup_insert_eq, lookup_insert_ne, lookup_insert_eq by done. done.
  - intros x Hx. cbn [set_mem h_mem]. destruct (hk_live _ _ _ _ _ Hk p 16) as [_ Hx2]; [by rewrite lookup_insert_ne, lookup_insert_eq by done|done|].
    cbn [set_mem h_mem] in Hx2. rewrite Hx2 by done. rewrite (la_mem _ _ _ _ Hl2 p 16 x); [by apply Hz|apply lookup_insert_eq|done].
  - apply cstr_written. by repeat constructor.
Qed.

Lemma one_disk (d : nvms) L vd :
  foreign d L vd 512 -> cstr (h_mem (nv_heap d)) (vd + OFFSET_NAME) disk_name -> literals lit (nv_heap d) ->
  disk_ok lit (mk_devs d {[vd := mk_partition disk_device None]} (mk_spinlock 0 false)) L vd 512 disk_name.
Proof.
  intros Hf Hn Hl. split; cbn [ds_devices ds_drv ds_kprintf_lock].
  - exists disk_device, None. split; [apply (lookup_singleton_eq (M := gmap Z))|done].
  - by exists 512.
  - split; [exact Hn|cbn; lia].
  - intros a [x Hx]. apply lookup_singleton_Some in Hx as [<- _]. by exists 512.
  - exact Hl.
  - done.
Qed.

(** The machine with the disk's device only. *)
Lemma disk_ready : exists d L vd,
  disk_ok lit (mk_devs d {[vd := mk_partition disk_device None]} (mk_spinlock 0 false)) L vd 512 disk_name /\ dk_ok d L disk_bytes 13.
Proof.
  destruct disk_heap as (h & F & own & L & p & vd & Ha & Hsp & Hd & Hst & (Hp & Hv & Hne) & Hz & Hn). destruct image_heap_abs as (_ & _ & _ & Hoff & Hcnt & _).
  assert (h_offset h = hhdm_offset) as Hho by (rewrite (hd_off _ _ Hd); exact Hoff).
  assert (mm_pages_count (h_mm h) = 257) as Hhc by (rewrite (hd_count _ _ Hd); exact Hcnt).
  destruct (machine_state h F own L p 13 disk Ha Hsp Hho Hhc Hp Hz) as (v & Hs & Hf). exists (machine v h p disk), L, vd.
  specialize (Hf vd 512 Hv ltac:(done) Hne). assert (nv_heap (machine v h p disk) = h) as Hh by exact eq_refl.
  assert (unlocked (nv_lock (machine v h p disk))) as Hlk by exact eq_refl.
  assert (forall a, a ∈ dom (nv_nodes (machine v h p disk)) -> index_ok a) as Hnd by exact (table_dom node_at).
  revert Hs Hf Hh Hlk Hnd. generalize (machine v h p disk). intros d Hs Hf Hh Hlk Hnd. split.
  - apply one_disk; [exact Hf|rewrite Hh; exact Hn|rewrite Hh; by apply rodata_literals].
  - split; [exact Hs|exact Hlk|]. intros a Hx%Hnd. right. left. rewrite Hh, Hho. unfold index_ok, NVME_NCACHES, hhdm_offset in *. lia.
Qed.


(** The partition, at [dev], with a buffer of a caller. *)
Definition partition_device_of (vd : Z) : partition_device := part_device vd 512 (mk_part 0 3 1).
Lemma partition_ready : exists d L vd dev b0,
  partition_of (mk_devs d (<[dev := partition_device_of vd]> {[vd := mk_partition disk_device None]}) (mk_spinlock 0 false)) dev vd 512 1 3 /\
  dk_ok d L disk_bytes 12 /\ dk_foreign d L b0 512 /\ forall x, b0 <= x < b0 + 512 -> rd (drv_mem d) x = 0.
Proof.
  destruct disk_ready as (d & L & vd & Hd & Hok). destruct (dd_block _ _ _ _ _ _ Hd) as (k & Hk & _). cbn [ds_drv] in Hk.
  destruct (returns_inv _ _ (dk_alloc_ok d L disk_bytes 12 512 Hok ltac:(done))) as ([b0 h] & _ & L' & Hok' & Hkp & _ & Hf & _ & Hfr & Hz).
  exists (drv_set_heap h d), L', vd, (vd + 1), b0. split; [|split; [exact Hok'|split; [exact Hf|]]].
  - split; cbn [ds_devices].
    + exists DEV_BLOCK, 0. apply (lookup_insert_eq (M := gmap Z)).
    + exists disk_device, None. split; [|done]. rewrite lookup_insert_ne by lia. apply (lookup_singleton_eq (M := gmap Z)).
    + done.
    + change dk_size with 2048. lia.
  - intros x Hx. unfold drv_mem. rewrite dk_heap_set. by apply Hz.
Qed.

Lemma partition_read_correct_witness : exists d vd dev b0,
  let s := mk_devs d (<[dev := partition_device_of vd]> {[vd := mk_partition disk_device None]}) (mk_spinlock 0 false) in
  returns (dev_read (Ref dev) b0 0 512 s) (fun '(r, s') => r = 512 /\ rd (ds_mem s') b0 = disk_bytes 1536).
Proof.
  destruct partition_ready as (d & L & vd & dev & b0 & Hp & Hok & Hf & _). exists d, vd, dev, b0. cbv zeta.
  eapply returns_mono; [apply (partition_read_correct _ dev vd 512 1 3 L disk_bytes 6 b0 512 b0 0 512 Hp Hok Hf); [split; lia|done]|].
  intros [r s']. rewrite decide_True by lia. intros (-> & d' & L' & -> & _ & _ & _ & _ & Hx). split; [done|].
  change (ds_mem (set_drv d' _)) with (drv_mem d'). rewrite Hx by lia. rewrite decide_True by lia. f_equal. unfold shifted. lia.
Defined.

Lemma partition_write_confined_witness : exists d vd dev b0,
  let s := mk_devs d (<[dev := partition_device_of vd]> {[vd := mk_partition disk_device None]}) (mk_spinlock 0 false) in
  returns (dev_write (Ref dev) b0 0 512 s) (fun '(r, _) => r = 512) /\ returns (dev_write (Ref dev) b0 512 512 s) (fun '(r, s') => r = -1 /\ s' = s).
Proof.
  destruct partition_ready as (d & L & vd & dev & b0 & Hp & Hok & Hf & _). exists d, vd, dev, b0. cbv zeta. split.
  - eapply returns_mono; [apply (partition_write_confined _ dev vd 512 1 3 L disk_bytes 6 b0 512 b0 0 512 Hp Hok Hf); [split; lia|done]|].
    intros [r s'] (L' & A' & _ & _ & _ & _ & _ & H). rewrite decide_True in H by lia. apply H.
  - eapply returns_mono; [apply (partition_write_confined _ dev vd 512 1 3 L disk_bytes 6 b0 512 b0 512 512 Hp Hok Hf); [split; lia|intros; lia]|].
    intros [r s'] (L' & A' & _ & _ & _ & _ & _ & H). rewrite decide_False in H by lia. exact H.
Defined.

End Sample.
End DeviceTheorems.
