(* ===== verification/VectorSpec.v ===== *)
(** * Vectors refine lists

    [vec_rep v L m l]: the vector [v] holds the 64-bit values [l], in a live
    block of the heap once it has grown.  [vector_push_back] appends, also
    when the array moves to a larger block; [vector_remove] takes out the
    element at an index; [vector_find] gives the first index of a value. *)

From stdpp Require Import gmap.
From S2P Require Import Prelude Macros Mem FrameHdr FrameAlloc PageIface Slab SlabRep SlabOps SlabProof HeapSpec HeapFrame RunQueue Vector.

Module VectorSpec.
Import Macros Mem FrameHdr FrameAlloc PageIface Slab SlabRep SlabOps SlabProof HeapSpec HeapFrame RunQueue Vector.

Section Spec.
Context {PA : PageAllocator}.

(** ** [krealloc] of an object *)

Lemma realloc_size h F own L a k size :
  heap_abs h F own L -> L !! a = Some k -> k < PAGE_SIZE ->
  (p ← pg_get (phys2page (a -! h_offset h)) h;
   if tst (p_flags p) STRUCT_PAGE_FLAG_KMALLOC_BUDDY then
     match p_slot0 p with Num order => Ret (MIN order size) | Ref _ => Fault "order field holds a pointer" end
   else
     s ← _find_corresponding_slab a h;
     sp ← pg_get s h;
     c ← cache_get (p_this_cache sp) h;
     Ret (MIN (sc_obj_size c) size)) = Ret (Z.min k size).
Proof.
  intros Ha HL Hk. apply (ha_live _ _ _ _ Ha) in HL. pose proof (ho_rep _ _ _ (ha_ok _ _ _ _ Ha)) as Hr.
  inversion HL as [s ci fl b Hs Hoa Hna Hb Heq|s j Hs Heq Hb].
  2:{ destruct (hr_blocks _ _ _ _ Hr _ _ Hs) as [[Ho _ _ _] _]. cbn in Ho. pose proof (pow2_pos j ltac:(lia)). unfold PAGE_SIZE in *. lia. }
  subst. destruct (hr_own _ _ _ _ Hr _ _ Hs) as (Hci & (pg & Hpg & Hhd) & _).
  destruct (obj_phys _ _ _ _ _ _ _ _ Hr Hs Hoa) as (p & pg' & -> & _ & Hpg' & Hnb). rewrite (pg_get_some _ _ _ Hpg'). cbn [mbind outcome_bind]. rewrite Hnb.
  rewrite (find_slab_spec _ _ _ _ _ _ _ _ Hr Hs Hoa). cbn [mbind outcome_bind]. rewrite (pg_get_some _ _ _ Hpg). cbn [mbind outcome_bind]. rewrite (sh_cache _ _ _ Hhd).
  destruct (cache_get_ok _ _ _ _ ci Hr Hci) as (c & _ & -> & Hok). cbn [mbind outcome_bind]. by rewrite (cst_size _ _ (co_static _ _ _ _ Hok)), MIN_min.
Qed.

Lemma krealloc_later h F own L a k n size :
  heap_abs h F own L -> L !! a = Some k -> k < PAGE_SIZE -> 0 < size <= KMALLOC_MAX_CACHE_SIZE -> spare F (S n) ->
  returns (krealloc a size h) (fun '(ret, h') => exists F' own' L', L' = <[ret := capacity size]> (delete a L) /\ heap_abs h' F' own' L' /\ L !! ret = None /\
    size <= capacity size /\ hkeep (eq a) h h' L L' /\ spare F' n /\
    forall i, 0 <= i < Z.min k size -> rd (h_mem h') (ret + i) = u8 (rd (h_mem h) (a + i))).
Proof.
  intros Ha HL Hk Hsz Hsp. unfold krealloc. mcall (kmalloc_later h F own L n size Ha Hsz Hsp).
  intros [ret h1] (F1 & own1 & L1 & -> & Ha1 & Hn & Hc & Hla & Hsp1). pose proof (live_pos _ _ _ _ _ _ Ha HL). destruct (Z.eqb_spec a 0); [lia|].
  assert (a <> ret) as Hne by congruence. assert (<[ret := capacity size]> L !! a = Some k) as HL1 by (by rewrite lookup_insert_ne).
  cbv zeta. apply returns_assoc. mret (realloc_size h1 F1 own1 _ a k size Ha1 HL1 Hk).
  destruct (live_range _ _ _ _ _ _ (ho_rep _ _ _ (ha_ok _ _ _ _ Ha)) (proj1 (ha_live _ _ _ _ Ha a k) HL)) as (s & o & _ & Hk16 & _).
  assert (disjoint ret (capacity size) a k) as Hap by (eapply abs_apart; [exact Ha1|apply lookup_insert_eq|done|done]). unfold disjoint in Hap.
  set (m := memcpy ret a (Z.min k size) (h_mem h1)).
  assert (forall x, rd m x = if decide (ret <= x < ret + Z.min k size) then u8 (rd (h_mem h1) (a + (x - ret))) else rd (h_mem h1) x) as Hm by (intros x; apply memcpy_apart; lia).
  destruct (write_later h1 F1 own1 L ret (capacity size) m Ha1 Hn) as [Ha2 Hla2]; [intros x Hx; rewrite Hm, decide_False by lia; done|].
  pose proof (later_mid _ _ _ _ _ Hla Hla2) as Hla3.
  mcall (kfree_later (set_mem m h1) F1 own1 _ a k n Ha2 HL1 Hsp1). intros h3 (F3 & own3 & Ha3 & Hd3 & Hsp3 & Hx3). apply returns_ret.
  pose proof (hkeep_free (eq a) (set_mem m h1) h3 F1 own1 _ a k Ha2 HL1 eq_refl Hd3 Hx3) as Hk3. rewrite delete_insert_ne in Ha3, Hk3 by done.
  exists F3, own3, (<[ret := capacity size]> (delete a L)). split_and!; try done.
  - eapply hkeep_trans; [apply (hkeep_later (eq a)), Hla3|exact Hk3|done].
  - intros i Hi. rewrite Hx3 by lia. cbn [set_mem h_mem]. rewrite Hm, decide_True by lia. replace (ret + i - ret) with i by lia. f_equal.
    apply (la_mem _ _ _ _ Hla a k); [done|lia].
Qed.

(** ** The list in a vector *)

(** Element [i] of the array at [a] is [x]. *)
Definition elem_at (m : mem) (a i x : Z) : Prop :=
  read64 (a + 8 * i) m = x /\ forall o, 0 <= o < 8 -> 0 <= rd m (a + 8 * i + o) < 256.

Record vec_rep (v : vec) (L : gmap Z Z) (m : mem) (l : list Z) : Prop := {
  vr_size : v_size v = Z.of_nat (length l);
  vr_room : Z.of_nat (length l) <= v_capacity v;
  vr_block : if v_capacity v =? 0 then v_data v = 0 else L !! v_data v = Some (capacity (8 * v_capacity v)) /\ 8 * v_capacity v <= KMALLOC_MAX_CACHE_SIZE;
  vr_elems : forall i x, l !! i = Some x -> elem_at m (v_data v) (Z.of_nat i) x
}.

Lemma write_le_bytes n a v m x : a <= x < a + Z.of_nat n -> 0 <= rd (write_le n a v m) x < 256.
Proof.
  revert a v m. induction n as [|n IH]; intros a v m Hx; [lia|]. cbn [write_le]. destruct (decide (x = a)) as [->|].
  - rewrite write_le_other, rd_wr, decide_True by lia. unfold u8. by apply Z.mod_pos_bound.
  - apply IH. lia.
Qed.

Lemma elem_write m a i x : 0 <= x < 2 ^ 64 -> elem_at (write64 (a + 8 * i) x m) a i x.
Proof. intros Hx. split; [by apply read64_write64|]. intros o Ho. apply write_le_bytes. cbn. lia. Qed.

Lemma elem_ext m m' a a' i x : (forall o, 0 <= o < 8 -> rd m' (a' + 8 * i + o) = rd m (a + 8 * i + o)) -> elem_at m a i x -> elem_at m' a' i x.
Proof.
  intros Hx [Hr Hb]. split; [|intros o Ho; rewrite Hx by done; by apply Hb]. rewrite <- Hr. unfold read64. clear Hr Hb.
  assert (forall (n : nat) c, 0 <= c -> c + Z.of_nat n <= 8 -> read_le n (a' + 8 * i + c) m' = read_le n (a + 8 * i + c) m) as Hn.
  { induction n as [|n IH]; intros c Hc Hn; [done|]. cbn [read_le]. rewrite Hx by lia. rewrite <- !(Z.add_assoc _ c 1). by rewrite IH by lia. }
  specialize (Hn 8%nat 0 ltac:(lia) ltac:(lia)). by rewrite !Z.add_0_r in Hn.
Qed.

Lemma capacity_fits size : 0 < size <= KMALLOC_MAX_CACHE_SIZE -> size <= capacity size /\ (size <= 2048 -> capacity size < PAGE_SIZE).
Proof.
  intros Hs. unfold capacity. destruct (Z.leb_spec size KMALLOC_MAX_CACHE_SIZE); [|lia]. destruct (size2block_spec size) as (H1 & H2 & H3 & H4); [lia|].
  split; [done|]. intros H2k. unfold cache_ix, PAGE_SIZE in *. destruct (decide (class_of size = 0)) as [->|Hne]; [done|].
  specialize (H4 ltac:(lia)). unfold osz in *. replace (class_of size + 4) with (Z.succ (class_of size - 1 + 4)) by lia. rewrite Z.pow_succ_r by lia. lia.
Qed.

(** Others use the heap. *)
Lemma vec_keep P h h' L L' v l : hkeep P h h' L L' -> (v_capacity v <> 0 -> ~ P (v_data v)) -> vec_rep v L (h_mem h) l -> vec_rep v L' (h_mem h') l.
Proof.
  intros Hk HP [Hs Hr Hb He]. split; [done|done| |].
  - destruct (Z.eqb_spec (v_capacity v) 0); [done|]. destruct Hb as [HL Hc]. split; [|done]. by apply (hk_live _ _ _ _ _ Hk _ _ HL), HP.
  - intros i x Hi. pose proof (lookup_lt_Some _ _ _ Hi). destruct (Z.eqb_spec (v_capacity v) 0); [lia|]. destruct Hb as [HL Hc].
    destruct (capacity_fits (8 * v_capacity v) ltac:(lia)) as [Hf _].
    eapply elem_ext; [|by apply He]. intros o Ho. apply (hk_live _ _ _ _ _ Hk _ _ HL); [by apply HP|lia].
Qed.

(** Room for one more: the array moves when it is full. *)
Lemma vector_grow_spec v h F own L l n :
  vec_rep v L (h_mem h) l -> heap_abs h F own L -> spare F (S n) -> (length l <= 256)%nat ->
  returns (vector_grow 8 v h) (fun '(v', h') => exists F' own' L', heap_abs h' F' own' L' /\ spare F' n /\ hkeep (eq (v_data v)) h h' L L' /\
    vec_rep v' L' (h_mem h') l /\ v_size v' < v_capacity v' /\ (v_data v' = v_data v \/ L !! v_data v' = None)).
Proof.
  intros Hv Ha Hsp Hlen. pose proof Hv as [Hs Hr Hb He]. unfold vector_grow. rewrite Z.geb_leb. destruct (Z.leb_spec (v_capacity v) (v_size v)) as [Hfull|Hroom].
  2:{ apply returns_ret. exists F, own, L. split_and!; [done|by apply spare_less|apply hkeep_refl|done|done|by left]. }
  destruct (Z.eqb_spec (v_capacity v) 0) as [Hz|Hnz]; cbn [negb].
  - rewrite Hb. change (8 *! 8) with 64. unfold krealloc. mstep. mcall (kmalloc_later h F own L n 64 Ha ltac:(done) Hsp).
    intros [a h'] (F' & own' & L' & -> & Ha' & Hn & Hc & Hla & Hsp'). cbn [Z.eqb mbind outcome_bind]. apply returns_ret. exists F', own', (<[a := capacity 64]> L).
    split_and!; [done|done|by apply hkeep_later| |cbn; lia|by right]. split; cbn [v_size v_capacity v_data]; [done|lia|split; [apply lookup_insert_eq|done]|].
    intros i x Hi. pose proof (lookup_lt_Some _ _ _ Hi). lia.
  - destruct Hb as [HL Hc]. rewrite (u64_small (_ * 2)), u64_small by (unfold KMALLOC_MAX_CACHE_SIZE, PAGE_SIZE in *; lia).
    destruct (capacity_fits (8 * v_capacity v) ltac:(lia)) as [Hf Hpg]. destruct (capacity_fits (v_capacity v * 2 * 8) ltac:(unfold KMALLOC_MAX_CACHE_SIZE, PAGE_SIZE; lia)) as [Hf2 _].
    mcall (krealloc_later h F own L (v_data v) _ n (v_capacity v * 2 * 8) Ha HL (Hpg ltac:(lia)) ltac:(unfold KMALLOC_MAX_CACHE_SIZE, PAGE_SIZE; lia) Hsp).
    intros [a h'] (F' & own' & L' & -> & Ha' & Hn & _ & Hk & Hsp' & Hx). apply returns_ret. exists F', own', (<[a := capacity (v_capacity v * 2 * 8)]> (delete (v_data v) L)).
    split_and!; [done|done|done| |cbn; lia|by right]. split; cbn [v_size v_capacity v_data]; [done|lia| |].
    + destruct (Z.eqb_spec (v_capacity v * 2) 0); [lia|]. replace (8 * (v_capacity v * 2)) with (v_capacity v * 2 * 8) by lia.
      split; [apply lookup_insert_eq|unfold KMALLOC_MAX_CACHE_SIZE, PAGE_SIZE; lia].
    + intros i x Hi. pose proof (lookup_lt_Some _ _ _ Hi). pose proof (He i x Hi) as [_ Hby]. eapply elem_ext; [|by apply He].
      intros o Ho. rewrite <- !Z.add_assoc, Hx by lia. apply u8_small. rewrite Z.add_assoc. apply Hby. lia.
Qed.

(** Writing an element. *)
Lemma vec_write v L h F own l i x : vec_rep v L (h_mem h) l -> heap_abs h F own L -> 0 <= i < v_capacity v ->
  let m := write64 (v_data v + 8 * i) x (h_mem h) in
  heap_abs (set_mem m h) F own L /\ hkeep (eq (v_data v)) h (set_mem m h) L L /\ v_data v <> 0.
Proof.
  intros [Hs Hr Hb He] Ha Hi m. destruct (Z.eqb_spec (v_capacity v) 0); [lia|]. destruct Hb as [HL Hc]. destruct (capacity_fits (8 * v_capacity v) ltac:(lia)) as [Hf _].
  destruct (hkeep_write (eq (v_data v)) h F own L (v_data v) _ m Ha HL eq_refl) as [Ha' Hk]; [|pose proof (live_pos _ _ _ _ _ _ Ha HL); split_and!; [done|done|lia]].
  intros y Hy. apply write64_other. lia.
Qed.

Lemma push_back_spec v h F own L l n x :
  vec_rep v L (h_mem h) l -> heap_abs h F own L -> spare F (S n) -> (length l <= 256)%nat -> 0 <= x < 2 ^ 64 ->
  returns (vector_push_back v x h) (fun '(i, v', h') => exists F' own' L', i = Z.of_nat (length l) /\ heap_abs h' F' own' L' /\ spare F' n /\
    hkeep (eq (v_data v)) h h' L L' /\ vec_rep v' L' (h_mem h') (l ++ [x]) /\ (v_data v' = v_data v \/ L !! v_data v' = None)).
Proof.
  intros Hv Ha Hsp Hlen Hx. unfold vector_push_back. mcall (vector_grow_spec v h F own L l n Hv Ha Hsp Hlen).
  intros [v1 h1] (F1 & own1 & L1 & Ha1 & Hsp1 & Hk1 & Hv1 & Hroom & Hmv). pose proof Hv1 as [Hs1 Hr1 Hb1 He1]. rewrite Hs1 in *.
  destruct (vec_write v1 L1 h1 F1 own1 l (Z.of_nat (length l)) x Hv1 Ha1 ltac:(lia)) as (Ha2 & Hk2 & _).
  assert (v_size v1 +! 1 = Z.of_nat (length l) + 1) as Hsz by (rewrite u64_small; lia). cbn [v_data v_size v_capacity]. rewrite <- Hs1, Hsz, Hs1.
  apply returns_ret. exists F1, own1, L1. split; [rewrite u64_small by lia; lia|]. split; [done|]. split; [done|]. split; [|split; [|done]].
  - eapply hkeep_trans; [exact Hk1|exact Hk2|]. intros b [k Hb] <-. destruct Hmv as [->|Hno]; [done|congruence].
  - split; cbn [v_data v_size v_capacity set_mem h_mem]; [rewrite length_app; cbn; lia|rewrite length_app; cbn; lia|done|].
    intros i y [Hi|[Hi Hy]]%lookup_app_Some.
    + pose proof (lookup_lt_Some _ _ _ Hi). eapply elem_ext; [|by apply He1]. intros o Ho. apply write64_other. lia.
    + destruct (i - length l)%nat eqn:Hd; [|done]. injection Hy as <-. replace i with (length l) by lia. by apply elem_write.
Qed.

(** ** Removing *)

Lemma read_le_range n a m : (forall o, 0 <= o < Z.of_nat n -> 0 <= rd m (a + o) < 256) -> 0 <= read_le n a m < 256 ^ Z.of_nat n.
Proof.
  revert a. induction n as [|n IH]; intros a Hb; [done|]. cbn [read_le]. rewrite Nat2Z.inj_succ, Z.pow_succ_r by lia.
  pose proof (Hb 0 ltac:(lia)) as H0. rewrite Z.add_0_r in H0. assert (0 <= read_le n (a + 1) m < 256 ^ Z.of_nat n); [|lia].
  apply IH. intros o Ho. rewrite <- Z.add_assoc. apply Hb. lia.
Qed.

Lemma elem_range m a i x : elem_at m a i x -> 0 <= x < 2 ^ 64.
Proof. intros [<- Hb]. exact (read_le_range 8 (a + 8 * i) m Hb). Qed.

Lemma shift_outside k s v m y : ~ (v_data v + 8 * s <= y < v_data v + 8 * (s + Z.of_nat k)) -> rd (vector_shift k s v m) y = rd m y.
Proof.
  revert s m. induction k as [|k IH]; intros s m Hy; cbn [vector_shift]; [done|]. rewrite IH by lia. apply write64_other. lia.
Qed.

Lemma shift_elems k s v m i x : s <= i < s + Z.of_nat k -> elem_at m (v_data v) (i + 1) x -> elem_at (vector_shift k s v m) (v_data v) i x.
Proof.
  revert s m. induction k as [|k IH]; intros s m Hi He; cbn [vector_shift]; [lia|]. destruct (decide (i = s)) as [->|].
  - eapply elem_ext; [|apply (elem_write m (v_data v) s x), (elem_range _ _ _ _ He)]. intros o Ho. rewrite shift_outside by lia. by destruct He as [-> _].
  - apply IH; [lia|]. eapply elem_ext; [|exact He]. intros o Ho. apply write64_other. lia.
Qed.

Lemma vector_remove_spec v h F own L l (i : nat) :
  vec_rep v L (h_mem h) l -> heap_abs h F own L -> (i < length l)%nat -> Z.of_nat (length l) < 2 ^ 62 ->
  let '(v', h') := vector_remove v (Z.of_nat i) h in
  heap_abs h' F own L /\ hkeep (eq (v_data v)) h h' L L /\ vec_rep v' L (h_mem h') (take i l ++ drop (S i) l).
Proof.
  intros Hv Ha Hi Hl. pose proof Hv as [Hs Hr Hb He]. unfold vector_remove. rewrite Hs, Z.geb_leb. destruct (Z.leb_spec (Z.of_nat (length l)) (Z.of_nat i)); [lia|].
  rewrite u64_small by lia. set (k := Z.to_nat _). set (m := vector_shift _ _ _ _). destruct (Z.eqb_spec (v_capacity v) 0); [lia|]. pose proof Hb as [HL Hc].
  destruct (capacity_fits (8 * v_capacity v) ltac:(lia)) as [Hf _].
  destruct (hkeep_write (eq (v_data v)) h F own L (v_data v) _ m Ha HL eq_refl) as [Ha' Hk]; [intros y Hy; apply shift_outside; lia|].
  split; [done|]. split; [done|]. assert (length (take i l ++ drop (S i) l) = length l - 1)%nat as Hlen by (rewrite length_app, length_take, length_drop; lia).
  split; cbn [v_size v_capacity v_data set_mem h_mem]; [rewrite Hlen; lia|rewrite Hlen; lia|by destruct (Z.eqb_spec (v_capacity v) 0)|].
  intros j x Hj. destruct (decide (j < i)%nat).
  - rewrite lookup_app_l, lookup_take_lt in Hj by (rewrite ?length_take; lia). eapply elem_ext; [|by apply He]. intros o Ho. apply shift_outside. lia.
  - rewrite lookup_app_r, length_take, lookup_drop in Hj by (rewrite length_take; lia). replace (S i + (j - i `min` length l))%nat with (S j) in Hj by lia.
    pose proof (lookup_lt_Some _ _ _ Hj). apply shift_elems; [lia|]. replace (Z.of_nat j + 1) with (Z.of_nat (S j)) by lia. by apply He.
Qed.

(** ** Searching *)

Lemma vector_find_spec v L h l x : vec_rep v L (h_mem h) l ->
  vector_find v x h = match list_find (eq x) l with Some (i, _) => Z.of_nat i | None => VECTOR_NOT_FOUND end.
Proof.
  intros [Hs _ _ He]. unfold vector_find. rewrite Hs, Nat2Z.id.
  assert (forall l' (s : nat), (forall i y, l' !! i = Some y -> elem_at (h_mem h) (v_data v) (Z.of_nat (s + i)) y) ->
    vector_find_loop (length l') (Z.of_nat s) v x (h_mem h) = match list_find (eq x) l' with Some (i, _) => Z.of_nat (s + i) | None => VECTOR_NOT_FOUND end) as Hg.
  { induction l' as [|y l' IH]; intros s Hel; [done|]. cbn [vector_find_loop length list_find]. destruct (Hel 0%nat y eq_refl) as [Hy _]. rewrite Nat.add_0_r in Hy. rewrite Hy.
    destruct (Z.eqb_spec y x) as [->|Hne]; [rewrite decide_True by done; by rewrite Nat.add_0_r|]. rewrite decide_False by done.
    replace (Z.of_nat s + 1) with (Z.of_nat (S s)) by lia. rewrite (IH (S s)) by (intros i z Hi; replace (S s + i)%nat with (s + S i)%nat by lia; by apply Hel).
    destruct (list_find (eq x) l') as [[i z]|]; cbn; [f_equal; lia|done]. }
  by apply (Hg l 0%nat).
Qed.

End Spec.
End VectorSpec.
