(* ===== verification/Ports.v ===== *)
(** * Access to devices: ports (kernel/include/io.h) and device memory

    The processor's port instructions act on the devices behind the ports,
    which are the parameter [Ports]: what [out] does to them and what [in]
    reads from them.  [Mmio] is the same for device registers in the address
    space, which the drivers access through volatile pointers. *)

From S2P Require Import Prelude Macros Locking.

Module Ports.
Import Macros Locking.

Class Ports := {
  ports : Type;
  outb : Z -> Z -> ports -> ports;
  inb : Z -> ports -> Z * ports;
  outl : Z -> Z -> ports -> ports;
  inl : Z -> ports -> Z * ports
}.

(** Addresses are virtual; an access is of 1, 2 or 4 bytes. *)
Class Mmio := {
  mmio : Type;
  mmio_read : Z -> Z -> mmio -> Z * mmio;
  mmio_write : Z -> Z -> Z -> mmio -> mmio
}.

Section Ports.
Context {HW : Ports}.

(** ** Non-maskable interrupts (kernel/src/arch/x86-64/cpu/cpu.c) *)

Definition nmi_enable (p : ports) : ports :=
  let '(in_, p) := inb 0x70 p in
  let p := outb 0x70 (Z.land in_ 0x7F) p in
  let '(_, p) := inb 0x71 p in p.

Definition nmi_disable (p : ports) : ports :=
  let '(in_, p) := inb 0x70 p in
  let p := outb 0x70 (Z.lor in_ 0x80) p in
  let '(_, p) := inb 0x71 p in p.

(** ** The interval timer (kernel/src/arch/x86-64/timers.c) *)

Definition PIT_OSCILLATOR_FREQUENCY : Z := 1193182.

Definition pit_rate_set (freq : Z) (p : ports) : ports :=
  let reload_value := u16 (DIV_ROUNDUP PIT_OSCILLATOR_FREQUENCY freq) in
  let p := outb 0x43 52 p in
  let p := outb 0x40 (u8 reload_value) p in
  outb 0x40 (u8 (Z.shiftr reload_value 8)) p.

Definition pit_read_current (p : ports) : Z * ports :=
  let p := outb 0x43 0 p in
  let '(lo, p) := inb 0x40 p in
  let '(hi, p) := inb 0x40 p in
  (Z.lor lo (u16 (Z.shiftl hi 8)), p).

(** ** The serial ports (kernel/src/driver/serial.c) *)

Definition serial_init_port (port : Z) (p : ports) : bool * ports :=
  let p := outb (port + 7) 123 p in
  let '(loopback, p) := inb (port + 7) p in
  if negb (loopback =? 123) then (false, p)
  else
    let p := outb (port + 1) 0 p in
    let '(port_3, p) := inb (port + 3) p in
    let p := outb (port + 3) (u8 (Z.lor port_3 (Z.shiftl 1 8))) p in
    let p := outb (port + 0) 1 p in
    let p := outb (port + 1) 0 p in
    let p := outb (port + 3) (u8 (Z.land port_3 (Z.lnot 1))) p in
    let p := outb (port + 1) 1 p in
    (true, p).

Definition port_tty1 : Z := 0x3F8.
Definition port_tty2 : Z := 0x2F8.
Definition init_serial (p : ports) : bool * ports :=
  let '(a, p) := serial_init_port port_tty1 p in
  let '(b, p) := serial_init_port port_tty2 p in
  (negb (negb a || negb b), p).

(** [while (!(inb(port + 5) & (1 << 5)))] *)
Fixpoint serial_wait (fuel : nat) (port : Z) (p : ports) : outcome ports :=
  match fuel with
  | O => Fault "transmitter never ready"
  | S fuel => let '(v, p) := inb (port + 5) p in if Z.land v (Z.shiftl 1 5) =? 0 then serial_wait fuel port p else Ret p
  end.
Definition serial_out_char (fuel : nat) (port c : Z) (p : ports) : outcome ports :=
  p ← serial_wait fuel port p; Ret (outb (port + 0) c p).

(** ** The PS/2 controller (kernel/src/driver/ps2_keyboard.c) *)

Fixpoint ps2_wait (fuel : nat) (mask : Z) (set : bool) (p : ports) : outcome ports :=
  match fuel with
  | O => Fault "controller never ready"
  | S fuel => let '(v, p) := inb 0x64 p in if eqb (negb (Z.land v mask =? 0)) set then Ret p else ps2_wait fuel mask set p
  end.
Definition ps2_read (fuel : nat) (p : ports) : outcome (Z * ports) := p ← ps2_wait fuel 1 true p; Ret (inb 0x60 p).
Definition ps2_write (fuel : nat) (port value : Z) (p : ports) : outcome ports := p ← ps2_wait fuel 2 false p; Ret (outb port value p).
Definition ps2_read_config (fuel : nat) (p : ports) : outcome (Z * ports) := p ← ps2_write fuel 0x64 0x20 p; ps2_read fuel p.
Definition ps2_write_config (fuel : nat) (value : Z) (p : ports) : outcome ports := p ← ps2_write fuel 0x64 0x60 p; ps2_write fuel 0x60 value p.

End Ports.
End Ports.
