(* ===== verification/Rtc.v ===== *)
(** * The clock (kernel/src/arch/x86-64/timers.c, kernel/include/time.h)

    Reading date and time from the CMOS registers behind ports 0x70 and 0x71,
    and the Unix time of a date. *)

From S2P Require Import Prelude Macros Locking Ports.

Module Rtc.
Import Macros Locking Ports.

Definition CMOS_SELECT : Z := 0x70.
Definition CMOS_DATA : Z := 0x71.
Definition GDN_EPOCH : Z := 719162.
Definition TIME_CURRENT_YEAR : Z := 2023.

Record rtc_time_ctx_t := mk_time {
  second : Z;
  minute : Z;
  hour : Z;
  day : Z;
  month : Z;
  year : Z;
  century : Z
}.
#[global] Instance rtc_time_eq_dec : EqDecision rtc_time_ctx_t.
Proof. solve_decision. Defined.

(** [BCD2BIN] on a byte. *)
Definition BCD2BIN (val : Z) : Z := u8 (Z.land val 0x0F + Z.shiftr val 4 * 10).

Section Cmos.
Context {HW : Ports}.

(** ** Registers *)

Definition wrt_cmos_cfg_space (reg value : Z) (IF : bool) (p : ports) : outcome (bool * ports) :=
  if decide (reg = 0x0A \/ reg = 0x0B \/ reg = 0x0C \/ reg = 0x0D) then
    let '(state, IF) := preempt_fetch_disable IF in
    let p := outb CMOS_SELECT (Z.lor 0x80 reg) p in
    let p := outb CMOS_DATA value p in
    let p := nmi_enable p in
    Ret (preempt_restore state IF, p)
  else Panic "invalid cmos cfg space register selector".

Definition rtc_set_periodic (enable : Z) (IF : bool) (p : ports) : bool * ports :=
  let '(state, IF) := preempt_fetch_disable IF in
  let p := outb CMOS_SELECT 0x8B p in
  let '(prev, p) := inb CMOS_DATA p in
  let p := outb CMOS_SELECT 0x8B p in
  let p := if enable =? 0 then outb CMOS_DATA (u8 (Z.land (Z.lnot 0x40) prev)) p else outb CMOS_DATA (Z.lor 0x40 prev) p in
  (preempt_restore state IF, p).

Definition rtc_set_rate (rate : Z) (IF : bool) (p : ports) : outcome (bool * ports) :=
  if ((rate <? 3) && negb (rate =? 0)) || (rate >? 15) then Panic "invalid rtc rate"
  else
    let '(state, IF) := preempt_fetch_disable IF in
    let p := outb CMOS_SELECT 0x8A p in
    let '(prev, p) := inb CMOS_DATA p in
    let p := outb CMOS_SELECT 0x8A p in
    let p := outb CMOS_DATA (Z.lor (Z.land prev 0xF0) rate) p in
    let p := nmi_enable p in
    Ret (preempt_restore state IF, p).

Definition rtc_rd_int_type (p : ports) : Z * ports := inb CMOS_DATA (outb CMOS_SELECT 0x0C p).

Definition rtc_get_update_in_progress_flag (p : ports) : Z * ports :=
  let '(v, p) := inb CMOS_DATA (outb CMOS_SELECT 0x0A p) in (Z.land v 0x80, p).

Definition get_rtc_register (reg : Z) (p : ports) : Z * ports := inb CMOS_DATA (outb CMOS_SELECT reg p).

(** ** Reading the clock *)

(** [while (rtc_get_update_in_progress_flag()) ;] *)
Fixpoint wait_update (fuel : nat) (p : ports) : outcome ports :=
  match fuel with
  | O => Fault "update does not end"
  | S fuel => let '(f, p) := rtc_get_update_in_progress_flag p in if f =? 0 then Ret p else wait_update fuel p
  end.

(** The registers, into [curr]; [reg_century] is [fadt_ptr->century]. *)
Definition read_registers (reg_century : Z) (curr : rtc_time_ctx_t) (p : ports) : rtc_time_ctx_t * ports :=
  let '(s, p) := get_rtc_register 0x00 p in
  let '(mi, p) := get_rtc_register 0x02 p in
  let '(h, p) := get_rtc_register 0x04 p in
  let '(d, p) := get_rtc_register 0x07 p in
  let '(mo, p) := get_rtc_register 0x08 p in
  let '(y, p) := get_rtc_register 0x09 p in
  let '(c, p) := if reg_century =? 0 then (century curr, p) else get_rtc_register reg_century p in
  (mk_time s mi h d mo y c, p).

(** The [do] loop: until two readings in a row are the same. *)
Fixpoint read_twice (fuel polls : nat) (reg_century : Z) (curr : rtc_time_ctx_t) (p : ports) : outcome (rtc_time_ctx_t * ports) :=
  match fuel with
  | O => Fault "clock does not settle"
  | S fuel =>
      let last := curr in
      p ← wait_update polls p;
      let '(curr, p) := read_registers reg_century curr p in
      if decide (curr = last) then Ret (curr, p) else read_twice fuel polls reg_century curr p
  end.

(** What the registers mean. *)
Definition to_binary (reg_century binary_reg : Z) (t : rtc_time_ctx_t) : rtc_time_ctx_t :=
  if Z.land binary_reg 0x04 =? 0 then
    mk_time (BCD2BIN (second t)) (BCD2BIN (minute t))
      (u8 (Z.lor (Z.land (hour t) 0x0F + Z.shiftr (Z.land (hour t) 0x70) 4 * 10) (Z.land (hour t) 0x80)))
      (BCD2BIN (day t)) (BCD2BIN (month t)) (u16 (Z.land (year t) 0x0F + Z.shiftr (year t) 4 * 10))
      (if reg_century =? 0 then century t else BCD2BIN (century t))
  else t.

Definition to_24_hours (binary_reg : Z) (t : rtc_time_ctx_t) : rtc_time_ctx_t :=
  if (Z.land binary_reg 0x02 =? 0) && negb (Z.land (hour t) 0x80 =? 0) then
    mk_time (second t) (minute t) ((Z.land (hour t) 0x7F + 12) mod 24) (day t) (month t) (year t) (century t)
  else t.

Definition full_year (reg_century : Z) (t : rtc_time_ctx_t) : rtc_time_ctx_t :=
  let y := if reg_century =? 0 then
             let y := TIME_CURRENT_YEAR / 100 * 100 in if y <? TIME_CURRENT_YEAR then y + 100 else y
           else u16 (year t + century t * 100) in
  mk_time (second t) (minute t) (hour t) (day t) (month t) y (century t).

Definition zero_time : rtc_time_ctx_t := mk_time 0 0 0 0 0 0 0.

Definition rd_rtc (fuel polls : nat) (reg_century : Z) (p : ports) : outcome (rtc_time_ctx_t * ports) :=
  p ← wait_update polls p;
  let '(curr, p) := read_registers reg_century zero_time p in
  '(curr, p) ← read_twice fuel polls reg_century curr p;
  let '(binary_reg, p) := get_rtc_register 0x0B p in
  Ret (full_year reg_century (to_24_hours binary_reg (to_binary reg_century binary_reg curr)), p).

End Cmos.

(** ** Unix time *)

(** Day number of January 1st of a year, and whether the year is a leap year. *)
Definition year_to_gdn (year : Z) : Z * bool :=
  let year := year -! 1 in
  let cycle := year / 400 in
  let year_in_cycle := year mod 400 in
  let century := year_in_cycle / 100 in
  let year_in_century := year_in_cycle mod 100 in
  let group := year_in_century / 4 in
  let year_in_group := year_in_century mod 4 in
  (u64 (146097 * cycle + 36524 * century + 1461 * group + 365 * year_in_group),
   (year_in_group =? 3) && (negb (year_in_century =? 99) || (year_in_cycle =? 399))).

Definition month_to_gdn : list Z := [0; 31; 59; 90; 120; 151; 181; 212; 243; 273; 304; 334].

Definition rtc_time_to_gdn (t : rtc_time_ctx_t) : outcome Z :=
  let '(gdn, is_leap) := year_to_gdn (year t + 1900) in
  before ← of_option "no such month" (month_to_gdn !! Z.to_nat (month t));
  Ret (s32 gdn + before + Z.b2z (is_leap && (month t >? 1)) + (day t - 1)).

Definition rtc_time2unix_stamp (t : rtc_time_ctx_t) : outcome Z :=
  let t := mk_time (second t) (minute t) (hour t) (day t) (u8 (month t - 1)) (u16 (year t - 1900)) (century t) in
  gdn ← rtc_time_to_gdn t;
  Ret (u64 (u64 (gdn - GDN_EPOCH) *! 86400 + hour t * 3600 + minute t * 60 + second t)).

End Rtc.
