(* ===== verification/RtcTheorems.v ===== *)
(** * The clock: theorems

    Unix time counts the seconds of the calendar; reading the clock gives a
    time it has shown, also when it ticks while it is read. *)

From S2P Require Import Prelude Macros Locking Ports Rtc.

Module RtcTheorems.
Import Macros Locking Ports Rtc.

(** ** The calendar *)

Definition leap (y : Z) : bool := (y mod 4 =? 0) && (negb (y mod 100 =? 0) || (y mod 400 =? 0)).
Definition month_days (y m : Z) : Z :=
  if m =? 2 then (if leap y then 29 else 28) else if decide (m ∈ [4; 6; 9; 11]) then 30 else 31.

Record valid (t : rtc_time_ctx_t) : Prop := {
  va_second : 0 <= second t < 60;
  va_minute : 0 <= minute t < 60;
  va_hour : 0 <= hour t < 24;
  va_month : 1 <= month t <= 12;
  va_day : 1 <= day t <= month_days (year t) (month t);
  va_year : 0 <= year t
}.

Definition next_day (t : rtc_time_ctx_t) : rtc_time_ctx_t :=
  if day t <? month_days (year t) (month t) then mk_time 0 0 0 (day t + 1) (month t) (year t) (century t)
  else if month t <? 12 then mk_time 0 0 0 1 (month t + 1) (year t) (century t)
  else mk_time 0 0 0 1 1 (year t + 1) (century t).
Definition next_second (t : rtc_time_ctx_t) : rtc_time_ctx_t :=
  if second t <? 59 then mk_time (second t + 1) (minute t) (hour t) (day t) (month t) (year t) (century t)
  else if minute t <? 59 then mk_time 0 (minute t + 1) (hour t) (day t) (month t) (year t) (century t)
  else if hour t <? 23 then mk_time 0 0 (hour t + 1) (day t) (month t) (year t) (century t)
  else next_day t.

(** ** Day numbers *)

Definition years_days (y : Z) : Z := 365 * (y - 1) + (y - 1) / 4 - (y - 1) / 100 + (y - 1) / 400.

Lemma years_days_next y : 1 <= y -> years_days (y + 1) = years_days y + 365 + Z.b2z (leap y).
Proof.
  intros Hy. unfold years_days, leap. replace (y + 1 - 1) with y by lia.
  destruct (Z.eqb_spec (y mod 4) 0), (Z.eqb_spec (y mod 100) 0), (Z.eqb_spec (y mod 400) 0); cbn; Z.to_euclidean_division_equations; lia.
Qed.

Lemma year_to_gdn_spec y : 1 <= y < 2 ^ 32 -> year_to_gdn y = (years_days y, leap y).
Proof.
  intros Hy. unfold year_to_gdn. rewrite (u64_small (y - 1)) by lia. f_equal.
  - rewrite u64_small; unfold years_days; Z.to_euclidean_division_equations; lia.
  - unfold leap. set (c := (y - 1) mod 400).
    destruct (Z.eqb_spec (c mod 100 mod 4) 3), (Z.eqb_spec (c mod 100) 99), (Z.eqb_spec c 399), (Z.eqb_spec (y mod 4) 0), (Z.eqb_spec (y mod 100) 0), (Z.eqb_spec (y mod 400) 0);
      cbn; try reflexivity; exfalso; subst c; Z.to_euclidean_division_equations; lia.
Qed.

(** Days of the year before the month [m]. *)
Definition months_days (y m : Z) : Z := month_to_gdn !!! Z.to_nat (m - 1) + Z.b2z (leap y && (m >? 2)).

Lemma month_cases m : 1 <= m <= 12 -> m = 1 \/ m = 2 \/ m = 3 \/ m = 4 \/ m = 5 \/ m = 6 \/ m = 7 \/ m = 8 \/ m = 9 \/ m = 10 \/ m = 11 \/ m = 12.
Proof. lia. Qed.

Lemma months_days_next y m : 1 <= m < 12 -> months_days y (m + 1) = months_days y m + month_days y m.
Proof.
  intros Hm. assert (1 <= m <= 12) as H by lia. apply month_cases in H. unfold months_days, month_days.
  repeat destruct H as [->|H]; try subst m; destruct (leap y); try reflexivity; lia.
Qed.
Lemma months_days_last y : months_days y 12 + month_days y 12 = 365 + Z.b2z (leap y).
Proof. unfold months_days, month_days. by destruct (leap y). Qed.

Definition day_number (t : rtc_time_ctx_t) : Z := years_days (year t) + months_days (year t) (month t) + day t - 1.
Definition seconds (t : rtc_time_ctx_t) : Z := (day_number t - GDN_EPOCH) * 86400 + hour t * 3600 + minute t * 60 + second t.

Lemma years_days_mono y : 1970 <= y < 2 ^ 16 -> GDN_EPOCH <= years_days y < 2 ^ 31 - 366.
Proof. intros Hy. unfold years_days, GDN_EPOCH. Z.to_euclidean_division_equations. lia. Qed.

Lemma months_days_range y m : 1 <= m <= 12 -> 0 <= months_days y m <= 335.
Proof. intros H. apply month_cases in H. unfold months_days. repeat destruct H as [->|H]; try subst m; destruct (leap y); vm_compute; split; discriminate. Qed.
Lemma month_days_range y m : 28 <= month_days y m <= 31.
Proof. unfold month_days. repeat case_match; lia. Qed.

Lemma unix_stamp_spec t : valid t -> 1970 <= year t < 2 ^ 16 -> rtc_time2unix_stamp t = Ret (seconds t).
Proof.
  intros [Hs Hmi Hh Hmo Hd _] Hy. unfold rtc_time2unix_stamp, rtc_time_to_gdn. cbn [year month day hour minute second].
  assert (u16 (year t - 1900) + 1900 = year t) as -> by (unfold u16; rewrite Z.mod_small; lia). rewrite year_to_gdn_spec by lia.
  pose proof (years_days_mono (year t) Hy) as Hyd. unfold GDN_EPOCH in *. pose proof (months_days_range (year t) (month t) Hmo). pose proof (month_days_range (year t) (month t)).
  assert (u8 (month t - 1) = month t - 1) as -> by (unfold u8; rewrite Z.mod_small; lia).
  rewrite (list_lookup_lookup_total_lt month_to_gdn) by (cbn; lia). cbn [of_option mbind outcome_bind]. rewrite s32_small by lia.
  replace (month t - 1 >? 1) with (month t >? 2) by (destruct (Z.gtb_spec (month t) 2), (Z.gtb_spec (month t - 1) 1); lia || done).
  replace (years_days (year t) + month_to_gdn !!! Z.to_nat (month t - 1) + Z.b2z (leap (year t) && (month t >? 2)) + (day t - 1)) with (day_number t)
    by (unfold day_number, months_days; lia).
  assert (0 <= day_number t - 719162 < 2 ^ 32) as Hdn by (unfold day_number; lia).
  rewrite (u64_small (day_number t - 719162)), (u64_small ((_ - _) * _)), u64_small by lia. reflexivity.
Qed.

Lemma next_day_valid t : valid t -> valid (next_day t).
Proof.
  intros [Hs Hmi Hh Hmo Hd Hy]. unfold next_day. pose proof (month_days_range (year t) (month t + 1)). pose proof (month_days_range (year t + 1) 1).
  destruct (Z.ltb_spec (day t) (month_days (year t) (month t))); [split; cbn [second minute hour day month year]; lia|]. destruct (Z.ltb_spec (month t) 12); split; cbn [second minute hour day month year]; lia.
Qed.

Lemma next_valid t : valid t -> valid (next_second t).
Proof.
  intros Hv. pose proof Hv as [Hs Hmi Hh Hmo Hd Hy]. unfold next_second.
  destruct (Z.ltb_spec (second t) 59); [split; cbn [second minute hour day month year]; lia|]. destruct (Z.ltb_spec (minute t) 59); [split; cbn [second minute hour day month year]; lia|].
  destruct (Z.ltb_spec (hour t) 23); [split; cbn [second minute hour day month year]; lia|]. by apply next_day_valid.
Qed.

Lemma next_day_number t : valid t -> 1970 <= year t -> day_number (next_day t) = day_number t + 1.
Proof.
  intros [_ _ _ Hmo Hd _] Hy. unfold next_day, day_number. destruct (Z.ltb_spec (day t) (month_days (year t) (month t))); cbn [year month day]; [lia|].
  destruct (Z.ltb_spec (month t) 12); cbn [year month day].
  - rewrite months_days_next by lia. lia.
  - assert (month t = 12) as Hm by lia. rewrite Hm in *. rewrite years_days_next by lia. pose proof (months_days_last (year t)).
    change (months_days (year t + 1) 1) with (0 + Z.b2z (leap (year t + 1) && false)). rewrite andb_false_r. cbn. lia.
Qed.

Lemma next_seconds t : valid t -> 1970 <= year t -> seconds (next_second t) = seconds t + 1.
Proof.
  intros Hv Hy. pose proof Hv as [Hs Hmi Hh _ _ _]. unfold next_second.
  destruct (Z.ltb_spec (second t) 59); [unfold seconds, day_number; cbn; lia|]. destruct (Z.ltb_spec (minute t) 59); [unfold seconds, day_number; cbn; lia|].
  destruct (Z.ltb_spec (hour t) 23); [unfold seconds, day_number; cbn; lia|].
  unfold seconds. rewrite next_day_number by done. assert (hour (next_day t) = 0 /\ minute (next_day t) = 0 /\ second (next_day t) = 0) as (-> & -> & ->).
  { unfold next_day. by repeat case_match. }
  lia.
Qed.

(** Unix time counts the seconds of the Gregorian calendar: it is 0 at
    the start of 1970, and from any second of a day from 1970 on to the next,
    over the ends of minutes, hours, days, months, leap years and centuries,
    it grows by one. *)
Theorem unix_stamp_counts_seconds t :
  valid t -> 1970 <= year t < 2 ^ 16 - 1 ->
  rtc_time2unix_stamp (mk_time 0 0 0 1 1 1970 19) = Ret 0 /\
  exists x, rtc_time2unix_stamp t = Ret x /\ rtc_time2unix_stamp (next_second t) = Ret (x + 1).
Proof.
  intros Hv Hy. split; [reflexivity|]. exists (seconds t). rewrite !unix_stamp_spec; [|by apply next_valid| |done|lia].
  - by rewrite (next_seconds t Hv) by lia.
  - unfold next_second, next_day. repeat case_match; cbn; lia.
Qed.

Lemma unix_stamp_counts_seconds_witness :
  rtc_time2unix_stamp (mk_time 59 59 23 28 2 2000 20) = Ret 951782399 /\ rtc_time2unix_stamp (mk_time 0 0 0 29 2 2000 20) = Ret 951782400.
Proof.
  destruct (unix_stamp_counts_seconds (mk_time 59 59 23 28 2 2000 20)) as (_ & x & Hx & Hn); [split; vm_compute; first [split; congruence|congruence]|cbn; lia|].
  assert (x = 951782399) as -> by (vm_compute in Hx; congruence). by split.
Defined.

(** ** Reading the clock *)

Section Reading.
Context {HW : Ports}.

(** The clock as the processor sees it: the registers hold [before], and from
    some moment on, which may be between any two accesses, [after].
    [clock false k p]: it still holds [before]; [clock true k p]: it holds
    [after].  [k] bounds how often the update flag is still seen.  Status
    register B does not change. *)
Record ticking (clock : bool -> nat -> ports -> Prop) (before after : Z -> Z) : Prop := {
  tk_flag : forall b k p, clock b k p -> exists v p' b', inb CMOS_DATA (outb CMOS_SELECT 0x0A p) = (v, p') /\ (b = true -> b' = true) /\
    ((Z.land v 0x80 = 0 /\ clock b' k p') \/ exists j, k = S j /\ clock b' j p');
  tk_read : forall b k p reg, clock b k p -> reg <> 0x0A -> exists p' b', (b = true -> b' = true) /\
    inb CMOS_DATA (outb CMOS_SELECT reg p) = ((if b then after else before) reg, p') /\ clock b' k p';
  tk_mode : after 0x0B = before 0x0B
}.

Section Clock.
Context (clock : bool -> nat -> ports -> Prop) (before after : Z -> Z) (Hc : ticking clock before after).

Lemma wait_spec b k p n : clock b k p -> (k < n)%nat -> returns (wait_update n p) (fun p' => exists b' k', (b = true -> b' = true) /\ (k' <= k)%nat /\ clock b' k' p').
Proof.
  revert b k p. induction n as [|n IH]; intros b k p Hp Hn; [lia|]. cbn [wait_update]. unfold rtc_get_update_in_progress_flag.
  destruct (tk_flag _ _ _ Hc b k p Hp) as (v & p' & b' & -> & Hb & [[Hv Hp']|(j & -> & Hp')]); cbv beta iota.
  - rewrite Hv. cbn. exists b', k. by split_and!.
  - destruct (Z.land v 128 =? 0); [apply returns_ret; exists b', j; split_and!; [done|lia|done]|].
    eapply returns_mono; [apply (IH b' j p' Hp'); lia|]. intros q (b2 & k2 & Hb2 & Hk2 & Hq). exists b2, k2. split_and!; [tauto|lia|done].
Qed.

Lemma unticked (b b' : bool) : (b = true -> b' = true) -> b' = false -> b = false.
Proof. destruct b, b'; naive_solver. Qed.
Ltac no_tick := repeat match goal with H : ?x = true -> ?y = true, E : ?y = false |- _ => pose proof (unticked x y H E); clear H end.

(** What one round reads from registers [R]. *)
Context (reg_century : Z) (Hreg : reg_century <> 0x0A).
Definition reading (R : Z -> Z) : rtc_time_ctx_t := mk_time (R 0) (R 2) (R 4) (R 7) (R 8) (R 9) (if reg_century =? 0 then 0 else R reg_century).
Definition no_century (t : rtc_time_ctx_t) : Prop := reg_century = 0 -> century t = 0.

(** A round that starts after the tick, or ends before it, reads one time. *)
Lemma round_reads b k p curr : clock b k p -> no_century curr ->
  exists t p' b', read_registers reg_century curr p = (t, p') /\ clock b' k p' /\ (b = true -> b' = true) /\ no_century t /\
    (b = true -> t = reading after) /\ (b' = false -> t = reading before).
Proof.
  intros Hp Hcy. unfold read_registers, get_rtc_register.
  destruct (tk_read _ _ _ Hc b k p 0 Hp) as (p0 & b0 & H0 & -> & Hp0); [lia|]. destruct (tk_read _ _ _ Hc b0 k p0 2 Hp0) as (p1 & b1 & H1 & -> & Hp1); [lia|].
  destruct (tk_read _ _ _ Hc b1 k p1 4 Hp1) as (p2 & b2 & H2 & -> & Hp2); [lia|]. destruct (tk_read _ _ _ Hc b2 k p2 7 Hp2) as (p3 & b3 & H3 & -> & Hp3); [lia|].
  destruct (tk_read _ _ _ Hc b3 k p3 8 Hp3) as (p4 & b4 & H4 & -> & Hp4); [lia|]. destruct (tk_read _ _ _ Hc b4 k p4 9 Hp4) as (p5 & b5 & H5 & -> & Hp5); [lia|].
  unfold reading, no_century in *. destruct (Z.eqb_spec reg_century 0) as [Hz|Hne].
  - eexists _, p5, b5. split; [reflexivity|]. split; [done|]. split; [tauto|]. split; [done|]. rewrite (Hcy Hz). split.
    + intros Hb. rewrite Hb, H0, H1, H2, H3, H4 by tauto. done.
    + intros Hb. no_tick. by subst.
  - destruct (tk_read _ _ _ Hc b5 k p5 reg_century Hp5 Hreg) as (p6 & b6 & H6 & -> & Hp6).
    eexists _, p6, b6. split; [reflexivity|]. split; [done|]. split; [tauto|]. split; [done|]. split.
    + intros Hb. rewrite Hb, H0, H1, H2, H3, H4, H5 by tauto. done.
    + intros Hb. no_tick. by subst.
Qed.

(** A round with the wait before it. *)
Lemma waited_round b k p curr n (K : rtc_time_ctx_t -> ports -> outcome (rtc_time_ctx_t * ports)) Q :
  clock b k p -> (k < n)%nat -> no_century curr ->
  (forall t p' b' k', clock b' k' p' -> (k' <= k)%nat -> no_century t -> (b = true -> b' = true) -> (b = true -> t = reading after) -> (b' = false -> t = reading before) ->
    returns (K t p') Q) ->
  returns (p ← wait_update n p; let '(curr, p) := read_registers reg_century curr p in K curr p) Q.
Proof.
  intros Hp Hn Hcy HK. mcall (wait_spec b k p n Hp Hn). intros p1 (b1 & k1 & Hb1 & Hk1 & Hp1).
  destruct (round_reads b1 k1 p1 curr Hp1 Hcy) as (t & p2 & b2 & -> & Hp2 & Hb2 & Hct & Haf & Hbe).
  apply (HK t p2 b2 k1); auto.
Qed.

Definition settled (q : rtc_time_ctx_t * ports) : Prop := (q.1 = reading before \/ q.1 = reading after) /\ exists b k, clock b k q.2.

Lemma settle_after k p n fuel : clock true k p -> (k < n)%nat -> no_century (reading after) -> returns (read_twice (S fuel) n reg_century (reading after) p) settled.
Proof.
  intros Hp Hn Hcy. cbn [read_twice]. cbv zeta. apply (waited_round true k); [done|done|done|]. intros t p' b' k' Hp' _ _ _ Haf _. rewrite Haf by done.
  rewrite decide_True by done. split; [by right|by exists b', k'].
Qed.

Lemma settle_ticked k p n fuel curr : clock true k p -> (k < n)%nat -> no_century curr -> returns (read_twice (S (S fuel)) n reg_century curr p) settled.
Proof.
  intros Hp Hn Hcy. cbn [read_twice]. cbv zeta. apply (waited_round true k); [done|done|done|]. intros t p' b' k' Hp' Hk' Ht Hb' Haf _. rewrite (Haf eq_refl) in *.
  destruct (decide _); [split; [by right|by exists b', k']|]. rewrite (Hb' eq_refl) in Hp'. by apply (settle_after k'); [|lia|].
Qed.

(** Three more rounds are enough. *)
Lemma settle_spec b k p n fuel curr : clock b k p -> (k < n)%nat -> no_century curr -> (b = false -> curr = reading before) ->
  returns (read_twice (S (S (S fuel))) n reg_century curr p) settled.
Proof.
  intros Hp Hn Hcy Hcu. destruct b; [by apply (settle_ticked k)|]. rewrite (Hcu eq_refl) in *. clear Hcu.
  cbn [read_twice]. cbv zeta. apply (waited_round false k); [done|done|done|]. intros t p' b' k' Hp' Hk' Ht _ _ Hbe.
  destruct (decide (t = reading before)) as [->|Hne]; [split; [by left|by exists b', k']|].
  destruct b'; [|by destruct Hne; apply Hbe]. by apply (settle_ticked k'); [|lia|].
Qed.

Definition meaning (R : Z -> Z) : rtc_time_ctx_t := full_year reg_century (to_24_hours (R 0x0B) (to_binary reg_century (R 0x0B) (reading R))).

Lemma rd_rtc_spec b k p n fuel : clock b k p -> (k < n)%nat ->
  returns (rd_rtc (S (S (S fuel))) n reg_century p) (fun '(t, _) => t = meaning before \/ t = meaning after).
Proof.
  intros Hp Hn. unfold rd_rtc. apply returns_bind. eapply returns_mono; [apply (wait_spec b k p n Hp Hn)|]. intros p1 (b1 & k1 & Hb1 & Hk1 & Hp1).
  destruct (round_reads b1 k1 p1 zero_time Hp1 ltac:(done)) as (t & p2 & b2 & -> & Hp2 & Hb2 & Hct & Haf & Hbe).
  mcall (settle_spec b2 k1 p2 n fuel t Hp2 ltac:(lia) Hct Hbe). intros [u p3] [Hu (b3 & k3 & Hp3)]. cbn [fst snd] in *.
  unfold get_rtc_register. destruct (tk_read _ _ _ Hc b3 k3 p3 0x0B Hp3) as (p4 & b4 & _ & -> & _); [lia|]. cbv zeta iota.
  replace ((if b3 then after else before) 11) with (before 11) by (destruct b3; [by rewrite (tk_mode _ _ _ Hc)|done]).
  apply returns_ret. unfold meaning. rewrite (tk_mode _ _ _ Hc). destruct Hu as [-> | ->]; auto.
Qed.

End Clock.
End Reading.

(** ** Formats of the registers *)

Definition enc (binary : bool) (x : Z) : Z := if binary then x else x / 10 * 16 + x mod 10.
Definition enc_hour (binary h24 : bool) (h : Z) : Z :=
  if h24 then enc binary h else Z.lor (enc binary (if h mod 12 =? 0 then 12 else h mod 12)) (if 12 <=? h then 0x80 else 0).

(** The registers hold the time [t], in the format register B says.  With
    hours from 1 to 12, noon and midnight are left out. *)
Record shows (reg_century : Z) (R : Z -> Z) (t : rtc_time_ctx_t) : Prop := {
  sh_valid : valid t;
  sh_year : year t < 10000 /\ century t = year t / 100;
  sh_registers : let binary := negb (Z.land (R 0x0B) 0x04 =? 0) in
    R 0x00 = enc binary (second t) /\ R 0x02 = enc binary (minute t) /\ R 0x07 = enc binary (day t) /\ R 0x08 = enc binary (month t) /\
    R 0x09 = enc binary (year t mod 100) /\ R reg_century = enc binary (century t) /\
    R 0x04 = enc_hour binary (negb (Z.land (R 0x0B) 0x02 =? 0)) (hour t);
  sh_noon : Z.land (R 0x0B) 0x02 = 0 -> hour t mod 12 <> 0
}.

Lemma check_below (n : Z) (f : Z -> bool) x : forallb f (seqZ 0 n) = true -> 0 <= x < n -> f x = true.
Proof. intros Hf Hx. rewrite forallb_forall in Hf. apply Hf, list_elem_of_In, elem_of_seqZ. lia. Qed.

Lemma bcd_enc x : 0 <= x < 100 -> BCD2BIN (enc false x) = x.
Proof. intros Hx. apply Z.eqb_eq. exact (check_below 100 (fun x => BCD2BIN (enc false x) =? x) x eq_refl Hx). Qed.

Lemma bcd_year x : 0 <= x < 100 -> u16 (Z.land (enc false x) 0x0F + Z.shiftr (enc false x) 4 * 10) = x.
Proof. intros Hx. apply Z.eqb_eq. exact (check_below 100 (fun x => u16 (Z.land (enc false x) 0x0F + Z.shiftr (enc false x) 4 * 10) =? x) x eq_refl Hx). Qed.

Definition bcd_hour (h : Z) : Z := u8 (Z.lor (Z.land h 0x0F + Z.shiftr (Z.land h 0x70) 4 * 10) (Z.land h 0x80)).
Definition hour_24 (h : Z) : Z := if Z.land h 0x80 =? 0 then h else (Z.land h 0x7F + 12) mod 24.
Definition hour_ok (h : Z) : bool :=
  (bcd_hour (enc false h) =? h) && (Z.land h 0x80 =? 0) && ((h mod 12 =? 0) ||
    (bcd_hour (enc_hour false false h) =? enc_hour true false h) && (hour_24 (enc_hour true false h) =? h)).

Lemma hour_formats h : 0 <= h < 24 -> bcd_hour (enc false h) = h /\ Z.land h 0x80 = 0 /\
  (h mod 12 <> 0 -> bcd_hour (enc_hour false false h) = enc_hour true false h /\ hour_24 (enc_hour true false h) = h).
Proof.
  intros Hh. pose proof (check_below 24 hour_ok h eq_refl Hh) as Hc. unfold hour_ok in Hc.
  rewrite !andb_true_iff, orb_true_iff, andb_true_iff, !Z.eqb_eq in Hc. tauto.
Qed.

Lemma meaning_shows reg_century R t : shows reg_century R t -> reg_century <> 0 -> meaning reg_century R = t.
Proof.
  intros [[Hs Hmi Hh Hmo Hd Hy0] [Hy Hce] (Rs & Rm & Rd & Rmo & Ry & Rc & Rh) Hnoon] Hz. apply Z.eqb_neq in Hz.
  pose proof (month_days_range (year t) (month t)). destruct (hour_formats (hour t) Hh) as (Hb & H80 & H12).
  assert (0 <= year t mod 100 < 100 /\ 0 <= century t < 100 /\ year t mod 100 + century t * 100 = year t) as (Hy1 & Hc1 & Hy2) by (rewrite Hce; Z.to_euclidean_division_equations; lia).
  unfold meaning, reading, full_year, to_24_hours, to_binary. rewrite Hz, Rs, Rm, Rd, Rmo, Ry, Rc, Rh. cbn [second minute hour day month year century].
  destruct (Z.land (R 11) 4 =? 0); cbn [negb]; rewrite ?bcd_enc, ?bcd_year by lia; cbn [second minute hour day month year century].
  - fold (bcd_hour (enc_hour false (negb (Z.land (R 11) 2 =? 0)) (hour t))). destruct (Z.eqb_spec (Z.land (R 11) 2) 0) as [H2|H2]; cbn [negb andb].
    + destruct (H12 (Hnoon H2)) as [-> Hh24]. unfold hour_24 in Hh24. destruct (Z.land (enc_hour true false (hour t)) 128 =? 0) eqn:He; cbn [negb second minute hour day month year century];
        rewrite Hh24, u16_small by lia; rewrite Hy2; by destruct t.
    + cbn [enc_hour]. rewrite Hb. cbn [second minute hour day month year century]. rewrite u16_small, Hy2 by lia. by destruct t.
  - cbn [enc]. destruct (Z.eqb_spec (Z.land (R 11) 2) 0) as [H2|H2]; cbn [negb andb].
    + destruct (H12 (Hnoon H2)) as [_ Hh24]. unfold hour_24 in Hh24. destruct (Z.land (enc_hour true false (hour t)) 128 =? 0) eqn:He; cbn [negb second minute hour day month year century];
        rewrite Hh24, u16_small by lia; rewrite Hy2; by destruct t.
    + cbn [enc_hour enc second minute hour day month year century]. rewrite u16_small, Hy2 by lia. by destruct t.
Qed.

(** reading the clock.  Whatever the format of the registers, and whenever
    the clock ticks while it is read, [rd_rtc] ends, after at most three more
    rounds, with the time the clock showed before the tick or the one it shows
    after it, and never with a mixture of the two. *)
Theorem rd_rtc_consistent {HW : Ports} clock before after reg_century t0 t1 b k p n fuel :
  ticking clock before after -> clock b k p -> (k < n)%nat -> reg_century <> 0 -> reg_century <> 0x0A ->
  shows reg_century before t0 -> shows reg_century after t1 ->
  returns (rd_rtc (S (S (S fuel))) n reg_century p) (fun '(t, _) => t = t0 \/ t = t1).
Proof.
  intros Hc Hp Hn Hz Hr H0 H1. eapply returns_mono; [exact (rd_rtc_spec clock before after Hc reg_century Hr b k p n fuel Hp Hn)|].
  intros [t p']. by rewrite (meaning_shows _ _ _ H0 Hz), (meaning_shows _ _ _ H1 Hz).
Qed.

(** At noon a clock that counts hours from 1 to 12 is read as midnight, and at
    midnight as noon. *)
Lemma noon_is_midnight : hour (to_24_hours 0x04 (mk_time 0 0 (enc_hour true false 12) 1 1 23 20)) = 0.
Proof. reflexivity. Qed.
Lemma midnight_is_noon : hour (to_24_hours 0x04 (mk_time 0 0 (enc_hour true false 0) 1 1 23 20)) = 12.
Proof. reflexivity. Qed.

(** Without a century register it is always the year 2100. *)
Lemma year_lost t : year (full_year 0 t) = 2100.
Proof. reflexivity. Qed.

(** ** A clock that ticks after five registers have been read *)
Module Sample.

Record chip := mk_chip { selected : Z; left : nat }.
Definition registers (t : rtc_time_ctx_t) (reg : Z) : Z :=
  if reg =? 0x00 then enc false (second t) else if reg =? 0x02 then enc false (minute t) else if reg =? 0x04 then enc false (hour t)
  else if reg =? 0x07 then enc false (day t) else if reg =? 0x08 then enc false (month t) else if reg =? 0x09 then enc false (year t mod 100)
  else if reg =? 0x32 then enc false (century t) else if reg =? 0x0B then 2 else 0.

Definition t0 : rtc_time_ctx_t := mk_time 59 59 23 31 12 1999 19.
Definition t1 : rtc_time_ctx_t := mk_time 0 0 0 1 1 2000 20.

#[local] Instance chip_ports : Ports := {|
  ports := chip;
  outb port v c := if port =? 0x70 then mk_chip v (left c) else c;
  inb port c := (if port =? 0x71 then registers (if (left c =? 0)%nat then t1 else t0) (selected c) else 0, mk_chip (selected c) (pred (left c)));
  outl _ _ c := c;
  inl _ c := (0, c)
|}.

Lemma chip_ticking : ticking (fun b _ c => b = (left c =? 0)%nat) (registers t0) (registers t1).
Proof.
  split; [| |done].
  - intros b k p ->. exists 0, (mk_chip 0x0A (pred (left p))), (pred (left p) =? 0)%nat. split; [cbn; by destruct (left p)|]. split; [by destruct (left p) as [|[|]]|by left].
  - intros b k p reg -> _. exists (mk_chip reg (pred (left p))), (pred (left p) =? 0)%nat. split; [by destruct (left p) as [|[|]]|]. split; [|done]. cbn. by destruct (left p).
Qed.

Definition start : ports := mk_chip 0 5.
Lemma rd_rtc_consistent_witness : returns (rd_rtc 3 1 0x32 start) (fun '(t, _) => t = t0 \/ t = t1).
Proof.
  apply (rd_rtc_consistent _ _ _ 0x32 t0 t1 false 0 start 1 0 chip_ticking); [done|lia|done|done| |];
    (split; [split; vm_compute; first [split; congruence|congruence]|done|by vm_compute|done]).
Defined.

End Sample.
End RtcTheorems.
