(* ===== verification/Pci.v ===== *)
(** * The PCI bus (kernel/src/driver/pci.c, kernel/include/pci.h)

    Configuration space through device memory, the search for devices over
    the buses, and reading the base address registers of a device. *)

From stdpp Require Import gmap.
From S2P Require Import Prelude Macros Locking Mem FrameHdr FrameAlloc PageIface Slab Mmu RunQueue Vector Ports.

Module Pci.
Import Macros Locking Mem FrameHdr FrameAlloc PageIface Slab RunQueue Vector Mmu Ports.

Definition PCI_HEADER_REG0x0 : Z := 0x0.
Definition PCI_HEADER_REG0x1 : Z := 0x4.
Definition PCI_HEADER_REG0x2 : Z := 0x8.
Definition PCI_HEADER_REG0x3 : Z := 0xC.
Definition PCI_HEADER_REG0x4 : Z := 0x10.

Inductive pci_rw_size := BYTE | WORD | DOUBLE_WORD.

Record pci_device := mk_pci {
  phys_base : Z;
  bus : Z;
  dev_slot : Z;
  function : Z;
  dev_id : Z;
  vendor_id : Z;
  class_code : Z;
  subclass_code : Z;
  prog_if : Z;
  revision_id : Z
}.
Definition SIZEOF_PCI_DEVICE : Z := 24.
Definition zero_device : pci_device := mk_pci 0 0 0 0 0 0 0 0 0 0.

(** [struct acpi_mcfg_entry], at [p] *)
Definition SIZEOF_MCFG_ENTRY : Z := 16.
Definition mcfg_base (p : Z) (m : mem) : Z := read64 p m.
Definition mcfg_host_start (p : Z) (m : mem) : Z := rd m (p + 10).
Definition mcfg_host_end (p : Z) (m : mem) : Z := rd m (p + 11).

Record pci_base_addr_reg_ctx := mk_bar {
  bar_base : Z;
  bar_size : Z;
  is_mmio_bar : bool;
  is_prefetchable : bool
}.

Section Pci.
Context {PA : PageAllocator} {HW : Mmio}.

(** Found devices are known by the addresses of their structures. *)
Record pcis := mk_pcis {
  pc_heap : heap;
  pc_vmm : vmm;
  pc_io : mmio;
  pc_mcfg : vec;                        (* mcfg_entries *)
  pc_devices : vec;                     (* pci_devices *)
  pc_store : gmap Z pci_device
}.
Definition set_pc_heap (x : heap) (s : pcis) : pcis := mk_pcis x (pc_vmm s) (pc_io s) (pc_mcfg s) (pc_devices s) (pc_store s).
Definition set_pc_vmm (x : vmm) (s : pcis) : pcis := mk_pcis (pc_heap s) x (pc_io s) (pc_mcfg s) (pc_devices s) (pc_store s).
Definition set_pc_io (x : mmio) (s : pcis) : pcis := mk_pcis (pc_heap s) (pc_vmm s) x (pc_mcfg s) (pc_devices s) (pc_store s).
Definition set_pc_mcfg (x : vec) (s : pcis) : pcis := mk_pcis (pc_heap s) (pc_vmm s) (pc_io s) x (pc_devices s) (pc_store s).
Definition set_pc_devices (x : vec) (s : pcis) : pcis := mk_pcis (pc_heap s) (pc_vmm s) (pc_io s) (pc_mcfg s) x (pc_store s).
Definition set_pc_store (x : gmap Z pci_device) (s : pcis) : pcis := mk_pcis (pc_heap s) (pc_vmm s) (pc_io s) (pc_mcfg s) (pc_devices s) x.
Definition pc_mem (s : pcis) : mem := h_mem (pc_heap s).

(** ** Configuration space *)

(** The virtual address of register [reg]; [off] is [hhdm->offset]. *)
Definition dev_virt (off : Z) (d : pci_device) (reg : Z) : Z := phys_base d +! reg +! off.

Definition pci_read (off : Z) (d : pci_device) (reg : Z) (size : pci_rw_size) (io : mmio) : Z * mmio :=
  match size with
  | BYTE => mmio_read (dev_virt off d reg) 1 io
  | WORD => mmio_read (dev_virt off d reg) 2 io
  | DOUBLE_WORD => mmio_read (dev_virt off d reg) 4 io
  end.

Definition pci_write (off : Z) (d : pci_device) (reg val : Z) (size : pci_rw_size) (io : mmio) : mmio :=
  match size with
  | BYTE => mmio_write (dev_virt off d reg) 1 (u8 val) io
  | WORD => mmio_write (dev_virt off d reg) 2 (u16 val) io
  | DOUBLE_WORD => mmio_write (dev_virt off d reg) 4 (u32 val) io
  end.

(** ** Finding devices *)

(** Where the configuration space of a function is, in the segment of an
    [mcfg_entry] that has its bus. *)
Definition function_base (base host_start : Z) (d : pci_device) : Z :=
  base +! Z.lor (Z.lor (Z.shiftl (bus d - host_start) 20) (Z.shiftl (dev_slot d) 15)) (Z.shiftl (function d) 12).

(** The loop over [mcfg_entries], [n] of them from entry [i] on. *)
Fixpoint find_segment (n : nat) (i : Z) (d : pci_device) (s : pcis) : option Z :=
  match n with
  | O => None
  | S n =>
      let entry := v_data (pc_mcfg s) + SIZEOF_MCFG_ENTRY * i in
      let host_start := mcfg_host_start entry (pc_mem s) in
      if (bus d <? host_start) || (mcfg_host_end entry (pc_mem s) <? bus d) then find_segment n (i + 1) d s
      else Some (function_base (mcfg_base entry (pc_mem s)) host_start d)
  end.

Definition PM_PCI : Z := Eval vm_compute in Z.lor (Z.lor (Z.lor PM_COMMON_NX PM_COMMON_PRESENT) PM_COMMON_WRITE) PM_COMMON_PCD.

Definition pci_dev_calc_phys (d : pci_device) (s : pcis) : outcome (pci_device * pcis) :=
  match find_segment (Z.to_nat (v_size (pc_mcfg s))) 0 d s with
  | Some base =>
      let v := pc_vmm s in
      v ← mmu_map_single_page_4k (v_kernel_pml4 v) (ALIGN_DOWN (base +! v_offset v) PAGE_SIZE) (ALIGN_DOWN base PAGE_SIZE) PM_PCI v;
      Ret (mk_pci base (bus d) (dev_slot d) (function d) (dev_id d) (vendor_id d) (class_code d) (subclass_code d) (prog_if d) (revision_id d), set_pc_vmm v s)
  | None => Panic "failed to find physical address of pci device"
  end.

(** [pci_check_device] and [pci_scan_bus] call each other; [fuel] bounds how
    deep bridges are nested. *)
Definition check_device (scan_bus : Z -> pcis -> outcome pcis) (bus dev_slot function : Z) (s : pcis) : outcome pcis :=
  '(a, h) ← kcalloc 1 SIZEOF_PCI_DEVICE (pc_heap s);
  let s := set_pc_heap h s in
  '(d, s) ← pci_dev_calc_phys (mk_pci 0 bus dev_slot function 0 0 0 0 0 0) s;
  let off := v_offset (pc_vmm s) in
  let '(r, io) := pci_read off d PCI_HEADER_REG0x0 DOUBLE_WORD (pc_io s) in
  let s := set_pc_io io s in
  if r =? 0xFFFFFFFF then h ← kfree a (pc_heap s); Ret (set_pc_heap h s)
  else
    let '(reg0, io) := pci_read off d PCI_HEADER_REG0x0 DOUBLE_WORD (pc_io s) in
    let '(reg2, io) := pci_read off d PCI_HEADER_REG0x2 DOUBLE_WORD io in
    let s := set_pc_io io s in
    let d := mk_pci (phys_base d) bus dev_slot function (u16 (Z.shiftr reg0 16)) (u16 reg0)
               (u8 (Z.shiftr reg2 24)) (u8 (Z.shiftr reg2 16)) (u8 (Z.shiftr reg2 8)) (u8 reg2) in
    let s := set_pc_store (<[a := d]> (pc_store s)) s in
    s ← (if (class_code d =? 0x6) && (subclass_code d =? 0x4) then
           let '(bus_regs, io) := pci_read off d 0x18 DOUBLE_WORD (pc_io s) in
           scan_bus (Z.land (Z.shiftr bus_regs 8) 0xFF) (set_pc_io io s)
         else Ret s);
    '(_, v, h) ← vector_push_back (pc_devices s) a (pc_heap s);
    Ret (set_pc_devices v (set_pc_heap h s)).

(** The functions of a slot and the slots of a bus, [n] from [i] on. *)
Fixpoint scan_functions (n : nat) (i : Z) (check : Z -> pcis -> outcome pcis) (s : pcis) : outcome pcis :=
  match n with
  | O => Ret s
  | S n => s ← check i s; scan_functions n (i + 1) check s
  end.

Fixpoint pci_scan_bus (fuel : nat) (bus : Z) (s : pcis) : outcome pcis :=
  match fuel with
  | O => Fault "bridges nested too deep"
  | S fuel => scan_functions 32 0 (fun slot => scan_functions 8 0 (fun f => check_device (pci_scan_bus fuel) bus slot f)) s
  end.

Definition pci_check_device (fuel : nat) (bus dev_slot function : Z) (s : pcis) : outcome pcis :=
  check_device (pci_scan_bus fuel) bus dev_slot function s.

(** [mcfg_entries.push_back] for the entries of the table at [p]. *)
Fixpoint push_entries (n : nat) (p : Z) (s : pcis) : outcome pcis :=
  match n with
  | O => Ret s
  | S n =>
      '(_, v, h) ← vector_push_back_struct SIZEOF_MCFG_ENTRY (pc_mcfg s) p (pc_heap s);
      push_entries n (p + SIZEOF_MCFG_ENTRY) (set_pc_mcfg v (set_pc_heap h s))
  end.

(** The controllers of function 0 to 7 of the root. *)
Definition scan_controller (fuel : nat) (root : pci_device) (i : Z) (s : pcis) : outcome pcis :=
  '(root, s) ← pci_dev_calc_phys (mk_pci (phys_base root) (bus root) (dev_slot root) i (dev_id root) (vendor_id root) (class_code root)
    (subclass_code root) (prog_if root) (revision_id root)) s;
  let '(r, io) := pci_read (v_offset (pc_vmm s)) root PCI_HEADER_REG0x0 WORD (pc_io s) in
  let s := set_pc_io io s in
  if r =? 0xFFFF then Ret s else pci_scan_bus fuel i s.

(** [init_pci] up to the start of the drivers; [mcfg] is [mcfg_ptr]. *)
Definition scan_pci (fuel : nat) (mcfg : Z) (s : pcis) : outcome pcis :=
  if mcfg =? 0 then Panic "PCIe not available, PCI as fallback not supported"
  else
    let count := (read_le 4 (mcfg + 4) (pc_mem s) -! 36 -! 8) / SIZEOF_MCFG_ENTRY in
    if count =? 0 then Panic "PCIe not available, PCI as fallback not supported"
    else
      s ← push_entries (Z.to_nat count) (mcfg + 44) s;
      '(root, s) ← pci_dev_calc_phys zero_device s;
      let '(reg3, io) := pci_read (v_offset (pc_vmm s)) root PCI_HEADER_REG0x3 DOUBLE_WORD (pc_io s) in
      let s := set_pc_io io s in
      if Z.land reg3 (Z.shiftl 1 23) =? 0 then pci_scan_bus fuel 0 s
      else scan_functions 8 0 (scan_controller fuel root) s.

(** ** Base address registers *)

Definition pci_read_bar (off : Z) (d : pci_device) (ctx : pci_base_addr_reg_ctx) (bar_idx : Z) (io : mmio) : pci_base_addr_reg_ctx * mmio :=
  let '(cmd_reg, io) := pci_read off d PCI_HEADER_REG0x1 WORD io in
  let io := pci_write off d PCI_HEADER_REG0x1 (u32 (Z.land cmd_reg (Z.lnot 3))) WORD io in
  let reg_off := PCI_HEADER_REG0x4 + bar_idx * 0x4 in
  let '(base, io) := pci_read off d reg_off DOUBLE_WORD io in
  let io := pci_write off d reg_off 0xFFFFFFFF DOUBLE_WORD io in
  let '(size, io) := pci_read off d reg_off DOUBLE_WORD io in
  let io := pci_write off d reg_off base DOUBLE_WORD io in
  let '(ctx, io) :=
    if negb (Z.land base 1 =? 0) then
      (mk_bar (Z.land base (Z.lnot 3)) (u32 (u32 (Z.lnot (Z.land size (Z.lnot 3))) + 1)) (is_mmio_bar ctx) (is_prefetchable ctx), io)
    else
      let prefetchable := if negb (Z.land (Z.shiftr base 3) 1 =? 0) then true else is_prefetchable ctx in
      let '(base, io) :=
        if Z.land (Z.shiftr base 1) 3 =? 2 then
          let '(hi, io) := pci_read off d (reg_off + 0x4) DOUBLE_WORD io in (Z.lor base (u64 (Z.shiftl hi 32)), io)
        else (base, io) in
      (mk_bar (Z.land base (Z.lnot 15)) (u32 (u32 (Z.lnot (Z.land size (Z.lnot 15))) + 1)) true prefetchable, io) in
  (ctx, pci_write off d PCI_HEADER_REG0x1 cmd_reg WORD io).

Definition pci_set_command_reg (off : Z) (d : pci_device) (flags : Z) (io : mmio) : mmio := pci_write off d PCI_HEADER_REG0x1 flags WORD io.

End Pci.
End Pci.

(** * Base address registers

    [pci_read_bar] finds out where a device's registers are and how large
    they are by writing all ones and reading back.  For devices that keep to
    the PCI specification it gives both, and leaves the device as it was. *)

Module PciTheorems.
Import Macros Ports Pci.

Section Bar.
Context {HW : Mmio}.

(** Base address register [idx] of the function [d] is one for [2^k] bytes of
    memory; [t] are its type bits.  The low [k] bits cannot be written.  Writes
    are allowed while the function does not respond to accesses ([cmd]: the
    command register).  [hi] is the register that follows, the upper half of
    the address if the type says so. *)
Record memory_bar (off : Z) (d : pci_device) (idx k t : Z) (cmd bar hi : mmio -> Z) : Prop := {
  mb_size : 4 <= k <= 31;
  mb_type : 0 <= t < 16 /\ t mod 2 = 0;
  mb_cmd_range : forall io, 0 <= cmd io < 2 ^ 16;
  mb_bar_range : forall io, 0 <= bar io < 2 ^ 32 /\ bar io = bar io / 2 ^ k * 2 ^ k + t;
  mb_hi_range : forall io, 0 <= hi io < 2 ^ 32;
  mb_cmd_read : forall io, mmio_read (dev_virt off d PCI_HEADER_REG0x1) 2 io = (cmd io, io);
  mb_cmd_write : forall io v, 0 <= v < 2 ^ 16 -> let io' := mmio_write (dev_virt off d PCI_HEADER_REG0x1) 2 v io in
    cmd io' = v /\ bar io' = bar io /\ hi io' = hi io;
  mb_bar_read : forall io, mmio_read (dev_virt off d (PCI_HEADER_REG0x4 + idx * 4)) 4 io = (bar io, io);
  mb_bar_write : forall io v, 0 <= v < 2 ^ 32 -> Z.land (cmd io) 3 = 0 -> let io' := mmio_write (dev_virt off d (PCI_HEADER_REG0x4 + idx * 4)) 4 v io in
    cmd io' = cmd io /\ bar io' = v / 2 ^ k * 2 ^ k + t /\ hi io' = hi io;
  mb_hi_read : forall io, mmio_read (dev_virt off d (PCI_HEADER_REG0x4 + idx * 4 + 4)) 4 io = (hi io, io)
}.

Lemma land_lnot x n : 0 <= n -> Z.land x (Z.lnot (Z.ones n)) = x / 2 ^ n * 2 ^ n.
Proof. intros Hn. rewrite <- Z.ldiff_land, Z.ldiff_ones_r by done. by rewrite Z.shiftl_mul_pow2, Z.shiftr_div_pow2. Qed.

Lemma low_clear x : Z.land (x / 4 * 4) 3 = 0.
Proof. change 3 with (Z.ones 2). rewrite Z.land_ones by lia. by apply Z.mod_mul. Qed.

(** The size from what is read back after all ones were written. *)
Definition size_ok (k t : Z) : bool := u32 (u32 (Z.lnot (Z.land ((2 ^ 32 - 1) / 2 ^ k * 2 ^ k + t) (Z.lnot 15))) + 1) =? 2 ^ k.
Lemma size_back k t : 4 <= k <= 31 -> 0 <= t < 16 -> u32 (u32 (Z.lnot (Z.land ((2 ^ 32 - 1) / 2 ^ k * 2 ^ k + t) (Z.lnot 15))) + 1) = 2 ^ k.
Proof.
  intros Hk Ht. assert (forallb (fun k => forallb (size_ok k) (seqZ 0 16)) (seqZ 4 28) = true) as Hc by (vm_compute; reflexivity).
  rewrite forallb_forall in Hc. specialize (Hc k ltac:(apply list_elem_of_In, elem_of_seqZ; lia)). rewrite forallb_forall in Hc.
  apply Z.eqb_eq, (Hc t). apply list_elem_of_In, elem_of_seqZ. lia.
Qed.

(** What the type bits say. *)
Lemma type_bits q k t : 4 <= k -> 0 <= t < 16 -> t mod 2 = 0 -> let b := q * 2 ^ k + t in
  Z.land b 1 = 0 /\ Z.land (Z.shiftr b 3) 1 = t / 8 /\ Z.land (Z.shiftr b 1) 3 = t / 2 mod 4 /\ Z.land b (Z.lnot 15) = q * 2 ^ k.
Proof.
  intros Hk Ht He b. assert (exists r, q * 2 ^ k = r * 16) as [r Hr].
  { exists (q * 2 ^ (k - 4)). rewrite (pow2_split 4 k) by lia. change (2 ^ 4) with 16. lia. }
  subst b. rewrite Hr, (land_lnot _ 4) by lia. change (2 ^ 4) with 16.
  assert (forall x, Z.land x 1 = x mod 2) as H1 by (intros x; apply (Z.land_ones x 1); lia). assert (forall x, Z.land x 3 = x mod 4) as H3 by (intros x; apply (Z.land_ones x 2); lia).
  rewrite !H1, H3, !Z.shiftr_div_pow2 by lia. change (2 ^ 1) with 2. change (2 ^ 3) with 8.
  split_and!; Z.to_euclidean_division_equations; lia.
Qed.

Definition zero_bar : pci_base_addr_reg_ctx := mk_bar 0 0 false false.

(** The address in the registers. *)
Definition bar_address (t bar hi : Z) : Z := bar - t + if t / 2 mod 4 =? 2 then hi * 2 ^ 32 else 0.

Lemma lor_high x y : 0 <= x < 2 ^ 32 -> 0 <= y < 2 ^ 32 -> Z.lor x (u64 (Z.shiftl y 32)) = x + y * 2 ^ 32.
Proof.
  intros Hx Hy. rewrite u64_small by (rewrite Z.shiftl_mul_pow2; lia). rewrite <- (Z.mod_small x (2 ^ 32)) by lia.
  assert (Z.land (x mod 2 ^ 32) (Z.shiftl y 32) = 0) as Hd.
  { apply Z.bits_inj'. intros n Hn. rewrite Z.land_spec, Z.bits_0. destruct (Z.leb_spec 32 n).
    - by rewrite Z.mod_pow2_bits_high by lia.
    - rewrite Z.shiftl_spec_low by lia. apply andb_false_r. }
  rewrite <- Z.lxor_lor, <- Z.add_nocarry_lxor by done. by rewrite Z.shiftl_mul_pow2 by lia.
Qed.

(** [pci_read_bar] of a memory base address register gives the address the
    device's registers are at, both halves of it for a 64-bit one, and their
    size, and says whether they can be prefetched; while the register holds
    all ones the device does not respond to accesses, and in the end all
    registers are as before. *)
Theorem pci_read_bar_correct off d idx k t cmd bar hi io :
  memory_bar off d idx k t cmd bar hi ->
  let '(ctx, io') := pci_read_bar off d zero_bar idx io in
  ctx = mk_bar (bar_address t (bar io) (hi io)) (2 ^ k) true (8 <=? t) /\ cmd io' = cmd io /\ bar io' = bar io /\ hi io' = hi io.
Proof.
  intros [Hk [Ht He] Hcr Hbr Hhr Hcrd Hcwr Hbrd Hbwr Hhrd]. unfold pci_read_bar, pci_read, pci_write. rewrite Hcrd.
  assert (u16 (u32 (Z.land (cmd io) (Z.lnot 3))) = cmd io / 4 * 4) as Hc.
  { rewrite (land_lnot _ 2) by lia. change (2 ^ 2) with 4. specialize (Hcr io). rewrite u32_small, u16_small; Z.to_euclidean_division_equations; lia. }
  rewrite Hc. set (io1 := mmio_write _ 2 (cmd io / 4 * 4) io).
  destruct (Hcwr io (cmd io / 4 * 4)) as (Hc1 & Hb1 & Hh1); [specialize (Hcr io); Z.to_euclidean_division_equations; lia|]. fold io1 in Hc1, Hb1, Hh1.
  rewrite Hbrd. change (u32 0xFFFFFFFF) with (2 ^ 32 - 1). set (io2 := mmio_write _ 4 (2 ^ 32 - 1) io1).
  destruct (Hbwr io1 (2 ^ 32 - 1)) as (Hc2 & Hb2 & Hh2); [lia|rewrite Hc1; apply low_clear|]. fold io2 in Hc2, Hb2, Hh2.
  rewrite Hbrd, Hb2, (u32_small (bar io1)) by apply Hbr. set (io3 := mmio_write _ 4 (bar io1) io2).
  destruct (Hbwr io2 (bar io1)) as (Hc3 & Hb3 & Hh3); [apply Hbr|rewrite Hc2, Hc1; apply low_clear|]. fold io3 in Hc3, Hb3, Hh3.
  destruct (Hbr io) as [Hb0 Hbq]. assert (bar io3 = bar io) as Hb30.
  { rewrite Hb3, Hb1. symmetry. exact Hbq. }
  destruct (type_bits (bar io / 2 ^ k) k t) as (T1 & T2 & T3 & T4); [lia|done|done|]. rewrite <- Hbq in T1, T2, T3, T4.
  rewrite Hb1, T1, T2, T3, (size_back k t) by lia. cbn [negb Z.eqb].
  destruct (Hcwr io3 (cmd io)) as (Hc4 & Hb4 & Hh4); [apply Hcr|].
  assert ((if negb (t / 8 =? 0) then true else is_prefetchable zero_bar) = (8 <=? t)) as ->.
  { destruct (Z.eqb_spec (t / 8) 0), (Z.leb_spec 8 t); try done; Z.to_euclidean_division_equations; lia. }
  rewrite (u16_small (cmd io)) by apply Hcr. unfold bar_address.
  destruct (Z.eqb_spec (t / 2 mod 4) 2) as [Ht2|Ht2].
  - rewrite Hhrd, Hh3, Hh2, Hh1, lor_high, (land_lnot _ 4) by (lia || apply Hhr). split_and!; [|congruence..]. f_equal.
    rewrite (land_lnot _ 4) in T4 by lia. change (2 ^ 4) with 16 in *. change (2 ^ 32) with 4294967296 in *. Z.to_euclidean_division_equations; lia.
  - rewrite T4. split_and!; [|congruence..]. f_equal. lia.
Qed.

End Bar.

(** ** A device with one register for 16 KiB *)

Module Sample.

(** The command register, the bits of the base address that can be written,
    and the upper half of the address. *)
Record card := mk_card { r_cmd : Z; r_bar : Z; r_hi : Z }.
Definition cmd (r : card) : Z := u16 (r_cmd r).
Definition bar (r : card) : Z := r_bar r mod 2 ^ 18 * 2 ^ 14 + 12.
Definition hi (r : card) : Z := u32 (r_hi r).

(** Prefetchable memory at a 64-bit address. *)
#[local] Instance card_io : Mmio := {|
  mmio := card;
  mmio_read a _ r := (if a =? 4 then cmd r else if a =? 16 then bar r else hi r, r);
  mmio_write a _ v r :=
    if a =? 4 then mk_card v (r_bar r) (r_hi r) else if a =? 16 then mk_card (r_cmd r) (v / 2 ^ 14) (r_hi r) else r
|}.

Lemma card_bar : memory_bar 0 zero_device 0 14 12 cmd bar hi.
Proof.
  split; try done.
  - intros r. by apply Z.mod_pos_bound.
  - intros r. unfold bar. pose proof (Z.mod_pos_bound (r_bar r) (2 ^ 18) ltac:(lia)). split; [lia|]. rewrite Z.div_add_l by lia. change (12 / 2 ^ 14) with 0. lia.
  - intros r. by apply Z.mod_pos_bound.
  - intros r v Hv. cbn. split; [|done]. by apply u16_small.
  - intros r v Hv _. cbn. split; [done|]. split; [|done]. unfold bar. cbn [r_bar]. rewrite Z.mod_small; [done|]. split; [apply Z.div_pos; lia|apply Z.div_lt_upper_bound; lia].
Qed.

Lemma pci_read_bar_correct_witness :
  let '(ctx, r) := pci_read_bar 0 zero_device zero_bar 0 (mk_card 7 3 1) in
  ctx = mk_bar (2 ^ 32 + 3 * 2 ^ 14) (2 ^ 14) true true /\ cmd r = 7 /\ bar r = 3 * 2 ^ 14 + 12 /\ hi r = 1.
Proof.
  exact (pci_read_bar_correct 0 zero_device 0 14 12 cmd bar hi (mk_card 7 3 1) card_bar).
Defined.

End Sample.
End PciTheorems.
