(* ===== verification/Acpi.v ===== *)
(** * ACPI tables (kernel/src/driver/acpi.c, kernel/include/_acpi.h)

    The firmware leaves tables in memory; the kernel maps them, finds those it
    needs by their signatures and collects the interrupt controllers the
    MADT lists.  Tables are read where they are, through the direct map;
    [lit] gives the addresses of string literals.  What is printed is left
    out. *)

From stdpp Require Import gmap strings.
From S2P Require Import Prelude Macros Locking Mem CString FrameHdr FrameAlloc BuddyTheorems PageIface Slab SlabRep SlabProof HeapSpec HeapFrame HeapTheorems Mmu RunQueue Vector VectorSpec.

Module Acpi.
Import Macros Locking Mem FrameHdr FrameAlloc PageIface Slab RunQueue Vector Mmu.

Definition MADT_ENTRY_PROCESSOR_LAPIC : Z := 0.
Definition MADT_ENTRY_IO_APIC : Z := 1.
Definition MADT_ENTRY_INTERRUPT_SOURCE_OVERRIDE : Z := 2.

(** ** The structures, at [p] *)

(** [struct acpi_rsdp] *)
Definition rsdp_revision (p : Z) (m : mem) : Z := rd m (p + 15).
Definition rsdt_address (p : Z) (m : mem) : Z := read_le 4 (p + 16) m.
Definition xsdt_address (p : Z) (m : mem) : Z := read64 (p + 24) m.

(** [struct acpi_sdt_header], which the tables start with; the signature is
    its first field. *)
Definition SIZEOF_SDT_HEADER : Z := 36.
Definition sdt_length (p : Z) (m : mem) : Z := read_le 4 (p + 4) m.

(** [struct acpi_madt] and [struct acpi_madt_header] *)
Definition SIZEOF_MADT : Z := 44.
Definition lcst_id (p : Z) (m : mem) : Z := rd m p.
Definition madt_entry_length (p : Z) (m : mem) : Z := rd m (p + 1).

Section Acpi.
Context {PA : PageAllocator}.

Record acpis := mk_acpis {
  ac_heap : heap;
  ac_vmm : vmm;
  ac_xsdt_present : bool;
  ac_rsdt : Z;
  ac_fadt : Z;
  ac_madt : Z;
  ac_mcfg : Z;
  ac_ioapics : vec;
  ac_lapics : vec;
  ac_isos : vec
}.
Definition ac_mem (s : acpis) : mem := h_mem (ac_heap s).
Definition set_ac_vmm (x : vmm) (s : acpis) : acpis :=
  mk_acpis (ac_heap s) x (ac_xsdt_present s) (ac_rsdt s) (ac_fadt s) (ac_madt s) (ac_mcfg s) (ac_ioapics s) (ac_lapics s) (ac_isos s).
Definition set_ac_rsdt (b : bool) (x : Z) (s : acpis) : acpis :=
  mk_acpis (ac_heap s) (ac_vmm s) b x (ac_fadt s) (ac_madt s) (ac_mcfg s) (ac_ioapics s) (ac_lapics s) (ac_isos s).
Definition set_ac_fadt (x : Z) (s : acpis) : acpis :=
  mk_acpis (ac_heap s) (ac_vmm s) (ac_xsdt_present s) (ac_rsdt s) x (ac_madt s) (ac_mcfg s) (ac_ioapics s) (ac_lapics s) (ac_isos s).
Definition set_ac_madt (x : Z) (s : acpis) : acpis :=
  mk_acpis (ac_heap s) (ac_vmm s) (ac_xsdt_present s) (ac_rsdt s) (ac_fadt s) x (ac_mcfg s) (ac_ioapics s) (ac_lapics s) (ac_isos s).
Definition set_ac_mcfg (x : Z) (s : acpis) : acpis :=
  mk_acpis (ac_heap s) (ac_vmm s) (ac_xsdt_present s) (ac_rsdt s) (ac_fadt s) (ac_madt s) x (ac_ioapics s) (ac_lapics s) (ac_isos s).
Definition set_ac_ioapics (h : heap) (x : vec) (s : acpis) : acpis :=
  mk_acpis h (ac_vmm s) (ac_xsdt_present s) (ac_rsdt s) (ac_fadt s) (ac_madt s) (ac_mcfg s) x (ac_lapics s) (ac_isos s).
Definition set_ac_lapics (h : heap) (x : vec) (s : acpis) : acpis :=
  mk_acpis h (ac_vmm s) (ac_xsdt_present s) (ac_rsdt s) (ac_fadt s) (ac_madt s) (ac_mcfg s) (ac_ioapics s) x (ac_isos s).
Definition set_ac_isos (h : heap) (x : vec) (s : acpis) : acpis :=
  mk_acpis h (ac_vmm s) (ac_xsdt_present s) (ac_rsdt s) (ac_fadt s) (ac_madt s) (ac_mcfg s) (ac_ioapics s) (ac_lapics s) x.

(** ** Checksums *)

(** [n] bytes from [p] on are added to [sum]. *)
Fixpoint sum_bytes (n : nat) (p sum : Z) (m : mem) : Z :=
  match n with
  | O => sum
  | S n => sum_bytes n (p + 1) (u8 (sum + rd m p)) m
  end.
Definition validate_table (table_header : Z) (m : mem) : bool := sum_bytes (Z.to_nat (sdt_length table_header m)) table_header 0 m =? 0.

(** ** Finding tables *)

Definition entry_count (s : acpis) : Z := (sdt_length (ac_rsdt s) (ac_mem s) -! SIZEOF_SDT_HEADER) / (if ac_xsdt_present s then 8 else 4).

(** The header table entry [i] points to. *)
Definition table_head (i : Z) (s : acpis) : Z :=
  let table := ac_rsdt s + SIZEOF_SDT_HEADER in
  if ac_xsdt_present s then
    let head_lo := read_le 4 (table + 4 * (i * 2)) (ac_mem s) in
    let head_hi := read_le 4 (table + 4 * (i * 2 + 1)) (ac_mem s) in
    Z.lor (u64 (Z.shiftl head_hi 32)) head_lo +! v_offset (ac_vmm s)
  else read_le 4 (table + 4 * i) (ac_mem s) +! v_offset (ac_vmm s).

(** The loop from entry [i] on, [n] of them; 0 is the null pointer. *)
Fixpoint find_sdt (n : nat) (i signature : Z) (s : acpis) : Z :=
  match n with
  | O => 0
  | S n =>
      let head := table_head i s in
      if memcmp head signature 4 (ac_mem s) =? 0 then head else find_sdt n (i + 1) signature s
  end.
Definition get_sdt (signature : Z) (s : acpis) : Z := find_sdt (Z.to_nat (entry_count s)) 0 signature s.

(** ** Interrupt controllers *)

(** The body of the loop. *)
Definition add_madt_entry (madt_hdr : Z) (s : acpis) : outcome acpis :=
  let id := lcst_id madt_hdr (ac_mem s) in
  if id =? MADT_ENTRY_PROCESSOR_LAPIC then
    '(_, v, h) ← vector_push_back (ac_lapics s) madt_hdr (ac_heap s); Ret (set_ac_lapics h v s)
  else if id =? MADT_ENTRY_IO_APIC then
    '(_, v, h) ← vector_push_back (ac_ioapics s) madt_hdr (ac_heap s); Ret (set_ac_ioapics h v s)
  else if id =? MADT_ENTRY_INTERRUPT_SOURCE_OVERRIDE then
    '(_, v, h) ← vector_push_back (ac_isos s) madt_hdr (ac_heap s); Ret (set_ac_isos h v s)
  else Ret s.

(** The loop; an entry of length 0 would keep it where it is. *)
Fixpoint madt_loop (fuel : nat) (off madt : Z) (s : acpis) : outcome acpis :=
  if off <? sdt_length madt (ac_mem s) -! SIZEOF_MADT then
    match fuel with
    | O => Fault "no end of the table"
    | S fuel =>
        let madt_hdr := madt + SIZEOF_MADT + off in
        s ← add_madt_entry madt_hdr s;
        madt_loop fuel (off +! madt_entry_length madt_hdr (ac_mem s)) madt s
    end
  else Ret s.

Definition parse_madt (fuel : nat) (madt : Z) (s : acpis) : outcome acpis :=
  s ← madt_loop fuel 0 madt s;
  if v_size (ac_ioapics s) =? 0 then Panic "Systems without an IOAPIC are not supported!" else Ret s.

(** ** All of it *)

(** The page of a structure at the virtual address [p] is mapped. *)
Definition map_page_of (p : Z) (s : acpis) : outcome acpis :=
  let v := ac_vmm s in
  v ← mmu_map_single_page_4k (v_kernel_pml4 v) (ALIGN_DOWN p PAGE_SIZE) (ALIGN_DOWN (p -! v_offset v) PAGE_SIZE) (Z.lor PM_COMMON_PRESENT PM_COMMON_WRITE) v;
  Ret (set_ac_vmm v s).

Fixpoint map_tables (n : nat) (i : Z) (s : acpis) : outcome acpis :=
  match n with
  | O => Ret s
  | S n => s ← map_page_of (table_head i s) s; map_tables n (i + 1) s
  end.

(** [address] is that of the boot loader's response, [None] without one. *)
Definition parse_acpi (fuel : nat) (lit : string -> Z) (address : option Z) (s : acpis) : outcome acpis :=
  match address with
  | None => Panic "ACPI is not supported"
  | Some rsdp =>
      if rsdp =? 0 then Panic "ACPI is not supported"
      else
        s ← map_page_of rsdp s;
        let xsdt_present := rsdp_revision rsdp (ac_mem s) >=? 2 in
        let rsdt := (if xsdt_present then xsdt_address rsdp (ac_mem s) else rsdt_address rsdp (ac_mem s)) +! v_offset (ac_vmm s) in
        let s := set_ac_rsdt xsdt_present rsdt s in
        if rsdt =? 0 then Panic "ACPI is not supported"
        else
          s ← map_page_of rsdt s;
          s ← map_tables (Z.to_nat (entry_count s)) 0 s;
          let s := set_ac_fadt (get_sdt (lit "FACP") s) s in
          if (ac_fadt s =? 0) || negb (validate_table (ac_fadt s) (ac_mem s)) then Panic "FADT not found"
          else
            let s := set_ac_madt (get_sdt (lit "APIC") s) s in
            if (ac_madt s =? 0) || negb (validate_table (ac_madt s) (ac_mem s)) then Panic "MADT not found"
            else
              let s := set_ac_mcfg (get_sdt (lit "MCFG") s) s in
              if ac_mcfg s =? 0 then Panic "MCFG not found" else parse_madt fuel (ac_madt s) s
  end.

End Acpi.
End Acpi.

(** * What is found in the ACPI tables

    [get_sdt] gives the first table with a signature, [validate_table] checks
    the sum of the bytes, and [parse_madt] fills the vectors of interrupt
    controllers with the entries of the table, in order. *)

Module AcpiTheorems.
Import Macros Locking Mem CString FrameHdr FrameAlloc PageIface Slab SlabRep SlabProof HeapSpec HeapFrame RunQueue Vector VectorSpec Mmu Acpi.

(** ** Checksums *)

Definition byte_sum (n : nat) (p : Z) (m : mem) : Z := foldr Z.add 0 ((fun i => rd m (p + i)) <$> seqZ 0 (Z.of_nat n)).

Lemma sum_bytes_spec n p sum m : 0 <= sum < 256 -> sum_bytes n p sum m = u8 (sum + byte_sum n p m).
Proof.
  revert p sum. induction n as [|n IH]; intros p sum Hs; cbn [sum_bytes].
  { change (byte_sum 0 p m) with 0. rewrite Z.add_0_r, u8_small; [done|lia]. }
  rewrite IH by (by apply Z.mod_pos_bound). unfold byte_sum. rewrite (seqZ_cons 0 (Z.of_nat (S n))) by lia. cbn [fmap list_fmap foldr].
  replace (Z.pred (Z.of_nat (S n))) with (Z.of_nat n) by lia. rewrite Z.add_0_r. change (Z.succ 0) with (1 + 0). rewrite <- (fmap_add_seqZ 1 0), <- list_fmap_compose.
  unfold u8. rewrite Zplus_mod_idemp_l. f_equal. rewrite <- Z.add_assoc. do 3 f_equal. apply list_fmap_ext. intros i x _. cbn. f_equal. lia.
Qed.

(** [validate_table] accepts a table exactly if its bytes add up to a multiple
    of 256. *)
Theorem validate_table_sum p m :
  validate_table p m = true <-> (256 | byte_sum (Z.to_nat (sdt_length p m)) p m).
Proof.
  unfold validate_table. rewrite sum_bytes_spec by lia. rewrite Z.add_0_l, Z.eqb_eq. unfold u8. change (2 ^ 8) with 256. apply Z.mod_divide. lia.
Qed.

Section Tables.
Context {PA : PageAllocator}.

(** ** Tables by signature *)

(** The tables the root table points to. *)
Definition tables (s : acpis) : list Z := (fun i => table_head i s) <$> seqZ 0 (entry_count s).

Definition signed (signature : Z) (s : acpis) (head : Z) : Prop := memcmp head signature 4 (ac_mem s) = 0.
#[local] Instance signed_dec signature s head : Decision (signed signature s head).
Proof. unfold signed. apply _. Defined.

Lemma find_sdt_spec n i signature s :
  find_sdt n i signature s = default 0 (head (filter (signed signature s) ((fun i => table_head i s) <$> seqZ i (Z.of_nat n)))).
Proof.
  revert i. induction n as [|n IH]; intros i; cbn [find_sdt]; [done|]. rewrite seqZ_cons by lia. cbn [fmap list_fmap]. rewrite filter_cons. unfold signed at 1.
  replace (Z.pred (Z.of_nat (S n))) with (Z.of_nat n) by lia. destruct (Z.eqb_spec (memcmp (table_head i s) signature 4 (ac_mem s)) 0); [by rewrite decide_True|].
  rewrite decide_False by done. rewrite IH. by rewrite Z.add_1_r.
Qed.

(** [get_sdt] returns the first table of the root table that has the signature,
    and [NULL] if there is none. *)
Theorem get_sdt_first signature s : get_sdt signature s = default 0 (head (filter (signed signature s) (tables s))).
Proof.
  unfold get_sdt, tables. rewrite find_sdt_spec. destruct (Z.le_gt_cases 0 (entry_count s)); [by rewrite Z2Nat.id|].
  rewrite !seqZ_nil by lia. done.
Qed.

(** ** Interrupt controllers *)

(** Vectors that share no memory. *)
Definition apart (v w : vec) : Prop := v_capacity v <> 0 -> v_capacity w <> 0 -> v_data v <> v_data w.

Lemma push_beside v w h F own L l l' n x :
  vec_rep v L (h_mem h) l -> vec_rep w L (h_mem h) l' -> apart v w -> heap_abs h F own L -> forall v' h' F' own' L',
  heap_abs h' F' own' L' -> hkeep (eq (v_data v)) h h' L L' -> vec_rep v' L' (h_mem h') (l ++ [x]) ->
  (v_data v' = v_data v \/ L !! v_data v' = None) -> spare F' n -> vec_rep w L' (h_mem h') l' /\ apart v' w.
Proof.
  intros Hv Hw Hap Ha v' h' F' own' L' Ha' Hk Hv' Hd _.
  assert (v_capacity w <> 0 -> exists k, L !! v_data w = Some k) as Hlw.
  { intros Hc. pose proof (vr_block _ _ _ _ Hw) as Hb. destruct (Z.eqb_spec (v_capacity w) 0); [done|]. destruct Hb as [Hb _]. by eexists. }
  assert (v_capacity v = 0 -> v_data v = 0) as Hv0.
  { intros Hc. pose proof (vr_block _ _ _ _ Hv) as Hb. by rewrite Hc in Hb. }
  split.
  - eapply vec_keep; [exact Hk| |exact Hw]. intros Hc He. destruct (Hlw Hc) as [k Hl]. pose proof (live_pos _ _ _ _ _ _ Ha Hl).
    destruct (decide (v_capacity v = 0)) as [Hz|Hnz]; [specialize (Hv0 Hz); lia|]. by apply Hap.
  - intros Hc1 Hc2. destruct (Hlw Hc2) as [k Hl]. pose proof (live_pos _ _ _ _ _ _ Ha Hl). destruct Hd as [->|Hn]; [|congruence].
    destruct (decide (v_capacity v = 0)) as [Hz|Hnz]; [specialize (Hv0 Hz); lia|]. by apply Hap.
Qed.

(** The three vectors of [s]. *)
Record collected (s : acpis) (L : gmap Z Z) (ls ios os : list Z) : Prop := {
  co_lapics : vec_rep (ac_lapics s) L (ac_mem s) ls;
  co_ioapics : vec_rep (ac_ioapics s) L (ac_mem s) ios;
  co_isos : vec_rep (ac_isos s) L (ac_mem s) os;
  co_apart : apart (ac_lapics s) (ac_ioapics s) /\ apart (ac_lapics s) (ac_isos s) /\ apart (ac_ioapics s) (ac_isos s)
}.

(** The entries of a table from [p] on: identifiers and lengths. *)
Fixpoint entries_at (m : mem) (p : Z) (es : list (Z * Z)) : Prop :=
  match es with
  | [] => True
  | (id, len) :: es => lcst_id p m = id /\ madt_entry_length p m = len /\ 2 <= len < 256 /\ entries_at m (p + len) es
  end.
Definition size_of (es : list (Z * Z)) : Z := foldr Z.add 0 es.*2.

(** The addresses of those with the identifier [id]. *)
Fixpoint with_id (id p : Z) (es : list (Z * Z)) : list Z :=
  match es with
  | [] => []
  | (i, len) :: es => (if i =? id then [p] else []) ++ with_id id (p + len) es
  end.

Lemma size_of_nonneg m p es : entries_at m p es -> 0 <= size_of es.
Proof. revert p. induction es as [|[id len] es IH]; intros p; cbn; [done|]. intros (_ & _ & ? & H). specialize (IH _ H). unfold size_of in IH. lia. Qed.

Lemma entries_ext m m' p es : (forall x, p <= x < p + size_of es -> rd m' x = rd m x) -> entries_at m p es -> entries_at m' p es.
Proof.
  revert p. induction es as [|[id len] es IH]; intros p Hx; cbn; [done|]. intros (Hi & Hl & Hr & He). unfold lcst_id, madt_entry_length in *.
  pose proof (size_of_nonneg _ _ _ He). cbn in Hx. unfold size_of in *. rewrite !Hx by (cbn; lia). split_and!; try done; try lia. apply IH; [|done]. intros x Hx'. apply Hx. cbn. lia.
Qed.

(** The table at [madt], where the kernel does not write. *)
Record table_at (s : acpis) (madt : Z) (es : list (Z * Z)) : Prop := {
  ta_length : sdt_length madt (ac_mem s) = SIZEOF_MADT + size_of es;
  ta_entries : entries_at (ac_mem s) (madt + SIZEOF_MADT) es;
  ta_range : 0 <= madt /\ madt + SIZEOF_MADT + size_of es < 2 ^ 64 /\ size_of es < 2 ^ 31;
  ta_static : forall x, madt <= x < madt + SIZEOF_MADT + size_of es -> static (ac_heap s) x
}.

Lemma table_keep s s' madt es : hdone (ac_heap s) (ac_heap s') -> statics (ac_heap s) (ac_heap s') -> table_at s madt es -> table_at s' madt es.
Proof.
  intros Hd Hs [Hl He Hr Hst]. pose proof (size_of_nonneg _ _ _ He) as Hn. assert (SIZEOF_MADT = 44) as H44 by done. split; [| |done|].
  - etrans; [|exact Hl]. apply read_le_ext. intros x Hx. apply Hs, Hst. cbn in Hx. lia.
  - eapply entries_ext; [|exact He]. intros x Hx. apply Hs, Hst. lia.
  - intros x Hx. rewrite static_done by done. by apply Hst.
Qed.

(** One entry. *)
Definition only (b : bool) (x : Z) : list Z := if b then [x] else [].

Lemma entry_spec s L F own n hdr ls ios os :
  collected s L ls ios os -> heap_abs (ac_heap s) F own L -> spare F (S n) -> (length ls <= 256)%nat -> (length ios <= 256)%nat -> (length os <= 256)%nat ->
  0 <= hdr < 2 ^ 64 -> let id := lcst_id hdr (ac_mem s) in
  returns (add_madt_entry hdr s) (fun s' => exists F' own' L', heap_abs (ac_heap s') F' own' L' /\ spare F' n /\
    hdone (ac_heap s) (ac_heap s') /\ statics (ac_heap s) (ac_heap s') /\
    collected s' L' (ls ++ only (id =? 0) hdr) (ios ++ only (id =? 1) hdr) (os ++ only (id =? 2) hdr)).
Proof.
  intros [Hl Hi Ho (A1 & A2 & A3)] Ha Hsp N1 N2 N3 Hh id. unfold add_madt_entry. fold id.
  unfold MADT_ENTRY_PROCESSOR_LAPIC, MADT_ENTRY_IO_APIC, MADT_ENTRY_INTERRUPT_SOURCE_OVERRIDE.
  assert (forall v w, apart v w -> apart w v) as Hsym by (intros v w H H1 H2 He; by apply H).
  destruct (Z.eqb_spec id 0) as [->|H0]; [|destruct (Z.eqb_spec id 1) as [->|H1]; [|destruct (Z.eqb_spec id 2) as [->|H2]]]; cbn [only]; rewrite ?app_nil_r.
  - mcall (push_back_spec _ _ F own L ls n hdr Hl Ha Hsp N1 Hh). intros [[i v] h'] (F' & own' & L' & _ & Ha' & Hsp' & Hk & Hv & Hd). apply returns_ret.
    exists F', own', L'. split_and!; [done|done|apply Hk|apply Hk|].
    destruct (push_beside _ _ _ _ _ _ _ _ n hdr Hl Hi A1 Ha _ _ _ _ _ Ha' Hk Hv Hd Hsp') as [Hi' A1'].
    destruct (push_beside _ _ _ _ _ _ _ _ n hdr Hl Ho A2 Ha _ _ _ _ _ Ha' Hk Hv Hd Hsp') as [Ho' A2']. by split.
  - mcall (push_back_spec _ _ F own L ios n hdr Hi Ha Hsp N2 Hh). intros [[i v] h'] (F' & own' & L' & _ & Ha' & Hsp' & Hk & Hv & Hd). apply returns_ret.
    exists F', own', L'. split_and!; [done|done|apply Hk|apply Hk|].
    destruct (push_beside _ _ _ _ _ _ _ _ n hdr Hi Hl (Hsym _ _ A1) Ha _ _ _ _ _ Ha' Hk Hv Hd Hsp') as [Hl' A1'].
    destruct (push_beside _ _ _ _ _ _ _ _ n hdr Hi Ho A3 Ha _ _ _ _ _ Ha' Hk Hv Hd Hsp') as [Ho' A3']. split; [done..|]. split_and!; auto.
  - mcall (push_back_spec _ _ F own L os n hdr Ho Ha Hsp N3 Hh). intros [[i v] h'] (F' & own' & L' & _ & Ha' & Hsp' & Hk & Hv & Hd). apply returns_ret.
    exists F', own', L'. split_and!; [done|done|apply Hk|apply Hk|].
    destruct (push_beside _ _ _ _ _ _ _ _ n hdr Ho Hl (Hsym _ _ A2) Ha _ _ _ _ _ Ha' Hk Hv Hd Hsp') as [Hl' A2'].
    destruct (push_beside _ _ _ _ _ _ _ _ n hdr Ho Hi (Hsym _ _ A3) Ha _ _ _ _ _ Ha' Hk Hv Hd Hsp') as [Hi' A3']. split; [done..|]. split_and!; auto.
  - apply returns_ret. exists F, own, L. split_and!; [done|by apply spare_less|done|done|by split].
Qed.

(** What the loop leaves behind. *)
Definition madt_read (s : acpis) (n : nat) (ls ios os : list Z) (s' : acpis) : Prop := exists F' own' L',
  heap_abs (ac_heap s') F' own' L' /\ spare F' n /\ hdone (ac_heap s) (ac_heap s') /\ statics (ac_heap s) (ac_heap s') /\ collected s' L' ls ios os.

Lemma madt_read_trans s1 s2 n n' ls ios os ls' ios' os' s3 : madt_read s1 n ls ios os s2 -> madt_read s2 n' ls' ios' os' s3 -> madt_read s1 n' ls' ios' os' s3.
Proof.
  intros (_ & _ & _ & _ & _ & Hd & Hs & _) (F & own & L & Ha & Hsp & Hd' & Hs' & Hc). exists F, own, L. split_and!; [done|done|by etrans| |done].
  intros x Hx. rewrite Hs' by (by rewrite static_done). by apply Hs.
Qed.

Lemma madt_loop_spec es all fuel off madt s L F own n ls ios os :
  collected s L ls ios os -> heap_abs (ac_heap s) F own L -> spare F (length es + n) -> table_at s madt all ->
  entries_at (ac_mem s) (madt + SIZEOF_MADT + off) es -> 0 <= off -> off + size_of es = size_of all -> (length es <= fuel)%nat ->
  (length ls + length es <= 256)%nat -> (length ios + length es <= 256)%nat -> (length os + length es <= 256)%nat ->
  let p := madt + SIZEOF_MADT + off in
  returns (madt_loop fuel off madt s) (madt_read s n (ls ++ with_id 0 p es) (ios ++ with_id 1 p es) (os ++ with_id 2 p es)).
Proof.
  revert fuel off s L F own ls ios os. induction es as [|[id len] es IH]; intros fuel off s L F own ls ios os Hc Ha Hsp Ht He H0 Hsz Hfu N1 N2 N3 p.
  - cbn in Hsz. assert (SIZEOF_MADT = 44) as H44 by done. pose proof (ta_range _ _ _ Ht). cbn [with_id]. rewrite !app_nil_r.
    assert ((off <? sdt_length madt (ac_mem s) -! SIZEOF_MADT) = false) as Hlt by (apply Z.ltb_ge; rewrite (ta_length _ _ _ Ht), u64_small; lia).
    destruct fuel; cbn [madt_loop]; rewrite Hlt; apply returns_ret; exists F, own, L; done.
  - destruct fuel as [|fuel]; [cbn in Hfu; lia|]. cbn [length] in *. cbn [entries_at] in He. destruct He as (Hid & Hl & Hr & He).
    pose proof (size_of_nonneg _ _ _ He) as Hn. assert (SIZEOF_MADT = 44) as H44 by done. pose proof (ta_range _ _ _ Ht) as (R1 & R2 & R3).
    assert (size_of ((id, len) :: es) = len + size_of es) as Hsz' by done. cbn [madt_loop].
    assert ((off <? sdt_length madt (ac_mem s) -! SIZEOF_MADT) = true) as -> by (apply Z.ltb_lt; rewrite (ta_length _ _ _ Ht), u64_small; lia). fold p.
    mcall (entry_spec s L F own (length es + n) p ls ios os Hc Ha Hsp ltac:(lia) ltac:(lia) ltac:(lia) ltac:(lia)).
    intros s1 (F1 & own1 & L1 & Ha1 & Hsp1 & Hd1 & Hs1 & Hc1). pose proof (table_keep s s1 madt all Hd1 Hs1 Ht) as Ht1.
    assert (forall x, p <= x < p + len + size_of es -> rd (ac_mem s1) x = rd (ac_mem s) x) as Hx by (intros x Hx; apply Hs1, (ta_static _ _ _ Ht); lia).
    assert (madt_entry_length p (ac_mem s1) = len) as -> by (unfold madt_entry_length; rewrite Hx by lia; exact Hl).
    rewrite u64_small by lia. fold p in Hid. rewrite Hid in Hc1. cbn [with_id]. rewrite !app_assoc. replace (p + len) with (madt + SIZEOF_MADT + (off + len)) by (unfold p; lia).
    assert (forall b, (length (only b p) <= 1)%nat) as Ho by (by intros []; cbn; lia).
    pose proof (Ho (id =? 0)). pose proof (Ho (id =? 1)). pose proof (Ho (id =? 2)).
    eapply returns_mono; [apply (IH fuel (off + len) s1 L1 F1 own1 _ _ _ Hc1 Ha1 Hsp1 Ht1); rewrite ?length_app; try lia|].
    + eapply entries_ext; [|replace (madt + SIZEOF_MADT + (off + len)) with (p + len) by (unfold p; lia); exact He]. intros x Hx'. apply Hx. unfold p. lia.
    + intros s2. eapply madt_read_trans. by exists F1, own1, L1.
Qed.

(** [parse_madt] of a table of well-formed entries that lists an IOAPIC, with
    memory for the vectors: it returns, and the three vectors hold the
    addresses of exactly the local APIC, IOAPIC and override entries, in the
    order of the table.  As many rounds as there are entries are enough. *)
Theorem parse_madt_collects es fuel madt s L F own n :
  collected s L [] [] [] -> heap_abs (ac_heap s) F own L -> spare F (length es + n) -> table_at s madt es ->
  (length es <= 256)%nat -> (length es <= fuel)%nat -> with_id MADT_ENTRY_IO_APIC (madt + SIZEOF_MADT) es <> [] ->
  let p := madt + SIZEOF_MADT in
  returns (parse_madt fuel madt s) (madt_read s n (with_id MADT_ENTRY_PROCESSOR_LAPIC p es) (with_id MADT_ENTRY_IO_APIC p es)
    (with_id MADT_ENTRY_INTERRUPT_SOURCE_OVERRIDE p es)).
Proof.
  intros Hc Ha Hsp Ht Hn Hfu Hne p. unfold parse_madt. pose proof (madt_loop_spec es es fuel 0 madt s L F own n [] [] [] Hc Ha Hsp Ht) as Hloop.
  rewrite Z.add_0_r in Hloop. mcall Hloop; [apply Ht|lia|lia|done|cbn; lia..|]. intros s' Hs'. pose proof Hs' as (F' & own' & L' & _ & _ & _ & _ & [_ Hi _ _]).
  destruct (Z.eqb_spec (v_size (ac_ioapics s')) 0) as [Hz|_]; [|by apply returns_ret].
  rewrite (vr_size _ _ _ _ Hi) in Hz. exfalso. apply Hne. apply length_zero_iff_nil. cbn [app] in Hz. unfold MADT_ENTRY_IO_APIC. lia.
Qed.

(** An entry of length 0 keeps the loop from ending: no number of rounds is
    enough. *)
Theorem madt_empty_entry_stuck fuel off madt s :
  let hdr := madt + SIZEOF_MADT + off in
  0 <= off < sdt_length madt (ac_mem s) -! SIZEOF_MADT -> 2 < lcst_id hdr (ac_mem s) -> madt_entry_length hdr (ac_mem s) = 0 ->
  exists msg, madt_loop fuel off madt s = Fault msg.
Proof.
  intros hdr Ho Hid Hl. assert (0 <= off < 2 ^ 64) as Hr.
  { unfold u64 in Ho. pose proof (Z.mod_pos_bound (sdt_length madt (ac_mem s) - SIZEOF_MADT) (2 ^ 64) ltac:(lia)). lia. }
  induction fuel as [|fuel IH]; cbn [madt_loop]; (destruct (Z.ltb_spec off (sdt_length madt (ac_mem s) -! SIZEOF_MADT)); [|lia]); [by eexists|].
  fold hdr. assert (add_madt_entry hdr s = Ret s) as ->.
  { unfold add_madt_entry, MADT_ENTRY_PROCESSOR_LAPIC, MADT_ENTRY_IO_APIC, MADT_ENTRY_INTERRUPT_SOURCE_OVERRIDE.
    destruct (Z.eqb_spec (lcst_id hdr (ac_mem s)) 0); [lia|]. destruct (Z.eqb_spec (lcst_id hdr (ac_mem s)) 1); [lia|].
    by destruct (Z.eqb_spec (lcst_id hdr (ac_mem s)) 2); [lia|]. }
  cbn [mbind outcome_bind]. by rewrite Hl, Z.add_0_r, u64_small by lia.
Qed.

End Tables.

(** ** A machine with two processors, an IOAPIC and an override *)

Module Sample.
Import HeapTheorems.HeapTheorems HeapTheorems.HeapTheorems.Sample BuddyTheorems.BuddyTheorems.Sample.

Definition madt : Z := 0xffffffff80300000.
(** The header up to the length, the rest of it, and the entries. *)
Definition madt_bytes : list Z :=
  [65; 80; 73; 67; 82; 0; 0; 0] ++ replicate 36 0 ++
  [0; 8; 0; 0; 1; 0; 0; 0] ++ [0; 8; 1; 1; 1; 0; 0; 0] ++ [1; 12; 0; 0; 0; 0; 192; 254; 0; 0; 0; 0] ++ [2; 10; 0; 0; 2; 0; 0; 0; 0; 0].
Definition machine_madt : acpis :=
  mk_acpis (match slab_init (bss_heap st0 (write_bytes madt madt_bytes ∅) hhdm_offset) with Ret h => h | _ => bss_heap st0 ∅ hhdm_offset end)
    (mk_vmm st0 ∅ (mk_spinlock 0 false) hhdm_offset 0 48 48 0 0) false 0 0 madt 0 VECTOR_INIT VECTOR_INIT VECTOR_INIT.

Definition elems (v : vec) (s : acpis) : list Z := (fun i => read64 (v_data v + 8 * i) (ac_mem s)) <$> seqZ 0 (v_size v).

Example parse_madt_runs :
  match parse_madt 4 madt machine_madt with
  | Ret s => (elems (ac_lapics s) s, elems (ac_ioapics s) s, elems (ac_isos s) s) = ([madt + 44; madt + 52], [madt + 60], [madt + 72])
  | _ => False
  end.
Proof. vm_compute. reflexivity. Qed.

End Sample.
End AcpiTheorems.
