(* ===== verification/Apic.v ===== *)
(** * Interrupt controllers (kernel/src/arch/x86-64/cpu/apic.c)

    Routing of interrupt lines through the IOAPICs the ACPI tables list, and
    the registers of the local APIC.  The devices are the parameters [Ports]
    and [Mmio].  The calibration of the timer counts interrupts of another
    timer while it waits, and is left out. *)

From stdpp Require Import gmap.
From S2P Require Import Prelude Macros Locking Mem FrameHdr FrameAlloc PageIface Slab Mmu RunQueue Ports.

Module Apic.
Import Macros Locking Mem FrameHdr FrameAlloc PageIface Slab RunQueue Mmu Ports.

Definition PIC_MASTER_OFFSET : Z := 0x20.
Definition PIC_SLAVE_OFFSET : Z := 0x28.
Definition LAPIC_EOI_REG : Z := 0x0B0.
Definition LAPIC_LVT_TIMER_REG : Z := 0x320.
Definition LAPIC_TIMER_INITIAL_COUNT_REG : Z := 0x380.
Definition LAPIC_TIMER_DIV_CONFIG_REG : Z := 0x3E0.
Definition LAPIC_TIMER_LVTTR_ONESHOT : Z := 0.
Definition LAPIC_TIMER_LVTTR_PERIODIC : Z := 0x20000.
Definition LAPIC_ICR_REG_LOW : Z := 0x300.
Definition LAPIC_ICR_REG_HIGH : Z := 0x310.
Definition LAPIC_ICR_PENDING : Z := 1.

Inductive LAPIC_ICR_DEST := ICR_DEST_FIELD | ICR_DEST_SELF | ICR_DEST_ALL | ICR_DEST_OTHERS.
Definition dest_value (d : LAPIC_ICR_DEST) : Z :=
  match d with ICR_DEST_FIELD => 0 | ICR_DEST_SELF => 1 | ICR_DEST_ALL => 2 | ICR_DEST_OTHERS => 3 end.

(** [struct acpi_ioapic] and [struct acpi_iso], at [p] *)
Definition io_apic_address (p : Z) (m : mem) : Z := read_le 4 (p + 4) m.
Definition global_system_interrupt_base (p : Z) (m : mem) : Z := read_le 4 (p + 8) m.
Definition source_irq (p : Z) (m : mem) : Z := rd m (p + 3).
Definition global_system_interrupt (p : Z) (m : mem) : Z := read_le 4 (p + 4) m.
Definition iso_flags (p : Z) (m : mem) : Z := read_le 2 (p + 8) m.

(** [data[0]] to [data[size - 1]] of a vector of pointers *)
Definition vec_elems (v : vec) (m : mem) : list Z := (fun i => read64 (v_data v + 8 * i) m) <$> seqZ 0 (v_size v).

Section Apic.
Context {PA : PageAllocator} {IO : Ports} {HW : Mmio}.

(** Memory with the tables and vectors, [hhdm->offset], the two vectors,
    [lapic_address], and the devices. *)
Record apics := mk_apics {
  ap_mem : mem;
  ap_offset : Z;
  ap_isos : vec;
  ap_ioapics : vec;
  ap_lapic : Z;
  ap_io : mmio
}.
Definition set_ap_io (x : mmio) (s : apics) : apics := mk_apics (ap_mem s) (ap_offset s) (ap_isos s) (ap_ioapics s) (ap_lapic s) x.

(** ** IOAPIC *)

(** Where the registers of an IOAPIC are. *)
Definition ioapic_base (ioapic : Z) (s : apics) : Z := io_apic_address ioapic (ap_mem s) +! ap_offset s.

Definition ioapic_write (ioapic reg val : Z) (s : apics) : apics :=
  let io := mmio_write (ioapic_base ioapic s) 4 reg (ap_io s) in
  set_ap_io (mmio_write (ioapic_base ioapic s +! 0x10) 4 val io) s.

Definition ioapic_read (ioapic reg : Z) (s : apics) : Z * apics :=
  let io := mmio_write (ioapic_base ioapic s) 4 reg (ap_io s) in
  let '(v, io) := mmio_read (ioapic_base ioapic s +! 0x10) 4 io in (v, set_ap_io io s).

(** The first loop of [ioapic_set_irq]: the interrupt and the flags of the
    override for [irq], if there is one. *)
Fixpoint find_iso (isos : list Z) (irq : Z) (m : mem) : Z * Z :=
  match isos with
  | [] => (irq, 0)
  | p :: isos => if source_irq p m =? irq then (global_system_interrupt p m, iso_flags p m) else find_iso isos irq m
  end.

(** The second loop; [found] is 0 as long as no IOAPIC was found. *)
Fixpoint find_ioapic (ioapics : list Z) (irq found : Z) (s : apics) : Z * apics :=
  match ioapics with
  | [] => (found, s)
  | p :: ioapics =>
      let base := global_system_interrupt_base p (ap_mem s) in
      if base <=? irq then
        let '(v, s) := ioapic_read p 0x1 s in
        if irq <? u32 (base + Z.shiftr (Z.land v 0xFF0000) 16) then find_ioapic ioapics irq p s else find_ioapic ioapics irq found s
      else find_ioapic ioapics irq found s
  end.

Definition ioapic_set_irq (irq vector lapic_id : Z) (unset : bool) (s : apics) : outcome apics :=
  let '(irq, flags) := find_iso (vec_elems (ap_isos s) (ap_mem s)) irq (ap_mem s) in
  let '(ioapic, s) := find_ioapic (vec_elems (ap_ioapics s) (ap_mem s)) irq 0 s in
  if ioapic =? 0 then Panic "IRQL isn't mapped to any IOAPIC!"
  else
    let entry_high := u32 (Z.shiftl lapic_id 24) in
    let entry_low := vector in
    let entry_low := if negb (Z.land flags 3 =? 0) then Z.lor entry_low (Z.shiftl 1 13) else entry_low in
    let entry_low := if negb (Z.land flags 12 =? 0) then Z.lor entry_low (Z.shiftl 1 15) else entry_low in
    let '(entry_low, entry_high) := if unset then (0, 0) else (entry_low, entry_high) in
    let table_index := u32 ((irq - global_system_interrupt_base ioapic (ap_mem s)) * 2) in
    let s := ioapic_write ioapic (u32 (0x10 + table_index)) entry_low s in
    Ret (ioapic_write ioapic (u32 (0x10 + table_index + 1)) entry_high s).

Definition ioapic_redirect_irq (irq vector lapic_id : Z) (s : apics) : outcome apics := ioapic_set_irq irq vector lapic_id false s.
Definition ioapic_remove_irq (irq lapic_id : Z) (s : apics) : outcome apics := ioapic_set_irq irq 0 lapic_id true s.

(** The pages of the IOAPICs are mapped. *)
Fixpoint map_ioapics (ioapics : list Z) (s : apics) (v : vmm) : outcome vmm :=
  match ioapics with
  | [] => Ret v
  | p :: ioapics =>
      let a := io_apic_address p (ap_mem s) in
      v ← mmu_map_single_page_4k (v_kernel_pml4 v) (ALIGN_DOWN (a +! v_offset v) PAGE_SIZE) (ALIGN_DOWN a PAGE_SIZE)
            (Z.lor PM_COMMON_PRESENT PM_COMMON_WRITE) v;
      map_ioapics ioapics s v
  end.

(** The old interrupt controllers are set up and masked. *)
Definition init_ioapic (s : apics) (p : ports) (v : vmm) : outcome (ports * vmm) :=
  let p := outb 0x20 17 p in
  let p := outb 0xA0 17 p in
  let p := outb 0x21 PIC_MASTER_OFFSET p in
  let p := outb 0xA1 PIC_SLAVE_OFFSET p in
  let p := outb 0x21 4 p in
  let p := outb 0xA1 2 p in
  let p := outb 0x21 5 p in
  let p := outb 0xA1 1 p in
  let p := outb 0x21 0xFF p in
  let p := outb 0xA1 0xFF p in
  v ← map_ioapics (vec_elems (ap_ioapics s) (ap_mem s)) s v;
  Ret (p, v).

(** ** Local APIC *)

Definition lapic_read (reg : Z) (s : apics) : Z * apics :=
  let '(v, io) := mmio_read (ap_lapic s +! reg) 4 (ap_io s) in (v, set_ap_io io s).
Definition lapic_write (reg val : Z) (s : apics) : apics := set_ap_io (mmio_write (ap_lapic s +! reg) 4 (u32 val) (ap_io s)) s.

Definition lapic_send_eoi_signal (s : apics) : apics := lapic_write LAPIC_EOI_REG 0 s.

(** [clock] is [lapic_clock_frequency] of the core. *)
Definition lapic_timer_periodic (clock vector freq : Z) (s : apics) : outcome apics :=
  if freq =? 0 then Fault "division by zero"
  else
    let count_per_tick := u32 (clock / freq) in
    let s := lapic_write LAPIC_TIMER_DIV_CONFIG_REG 11 s in
    let s := lapic_write LAPIC_TIMER_INITIAL_COUNT_REG count_per_tick s in
    Ret (lapic_write LAPIC_LVT_TIMER_REG (Z.lor vector LAPIC_TIMER_LVTTR_PERIODIC) s).

Definition lapic_timer_halt (s : apics) : apics :=
  let s := lapic_write LAPIC_LVT_TIMER_REG (Z.shiftl 1 16) s in
  lapic_write LAPIC_TIMER_INITIAL_COUNT_REG 0 s.

Definition lapic_timer_oneshot_us (clock vector us : Z) (s : apics) : apics :=
  let ticks_per_us := u32 (clock / 1000000) in
  let s := lapic_write LAPIC_TIMER_DIV_CONFIG_REG 11 s in
  let s := lapic_write LAPIC_TIMER_INITIAL_COUNT_REG (ticks_per_us *! us) s in
  lapic_write LAPIC_LVT_TIMER_REG (Z.lor vector LAPIC_TIMER_LVTTR_ONESHOT) s.

Definition lapic_timer_oneshot_ms (clock vector ms : Z) (s : apics) : apics :=
  let ticks_per_ms := u32 (clock / 1000 / 128) in
  let s := lapic_write LAPIC_TIMER_DIV_CONFIG_REG 10 s in
  let s := lapic_write LAPIC_TIMER_INITIAL_COUNT_REG (ticks_per_ms *! ms) s in
  lapic_write LAPIC_LVT_TIMER_REG (Z.lor vector LAPIC_TIMER_LVTTR_ONESHOT) s.

(** The loop tests a variable that nothing changes: it ends at once or never. *)
Definition lapic_send_ipi (lapic_id vector : Z) (dest : LAPIC_ICR_DEST) (s : apics) : outcome apics :=
  let '(icr_low, s) := lapic_read LAPIC_ICR_REG_LOW s in
  if negb (Z.land icr_low (Z.shiftl LAPIC_ICR_PENDING 12) =? 0) then Fault "loop on a local variable"
  else
    let '(low, s) := lapic_read LAPIC_ICR_REG_LOW s in
    let icr_low := Z.land low 0xFFF32000 in
    let '(high, s) := lapic_read LAPIC_ICR_REG_HIGH s in
    let icr_high := Z.land high 0x00FFFFFF in
    let s := lapic_write LAPIC_ICR_REG_HIGH
               (match dest with ICR_DEST_FIELD => Z.lor icr_high (u32 (Z.shiftl lapic_id 24)) | _ => icr_high end) s in
    Ret (lapic_write LAPIC_ICR_REG_LOW (Z.lor (Z.lor icr_low (Z.shiftl (dest_value dest) 18)) vector) s).

End Apic.
End Apic.

(** * Routing of interrupts

    For IOAPICs that keep to their data sheet, [ioapic_set_irq] programs the
    redirection entry of the line the override for the interrupt names, and no
    other register of any IOAPIC; an interrupt no IOAPIC takes is a panic.
    The test for the range takes the largest entry number for the number of
    entries, so the last line of every IOAPIC belongs to none. *)

Module ApicTheorems.
Import Macros Locking Mem FrameHdr FrameAlloc PageIface Slab RunQueue Mmu Ports Apic.

(** The bits of a redirection entry that can be written: those of the lower
    half (even registers), and the destination in the upper half. *)
Definition writable (r v : Z) : Prop :=
  if Z.even r then Z.land v (Z.lnot 0x1AFFF) = 0 else Z.land v 0xFFFFFF = 0 /\ 0 <= v < 2 ^ 32.

(** The largest entry number, in the version register. *)
Definition max_entry (version : Z) : Z := Z.shiftr (Z.land version 0xFF0000) 16.

Section Routing.
Context {HW : Mmio}.

(** The IOAPICs at the addresses [A]: [sel] is the register selected, [reg]
    the registers.  Register indices have eight bits. *)
Record ioapic_devices (A : Z -> Prop) (sel : Z -> mmio -> Z) (reg : Z -> mmio -> Z -> Z) : Prop := {
  id_entries : forall a io, A a -> max_entry (reg a io 1) < 120;
  id_select : forall a r io, A a -> 0 <= r < 256 -> let io' := mmio_write a 4 r io in
    sel a io' = r /\ forall b x, A b -> reg b io' x = reg b io x;
  id_write : forall a v io, A a -> 0x10 <= sel a io -> writable (sel a io) v -> let io' := mmio_write (a +! 0x10) 4 v io in
    forall b x, A b -> reg b io' x = if decide (b = a /\ x = sel a io) then v else reg b io x;
  id_read : forall a io, A a -> mmio_read (a +! 0x10) 4 io = (reg a io (sel a io), io)
}.

Context (A : Z -> Prop) (sel : Z -> mmio -> Z) (reg : Z -> mmio -> Z -> Z) (Hdev : ioapic_devices A sel reg).

(** [s'] is [s] but for the devices, with the registers the same. *)
Definition same_regs (s s' : apics) : Prop :=
  s' = set_ap_io (ap_io s') s /\ forall b x, A b -> reg b (ap_io s') x = reg b (ap_io s) x.

Lemma same_regs_refl s : same_regs s s.
Proof. by destruct s. Qed.
Lemma same_regs_trans s1 s2 s3 : same_regs s1 s2 -> same_regs s2 s3 -> same_regs s1 s3.
Proof. intros [E1 H1] [E2 H2]. split; [rewrite E2, E1; done|]. intros b x Hb. by rewrite H2, H1. Qed.

Lemma ioapic_read_spec p r s : A (ioapic_base p s) -> 0 <= r < 256 ->
  exists s', ioapic_read p r s = (reg (ioapic_base p s) (ap_io s) r, s') /\ same_regs s s'.
Proof.
  intros Ha Hr. unfold ioapic_read. destruct (id_select _ _ _ Hdev _ _ (ap_io s) Ha Hr) as [Hs Hk].
  rewrite (id_read _ _ _ Hdev _ _ Ha), Hs, Hk by done. eexists. split; [done|]. by split.
Qed.

Lemma ioapic_write_spec p r v s : A (ioapic_base p s) -> 0x10 <= r < 256 -> writable r v ->
  let s' := ioapic_write p r v s in s' = set_ap_io (ap_io s') s /\
  forall b x, A b -> reg b (ap_io s') x = if decide (b = ioapic_base p s /\ x = r) then v else reg b (ap_io s) x.
Proof.
  intros Ha Hr Hv. destruct (id_select _ _ _ Hdev _ r (ap_io s) Ha ltac:(lia)) as [Hs Hk].
  split; [done|]. intros b x Hb. cbn [ioapic_write ap_io set_ap_io].
  pose proof (id_write _ _ _ Hdev _ v (mmio_write (ioapic_base p s) 4 r (ap_io s)) Ha) as W. rewrite Hs in W.
  rewrite (W ltac:(lia) Hv b x Hb). by rewrite Hk.
Qed.

(** What takes the place of [irq]: the first override for it, or itself. *)
Definition overridden (isos : list Z) (m : mem) (irq gsi flags : Z) : Prop :=
  (exists l1 p l2, isos = l1 ++ p :: l2 /\ Forall (fun q => source_irq q m <> irq) l1 /\ source_irq p m = irq /\
    gsi = global_system_interrupt p m /\ flags = iso_flags p m)
  \/ (Forall (fun q => source_irq q m <> irq) isos /\ gsi = irq /\ flags = 0).

Lemma find_iso_spec isos m irq gsi flags : overridden isos m irq gsi flags -> find_iso isos irq m = (gsi, flags).
Proof.
  intros [(l1 & p & l2 & -> & Hl & Hp & -> & ->)|(Hl & -> & ->)]; induction Hl as [|q l Hq Hl IH]; simpl; try done.
  - by rewrite (proj2 (Z.eqb_eq _ _) Hp).
  - rewrite (proj2 (Z.eqb_neq _ _) Hq). done.
  - rewrite (proj2 (Z.eqb_neq _ _) Hq). done.
Qed.

(** The IOAPIC [p] takes the interrupt, as the code tests it. *)
Definition takes (p gsi : Z) (s : apics) : Prop :=
  let base := global_system_interrupt_base p (ap_mem s) in
  base <= gsi < u32 (base + max_entry (reg (ioapic_base p s) (ap_io s) 1)).

Lemma takes_same p gsi s s' : A (ioapic_base p s) -> same_regs s s' -> takes p gsi s' <-> takes p gsi s.
Proof.
  intros Ha [E H]. unfold takes. rewrite <- (H (ioapic_base p s) 1 Ha).
  replace (ioapic_base p s') with (ioapic_base p s) by (rewrite E; done). replace (ap_mem s') with (ap_mem s) by (rewrite E; done). done.
Qed.

(** The second loop finds the last IOAPIC that takes the interrupt. *)
Lemma find_ioapic_spec l gsi found s : Forall (fun p => A (ioapic_base p s)) l ->
  exists p s', find_ioapic l gsi found s = (p, s') /\ same_regs s s' /\
    ((p ∈ l /\ takes p gsi s) \/ (p = found /\ forall q, q ∈ l -> ~ takes q gsi s)).
Proof.
  revert found s. induction l as [|q l IH]; intros found s Hl; simpl.
  { exists found, s. split_and!; [done|apply same_regs_refl|]. right. split; [done|]. by intros q ?%not_elem_of_nil. }
  apply Forall_cons in Hl as [Hq Hl].
  destruct (Z.leb_spec (global_system_interrupt_base q (ap_mem s)) gsi) as [Hb|Hb].
  - destruct (ioapic_read_spec q 1 s Hq ltac:(lia)) as (s1 & -> & Hs1).
    assert (Forall (fun p => A (ioapic_base p s1)) l) as Hl1.
    { eapply Forall_impl; [exact Hl|]. intros x Hx. rewrite (proj1 Hs1). exact Hx. }
    assert (forall f, exists p s', find_ioapic l gsi f s1 = (p, s') /\ same_regs s s' /\
      ((p ∈ l /\ takes p gsi s) \/ (p = f /\ forall x, x ∈ l -> ~ takes x gsi s))) as Hrec.
    { intros f. destruct (IH f s1 Hl1) as (p & s' & E & Hs & Hp). exists p, s'.
      split_and!; [done|by eapply same_regs_trans|]. rewrite Forall_forall in Hl.
      destruct Hp as [[Hi Ht]|[-> Hn]]; [left|right]; (split; [done|]).
      - apply (takes_same p gsi s s1); auto.
      - intros x Hx Ht. apply (Hn x Hx). apply (takes_same x gsi s s1); auto. }
    fold (max_entry (reg (ioapic_base q s) (ap_io s) 1)).
    case_match eqn:Hc; [apply Z.ltb_lt in Hc|apply Z.ltb_ge in Hc]; [destruct (Hrec q) as (p & s' & E & Hs & Hp)|destruct (Hrec found) as (p & s' & E & Hs & Hp)];
      exists p, s'; (split_and!; [done..|]); destruct Hp as [[Hi Ht]|[-> Hn]]; try (left; split; [by right|done]).
    + left. split; [by left|]. done.
    + right. split; [done|]. intros x [->|Hx]%elem_of_cons; [|by apply Hn]. intros [_ Ht]. lia.
  - destruct (IH found s Hl) as (p & s' & E & Hs & Hp). exists p, s'. split_and!; [done..|].
    destruct Hp as [[Hi Ht]|[-> Hn]]; [left; split; [by right|done]|].
    right. split; [done|]. intros x [->|Hx]%elem_of_cons; [|by apply Hn]. intros [? _]. lia.
Qed.

(** The two halves of the entry for a line. *)
Definition entry_low (vector flags : Z) : Z :=
  let e := if negb (Z.land flags 3 =? 0) then Z.lor vector (Z.shiftl 1 13) else vector in
  if negb (Z.land flags 12 =? 0) then Z.lor e (Z.shiftl 1 15) else e.

Lemma entry_low_writable vector flags r : 0 <= vector < 256 -> Z.even r = true -> writable r (entry_low vector flags).
Proof.
  intros Hv Hr. unfold writable. rewrite Hr.
  assert (forallb (fun v => forallb (fun x => Z.land (Z.lor v x) (Z.lnot 0x1AFFF) =? 0) [0; 0x2000; 0x8000; 0xA000]) (seqZ 0 256) = true) as Hc by (vm_compute; reflexivity).
  rewrite forallb_forall in Hc. specialize (Hc vector ltac:(apply list_elem_of_In, elem_of_seqZ; lia)). simpl in Hc.
  repeat (apply andb_prop in Hc as [?%Z.eqb_eq Hc]). unfold entry_low.
  destruct (negb (Z.land flags 3 =? 0)), (negb (Z.land flags 12 =? 0)); rewrite <- ?Z.lor_assoc; try done.
  by rewrite Z.lor_0_r in *.
Qed.

Lemma entry_high_writable lapic_id r : 0 <= lapic_id < 256 -> Z.even r = false -> u32 (Z.shiftl lapic_id 24) = lapic_id * 2 ^ 24 /\ writable r (lapic_id * 2 ^ 24).
Proof.
  intros Hv Hr. unfold writable. rewrite Hr, Z.shiftl_mul_pow2, u32_small by lia. split; [done|]. split; [|lia].
  change 0xFFFFFF with (Z.ones 24). rewrite Z.land_ones by lia. by apply Z.mod_mul.
Qed.

(** The registers after the entry [k] of the IOAPIC at [a] was set. *)
Definition entry_set (a k low high : Z) (s s' : apics) : Prop :=
  s' = set_ap_io (ap_io s') s /\
  forall b x, A b -> reg b (ap_io s') x =
    if decide (b = a /\ x = 0x10 + 2 * k) then low else if decide (b = a /\ x = 0x10 + 2 * k + 1) then high else reg b (ap_io s) x.

Lemma write_entry p k low high s s1 : A (ioapic_base p s) -> same_regs s s1 -> 0 <= k < 120 ->
  writable (0x10 + 2 * k) low -> writable (0x10 + 2 * k + 1) high ->
  entry_set (ioapic_base p s) k low high s (ioapic_write p (0x10 + 2 * k + 1) high (ioapic_write p (0x10 + 2 * k) low s1)).
Proof.
  intros Ha Hs Hk Hlo Hhi. assert (ioapic_base p s1 = ioapic_base p s) as Eb by (rewrite (proj1 Hs); done).
  destruct (ioapic_write_spec p (0x10 + 2 * k) low s1 ltac:(by rewrite Eb) ltac:(lia) Hlo) as [E1 W1].
  set (s2 := ioapic_write p (0x10 + 2 * k) low s1) in *.
  assert (ioapic_base p s2 = ioapic_base p s) as Eb2 by (rewrite E1; done).
  destruct (ioapic_write_spec p (0x10 + 2 * k + 1) high s2 ltac:(by rewrite Eb2) ltac:(lia) Hhi) as [E2 W2].
  split; [rewrite E2, E1, (proj1 Hs); done|]. intros b x Hb. rewrite W2, W1, (proj2 Hs), Eb, Eb2 by done.
  repeat case_decide; try done; lia.
Qed.

Section Irq.
Context (s : apics) (irq gsi flags : Z).
Context (Hall : Forall (fun p => p <> 0 /\ A (ioapic_base p s)) (vec_elems (ap_ioapics s) (ap_mem s))).
Context (Hov : overridden (vec_elems (ap_isos s) (ap_mem s)) (ap_mem s) irq gsi flags).

Lemma set_irq_spec p vector lapic_id unset : p ∈ vec_elems (ap_ioapics s) (ap_mem s) -> takes p gsi s ->
  (forall q, q ∈ vec_elems (ap_ioapics s) (ap_mem s) -> takes q gsi s -> q = p) ->
  0 <= global_system_interrupt_base p (ap_mem s) -> gsi < 2 ^ 32 -> 0 <= vector < 256 -> 0 <= lapic_id < 256 ->
  exists s', ioapic_set_irq irq vector lapic_id unset s = Ret s' /\
    entry_set (ioapic_base p s) (gsi - global_system_interrupt_base p (ap_mem s))
      (if unset then 0 else entry_low vector flags) (if unset then 0 else lapic_id * 2 ^ 24) s s'.
Proof.
  intros Hp Ht Huniq Hbase Hgsi Hvec Hid. unfold ioapic_set_irq. rewrite (find_iso_spec _ _ _ _ _ Hov).
  assert (Forall (fun p => A (ioapic_base p s)) (vec_elems (ap_ioapics s) (ap_mem s))) as HA by (eapply Forall_impl; [exact Hall|by intros ? []]).
  destruct (find_ioapic_spec _ gsi 0 s HA) as (q & s1 & -> & Hs & Hq).
  assert (q = p) as ->. { destruct Hq as [[Hi Hqt]|[-> Hn]]; [by apply Huniq|]. by destruct (Hn p Hp). }
  rewrite Forall_forall in Hall. destruct (Hall p Hp) as [Hp0 Ha]. rewrite (proj2 (Z.eqb_neq _ _) Hp0).
  replace (ap_mem s1) with (ap_mem s) by (rewrite (proj1 Hs); done).
  set (base := global_system_interrupt_base p (ap_mem s)) in *. set (k := gsi - base).
  assert (0 <= k < 120) as Hk.
  { destruct Ht as [H1 H2]. fold base in H1, H2. pose proof (id_entries _ _ _ Hdev _ (ap_io s) Ha).
    assert (0 <= base + max_entry (reg (ioapic_base p s) (ap_io s) 1)).
    { apply Z.add_nonneg_nonneg; [done|]. apply Z.shiftr_nonneg, Z.land_nonneg. lia. }
    assert (u32 (base + max_entry (reg (ioapic_base p s) (ap_io s) 1)) <= base + max_entry (reg (ioapic_base p s) (ap_io s) 1)).
    { apply Z.mod_le; lia. }
    lia. }
  rewrite (u32_small (k * 2)), (u32_small (0x10 + k * 2)), (u32_small (0x10 + k * 2 + 1)) by lia. replace (k * 2) with (2 * k) by lia.
  assert (Z.even (0x10 + 2 * k) = true) as He by (rewrite Z.even_add, Z.even_mul; done).
  assert (Z.even (0x10 + 2 * k + 1) = false) as Ho by (rewrite !Z.even_add, Z.even_mul; done).
  destruct (entry_high_writable lapic_id _ Hid Ho) as [Eh Wh]. rewrite Eh.
  destruct unset; eexists; (split; [done|]); apply write_entry; try done.
  - unfold writable. by rewrite He.
  - unfold writable. rewrite Ho. split; [done|lia].
  - by apply entry_low_writable.
Qed.

(** Routing an interrupt programs its entry: the vector, polarity and trigger
    mode of the override and the destination, and nothing else. *)
Theorem ioapic_redirect_irq_routes p vector lapic_id : p ∈ vec_elems (ap_ioapics s) (ap_mem s) -> takes p gsi s ->
  (forall q, q ∈ vec_elems (ap_ioapics s) (ap_mem s) -> takes q gsi s -> q = p) ->
  0 <= global_system_interrupt_base p (ap_mem s) -> gsi < 2 ^ 32 -> 0 <= vector < 256 -> 0 <= lapic_id < 256 ->
  exists s', ioapic_redirect_irq irq vector lapic_id s = Ret s' /\
    entry_set (ioapic_base p s) (gsi - global_system_interrupt_base p (ap_mem s)) (entry_low vector flags) (lapic_id * 2 ^ 24) s s'.
Proof. apply (set_irq_spec p vector lapic_id false). Qed.

(** Removing it clears the entry. *)
Theorem ioapic_remove_irq_clears p lapic_id : p ∈ vec_elems (ap_ioapics s) (ap_mem s) -> takes p gsi s ->
  (forall q, q ∈ vec_elems (ap_ioapics s) (ap_mem s) -> takes q gsi s -> q = p) ->
  0 <= global_system_interrupt_base p (ap_mem s) -> gsi < 2 ^ 32 -> 0 <= lapic_id < 256 ->
  exists s', ioapic_remove_irq irq lapic_id s = Ret s' /\
    entry_set (ioapic_base p s) (gsi - global_system_interrupt_base p (ap_mem s)) 0 0 s s'.
Proof. intros. by apply (set_irq_spec p 0 lapic_id true). Qed.

(** An interrupt no IOAPIC takes is a panic. *)
Theorem ioapic_set_irq_panics vector lapic_id unset : (forall q, q ∈ vec_elems (ap_ioapics s) (ap_mem s) -> ~ takes q gsi s) ->
  ioapic_set_irq irq vector lapic_id unset s = Panic "IRQL isn't mapped to any IOAPIC!".
Proof.
  intros Hn. unfold ioapic_set_irq. rewrite (find_iso_spec _ _ _ _ _ Hov).
  assert (Forall (fun p => A (ioapic_base p s)) (vec_elems (ap_ioapics s) (ap_mem s))) as HA by (eapply Forall_impl; [exact Hall|by intros ? []]).
  destruct (find_ioapic_spec _ gsi 0 s HA) as (q & s1 & -> & Hs & [[Hi Hq]|[-> _]]); [|done]. by destruct (Hn q Hi).
Qed.

End Irq.

(** The last line of an IOAPIC, number [max_entry], is not one it takes. *)
Theorem last_line_not_taken p s : let base := global_system_interrupt_base p (ap_mem s) in
  let last := max_entry (reg (ioapic_base p s) (ap_io s) 1) in 0 <= base + last < 2 ^ 32 -> ~ takes p (base + last) s.
Proof. intros base last Hr [_ H]. fold base last in H. rewrite u32_small in H by done. lia. Qed.

End Routing.

(** ** One IOAPIC with 24 entries, and an override of interrupt 0 *)
Module Sample.

Definition ioapic_addr : Z := 0xFEC00000.

#[local] Instance one_ioapic : Mmio := {|
  mmio := Z * gmap Z Z;
  mmio_read := fun a _ io => (if a =? ioapic_addr + 0x10 then if io.1 =? 1 then 0x170011 else default 0 (io.2 !! io.1) else 0, io);
  mmio_write := fun a _ v io => if a =? ioapic_addr then (v, io.2) else if a =? ioapic_addr + 0x10 then (io.1, <[io.1 := v]> io.2) else io
|}.

Definition sel0 (a : Z) (io : mmio) : Z := io.1.
Definition reg0 (a : Z) (io : mmio) (r : Z) : Z := if r =? 1 then 0x170011 else default 0 (io.2 !! r).

Lemma one_ioapic_obeys : ioapic_devices (eq ioapic_addr) sel0 reg0.
Proof.
  split; [intros a io <-; vm_compute; done|..].
  - intros a r io <- Hr. done.
  - intros a v io <- Hs Hw io' b x <-. unfold io', reg0, sel0 in *. simpl.
    destruct (Z.eqb_spec x 1) as [->|Hx].
    + rewrite decide_False by (intros [_ H]; lia). done.
    + case_decide as Hd; [destruct Hd as [_ ->]; by rewrite lookup_insert_eq|]. rewrite lookup_insert_ne; [done|]. intros <-. by apply Hd.
  - intros a io <-. done.
Qed.

(** Interrupt 0 is line 2, active low; the vectors hold one entry each. *)
Definition isos0 : vec := {| v_size := 1; v_capacity := 1; v_data := 0x1000 |}.
Definition ioapics0 : vec := {| v_size := 1; v_capacity := 1; v_data := 0x1010 |}.
Definition mem0 : mem :=
  list_to_map [(0x1001, 0x20); (0x1011, 0x21);
               (0x2003, 0); (0x2004, 2); (0x2008, 3);
               (0x2106, 0xC0); (0x2107, 0xFE)].
Definition apics0 : apics := mk_apics mem0 0 isos0 ioapics0 0xFEE00000 (0, ∅).

(** The routing theorem applies to it. *)
Example route_timer : exists s', ioapic_redirect_irq 0 0x30 1 apics0 = Ret s' /\
  entry_set (eq ioapic_addr) reg0 ioapic_addr 2 0x2030 0x1000000 apics0 s'.
Proof.
  apply (ioapic_redirect_irq_routes (eq ioapic_addr) sel0 reg0 one_ioapic_obeys apics0 0 2 3 ltac:(by repeat constructor) ltac:(left; by exists [], 0x2000, []) 0x2100 0x30 1);
    try done; [by left|].
  by intros q ->%list_elem_of_singleton _.
Qed.

End Sample.
End ApicTheorems.
